(* ===== verification/_CoqProject ===== *)
-Q . S2P
Prelude.v
Memory.v
MinMaxHeap.v
Vector.v
ExclusiveTime.v
CString.v
Strings.v
Hash.v
HashMap.v
HashTree.v
StringPool.v
Metrics.v
SegmentTree.v
Json.v
Buffer.v
Base64.v
LogEvents.v
Random.v
AnalyticsEvents.v
AppHarvest.v
Slab.v
Sql.v
Double.v
Object.v
ObjectJson.v
ObjectParse.v
ObjectRoundtrip.v
AttributeConfig.v
Attributes.v
ObjectFields.v
ObjectMaps.v
DistributedTrace.v
StringSplit.v
TraceContext.v
SlowSqls.v
Regex.v
Rules.v
SegmentTerms.v
Urls.v
SpanQueue.v
PhpPackages.v
Md5.v
Synthetics.v
Errors.v
Txn.v
TxnName.v
TxnCat.v
TxnAttributes.v
TxnMetrics.v
Flatbuffers.v
FlatbuffersSpec.v
FlatbuffersTable.v
FlatbuffersObject.v
TxnEvents.v
Guid.v
TxnDt.v
Headers.v
SpanEvent.v
Labels.v
