(* ===== verification/Prelude.v ===== *)
(** * A verified model of the axiom library of the PHP agent

    The agent has three parts: agent/ hooks the PHP engine, daemon/ (Go) sends
    data to the collector, and axiom/ is the C library between them: it keeps
    the data of the running transaction and of the applications, and encodes it
    for the daemon.  This development models axiom/, where the program's own
    algorithms and data structures are.  File and function names below are those
    of src/axiom/.

    ** How the C is rendered

    A function is a definition of the same name.  A structure that is changed in
    place is a value that goes in and comes out; where structures point at each
    other (hash map nodes, segments) they live in a finite map from addresses,
    and an operation takes and returns that heap.  [NULL] is [None], or the
    distinguished element of the class [Pointer] for the [void*] of containers.
    Integers are [Z]; the wrap-around of unsigned types is written out where a
    value can reach it, and otherwise a theorem bounds it.  Memory is the list
    of its bytes: a string is what precedes the first NUL (CString).  Undefined
    behaviour, endless loops and reads outside a block are values of the result
    ([None], or [Undefined] in ObjectParse), never silently excluded.  What the
    C library or the vendored code decides is a parameter: [Allocator] and
    [QsortR] in Memory, the page size in Slab, the radix character of the locale
    in Double, the address of a heap block in ObjectParse.

    ** Parts

    Containers.
    - Memory: [nr_realloc], [nr_sort] and the interfaces to the C library.
    - MinMaxHeap (util_minmax_heap.c): the bounded heap behind every reservoir.
      Insertions and both removals preserve the order of levels and act on the
      bag of the values; a bounded heap keeps the largest.
    - Vector (util_vector.c, util_stack.c): any run of operations is that of a
      list; stacks remove the topmost occurrence.
    - HashMap (util_hashmap.c, with Hash for util_hash.c): chained buckets on a
      heap of nodes refine a finite map; every binding is visited once.
    - HashTree: the search tree laid out in an array that the next two share.
    - StringPool (util_string_pool.c): strings are interned.
    - Slab (util_slab.c): live objects are disjoint and zero when handed out.
    - Buffer (util_buffer.c): a byte queue, and its number formats.

    Text.
    - CString, Strings (util_strings.c): C strings, searches and bounded copies.
    - Json (util_json.c), Base64 (util_base64.c, util_obfuscate.c),
      Double (util_number_converter.c), Sql (util_sql.c).
    - Object, ObjectJson, ObjectParse, ObjectRoundtrip (util_object.c): the
      generic objects, their writer and parser, and the round trip.

    Data of a transaction and of an application.
    - Metrics (util_metrics.c) on StringPool and HashTree: named statistics.
    - ExclusiveTime (nr_exclusive_time.c): the time no child of a segment runs.
    - SegmentTree (nr_segment_children.c, parts of nr_segment.c): the tree of
      segments on a heap; the traversal of any heap ends and is a depth-first
      walk, of the shape of the tree where the segments are a forest.
    - LogEvents (nr_log_events.c) on MinMaxHeap, AnalyticsEvents
      (nr_analytics_events.c) and AppHarvest (nr_app_harvest.c) on Random
      (util_random.c): reservoirs and adaptive sampling.
    - AttributeConfig, Attributes (nr_attributes.c): the rules of destinations
      decide by the most specific match; attributes refine two finite maps.
    - SlowSqls (nr_slowsqls.c): the slowest statements, with their totals.

    Between processes.
    - ObjectFields: objects read by their fields, through the writer and parser.
    - StringSplit (util_strings.c, [nr_strsplit]): trimmed pieces of a string.
    - DistributedTrace, TraceContext (nr_distributed_trace.c): the payload and
      the two W3C headers of one agent are accepted by another.

    Names.
    - Regex (util_regex.c): the wrapper of PCRE, which is the class [Pcre].
    - Rules (nr_rules.c, util_reply.c): renaming by rules is the renaming that
      their flags describe.
    - SegmentTerms (nr_segment_terms.c): the segments of a name that are kept.
    - Urls (util_url.c): what is cut from URLs.  PhpPackages (nr_php_packages.c).
    - Md5 (util_md5.c, util_hash.c): digests of messages in pieces, path hashes.
    - SpanQueue (nr_span_queue.c): batches of span events, in order.

    Transactions.
    - Synthetics (nr_synthetics.c): the header of a monitor, passed on.
    - Errors (nr_errors.c): the error of a transaction, as the daemon reads it.
    - Txn (nr_txn.h, nr_txn.c, util_apdex.c): options, what the account and the
      policies forbid, and the conditions under which things are recorded.
    - TxnName (nr_txn.c): proposals for the name, and its freezing by the rules.
    - TxnAttributes, TxnCat (nr_txn.c): what is recorded of requests, and of the
      path of a transaction through applications.
    - TxnMetrics (nr_txn.c): the metrics of a transaction that ends.
    - TxnEvents (nr_txn.c, nr_custom_events.c): the events of a transaction, of
      its error and of the user.
    - ObjectMaps: hash objects as finite maps.
    - SpanEvent (nr_span_event.c): span events and their three objects.
    - Labels (util_labels.c): the labels of an application, pair by pair.
    - Guid (nr_guid.c): identifiers are drawn, and what they look like.
    - TxnDt (nr_txn.c, nr_segment.c): the distributed tracing headers that a
      transaction makes and accepts; what one sends another takes.
    - Headers (nr_header.c): all headers of a request and of its response, for
      cross application tracing, distributed tracing and synthetics; a request
      and its response are followed from one application to another and back.

    Messages for the daemon.
    - Flatbuffers (util_flatbuffers.c): the builder and the readers.
      FlatbuffersSpec: what each operation does to the contents, seen from
      their end.  FlatbuffersTable: vtables, shared or not.  FlatbuffersObject:
      what is written as an object is read back, from a buffer whose block was
      created empty or with a multiple of four bytes.

    ** What the theorems show

    Refinement: a run of any operations on a container has the results of the
    same operations on its abstract state (lists, finite maps, bags, queues,
    named statistics); [run_simulates] below is the induction behind it, each
    component proves the step.  Round trips: what is encoded (JSON strings and
    objects, base 64, obfuscated text, numbers in either byte order) is decoded
    to what it was.  Safety and bounds: buffers computed ahead are large enough,
    or the theorem says when they are not.  Termination: the loops that could run
    forever (doubling, rejection sampling, traversals of cyclic heaps, parsers)
    end, or the theorem names the inputs for which they do not.

    ** Fuel

    Recursion is structural, or on a fuel that a theorem shows to be enough:
    the size of the heap for walks over segments and buckets, the length of the
    text for scanners and twice that for the mutually recursive JSON parser
    (each call that reads nothing is followed by one that does), 20 and 320
    digits for decimal numbers of 64 bits and of doubles, 48 doublings of
    the rejection loop in Random: 2^48 draws, the period of the generator.

    ** Not modelled

    The hooks into the PHP engine (agent/), the daemon, what the library does
    with sockets, files, processes, threads, signals and the clock, the
    protobuf encoding of spans, and the vendored hash and tree code.
    Of the library's own logic these are left out: the JSON of transaction
    traces and the flatbuffer messages of the daemon commands (cmd_*.c), the
    start and end of transactions and segments, the typed segments of queries
    and requests, the HTML scanner for real user
    monitoring, and the helpers for connection strings and file names. *)

From stdpp Require Export base decidable list numbers sorting gmap.
From Stdlib Require Export ZArith Lia Bool ZifyNat ZifyBool.

(** ** Pointers

    The C code passes untyped pointers around ([void*]) and uses [NULL] both
    as "absent" and as a legal element.  A type of pointers is any type with a
    distinguished element. *)
Class Pointer (V : Type) := NULL : V.
#[global] Hint Mode Pointer ! : typeclass_instances.

#[export] Instance option_pointer {A} : Pointer (option A) := None.

(** ** Comparison functions

    The interface every ordered container of the library puts on the
    three-way comparison callback it is given: the sign convention is that of
    [strcmp], the induced relation is a total preorder. *)
Class Comparator {V : Type} (cmp : V → V → Z) : Prop := {
  cmp_flip : ∀ x y, (cmp x y < 0 ↔ 0 < cmp y x)%Z;
  cmp_trans : ∀ x y z, (cmp x y ≤ 0 → cmp y z ≤ 0 → cmp x z ≤ 0)%Z;
}.

Section comparator.
Context {V : Type} (cmp : V → V → Z) `{!Comparator cmp}.
Local Open Scope Z_scope.

Lemma cmp_refl x : cmp x x = 0.
Proof. pose proof (cmp_flip x x). lia. Qed.

Lemma cmp_total x y : cmp x y ≤ 0 ∨ cmp y x ≤ 0.
Proof. pose proof (cmp_flip x y). pose proof (cmp_flip y x). lia. Qed.

Lemma cmp_nle x y : ¬ cmp x y ≤ 0 → cmp y x ≤ 0.
Proof. pose proof (cmp_total x y). lia. Qed.
End comparator.

(** Subtraction, the usual comparator of integers. *)
#[export] Instance sub_comparator : Comparator Z.sub.
Proof. split; intros; lia. Qed.

#[export] Instance Z_pointer : Pointer Z := 0%Z.

(** ** Machine integers *)
Definition u32 (z : Z) : Z := (z mod 2 ^ 32)%Z.
Definition u64 (z : Z) : Z := (z mod 2 ^ 64)%Z.
Arguments u32 _ : simpl never.
Arguments u64 _ : simpl never.

Lemma u64_small z : (0 ≤ z < 2 ^ 64)%Z → u64 z = z.
Proof. apply Z.mod_small. Qed.
Lemma u64_range z : (0 ≤ u64 z < 2 ^ 64)%Z.
Proof. apply Z.mod_pos_bound. lia. Qed.
Lemma u32_small z : (0 ≤ z < 2 ^ 32)%Z → u32 z = z.
Proof. apply Z.mod_small. Qed.
Lemma u32_range z : (0 ≤ u32 z < 2 ^ 32)%Z.
Proof. apply Z.mod_pos_bound. lia. Qed.

Create HintDb nr discriminated.
#[export] Hint Resolve u64_range u32_range : nr.

(** ** Bits

    Facts about the bits of a few values are checked by trying them all; a
    disjunction of values without a common bit is a sum. *)
Lemma byte_cases (P : Z → bool) (a n : Z) : forallb P (seqZ a n) = true → ∀ c, (a ≤ c < a + n)%Z → P c = true.
Proof. intros Hf c Hc. rewrite forallb_forall in Hf. apply Hf, list_elem_of_In, elem_of_seqZ. lia. Qed.

Lemma lor_add_shift x b k : (0 ≤ k → 0 ≤ x < 2 ^ k → Z.lor x (b * 2 ^ k) = x + b * 2 ^ k)%Z.
Proof.
  intros Hk Hx. rewrite <-Z.add_lor_land. replace (Z.land x (b * 2 ^ k)) with 0%Z; [lia|]. symmetry.
  apply Z.bits_inj'. intros i Hi. rewrite Z.land_spec, Z.bits_0. destruct (Z.lt_ge_cases i k).
  - by rewrite Z.mul_pow2_bits_low, andb_false_r by lia.
  - destruct (Z.eq_dec x 0) as [->|]; [by rewrite Z.bits_0|].
    rewrite (Z.bits_above_log2 x); [done|lia|]. assert (Z.log2 x < k)%Z by (apply Z.log2_lt_pow2; lia). lia.
Qed.


(** ** Boolean tests

    [bool_cases] destructs every integer comparison a goal or hypothesis
    branches on, keeping the arithmetic fact. *)
Ltac bool_case_one t :=
  lazymatch t with
  | (?a <? ?b)%Z => destruct (Z.ltb_spec a b)
  | (?a <=? ?b)%Z => destruct (Z.leb_spec a b)
  | (?a =? ?b)%Z => destruct (Z.eqb_spec a b)
  | Nat.ltb ?a ?b => destruct (Nat.ltb_spec a b)
  | Nat.leb ?a ?b => destruct (Nat.leb_spec a b)
  | Nat.eqb ?a ?b => destruct (Nat.eqb_spec a b)
  end.

Ltac bool_cases :=
  repeat (match goal with
  | |- context [if ?t then _ else _] => bool_case_one t
  | H : context [if ?t then _ else _] |- _ => bool_case_one t
  end; try lia).

(** ** Lists *)

(** Exchanging two positions of an index range permutes the values read
    there: the array-level fact behind every in-place swap. *)
Definition exchange {A} (K : nat → A) (i j k : nat) : A :=
  if decide (k = i) then K j else if decide (k = j) then K i else K k.

Lemma exchange_l {A} (K : nat → A) i j : exchange K i j i = K j.
Proof. unfold exchange. by rewrite decide_True. Qed.
Lemma exchange_r {A} (K : nat → A) i j : exchange K i j j = K i.
Proof. unfold exchange. repeat case_decide; congruence. Qed.
Lemma exchange_ne {A} (K : nat → A) i j k : k ≠ i → k ≠ j → exchange K i j k = K k.
Proof. intros. unfold exchange. by rewrite !decide_False. Qed.

Lemma exchange_perm {A} (K : nat → A) a n i j :
  a ≤ i < a + n → a ≤ j < a + n →
  exchange K i j <$> seq a n ≡ₚ K <$> seq a n.
Proof.
  intros Hi Hj.
  set (σ := exchange id i j).
  assert (exchange K i j <$> seq a n = K <$> (σ <$> seq a n)) as ->.
  { rewrite <-list_fmap_compose. apply list_fmap_ext. intros _ k _. simpl.
    unfold σ, exchange. by repeat case_decide. }
  apply fmap_Permutation, NoDup_Permutation.
  - apply NoDup_fmap_2_strong; [|apply NoDup_seq].
    intros x y _ _. unfold σ, exchange, id. repeat case_decide; congruence.
  - apply NoDup_seq.
  - intros k. rewrite list_elem_of_fmap. split.
    + intros (y & -> & Hy%elem_of_seq). apply elem_of_seq.
      unfold σ, exchange, id. repeat case_decide; lia.
    + intros Hk%elem_of_seq. exists (σ k). unfold σ, exchange, id.
      split; [|apply elem_of_seq]; repeat case_decide; lia.
Qed.

Lemma filter_all {A} (P : A → Prop) `{∀ x, Decision (P x)} l : Forall P l → filter P l = l.
Proof. induction 1; [done|]. rewrite filter_cons_True by done. by f_equal. Qed.

Lemma filter_none {A} (P : A → Prop) `{∀ x, Decision (P x)} l :
  Forall (λ x, ¬ P x) l → filter P l = [].
Proof. induction 1; [done|]. by rewrite filter_cons_False. Qed.

Lemma bind_ext_in {A B} (f g : A → list B) l :
  (∀ x, x ∈ l → f x = g x) → l ≫= f = l ≫= g.
Proof.
  induction l as [|x l IH]; intros Hfg; [done|]. simpl. f_equal.
  - apply Hfg. left.
  - apply IH. intros. apply Hfg. by right.
Qed.

(** Replacing an element of a list without repetition by a new one. *)
Lemma NoDup_insert_new {A} (l : list A) i x : NoDup l → x ∉ l → NoDup (<[i:=x]> l).
Proof.
  rewrite !NoDup_alt. intros Hl Hx a b y Ha Hb.
  apply list_lookup_insert_Some in Ha as [(<- & -> & _)|[Hia Ha]], Hb as [(<- & E & _)|[Hib Hb]]; subst.
  - done.
  - destruct Hx. by eapply list_elem_of_lookup_2.
  - destruct Hx. by eapply list_elem_of_lookup_2.
  - by eapply Hl.
Qed.

(** ** Runs of operations

    The results of a list of operations run one after the other, and the final
    state. *)
Definition run {Op R S : Type} (f : Op → S → R * S) (ops : list Op) (s : S) : list R * S :=
  foldl (λ '(rs, s) op, let '(r, s) := f op s in (rs ++ [r], s)) ([], s) ops.

Lemma run_snoc {Op R S : Type} (f : Op → S → R * S) ops op s :
  run f (ops ++ [op]) s = let '(rs, s) := run f ops s in let '(r, s) := f op s in (rs ++ [r], s).
Proof. unfold run. rewrite foldl_app. simpl. by destruct (foldl _ _ _). Qed.

(** Two machines whose steps agree on related states agree on runs. *)
Lemma run_simulates {Op R S T : Type} (Rel : S → T → Prop) (ok : Op → Prop)
    (f : Op → S → R * S) (g : Op → T → R * T) ops s t :
  (∀ op s t, Rel s t → ok op → ∃ r s' t', f op s = (r, s') ∧ g op t = (r, t') ∧ Rel s' t') →
  Rel s t → Forall ok ops →
  ∃ rs s' t', run f ops s = (rs, s') ∧ run g ops t = (rs, t') ∧ Rel s' t'.
Proof.
  intros Hstep Hr. induction ops as [|op ops IH] using rev_ind; intros Hok; [by exists [], s, t|].
  apply Forall_app in Hok as [Hok [Hop _]%Forall_cons]. destruct (IH Hok) as (rs & s' & t' & E1 & E2 & Hr').
  destruct (Hstep op s' t' Hr' Hop) as (r & s2 & t2 & E3 & E4 & Hr2).
  exists (rs ++ [r]), s2, t2. by rewrite !run_snoc, E1, E2, E3, E4.
Qed.
