(* ===== verification/Memory.v ===== *)
(** * Memory: arrays, reallocation and sorting (src/axiom/util_memory.c,
    src/axiom/util_sort.c)

    An allocated array is the list of its slots.  What the C library's
    allocator decides (whether a request succeeds, what a fresh slot holds) and
    how its [qsort_r] works are parameters: the class [Allocator] has no law,
    the class [QsortR] has the documented one. *)

From S2P Require Import Prelude.

(** ** The allocator *)
Class Allocator (V : Type) := {
  realloc_succeeds : Z → bool;
  uninitialised : nat → V;
}.
#[global] Hint Mode Allocator ! : typeclass_instances.

Definition SIZE_MAX : Z := (2 ^ 64 - 1)%Z.
Definition MUL_NO_OVERFLOW : Z := (2 ^ 32)%Z.

Section memory.
Context {V : Type} `{Pointer V} `{Allocator V}.
Implicit Types (es : list V).

(** The slots of an array of [n] slots that took over the array [es]. *)
Definition resize es (n : nat) : list V :=
  take n es ++ (uninitialised <$> seq (length es) (n - length es)).

(** [None] is the [NULL] return; the array [[]] stands for a [NULL] pointer.  In
    the second test the C function also frees the old array. *)
Definition nr_reallocarray es (nmemb size : Z) : option (list V) :=
  if (((MUL_NO_OVERFLOW <=? nmemb) || (MUL_NO_OVERFLOW <=? size)) &&
      (0 <? nmemb) && (SIZE_MAX / nmemb <? size))%Z
  then None
  else if (match es with [] => false | _ => ((size =? 0) || (nmemb =? 0))%Z end) then None
  else if realloc_succeeds (V:=V) (size * nmemb) then Some (resize es (Z.to_nat nmemb))
  else None.

(** Zeroed slots; the C function does not return when the allocation fails. *)
Definition nr_calloc (nelem : Z) : list V :=
  replicate (Z.to_nat (if (nelem =? 0)%Z then 1 else nelem)) NULL.

(** [memmove] inside one array: [n] slots from [src] to [dst], overlap
    allowed. *)
Definition nr_memmove es (dst src n : nat) : list V :=
  list_inserts dst (take n (drop src es)) es.

Lemma length_resize es n : length (resize es n) = n.
Proof. unfold resize. rewrite length_app, length_take, length_fmap, length_seq. lia. Qed.

Lemma take_resize es n k : k ≤ n → k ≤ length es → take k (resize es n) = take k es.
Proof.
  intros. unfold resize. rewrite take_app_le by (rewrite length_take; lia).
  rewrite take_take. f_equal. lia.
Qed.

Lemma nr_reallocarray_Some es nmemb size es' :
  (0 ≤ nmemb)%Z → (0 ≤ size)%Z → nr_reallocarray es nmemb size = Some es' →
  es' = resize es (Z.to_nat nmemb) ∧ (nmemb * size < 2 ^ 64)%Z.
Proof.
  unfold nr_reallocarray, SIZE_MAX, MUL_NO_OVERFLOW. intros Hn Hs.
  destruct (_ && _ && _) eqn:E; [done|].
  destruct (match es with [] => _ | _ => _ end); [done|].
  destruct (realloc_succeeds _); [|done]. intros [= <-]. split; [done|].
  rewrite !andb_false_iff, orb_false_iff, Z.ltb_ge, Z.ltb_ge, !Z.leb_gt in E.
  destruct E as [[[? ?]|?]|E].
  - change (2 ^ 64)%Z with (2 ^ 32 * 2 ^ 32)%Z. by apply Z.mul_lt_mono_nonneg.
  - assert (nmemb = 0)%Z as -> by lia. lia.
  - pose proof (Z.mul_div_le (2 ^ 64 - 1) nmemb) as Hd.
    pose proof (Z.mul_le_mono_nonneg_l _ _ _ Hn E).
    destruct (Z.eq_dec nmemb 0) as [->|]; lia.
Qed.

Lemma nr_reallocarray_total es nmemb size :
  (∀ n, realloc_succeeds (V:=V) n = true) →
  (0 < nmemb)%Z → (0 < size)%Z → (nmemb * size < 2 ^ 64)%Z →
  nr_reallocarray es nmemb size = Some (resize es (Z.to_nat nmemb)).
Proof.
  intros Hal ? ? Hlt. unfold nr_reallocarray, SIZE_MAX.
  destruct (Z.ltb_spec ((2 ^ 64 - 1) / nmemb) size) as [Hdiv|].
  { pose proof (Z.div_le_lower_bound (2 ^ 64 - 1) nmemb size). lia. }
  rewrite andb_false_r, Hal. destruct (Z.eqb_spec size 0), (Z.eqb_spec nmemb 0); try lia.
  by destruct es.
Qed.

Lemma length_memmove es dst src n : length (nr_memmove es dst src n) = length es.
Proof. apply length_inserts. Qed.

Lemma inserts_0 (k es : list V) :
  length k ≤ length es → list_inserts 0 k es = k ++ drop (length k) es.
Proof.
  revert es. induction k as [|x k IH]; intros [|y es]; simpl; intros Hl; try done; [lia|].
  change (list_inserts 1 k (y :: es)) with (list_inserts (length [y] + 0) k ([y] ++ es)).
  rewrite list_inserts_app_r, IH by lia. done.
Qed.

Lemma inserts_app (k es : list V) i :
  i + length k ≤ length es →
  list_inserts i k es = take i es ++ k ++ drop (i + length k) es.
Proof.
  intros Hi. rewrite <-(take_drop i es) at 1.
  replace i with (length (take i es) + 0) at 1 by (rewrite length_take; lia).
  rewrite list_inserts_app_r, inserts_0 by (rewrite length_drop; lia).
  by rewrite drop_drop.
Qed.

(** Shifting the middle part of an array up or down by one slot. *)
Lemma memmove_up (l1 l2 r : list V) y :
  nr_memmove (l1 ++ l2 ++ y :: r) (S (length l1)) (length l1) (length l2) =
  l1 ++ take 1 (l2 ++ [y]) ++ l2 ++ r.
Proof.
  unfold nr_memmove. rewrite drop_app_length, take_app_length.
  rewrite inserts_app by (rewrite !length_app; simpl; lia).
  replace (S (length l1)) with (length l1 + 1) by lia.
  rewrite take_app_add, <-!app_assoc. f_equal.
  rewrite <-Nat.add_assoc, drop_app_add, Nat.add_comm.
  rewrite drop_app_add. f_equal. by destruct l2.
Qed.

Lemma memmove_down (l1 l2 r : list V) y :
  nr_memmove (l1 ++ y :: l2 ++ r) (length l1) (S (length l1)) (length l2) =
  l1 ++ l2 ++ drop (length l2) (y :: l2) ++ r.
Proof.
  unfold nr_memmove. replace (S (length l1)) with (length l1 + 1) by lia.
  rewrite drop_app_add. simpl. rewrite drop_0, take_app_length.
  rewrite inserts_app by (rewrite length_app; simpl; rewrite length_app; lia).
  rewrite take_app_length, drop_app_add. f_equal. f_equal.
  change (y :: l2 ++ r) with ((y :: l2) ++ r). rewrite drop_app_le by (simpl; lia). done.
Qed.
End memory.

(** ** Sorting *)

(** [qsort_r] with the comparison function it is given. *)
Class QsortR := qsort_r : ∀ A : Type, (A → A → Z) → list A → list A.

(** Its documented behaviour, for a comparison function that is one. *)
Class QsortRLaws `{QsortR} : Prop := {
  qsort_r_perm : ∀ A (cmp : A → A → Z) l, qsort_r A cmp l ≡ₚ l;
  qsort_r_sorted : ∀ A (cmp : A → A → Z) l, Comparator cmp →
    StronglySorted (λ x y, cmp x y ≤ 0)%Z (qsort_r A cmp l);
}.

(** [None] is a [NULL] comparison function. *)
Definition nr_sort `{QsortR} {A} (base : list A) (compar : option (A → A → Z)) : list A :=
  match compar with None => base | Some cmp => qsort_r A cmp base end.

(** A sort that has the documented behaviour, for evaluating the model. *)
Module MergeSort.
#[export] Instance qsort_r : QsortR := λ A cmp l,
  @merge_sort A (λ x y, cmp x y ≤ 0)%Z (λ x y, decide (cmp x y ≤ 0)%Z) l.

#[export] Instance qsort_r_laws : QsortRLaws.
Proof.
  split; intros; unfold Memory.qsort_r, qsort_r.
  - apply merge_sort_Permutation.
  - assert (Transitive (λ x y : A, (cmp x y ≤ 0)%Z)) by (intros x y z; apply (cmp_trans x y z)).
    assert (Total (λ x y : A, (cmp x y ≤ 0)%Z)) by (intros x y; by apply cmp_total).
    apply StronglySorted_merge_sort; apply _.
Qed.
End MergeSort.

(** An allocator that never refuses, for evaluating the model. *)
Module GenerousAllocator.
#[export] Instance allocator V `{Pointer V} : Allocator V :=
  {| realloc_succeeds := λ _, true; uninitialised := λ _, NULL |}.
End GenerousAllocator.
