(* ===== verification/MinMaxHeap.v ===== *)
(** * MinMaxHeap: the bounded min-max heap (src/axiom/util_minmax_heap.c)

    The heap lives in an array indexed from 1; even tree levels are minimum
    levels, odd ones maximum levels. *)

From S2P Require Import Prelude.

(** ** Index helpers *)
Definition is_min (n : nat) : bool := Nat.even (Nat.log2 n).
Definition parent (n : nat) : nat := n / 2.
Definition first_child (n : nat) : nat := n * 2.
Definition second_child (n : nat) : nat := n * 2 + 1.

Inductive compare_t := COMPARE_LESS_THAN | COMPARE_GREATER_THAN | COMPARE_EQUAL.

Definition NR_MINMAX_HEAP_CHUNK_SIZE : nat := 64.

(** ** State *)
Record element (V : Type) := Element { e_used : bool; e_value : V }.
Arguments Element {V} _ _.
Arguments e_used {V} _.
Arguments e_value {V} _.

(** [destructor] only says whether a destructor is set: the operations return
    the list of the values they hand to it, in order. *)
Record heap (V : Type) := Heap {
  bound : nat;
  capacity : nat;
  used : nat;
  elements : list (element V);
  comparator : V → V → Z;
  destructor : bool;
}.
Arguments Heap {V} _ _ _ _ _ _.
Arguments bound {V} _.
Arguments capacity {V} _.
Arguments used {V} _.
Arguments elements {V} _.
Arguments comparator {V} _.
Arguments destructor {V} _.

Section heap.
Context {V : Type} `{Pointer V}.
Implicit Types (h : heap V) (i j n : nat) (v : V).

Definition zero_element : element V := Element false NULL.

Definition element_at h i : element V := default zero_element (elements h !! i).
Definition value_at h i : V := e_value (element_at h i).

Definition set_elements h (es : list (element V)) : heap V :=
  Heap (bound h) (capacity h) (used h) es (comparator h) (destructor h).
Definition set_element h i (e : element V) : heap V :=
  set_elements h (<[i := e]> (elements h)).
Definition set_used h (n : nat) : heap V :=
  Heap (bound h) (capacity h) n (elements h) (comparator h) (destructor h).
Definition mark_unused h i : heap V :=
  set_element h i (Element false (value_at h i)).

(** ** Internal operations *)
Definition compare h i j : Z := comparator h (value_at h i) (value_at h j).

Definition compare_expect h i j (op : compare_t) : bool :=
  let result := compare h i j in
  match op with
  | COMPARE_LESS_THAN => (result <? 0)%Z
  | COMPARE_GREATER_THAN => (0 <? result)%Z
  | COMPARE_EQUAL => (result =? 0)%Z
  end.

Definition swap h i j : heap V :=
  let tmp := element_at h i in
  set_element (set_element h i (element_at h j)) j tmp.

Fixpoint bubbleup_minmax (fuel : nat) h i (op : compare_t) : heap V :=
  match fuel with
  | O => h
  | S fuel =>
      let grandparent := parent (parent i) in
      if grandparent <=? 0 then h
      else if compare_expect h i grandparent op
      then bubbleup_minmax fuel (swap h i grandparent) grandparent op
      else h
  end.

Definition bubbleup_min h i := bubbleup_minmax i h i COMPARE_LESS_THAN.
Definition bubbleup_max h i := bubbleup_minmax i h i COMPARE_GREATER_THAN.

Definition bubbleup h i : heap V :=
  let p := parent i in
  if p <=? 0 then h
  else if is_min i then
    if (0 <? compare h i p)%Z then bubbleup_max (swap h i p) p
    else bubbleup_min h i
  else
    if (compare h i p <? 0)%Z then bubbleup_min (swap h i p) p
    else bubbleup_max h i.

(** The index of the extremal child or grandchild, [None] for the C [-1].
    One test of the C function: take [x] when it is in range and beats the
    index found so far. *)
Definition improve h (op : compare_t) (idx : option nat) (x : nat) : option nat :=
  if x <=? used h then
    match idx with
    | Some y => if compare_expect h x y op then Some x else Some y
    | None => None
    end
  else idx.

Definition index_minmax_child_grandchild h i (op : compare_t) : option nat :=
  let a := first_child i in
  let b := second_child i in
  let c := first_child a in
  let d := second_child a in
  let e := first_child b in
  let f := second_child b in
  let idx := if a <=? used h then Some a else None in
  let idx := improve h op idx b in
  let idx := improve h op idx c in
  let idx := improve h op idx d in
  let idx := improve h op idx e in
  improve h op idx f.

Fixpoint trickledown_minmax (fuel : nat) h i (op : compare_t) : heap V :=
  match fuel with
  | O => h
  | S fuel =>
      match index_minmax_child_grandchild h i op with
      | None => h
      | Some m =>
          if second_child i <? m then
            if compare_expect h m i op then
              let h := swap h i m in
              let h := if negb (compare_expect h m (parent m) op)
                       then swap h m (parent m) else h in
              trickledown_minmax fuel h m op
            else h
          else
            if compare_expect h m i op then swap h i m else h
      end
  end.

Definition trickledown_max h i := trickledown_minmax (used h) h i COMPARE_GREATER_THAN.
Definition trickledown_min h i := trickledown_minmax (used h) h i COMPARE_LESS_THAN.

Definition trickledown h i : heap V :=
  if is_min i then trickledown_min h i else trickledown_max h i.

(** ** Public API

    A heap argument that may be [NULL] is an [option].  Every operation
    that can destroy values returns them in the order of the destructor
    calls. *)
Definition nr_minmax_heap_create (bound : Z) (comparator : option (V → V → Z))
    (destructor : bool) : option (heap V) :=
  match comparator with
  | None => None
  | Some comparator =>
      if ((bound =? 1) || (bound <? 0))%Z then None
      else
        let capacity := if (0 <? bound)%Z then Z.to_nat (bound + 1)
                        else NR_MINMAX_HEAP_CHUNK_SIZE in
        Some (Heap (Z.to_nat bound) capacity 0
                   (replicate capacity zero_element) comparator destructor)
  end.

Definition destruct_one h v : list V := if destructor h then [v] else [].

(** The values of the used slots [0..used], in index order: what
    [nr_minmax_heap_iterate] passes to its callback. *)
Definition used_values h : list V :=
  e_value <$> filter (λ e, e_used e = true) (take (S (used h)) (elements h)).

Definition nr_minmax_heap_destroy (oh : option (heap V)) : list V :=
  match oh with
  | None => []
  | Some h => if destructor h then used_values h else []
  end.

Definition nr_minmax_heap_bound (oh : option (heap V)) : nat :=
  match oh with Some h => bound h | None => 0 end.
Definition nr_minmax_heap_capacity (oh : option (heap V)) : nat :=
  match oh with Some h => capacity h | None => 0 end.
Definition nr_minmax_heap_size (oh : option (heap V)) : nat :=
  match oh with Some h => used h | None => 0 end.

Definition peek_min h : V := if used h =? 0 then NULL else value_at h 1.

Definition nr_minmax_heap_peek_min (oh : option (heap V)) : V :=
  match oh with None => NULL | Some h => peek_min h end.

Definition peek_max h : V :=
  if used h =? 0 then NULL
  else if used h =? 1 then value_at h 1
  else if used h =? 2 then value_at h 2
  else if (0 <? compare h 2 3)%Z then value_at h 2 else value_at h 3.

Definition nr_minmax_heap_peek_max (oh : option (heap V)) : V :=
  match oh with None => NULL | Some h => peek_max h end.

(** Take the value at [idx] out: the last element moves into its place. *)
Definition extract h idx : heap V :=
  let last := used h in
  let h := set_element h idx (element_at h last) in
  let h := mark_unused h last in
  let h := set_used h (last - 1) in
  trickledown h idx.

Definition pop_min h : V * heap V :=
  if used h =? 0 then (NULL, h)
  else if used h =? 1 then
    let h := set_used h (used h - 1) in
    let value := value_at h 1 in
    (value, mark_unused h 1)
  else
    (value_at h 1, extract h 1).

Definition nr_minmax_heap_pop_min (oh : option (heap V)) : V * option (heap V) :=
  match oh with
  | None => (NULL, None)
  | Some h => let '(v, h) := pop_min h in (v, Some h)
  end.

Definition pop_max h : V * heap V :=
  if used h =? 0 then (NULL, h)
  else if used h <=? 2 then
    let idx := used h in
    let h := set_used h (used h - 1) in
    let h := mark_unused h idx in
    (value_at h idx, h)
  else
    let idx := if (compare h 2 3 <? 0)%Z then 3 else 2 in
    (value_at h idx, extract h idx).

Definition nr_minmax_heap_pop_max (oh : option (heap V)) : V * option (heap V) :=
  match oh with
  | None => (NULL, None)
  | Some h => let '(v, h) := pop_max h in (v, Some h)
  end.

(** Double the array, zeroing the new half; [nr_realloc] never returns
    [NULL] (it exits the process instead). *)
Definition grow h : heap V :=
  if capacity h <=? used h + 1 then
    let new_capacity := capacity h * 2 in
    Heap (bound h) new_capacity (used h)
         (elements h ++ replicate (new_capacity - capacity h) zero_element)
         (comparator h) (destructor h)
  else h.

(** Append the value and restore the heap order. *)
Definition add_element h v : heap V :=
  let h := grow h in
  let h := set_used h (used h + 1) in
  let h := set_element h (used h) (Element true v) in
  bubbleup h (used h).

Definition insert h v : heap V * list V :=
  if negb (bound h =? 0) && (bound h <=? used h) then
    if (0 <? comparator h (peek_min h) v)%Z then (h, destruct_one h v)
    else
      let '(min, h) := pop_min h in
      (add_element h v, destruct_one h min)
  else (add_element h v, []).

Definition nr_minmax_heap_insert (oh : option (heap V)) v : option (heap V) * list V :=
  match oh with
  | None => (None, [])
  | Some h => let '(h, d) := insert h v in (Some h, d)
  end.

Definition nr_minmax_heap_iterate (oh : option (heap V)) : list V :=
  match oh with None => [] | Some h => used_values h end.

Definition nr_minmax_heap_set_destructor (oh : option (heap V)) (d : bool)
    : option (heap V) :=
  match oh with
  | None => None
  | Some h => Some (Heap (bound h) (capacity h) (used h) (elements h) (comparator h) d)
  end.
End heap.

(** ** Arithmetic of the index tree *)
Ltac idx := unfold first_child, second_child, parent in *; lia.

Lemma is_min_parent n : 2 ≤ n → is_min (parent n) = negb (is_min n).
Proof.
  intros Hn. unfold is_min, parent.
  assert (Nat.log2 n = S (Nat.log2 (n / 2))) as ->.
  { destruct (Nat.Even_or_Odd n) as [[k Hk]|[k Hk]]; subst n.
    - rewrite (Nat.mul_comm 2), Nat.div_mul by lia.
      rewrite Nat.mul_comm. apply Nat.log2_double. lia.
    - replace ((2 * k + 1) / 2) with k by lia. apply Nat.log2_succ_double. lia. }
  by rewrite Nat.even_succ, <-Nat.negb_even, negb_involutive.
Qed.

Lemma is_min_grandparent n : 4 ≤ n → is_min (parent (parent n)) = is_min n.
Proof.
  intros. rewrite !is_min_parent; [by rewrite negb_involutive|lia|unfold parent; lia].
Qed.

(** ** Order of the levels

    On a minimum level the heap is ordered upwards, on a maximum level
    downwards; [le_lvl] is the order of a level, so every argument about
    bubbling and trickling is made once for both directions. *)
Section order.
Context {V : Type} (cmp : V → V → Z) `{!Comparator cmp}.
Implicit Types (K : nat → V) (i j n g p : nat).

Definition le_lvl (m : bool) (x y : V) : Prop :=
  if m then (cmp x y ≤ 0)%Z else (cmp y x ≤ 0)%Z.

Lemma le_lvl_refl m x : le_lvl m x x.
Proof. pose proof (cmp_refl cmp x). destruct m; simpl; lia. Qed.
Lemma le_lvl_trans m x y z : le_lvl m x y → le_lvl m y z → le_lvl m x z.
Proof. destruct m; simpl; intros; eapply cmp_trans; eauto. Qed.
Lemma le_lvl_flip m x y : le_lvl (negb m) x y ↔ le_lvl m y x.
Proof. by destruct m. Qed.
Lemma le_lvl_not m x y : ¬ le_lvl m x y → le_lvl m y x.
Proof. destruct m; simpl; apply cmp_nle, _. Qed.

(** The two links every in-range index has to its ancestors. *)
Definition link K a j : Prop := le_lvl (is_min a) (K a) (K j).

Definition heap_ok n K : Prop :=
  ∀ j, 2 ≤ j ≤ n → link K (parent j) j ∧ (4 ≤ j → link K (parent (parent j)) j).

(** Everything but the grandparent link of [i] holds, and what hangs below
    [i] respects the grandparent of [i]. *)
Definition up_ok n K i : Prop :=
  (∀ j, 2 ≤ j ≤ n → link K (parent j) j) ∧
  (∀ j, 4 ≤ j ≤ n → j ≠ i → link K (parent (parent j)) j) ∧
  (4 ≤ i → ∀ j, 2 ≤ j ≤ n → parent j = i ∨ parent (parent j) = i →
     link K (parent (parent i)) j).

(** Everything but the links from [i] down holds, and what hangs below [i]
    respects the grandparent of [i]. *)
Definition down_ok n K i : Prop :=
  (∀ j, 2 ≤ j ≤ n → parent j ≠ i → link K (parent j) j) ∧
  (∀ j, 4 ≤ j ≤ n → parent (parent j) ≠ i → link K (parent (parent j)) j) ∧
  (4 ≤ i → ∀ j, 2 ≤ j ≤ n → parent j = i ∨ parent (parent j) = i →
     link K (parent (parent i)) j).

(** The root of a heap is a minimum and one of its children a maximum. *)
Lemma heap_ok_min n K j : heap_ok n K → 1 ≤ j ≤ n → le_lvl true (K 1) (K j).
Proof.
  intros Hok. induction j as [j IH] using lt_wf_ind. intros Hj.
  destruct (decide (j = 1)) as [->|]; [apply le_lvl_refl|].
  destruct (Hok j) as [HP HG]; [lia|]. unfold link in *.
  destruct (decide (4 ≤ j)) as [H4|H4].
  - specialize (HG H4). rewrite is_min_grandparent in HG by done.
    rewrite is_min_parent in HP by lia.
    destruct (is_min j); simpl in HP.
    + eapply le_lvl_trans, HG. apply IH; unfold parent; lia.
    + eapply le_lvl_trans, HP. apply IH; unfold parent; lia.
  - assert (parent j = 1) as Hp by (unfold parent; lia).
    rewrite Hp in HP. exact HP.
Qed.

Lemma heap_ok_max n K j :
  heap_ok n K → 2 ≤ n → 1 ≤ j ≤ n →
  le_lvl true (K j) (K 2) ∨ 3 ≤ n ∧ le_lvl true (K j) (K 3).
Proof.
  intros Hok Hn. induction j as [j IH] using lt_wf_ind. intros Hj.
  assert (∀ y, y < j → 1 ≤ y → le_lvl true (K j) (K y) →
    le_lvl true (K j) (K 2) ∨ 3 ≤ n ∧ le_lvl true (K j) (K 3)) as Hstep.
  { intros y Hy Hy1 Hle. destruct (IH y) as [?|[??]]; [lia|lia|left|right; split; [done|]];
      by eapply le_lvl_trans. }
  destruct (decide (j = 1)) as [->|]; [left; apply (heap_ok_min n); [done|lia]|].
  destruct (decide (j = 2)) as [->|]; [left; apply le_lvl_refl|].
  destruct (decide (j = 3)) as [->|]; [right; split; [lia|apply le_lvl_refl]|].
  destruct (Hok j) as [HP HG]; [lia|]. specialize (HG ltac:(lia)).
  unfold link in *. rewrite is_min_grandparent in HG by lia.
  rewrite is_min_parent in HP by lia. destruct (is_min j).
  - apply (Hstep (parent j)); [unfold parent; lia..|done].
  - apply (Hstep (parent (parent j))); [unfold parent; lia..|done].
Qed.

(** *** Bubbling up *)
Lemma up_stop n K i :
  up_ok n K i →
  (4 ≤ i ≤ n → le_lvl (is_min i) (K (parent (parent i))) (K i)) → heap_ok n K.
Proof.
  intros (HP & HG & _) Hi j Hj. split; [by apply HP|]. intros H4.
  destruct (decide (j = i)) as [->|]; [|apply HG; [lia|done]].
  unfold link. rewrite is_min_grandparent by done. apply Hi. lia.
Qed.

Lemma up_step n K i :
  4 ≤ i ≤ n → up_ok n K i → le_lvl (is_min i) (K i) (K (parent (parent i))) →
  up_ok n (exchange K i (parent (parent i))) (parent (parent i)).
Proof.
  intros Hi (HP & HG & HB) Hle. specialize (HB ltac:(lia)).
  pose proof (is_min_grandparent i ltac:(lia)) as Hmg.
  pose proof (is_min_parent i ltac:(lia)) as Hmp.
  set (g := parent (parent i)) in *. set (p := parent i) in *.
  assert (g < p < i ∧ 1 ≤ g) as [Hlt Hg1] by (unfold g, p; idx).
  assert (Hdown : ∀ j, 2 ≤ j ≤ n → j ≠ i → parent j = g ∨ parent (parent j) = g →
    le_lvl (is_min g) (K g) (K j)).
  { intros j Hj Hne [Hpj|Hgj].
    - pose proof (HP j Hj) as Hl. by rewrite Hpj in Hl.
    - pose proof (HG j ltac:(idx) Hne) as Hl. by rewrite Hgj in Hl. }
  split_and!.
  - intros j Hj. pose proof (HP j Hj) as Hl. unfold link in *.
    destruct (decide (j = i)) as [->|Hji].
    { rewrite exchange_l, exchange_ne by (fold p; lia). fold p.
      rewrite Hmp, le_lvl_flip, <-Hmg. apply (HP p). lia. }
    destruct (decide (j = g)) as [->|Hjg].
    { rewrite exchange_r, exchange_ne by idx. rewrite is_min_parent in * by lia.
      rewrite le_lvl_flip in *. rewrite Hmg in *. by eapply le_lvl_trans. }
    rewrite (exchange_ne _ _ _ j) by done.
    destruct (decide (parent j = i)) as [Hpi|Hpi].
    { rewrite Hpi, exchange_l, <-Hmg. apply HB; auto. }
    destruct (decide (parent j = g)) as [Hpg|Hpg].
    { rewrite Hpg, exchange_r in *. rewrite Hmg in *. by eapply le_lvl_trans. }
    by rewrite exchange_ne.
  - intros j Hj Hjg. unfold link.
    destruct (decide (j = i)) as [->|Hji].
    { fold p. change (parent p) with g. rewrite exchange_l, exchange_r. by rewrite Hmg. }
    rewrite (exchange_ne _ _ _ j) by done.
    destruct (decide (parent (parent j) = i)) as [Hpi|Hpi].
    { rewrite Hpi, exchange_l, <-Hmg. apply HB; [lia|auto]. }
    destruct (decide (parent (parent j) = g)) as [Hpg|Hpg].
    { rewrite Hpg, exchange_r. rewrite Hmg in *. eapply le_lvl_trans; [done|].
      apply Hdown; [lia|done|auto]. }
    rewrite exchange_ne by done. by apply HG.
  - intros Hg4 j Hj Hjg. unfold link.
    pose proof (HG g ltac:(lia) ltac:(lia)) as Hgg. unfold link in Hgg.
    rewrite (exchange_ne _ _ _ (parent (parent g))) by idx.
    destruct (decide (j = i)) as [->|Hji].
    { by rewrite exchange_l. }
    rewrite exchange_ne by idx. rewrite is_min_grandparent in * by lia.
    eapply le_lvl_trans; [done|]. by apply Hdown.
Qed.

(** Exchanging a fresh leaf with its parent turns the leaf into a legal
    node and leaves only the parent to bubble up. *)
Lemma up_cross n K i :
  2 ≤ i ≤ n → (∀ j, 2 ≤ j ≤ n → parent j ≠ i ∧ parent (parent j) ≠ i) →
  (∀ j, 2 ≤ j ≤ n → j ≠ i → link K (parent j) j) →
  (∀ j, 4 ≤ j ≤ n → j ≠ i → link K (parent (parent j)) j) →
  le_lvl (is_min i) (K (parent i)) (K i) →
  up_ok n (exchange K i (parent i)) (parent i).
Proof.
  intros Hi Hleaf HP HG Hle. pose proof (is_min_parent i ltac:(lia)) as Hmp.
  set (p := parent i) in *. assert (p < i ∧ 1 ≤ p) as [Hlt Hp1] by (unfold p; idx).
  assert (Hleaf' : ∀ j, 2 ≤ j ≤ n → parent j ≠ i) by (intros; by apply Hleaf).
  split_and!.
  - intros j Hj. unfold link.
    destruct (decide (j = i)) as [->|Hji].
    { fold p. rewrite exchange_l, exchange_r, Hmp. by apply le_lvl_flip. }
    pose proof (HP j Hj Hji) as Hl. unfold link in Hl.
    destruct (decide (j = p)) as [->|Hjp].
    { rewrite exchange_r, exchange_ne by idx. rewrite is_min_parent in * by lia.
      rewrite Hmp, negb_involutive in *. by eapply le_lvl_trans. }
    rewrite (exchange_ne _ _ _ j) by done.
    destruct (decide (parent j = p)) as [Hpp|Hpp].
    { rewrite Hpp, exchange_r in *. rewrite Hmp, le_lvl_flip in *.
      by eapply le_lvl_trans. }
    rewrite exchange_ne; auto.
  - intros j Hj Hjp. unfold link.
    destruct (decide (j = i)) as [->|Hji].
    { fold p. rewrite exchange_l, exchange_ne by idx. apply (HP p); idx. }
    rewrite (exchange_ne _ _ _ j) by done.
    pose proof (HG j Hj Hji) as Hl. unfold link in Hl.
    destruct (decide (parent (parent j) = p)) as [Hpp|Hpp].
    { rewrite Hpp, exchange_r in *. rewrite Hmp, le_lvl_flip in *.
      by eapply le_lvl_trans. }
    rewrite exchange_ne; [done| |done]. apply Hleaf. lia.
  - intros Hp4 j Hj Hjp. unfold link. rewrite is_min_grandparent by lia.
    pose proof (HG p ltac:(lia) ltac:(lia)) as Hgp. unfold link in Hgp.
    rewrite is_min_grandparent in Hgp by lia.
    rewrite (exchange_ne _ _ _ (parent (parent p))) by idx.
    destruct (decide (j = i)) as [->|Hji]; [by rewrite exchange_l|].
    rewrite exchange_ne by idx. eapply le_lvl_trans; [done|].
    destruct Hjp as [Hjp|Hjp].
    + pose proof (HP j Hj Hji) as Hl. by rewrite Hjp in Hl.
    + pose proof (HG j ltac:(idx) Hji) as Hl. by rewrite Hjp in Hl.
Qed.

(** *** Trickling down *)
Definition below i j : Prop := parent j = i ∨ parent (parent j) = i.
Lemma below_child i j : parent j = i → below i j.
Proof. by left. Qed.
Lemma below_grandchild i j : parent (parent j) = i → below i j.
Proof. by right. Qed.
Local Hint Resolve below_child below_grandchild le_lvl_refl : core.

Lemma down_stop n K i :
  1 ≤ i → down_ok n K i →
  (∀ j, 2 ≤ j ≤ n → below i j → le_lvl (is_min i) (K i) (K j)) → heap_ok n K.
Proof.
  intros Hi (HP & HG & _) Hle j Hj. unfold link. split.
  - destruct (decide (parent j = i)) as [Hp|Hp]; [|by apply HP].
    rewrite Hp. apply Hle; [done|by left].
  - intros H4. destruct (decide (parent (parent j) = i)) as [Hp|Hp]; [|apply HG; [lia|done]].
    rewrite Hp. apply Hle; [done|by right].
Qed.

(** What is above [i] is on the right side of everything below [i]. *)
Lemma down_parent n K i j :
  1 ≤ i → down_ok n K i → 2 ≤ i → 2 ≤ j ≤ n → below i j →
  le_lvl (is_min i) (K j) (K (parent i)).
Proof.
  intros Hi1 (HP & HG & HB) Hi Hj Hbel. rewrite <-le_lvl_flip.
  rewrite <-is_min_parent by done.
  assert (∀ c, 2 ≤ c ≤ n → parent c = i →
    le_lvl (is_min (parent i)) (K (parent i)) (K c)) as Hchild.
  { intros c Hc Hpc. pose proof (HG c ltac:(idx) ltac:(idx)) as Hl.
    unfold link in Hl. by rewrite Hpc in Hl. }
  destruct Hbel as [Hc|Hg]; [by apply Hchild|].
  eapply le_lvl_trans; [apply (Hchild (parent j)); idx|].
  pose proof (HP j Hj ltac:(idx)) as Hl. unfold link in Hl.
  by rewrite <-(is_min_grandparent (parent j)), Hg in Hl by idx.
Qed.

Lemma down_child n K i m :
  1 ≤ i → 2 ≤ m ≤ n → parent m = i → down_ok n K i →
  (∀ j, 2 ≤ j ≤ n → below i j → le_lvl (is_min i) (K m) (K j)) →
  le_lvl (is_min i) (K m) (K i) →
  heap_ok n (exchange K i m).
Proof.
  intros Hi Hm Hpm Hok Hext Hle.
  assert (Hup : 2 ≤ i → le_lvl (is_min i) (K m) (K (parent i)) ∧
                         le_lvl (is_min i) (K i) (K (parent i))).
  { intros H2. split.
    - eapply down_parent; [done..|by left].
    - destruct Hok as (HP & _). pose proof (HP i ltac:(idx) ltac:(idx)) as Hl.
      unfold link in Hl. rewrite is_min_parent in Hl by done. by apply le_lvl_flip. }
  pose proof Hok as (HP & HG & HB).
  assert (Hmm : is_min m = negb (is_min i)).
  { rewrite <-Hpm, is_min_parent by lia. by rewrite negb_involutive. }
  assert (i < m) by (subst i; idx).
  intros j Hj. unfold link. split.
  - destruct (decide (j = i)) as [->|Hji].
    { rewrite exchange_l, exchange_ne by idx. rewrite is_min_parent by lia.
      apply le_lvl_flip. apply Hup. lia. }
    destruct (decide (j = m)) as [->|Hjm].
    { rewrite Hpm, exchange_l, exchange_r. done. }
    rewrite (exchange_ne _ _ _ j) by done.
    destruct (decide (parent j = i)) as [Hpi|Hpi].
    { rewrite Hpi, exchange_l. apply Hext; [done|by left]. }
    pose proof (HP j Hj Hpi) as Hl. unfold link in Hl.
    destruct (decide (parent j = m)) as [Hpj|Hpj].
    { rewrite Hpj, exchange_r in *. rewrite Hmm, le_lvl_flip in *.
      eapply le_lvl_trans; [done|]. done. }
    by rewrite exchange_ne.
  - intros H4. destruct (decide (j = i)) as [->|Hji].
    { rewrite exchange_l, exchange_ne by idx. apply HB; [done|lia|by left]. }
    destruct (decide (j = m)) as [->|Hjm].
    { rewrite exchange_r, exchange_ne by idx. rewrite Hpm, is_min_parent by idx.
      apply le_lvl_flip, Hup. idx. }
    rewrite (exchange_ne _ _ _ j) by done.
    destruct (decide (parent (parent j) = i)) as [Hpi|Hpi].
    { rewrite Hpi, exchange_l. apply Hext; [done|by right]. }
    pose proof (HG j ltac:(lia) Hpi) as Hl. unfold link in Hl.
    destruct (decide (parent (parent j) = m)) as [Hpj|Hpj].
    { rewrite Hpj, exchange_r in *. rewrite Hmm, le_lvl_flip in *.
      by eapply le_lvl_trans. }
    by rewrite exchange_ne.
Qed.

(** Moving a grandchild up: what remains is to trickle down from its old
    place, whatever of the two candidates is left there. *)
Lemma down_grandchild n K K' i m :
  1 ≤ i → 4 ≤ m ≤ n → parent (parent m) = i → down_ok n K i →
  (∀ j, 2 ≤ j ≤ n → below i j → le_lvl (is_min i) (K m) (K j)) →
  le_lvl (is_min i) (K m) (K i) →
  K' i = K m → (∀ k, k ≠ i → k ≠ m → k ≠ parent m → K' k = K k) →
  (K' m = K i ∧ K' (parent m) = K (parent m) ∧ le_lvl (is_min i) (K i) (K (parent m)) ∨
   K' m = K (parent m) ∧ K' (parent m) = K i ∧ le_lvl (is_min i) (K (parent m)) (K i)) →
  down_ok n K' m.
Proof.
  intros Hi Hm Hgm Hok Hext Hle HKi HKo HK.
  pose proof (down_parent n K i) as Hup.
  pose proof Hok as (HP & HG & HB).
  set (p := parent m) in *.
  assert (Hmm : is_min m = is_min i).
  { rewrite <-Hgm. symmetry. apply is_min_grandparent. lia. }
  assert (Hmp : is_min p = negb (is_min i)).
  { rewrite <-Hmm. apply is_min_parent. lia. }
  assert (i < p < m ∧ 2 ≤ p) as [Hlt Hp2] by (unfold p in *; idx).
  assert (Hpi : 2 ≤ i → le_lvl (is_min i) (K i) (K (parent i))).
  { intros H2. pose proof (HP i ltac:(idx) ltac:(idx)) as Hl.
    unfold link in Hl. rewrite is_min_parent in Hl by done. by apply le_lvl_flip. }
  (* the value left at the parent of [m] dominates both candidates *)
  assert (Hpbig : le_lvl (is_min i) (K p) (K' p) ∧ le_lvl (is_min i) (K' m) (K' p)).
  { destruct HK as [(-> & -> & ?)|(-> & -> & ?)]; split; auto using le_lvl_refl. }
  assert (Hpup : 2 ≤ i → le_lvl (is_min i) (K' p) (K (parent i))).
  { intros H2. destruct HK as [(_ & -> & _)|(_ & -> & _)]; [|by apply Hpi].
    apply Hup; [done..|lia|by left]. }
  assert (Hleast : ∀ k, k = m ∨ k = p → le_lvl (is_min i) (K m) (K' k)).
  { assert (le_lvl (is_min i) (K m) (K p)) by (apply Hext; [lia|by left]).
    intros k [->| ->]; destruct HK as [(E1 & E2 & _)|(E1 & E2 & _)];
      by rewrite ?E1, ?E2. }
  split_and!.
  - intros j Hj Hjm. unfold link.
    destruct (decide (parent j = i)) as [Hji|Hji].
    { rewrite Hji, HKi. destruct (decide (j = p)) as [->|]; [apply Hleast; auto|].
      rewrite HKo by (unfold p in *; idx). apply Hext; [done|by left]. }
    destruct (decide (parent j = p)) as [Hjp|Hjp].
    { rewrite Hjp, Hmp. apply le_lvl_flip.
      destruct (decide (j = m)) as [->|]; [apply Hpbig|].
      rewrite HKo by (unfold p in *; idx).
      pose proof (HP j Hj Hji) as Hl. unfold link in Hl.
      rewrite Hjp, Hmp, le_lvl_flip in Hl. eapply le_lvl_trans; [done|apply Hpbig]. }
    pose proof (HP j Hj Hji) as Hl. unfold link in Hl.
    destruct (decide (j = i)) as [->|Hne].
    { rewrite HKi, HKo by (unfold p in *; idx). rewrite is_min_parent by lia.
      apply le_lvl_flip. apply Hup; [done|done|lia|lia|auto]. }
    rewrite !HKo by (unfold p in *; idx). done.
  - intros j Hj Hjm. unfold link.
    destruct (decide (parent (parent j) = i)) as [Hji|Hji].
    { rewrite Hji, HKi. destruct (decide (j = m)) as [->|]; [apply Hleast; auto|].
      rewrite HKo by (unfold p in *; idx). apply Hext; [lia|by right]. }
    pose proof (HG j Hj Hji) as Hl. unfold link in Hl.
    destruct (decide (parent (parent j) = p)) as [Hjp|Hjp].
    { rewrite Hjp, Hmp in *. apply le_lvl_flip. rewrite le_lvl_flip in Hl.
      rewrite HKo by (unfold p in *; idx). eapply le_lvl_trans; [done|apply Hpbig]. }
    destruct (decide (j = p)) as [->|Hne].
    { rewrite (HKo (parent (parent p))) by (unfold p in *; idx).
      rewrite is_min_parent, is_min_parent, Hmp, negb_involutive by (unfold p in *; idx).
      rewrite Hgm. apply le_lvl_flip, Hpup. idx. }
    destruct (decide (j = i)) as [->|Hne'].
    { rewrite HKi, HKo by (unfold p in *; idx). apply HB; [lia|lia|by right]. }
    rewrite !HKo by (unfold p in *; idx). done.
  - intros _ j Hj Hbel. unfold link. change (parent (parent m)) with (parent p).
    rewrite Hgm, HKi. rewrite HKo by (unfold p in *; idx).
    rewrite <-Hmm. destruct Hbel as [Hjm|Hjm].
    + pose proof (HP j Hj ltac:(idx)) as Hl. unfold link in Hl. by rewrite Hjm in Hl.
    + pose proof (HG j ltac:(idx) ltac:(idx)) as Hl. unfold link in Hl. by rewrite Hjm in Hl.
Qed.
End order.

#[export] Instance heap_ok_proper {V} (cmp : V → V → Z) n :
  Proper (pointwise_relation nat eq ==> iff) (heap_ok cmp n).
Proof.
  intros K K' HK. assert (∀ k, K k = K' k) as HK' by apply HK.
  unfold heap_ok, link. by setoid_rewrite HK'.
Qed.

(** ** Heaps as arrays *)
Section heap_proofs.
Context {V : Type} `{Pointer V}.
Implicit Types (h : heap V) (i j k n : nat) (v : V).

Definition contents h : list V := value_at h <$> seq 1 (used h).

(** The shape of a heap: array length, bound and the [used] flags. *)
Record heap_wf h : Prop := {
  wf_capacity : length (elements h) = capacity h;
  wf_used : used h < capacity h;
  wf_flags : ∀ k, e_used (element_at h k) = true ↔ 1 ≤ k ≤ used h;
  wf_bound : bound h = 0 ∨ 2 ≤ bound h ∧ used h ≤ bound h ∧ capacity h = bound h + 1;
}.

Definition heap_inv h : Prop :=
  heap_wf h ∧ heap_ok (comparator h) (used h) (value_at h).

(** Two states of a heap that differ only by a rearrangement of the used
    part of the array. *)
Record shuffled h h' : Prop := {
  sh_bound : bound h' = bound h;
  sh_capacity : capacity h' = capacity h;
  sh_used : used h' = used h;
  sh_comparator : comparator h' = comparator h;
  sh_destructor : destructor h' = destructor h;
  sh_length : length (elements h') = length (elements h);
  sh_flags : ∀ k, e_used (element_at h' k) = e_used (element_at h k);
  sh_contents : contents h' ≡ₚ contents h;
}.

#[export] Instance shuffled_preorder : PreOrder shuffled.
Proof.
  split.
  - intros h. by split.
  - intros h1 h2 h3 [] []. split; try (intros; congruence).
    by etrans.
Qed.

Lemma shuffled_wf h h' : shuffled h h' → heap_wf h → heap_wf h'.
Proof.
  intros [] []. split; [congruence..| |].
  - intros k. rewrite sh_flags0, sh_used0. done.
  - rewrite sh_bound0, sh_used0, sh_capacity0. done.
Qed.

Lemma element_at_set h i e k :
  i < length (elements h) →
  element_at (set_element h i e) k = if decide (k = i) then e else element_at h k.
Proof.
  intros Hi. unfold element_at, set_element, set_elements; simpl.
  case_decide; subst.
  - by rewrite list_lookup_insert_eq.
  - by rewrite list_lookup_insert_ne.
Qed.

Lemma element_at_swap h i j k :
  i < length (elements h) → j < length (elements h) →
  element_at (swap h i j) k = exchange (element_at h) i j k.
Proof.
  intros Hi Hj. unfold swap. rewrite element_at_set, element_at_set;
    [|done|by simpl; rewrite length_insert].
  unfold exchange. repeat case_decide; congruence.
Qed.

Lemma value_at_swap h i j k :
  i < length (elements h) → j < length (elements h) →
  value_at (swap h i j) k = exchange (value_at h) i j k.
Proof.
  intros. unfold value_at. rewrite element_at_swap by done.
  unfold exchange. by repeat case_decide.
Qed.

Lemma swap_shuffled h i j :
  heap_wf h → 1 ≤ i ≤ used h → 1 ≤ j ≤ used h → shuffled h (swap h i j).
Proof.
  intros [] Hi Hj.
  assert (i < length (elements h) ∧ j < length (elements h)) as [Hil Hjl] by lia.
  split; try done.
  - unfold swap; simpl. by rewrite !length_insert.
  - intros k. rewrite element_at_swap by done. unfold exchange.
    apply wf_flags0 in Hi, Hj. repeat case_decide; congruence.
  - unfold contents. rewrite <-(exchange_perm (value_at h) 1 (used h) i j) by lia.
    apply reflexive_eq, list_fmap_ext. intros. by apply value_at_swap.
Qed.

Definition op_of (m : bool) : compare_t :=
  if m then COMPARE_LESS_THAN else COMPARE_GREATER_THAN.

Context (h0 : heap V) `{!Comparator (comparator h0)}.
Let cmp := comparator h0.

Lemma compare_expect_spec h i j m :
  comparator h = cmp →
  if compare_expect h i j (op_of m)
  then le_lvl cmp m (value_at h i) (value_at h j)
  else le_lvl cmp m (value_at h j) (value_at h i).
Proof.
  intros Hc. unfold compare_expect, compare. rewrite Hc.
  pose proof (cmp_flip (cmp := cmp) (value_at h i) (value_at h j)).
  pose proof (cmp_flip (cmp := cmp) (value_at h j) (value_at h i)).
  destruct m; simpl; destruct (Z.ltb_spec (cmp (value_at h i) (value_at h j)) 0),
    (Z.ltb_spec 0 (cmp (value_at h i) (value_at h j))); lia.
Qed.

Lemma bubbleup_minmax_spec fuel h i :
  i ≤ fuel → 1 ≤ i ≤ used h → comparator h = cmp → heap_wf h →
  up_ok cmp (used h) (value_at h) i →
  let h' := bubbleup_minmax fuel h i (op_of (is_min i)) in
  shuffled h h' ∧ heap_ok cmp (used h) (value_at h').
Proof.
  revert h i. induction fuel as [|fuel IH]; intros h i Hfuel Hi Hc Hwf Hup; [lia|].
  simpl. destruct (Nat.leb_spec (parent (parent i)) 0) as [Hg|Hg].
  { split; [done|]. eapply up_stop; [done|]. idx. }
  pose proof (compare_expect_spec h i (parent (parent i)) (is_min i) Hc) as Hcmp.
  destruct (compare_expect _ _ _ _).
  - pose proof (wf_used _ Hwf). pose proof (wf_capacity _ Hwf).
    assert (shuffled h (swap h i (parent (parent i)))) as Hsh.
    { apply swap_shuffled; [done|lia|idx]. }
    destruct (IH (swap h i (parent (parent i))) (parent (parent i))) as [Hs Hok].
    + idx.
    + rewrite (sh_used _ _ Hsh). idx.
    + by rewrite (sh_comparator _ _ Hsh).
    + by eapply shuffled_wf.
    + rewrite (sh_used _ _ Hsh).
      apply (up_step cmp) in Hup; [|idx|done].
      revert Hup. unfold up_ok, link.
      setoid_rewrite (λ k, value_at_swap h i (parent (parent i)) k ltac:(lia) ltac:(idx)).
      done.
    + rewrite is_min_grandparent in * by idx. rewrite (sh_used _ _ Hsh) in Hok.
      split; [by etrans|done].
  - split; [done|]. eapply up_stop; [done|]. intros _. done.
Qed.

(** The index search returns an extremal element of the indices it has
    seen; it has found nothing only when the first one, [a], is out of
    range. *)
Definition best h m a (L : list nat) (idx : option nat) : Prop :=
  match idx with
  | None => used h < a
  | Some y => y ∈ L ∧ y ≤ used h ∧
              ∀ x, x ∈ L → x ≤ used h → le_lvl cmp m (value_at h y) (value_at h x)
  end.

Lemma improve_best h m a L idx x :
  comparator h = cmp → a ≤ x → best h m a L idx →
  best h m a (x :: L) (improve h (op_of m) idx x).
Proof.
  intros Hc Hax Hbest. unfold improve. destruct (Nat.leb_spec x (used h)).
  - destruct idx as [y|]; [|simpl in *; lia].
    destruct Hbest as (Hy & Hyu & Hle).
    pose proof (compare_expect_spec h x y m Hc) as Hcmp.
    destruct (compare_expect h x y (op_of m)); simpl.
    + split_and!; [by left|lia|]. intros z Hz Hzu. apply elem_of_cons in Hz as [->|Hz].
      * apply le_lvl_refl, _.
      * eapply le_lvl_trans; eauto.
    + split_and!; [by right|lia|]. intros z Hz Hzu.
      apply elem_of_cons in Hz as [->|Hz]; auto.
  - destruct idx as [y|]; simpl in *; [|done].
    destruct Hbest as (Hy & Hyu & Hle). split_and!; [by right|lia|].
    intros z Hz Hzu. apply elem_of_cons in Hz as [->|Hz]; [lia|auto].
Qed.

Lemma index_spec h i :
  1 ≤ i → comparator h = cmp →
  match index_minmax_child_grandchild h i (op_of (is_min i)) with
  | None => used h < first_child i
  | Some m => below i m ∧ m ≤ used h ∧
      ∀ j, 2 ≤ j ≤ used h → below i j →
           le_lvl cmp (is_min i) (value_at h m) (value_at h j)
  end.
Proof.
  intros Hi Hc. unfold index_minmax_child_grandchild.
  set (idx := improve _ _ _ (second_child (second_child i))).
  assert (∃ L, (∀ j, j ∈ L ↔ below i j) ∧ best h (is_min i) (first_child i) L idx)
    as (L & HL & Hbest).
  { eexists. split; cycle 1.
    { unfold idx. do 5 (apply improve_best; [done|idx|]). instantiate (1 := [first_child i]).
      destruct (Nat.leb_spec (first_child i) (used h)); simpl; [|done].
      split_and!; [by left|done|]. intros x ->%list_elem_of_singleton _.
      apply le_lvl_refl, _. }
    intros j. rewrite !elem_of_cons, elem_of_nil. unfold below. idx. }
  destruct idx as [y|]; [|exact Hbest].
  destruct Hbest as (Hy & Hyu & Hle). split_and!; [by apply HL|done|].
  intros j Hj Hb. apply Hle; [by apply HL|lia].
Qed.

(** One turn of the trickle-down loop at a grandchild. *)
Lemma grandchild_step h i m :
  1 ≤ i → 4 ≤ m ≤ used h → parent (parent m) = i → comparator h = cmp → heap_wf h →
  down_ok cmp (used h) (value_at h) i →
  (∀ j, 2 ≤ j ≤ used h → below i j →
     le_lvl cmp (is_min i) (value_at h m) (value_at h j)) →
  le_lvl cmp (is_min i) (value_at h m) (value_at h i) →
  let h1 := swap h i m in
  let h2 := if negb (compare_expect h1 m (parent m) (op_of (is_min i)))
            then swap h1 m (parent m) else h1 in
  shuffled h h2 ∧ down_ok cmp (used h) (value_at h2) m.
Proof.
  intros Hi Hm Hgm Hc Hwf Hdown Hext Hle h1.
  pose proof (wf_used _ Hwf). pose proof (wf_capacity _ Hwf).
  assert (shuffled h h1) as Hsh1 by (apply swap_shuffled; [done|idx..]).
  assert (Hv1 : ∀ k, value_at h1 k = exchange (value_at h) i m k).
  { intros k. apply value_at_swap; idx. }
  assert (Hv2 : ∀ k, value_at (swap h1 m (parent m)) k = exchange (value_at h1) m (parent m) k).
  { intros k. apply value_at_swap; rewrite (sh_length _ _ Hsh1); idx. }
  pose proof (compare_expect_spec h1 m (parent m) (is_min i)
                ltac:(by rewrite (sh_comparator _ _ Hsh1))) as Hcmp.
  assert (Hm1 : value_at h1 m = value_at h i) by (by rewrite Hv1, exchange_r).
  assert (Hp1 : value_at h1 (parent m) = value_at h (parent m)).
  { rewrite Hv1, exchange_ne; [done|idx..]. }
  assert (Hi1 : value_at h1 i = value_at h m) by (by rewrite Hv1, exchange_l).
  destruct (compare_expect h1 m (parent m) _); simpl.
  - split; [done|]. eapply (down_grandchild cmp); [done..| |].
    + intros k ?? _. by rewrite Hv1, exchange_ne.
    + left. by rewrite Hm1, Hp1 in *.
  - split.
    { etrans; [done|]. apply swap_shuffled; [by eapply shuffled_wf|..];
        rewrite (sh_used _ _ Hsh1); idx. }
    eapply (down_grandchild cmp); [done..| | |].
    + rewrite Hv2, exchange_ne; [done|idx..].
    + intros k ???. rewrite Hv2, exchange_ne by done. by rewrite Hv1, exchange_ne.
    + right. rewrite !Hv2, exchange_l, exchange_r, Hm1, Hp1 in *. done.
Qed.

Lemma trickledown_minmax_spec fuel h i :
  used h < i + fuel → 1 ≤ i → comparator h = cmp → heap_wf h →
  down_ok cmp (used h) (value_at h) i →
  let h' := trickledown_minmax fuel h i (op_of (is_min i)) in
  shuffled h h' ∧ heap_ok cmp (used h) (value_at h').
Proof.
  revert h i. induction fuel as [|fuel IH]; intros h i Hfuel Hi Hc Hwf Hdown.
  { split; [done|]. eapply down_stop; [done..|]. unfold below. intros. exfalso. idx. }
  pose proof (wf_used _ Hwf). pose proof (wf_capacity _ Hwf).
  pose proof (index_spec h i Hi Hc) as Hidx. cbn [trickledown_minmax].
  destruct (index_minmax_child_grandchild _ _ _) as [m|]; cycle 1.
  { split; [done|]. eapply down_stop; [done..|]. unfold below. intros. exfalso. idx. }
  destruct Hidx as (Hbel & Hmu & Hext).
  pose proof (compare_expect_spec h m i (is_min i) Hc) as Hcmp.
  assert (Hstop : le_lvl cmp (is_min i) (value_at h i) (value_at h m) →
    shuffled h h ∧ heap_ok cmp (used h) (value_at h)).
  { intros Hle. split; [done|]. eapply down_stop; [done..|].
    intros j Hj Hb. eapply le_lvl_trans; [apply _|done|auto]. }
  destruct (Nat.ltb_spec (second_child i) m) as [Hgc|Hch].
  - destruct Hbel as [Hbel|Hgm]; [idx|].
    destruct (compare_expect h m i _); [|by apply Hstop].
    destruct (grandchild_step h i m) as (Hsh & Hdown2); [done|idx|done..|].
    assert (is_min m = is_min i) as Hm.
    { rewrite <-Hgm. symmetry. apply is_min_grandparent. idx. }
    rewrite <-Hm in *. cbv zeta.
    match goal with |- context [trickledown_minmax fuel ?h' _ _] => set (h2 := h') in * end.
    pose proof (sh_used _ _ Hsh) as Hu. pose proof (sh_comparator _ _ Hsh).
    rewrite <-Hu in *.
    destruct (IH h2 m) as [Hs Hok]; [idx..|congruence|by eapply shuffled_wf|done|].
    split; [by etrans|done].
  - assert (parent m = i) as Hpm.
    { destruct Hbel as [?|?]; [done|idx]. }
    destruct (compare_expect h m i _); [|by apply Hstop].
    split; [apply swap_shuffled; [done|idx..]|].
    pose proof (down_child cmp (used h) (value_at h) i m) as Hok.
    revert Hok. unfold heap_ok, link.
    setoid_rewrite (λ k, value_at_swap h i m k ltac:(idx) ltac:(idx)).
    intros Hok. apply Hok; try done. idx.
Qed.

Lemma bubbleup_unfold h i :
  2 ≤ i →
  bubbleup h i =
    let p := parent i in
    if compare_expect h i p (op_of (is_min p))
    then bubbleup_minmax p (swap h i p) p (op_of (is_min p))
    else bubbleup_minmax i h i (op_of (is_min i)).
Proof.
  intros Hi. unfold bubbleup. destruct (Nat.leb_spec (parent i) 0); [idx|].
  rewrite is_min_parent by done. cbv zeta. by destruct (is_min i).
Qed.

(** A value appended to a heap bubbles up to a heap. *)
Lemma bubbleup_spec h :
  1 ≤ used h → comparator h = cmp → heap_wf h →
  heap_ok cmp (used h - 1) (value_at h) →
  let h' := bubbleup h (used h) in
  shuffled h h' ∧ heap_ok cmp (used h) (value_at h').
Proof.
  intros Hi Hc Hwf Hok. set (n := used h) in *. destruct (decide (n = 1)) as [Hn1|Hn1].
  { rewrite Hn1 in *. split; [done|]. intros j Hj. lia. }
  cbv zeta. rewrite bubbleup_unfold by lia. cbv zeta.
  pose proof (wf_used _ Hwf). pose proof (wf_capacity _ Hwf).
  pose proof (compare_expect_spec h n (parent n) (is_min (parent n)) Hc) as Hcmp.
  assert (HP : ∀ j, 2 ≤ j ≤ n → j ≠ n → link cmp (value_at h) (parent j) j).
  { intros. apply Hok. lia. }
  assert (HG : ∀ j, 4 ≤ j ≤ n → j ≠ n → link cmp (value_at h) (parent (parent j)) j).
  { intros. apply Hok; lia. }
  destruct (compare_expect h n _ _).
  - assert (shuffled h (swap h n (parent n))) as Hsh by (apply swap_shuffled; [done|idx..]).
    pose proof (sh_used _ _ Hsh) as Hu.
    destruct (bubbleup_minmax_spec (parent n) (swap h n (parent n)) (parent n)) as [Hs Hok'].
    + done.
    + rewrite Hu. idx.
    + by rewrite (sh_comparator _ _ Hsh).
    + by eapply shuffled_wf.
    + rewrite Hu. pose proof (up_cross cmp n (value_at h) n) as Hup. revert Hup.
      unfold up_ok, link in *.
      setoid_rewrite (λ k, value_at_swap h n (parent n) k ltac:(lia) ltac:(idx)).
      intros Hup. apply Hup; [lia|intros; idx|done|done|].
      rewrite <-le_lvl_flip, <-is_min_parent by lia. done.
    + rewrite Hu in Hok'. split; [by etrans|done].
  - apply bubbleup_minmax_spec; [done|lia|done|done|]. split_and!.
    + intros j Hj. destruct (decide (j = n)) as [->|]; [done|by apply HP].
    + done.
    + intros _ j Hj Hb. exfalso. fold n in Hj, Hb. idx.
Qed.

Lemma grow_wf h :
  heap_wf h →
  used h + 1 < capacity (grow h) ∧ used (grow h) = used h ∧
  bound (grow h) = bound h ∧ comparator (grow h) = comparator h ∧
  destructor (grow h) = destructor h ∧
  (used h + 1 < capacity h → capacity (grow h) = capacity h) ∧
  length (elements (grow h)) = capacity (grow h) ∧
  ∀ k, element_at (grow h) k = element_at h k.
Proof.
  intros []. unfold grow. destruct (Nat.leb_spec (capacity h) (used h + 1)); simpl.
  - split_and!; [lia|done..|lia| |].
    + rewrite length_app, length_replicate. lia.
    + intros k. unfold element_at; simpl. destruct (decide (k < length (elements h))).
      * by rewrite lookup_app_l.
      * rewrite lookup_app_r by lia. rewrite (lookup_ge_None_2 (elements h)) by lia.
        destruct (decide (k - length (elements h) < capacity h * 2 - capacity h)).
        -- by rewrite lookup_replicate_2.
        -- by rewrite lookup_ge_None_2 by (rewrite length_replicate; lia).
  - by split_and!; try lia.
Qed.

Lemma contents_ext h h' :
  used h = used h' → (∀ k, 1 ≤ k ≤ used h → value_at h k = value_at h' k) →
  contents h = contents h'.
Proof.
  intros Hu Hv. unfold contents. rewrite <-Hu. apply list_fmap_ext.
  intros i k Hk%list_elem_of_lookup_2%elem_of_seq. apply Hv. lia.
Qed.

(** What an operation leaves alone. *)
Record same_params h h' : Prop := {
  sp_bound : bound h' = bound h;
  sp_comparator : comparator h' = comparator h;
  sp_destructor : destructor h' = destructor h;
}.

Lemma add_element_spec h v :
  comparator h = cmp → heap_inv h → (bound h = 0 ∨ used h < bound h) →
  let h' := add_element h v in
  heap_inv h' ∧ same_params h h' ∧ contents h' ≡ₚ v :: contents h.
Proof.
  intros Hc [Hwf Hok] Hb.
  destruct (grow_wf h Hwf) as (Hcap & Hu & Hbd & Hcmp & Hd & Hcs & Hlen & Hel).
  unfold add_element.
  set (h1 := set_element _ _ _).
  assert (Hu1 : used h1 = S (used h)) by (simpl; lia).
  assert (He1 : ∀ k, element_at h1 k =
    if decide (k = S (used h)) then Element true v else element_at h k).
  { intros k. unfold h1. rewrite element_at_set by (simpl in *; lia).
    rewrite <-Hel. by replace (used (set_used (grow h) (used (grow h) + 1)))
      with (S (used h)) by (simpl; lia). }
  assert (Hv1 : ∀ k, value_at h1 k = if decide (k = S (used h)) then v else value_at h k).
  { intros k. unfold value_at. rewrite He1. by case_decide. }
  assert (heap_wf h1) as Hwf1.
  { destruct Hwf. split.
    - simpl. by rewrite length_insert.
    - rewrite Hu1. simpl. lia.
    - intros k. rewrite He1, Hu1. case_decide; simpl; [|rewrite wf_flags0]; lia.
    - rewrite Hu1. simpl. rewrite Hbd. lia. }
  change (used (set_used (grow h) (used (grow h) + 1))) with (used h1).
  destruct (bubbleup_spec h1) as [Hs Hok1]; [lia|simpl; congruence|done| |].
  { rewrite Hu1. intros j Hj. specialize (Hok j ltac:(lia)).
    rewrite Hc in Hok. unfold link in *. rewrite !Hv1, !decide_False by idx. done. }
  split_and!.
  - split; [by eapply shuffled_wf|].
    rewrite (sh_used _ _ Hs), (sh_comparator _ _ Hs). simpl. by rewrite Hcmp, Hc.
  - destruct Hs. split; simpl in *; congruence.
  - rewrite (sh_contents _ _ Hs). unfold contents. rewrite Hu1, seq_S, fmap_app.
    simpl. rewrite Hv1, decide_True by done. rewrite Permutation_app_comm. simpl.
    apply Permutation_skip, reflexive_eq, list_fmap_ext.
    intros i k Hk%list_elem_of_lookup_2%elem_of_seq.
    by rewrite Hv1, decide_False by lia.
Qed.

Lemma trickledown_unfold h i :
  trickledown h i = trickledown_minmax (used h) h i (op_of (is_min i)).
Proof. unfold trickledown. by destruct (is_min i). Qed.

(** Filling a hole with the last value: what is left is a permutation of
    the rest. *)
Lemma fill_hole_perm (K : nat → V) n idx :
  1 ≤ idx ≤ n →
  K <$> seq 1 n ≡ₚ
    K idx :: ((λ k, if decide (k = idx) then K n else K k) <$> seq 1 (n - 1)).
Proof.
  intros Hidx. rewrite <-(exchange_perm K 1 n idx n) by lia.
  replace n with (S (n - 1)) at 2 by lia. rewrite seq_S, fmap_app. simpl.
  replace (S (n - 1)) with n by lia. rewrite exchange_r, Permutation_app_comm. simpl.
  apply Permutation_skip, reflexive_eq, list_fmap_ext.
  intros _ k Hk%list_elem_of_lookup_2%elem_of_seq.
  unfold exchange. repeat case_decide; try done; lia.
Qed.

Lemma extract_spec h idx :
  comparator h = cmp → heap_inv h → 1 ≤ idx ≤ 3 → 2 ≤ used h → idx ≤ used h →
  let h' := extract h idx in
  heap_inv h' ∧ same_params h h' ∧ used h' = used h - 1 ∧
  contents h ≡ₚ value_at h idx :: contents h'.
Proof.
  intros Hc [Hwf Hok] Hidx Hn Hidx'. set (n := used h) in *. unfold extract. fold n.
  set (h1 := set_used _ _).
  pose proof (wf_used _ Hwf). pose proof (wf_capacity _ Hwf).
  assert (He1 : ∀ k, element_at h1 k =
    if decide (k = n) then Element false (value_at h n)
    else if decide (k = idx) then element_at h n else element_at h k).
  { intros k. change (element_at h1 k) with
      (element_at (mark_unused (set_element h idx (element_at h n)) n) k).
    unfold mark_unused. rewrite element_at_set by (simpl; rewrite length_insert; lia).
    unfold value_at. rewrite !element_at_set by lia.
    repeat case_decide; congruence. }
  assert (Hv1 : ∀ k, k ≠ n → value_at h1 k =
    if decide (k = idx) then value_at h n else value_at h k).
  { intros k Hk. unfold value_at. rewrite He1, decide_False by done.
    by repeat case_decide. }
  assert (heap_wf h1) as Hwf1.
  { destruct Hwf as [? ? Hfl ?]. split; simpl; [by rewrite !length_insert|lia| |lia].
    intros k. rewrite He1. fold n in Hfl. pose proof (Hfl k). pose proof (Hfl n).
    repeat case_decide; simpl; subst; intuition lia. }
  assert (down_ok cmp (n - 1) (value_at h1) idx) as Hdown.
  { rewrite Hc in Hok. unfold down_ok, link. split_and!.
    - intros j Hj Hp. rewrite !Hv1 by idx. rewrite (decide_False (P := parent j = idx)) by done.
      case_decide as Hji; [|apply Hok; lia]. subst j.
      replace (parent idx) with 1 in * by idx.
      apply (heap_ok_min cmp n (value_at h)); [done|lia].
    - intros j Hj Hp. rewrite !Hv1 by idx. rewrite !decide_False by (idx || done).
      apply Hok; lia.
    - lia. }
  change (used (mark_unused (set_element h idx (element_at h n)) n)) with n.
  rewrite trickledown_unfold.
  destruct (trickledown_minmax_spec (used h1) h1 idx) as [Hs Hok1]; [simpl; lia|lia|done..|].
  split_and!.
  - split; [by eapply shuffled_wf|].
    rewrite (sh_used _ _ Hs), (sh_comparator _ _ Hs). simpl. by rewrite Hc.
  - destruct Hs. by split.
  - by rewrite (sh_used _ _ Hs).
  - rewrite (sh_contents _ _ Hs). unfold contents. fold n. rewrite (fill_hole_perm _ n idx) by lia.
    change (used h1) with (n - 1). apply Permutation_skip, reflexive_eq, list_fmap_ext.
    intros _ k Hk%list_elem_of_lookup_2%elem_of_seq. by rewrite Hv1 by lia.
Qed.
End heap_proofs.

(** ** The heap as a bag of values

    The lemmas below state every operation against the bag [contents h]. *)
Section heap_spec.
Context {V : Type} `{Pointer V}.
Implicit Types (h : heap V) (v : V).

Lemma same_params_comparator h h' :
  same_params h h' → Comparator (comparator h) → Comparator (comparator h').
Proof. intros []. by rewrite sp_comparator0. Qed.

#[export] Instance same_params_preorder : PreOrder (@same_params V).
Proof.
  split; [done|]. intros h1 h2 h3 [] []. split; congruence.
Qed.

Lemma elem_of_contents h x :
  x ∈ contents h ↔ ∃ k, 1 ≤ k ≤ used h ∧ x = value_at h k.
Proof.
  unfold contents. rewrite list_elem_of_fmap. setoid_rewrite elem_of_seq.
  split; intros (k & ? & ?); exists k; split; try done; lia.
Qed.

Lemma length_contents h : length (contents h) = used h.
Proof. unfold contents. by rewrite length_fmap, length_seq. Qed.

Lemma contents_nil h : used h = 0 → contents h = [].
Proof. unfold contents. by intros ->. Qed.

Lemma shrink_inv h k :
  heap_inv h → used h = S k → k ≤ 1 →
  let h' := mark_unused (set_used h k) (S k) in
  heap_inv h' ∧ same_params h h' ∧ contents h ≡ₚ value_at h (S k) :: contents h'.
Proof.
  intros [[Hcap Hu Hfl Hb] Hok] Hk Hle. rewrite Hk in *.
  assert (∀ i, element_at (mark_unused (set_used h k) (S k)) i =
    if decide (i = S k) then Element false (value_at h (S k)) else element_at h i) as He.
  { intros i. unfold mark_unused. by rewrite element_at_set by (simpl; lia). }
  split_and!.
  - split; [split; simpl|].
    + by rewrite length_insert.
    + lia.
    + intros i. rewrite He. case_decide; simpl; [lia|]. rewrite Hfl. lia.
    + lia.
    + intros j Hj. simpl in Hj. lia.
  - done.
  - unfold contents. rewrite Hk. simpl (used _). rewrite seq_S, fmap_app.
    rewrite Permutation_app_comm. apply Permutation_skip, reflexive_eq, list_fmap_ext.
    intros _ i Hi%list_elem_of_lookup_2%elem_of_seq.
    unfold value_at. by rewrite He, decide_False by lia.
Qed.

Lemma peek_min_spec h `{!Comparator (comparator h)} :
  heap_inv h → used h ≠ 0 →
  peek_min h ∈ contents h ∧ ∀ x, x ∈ contents h → (comparator h (peek_min h) x ≤ 0)%Z.
Proof.
  intros [_ Hok] Hn. unfold peek_min. destruct (Nat.eqb_spec (used h) 0); [done|]. split.
  - apply elem_of_contents. exists 1. split; [lia|done].
  - intros x (k & Hk & ->)%elem_of_contents.
    by apply (heap_ok_min (comparator h) (used h) (value_at h) k).
Qed.

Lemma pop_min_spec h `{!Comparator (comparator h)} :
  heap_inv h → used h ≠ 0 →
  let '(v, h') := pop_min h in
  v = peek_min h ∧ heap_inv h' ∧ same_params h h' ∧ contents h ≡ₚ v :: contents h'.
Proof.
  intros Hinv Hn. unfold pop_min, peek_min.
  destruct (Nat.eqb_spec (used h) 0); [done|].
  destruct (Nat.eqb_spec (used h) 1) as [H1|H1].
  - split; [done|]. rewrite H1. apply (shrink_inv h 0); [done|done|lia].
  - destruct (extract_spec h h 1) as (? & ? & _ & ?); [done|done|lia..|].
    by split_and!.
Qed.

Lemma peek_max_bound h `{!Comparator (comparator h)} x :
  heap_inv h → x ∈ contents h → (comparator h x (peek_max h) ≤ 0)%Z.
Proof.
  intros [_ Hok] (k & Hk & ->)%elem_of_contents. unfold peek_max.
  destruct (Nat.eqb_spec (used h) 0); [lia|].
  destruct (Nat.eqb_spec (used h) 1).
  { replace k with 1 by lia. rewrite cmp_refl; [lia|done]. }
  destruct (heap_ok_max (comparator h) (used h) (value_at h) k) as [Hm|[H3 Hm]];
    [done|lia|lia| |]; simpl in Hm.
  - destruct (Nat.eqb_spec (used h) 2); [done|].
    destruct (Z.ltb_spec 0 (compare h 2 3)); [done|].
    by eapply cmp_trans.
  - destruct (Nat.eqb_spec (used h) 2); [lia|].
    destruct (Z.ltb_spec 0 (compare h 2 3)) as [Hc|]; [|done].
    eapply cmp_trans; [done..|]. unfold compare in Hc.
    apply cmp_flip in Hc. lia.
Qed.

Lemma pop_max_spec h `{!Comparator (comparator h)} :
  heap_inv h → used h ≠ 0 →
  let '(v, h') := pop_max h in
  (∀ x, x ∈ contents h → (comparator h x v ≤ 0)%Z) ∧
  heap_inv h' ∧ same_params h h' ∧ contents h ≡ₚ v :: contents h'.
Proof.
  intros Hinv Hn. pose proof (λ x, peek_max_bound h x Hinv) as Hmax.
  unfold pop_max, peek_max in *. destruct (Nat.eqb_spec (used h) 0); [done|].
  destruct (Nat.leb_spec (used h) 2) as [H2|H2].
  - destruct (used h) as [|k] eqn:Hu; [done|]. simpl (S k - 1). rewrite Nat.sub_0_r.
    destruct (shrink_inv h k) as (? & ? & ?); [done|done|lia|].
    assert (value_at (mark_unused (set_used h k) (S k)) (S k) = value_at h (S k)) as ->.
    { destruct Hinv as [[] _]. unfold value_at, mark_unused.
      by rewrite element_at_set, decide_True by (simpl; lia). }
    split; [|by split_and!]. intros x Hx. specialize (Hmax x Hx).
    destruct k as [|[|k]]; simpl in Hmax; [done..|lia].
  - destruct (Nat.eqb_spec (used h) 1), (Nat.eqb_spec (used h) 2); [lia..|].
    set (idx := if (compare h 2 3 <? 0)%Z then 3 else 2).
    assert (idx = 2 ∨ idx = 3) as Hidx by (unfold idx; bool_cases; auto).
    destruct (extract_spec h h idx) as (? & ? & _ & ?); [done|done|lia..|].
    split; [|by split_and!]. intros x Hx. specialize (Hmax x Hx).
    unfold idx. destruct (Z.ltb_spec (compare h 2 3) 0), (Z.ltb_spec 0 (compare h 2 3));
      [lia|done|done|].
    eapply cmp_trans; [done..|]. unfold compare in *.
    pose proof (cmp_flip (cmp := comparator h) (value_at h 2) (value_at h 3)). lia.
Qed.

Definition has_room h : bool := (bound h =? 0) || (used h <? bound h).

Lemma insert_spec h v `{!Comparator (comparator h)} :
  heap_inv h →
  let '(h', destroyed) := insert h v in
  heap_inv h' ∧ same_params h h' ∧
  ∃ evicted, destroyed = (if destructor h then evicted else []) ∧
    v :: contents h ≡ₚ evicted ++ contents h' ∧
    if has_room h then evicted = []
    else ∃ m, evicted = [m] ∧ ∀ x, x ∈ contents h' → (comparator h m x ≤ 0)%Z.
Proof.
  intros Hinv. unfold insert, has_room. pose proof (proj1 Hinv) as Hwf.
  destruct (Nat.eqb_spec (bound h) 0) as [Hb|Hb]; simpl.
  { destruct (add_element_spec h h v) as (? & ? & Hp); [done..|by left|].
    split_and!; [done..|]. exists []. by split_and!; [destruct (destructor h)| |]. }
  destruct (Nat.leb_spec (bound h) (used h)) as [Hfull|Hfull]; cycle 1.
  { destruct (add_element_spec h h v) as (? & ? & Hp); [done..|by right|].
    split_and!; [done..|]. exists []. rewrite (proj2 (Nat.ltb_lt _ _)) by done.
    by split_and!; [destruct (destructor h)| |]. }
  rewrite (proj2 (Nat.ltb_ge _ _)) by done.
  assert (used h ≠ 0) as Hn by (pose proof (wf_bound _ Hwf); lia).
  destruct (peek_min_spec h) as [_ Hmin]; [done..|].
  destruct (Z.ltb_spec 0 (comparator h (peek_min h) v)) as [Hlt|Hge].
  - split_and!; [done..|]. exists [v]. split_and!; [done|done|].
    exists v. split; [done|]. intros x Hx. apply cmp_flip in Hlt.
    eapply cmp_trans; [|by apply Hmin]. lia.
  - pose proof (pop_min_spec h Hinv Hn) as Hpop.
    destruct (pop_min h) as [m h1]. destruct Hpop as (-> & Hinv1 & Hsp & Hp).
    assert (used h = S (used h1)) as Hu.
    { rewrite <-!length_contents. by rewrite Hp. }
    pose proof (same_params_comparator _ _ Hsp _).
    destruct (add_element_spec h1 h1 v) as (? & ? & Hp'); [done|done| |].
    { right. pose proof (wf_bound _ Hwf). rewrite (sp_bound _ _ Hsp). lia. }
    split; [done|]. split; [by etrans|]. exists [peek_min h]. split; [|split].
    + unfold destruct_one. by rewrite (sp_destructor _ _ Hsp).
    + rewrite Hp'. simpl. rewrite Hp. apply Permutation_swap.
    + eexists. split; [done|]. intros x. rewrite Hp', elem_of_cons.
      intros [->|Hx]; [done|]. apply Hmin. rewrite Hp. by right.
Qed.
End heap_spec.

(** ** Creation and iteration *)
Section heap_api.
Context {V : Type} `{Pointer V}.
Implicit Types (h : heap V) (oh : option (heap V)) (v : V).

Lemma create_spec b cmp d h :
  nr_minmax_heap_create b (Some cmp) d = Some h →
  heap_inv h ∧ contents h = [] ∧ comparator h = cmp ∧ destructor h = d ∧
  Z.of_nat (bound h) = b ∧ b ≠ 1%Z.
Proof.
  unfold nr_minmax_heap_create. intros Heq.
  destruct (Z.eqb_spec b 1), (Z.ltb_spec b 0); simpl in Heq; [done..|].
  injection Heq as <-. split_and!; simpl; try done; [|lia].
  split; [split; simpl|].
  - apply length_replicate.
  - unfold NR_MINMAX_HEAP_CHUNK_SIZE. destruct (Z.ltb_spec 0 b); lia.
  - intros k. split; [|lia]. unfold element_at; simpl.
    destruct (replicate _ _ !! k) as [e|] eqn:E; simpl; [|done].
    by apply lookup_replicate in E as [-> _].
  - destruct (Z.ltb_spec 0 b); lia.
  - intros j Hj. simpl in Hj. lia.
Qed.

Lemma element_lookup h k :
  k < length (elements h) → elements h !! k = Some (element_at h k).
Proof.
  intros Hk. unfold element_at. by destruct (lookup_lt_is_Some_2 _ _ Hk) as [e ->].
Qed.

(** The used slots are exactly the values of the bag, in array order. *)
Lemma used_values_contents h : heap_wf h → used_values h = contents h.
Proof.
  intros [Hcap Hu Hfl _]. unfold used_values, contents.
  assert (take (S (used h)) (elements h) = element_at h <$> seq 0 (S (used h))) as ->.
  { apply list_eq. intros i. rewrite list_lookup_fmap.
    destruct (decide (i < S (used h))).
    - rewrite lookup_take_lt, lookup_seq_lt, element_lookup by lia. done.
    - rewrite lookup_take_ge, lookup_seq_ge by lia. done. }
  simpl. rewrite filter_cons_False by (rewrite Hfl; lia).
  assert (∀ l : list nat, (∀ k, k ∈ l → 1 ≤ k ≤ used h) →
    e_value <$> filter (λ e, e_used e = true) (element_at h <$> l) = value_at h <$> l) as Hl.
  { induction l as [|k l IH]; intros Hin; [done|]. simpl.
    rewrite filter_cons_True by (apply Hfl, Hin; left). simpl. f_equal.
    apply IH. intros. apply Hin. by right. }
  apply Hl. intros k Hk%elem_of_seq. lia.
Qed.

(** *** Properties *)

(** The type invariant of a heap reference: [NULL] or a well-formed,
    ordered heap. *)
Definition heap_ref_inv oh : Prop :=
  match oh with None => True | Some h => heap_inv h end.

Definition comparator_ok oh : Prop :=
  match oh with None => True | Some h => Comparator (comparator h) end.

Lemma insert_all_inv h l `{!Comparator (comparator h)} :
  heap_inv h → heap_inv (fold_left (λ h v, (insert h v).1) l h).
Proof.
  revert h Comparator0. induction l as [|v l IH]; intros h Hc Hinv; [done|].
  simpl. pose proof (insert_spec h v Hinv) as Hs.
  destruct (insert h v) as [h' d]. destruct Hs as (Hinv' & Hsp & _).
  apply IH; [by eapply same_params_comparator|done].
Qed.

(** Inserting a list of values in order, collecting what is destroyed. *)
Definition insert_all h (l : list V) : heap V * list V :=
  fold_left (λ '(h, d) v, let '(h', d') := insert h v in (h', d ++ d')) l (h, []).

(** [D] is what a bounded heap has given up so far. *)
Record keeps_largest (D : list V) h : Prop := {
  kl_inv : heap_inv h;
  kl_full : D ≠ [] → used h = bound h;
  kl_below : ∀ d x, d ∈ D → x ∈ contents h → (comparator h d x ≤ 0)%Z;
}.

Lemma insert_keeps_largest D h v `{!Comparator (comparator h)} :
  bound h ≠ 0 → keeps_largest D h →
  let '(h', d) := insert h v in
  ∃ ev, d = (if destructor h then ev else []) ∧ same_params h h' ∧
    keeps_largest (D ++ ev) h' ∧ v :: contents h ≡ₚ ev ++ contents h'.
Proof.
  intros Hb [Hinv Hfull Hbelow]. pose proof (insert_spec h v Hinv) as Hs.
  destruct (insert h v) as [h' d]. destruct Hs as (Hinv' & Hsp & ev & Hd & Hp & Hev).
  exists ev. split_and!; [done..| |done].
  pose proof (wf_bound _ (proj1 Hinv)) as Hwb.
  pose proof (wf_bound _ (proj1 Hinv')) as Hwb'. rewrite (sp_bound _ _ Hsp) in Hwb'.
  pose proof (Permutation_length Hp) as Hlen.
  rewrite length_app in Hlen. simpl in Hlen. rewrite !length_contents in Hlen.
  unfold has_room in Hev. destruct (Nat.eqb_spec (bound h) 0); [done|]. simpl in Hev.
  destruct (Nat.ltb_spec (used h) (bound h)) as [Hroom|Hroom].
  - subst ev. destruct D as [|d0 D]; [|specialize (Hfull ltac:(done)); lia].
    split; [done|done|]. intros d0 x Hd0. by apply not_elem_of_nil in Hd0.
  - destruct Hev as (m & -> & Hm). simpl in *.
    split; [done|rewrite (sp_bound _ _ Hsp); lia|].
    intros d0 x [Hd0| ->%list_elem_of_singleton]%elem_of_app Hx;
      rewrite (sp_comparator _ _ Hsp); [|by apply Hm].
    assert (m ∈ contents h ∨ m = v) as [Hmc| ->].
    { assert (m ∈ v :: contents h) as Hmv by (rewrite Hp; left).
      apply elem_of_cons in Hmv as [->|?]; auto. }
    + eapply cmp_trans; [by apply (Hbelow _ _ Hd0 Hmc)|by apply Hm].
    + apply Permutation_cons_inv in Hp. apply Hbelow; [done|by rewrite Hp].
Qed.

Lemma insert_all_keeps_largest l D d0 h `{!Comparator (comparator h)} :
  bound h ≠ 0 → keeps_largest D h →
  let '(h', d) := fold_left
    (λ '(h, d) v, let '(h', d') := insert h v in (h', d ++ d')) l (h, d0) in
  ∃ ev, d = d0 ++ (if destructor h then ev else []) ∧ same_params h h' ∧
    keeps_largest (D ++ ev) h' ∧ l ++ contents h ≡ₚ ev ++ contents h'.
Proof.
  revert D d0 h Comparator0. induction l as [|v l IH]; intros D d0 h Hc Hb Hk; simpl.
  { exists []. rewrite app_nil_r. by split_and!; [destruct (destructor h); by rewrite app_nil_r|..]. }
  pose proof (insert_keeps_largest D h v Hb Hk) as Hs.
  destruct (insert h v) as [h1 d1]. destruct Hs as (ev1 & -> & Hsp & Hk1 & Hp1).
  pose proof (same_params_comparator _ _ Hsp _).
  specialize (IH (D ++ ev1) (d0 ++ (if destructor h then ev1 else [])) h1 _).
  rewrite (sp_bound _ _ Hsp) in IH. specialize (IH Hb Hk1).
  destruct (fold_left _ l _) as [h2 d2]. destruct IH as (ev2 & -> & Hsp2 & Hk2 & Hp2).
  exists (ev1 ++ ev2). rewrite (sp_destructor _ _ Hsp). split_and!.
  - destruct (destructor h); by rewrite <-!app_assoc.
  - by etrans.
  - by rewrite app_assoc.
  - by rewrite <-app_assoc, <-Hp2, (app_assoc ev1), (Permutation_app_comm ev1 l),
      <-app_assoc, <-Hp1, <-Permutation_middle.
Qed.
End heap_api.

(** C7: inserting into a min-max heap (through [nr_minmax_heap_insert], [NULL]
    included) preserves the heap invariant and the heap's parameters, and acts
    on the bag of values as the bounded priority bag promises: with room the
    value is added and nothing is destroyed; a full bounded heap gives up
    exactly one value, a minimum of the old values and the new one, and hands
    it to the destructor when there is one. *)
Theorem nr_minmax_heap_insert_bag {V} `{Pointer V} (oh : option (heap V)) (v : V) :
  heap_ref_inv oh → comparator_ok oh →
  let '(oh', destroyed) := nr_minmax_heap_insert oh v in
  heap_ref_inv oh' ∧
  match oh, oh' with
  | Some h, Some h' =>
      same_params h h' ∧
      ∃ evicted, destroyed = (if destructor h then evicted else []) ∧
        v :: contents h ≡ₚ evicted ++ contents h' ∧
        if (bound h =? 0) || (used h <? bound h) then evicted = []
        else ∃ m, evicted = [m] ∧ ∀ x, x ∈ contents h' → (comparator h m x ≤ 0)%Z
  | None, None => destroyed = []
  | _, _ => False
  end.
Proof.
  destruct oh as [h|]; [|done]. simpl. intros Hinv Hc. pose proof (insert_spec h v Hinv) as Hs.
  destruct (insert h v) as [h' d]. by destruct Hs as (? & ? & ?).
Qed.

Definition example_heap : heap Z :=
  fold_left (λ h v, (insert h v).1) [5; 3; 8; 1; 9]%Z
    (Heap 3 4 0 (replicate 4 zero_element) Z.sub true).

Lemma example_heap_inv : heap_inv example_heap.
Proof.
  apply insert_all_inv; [apply _|].
  by apply (create_spec 3 Z.sub true).
Qed.

Lemma example_heap_comparator : comparator_ok (Some example_heap).
Proof.
  unfold comparator_ok. assert (comparator example_heap = Z.sub) as -> by reflexivity.
  apply _.
Qed.

Lemma nr_minmax_heap_insert_bag_witness :
  let '(oh', destroyed) := nr_minmax_heap_insert (Some example_heap) 7%Z in
  destroyed = [5%Z] ∧ heap_ref_inv oh'.
Proof.
  pose proof (nr_minmax_heap_insert_bag (Some example_heap) 7%Z
    example_heap_inv example_heap_comparator) as Hw.
  destruct (nr_minmax_heap_insert (Some example_heap) 7%Z) as [oh' d] eqn:E.
  split; [|exact (proj1 Hw)].
  transitivity (nr_minmax_heap_insert (Some example_heap) 7%Z).2; [by rewrite E|].
  vm_compute. reflexivity.
Defined.

(** [nr_minmax_heap_pop_min] on a non-empty heap returns a minimum, takes
    exactly that value out of the bag and preserves the invariant; on an empty
    heap it returns [NULL] and changes nothing. *)
Theorem nr_minmax_heap_pop_min_bag {V} `{Pointer V} (h : heap V) :
  heap_inv h → Comparator (comparator h) →
  let '(v, oh') := nr_minmax_heap_pop_min (Some h) in
  ∃ h', oh' = Some h' ∧ heap_inv h' ∧ same_params h h' ∧
  if used h =? 0 then v = NULL ∧ h' = h
  else contents h ≡ₚ v :: contents h' ∧
       ∀ x, x ∈ contents h → (comparator h v x ≤ 0)%Z.
Proof.
  intros Hinv Hc. simpl. destruct (pop_min h) as [v h'] eqn:E. exists h'. split; [done|].
  destruct (Nat.eqb_spec (used h) 0) as [Hz|Hnz].
  - unfold pop_min in E. rewrite Hz in E. simpl in E. by simplify_eq.
  - pose proof (pop_min_spec h Hinv Hnz) as Hs. rewrite E in Hs.
    destruct Hs as (-> & ? & ? & ?). split_and!; [done..|]. by apply peek_min_spec.
Qed.

Lemma nr_minmax_heap_pop_min_bag_witness :
  (nr_minmax_heap_pop_min (Some example_heap)).1 = 5%Z ∧
  ∀ x, x ∈ contents example_heap → (comparator example_heap 5 x ≤ 0)%Z.
Proof.
  pose proof (nr_minmax_heap_pop_min_bag example_heap
    example_heap_inv example_heap_comparator) as Hw.
  assert (E : (nr_minmax_heap_pop_min (Some example_heap)).1 = 5%Z)
    by (vm_compute; reflexivity).
  split; [exact E|]. rewrite <-E.
  destruct (nr_minmax_heap_pop_min (Some example_heap)) as [v oh'].
  destruct Hw as (h' & _ & _ & _ & Hw).
  replace (used example_heap =? 0) with false in Hw by (vm_compute; reflexivity).
  exact (proj2 Hw).
Defined.

(** [nr_minmax_heap_pop_max] on a non-empty heap returns a maximum and takes
    exactly that value out of the bag, preserving the invariant; on an empty heap
    it returns [NULL] and changes nothing. *)
Theorem nr_minmax_heap_pop_max_bag {V} `{Pointer V} (h : heap V) :
  heap_inv h → Comparator (comparator h) →
  let '(v, oh') := nr_minmax_heap_pop_max (Some h) in
  ∃ h', oh' = Some h' ∧ heap_inv h' ∧ same_params h h' ∧
  if used h =? 0 then v = NULL ∧ h' = h
  else contents h ≡ₚ v :: contents h' ∧
       ∀ x, x ∈ contents h → (comparator h x v ≤ 0)%Z.
Proof.
  intros Hinv Hc. simpl. destruct (pop_max h) as [v h'] eqn:E. exists h'. split; [done|].
  destruct (Nat.eqb_spec (used h) 0) as [Hz|Hnz].
  - unfold pop_max in E. rewrite Hz in E. simpl in E. by simplify_eq.
  - pose proof (pop_max_spec h Hinv Hnz) as Hs. rewrite E in Hs.
    by destruct Hs as (? & ? & ? & ?).
Qed.

Lemma nr_minmax_heap_pop_max_bag_witness :
  (nr_minmax_heap_pop_max (Some example_heap)).1 = 9%Z ∧
  ∀ x, x ∈ contents example_heap → (comparator example_heap x 9 ≤ 0)%Z.
Proof.
  pose proof (nr_minmax_heap_pop_max_bag example_heap
    example_heap_inv example_heap_comparator) as Hw.
  assert (E : (nr_minmax_heap_pop_max (Some example_heap)).1 = 9%Z)
    by (vm_compute; reflexivity).
  split; [exact E|]. rewrite <-E.
  destruct (nr_minmax_heap_pop_max (Some example_heap)) as [v oh'].
  destruct Hw as (h' & _ & _ & _ & Hw).
  replace (used example_heap =? 0) with false in Hw by (vm_compute; reflexivity).
  exact (proj2 Hw).
Defined.

(** C8: a bounded heap is a top-[bound] filter: whatever sequence of values is
    inserted into a freshly created heap of bound [b], it ends up holding
    [min b n] of the [n] values, every value it gave up is no greater than
    every value it holds, and each value given up went to the destructor, in
    order, when there is one. *)
Theorem bounded_heap_keeps_largest {V} `{Pointer V} (b : Z) (cmp : V → V → Z)
    (dtor : bool) (h0 : heap V) (l : list V) :
  Comparator cmp → (0 < b)%Z → nr_minmax_heap_create b (Some cmp) dtor = Some h0 →
  let '(h, destroyed) := insert_all h0 l in
  heap_inv h ∧ length (contents h) = min (Z.to_nat b) (length l) ∧
  ∃ given_up, destroyed = (if dtor then given_up else []) ∧
    l ≡ₚ given_up ++ contents h ∧
    ∀ d x, d ∈ given_up → x ∈ contents h → (cmp d x ≤ 0)%Z.
Proof.
  intros Hc Hb Hcreate. destruct (create_spec _ _ _ _ Hcreate) as (Hinv & Hnil & <- & <- & Hbd & _).
  pose proof (insert_all_keeps_largest l [] [] h0) as Hs. unfold insert_all.
  destruct (fold_left _ l _) as [h d].
  destruct Hs as (ev & -> & Hsp & [Hinv' Hfull Hbelow] & Hp); [lia|split; set_solver|].
  simpl in *. rewrite Hnil, app_nil_r in Hp.
  rewrite (sp_comparator _ _ Hsp), (sp_bound _ _ Hsp) in *.
  pose proof (Permutation_length Hp) as Hlen. rewrite length_app in Hlen.
  pose proof (wf_bound _ (proj1 Hinv')) as Hwb. rewrite (sp_bound _ _ Hsp) in Hwb.
  split_and!; [done| |by exists ev].
  rewrite length_contents in *. destruct ev as [|e ev]; simpl in *; [lia|].
  specialize (Hfull ltac:(done)). lia.
Qed.

Lemma bounded_heap_keeps_largest_witness :
  let '(h, destroyed) := insert_all (Heap 3 4 0 (replicate 4 zero_element) Z.sub true)
                           [5; 3; 8; 1; 9; 7]%Z in
  length (contents h) = 3 ∧ destroyed = [1; 3; 5]%Z.
Proof.
  pose proof (bounded_heap_keeps_largest 3 Z.sub true
    (Heap 3 4 0 (replicate 4 zero_element) Z.sub true) [5; 3; 8; 1; 9; 7]%Z
    sub_comparator ltac:(lia) ltac:(reflexivity)) as Hw.
  destruct (insert_all _ _) as [h d] eqn:E. split; [exact (proj1 (proj2 Hw))|].
  transitivity (insert_all (Heap 3 4 0 (replicate 4 zero_element) Z.sub true)
                           [5; 3; 8; 1; 9; 7]%Z).2; [by rewrite E|vm_compute; reflexivity].
Defined.
