(* ===== verification/Vector.v ===== *)
(** * Vector: growable arrays and stacks (src/axiom/util_vector.c,
    src/axiom/util_stack.c)

    Sizes and indices are [size_t] values, kept as integers with their
    wrap-around written out.  An operation that runs the doubling loop of
    [nr_vector_ensure_impl] returns an [option]: [None] is a loop that never
    ends. *)

From S2P Require Import Prelude Memory.
Local Open Scope Z_scope.

(** ** State

    [dtor] says whether a destructor is set; what an operation hands to it is
    part of the operation's result. *)
Record nr_vector_t (V : Type) := Vec {
  capacity : Z;
  used : Z;
  elements : list V;
  dtor : bool;
}.
Arguments Vec {V} _ _ _ _.
Arguments capacity {V} _.
Arguments used {V} _.
Arguments elements {V} _.
Arguments dtor {V} _.

(** The doubling loop; 65 rounds decide it (see [grow_loop_diverges]). *)
Fixpoint grow_loop (fuel : nat) (new_capacity target : Z) : option Z :=
  match fuel with
  | O => None
  | S fuel =>
      if new_capacity <? target then grow_loop fuel (u64 (new_capacity * 2)) target
      else Some new_capacity
  end.

Section vector.
Context {V : Type} `{Pointer V} `{Allocator V} `{QsortR}.
Implicit Types (v : nr_vector_t V) (ov : option (nr_vector_t V)) (x : V) (pos : Z).

Definition slot v (i : Z) : V := default NULL (elements v !! Z.to_nat i).
Definition set_slot v (i : Z) x : nr_vector_t V :=
  Vec (capacity v) (used v) (<[Z.to_nat i := x]> (elements v)) (dtor v).

(** ** Construction and destruction *)
Definition nr_vector_init_impl (initial : Z) (d : bool) : nr_vector_t V :=
  let c := if initial =? 0 then 8 else initial in Vec c 0 (nr_calloc c) d.

Definition nr_vector_create (initial : Z) (d : bool) : nr_vector_t V :=
  nr_vector_init_impl initial d.

Definition nr_vector_init ov (initial : Z) (d : bool) : bool * option (nr_vector_t V) :=
  match ov with
  | None => (false, None)
  | Some _ => (true, Some (nr_vector_init_impl initial d))
  end.

(** The values given to the destructor, in order, and the emptied vector. *)
Definition nr_vector_deinit_impl v : list V * nr_vector_t V :=
  (if dtor v then slot v <$> seqZ 0 (used v) else [], Vec 0 0 [] (dtor v)).

Definition nr_vector_deinit ov : bool * list V * option (nr_vector_t V) :=
  match ov with
  | None => (false, [], None)
  | Some v => let '(d, v') := nr_vector_deinit_impl v in (true, d, Some v')
  end.

Definition nr_vector_destroy ov : bool * list V * option (nr_vector_t V) :=
  match ov with
  | None => (false, [], None)
  | Some v => (true, (nr_vector_deinit_impl v).1, None)
  end.

Definition nr_vector_capacity ov : Z :=
  match ov with None => 0 | Some v => capacity v end.
Definition nr_vector_size ov : Z :=
  match ov with None => 0 | Some v => used v end.

(** ** Resizing *)
Definition nr_vector_ensure_impl v (c : Z) : option (bool * nr_vector_t V) :=
  if c <=? capacity v then Some (true, v)
  else
    new_capacity ← grow_loop 65 (if capacity v =? 0 then 8 else capacity v) c;
    match nr_reallocarray (elements v) new_capacity 8 with
    | None => Some (false, v)
    | Some es => Some (true, Vec new_capacity (used v) es (dtor v))
    end.

Definition nr_vector_ensure ov (c : Z) : option (bool * option (nr_vector_t V)) :=
  match ov with
  | None => Some (false, None)
  | Some v =>
      if c =? 0 then Some (false, ov)
      else '(b, v') ← nr_vector_ensure_impl v c; Some (b, Some v')
  end.

Definition nr_vector_shrink_if_necessary_impl v : bool * nr_vector_t V :=
  if (used v <? 4) || (capacity v / 2 <=? used v) then (true, v)
  else
    let new_capacity := capacity v / 2 in
    match nr_reallocarray (elements v) new_capacity 8 with
    | None => (false, v)
    | Some es => (true, Vec new_capacity (used v) es (dtor v))
    end.

(** ** Insertion and removal *)
Definition nr_vector_insert_impl v pos x : option (bool * nr_vector_t V) :=
  '(ok, v) ← nr_vector_ensure_impl v (u64 (used v + 1));
  if negb ok then Some (false, v)
  else
    let es :=
      if pos <? used v
      then nr_memmove (elements v) (Z.to_nat (pos + 1)) (Z.to_nat pos)
             (Z.to_nat (used v - pos))
      else elements v in
    let pos := if pos <? used v then pos else used v in
    Some (true, Vec (capacity v) (u64 (used v + 1)) (<[Z.to_nat pos := x]> es) (dtor v)).

(** The removed element is what the [element_ptr] out-parameter receives. *)
Definition nr_vector_remove_impl v pos : bool * option V * nr_vector_t V :=
  if used v <=? pos then (false, None, v)
  else
    let es :=
      if pos <? used v - 1
      then nr_memmove (elements v) (Z.to_nat pos) (Z.to_nat (pos + 1))
             (Z.to_nat (used v - pos - 1))
      else elements v in
    let v' := Vec (capacity v) (used v - 1) es (dtor v) in
    (true, Some (slot v pos), (nr_vector_shrink_if_necessary_impl v').2).

Definition nr_vector_insert ov pos x : option (bool * option (nr_vector_t V)) :=
  match ov with
  | None => Some (false, None)
  | Some v => '(b, v') ← nr_vector_insert_impl v pos x; Some (b, Some v')
  end.

(** [out] says whether the caller passed a non-[NULL] [element_ptr]. *)
Definition nr_vector_remove ov pos (out : bool) : bool * option V * option (nr_vector_t V) :=
  match ov with
  | Some v =>
      if negb out then (false, None, ov)
      else let '(b, e, v') := nr_vector_remove_impl v pos in (b, e, Some v')
  | None => (false, None, None)
  end.

Definition nr_vector_push_front ov x := nr_vector_insert ov 0 x.

Definition nr_vector_push_back ov x : option (bool * option (nr_vector_t V)) :=
  match ov with
  | None => Some (false, None)
  | Some v => '(b, v') ← nr_vector_insert_impl v (used v) x; Some (b, Some v')
  end.

Definition nr_vector_pop_front ov (out : bool) := nr_vector_remove ov 0 out.

Definition nr_vector_pop_back ov (out : bool) : bool * option V * option (nr_vector_t V) :=
  match ov with
  | Some v =>
      if negb out || (used v =? 0) then (false, None, ov)
      else let '(b, e, v') := nr_vector_remove_impl v (used v - 1) in (b, e, Some v')
  | None => (false, None, None)
  end.

(** ** Access *)
Definition nr_vector_get ov pos : V :=
  match ov with
  | None => NULL
  | Some v => if used v <=? pos then NULL else slot v pos
  end.

Definition nr_vector_get_element ov pos (out : bool) : bool * option V :=
  match ov with
  | None => (false, None)
  | Some v => if negb out || (used v <=? pos) then (false, None) else (true, Some (slot v pos))
  end.

Definition nr_vector_replace ov pos x : bool * list V * option (nr_vector_t V) :=
  match ov with
  | None => (false, [], None)
  | Some v =>
      if used v <=? pos then (false, [], ov)
      else (true, if dtor v then [slot v pos] else [], Some (set_slot v pos x))
  end.

(** Only the used slots are sorted. *)
Definition nr_vector_sort ov (comparator : option (V → V → Z)) : bool * option (nr_vector_t V) :=
  match ov, comparator with
  | Some v, Some cmp =>
      let n := Z.to_nat (used v) in
      (true, Some (Vec (capacity v) (used v)
        (nr_sort (take n (elements v)) (Some cmp) ++ drop n (elements v)) (dtor v)))
  | _, _ => (false, ov)
  end.

(** The callback threads a state and says whether to go on. *)
Fixpoint iterate_loop {S : Type} (callback : V → S → bool * S) (l : list V) (s : S) : bool * S :=
  match l with
  | [] => (true, s)
  | x :: l => let '(go_on, s) := callback x s in
              if go_on then iterate_loop callback l s else (false, s)
  end.

Definition nr_vector_iterate {S : Type} ov (callback : V → S → bool * S) (s : S) : bool * S :=
  match ov with
  | None => (false, s)
  | Some v => iterate_loop callback (slot v <$> seqZ 0 (used v)) s
  end.

(** The two search loops differ only in the test: the comparison function or
    pointer equality.  [delta] is 1 or -1 and the index wraps. *)
Fixpoint find_loop (fuel : nat) v (i delta : Z) (test : V → bool) : option Z :=
  match fuel with
  | O => None
  | S fuel =>
      if i <? used v then
        if test (slot v i) then Some i
        else find_loop fuel v (u64 (i + delta)) delta test
      else None
  end.

Definition nr_vector_find_comparator v (start delta : Z) (needle : V) (cmp : V → V → Z) :=
  find_loop (S (Z.to_nat (used v))) v start delta (λ x, cmp x needle =? 0).

Definition nr_vector_find_direct `{EqDecision V} v (start delta : Z) (needle : V) :=
  find_loop (S (Z.to_nat (used v))) v start delta (λ x, bool_decide (x = needle)).

Definition nr_vector_find `{EqDecision V} v (start : Z) (forward : bool) (needle : V)
    (comparator : option (V → V → Z)) : option Z :=
  let delta := if forward then 1 else -1 in
  if used v <=? start then None
  else match comparator with
       | Some cmp => nr_vector_find_comparator v start delta needle cmp
       | None => nr_vector_find_direct v start delta needle
       end.

(** The index out-parameter, [None] when the C function returns false. *)
Definition nr_vector_find_first `{EqDecision V} ov (needle : V)
    (comparator : option (V → V → Z)) : option Z :=
  match ov with
  | None => None
  | Some v => if used v =? 0 then None else nr_vector_find v 0 true needle comparator
  end.

Definition nr_vector_find_last `{EqDecision V} ov (needle : V)
    (comparator : option (V → V → Z)) : option Z :=
  match ov with
  | None => None
  | Some v =>
      if used v =? 0 then None else nr_vector_find v (used v - 1) false needle comparator
  end.

(** ** Stacks (util_stack.c): a vector that grows at its end *)
Definition NR_STACK_DEFAULT_CAPACITY : Z := 32.

Definition nr_stack_init ov (c : Z) : bool * option (nr_vector_t V) :=
  if c =? 0 then (false, ov) else nr_vector_init ov c false.

Definition nr_stack_is_empty ov : bool :=
  match ov with Some _ => 0 =? nr_vector_size ov | None => true end.

Definition nr_stack_get_top ov : V :=
  let size := nr_vector_size ov in
  if size =? 0 then NULL else nr_vector_get ov (size - 1).

Definition nr_stack_push ov x : option (option (nr_vector_t V)) :=
  '(_, ov') ← nr_vector_push_back ov x; Some ov'.

Definition nr_stack_pop ov : V * option (nr_vector_t V) :=
  let '(_, e, ov') := nr_vector_pop_back ov true in (default NULL e, ov').

Definition nr_stack_destroy_fields ov : option (nr_vector_t V) :=
  (nr_vector_deinit ov).2.

Definition nr_stack_remove_topmost `{EqDecision V} ov (x : V) : bool * option (nr_vector_t V) :=
  match nr_vector_find_last ov x None with
  | Some index => let '(b, _, ov') := nr_vector_remove ov index true in (b, ov')
  | None => (false, ov)
  end.
End vector.

(** ** The doubling loop *)
Lemma grow_loop_S n c t :
  grow_loop (S n) c t = if c <? t then grow_loop n (u64 (c * 2)) t else Some c.
Proof. done. Qed.

Lemma grow_loop_reaches n c t :
  0 < c → t ≤ c * 2 ^ Z.of_nat n → t ≤ 2 ^ 63 →
  ∃ c', grow_loop (S n) c t = Some c' ∧ t ≤ c' ∧ c ≤ c' ∧ (c' = c ∨ c' < 2 * t).
Proof.
  revert c. induction n as [|n IH]; intros c Hc Ht Hb; rewrite grow_loop_S;
    destruct (Z.ltb_spec c t) as [Hlt|]; try (eexists; split_and!; eauto; lia).
  - rewrite u64_small by lia.
    destruct (IH (c * 2)) as (c' & E & ? & ? & ?); [lia| |done|].
    { replace (Z.of_nat (S n)) with (Z.of_nat n + 1) in Ht by lia.
      rewrite Z.pow_add_r in Ht by lia. change (2 ^ 1) with 2 in Ht. nia. }
    exists c'. split_and!; [exact E|lia..].
Qed.

Lemma grow_loop_terminates c t :
  0 < c → t ≤ 2 ^ 63 →
  ∃ c', grow_loop 65 c t = Some c' ∧ t ≤ c' ∧ c ≤ c' ∧ (c' = c ∨ c' < 2 * t).
Proof. intros. apply grow_loop_reaches; simpl; lia. Qed.

Lemma grow_loop_add n m c t : 0 ≤ c < 2 ^ 64 →
  grow_loop (n + m) c t =
  match grow_loop n c t with
  | Some r => Some r
  | None => grow_loop m (u64 (c * 2 ^ Z.of_nat n)) t
  end.
Proof.
  revert c. induction n as [|n IH]; intros c Hc; simpl.
  { by rewrite Z.mul_1_r, u64_small. }
  destruct (c <? t); [|done]. rewrite IH by auto with nr.
  destruct (grow_loop n _ t); [done|]. f_equal. unfold u64.
  rewrite Z.mul_mod_idemp_l by lia. f_equal.
  replace (Z.of_nat (S n)) with (1 + Z.of_nat n) by lia.
  rewrite Z.pow_add_r by lia. lia.
Qed.

Lemma grow_loop_zero n t : 0 < t → grow_loop n 0 t = None.
Proof.
  intros Ht. induction n as [|n IH]; [done|]. simpl.
  destruct (Z.ltb_spec 0 t); [exact IH|lia].
Qed.

Lemma grow_loop_target n c t c' : grow_loop n c t = Some c' → t ≤ c'.
Proof.
  revert c. induction n as [|n IH]; intros c; simpl; [done|].
  destruct (Z.ltb_spec c t); [apply IH|]. by intros [= <-].
Qed.

(** The fuel is exact: a loop not finished after 65 rounds has wrapped to 0
    and never ends. *)
Lemma grow_loop_diverges c t :
  0 ≤ c < 2 ^ 64 → grow_loop 65 c t = None → ∀ n, grow_loop n c t = None.
Proof.
  intros Hc Hnone n.
  assert (H64 : grow_loop 64 c t = None ∧ 0 < t).
  { change 65%nat with (64 + 1)%nat in Hnone. rewrite grow_loop_add in Hnone by done.
    destruct (grow_loop 64 c t); [done|]. split; [done|].
    unfold u64 in Hnone. rewrite Z.mod_mul in Hnone by done. simpl in Hnone.
    destruct (Z.ltb_spec 0 t); [done|discriminate]. }
  destruct H64 as [H64 Ht]. destruct (Nat.le_gt_cases n 64) as [Hn|Hn].
  - replace 64%nat with (n + (64 - n))%nat in H64 by lia.
    rewrite grow_loop_add in H64 by done. by destruct (grow_loop n c t).
  - replace n with (64 + (n - 64))%nat by lia. rewrite grow_loop_add, H64 by done.
    unfold u64. rewrite Z.mod_mul by done. by apply grow_loop_zero.
Qed.

(** ** The representation invariant and the abstract list *)
Section vector_proofs.
Context {V : Type} `{Pointer V} `{Allocator V} `{QsortR}.
Implicit Types (v : nr_vector_t V) (x : V).

Definition values v : list V := take (Z.to_nat (used v)) (elements v).

Record vec_inv v : Prop := {
  vi_used : 0 ≤ used v ≤ capacity v;
  vi_length : length (elements v) = Z.to_nat (capacity v);
  vi_capacity : capacity v < 2 ^ 61;
}.

Lemma length_values v : vec_inv v → length (values v) = Z.to_nat (used v).
Proof. intros [? Hl ?]. unfold values. rewrite length_take. lia. Qed.

Lemma values_split v : vec_inv v →
  elements v = values v ++ drop (Z.to_nat (used v)) (elements v).
Proof. intros. unfold values. by rewrite take_drop. Qed.

Lemma slot_lookup v i : vec_inv v → 0 ≤ i < used v →
  values v !! Z.to_nat i = Some (slot v i).
Proof.
  intros [? Hl ?] Hi. unfold values, slot. rewrite lookup_take_lt by lia.
  destruct (elements v !! Z.to_nat i) eqn:E; [done|].
  apply lookup_ge_None in E. lia.
Qed.

Lemma slots_values v : vec_inv v → slot v <$> seqZ 0 (used v) = values v.
Proof.
  intros Hv. pose proof (vi_used _ Hv). apply list_eq. intros i.
  rewrite list_lookup_fmap. destruct (decide (i < Z.to_nat (used v))%nat) as [Hi|Hi].
  - rewrite lookup_seqZ_lt by lia. simpl. replace i with (Z.to_nat (0 + Z.of_nat i)) at 2 by lia.
    symmetry. apply slot_lookup; [done|lia].
  - rewrite lookup_seqZ_ge, lookup_ge_None_2 by (rewrite ?length_values by done; lia). done.
Qed.

Lemma resized v c : vec_inv v → used v ≤ c → c < 2 ^ 61 →
  let v' := Vec c (used v) (resize (elements v) (Z.to_nat c)) (dtor v) in
  vec_inv v' ∧ values v' = values v.
Proof.
  intros [? ? ?] ? ?. split.
  - split; simpl; [lia|by rewrite length_resize|done].
  - unfold values. simpl. by rewrite take_resize by lia.
Qed.

Lemma ensure_spec v c : vec_inv v → 0 ≤ c →
  match nr_vector_ensure_impl v c with
  | Some (true, v') =>
      vec_inv v' ∧ values v' = values v ∧ used v' = used v ∧ dtor v' = dtor v ∧
      capacity v ≤ capacity v' ∧ c ≤ capacity v'
  | Some (false, v') => v' = v ∧ capacity v < c ∧
      ∃ c', c ≤ c' ∧ (c ≤ 2 ^ 63 → c' ≤ 2 * c + 6) ∧
        nr_reallocarray (elements v) c' 8 = None
  | None => 2 ^ 63 < c
  end.
Proof.
  intros Hv Hc. pose proof Hv as [? ? ?]. unfold nr_vector_ensure_impl.
  destruct (Z.leb_spec c (capacity v)); [done|].
  set (c0 := if capacity v =? 0 then 8 else capacity v).
  assert (capacity v ≤ c0 ∧ 0 < c0) as [? ?]
    by (unfold c0; destruct (Z.eqb_spec (capacity v) 0); lia).
  destruct (grow_loop 65 c0 c) as [c'|] eqn:Eg; cbn [mbind option_bind].
  - pose proof (grow_loop_target _ _ _ _ Eg).
    assert (c ≤ 2 ^ 63 → c' ≤ 2 * c + 6).
    { intros. destruct (grow_loop_terminates c0 c) as (c'' & E & ? & ? & ?); [done..|].
      rewrite Eg in E. injection E as <-. unfold c0 in *.
      destruct (Z.eqb_spec (capacity v) 0); lia. }
    destruct (nr_reallocarray _ _ _) as [es|] eqn:E; [|by split_and!; [..|exists c']].
    apply nr_reallocarray_Some in E as [-> ?]; [|lia..].
    destruct (resized v c' Hv) as [? ?]; [lia..|]. split_and!; try done; simpl; lia.
  - apply Z.nle_gt. intros Hle.
    destruct (grow_loop_terminates c0 c) as (c' & E & _); [done..|congruence].
Qed.
Lemma shrink_spec v : vec_inv v →
  let v' := (nr_vector_shrink_if_necessary_impl v).2 in
  vec_inv v' ∧ values v' = values v ∧ used v' = used v ∧ dtor v' = dtor v.
Proof.
  intros Hv. pose proof Hv as [? ? ?]. unfold nr_vector_shrink_if_necessary_impl.
  destruct (Z.ltb_spec (used v) 4); [done|].
  destruct (Z.leb_spec (capacity v / 2) (used v)); [done|]. simpl.
  destruct (nr_reallocarray _ _ _) as [es|] eqn:E; [|done].
  apply nr_reallocarray_Some in E as [-> ?]; [|lia..].
  destruct (resized v (capacity v / 2) Hv) as [? ?]; [lia..|]. done.
Qed.

Lemma split_at (l : list V) n : (n ≤ length l)%nat →
  ∃ l1 l2, l = l1 ++ l2 ∧ length l1 = n.
Proof.
  intros. exists (take n l), (drop n l). rewrite take_drop, length_take. split; [done|lia].
Qed.

(** What insertion does to the slots when there is room. *)
Lemma insert_slots (es : list V) n p x :
  (n < length es)%nat → (p ≤ n)%nat →
  take (S n) (<[p := x]> (if decide (p < n)%nat
                          then nr_memmove es (S p) p (n - p) else es)) =
  take p (take n es) ++ x :: drop p (take n es).
Proof.
  intros Hn Hp.
  destruct (split_at es n) as (l & rest & -> & <-); [lia|].
  destruct rest as [|y r]; [rewrite length_app in Hn; simpl in Hn; lia|].
  destruct (split_at l p) as (l1 & l2 & -> & <-); [done|]. clear Hn Hp.
  rewrite !take_app_length, drop_app_length, length_app. destruct (decide _).
  - replace (length l1 + length l2 - length l1)%nat with (length l2) by lia.
    rewrite <-app_assoc, memmove_up.
    destruct l2 as [|z l2]; simpl in *; [lia|].
    rewrite insert_app_r_alt, Nat.sub_diag by done. simpl.
    replace (S (length l1 + S (length l2))) with (length l1 + S (S (length l2)))%nat by lia.
    rewrite take_app_add. simpl. by rewrite take_app_length.
  - destruct l2; simpl in *; [|lia]. rewrite !app_nil_r.
    rewrite insert_app_r_alt, Nat.sub_diag by done. simpl.
    replace (S (length l1 + 0)) with (length l1 + 1)%nat by lia. by rewrite take_app_add.
Qed.

Lemma insert_impl_spec v pos x : vec_inv v → 0 ≤ pos →
  match nr_vector_insert_impl v pos x with
  | Some (true, v') =>
      vec_inv v' ∧ dtor v' = dtor v ∧ used v' = used v + 1 ∧
      values v' = take (Z.to_nat pos) (values v) ++ x :: drop (Z.to_nat pos) (values v)
  | Some (false, v') => v' = v ∧ used v = capacity v ∧
      ∃ c, used v < c ≤ 2 * used v + 8 ∧ nr_reallocarray (elements v) c 8 = None
  | None => False
  end.
Proof.
  intros Hv Hpos. pose proof Hv as [? ? ?]. unfold nr_vector_insert_impl.
  rewrite u64_small by lia. pose proof (ensure_spec v (used v + 1) Hv ltac:(lia)) as He.
  destruct (nr_vector_ensure_impl v (used v + 1)) as [[[] v1]|]; cbn [mbind option_bind];
    [|simpl; destruct He as (-> & ? & c & ? & ? & ?);
       split_and!; [done|lia|exists c; split; [lia|done]]|lia].
  simpl. destruct He as (Hv1 & Hvs & Hu & Hd & Hc & Hc').
  pose proof Hv1 as [? Hl1 ?]. rewrite u64_small by lia.
  set (p := Z.to_nat (Z.min pos (used v1))).
  pose proof (insert_slots (elements v1) (Z.to_nat (used v1)) p x ltac:(lia) ltac:(lia)) as Hi.
  set (es := if pos <? used v1 then nr_memmove _ _ _ _ else _).
  assert (es = if decide (p < Z.to_nat (used v1))%nat
               then nr_memmove (elements v1) (S p) p (Z.to_nat (used v1) - p)
               else elements v1) as ->.
  { unfold es, p. destruct (Z.ltb_spec pos (used v1)).
    - rewrite decide_True by lia. f_equal; lia.
    - by rewrite decide_False by lia. }
  replace (Z.to_nat (if pos <? used v1 then pos else used v1)) with p
    by (unfold p; destruct (Z.ltb_spec pos (used v1)); lia).
  split_and!; [|done|simpl; lia|].
  - split; simpl; [lia| |done]. rewrite length_insert.
    destruct (decide _); by rewrite ?length_memmove.
  - unfold values at 1. simpl. rewrite Z2Nat.inj_add, Nat.add_1_r by lia.
    rewrite Hi. fold (values v1). rewrite Hvs.
    destruct (decide (pos ≤ used v1)); [by replace p with (Z.to_nat pos) by lia|].
    pose proof (length_values v Hv).
    by rewrite !(take_ge (values v)), !(drop_ge (values v)) by lia.
Qed.
(** What removal does to the slots. *)
Lemma remove_slots (es : list V) n p :
  (n ≤ length es)%nat → (p < n)%nat →
  take (n - 1) (if decide (p < n - 1)%nat
                then nr_memmove es p (S p) (n - p - 1) else es) =
  take p (take n es) ++ drop (S p) (take n es).
Proof.
  intros Hn Hp.
  destruct (split_at es n) as (l & r & -> & <-); [lia|].
  destruct (split_at l p) as (l1 & l2 & -> & <-); [lia|].
  destruct l2 as [|y l2]; [rewrite length_app in Hp; simpl in Hp; lia|].
  clear Hn Hp. replace (S (length l1)) with (length l1 + 1)%nat by lia.
  rewrite take_app_length, drop_app_add, take_app_length, length_app. simpl.
  replace (length l1 + S (length l2) - 1)%nat with (length l1 + length l2)%nat by lia.
  rewrite drop_0, <-app_assoc. destruct (decide _).
  - replace (length l1 + S (length l2) - length l1 - 1)%nat with (length l2) by lia.
    simpl. rewrite Nat.add_1_r, memmove_down, take_app_add. by rewrite take_app_length.
  - destruct l2; simpl in *; [|lia]. by rewrite take_app_add.
Qed.

Lemma remove_impl_spec v pos : vec_inv v → 0 ≤ pos →
  let '(b, e, v') := nr_vector_remove_impl v pos in
  e = values v !! Z.to_nat pos ∧
  if pos <? used v
  then b = true ∧ vec_inv v' ∧ dtor v' = dtor v ∧ used v' = used v - 1 ∧
       values v' = take (Z.to_nat pos) (values v) ++ drop (S (Z.to_nat pos)) (values v)
  else b = false ∧ v' = v.
Proof.
  intros Hv Hpos. pose proof Hv as [? Hl ?]. unfold nr_vector_remove_impl.
  destruct (Z.leb_spec (used v) pos) as [Hge|Hlt].
  { destruct (Z.ltb_spec pos (used v)); [lia|].
    rewrite lookup_ge_None_2 by (rewrite length_values by done; lia). done. }
  destruct (Z.ltb_spec pos (used v)); [|lia].
  set (es := if pos <? used v - 1 then nr_memmove _ _ _ _ else _).
  assert (es = if decide (Z.to_nat pos < Z.to_nat (used v) - 1)%nat
               then nr_memmove (elements v) (Z.to_nat pos) (S (Z.to_nat pos))
                      (Z.to_nat (used v) - Z.to_nat pos - 1)
               else elements v) as ->.
  { unfold es. destruct (Z.ltb_spec pos (used v - 1)).
    - rewrite decide_True by lia. f_equal; lia.
    - by rewrite decide_False by lia. }
  pose proof (remove_slots (elements v) (Z.to_nat (used v)) (Z.to_nat pos) ltac:(lia) ltac:(lia)) as Hr.
  set (es' := if decide _ then _ else _) in *.
  assert (vec_inv (Vec (capacity v) (used v - 1) es' (dtor v))) as Hv'.
  { split; simpl; [lia| |done]. unfold es'. destruct (decide _); by rewrite ?length_memmove. }
  destruct (shrink_spec _ Hv') as (? & Hvs & Hu & Hd).
  split; [symmetry; apply slot_lookup; [done|lia]|].
  split_and!; [done|done|by rewrite Hd|by rewrite Hu|].
  rewrite Hvs. unfold values at 1. simpl. rewrite Z2Nat.inj_sub by lia. exact Hr.
Qed.

Lemma replace_spec v pos x : vec_inv v → 0 ≤ pos < used v →
  vec_inv (set_slot v pos x) ∧
  values (set_slot v pos x) = <[Z.to_nat pos := x]> (values v).
Proof.
  intros [? ? ?] ?. split.
  - split; simpl; [lia|by rewrite length_insert|done].
  - unfold values. simpl. by rewrite take_insert_lt by lia.
Qed.

(** ** Searching *)

(** Index of the first and of the last element of a list that passes a test. *)
Definition first_index (test : V → bool) (l : list V) : option nat :=
  fst <$> list_find test l.
Definition last_index (test : V → bool) (l : list V) : option nat :=
  (λ i, length l - 1 - i)%nat <$> first_index test (reverse l).

Lemma first_index_cons test x l :
  first_index test (x :: l) = if test x then Some 0%nat else S <$> first_index test l.
Proof.
  unfold first_index. simpl. destruct (test x); [done|]. simpl.
  by destruct (list_find _ l) as [[]|].
Qed.

Lemma find_forward v test n i : vec_inv v → 0 ≤ i ≤ used v → (Z.to_nat (used v - i) < n)%nat →
  find_loop n v i 1 test =
  (λ k, i + Z.of_nat k) <$> first_index test (drop (Z.to_nat i) (values v)).
Proof.
  intros Hv. pose proof Hv as [? ? ?].
  revert i. induction n as [|n IH]; intros i Hi Hn; [lia|]. cbn [find_loop].
  destruct (Z.ltb_spec i (used v)).
  - erewrite drop_S, first_index_cons by (apply slot_lookup; [done|lia]).
    destruct (test (slot v i)); [simpl; f_equal; lia|].
    rewrite u64_small, IH by lia. replace (Z.to_nat (i + 1)) with (S (Z.to_nat i)) by lia.
    destruct (first_index _ _); simpl; [f_equal; lia|done].
  - rewrite drop_ge by (rewrite length_values by done; lia). done.
Qed.

Lemma find_backward v test n i : vec_inv v → 0 ≤ i < used v → (Z.to_nat i < n)%nat →
  find_loop n v i (-1) test =
  (λ k, i - Z.of_nat k) <$> first_index test (reverse (take (S (Z.to_nat i)) (values v))).
Proof.
  intros Hv. pose proof Hv as [? ? ?].
  revert i. induction n as [|n IH]; intros i Hi Hn; [lia|]. cbn [find_loop].
  destruct (Z.ltb_spec i (used v)); [|lia].
  erewrite take_S_r by (apply slot_lookup; [done|lia]). rewrite reverse_snoc, first_index_cons.
  destruct (test (slot v i)); [simpl; f_equal; lia|].
  destruct (decide (i = 0)) as [->|].
  - assert (used v ≤ u64 (0 + -1)) by (change (u64 (0 + -1)) with (2 ^ 64 - 1); lia).
    destruct n; [done|]. cbn [find_loop]. by destruct (Z.ltb_spec (u64 (0 + -1)) (used v)); [lia|].
  - rewrite u64_small, IH by lia.
    replace (S (Z.to_nat (i + -1))) with (Z.to_nat i) by lia.
    destruct (first_index _ _); simpl; [f_equal; lia|done].
Qed.
Lemma find_last_spec `{EqDecision V} v needle : vec_inv v →
  nr_vector_find_last (Some v) needle None =
  Z.of_nat <$> last_index (λ x, bool_decide (x = needle)) (values v).
Proof.
  intros Hv. pose proof Hv as [? ? ?]. pose proof (length_values v Hv) as Hl.
  unfold nr_vector_find_last, nr_vector_find, nr_vector_find_direct, last_index.
  destruct (Z.eqb_spec (used v) 0) as [E|].
  { destruct (values v); [done|simpl in Hl; lia]. }
  destruct (Z.leb_spec (used v) (used v - 1)); [lia|].
  rewrite find_backward by (done || lia).
  rewrite take_ge by lia. rewrite Hl.
  unfold first_index. destruct (list_find _ _) as [[k y]|] eqn:E; simpl; [|done].
  apply list_find_Some in E as (E & _). apply lookup_lt_Some in E.
  rewrite length_reverse, Hl in E. f_equal. lia.
Qed.

(** ** Refinement: the operations act on the abstract list *)

(** What callers can do with the elements. *)
Inductive vec_op :=
  | PushFront (x : V) | PushBack (x : V) | Insert (pos : Z) (x : V)
  | PopFront | PopBack | Remove (pos : Z)
  | Replace (pos : Z) (x : V) | Get (pos : Z).

Definition op_ok (op : vec_op) : Prop :=
  match op with
  | Insert pos _ | Remove pos | Replace pos _ | Get pos => 0 ≤ pos < 2 ^ 64
  | _ => True
  end.

(** The implementation: the status, the element returned, the new vector. *)
Definition exec (op : vec_op) v : option (bool * option V * option (nr_vector_t V)) :=
  match op with
  | PushFront x => '(b, ov) ← nr_vector_push_front (Some v) x; Some (b, None, ov)
  | PushBack x => '(b, ov) ← nr_vector_push_back (Some v) x; Some (b, None, ov)
  | Insert pos x => '(b, ov) ← nr_vector_insert (Some v) pos x; Some (b, None, ov)
  | PopFront => Some (nr_vector_pop_front (Some v) true)
  | PopBack => Some (nr_vector_pop_back (Some v) true)
  | Remove pos => Some (nr_vector_remove (Some v) pos true)
  | Replace pos x => let '(b, _, ov) := nr_vector_replace (Some v) pos x in Some (b, None, ov)
  | Get pos => let '(b, e) := nr_vector_get_element (Some v) pos true in Some (b, e, Some v)
  end.

Definition list_remove (i : nat) (l : list V) : bool * option V * list V :=
  match l !! i with
  | Some x => (true, Some x, delete i l)
  | None => (false, None, l)
  end.

(** The specification, on lists. *)
Definition spec (op : vec_op) (l : list V) : bool * option V * list V :=
  match op with
  | PushFront x => (true, None, x :: l)
  | PushBack x => (true, None, l ++ [x])
  | Insert pos x => (true, None, take (Z.to_nat pos) l ++ x :: drop (Z.to_nat pos) l)
  | PopFront => list_remove 0 l
  | PopBack => match l with [] => (false, None, l) | _ => list_remove (length l - 1) l end
  | Remove pos => list_remove (Z.to_nat pos) l
  | Replace pos x =>
      (bool_decide (Z.to_nat pos < length l)%nat, None, <[Z.to_nat pos := x]> l)
  | Get pos => (bool_decide (is_Some (l !! Z.to_nat pos)), l !! Z.to_nat pos, l)
  end.

Definition run_vector (ops : list vec_op) v : option (list (bool * option V) * nr_vector_t V) :=
  foldl (λ acc op,
    '(rs, v) ← acc;
    match exec op v with
    | Some (b, e, Some v') => Some (rs ++ [(b, e)], v')
    | _ => None
    end) (Some ([], v)) ops.

Definition run_list (ops : list vec_op) (l : list V) : list (bool * option V) * list V :=
  foldl (λ '(rs, l) op, let '(b, e, l') := spec op l in (rs ++ [(b, e)], l')) ([], l) ops.

Lemma lookup_get v pos : vec_inv v → 0 ≤ pos →
  values v !! Z.to_nat pos = if used v <=? pos then None else Some (slot v pos).
Proof.
  intros Hv ?. destruct (Z.leb_spec (used v) pos); [|by apply slot_lookup].
  apply lookup_ge_None_2. rewrite length_values by done. lia.
Qed.

Lemma remove_impl_list v pos : vec_inv v → 0 ≤ pos →
  let '(b, e, v') := nr_vector_remove_impl v pos in
  list_remove (Z.to_nat pos) (values v) = (b, e, values v') ∧ vec_inv v' ∧ used v' ≤ used v.
Proof.
  intros Hv Hpos. pose proof (remove_impl_spec v pos Hv Hpos) as Hs.
  destruct (nr_vector_remove_impl v pos) as [[b e] v']. destruct Hs as [-> Hs].
  unfold list_remove. rewrite lookup_get by done.
  destruct (Z.ltb_spec pos (used v)), (Z.leb_spec (used v) pos); try lia.
  - destruct Hs as (-> & ? & ? & ? & ->). rewrite delete_take_drop. split_and!; [done..|lia].
  - by destruct Hs as [-> ->].
Qed.

Lemma insert_list v pos x (l : list V) :
  (∀ n, realloc_succeeds (V:=V) n = true) → vec_inv v → 0 ≤ pos → used v < 2 ^ 59 →
  take (Z.to_nat pos) (values v) ++ x :: drop (Z.to_nat pos) (values v) = l →
  ∃ v', nr_vector_insert_impl v pos x = Some (true, v') ∧ vec_inv v' ∧
    used v' = used v + 1 ∧ values v' = l.
Proof.
  intros Hal Hv Hpos Hu <-. pose proof (insert_impl_spec v pos x Hv Hpos) as Hs.
  destruct (nr_vector_insert_impl v pos x) as [[[] v']|]; [|exfalso|done].
  - destruct Hs as (? & ? & ? & ?). eauto.
  - destruct Hs as (-> & ? & c & ? & Hn). pose proof (vi_used _ Hv).
    rewrite nr_reallocarray_total in Hn by (done || lia). done.
Qed.

(** One operation on a vector does what the specification does on its list. *)
Lemma exec_refines op v :
  (∀ n, realloc_succeeds (V:=V) n = true) → vec_inv v → used v < 2 ^ 59 → op_ok op →
  ∃ b e v', exec op v = Some (b, e, Some v') ∧ vec_inv v' ∧ used v' ≤ used v + 1 ∧
    spec op (values v) = (b, e, values v').
Proof.
  intros Hal Hv Hu Hop. pose proof (vi_used _ Hv). pose proof (length_values v Hv) as Hl.
  destruct op as [x|x|pos x| | |pos|pos x|pos]; simpl in *.
  1-3: edestruct insert_list as (v' & E & ? & ? & ?);
    [exact Hal|exact Hv| |exact Hu|reflexivity|unfold nr_vector_insert; rewrite E; simpl].
  all: try lia.
  - exists true, None, v'. split_and!; [done..|lia|by f_equal].
  - exists true, None, v'. split_and!; [done..|lia|].
    rewrite take_ge, drop_ge in * by lia. by f_equal.
  - exists true, None, v'. split_and!; [done..|lia|by f_equal].
  - pose proof (remove_impl_list v 0 Hv ltac:(lia)) as Hr.
    destruct (nr_vector_remove_impl v 0) as [[b e] v']. destruct Hr as (? & ? & ?). eauto 10 with lia.
  - destruct (Z.eqb_spec (used v) 0) as [E|].
    { exists false, None, v. destruct (values v); [|simpl in Hl; lia]. eauto with lia. }
    pose proof (remove_impl_list v (used v - 1) Hv ltac:(lia)) as Hr.
    destruct (nr_vector_remove_impl _ _) as [[b e] v']. destruct Hr as (Hr & ? & ?).
    replace (Z.to_nat (used v - 1)) with (length (values v) - 1)%nat in Hr by lia.
    exists b, e, v'. split_and!; [done..|lia|]. destruct (values v); [simpl in Hl; lia|done].
  - pose proof (remove_impl_list v pos Hv ltac:(lia)) as Hr.
    destruct (nr_vector_remove_impl v pos) as [[b e] v']. destruct Hr as (? & ? & ?). eauto 10 with lia.
  - destruct (Z.leb_spec (used v) pos).
    + exists false, None, v. rewrite bool_decide_false, list_insert_ge by lia. eauto with lia.
    + destruct (replace_spec v pos x Hv ltac:(lia)) as [? <-].
      exists true, None, (set_slot v pos x). rewrite bool_decide_true by lia.
      split_and!; try done; simpl; lia.
  - rewrite lookup_get by (done || lia). destruct (Z.leb_spec (used v) pos).
    + exists false, None, v. split_and!; try done; lia.
    + exists true, (Some (slot v pos)), v. split_and!; try done; lia.
Qed.
Lemma run_refines ops v rs :
  (∀ n, realloc_succeeds (V:=V) n = true) → vec_inv v →
  used v + Z.of_nat (length ops) < 2 ^ 59 → Forall op_ok ops →
  ∃ rs' v', foldl (λ acc op,
      '(rs, v) ← acc;
      match exec op v with
      | Some (b, e, Some v') => Some (rs ++ [(b, e)], v')
      | _ => None
      end) (Some (rs, v)) ops = Some (rs', v') ∧ vec_inv v' ∧
    foldl (λ '(rs, l) op, let '(b, e, l') := spec op l in (rs ++ [(b, e)], l'))
      (rs, values v) ops = (rs', values v').
Proof.
  intros Hal. revert v rs. induction ops as [|op ops IH]; intros v rs Hv Hu Hops.
  { by exists rs, v. }
  apply Forall_cons in Hops as [Hop Hops]. simpl in Hu.
  destruct (exec_refines op v Hal Hv ltac:(lia) Hop) as (b & e & v' & E & Hv' & ? & Hs).
  simpl. rewrite E, Hs. apply IH; [done|lia|done].
Qed.

Lemma create_inv c d : 0 ≤ c < 2 ^ 61 →
  vec_inv (nr_vector_create c d) ∧ values (nr_vector_create c d) = [].
Proof.
  intros Hc. split; [|done]. unfold nr_vector_create, nr_vector_init_impl, nr_calloc.
  split; simpl; destruct (Z.eqb_spec c 0); rewrite ?length_replicate; try lia.
  destruct (Z.eqb_spec (8 : Z) 0); lia.
  destruct (Z.eqb_spec c 0); lia.
Qed.

Lemma sort_spec `{!QsortRLaws} v cmp : Comparator cmp → vec_inv v →
  ∃ v', nr_vector_sort (Some v) (Some cmp) = (true, Some v') ∧ vec_inv v' ∧
    values v' ≡ₚ values v ∧ StronglySorted (λ x y, cmp x y ≤ 0) (values v').
Proof.
  intros Hc Hv. pose proof Hv as [? Hl ?]. pose proof (length_values v Hv) as Hlv.
  unfold nr_vector_sort, nr_sort. fold (values v). eexists. split; [done|].
  pose proof (qsort_r_perm _ cmp (values v)) as Hp. pose proof (Permutation_length Hp) as Hpl.
  assert (Hvs : take (Z.to_nat (used v))
    (qsort_r V cmp (values v) ++ drop (Z.to_nat (used v)) (elements v)) =
    qsort_r V cmp (values v)) by (apply take_app_length'; lia).
  split_and!.
  - split; simpl; [lia| |done]. rewrite length_app, length_drop. lia.
  - unfold values at 1. simpl. by rewrite Hvs.
  - unfold values at 1. simpl. rewrite Hvs. by apply qsort_r_sorted.
Qed.

Lemma last_index_spec test (l : list V) i : last_index test l = Some i →
  ∃ l1 x l2, l = l1 ++ x :: l2 ∧ length l1 = i ∧ test x = true ∧ Forall (λ y, test y = false) l2.
Proof.
  unfold last_index, first_index. intros Hi.
  destruct (list_find test (reverse l)) as [[k x]|] eqn:E; [|done]. injection Hi as <-.
  apply list_find_Some in E as (Hk & Hx & Hl). simpl.
  pose proof (lookup_lt_Some _ _ _ Hk) as Hlt. rewrite length_reverse in Hlt.
  rewrite reverse_lookup in Hk by done.
  replace (length l - S k)%nat with (length l - 1 - k)%nat in Hk by lia.
  exists (take (length l - 1 - k) l), x, (drop (S (length l - 1 - k)) l). split_and!.
  - symmetry. by apply take_drop_middle.
  - rewrite length_take. lia.
  - by destruct (test x).
  - apply Forall_lookup. intros j y Hj. rewrite lookup_drop in Hj.
    pose proof (lookup_lt_Some _ _ _ Hj).
    specialize (Hl (length l - S (S (length l - 1 - k) + j))%nat y).
    rewrite reverse_lookup in Hl by lia.
    replace (length l - S (length l - S (S (length l - 1 - k) + j)))%nat
      with (S (length l - 1 - k) + j)%nat in Hl by lia.
    specialize (Hl Hj ltac:(lia)). by destruct (test y).
Qed.

Lemma last_index_None test (l : list V) : last_index test l = None →
  Forall (λ y, test y = false) l.
Proof.
  unfold last_index, first_index. intros Hi.
  destruct (list_find test (reverse l)) as [[k x]|] eqn:E; [done|].
  apply list_find_None in E. rewrite Forall_reverse in E.
  eapply Forall_impl; [exact E|]. intros y Hy. simpl in Hy. by destruct (test y).
Qed.
End vector_proofs.

(** ** Properties *)

(** C31: vectors refine lists. Whatever sequence of insertions, removals,
    replacements and reads is run on a well-formed vector (with an allocator
    that does not refuse and fewer than 2^59 elements in the end), it terminates,
    every status and every returned element is what the same operations give on
    the abstract list, out-of-range positions included, and the final vector is
    well formed and holds the final list, through every growth, shrink and
    [memmove]. *)
Theorem nr_vector_refines_list {V} `{Pointer V} `{Allocator V}
    (ops : list vec_op) (v : nr_vector_t V) :
  (∀ n, realloc_succeeds (V:=V) n = true) → vec_inv v →
  used v + Z.of_nat (length ops) < 2 ^ 59 → Forall op_ok ops →
  ∃ rs v', run_vector ops v = Some (rs, v') ∧ vec_inv v' ∧
    run_list ops (values v) = (rs, values v').
Proof. intros. by apply run_refines. Qed.

Lemma nr_vector_refines_list_witness :
  ∃ rs v', @run_vector Z _ (GenerousAllocator.allocator Z)
      [PushBack 1; PushBack 2; PushFront 3; Insert 1 4; PopFront; Remove 7; Get 1]
      (nr_vector_create 1 false) = Some (rs, v') ∧
    values v' = [4; 1; 2] ∧
    rs = [(true, None); (true, None); (true, None); (true, None);
          (true, Some 3); (false, None); (true, Some 1)].
Proof.
  destruct (@nr_vector_refines_list Z _ (GenerousAllocator.allocator Z)
      [PushBack 1; PushBack 2; PushFront 3; Insert 1 4; PopFront; Remove 7; Get 1]
      (nr_vector_create 1 false)) as (rs & v' & E & _ & Hl).
  - reflexivity.
  - by apply create_inv.
  - reflexivity.
  - repeat constructor; simpl; lia.
  - exists rs, v'. split; [exact E|]. vm_compute in Hl. by injection Hl.
Defined.

(** [nr_vector_ensure] on a well-formed vector, for every [size_t]
    request. If it returns true, the capacity is at least what was asked, the
    contents are untouched and the vector stays well formed; if it returns
    false, nothing changed and either the request was 0 or the allocator
    refused; and it can fail to return only for a request above 2^63, where no
    number of rounds of the doubling loop ends it. *)
Theorem nr_vector_ensure_outcome {V} `{Pointer V} `{Allocator V} (v : nr_vector_t V) (c : Z) :
  vec_inv v → 0 ≤ c < 2 ^ 64 →
  match nr_vector_ensure (Some v) c with
  | Some (true, ov) => ∃ v', ov = Some v' ∧ vec_inv v' ∧ values v' = values v ∧
      c ≤ capacity v' ∧ capacity v ≤ capacity v'
  | Some (false, ov) => ov = Some v ∧
      (c = 0 ∨ capacity v < c ∧
        ∃ c', c ≤ c' ∧ nr_reallocarray (elements v) c' 8 = None)
  | None => 2 ^ 63 < c ∧
      ∀ rounds, grow_loop rounds (if capacity v =? 0 then 8 else capacity v) c = None
  end.
Proof.
  intros Hv Hc. pose proof Hv as [? ? ?]. unfold nr_vector_ensure. destruct (Z.eqb_spec c 0); [auto|].
  pose proof (ensure_spec v c Hv ltac:(lia)) as He.
  destruct (nr_vector_ensure_impl v c) as [[[] v']|] eqn:E; simpl.
  - destruct He as (? & ? & _ & _ & ? & ?). eauto 10.
  - destruct He as (-> & ? & c' & ? & _ & ?). eauto 10.
  - split; [done|]. unfold nr_vector_ensure_impl in E. destruct (c <=? capacity v); [done|].
    apply grow_loop_diverges; [destruct (Z.eqb_spec (capacity v) 0); lia|].
    destruct (grow_loop 65 _ c); [|done]. simpl in E. by destruct (nr_reallocarray _ _ _).
Qed.

Lemma nr_vector_ensure_outcome_witness :
  ∃ v', @nr_vector_ensure Z (GenerousAllocator.allocator Z)
      (Some (nr_vector_create 3 false)) 10 = Some (true, Some v') ∧ capacity v' = 12 ∧ vec_inv v'.
Proof.
  pose proof (@nr_vector_ensure_outcome Z _ (GenerousAllocator.allocator Z)
    (nr_vector_create 3 false) 10 (proj1 (create_inv 3 false ltac:(lia))) ltac:(lia)) as Hw.
  destruct (nr_vector_ensure _ _) as [[[] ov]|] eqn:E; [|by vm_compute in E..].
  destruct Hw as (v' & -> & Hv & _). exists v'. split; [done|]. split; [|exact Hv].
  vm_compute in E. by injection E as <-.
Defined.

(** [nr_stack_remove_topmost] removes the topmost occurrence of an element
    and nothing else: when the element is on the stack, the stack splits around
    its last occurrence and the two parts are joined; otherwise it returns false
    and the stack is unchanged. *)
Theorem nr_stack_remove_topmost_last {V} `{Pointer V} `{Allocator V} `{EqDecision V}
    (s : nr_vector_t V) (x : V) :
  vec_inv s →
  let '(b, os) := nr_stack_remove_topmost (Some s) x in
  ∃ s', os = Some s' ∧ vec_inv s' ∧
  if b then (∃ below above, values s = below ++ x :: above ∧ (x ∉ above) ∧
              values s' = below ++ above)
  else (x ∉ values s) ∧ s' = s.
Proof.
  intros Hs. unfold nr_stack_remove_topmost. rewrite find_last_spec by done.
  destruct (last_index _ _) as [i|] eqn:E; simpl.
  - apply last_index_spec in E as (l1 & y & l2 & Hl & <- & ->%bool_decide_eq_true & Hl2).
    pose proof (remove_impl_spec s (Z.of_nat (length l1)) Hs ltac:(lia)) as Hr.
    pose proof (length_values s Hs) as Hlen. rewrite Hl, length_app in Hlen. simpl in Hlen.
    destruct (nr_vector_remove_impl _ _) as [[b e] s']. destruct Hr as [_ Hr].
    destruct (Z.ltb_spec (Z.of_nat (length l1)) (used s)); [|lia].
    destruct Hr as (-> & Hs' & _ & _ & Hvs). exists s'. split_and!; [done..|].
    exists l1, l2. split_and!; [done| |].
    + intros Hin. rewrite Forall_forall in Hl2. specialize (Hl2 x Hin).
      by rewrite bool_decide_true in Hl2.
    + rewrite Hvs, Nat2Z.id, Hl, take_app_length, <-Nat.add_1_r, drop_app_add. done.
  - exists s. split_and!; [done..| |done]. intros Hin.
    apply last_index_None in E. rewrite Forall_forall in E. specialize (E x Hin).
    by rewrite bool_decide_true in E.
Qed.

Lemma nr_stack_remove_topmost_last_witness :
  ∃ s s', @run_vector Z _ (GenerousAllocator.allocator Z)
      [PushBack 7; PushBack 1; PushBack 7; PushBack 2; PushBack 3]
      (nr_vector_create 2 false) = Some (s, s') ∧
    ∃ s'', @nr_stack_remove_topmost Z _ (GenerousAllocator.allocator Z) _ (Some s') 7 =
             (true, Some s'') ∧
      vec_inv s'' ∧ values s'' = [7; 1; 2; 3].
Proof.
  destruct (@run_refines Z _ (GenerousAllocator.allocator Z)
      [PushBack 7; PushBack 1; PushBack 7; PushBack 2; PushBack 3]
      (nr_vector_create 2 false) []) as (rs & s & E & Hs & _).
  { reflexivity. } { by apply create_inv. } { reflexivity. } { repeat constructor. }
  exists rs, s. split; [exact E|].
  pose proof (@nr_stack_remove_topmost_last Z _ (GenerousAllocator.allocator Z) _ s 7 Hs) as Hw.
  vm_compute in E. injection E as <- <-.
  destruct (nr_stack_remove_topmost _ 7) as [b os] eqn:E.
  destruct Hw as (s'' & -> & Hs'' & _). vm_compute in E. injection E as <- <-.
  eexists. split; [reflexivity|]. split; [exact Hs''|reflexivity].
Defined.
