(* ===== verification/ExclusiveTime.v ===== *)
(** * ExclusiveTime: the exclusive time of a segment (src/axiom/nr_exclusive_time.c)

    Times are unsigned 64-bit microseconds.  The transition array is the list of
    its used entries, next to its capacity. *)

From S2P Require Import Prelude Memory.
Local Open Scope Z_scope.

(** ** State *)
Inductive transition_type := CHILD_START | CHILD_STOP.

#[export] Instance transition_type_eq_dec : EqDecision transition_type.
Proof. solve_decision. Defined.

Record nr_exclusive_time_transition_t := Transition {
  time : Z;
  type : transition_type;
}.

Record nr_exclusive_time_t := ExclusiveTime {
  start_time : Z;
  stop_time : Z;
  capacity : Z;
  transitions : list nr_exclusive_time_transition_t;
}.

Definition used (et : nr_exclusive_time_t) : Z := Z.of_nat (length (transitions et)).

(** src/axiom/util_time.h *)
Definition nr_time_duration (start stop : Z) : Z :=
  if stop <? start then 0 else u64 (stop - start).

(** ** Operations *)
Definition nr_exclusive_time_create (child_segments start stop : Z) : nr_exclusive_time_t :=
  ExclusiveTime start stop (u64 (child_segments * 2)) [].

(** The outer option is [et_ptr], the inner one what it points to; the
    reallocation does not return when it fails. *)
Definition nr_exclusive_time_ensure (et_ptr : option (option nr_exclusive_time_t))
    (child_segments start stop : Z) : bool * option (option nr_exclusive_time_t) :=
  match et_ptr with
  | None => (false, None)
  | Some None => (true, Some (Some (nr_exclusive_time_create child_segments start stop)))
  | Some (Some et) =>
      let unused := u64 (capacity et - used et) in
      let capacity' :=
        if unused <? u64 (child_segments * 2)
        then u64 (used et + u64 (child_segments * 2)) else capacity et in
      (true, Some (Some (ExclusiveTime start stop capacity' (transitions et))))
  end.

Definition nr_exclusive_time_destroy (et_ptr : option (option nr_exclusive_time_t)) :
    bool * option (option nr_exclusive_time_t) :=
  match et_ptr with
  | None | Some None => (false, et_ptr)
  | Some (Some _) => (true, Some None)
  end.

Definition nr_exclusive_time_add_child (parent_et : option nr_exclusive_time_t)
    (start stop : Z) : bool * option nr_exclusive_time_t :=
  match parent_et with
  | None => (false, None)
  | Some et =>
      if capacity et <? u64 (used et + 2) then (false, parent_et)
      else if stop <? start then (false, parent_et)
      else (true, Some (ExclusiveTime (start_time et) (stop_time et) (capacity et)
                  (transitions et ++ [Transition start CHILD_START;
                                      Transition stop CHILD_STOP])))
  end.

Definition nr_exclusive_time_transition_compare (a b : nr_exclusive_time_transition_t) : Z :=
  if time a <? time b then -1
  else if time b <? time a then 1
  else if decide (type a ≠ type b) then
    match type a, type b with
    | CHILD_START, _ => -1
    | _, CHILD_START => 1
    | _, _ => 0
    end
  else 0.

(** The walk over the sorted transitions; the second result of a round says
    that it jumped to [end]. *)
Record walk := Walk { active_children : Z; exclusive_time : Z; last_start : Z }.

Definition walk_step (start stop : Z) (w : walk) (t : nr_exclusive_time_transition_t) :
    walk * bool :=
  match type t with
  | CHILD_START =>
      (Walk (u32 (active_children w + 1)) (exclusive_time w)
         (if active_children w =? 0 then
            if start <? time t then time t else start
          else last_start w), false)
  | CHILD_STOP =>
      if active_children w =? 0 then (w, false)
      else if active_children w =? 1 then
        let duration :=
          if stop <? time t then nr_time_duration (last_start w) stop
          else nr_time_duration (last_start w) (time t) in
        if exclusive_time w <? duration then (Walk 1 0 (last_start w), true)
        else
          let exclusive := u64 (exclusive_time w - duration) in
          if stop <? time t then (Walk 1 exclusive (last_start w), true)
          else (Walk (u32 (active_children w - 1)) exclusive (last_start w), false)
      else (Walk (u32 (active_children w - 1)) (exclusive_time w) (last_start w), false)
  end.

Fixpoint walk_loop (start stop : Z) (w : walk) (ts : list nr_exclusive_time_transition_t) : Z :=
  match ts with
  | [] => exclusive_time w
  | t :: ts =>
      let '(w, done) := walk_step start stop w t in
      if (done : bool) then exclusive_time w else walk_loop start stop w ts
  end.

Section calculate.
Context `{QsortR}.

(** The sort is in place: the structure is returned too. *)
Definition nr_exclusive_time_calculate (oet : option nr_exclusive_time_t) :
    Z * option nr_exclusive_time_t :=
  match oet with
  | None => (0, None)
  | Some et =>
      if stop_time et <? start_time et then (0, oet)
      else if used et =? 0 then (nr_time_duration (start_time et) (stop_time et), oet)
      else
        let ts := nr_sort (transitions et) (Some nr_exclusive_time_transition_compare) in
        (walk_loop (start_time et) (stop_time et)
           (Walk 0 (nr_time_duration (start_time et) (stop_time et)) 0) ts,
         Some (ExclusiveTime (start_time et) (stop_time et) (capacity et) ts))
  end.
End calculate.

(** ** The comparison function *)
#[export] Instance transition_comparator : Comparator nr_exclusive_time_transition_compare.
Proof.
  split; unfold nr_exclusive_time_transition_compare.
  - intros [t1 []] [t2 []]; simpl; repeat case_decide; try done; bool_cases.
  - intros [t1 []] [t2 []] [t3 []]; simpl; repeat case_decide; try done; bool_cases.
Qed.

(** ** Children and coverage *)

(** A child segment: when it starts and stops. *)
Abbreviation child := (Z * Z)%type.

Fixpoint child_transitions (children : list child) : list nr_exclusive_time_transition_t :=
  match children with
  | [] => []
  | c :: children =>
      Transition c.1 CHILD_START :: Transition c.2 CHILD_STOP :: child_transitions children
  end.

(** [c] is running during microsecond [t]. *)
Definition covers (c : child) (t : Z) : Prop := c.1 ≤ t < c.2.

(** The microseconds of [[a, b)] during which no child is running. *)
Definition exclusive (children : list child) (a b : Z) : Z :=
  Z.of_nat (length (filter (λ t, Forall (λ c, ¬ covers c t) children) (seqZ a (b - a)))).

(** Number of children a list of transitions has started and not stopped at
    time [t], and in the end. *)
Definition delta (x : nr_exclusive_time_transition_t) : Z :=
  match type x with CHILD_START => 1 | CHILD_STOP => -1 end.

Fixpoint net (t : Z) (ts : list nr_exclusive_time_transition_t) : Z :=
  match ts with
  | [] => 0
  | x :: ts => (if time x <=? t then delta x else 0) + net t ts
  end.

Fixpoint total (ts : list nr_exclusive_time_transition_t) : Z :=
  match ts with [] => 0 | x :: ts => delta x + total ts end.

Lemma net_app t ts1 ts2 : net t (ts1 ++ ts2) = net t ts1 + net t ts2.
Proof. induction ts1; simpl; lia. Qed.

#[export] Instance net_perm t : Proper ((≡ₚ) ==> eq) (net t).
Proof. induction 1; simpl; lia. Qed.

#[export] Instance total_perm : Proper ((≡ₚ) ==> eq) total.
Proof. induction 1; simpl; lia. Qed.

Lemma total_app ts1 ts2 : total (ts1 ++ ts2) = total ts1 + total ts2.
Proof. induction ts1; simpl; lia. Qed.

Lemma net_all t ts : Forall (λ x, time x ≤ t) ts → net t ts = total ts.
Proof. induction 1; simpl; [done|bool_cases]. Qed.

Lemma net_none t ts : Forall (λ x, t < time x) ts → net t ts = 0.
Proof. induction 1; simpl; [done|bool_cases]. Qed.

Lemma total_le ts : total ts ≤ Z.of_nat (length ts).
Proof. induction ts as [|[? []]]; simpl; unfold delta in *; simpl; lia. Qed.

(** Transitions made of children that stop no earlier than they start. *)
Definition from_children (children : list child) ts : Prop :=
  Forall (λ c, c.1 ≤ c.2) children ∧ ts ≡ₚ child_transitions children.

Lemma net_children_nonneg t children ts : from_children children ts → 0 ≤ net t ts.
Proof.
  intros [Hc ->]. induction Hc as [|[s e] l Hse _ IH]; simpl in *; [done|].
  unfold delta. simpl. bool_cases.
Qed.

Lemma total_children children ts : from_children children ts → total ts = 0.
Proof.
  intros [_ ->]. induction children; simpl in *; [done|]. unfold delta. simpl. lia.
Qed.

Lemma covered_net t children ts : from_children children ts →
  Forall (λ c, ¬ covers c t) children ↔ net t ts = 0.
Proof.
  intros [Hc ->]. induction Hc as [|[s e] l Hse Hl IH]; simpl in *; [by split|].
  pose proof (net_children_nonneg t l _ (conj Hl (reflexivity _))).
  rewrite Forall_cons, IH. unfold delta, covers. simpl. bool_cases.
Qed.

(** ** Counting microseconds *)
Section count.
Context (children : list child).

Lemma exclusive_split a b c : a ≤ b → b ≤ c →
  exclusive children a c = exclusive children a b + exclusive children b c.
Proof.
  intros. unfold exclusive.
  replace (c - a) with ((b - a) + (c - b)) by lia.
  rewrite seqZ_app, filter_app, length_app by lia.
  replace (a + (b - a)) with b by lia. lia.
Qed.

Lemma exclusive_le a b : a ≤ b → exclusive children a b ≤ b - a.
Proof.
  intros. unfold exclusive. etrans; [apply inj_le, length_filter|].
  rewrite length_seqZ. lia.
Qed.

Lemma exclusive_nonneg a b : 0 ≤ exclusive children a b.
Proof. unfold exclusive. lia. Qed.

(** An interval no child runs in counts in full, one always covered counts
    nothing. *)
Lemma exclusive_free a b : a ≤ b →
  (∀ t, a ≤ t < b → Forall (λ c, ¬ covers c t) children) → exclusive children a b = b - a.
Proof.
  intros Hab Hfree. unfold exclusive. rewrite filter_all.
  - rewrite length_seqZ. lia.
  - apply Forall_forall. intros t Ht%elem_of_seqZ. apply Hfree. lia.
Qed.

Lemma exclusive_covered a b :
  (∀ t, a ≤ t < b → ¬ Forall (λ c, ¬ covers c t) children) → exclusive children a b = 0.
Proof.
  intros Hcov. unfold exclusive. rewrite filter_none; [done|].
  apply Forall_forall. intros t Ht%elem_of_seqZ. apply Hcov. lia.
Qed.
End count.

(** ** The walk computes the exclusive time *)
Section walk.
Context (children : list child) (all : list nr_exclusive_time_transition_t).
Context (start stop : Z) (Hss : 0 ≤ start ≤ stop) (Hstop : stop < 2 ^ 64).
Context (Hall : from_children children all)
  (Hsorted : StronglySorted (λ x y, nr_exclusive_time_transition_compare x y ≤ 0) all)
  (Hlen : Z.of_nat (length all) < 2 ^ 32).

Definition clip (t : Z) : Z := Z.max start (Z.min t stop).

(** The walk is at time [l]: it has handled the transitions [P], all of them
    no later than [l], and still has [R], none of them earlier. *)
Record at_time (P R : list nr_exclusive_time_transition_t) (l : Z) : Prop := {
  at_split : all = P ++ R;
  at_past : Forall (λ x, time x ≤ l) P;
  at_future : Forall (λ x, l ≤ time x) R;
}.

(** What the three variables of the loop mean at that time: everything before
    [last_start] (or before [l], with no active child) is accounted for, and
    from [last_start] to [l] some child is running. *)
Definition walk_inv (P : list nr_exclusive_time_transition_t) (l : Z) (w : walk) : Prop :=
  active_children w = total P ∧ 0 ≤ total P ∧
  let mark := if total P =? 0 then l else last_start w in
  exclusive_time w = stop - clip mark + exclusive children start (clip mark) ∧
  (0 < total P → start ≤ last_start w ≤ Z.max start l ∧
     ∀ t, last_start w ≤ t < l → ¬ Forall (λ c, ¬ covers c t) children).

Lemma net_between P R l t : at_time P R l → l ≤ t → Forall (λ x, t < time x) R →
  net t all = total P.
Proof.
  intros [-> HP HR] Hl Ht. rewrite net_app, (net_none t R), net_all; [lia| |done].
  eapply Forall_impl; [exact HP|]. simpl. lia.
Qed.

Lemma compare_time x y : nr_exclusive_time_transition_compare x y ≤ 0 → time x ≤ time y.
Proof. unfold nr_exclusive_time_transition_compare. bool_cases. Qed.

Lemma at_time_next P x R l : at_time P (x :: R) l →
  l ≤ time x ∧ Forall (λ y, nr_exclusive_time_transition_compare x y ≤ 0) R ∧
  (∀ t, l ≤ t < time x → net t all = total P) ∧ at_time (P ++ [x]) R (time x).
Proof.
  intros Ht. pose proof Ht as [E HP HR]. apply Forall_cons in HR as [Hx HR].
  assert (Forall (λ y, nr_exclusive_time_transition_compare x y ≤ 0) R) as HxR.
  { rewrite E in Hsorted. apply StronglySorted_app_1_r in Hsorted. by inversion Hsorted. }
  assert (Forall (λ y, time x ≤ time y) R) as HtR.
  { eapply Forall_impl; [exact HxR|]. intros. by apply compare_time. }
  split_and!; [done..| |].
  - intros t Hlt. eapply net_between; [done|lia|]. constructor; [lia|].
    eapply Forall_impl; [exact HtR|]. simpl. lia.
  - split; [by rewrite <-app_assoc| |done]. apply Forall_app. split; [|by repeat constructor].
    eapply Forall_impl; [exact HP|]. simpl. lia.
Qed.

(** A stop never comes when no child is active: at equal times the starts
    come first. *)
Lemma stop_active P x R l : at_time P (x :: R) l → type x = CHILD_STOP → 0 < total P.
Proof.
  intros Ht Hx. destruct (at_time_next _ _ _ _ Ht) as (Hl & HxR & _ & Ht').
  pose proof Ht as [E HP _].
  pose proof (net_children_nonneg (time x) _ _ Hall) as Hn.
  rewrite E, net_app, net_all in Hn; [|eapply Forall_impl; [exact HP|]; simpl; lia].
  simpl in Hn. rewrite Z.leb_refl in Hn. unfold delta in Hn at 1. rewrite Hx in Hn.
  enough (net (time x) R ≤ 0) by lia. clear -HxR Hx.
  induction HxR as [|y R Hy _ IH]; simpl; [done|].
  unfold nr_exclusive_time_transition_compare in Hy. rewrite Hx in Hy. unfold delta.
  destruct (type y), (Z.leb_spec (time y) (time x)); try lia.
  destruct (Z.ltb_spec (time x) (time y)), (Z.ltb_spec (time y) (time x)); try lia.
  rewrite decide_True in Hy by done. lia.
Qed.
Lemma clip_split a b : a ≤ b →
  exclusive children start (clip b) =
  exclusive children start (clip a) + exclusive children (clip a) (clip b).
Proof. intros. apply exclusive_split; unfold clip; lia. Qed.

Lemma advance_free a b : a ≤ b →
  (∀ t, a ≤ t < b → net t all = 0) →
  exclusive children start (clip b) = exclusive children start (clip a) + (clip b - clip a).
Proof.
  intros Hab Hfree. rewrite (clip_split a b) by done. f_equal.
  apply exclusive_free; [unfold clip; lia|]. intros t Ht.
  apply (covered_net t _ all Hall), Hfree. unfold clip in Ht. lia.
Qed.

Lemma advance_covered a b : a ≤ b →
  (∀ t, a ≤ t < b → ¬ Forall (λ c, ¬ covers c t) children) →
  exclusive children start (clip b) = exclusive children start (clip a).
Proof.
  intros Hab Hcov. rewrite (clip_split a b), (exclusive_covered _ (clip a)); [lia| |done].
  intros t Ht. apply Hcov. unfold clip in Ht. lia.
Qed.

Lemma total_snoc P x : total (P ++ [x]) = total P + delta x.
Proof. rewrite total_app. simpl. lia. Qed.

(** Coverage extends over the time up to the next transition. *)
Lemma covered_until P x R l m : at_time P (x :: R) l → 0 < total P →
  (∀ t, m ≤ t < l → ¬ Forall (λ c, ¬ covers c t) children) →
  ∀ t, m ≤ t < time x → ¬ Forall (λ c, ¬ covers c t) children.
Proof.
  intros Ht Hp Hcov t Htx. destruct (at_time_next _ _ _ _ Ht) as (_ & _ & Hnet & _).
  destruct (decide (t < l)); [by apply Hcov; lia|].
  rewrite (covered_net t _ all Hall), Hnet; lia.
Qed.

Lemma step_start P x R l w : at_time P (x :: R) l → walk_inv P l w → type x = CHILD_START →
  walk_inv (P ++ [x]) (time x) (walk_step start stop w x).1.
Proof.
  intros Ht (Ha & Hp & He & Hc) Hx.
  destruct (at_time_next _ _ _ _ Ht) as (Hl & _ & Hnet & [E _ _]).
  pose proof (total_le P) as HP. apply (f_equal length) in E.
  rewrite !length_app in E. simpl in E.
  unfold walk_step. rewrite Hx. unfold walk_inv. rewrite total_snoc. unfold delta. rewrite Hx. simpl.
  rewrite Ha, u32_small by lia. split_and!; [done|lia|..].
  - destruct (Z.eqb_spec (total P + 1) 0); [lia|].
    destruct (Z.eqb_spec (total P) 0) as [Hz|].
    + set (m := if start <? time x then time x else start).
      assert (clip m = clip (time x)) as -> by (unfold m, clip; bool_cases).
      rewrite Hz in Hnet. rewrite (advance_free l) by done. rewrite He. lia.
    + done.
  - intros _. destruct (Z.eqb_spec (total P) 0) as [Hz|].
    + split; [bool_cases|]. intros t. bool_cases.
    + destruct Hc as [? Hcov]; [lia|]. split; [lia|]. eapply covered_until; [exact Ht|lia|exact Hcov].
Qed.

Lemma step_stop P x R l w : at_time P (x :: R) l → walk_inv P l w → type x = CHILD_STOP →
  let '(w', done) := walk_step start stop w x in
  if done then exclusive_time w' = exclusive children start stop
  else walk_inv (P ++ [x]) (time x) w'.
Proof.
  intros Ht (Ha & Hp & He & Hc) Hx.
  pose proof (stop_active _ _ _ _ Ht Hx) as Hpos.
  destruct (at_time_next _ _ _ _ Ht) as (Hl & _ & _ & [E _ _]).
  pose proof (total_le P) as HP. apply (f_equal length) in E. rewrite !length_app in E. simpl in E.
  destruct Hc as [Hls Hcov]; [done|].
  pose proof (covered_until _ _ _ _ _ Ht Hpos Hcov) as Hcov'.
  destruct (Z.eqb_spec (total P) 0); [lia|]. simpl in He.
  unfold walk_step. rewrite Hx, Ha. destruct (Z.eqb_spec (total P) 0); [lia|].
  destruct (Z.eqb_spec (total P) 1) as [H1|].
  - assert (He' : exclusive_time w - (clip (time x) - clip (last_start w)) =
                  stop - clip (time x) + exclusive children start (clip (time x))).
    { rewrite He. destruct (decide (last_start w ≤ time x)).
      - rewrite (advance_covered (last_start w) (time x)) by done. lia.
      - assert (clip (time x) = clip (last_start w)) as -> by (unfold clip; lia). lia. }
    set (d := if stop <? time x then _ else _).
    assert (d = clip (time x) - clip (last_start w)) as ->.
    { unfold d, nr_time_duration. bool_cases; rewrite ?u64_small by lia; unfold clip; lia. }
    pose proof (exclusive_nonneg children start (clip (time x))).
    pose proof (exclusive_nonneg children start (clip (last_start w))).
    destruct (Z.ltb_spec (exclusive_time w) (clip (time x) - clip (last_start w)));
      [unfold clip in *; lia|].
    pose proof (exclusive_le children start (clip (time x)) ltac:(unfold clip; lia)).
    rewrite He', u64_small by (unfold clip in *; lia).
    destruct (Z.ltb_spec stop (time x)); simpl.
    + replace (clip (time x)) with stop by (unfold clip; lia). lia.
    + unfold walk_inv. rewrite total_snoc. unfold delta. rewrite Hx, H1. simpl.
      by split_and!.
  - unfold walk_inv. rewrite total_snoc. unfold delta. rewrite Hx. simpl.
    rewrite u32_small by lia. destruct (Z.eqb_spec (total P + -1) 0); [lia|].
    split_and!; [lia..|done|]. intros _. split; [lia|done].
Qed.
Lemma walk_loop_spec P R l w : at_time P R l → walk_inv P l w →
  walk_loop start stop w R = exclusive children start stop.
Proof.
  revert P l w. induction R as [|x R IH]; intros P l w Ht Hw; simpl.
  - destruct Ht as [E HP _]. rewrite app_nil_r in E. subst P.
    destruct Hw as (_ & _ & He & _). rewrite (total_children _ _ Hall) in He. simpl in He.
    pose proof (clip_split l (Z.max l stop) ltac:(lia)) as Hs.
    replace (clip (Z.max l stop)) with stop in Hs by (unfold clip; lia).
    rewrite He, Hs, (exclusive_free _ (clip l) stop); [lia|unfold clip; lia|].
    intros t Htl. apply (covered_net t _ all Hall).
    rewrite net_all; [by eapply total_children|].
    eapply Forall_impl; [exact HP|]. unfold clip in Htl. simpl. lia.
  - destruct (at_time_next _ _ _ _ Ht) as (_ & _ & _ & Ht').
    destruct (type x) eqn:Ex.
    + pose proof (step_start _ _ _ _ _ Ht Hw Ex) as Hw'.
      assert ((walk_step start stop w x).2 = false) as Hd
        by (unfold walk_step; by rewrite Ex).
      destruct (walk_step start stop w x) as [w' d]. simpl in Hd. subst d. by eapply IH.
    + pose proof (step_stop _ _ _ _ _ Ht Hw Ex) as Hw'.
      destruct (walk_step start stop w x) as [w' []]; [done|]. by eapply IH.
Qed.
End walk.

(** ** Structures that hold the children they were given *)

(** [et] was given these children (those that stop before they start are
    refused), in any order of its transitions. *)
Record holds (children : list child) (et : nr_exclusive_time_t) : Prop := {
  h_range : 0 ≤ start_time et < 2 ^ 64 ∧ 0 ≤ stop_time et < 2 ^ 64;
  h_times : Forall (λ c, 0 ≤ c.1 < 2 ^ 64 ∧ 0 ≤ c.2 < 2 ^ 64) children;
  h_children : from_children (filter (λ c, c.1 ≤ c.2) children) (transitions et);
  h_capacity : used et ≤ capacity et < 2 ^ 32;
}.

Definition add_children (children : list child) (oet : option nr_exclusive_time_t) :
    option nr_exclusive_time_t :=
  foldl (λ oet c, (nr_exclusive_time_add_child oet c.1 c.2).2) oet children.

Lemma child_transitions_app c1 c2 :
  child_transitions (c1 ++ c2) = child_transitions c1 ++ child_transitions c2.
Proof. induction c1; simpl; congruence. Qed.

Lemma length_child_transitions cs :
  length (child_transitions cs) = (2 * length cs)%nat.
Proof. induction cs; simpl; lia. Qed.

Lemma used_child_transitions cs et : from_children cs (transitions et) →
  used et = 2 * Z.of_nat (length cs).
Proof.
  intros [_ Hp]. unfold used. apply Permutation_length in Hp.
  rewrite Hp, length_child_transitions. lia.
Qed.

Lemma add_child_holds children et c : holds children et → used et + 2 ≤ capacity et →
  0 ≤ c.1 < 2 ^ 64 ∧ 0 ≤ c.2 < 2 ^ 64 →
  ∃ et', (nr_exclusive_time_add_child (Some et) c.1 c.2).2 = Some et' ∧
    holds (children ++ [c]) et' ∧ used et' ≤ used et + 2 ∧
    start_time et' = start_time et ∧ stop_time et' = stop_time et ∧
    capacity et' = capacity et.
Proof.
  intros [Hr Hts Hc Hcap] Hroom Hct. unfold nr_exclusive_time_add_child.
  assert (Forall (λ c, 0 ≤ c.1 < 2 ^ 64 ∧ 0 ≤ c.2 < 2 ^ 64) (children ++ [c]))
    by (apply Forall_app; split; [done|by apply Forall_singleton]).
  assert (0 ≤ used et) by (unfold used; lia). rewrite u64_small by lia.
  destruct (Z.ltb_spec (capacity et) (used et + 2)); [lia|].
  destruct (Z.ltb_spec c.2 c.1); simpl.
  - exists et. split_and!; try done; [|lia]. split; [done|done| |done].
    rewrite filter_app. change [c] with (c :: []).
    rewrite filter_cons_False by lia. by rewrite app_nil_r.
  - eexists. split; [done|]. split_and!; try done.
    + split; [done|done| |]; simpl.
      * destruct Hc as [Hf Hp]. rewrite filter_app, filter_cons_True by lia.
        split; [apply Forall_app; split; [done|by repeat constructor]|].
        rewrite child_transitions_app. simpl. by rewrite Hp.
      * unfold used in *. simpl. rewrite length_app. simpl. lia.
    + unfold used. simpl. rewrite length_app. simpl. lia.
Qed.

Lemma add_children_holds cs children et : holds children et →
  used et + 2 * Z.of_nat (length cs) ≤ capacity et →
  Forall (λ c, 0 ≤ c.1 < 2 ^ 64 ∧ 0 ≤ c.2 < 2 ^ 64) cs →
  ∃ et', add_children cs (Some et) = Some et' ∧ holds (children ++ cs) et' ∧
    start_time et' = start_time et ∧ stop_time et' = stop_time et.
Proof.
  revert children et. induction cs as [|c cs IH]; intros children et Hh Hcap Hts;
    cbn [length] in Hcap.
  { exists et. rewrite app_nil_r. by split_and!. }
  apply Forall_cons in Hts as [Hct Hts].
  change (add_children (c :: cs) (Some et)) with
    (add_children cs (nr_exclusive_time_add_child (Some et) c.1 c.2).2).
  destruct (add_child_holds _ _ c Hh ltac:(lia) Hct) as (et1 & -> & Hh1 & ? & Es & Et & ?).
  destruct (IH _ _ Hh1 ltac:(lia) Hts) as (et2 & E & Hh2 & Es' & Et').
  exists et2. rewrite <-app_assoc in Hh2. split_and!; [done..|congruence|congruence].
Qed.

Lemma filter_exclusive children a b :
  exclusive (filter (λ c, c.1 ≤ c.2) children) a b = exclusive children a b.
Proof.
  unfold exclusive. f_equal. f_equal. apply list_filter_iff. intros t.
  induction children as [|c cs IH]; [done|].
  destruct (decide (c.1 ≤ c.2)); [rewrite filter_cons_True by done; by rewrite !Forall_cons, IH|].
  rewrite filter_cons_False, Forall_cons, IH by done. unfold covers.
  split; [intros H; split; [lia|done]|by intros [_ H]].
Qed.

Lemma times_nonneg children ts :
  Forall (λ c, 0 ≤ c.1 < 2 ^ 64 ∧ 0 ≤ c.2 < 2 ^ 64) children →
  from_children (filter (λ c, c.1 ≤ c.2) children) ts → Forall (λ x, 0 ≤ time x) ts.
Proof.
  intros Hts [_ ->]. induction Hts as [|c cs Hc _ IH]; [done|].
  rewrite filter_cons. destruct (decide _); [|done]. simpl.
  repeat constructor; simpl; [lia..|done].
Qed.

Lemma calculate_spec `{QsortRLaws} children et : holds children et →
  start_time et ≤ stop_time et →
  ∃ et', nr_exclusive_time_calculate (Some et) =
           (exclusive children (start_time et) (stop_time et), Some et') ∧
    holds children et' ∧ start_time et' = start_time et ∧ stop_time et' = stop_time et ∧
    capacity et' = capacity et.
Proof.
  intros Hh Hss. pose proof Hh as [Hr Hts Hc Hcap]. unfold nr_exclusive_time_calculate.
  destruct (Z.ltb_spec (stop_time et) (start_time et)); [lia|].
  assert (Hdur : nr_time_duration (start_time et) (stop_time et) = stop_time et - start_time et).
  { unfold nr_time_duration. destruct (Z.ltb_spec (stop_time et) (start_time et)); [lia|].
    by rewrite u64_small by lia. }
  rewrite Hdur, <-(filter_exclusive children). destruct (Z.eqb_spec (used et) 0) as [Hu|].
  - exists et. split; [|done]. f_equal. rewrite (used_child_transitions _ _ Hc) in Hu.
    destruct (filter _ children); [|simpl in Hu; lia]. by rewrite exclusive_free.
  - unfold nr_sort. set (ts := qsort_r _ _ _).
    assert (ts ≡ₚ transitions et) as Hp by apply qsort_r_perm.
    pose proof (Permutation_length Hp) as Hpl.
    assert (from_children (filter (λ c, c.1 ≤ c.2) children) ts) as Hc'
      by (destruct Hc; split; [done|by rewrite Hp]).
    eexists. split; [f_equal|].
    + unfold used in Hcap.
      eapply (walk_loop_spec _ ts _ _) with (P := []) (l := 0); try done; try lia.
      * apply qsort_r_sorted, _.
      * split; [done|done|]. by eapply times_nonneg.
      * split_and!; simpl; try lia.
        replace (clip _ _ 0) with (start_time et) by (unfold clip; lia).
        pose proof (exclusive_le (filter (λ c, c.1 ≤ c.2) children) (start_time et) (start_time et)).
        pose proof (exclusive_nonneg (filter (λ c, c.1 ≤ c.2) children) (start_time et) (start_time et)).
        lia.
    + split_and!; try done. split; [done..|]. unfold used in *. simpl. by rewrite Hpl.
Qed.

Lemma create_holds n start stop :
  0 ≤ n → 2 * n < 2 ^ 32 → 0 ≤ start < 2 ^ 64 → 0 ≤ stop < 2 ^ 64 →
  holds [] (nr_exclusive_time_create n start stop).
Proof.
  intros. split; simpl; [done|constructor|split; [constructor|done]|].
  rewrite u64_small by lia. unfold used. simpl. lia.
Qed.

Lemma ensure_holds children et n start stop :
  holds children et → 0 ≤ n → used et + 2 * n < 2 ^ 32 →
  0 ≤ start < 2 ^ 64 → 0 ≤ stop < 2 ^ 64 →
  ∃ et', nr_exclusive_time_ensure (Some (Some et)) n start stop = (true, Some (Some et')) ∧
    holds children et' ∧ used et' = used et ∧ used et + 2 * n ≤ capacity et' ∧
    start_time et' = start ∧ stop_time et' = stop.
Proof.
  intros [Hr Hts Hc Hcap] Hn Hn2 Hst Hsp. unfold nr_exclusive_time_ensure.
  assert (0 ≤ used et) by (unfold used; lia).
  rewrite !u64_small by lia. eexists. split; [done|]. unfold used in *. simpl.
  split_and!; try done; [split; [done..|]; simpl; unfold used; simpl|];
    destruct (Z.ltb_spec (capacity et - Z.of_nat (length (transitions et))) (n * 2)); lia.
Qed.

(** ** Properties *)

(** C6: the exclusive time of a segment is the number of microseconds of
    [[start, stop)] during which none of its children runs, whatever the order
    in which the children were added and however they overlap or stick out of the
    segment; the branch the code calls impossible is never taken, the unsigned
    subtractions never wrap, and calculating leaves the structure usable. *)
Theorem exclusive_time_is_uncovered_time `{QsortRLaws} (n start stop : Z) (children : list (Z * Z)) :
  0 ≤ start ≤ stop → stop < 2 ^ 64 → Z.of_nat (length children) ≤ n → 2 * n < 2 ^ 32 →
  Forall (λ c, 0 ≤ c.1 < 2 ^ 64 ∧ 0 ≤ c.2 < 2 ^ 64) children →
  ∃ et, nr_exclusive_time_calculate
      (add_children children (Some (nr_exclusive_time_create n start stop))) =
    (exclusive children start stop, Some et) ∧ holds children et.
Proof.
  intros ? ? Hn ? Hts.
  assert (holds [] (nr_exclusive_time_create n start stop)) as Hc by (apply create_holds; lia).
  destruct (add_children_holds children [] _ Hc) as (et & -> & Hh & Es & Et); [|done|].
  { simpl. rewrite u64_small by lia. unfold used. simpl. lia. }
  destruct (calculate_spec children et Hh) as (et' & E & ? & _); [rewrite Es, Et; simpl; lia|].
  exists et'. by rewrite E, Es, Et.
Qed.

Lemma exclusive_time_is_uncovered_time_witness :
  ∃ et, @nr_exclusive_time_calculate MergeSort.qsort_r
      (add_children [(15, 18); (5, 12); (17, 30)] (Some (nr_exclusive_time_create 3 10 20))) =
    (3, Some et).
Proof.
  destruct (@exclusive_time_is_uncovered_time MergeSort.qsort_r MergeSort.qsort_r_laws
    3 10 20 [(15, 18); (5, 12); (17, 30)]) as (et & E & _).
  - lia.
  - lia.
  - reflexivity.
  - reflexivity.
  - repeat apply Forall_cons_2; simpl; lia || constructor.
  - exists et. rewrite E. reflexivity.
Defined.

(** a structure re-armed with [nr_exclusive_time_ensure] keeps the children
    it holds, takes the new times, and has room for the announced number of
    further children: after adding them, the exclusive time is the time left
    uncovered by the old and the new children together. *)
Theorem exclusive_time_ensure_more `{QsortRLaws} (et : nr_exclusive_time_t)
    (n start stop : Z) (old new : list (Z * Z)) :
  holds old et → used et + 2 * n < 2 ^ 32 → 0 ≤ start ≤ stop → stop < 2 ^ 64 →
  Z.of_nat (length new) ≤ n →
  Forall (λ c, 0 ≤ c.1 < 2 ^ 64 ∧ 0 ≤ c.2 < 2 ^ 64) new →
  ∃ et1 et2, nr_exclusive_time_ensure (Some (Some et)) n start stop = (true, Some (Some et1)) ∧
    nr_exclusive_time_calculate (add_children new (Some et1)) =
      (exclusive (old ++ new) start stop, Some et2) ∧ holds (old ++ new) et2.
Proof.
  intros Hh ? ? ? ? Hts.
  destruct (ensure_holds old et n start stop Hh) as (et1 & E1 & Hh1 & ? & ? & Es & Et); [lia..|].
  destruct (add_children_holds new old et1 Hh1) as (et2 & E2 & Hh2 & Es2 & Et2); [lia|done|].
  destruct (calculate_spec _ et2 Hh2) as (et3 & E3 & ? & _); [lia|].
  exists et1, et3. rewrite E2, E3. split_and!; [done| |done]. f_equal. f_equal; lia.
Qed.

Lemma exclusive_time_ensure_more_witness :
  ∃ et1 et2, nr_exclusive_time_ensure (Some (add_children [(2, 4)]
      (Some (nr_exclusive_time_create 1 0 10)))) 1 1 9 = (true, Some (Some et1)) ∧
    @nr_exclusive_time_calculate MergeSort.qsort_r (add_children [(3, 6)] (Some et1)) =
      (4, Some et2).
Proof.
  destruct (add_children_holds [(2, 4)] [] (nr_exclusive_time_create 1 0 10))
    as (et & E & Hh & _).
  { apply create_holds; lia. } { reflexivity. } { repeat apply Forall_cons_2; simpl; lia || constructor. }
  assert (Eu : et = ExclusiveTime 0 10 2 [Transition 2 CHILD_START; Transition 4 CHILD_STOP])
    by (vm_compute in E; congruence).
  destruct (@exclusive_time_ensure_more MergeSort.qsort_r MergeSort.qsort_r_laws
    et 1 1 9 [(2, 4)] [(3, 6)]) as (et1 & et2 & E1 & E2 & _).
  - exact Hh.
  - rewrite Eu. reflexivity.
  - lia.
  - lia.
  - reflexivity.
  - repeat apply Forall_cons_2; simpl; lia || constructor.
  - exists et1, et2. rewrite E. split; [exact E1|]. rewrite E2. reflexivity.
Defined.
