(* ===== verification/CString.v ===== *)
(** * CString: bytes and C strings (src/axiom/util_strings.h)

    Memory a pointer points to is the list of its bytes (integers in 0..255);
    whatever follows the list starts with a NUL.  The string a pointer denotes
    ends at the first NUL. *)

From Stdlib Require String Ascii.
From S2P Require Import Prelude.
Export String.StringSyntax.
Local Open Scope Z_scope.

(** The characters of a string literal. *)
Definition lit (s : String.string) : list Z := (λ c, Z.of_N (Ascii.N_of_ascii c)) <$> String.list_ascii_of_string s.
Arguments lit s%_string_scope.

#[export] Instance bytes_pointer : Pointer (list Z) := [].

Definition is_byte (b : Z) : Prop := 0 ≤ b < 256.

(** The characters up to the first NUL. *)
Fixpoint cstr (s : list Z) : list Z :=
  match s with
  | [] => []
  | c :: s => if c =? 0 then [] else c :: cstr s
  end.

(** A well-formed string: bytes, no NUL among them. *)
Definition is_cstr (s : list Z) : Prop := Forall (λ c, 0 < c < 256) s.

(** The byte at an index, the terminator past the end. *)
Definition char_at (s : list Z) (i : Z) : Z := default 0 (s !! Z.to_nat i).

Definition nr_strlen (str : option (list Z)) : Z :=
  match str with None => 0 | Some s => Z.of_nat (length (cstr s)) end.

Definition nr_strempty (str : option (list Z)) : bool :=
  match str with None => true | Some s => char_at s 0 =? 0 end.

(** The C library's [strcmp], up to the magnitude of its result. *)
Fixpoint strcmp (s1 s2 : list Z) : Z :=
  match s1, s2 with
  | [], [] => 0
  | [], c2 :: _ => if c2 =? 0 then 0 else if 0 <? c2 then -1 else 1
  | c1 :: _, [] => if c1 =? 0 then 0 else if c1 <? 0 then -1 else 1
  | c1 :: s1, c2 :: s2 =>
      if c1 =? c2 then if c1 =? 0 then 0 else strcmp s1 s2
      else if c1 <? c2 then -1 else 1
  end.

Definition nr_strcmp (s1 s2 : option (list Z)) : Z :=
  match s1, s2 with
  | Some s1, Some s2 => strcmp s1 s2
  | Some _, None => 1
  | None, Some _ => -1
  | None, None => 0
  end.

Definition nr_streq (s1 s2 : option (list Z)) : bool := nr_strcmp s1 s2 =? 0.

Lemma cstr_id s : is_cstr s → cstr s = s.
Proof.
  induction 1 as [|c s Hc _ IH]; [done|]. simpl.
  destruct (Z.eqb_spec c 0); [lia|by rewrite IH].
Qed.

Lemma nr_strlen_cstr t : is_cstr t → nr_strlen (Some t) = Z.of_nat (length t).
Proof. intros Ht. unfold nr_strlen. by rewrite cstr_id. Qed.

Lemma cstr_app s rest : is_cstr s → cstr (s ++ 0 :: rest) = s.
Proof. induction 1 as [|c s Hc _ IH]; [done|]. simpl. destruct (Z.eqb_spec c 0); [lia|by rewrite IH]. Qed.

Lemma cstr_is_cstr s : Forall is_byte s → is_cstr (cstr s).
Proof.
  induction 1 as [|c s Hc _ IH]; simpl; [constructor|].
  destruct (Z.eqb_spec c 0); [constructor|]. constructor; [unfold is_byte in Hc; lia|done].
Qed.

Lemma length_cstr s : (length (cstr s) ≤ length s)%nat.
Proof. induction s as [|c s]; simpl; [done|]. destruct (c =? 0); simpl; lia. Qed.

Lemma strcmp_eq s1 s2 : is_cstr s1 → is_cstr s2 → strcmp s1 s2 = 0 ↔ s1 = s2.
Proof.
  intros H1. revert s2. induction H1 as [|c1 s1 Hc1 _ IH]; intros s2 H2;
    destruct H2 as [|c2 s2 Hc2 H2]; simpl.
  - done.
  - destruct (Z.eqb_spec c2 0); [lia|]. split; [bool_cases|done].
  - destruct (Z.eqb_spec c1 0); [lia|]. split; [bool_cases|done].
  - destruct (Z.eqb_spec c1 c2) as [->|]; [destruct (Z.eqb_spec c2 0); [lia|]|].
    + rewrite IH by done. split; [by intros ->|by intros [= ->]].
    + split; [bool_cases|congruence].
Qed.

(** It is a comparison function. *)
Lemma strcmp_flip s1 s2 : strcmp s2 s1 = - strcmp s1 s2.
Proof.
  revert s2. induction s1 as [|c1 s1 IH]; intros [|c2 s2]; cbn [strcmp]; [done|bool_cases..|].
  rewrite (Z.eqb_sym c2 c1). destruct (Z.eqb_spec c1 c2) as [->|]; [destruct (c2 =? 0); [done|apply IH]|bool_cases].
Qed.

Lemma strcmp_trans s1 s2 s3 : strcmp s1 s2 ≤ 0 → strcmp s2 s3 ≤ 0 → strcmp s1 s3 ≤ 0.
Proof.
  revert s2 s3. induction s1 as [|c1 s1 IH]; intros [|c2 s2] [|c3 s3]; cbn [strcmp]; bool_cases; [done|apply IH].
Qed.

#[export] Instance strcmp_comparator : Comparator strcmp.
Proof. split; [intros x y; rewrite (strcmp_flip y x); lia|apply strcmp_trans]. Qed.

Lemma strcmp_lt_trans s1 s2 s3 : strcmp s1 s2 < 0 → strcmp s2 s3 < 0 → strcmp s1 s3 < 0.
Proof.
  intros H1 H2. pose proof (strcmp_trans s1 s2 s3 ltac:(lia) ltac:(lia)). destruct (decide (strcmp s1 s3 < 0)); [done|].
  pose proof (strcmp_trans s2 s3 s1). pose proof (strcmp_flip s1 s3). pose proof (strcmp_flip s1 s2). pose proof (strcmp_flip s2 s3). lia.
Qed.

Lemma nr_streq_spec s1 s2 : is_cstr s1 → is_cstr s2 →
  nr_streq (Some s1) (Some s2) = bool_decide (s1 = s2).
Proof.
  intros H1 H2. unfold nr_streq, nr_strcmp. pose proof (strcmp_eq s1 s2 H1 H2) as Hs.
  destruct (Z.eqb_spec (strcmp s1 s2) 0), (bool_decide_reflect (s1 = s2)); tauto.
Qed.

(** The agreement of two binary blocks of the same length. *)
Definition nr_memcmp (s1 s2 : list Z) : Z := if decide (s1 = s2) then 0 else 1.

(** ** Decimal output, as [%llu] *)
Fixpoint decimal_loop (fuel : nat) (v : Z) (acc : list Z) : list Z :=
  match fuel with
  | O => acc
  | S fuel =>
      let acc := (48 + v mod 10) :: acc in
      if v / 10 =? 0 then acc else decimal_loop fuel (v / 10) acc
  end.

(** Twenty digits hold every 64-bit number. *)
Definition decimal (v : Z) : list Z := decimal_loop 20 v [].

(** What a decimal reader makes of digits. *)
Definition of_decimal (l : list Z) : Z := foldl (λ x c, x * 10 + (c - 48)) 0 l.

Lemma decimal_loop_acc fuel v acc : 0 ≤ v < 10 ^ Z.of_nat fuel →
  ∃ ds, decimal_loop fuel v acc = ds ++ acc ∧ (length ds ≤ fuel)%nat ∧
    Forall (λ c, 48 ≤ c < 58) ds ∧ of_decimal ds = v.
Proof.
  revert v acc. induction fuel as [|fuel IH]; intros v acc Hv.
  { exists []. simpl in *. split_and!; [done|done|constructor|]. unfold of_decimal. simpl. lia. }
  cbn [decimal_loop]. pose proof (Z.div_mod v 10 ltac:(lia)) as Hdm.
  pose proof (Z.mod_pos_bound v 10 ltac:(lia)).
  destruct (Z.eqb_spec (v / 10) 0) as [E|E].
  - exists [48 + v mod 10]. split_and!; [done|simpl; lia| |].
    + repeat constructor; lia.
    + unfold of_decimal. simpl. lia.
  - destruct (IH (v / 10) ((48 + v mod 10) :: acc)) as (ds & -> & Hl & Hd & Ho).
    { replace (Z.of_nat (S fuel)) with (Z.of_nat fuel + 1) in Hv by lia.
      rewrite Z.pow_add_r in Hv by lia. change (10 ^ 1) with 10 in Hv. lia. }
    exists (ds ++ [48 + v mod 10]). rewrite <-app_assoc. split_and!; [done| | |].
    + rewrite length_app. simpl. lia.
    + apply Forall_app. split; [done|]. repeat constructor; lia.
    + unfold of_decimal in *. rewrite foldl_app, Ho. simpl. lia.
Qed.

Lemma decimal_spec v : 0 ≤ v < 2 ^ 64 →
  (length (decimal v) ≤ 20)%nat ∧ Forall (λ c, 48 ≤ c < 58) (decimal v) ∧ of_decimal (decimal v) = v.
Proof.
  intros Hv. destruct (decimal_loop_acc 20 v []) as (ds & E & ?).
  { assert (2 ^ 64 < 10 ^ Z.of_nat 20) by (by vm_compute). lia. }
  unfold decimal. by rewrite E, app_nil_r.
Qed.
