(* ===== verification/Strings.v ===== *)
(** * Strings: the string library (src/axiom/util_strings.c, .h, util_strings_bsd.c,
    src/axiom/util_number_converter.c)

    Characters are classified and compared as in the C locale.  A pointer into
    a string is its offset; functions that write take the whole memory behind
    the destination and return it.  Lengths are unbounded integers. *)

From S2P Require Import Prelude Memory CString.
Local Open Scope Z_scope.

(** ** Characters *)
Definition nr_isdigit (c : Z) : bool := (48 <=? c) && (c <=? 57).
Definition nr_isupper (c : Z) : bool := (65 <=? c) && (c <=? 90).
Definition nr_islower (c : Z) : bool := (97 <=? c) && (c <=? 122).
Definition nr_isalpha (c : Z) : bool := nr_isupper c || nr_islower c.
Definition nr_isalnum (c : Z) : bool := nr_isdigit c || nr_isupper c || nr_islower c.
Definition nr_isblank (c : Z) : bool := (9 =? c) || (32 =? c).
Definition nr_isspace (c : Z) : bool := (32 =? c) || ((9 <=? c) && (c <=? 13)).
Definition nr_isxdigit (c : Z) : bool :=
  nr_isdigit c || ((65 <=? c) && (c <=? 70)) || ((97 <=? c) && (c <=? 102)).
Definition nr_tolower (c : Z) : Z := if nr_isupper c then Z.lor c 0x20 else c.
Definition nr_toupper (c : Z) : Z := if nr_islower c then Z.land c 0xdf else c.

(** ** The C library *)
Definition strncmp (s1 s2 : list Z) (n : Z) : Z := strcmp (take (Z.to_nat n) s1) (take (Z.to_nat n) s2).
Definition strcasecmp (s1 s2 : list Z) : Z := strcmp (nr_tolower <$> s1) (nr_tolower <$> s2).
Definition strncasecmp (s1 s2 : list Z) (n : Z) : Z :=
  strcasecmp (take (Z.to_nat n) s1) (take (Z.to_nat n) s2).
Definition strlen (s : list Z) : Z := Z.of_nat (length (cstr s)).

(** The offset of the first place that passes a test, in a string with its
    terminator. *)
Definition first_offset (test : Z → bool) (s : list Z) : option Z :=
  find test (seqZ 0 (strlen s + 1)).
Definition last_offset (test : Z → bool) (s : list Z) : option Z :=
  find test (reverse (seqZ 0 (strlen s + 1))).

Definition strchr (s : list Z) (c : Z) : option Z := first_offset (λ i, char_at s i =? c) s.
Definition strrchr (s : list Z) (c : Z) : option Z := last_offset (λ i, char_at s i =? c) s.
Definition strstr (s needle : list Z) : option Z :=
  first_offset (λ i, strncmp (drop (Z.to_nat i) s) needle (strlen needle) =? 0) s.
Fixpoint strspn (s accept : list Z) : Z :=
  match s with
  | [] => 0
  | c :: s => if c =? 0 then 0 else if bool_decide (c ∈ cstr accept) then 1 + strspn s accept else 0
  end.
Fixpoint strcspn (s reject : list Z) : Z :=
  match s with
  | [] => 0
  | c :: s => if c =? 0 then 0 else if bool_decide (c ∈ cstr reject) then 0 else 1 + strcspn s reject
  end.

(** ** Null-safe variants *)
Section null_safe.
Implicit Types s : option (list Z).

(** The order of pointers that a comparison falls back to. *)
Definition null_order s1 s2 : Z :=
  match s1, s2 with Some _, _ => 1 | None, Some _ => -1 | None, None => 0 end.

Definition nr_stricmp s1 s2 : Z :=
  match s1, s2 with Some s1, Some s2 => strcasecmp s1 s2 | _, _ => null_order s1 s2 end.

Definition nr_strncmp s1 s2 (n : Z) : Z :=
  match s1, s2 with
  | Some a, Some b => if 0 <? n then strncmp a b n else if n =? 0 then 0 else 1
  | None, None => 0
  | Some _, None => if n =? 0 then 0 else 1
  | None, Some _ => if n =? 0 then 0 else -1
  end.

Definition nr_strnicmp s1 s2 (n : Z) : Z :=
  match s1, s2 with
  | Some a, Some b => if 0 <? n then strncasecmp a b n else if n =? 0 then 0 else 1
  | None, None => 0
  | Some _, None => if n =? 0 then 0 else 1
  | None, Some _ => if n =? 0 then 0 else -1
  end.

Definition nr_strieq s1 s2 : bool := nr_stricmp s1 s2 =? 0.

Definition nr_strchr s (c : Z) : option Z := str ← s; strchr str c.
Definition nr_strrchr s (c : Z) : option Z := str ← s; strrchr str c.
Definition nr_strstr s (needle : option (list Z)) : option Z := a ← s; b ← needle; strstr a b.
Definition nr_strspn s1 s2 : Z := match s1, s2 with Some a, Some b => strspn a b | _, _ => 0 end.
Definition nr_strcspn s1 s2 : Z := match s1, s2 with Some a, Some b => strcspn a b | _, _ => 0 end.

Definition nr_striendswith s (slen : Z) (pattern : list Z) (pattern_len : Z) : bool :=
  if slen <? pattern_len then false
  else match s with
       | None => false
       | Some s => strcasecmp (drop (Z.to_nat (slen - pattern_len)) s) pattern =? 0
       end.

Definition nr_string_to_lowercase s : option (list Z) := (λ low : list Z, nr_tolower <$> cstr low) <$> s.

Definition nr_str_char_count s (c : Z) : Z :=
  match s with
  | None => 0
  | Some s => Z.of_nat (length (filter (λ x, x = c) (cstr s)))
  end.

Definition nr_str_append (dest src delimiter : option (list Z)) : option (list Z) :=
  let delim := default [] delimiter in
  match src with
  | None => dest
  | Some src =>
      match dest with
      | None => Some (cstr src)
      | Some dest => Some (cstr dest ++ cstr delim ++ cstr src)
      end
  end.
End null_safe.

(** ** Copying (src/axiom/util_memory.c: [nr_strdup] and friends) *)
Definition nr_strdup (orig : option (list Z)) : list Z := cstr (default [] orig).
Definition nr_strdup_or (string_if_not_null default_string : option (list Z)) : list Z :=
  match string_if_not_null with
  | Some s => nr_strdup (Some s)
  | None => match default_string with Some s => nr_strdup (Some s) | None => nr_strdup (Some []) end
  end.
Definition nr_strndup (orig : option (list Z)) (len : Z) : list Z :=
  if len =? 0 then nr_strdup (Some [])
  else match orig with
       | None => nr_strdup (Some [])
       | Some s => cstr (take (Z.to_nat len) s)
       end.

Definition nr_strnlen (str : option (list Z)) (maxlen : Z) : Z :=
  match str with
  | Some s => if 0 <? maxlen then Z.min (strlen s) maxlen else 0
  | None => 0
  end.

Section copy.
Implicit Types dest src : option (list Z).

(** Overwrite the memory from an offset on. *)
Definition write (d : list Z) (at_ : Z) (bytes : list Z) : list Z := list_inserts (Z.to_nat at_) bytes d.

(** What remains to do without a source: end the destination here. *)
Definition terminate dest : option Z * option (list Z) :=
  match dest with None => (None, None) | Some d => (Some 0, Some (write d 0 [0])) end.

Definition nr_strxcpy dest src (len : Z) : option Z * option (list Z) :=
  match dest, src with
  | Some d, Some s =>
      if 0 <? len then (Some len, Some (write d 0 (take (Z.to_nat len) s ++ [0]))) else terminate dest
  | _, _ => terminate dest
  end.

Definition nr_strcpy dest src : option Z * option (list Z) :=
  match dest, src with
  | Some d, Some s => (Some (strlen s), Some (write d 0 (cstr s ++ [0])))
  | _, _ => terminate dest
  end.

Definition nr_strlcpy dest src (len : Z) : option Z * option (list Z) :=
  if len <=? 0 then (None, dest)
  else match dest, src with
       | Some d, Some s =>
           let slen := if len <=? strlen s then len - 1 else strlen s in
           (Some slen, Some (write d 0 (take (Z.to_nat slen) (cstr s) ++ [0])))
       | _, _ => terminate dest
       end.

Definition nr_strcat dest src : option Z * option (list Z) :=
  match dest, src with
  | Some d, Some s => (Some (strlen d + strlen s), Some (write d (strlen d) (cstr s ++ [0])))
  | Some d, None => (Some (strlen d), dest)
  | None, _ => (None, None)
  end.

Definition nr_strncat dest src (len : Z) : option Z * option (list Z) :=
  match dest with
  | None => (None, None)
  | Some d =>
      match src with
      | Some s =>
          if 0 <? len then
            let sl := if len <? strlen s then len else strlen s in
            (Some (strlen d + sl), Some (write d (strlen d) (take (Z.to_nat sl) (cstr s) ++ [0])))
          else (Some (strlen d), dest)
      | None => (Some (strlen d), dest)
      end
  end.
End copy.

(** The text of an [int]; the magnitude is computed in an [unsigned]. *)
Definition int_text (x : Z) : list Z :=
  if 0 <=? x then decimal x else 45 :: decimal (u32 (- x)).

Definition nr_itoa (buf : option (list Z)) (len x : Z) : option (list Z) :=
  (nr_strlcpy buf (Some (int_text x)) len).2.

(** ** Searching *)

(** The test of the case-insensitive searches at [i]. *)
Definition case_match (str needle : list Z) (needle_len i : Z) : bool :=
  (nr_tolower (char_at needle 0) =? nr_tolower (char_at str i)) &&
  (strncasecmp (drop (Z.to_nat i) str) needle needle_len =? 0).

(** The test of [nr_strnidx_impl]. *)
Definition exact_match (str needle : list Z) (nlen i : Z) : bool :=
  (char_at needle 0 =? char_at str i) &&
  (nr_strncmp (Some (drop (Z.to_nat (i + 1)) str)) (Some (drop 1 needle)) (nlen - 1) =? 0).

(** [n] steps upwards, which the end of the string stops. *)
Fixpoint forward_loop (n : nat) (test : Z → bool) (str : list Z) (i : Z) : Z :=
  match n with
  | O => -1
  | S n =>
      if char_at str i =? 0 then -1
      else if test i then i
      else forward_loop n test str (i + 1)
  end.

Fixpoint backward_loop (n : nat) (test : Z → bool) (i : Z) : Z :=
  match n with
  | O => -1
  | S n => if i <? 0 then -1 else if test i then i else backward_loop n test (i - 1)
  end.

Definition nr_stridx (str needle : option (list Z)) : Z :=
  match str, needle with
  | Some s, Some n => default (-1) (strstr s n)
  | _, _ => -1
  end.

Definition nr_strcaseidx (str needle : option (list Z)) : Z :=
  match str, needle with
  | Some s, Some n =>
      let needle_len := strlen n in
      if needle_len =? 0 then 0
      else forward_loop (S (length s)) (case_match s n needle_len) s 0
  | _, _ => -1
  end.

Definition nr_strncaseidx (str needle : option (list Z)) (len : Z) : Z :=
  match str, needle with
  | Some s, Some n =>
      let needle_len := strlen n in
      if (len <=? 0) || (needle_len =? 0) || (len <? needle_len) then -1
      else forward_loop (Z.to_nat (len - needle_len + 1)) (case_match s n needle_len) s 0
  | _, _ => -1
  end.

Definition nr_strncaseidx_last_match (str needle : option (list Z)) (len : Z) : Z :=
  match str, needle with
  | Some s, Some n =>
      if len <=? 0 then -1
      else
        let len := strlen (take (Z.to_nat len) s) in
        let needle_len := strlen n in
        if (needle_len =? 0) || (len <? needle_len) then -1
        else backward_loop (Z.to_nat (len - needle_len + 1)) (case_match s n needle_len) (len - needle_len)
  | _, _ => -1
  end.

Definition nr_strnidx_impl (str needle : option (list Z)) (str_len : Z) : Z :=
  match str with
  | None => -1
  | Some s =>
      let nlen := nr_strlen needle in
      if nlen =? 0 then 0
      else forward_loop (Z.to_nat (str_len - nlen + 1)) (exact_match s (default [] needle) nlen) s 0
  end.

Definition nr_strnidx (str needle : option (list Z)) (str_len : Z) : Z :=
  match str, needle with
  | Some _, Some _ => if 0 <=? str_len then nr_strnidx_impl str needle str_len else -1
  | _, _ => -1
  end.

(** The spans of memory of given lengths. *)
Fixpoint span_loop (n : nat) (test : Z → bool) (s1 : list Z) (wp : Z) : Z :=
  match n with
  | O => wp
  | S n => if test (char_at s1 wp) then span_loop n test s1 (wp + 1) else wp
  end.

Definition among (s2 : list Z) (s2len c : Z) : bool :=
  existsb (λ i, char_at s2 i =? c) (seqZ 0 s2len).

Definition nr_strnspn (s1 : option (list Z)) (s1len : Z) (s2 : option (list Z)) (s2len : Z) : Z :=
  match s1, s2 with
  | Some a, Some b =>
      if (s1len <=? 0) || (s2len <=? 0) then 0
      else span_loop (Z.to_nat s1len) (among b s2len) a 0
  | _, _ => 0
  end.

Definition nr_strncspn (s1 : option (list Z)) (s1len : Z) (s2 : option (list Z)) (s2len : Z) : Z :=
  match s1, s2 with
  | Some a, Some b =>
      if (s1len <=? 0) || (s2len <=? 0) then 0
      else span_loop (Z.to_nat s1len) (λ c, negb (among b s2len c)) a 0
  | _, _ => 0
  end.

(** ** Facts on the comparisons *)
Lemma nr_tolower_char c : 0 < c < 256 → 0 < nr_tolower c < 256.
Proof.
  intros Hc. pose proof (byte_cases (λ c, (0 <? nr_tolower c) && (nr_tolower c <? 256)) 1 255 eq_refl c ltac:(lia)) as H.
  cbv beta in H. apply andb_true_iff in H as [? ?]. lia.
Qed.

Lemma lower_is_cstr s : is_cstr s → is_cstr (nr_tolower <$> s).
Proof. intros Hs. unfold is_cstr. rewrite Forall_fmap. eapply Forall_impl; [exact Hs|]. intros c. apply nr_tolower_char. Qed.

Lemma is_cstr_take n s : is_cstr s → is_cstr (take n s).
Proof. apply Forall_take. Qed.
Lemma is_cstr_drop n s : is_cstr s → is_cstr (drop n s).
Proof. apply Forall_drop. Qed.
#[export] Hint Resolve lower_is_cstr is_cstr_take is_cstr_drop : nr.

Lemma strlen_id s : is_cstr s → strlen s = Z.of_nat (length s).
Proof. intros. unfold strlen. by rewrite cstr_id. Qed.

Lemma char_at_lookup s i : is_cstr s → (i < length s)%nat → 0 < char_at s (Z.of_nat i).
Proof.
  intros Hs Hi. unfold char_at. rewrite Nat2Z.id. destruct (lookup_lt_is_Some_2 s i Hi) as [c Hc].
  rewrite Hc. by destruct (Forall_lookup_1 _ _ _ _ Hs Hc).
Qed.

Lemma char_at_end s i : (length s ≤ i)%nat → char_at s (Z.of_nat i) = 0.
Proof. intros. unfold char_at. by rewrite Nat2Z.id, lookup_ge_None_2. Qed.

Lemma take_prefix {A} (needle s : list A) : take (length needle) s = needle ↔ needle `prefix_of` s.
Proof.
  split; [intros <-; exists (drop (length needle) s); by rewrite take_drop|].
  intros [k ->]. apply take_app_length.
Qed.

(** Comparing as many characters as a string has is testing for a prefix. *)
Lemma strncmp_prefix needle s : is_cstr needle → is_cstr s →
  strncmp s needle (Z.of_nat (length needle)) = 0 ↔ needle `prefix_of` s.
Proof.
  intros Hn Hs. unfold strncmp. rewrite Nat2Z.id, (take_ge needle) by done.
  rewrite strcmp_eq by eauto with nr. apply take_prefix.
Qed.

Lemma strncasecmp_prefix needle s : is_cstr needle → is_cstr s →
  strncasecmp s needle (Z.of_nat (length needle)) = 0 ↔
  (nr_tolower <$> needle) `prefix_of` (nr_tolower <$> s).
Proof.
  intros Hn Hs. unfold strncasecmp, strcasecmp. rewrite Nat2Z.id, (take_ge needle) by done.
  rewrite strcmp_eq, fmap_take by eauto with nr. rewrite <-(length_fmap nr_tolower needle). apply take_prefix.
Qed.

(** ** The searches against a reference

    [needle] occurs in [str] at [i], up to a folding of the characters. *)
Definition occurs (fold : Z → Z) (needle str : list Z) (i : nat) : bool :=
  bool_decide ((fold <$> needle) `prefix_of` (fold <$> drop i str)).

(** The first and the last of the numbers below [n] that pass a test, or -1. *)
Definition first_such (m : nat → bool) (n : nat) : Z := from_option Z.of_nat (-1) (find m (seq 0 n)).
Definition last_such (m : nat → bool) (n : nat) : Z := from_option Z.of_nat (-1) (find m (reverse (seq 0 n))).

Lemma find_none {A} (m : A → bool) l : (∀ x, x ∈ l → m x = false) → find m l = None.
Proof.
  induction l as [|x l IH]; intros Hm; [done|]. simpl. rewrite Hm by left. apply IH. intros. apply Hm. by right.
Qed.

Lemma find_seqZ (test : Z → bool) (m : nat → bool) n : (∀ i, (i < n)%nat → test (Z.of_nat i) = m i) →
  find test (seqZ 0 (Z.of_nat n)) = Z.of_nat <$> find m (seq 0 n).
Proof.
  unfold seqZ. rewrite Nat2Z.id. intros Hm.
  assert (∀ l, (∀ i, i ∈ l → test (Z.of_nat i) = m i) →
    find test ((λ i, Z.of_nat i + 0) <$> l) = Z.of_nat <$> find m l) as Hl.
  { induction l as [|i l IH]; intros Hl; [done|]. simpl. rewrite Z.add_0_r, Hl by left.
    destruct (m i); [done|]. apply IH. intros. apply Hl. by right. }
  apply Hl. intros i Hi%elem_of_seq. apply Hm. lia.
Qed.

Lemma forward_first n test str m k : is_cstr str →
  (∀ i, (i < length str)%nat → test (Z.of_nat i) = m i) → (∀ i, (length str ≤ i)%nat → m i = false) →
  forward_loop n test str (Z.of_nat k) = from_option Z.of_nat (-1) (find m (seq k n)).
Proof.
  intros Hs Hm Hend. revert k. induction n as [|n IH]; intros k; [done|]. cbn [forward_loop].
  destruct (decide (k < length str)%nat) as [Hk|Hk].
  - pose proof (char_at_lookup str k Hs Hk). destruct (Z.eqb_spec (char_at str (Z.of_nat k)) 0); [lia|].
    simpl. rewrite Hm by done. destruct (m k); [done|]. rewrite <-IH. f_equal. lia.
  - rewrite char_at_end by lia. rewrite find_none; [done|]. intros i Hi%elem_of_seq. apply Hend. lia.
Qed.

Lemma backward_last n test m : (∀ i, (i < n)%nat → test (Z.of_nat i) = m i) →
  backward_loop n test (Z.of_nat n - 1) = last_such m n.
Proof.
  induction n as [|n IH]; intros Hm; [done|]. cbn [backward_loop]. unfold last_such.
  rewrite seq_S, reverse_snoc. replace (Z.of_nat (S n) - 1) with (Z.of_nat n) by lia.
  destruct (Z.ltb_spec (Z.of_nat n) 0); [lia|]. simpl. rewrite Hm by lia. destruct (m n); [done|].
  apply IH. intros. apply Hm. lia.
Qed.

Lemma occurs_inside fold needle str i : needle ≠ [] → occurs fold needle str i = true → (i < length str)%nat.
Proof.
  intros Hn [k Hk]%bool_decide_eq_true. apply (f_equal length) in Hk.
  rewrite length_app, !length_fmap, length_drop in Hk. destruct needle; [done|]. simpl in Hk. lia.
Qed.

Lemma occurs_outside fold needle str i : needle ≠ [] → (length str ≤ i)%nat → occurs fold needle str i = false.
Proof. intros Hn Hi. destruct (occurs _ _ _ i) eqn:E; [|done]. apply occurs_inside in E; [lia|done]. Qed.

Lemma eqb_decide (a b : Z) (P : Prop) `{Decision P} : (a = b ↔ P) → (a =? b) = bool_decide P.
Proof. intros Hab. destruct (Z.eqb_spec a b), (bool_decide_reflect P); tauto. Qed.

(** The needle's first character is tested twice. *)
Lemma case_match_occurs str needle i : is_cstr str → is_cstr needle → needle ≠ [] →
  case_match str needle (strlen needle) (Z.of_nat i) = occurs nr_tolower needle str i.
Proof.
  intros Hs Hn Hne. unfold case_match, occurs. rewrite strlen_id, Nat2Z.id by done.
  rewrite (eqb_decide (strncasecmp _ _ _) 0 _ (strncasecmp_prefix needle (drop i str) Hn (is_cstr_drop i str Hs))).
  destruct (bool_decide_reflect ((nr_tolower <$> needle) `prefix_of` (nr_tolower <$> drop i str))) as [Hp|]; [|apply andb_false_r].
  rewrite andb_true_r. apply Z.eqb_eq. destruct needle as [|c needle]; [done|]. destruct Hp as [k Hk].
  unfold char_at at 2. rewrite Nat2Z.id, <-(Nat.add_0_r i), <-lookup_drop.
  destruct (drop i str) as [|x l]; [done|]. injection Hk as Hk _. exact (eq_sym Hk).
Qed.

Lemma exact_match_occurs str needle i : is_cstr str → is_cstr needle → needle ≠ [] → (i < length str)%nat →
  exact_match str needle (strlen needle) (Z.of_nat i) = occurs id needle str i.
Proof.
  intros Hs Hn Hne Hi. destruct needle as [|c needle]; [done|]. unfold exact_match, occurs.
  rewrite strlen_id by done. rewrite !list_fmap_id. apply Forall_cons in Hn as [Hc Hn].
  destruct (lookup_lt_is_Some_2 str i Hi) as [x Hx]. rewrite (drop_S _ _ _ Hx).
  unfold char_at at 2. rewrite Nat2Z.id, Hx. change (char_at (c :: needle) 0) with c. change (drop 1 (c :: needle)) with needle.
  replace (Z.to_nat (Z.of_nat i + 1)) with (S i) by lia. cbn [length default from_option id].
  replace (Z.of_nat (S (length needle)) - 1) with (Z.of_nat (length needle)) by lia.
  assert ((nr_strncmp (Some (drop (S i) str)) (Some needle) (Z.of_nat (length needle)) =? 0) =
          bool_decide (needle `prefix_of` drop (S i) str)) as ->.
  { apply eqb_decide. simpl. destruct (Z.ltb_spec 0 (Z.of_nat (length needle))).
    - by apply strncmp_prefix; eauto with nr.
    - destruct needle; [|simpl in *; lia]. split; [intros _; apply prefix_nil|done]. }
  destruct (Z.eqb_spec c x) as [->|Hcx]; symmetry.
  - apply bool_decide_ext. split; [apply prefix_cons_inv_2|apply prefix_cons].
  - apply bool_decide_eq_false. intros Hp%prefix_cons_inv_1. done.
Qed.

(** the searches are what they say. For a string and a non-empty needle,
    each search function returns the first place (the last one for [nr_strncaseidx_last_match]) where
    the needle occurs, up to case where it ignores case, among the places from which the needle
    ends within the length given, and -1 when there is none: first characters compared apart,
    lengths longer than the string, negative lengths and needles longer than the string included. *)
Theorem nr_string_searches (str needle : list Z) (len : Z) :
  is_cstr str → is_cstr needle → needle ≠ [] →
  let room := Z.to_nat (len - Z.of_nat (length needle) + 1) in
  nr_stridx (Some str) (Some needle) = first_such (occurs id needle str) (S (length str)) ∧
  nr_strnidx (Some str) (Some needle) len = first_such (occurs id needle str) room ∧
  nr_strcaseidx (Some str) (Some needle) = first_such (occurs nr_tolower needle str) (S (length str)) ∧
  nr_strncaseidx (Some str) (Some needle) len = first_such (occurs nr_tolower needle str) room ∧
  nr_strncaseidx_last_match (Some str) (Some needle) len =
    last_such (occurs nr_tolower needle str)
      (Z.to_nat (Z.min len (Z.of_nat (length str)) - Z.of_nat (length needle) + 1)).
Proof.
  intros Hs Hn Hne room. assert (0 < strlen needle) as Hl.
  { rewrite strlen_id by done. destruct needle; [done|simpl; lia]. }
  assert (∀ n, forward_loop n (case_match str needle (strlen needle)) str 0 =
    first_such (occurs nr_tolower needle str) n) as Hcase.
  { intros n. apply (forward_first n _ str _ 0); [done|intros; by apply case_match_occurs|].
    intros. by apply occurs_outside. }
  assert (∀ n, forward_loop n (exact_match str needle (strlen needle)) str 0 =
    first_such (occurs id needle str) n) as Hexact.
  { intros n. apply (forward_first n _ str _ 0); [done|intros; by apply exact_match_occurs|].
    intros. by apply occurs_outside. }
  split_and!.
  - unfold nr_stridx, strstr, first_offset, first_such. rewrite (strlen_id str) by done.
    replace (Z.of_nat (length str) + 1) with (Z.of_nat (S (length str))) by lia.
    rewrite (find_seqZ _ (occurs id needle str)); [by destruct (find _ _)|]. intros i _. unfold occurs.
    rewrite !list_fmap_id, Nat2Z.id, strlen_id by done. apply eqb_decide, strncmp_prefix; eauto with nr.
  - unfold nr_strnidx, nr_strnidx_impl, nr_strlen. fold (strlen needle). cbn [default from_option id].
    destruct (Z.eqb_spec (strlen needle) 0); [lia|]. rewrite Hexact, strlen_id by done. fold room.
    destruct (Z.leb_spec 0 len); [done|]. replace room with O; [done|]. subst room. lia.
  - unfold nr_strcaseidx. destruct (Z.eqb_spec (strlen needle) 0); [lia|]. apply Hcase.
  - unfold nr_strncaseidx. destruct (Z.eqb_spec (strlen needle) 0); [lia|]. rewrite Hcase, strlen_id by done. fold room.
    rewrite strlen_id in Hl by done.
    destruct (Z.leb_spec len 0), (Z.ltb_spec len (Z.of_nat (length needle))); try done;
      (replace room with O; [done|subst room; lia]).
  - unfold nr_strncaseidx_last_match. rewrite (strlen_id (take _ _)) by eauto with nr. rewrite length_take.
    destruct (Z.eqb_spec (strlen needle) 0); [lia|]. rewrite strlen_id in * by done.
    set (r := Z.to_nat (Z.min len (Z.of_nat (length str)) - Z.of_nat (length needle) + 1)).
    destruct (Z.leb_spec len 0); [by replace r with O by lia|].
    destruct (Z.ltb_spec (Z.of_nat (Z.to_nat len `min` length str)) (Z.of_nat (length needle))).
    { by replace r with O by lia. }
    cbn [orb]. replace (Z.to_nat (Z.of_nat (Z.to_nat len `min` length str) - Z.of_nat (length needle) + 1)) with r by lia.
    replace (Z.of_nat (Z.to_nat len `min` length str) - Z.of_nat (length needle)) with (Z.of_nat r - 1) by lia.
    apply backward_last. intros i Hi. rewrite <-strlen_id by done. by apply case_match_occurs.
Qed.

(** "ab" in "xABab", in its first four characters and in all five. *)
Lemma nr_string_searches_witness :
  nr_strncaseidx (Some [120; 65; 66; 97; 98]) (Some [97; 98]) 4 = 1 ∧
  nr_strncaseidx_last_match (Some [120; 65; 66; 97; 98]) (Some [97; 98]) 9 = 3 ∧
  nr_strnidx (Some [120; 65; 66; 97; 98]) (Some [97; 98]) 4 = -1.
Proof.
  pose proof (nr_string_searches [120; 65; 66; 97; 98] [97; 98]) as Hw.
  split_and!.
  - destruct (Hw 4) as (_ & _ & _ & -> & _); [by repeat constructor..|done|]. vm_compute. reflexivity.
  - destruct (Hw 9) as (_ & _ & _ & _ & ->); [by repeat constructor..|done|]. vm_compute. reflexivity.
  - destruct (Hw 4) as (_ & -> & _); [by repeat constructor..|done|]. vm_compute. reflexivity.
Defined.

(** ** Copies stay in their destination *)
Lemma write_at (d bytes : list Z) (o : Z) : 0 ≤ o → o + Z.of_nat (length bytes) ≤ Z.of_nat (length d) →
  write d o bytes = take (Z.to_nat o) d ++ bytes ++ drop (Z.to_nat o + length bytes) d.
Proof. intros. unfold write. apply inserts_app; lia. Qed.

Lemma take_cstr s : take (length (cstr s)) s = cstr s.
Proof. induction s as [|c s IH]; [done|]. simpl. destruct (c =? 0); [done|]. simpl. by rewrite IH. Qed.

(** A string written behind a string: what the memory then holds. *)
Lemma write_string (d s : list Z) (o : nat) : is_cstr s → is_cstr (take o d) → (o + length s < length d)%nat →
  let d' := write d (Z.of_nat o) (s ++ [0]) in
  cstr d' = take o d ++ s ∧ length d' = length d ∧
  drop (o + S (length s)) d' = drop (o + S (length s)) d.
Proof.
  intros Hs Ho Hl d'. assert (length (s ++ [0]) = S (length s)) as Hl' by (rewrite length_app; simpl; lia).
  assert (d' = (take o d ++ s) ++ 0 :: drop (o + S (length s)) d) as ->.
  { subst d'. rewrite write_at by lia. rewrite Nat2Z.id, Hl', <-!app_assoc. done. }
  assert (length (take o d ++ s) = o + length s)%nat as Hls by (rewrite length_app, length_take; lia).
  split_and!.
  - apply cstr_app, Forall_app. by split.
  - rewrite length_app. cbn [length]. rewrite length_drop, Hls. lia.
  - replace (o + S (length s))%nat with (length (take o d ++ s) + 1)%nat at 1 by lia. by rewrite drop_app_add.
Qed.

Lemma strlcpy_writes (d src : list Z) (len : Z) : is_cstr src → 0 < len →
  nr_strlcpy (Some d) (Some src) len =
    (Some (Z.of_nat (length (take (Z.to_nat (len - 1)) src))),
     Some (write d 0 (take (Z.to_nat (len - 1)) src ++ [0]))).
Proof.
  intros Hs Hlen. unfold nr_strlcpy. destruct (Z.leb_spec len 0); [lia|]. rewrite cstr_id, strlen_id by done.
  rewrite length_take. destruct (Z.leb_spec len (Z.of_nat (length src))).
  - repeat f_equal. lia.
  - rewrite !take_ge by lia. repeat f_equal. lia.
Qed.

(** [nr_strlcpy] and [nr_strncat] write what fits and nothing else. With
    [len] bytes of the destination to write to, [nr_strlcpy] leaves the longest prefix of the source
    that fits in front of a terminator, returns the offset of that terminator, and changes no byte behind it;
    [nr_strncat] appends at most [len] characters to the string in the destination in the same way. *)
Theorem nr_str_copies_bounded (d src : list Z) (len : Z) :
  Forall is_byte d → is_cstr src → 0 < len →
  (len ≤ Z.of_nat (length d) →
    let copied := take (Z.to_nat (len - 1)) src in
    ∃ d', nr_strlcpy (Some d) (Some src) len = (Some (Z.of_nat (length copied)), Some d') ∧
      Z.of_nat (length copied) < len ∧ cstr d' = copied ∧ length d' = length d ∧
      drop (S (length copied)) d' = drop (S (length copied)) d) ∧
  (strlen d + Z.min len (strlen src) < Z.of_nat (length d) →
    let copied := take (Z.to_nat len) src in
    ∃ d', nr_strncat (Some d) (Some src) len = (Some (strlen d + Z.of_nat (length copied)), Some d') ∧
      cstr d' = cstr d ++ copied ∧ length d' = length d ∧
      drop (length (cstr d) + S (length copied)) d' = drop (length (cstr d) + S (length copied)) d).
Proof.
  intros Hd Hs Hlen. split; intros Hroom copied.
  - rewrite strlcpy_writes by done. fold copied.
    assert (Z.of_nat (length copied) < len) by (subst copied; rewrite length_take; lia).
    destruct (write_string d copied 0) as (Hd1 & Hd2 & Hd3); [subst copied; eauto with nr|constructor|lia|].
    eexists. split; [done|]. split_and!; [lia|exact Hd1|exact Hd2|exact Hd3].
  - unfold nr_strncat. destruct (Z.ltb_spec 0 len); [|lia]. rewrite (cstr_id src) by done.
    rewrite (strlen_id src) in * by done. set (sl := if len <? _ then _ else _).
    assert (take (Z.to_nat sl) src = copied ∧ sl = Z.of_nat (length copied)) as (-> & ->).
    { subst sl copied. rewrite length_take. destruct (Z.ltb_spec len (Z.of_nat (length src))); split; try lia; [done|].
      rewrite !take_ge by lia. done. }
    assert (Z.of_nat (length copied) ≤ Z.min len (Z.of_nat (length src))) by (subst copied; rewrite length_take; lia).
    unfold strlen in *. destruct (write_string d copied (length (cstr d))) as (Hd1 & Hd2 & Hd3);
      [subst copied; eauto with nr|rewrite take_cstr; by apply cstr_is_cstr|lia|].
    eexists. split; [done|]. rewrite take_cstr in Hd1. by split_and!.
Qed.

Lemma nr_str_copies_bounded_witness :
  ∃ d', nr_strlcpy (Some [9; 9; 9; 9; 9]) (Some [97; 98; 99; 100]) 3 = (Some 2, Some d') ∧ cstr d' = [97; 98].
Proof.
  destruct (nr_str_copies_bounded [9; 9; 9; 9; 9] [97; 98; 99; 100] 3) as [Hw _]; [by repeat constructor..|].
  destruct (Hw ltac:(done)) as (d' & E & _ & Hc & _). by exists d'.
Defined.

(** [nr_itoa] writes a text that reads back as the number. *)
Definition of_int_text (s : list Z) : Z :=
  match s with [] => 0 | c :: t => if c =? 45 then - of_decimal t else of_decimal s end.

Lemma nr_itoa_reads_back (d : list Z) (x : Z) :
  Forall is_byte d → - 2 ^ 31 ≤ x < 2 ^ 31 → (24 ≤ length d)%nat →
  ∃ d', nr_itoa (Some d) 24 x = Some d' ∧ of_int_text (cstr d') = x.
Proof.
  intros Hd Hx Hlen. unfold nr_itoa.
  assert (is_cstr (int_text x) ∧ (length (int_text x) ≤ 21)%nat ∧ of_int_text (int_text x) = x) as (Hc & Hl & Ho).
  { unfold int_text. destruct (Z.leb_spec 0 x).
    - destruct (decimal_spec x ltac:(lia)) as (Hl & Hd' & Ho). split_and!; [|lia|].
      + eapply Forall_impl; [exact Hd'|]. simpl. lia.
      + destruct (decimal x) as [|c l]; [exact Ho|]. apply Forall_cons in Hd' as [Hc _].
        unfold of_int_text. by destruct (Z.eqb_spec c 45); [lia|].
    - rewrite u32_small by lia. destruct (decimal_spec (- x) ltac:(lia)) as (Hl & Hd' & Ho). split_and!.
      + constructor; [lia|]. eapply Forall_impl; [exact Hd'|]. simpl. lia.
      + simpl. lia.
      + simpl. lia. }
  unfold nr_strlcpy. simpl (24 <=? 0). cbv iota. rewrite cstr_id, strlen_id by done.
  destruct (Z.leb_spec 24 (Z.of_nat (length (int_text x)))); [lia|].
  rewrite Nat2Z.id, take_ge by done. eexists. split; [done|].
  destruct (write_string d (int_text x) 0) as (E & _); [done|constructor|lia|].
  exact (eq_trans (f_equal of_int_text E) Ho).
Qed.
