(* ===== verification/Hash.v ===== *)
(** * Hash: MurmurHash3 (src/axiom/util_hash.c)

    32-bit arithmetic; the four-byte reads are those of a little-endian
    machine. *)

From S2P Require Import Prelude CString.
Local Open Scope Z_scope.

Definition c1 : Z := 0xcc9e2d51.
Definition c2 : Z := 0x1b873593.
Definition seed : Z := 0x290848ab.

Definition rotl32 (x r : Z) : Z :=
  Z.lor (u32 (Z.shiftl x r)) (Z.shiftr x (32 - r)).

(** A [uint32_t] read from memory. *)
Definition read_uint32 (b : list Z) (i : Z) : Z :=
  Z.lor (char_at b i)
    (Z.lor (Z.shiftl (char_at b (i + 1)) 8)
      (Z.lor (Z.shiftl (char_at b (i + 2)) 16) (Z.shiftl (char_at b (i + 3)) 24))).

Definition scramble (k : Z) : Z := u32 (rotl32 (u32 (k * c1)) 15 * c2).

Definition mix_block (hash k : Z) : Z :=
  u32 (rotl32 (Z.lxor hash (scramble k)) 13 * 5 + 0xe6546b64).

Definition mix_blocks (str : list Z) (num_blocks : Z) (hash : Z) : Z :=
  foldl (λ hash i, mix_block hash (read_uint32 str (4 * i))) hash (seqZ 0 num_blocks).

(** The fall-through [switch] on the last one to three bytes. *)
Definition mix_tail (str : list Z) (start rest hash : Z) : Z :=
  let k1 := 0 in
  let k1 := if rest =? 3 then Z.lxor k1 (Z.shiftl (char_at str (start + 2)) 16) else k1 in
  let k1 := if 2 <=? rest then Z.lxor k1 (Z.shiftl (char_at str (start + 1)) 8) else k1 in
  if 1 <=? rest then Z.lxor hash (scramble (Z.lxor k1 (char_at str start))) else hash.

Definition mix_final (hash str_len : Z) : Z :=
  let hash := Z.lxor hash (u32 str_len) in
  let hash := Z.lxor hash (Z.shiftr hash 16) in
  let hash := u32 (hash * 0x85ebca6b) in
  let hash := Z.lxor hash (Z.shiftr hash 13) in
  let hash := u32 (hash * 0xc2b2ae35) in
  Z.lxor hash (Z.shiftr hash 16).

(** [len] is the in-out parameter, [None] when the pointer is [NULL]; lengths
    are not negative. *)
Definition nr_mkhash (str : option (list Z)) (len : option Z) : Z * option Z :=
  match str with
  | None => (0, (λ _, 0) <$> len)
  | Some s =>
      if char_at s 0 =? 0 then (0, (λ _, 0) <$> len)
      else
        let str_len := match len with
                       | None | Some 0 => nr_strlen str
                       | Some l => l
                       end in
        let num_blocks := str_len / 4 in
        let hash := mix_blocks s num_blocks seed in
        let hash := mix_tail s (num_blocks * 4) (Z.land str_len 3) hash in
        (mix_final hash str_len, (λ _, str_len) <$> len)
  end.

(** The last four bytes of an MD5 digest, most significant first. *)
Definition nr_hash_md5_low32 (md5 : option (list Z)) : Z :=
  match md5 with
  | None => 0
  | Some d => Z.lor (Z.shiftl (char_at d 12) 24)
      (Z.lor (Z.shiftl (char_at d 13) 16) (Z.lor (Z.shiftl (char_at d 14) 8) (char_at d 15)))
  end.

Lemma shiftr_range x r : 0 ≤ x < 2 ^ 32 → 0 ≤ r → 0 ≤ Z.shiftr x r < 2 ^ 32.
Proof.
  intros. rewrite Z.shiftr_div_pow2 by done.
  assert (0 < 2 ^ r) by lia. split; [by apply Z.div_pos; lia|].
  apply Z.div_lt_upper_bound; nia.
Qed.

Lemma lxor_range x y n : 0 ≤ n → 0 ≤ x < 2 ^ n → 0 ≤ y < 2 ^ n → 0 ≤ Z.lxor x y < 2 ^ n.
Proof.
  intros Hn Hx Hy. assert (0 ≤ Z.lxor x y) by (apply Z.lxor_nonneg; lia).
  split; [done|]. destruct (decide (Z.lxor x y = 0)) as [->|]; [lia|].
  apply Z.log2_lt_pow2; [lia|]. pose proof (Z.log2_lxor x y ltac:(lia) ltac:(lia)).
  destruct (decide (x = 0)) as [->|]; destruct (decide (y = 0)) as [->|];
    rewrite ?Z.lxor_0_l, ?Z.lxor_0_r in *; try lia;
    repeat match goal with
    | Hp : 0 ≤ ?z < 2 ^ n, Hz : ?z ≠ 0 |- _ =>
        lazymatch goal with
        | _ : Z.log2 z < n |- _ => fail
        | _ => assert (Z.log2 z < n) by (apply Z.log2_lt_pow2; lia)
        end
    end; lia.
Qed.

Lemma mix_final_range hash l : 0 ≤ mix_final hash l < 2 ^ 32.
Proof.
  unfold mix_final. apply lxor_range; [lia|auto with nr|].
  apply shiftr_range; [auto with nr|lia].
Qed.

Lemma nr_mkhash_range str len : 0 ≤ (nr_mkhash str len).1 < 2 ^ 32.
Proof.
  unfold nr_mkhash. destruct str as [s|]; [|simpl; lia].
  destruct (_ =? 0); [simpl; lia|]. apply mix_final_range.
Qed.
