(* ===== verification/HashMap.v ===== *)
(** * HashMap: the chained hash table (src/axiom/util_hashmap.c)

    The buckets are nodes of doubly linked lists in a shared store, from the
    address of a node to its contents; the table holds the address of the first
    node of each list.  Keys are binary blocks with their length. *)

From stdpp Require Import fin_maps fin_sets.
From S2P Require Import Prelude Memory Vector CString Hash.
Local Open Scope Z_scope.

(** ** State *)
Abbreviation address := positive.

Record nr_hashmap_bucket_t (V : Type) := Bucket {
  prev : option address;
  next : option address;
  key : list Z;
  value : V;
}.
Arguments Bucket {V} _ _ _ _.
Arguments prev {V} _.
Arguments next {V} _.
Arguments key {V} _.
Arguments value {V} _.

(** [dtor_func] says whether a destructor is set; what an operation hands to
    it is part of its result. *)
Record nr_hashmap_t (V : Type) := HashMap {
  dtor_func : bool;
  log2_num_buckets : Z;
  buckets : list (option address);
  elements : Z;
  store : gmap address (nr_hashmap_bucket_t V);
}.
Arguments HashMap {V} _ _ _ _ _.
Arguments dtor_func {V} _.
Arguments log2_num_buckets {V} _.
Arguments buckets {V} _.
Arguments elements {V} _.
Arguments store {V} _.

Definition nr_hashmap_hash_key (log2 : Z) (k : list Z) : Z :=
  Z.land (nr_mkhash (Some k) (Some (Z.of_nat (length k)))).1 (Z.shiftl 1 log2 - 1).

Section hashmap.
Context {V : Type} `{Pointer V}.
Implicit Types (hm : nr_hashmap_t V) (ohm : option (nr_hashmap_t V)) (k : list Z) (v : V)
  (p : address) (st : gmap address (nr_hashmap_bucket_t V)) (b : nr_hashmap_bucket_t V).

Definition bucket_head hm (hash : Z) : option address := mjoin (buckets hm !! Z.to_nat hash).

Definition set_store hm st : nr_hashmap_t V :=
  HashMap (dtor_func hm) (log2_num_buckets hm) (buckets hm) (elements hm) st.
Definition set_head hm (hash : Z) (op : option address) : nr_hashmap_t V :=
  HashMap (dtor_func hm) (log2_num_buckets hm) (<[Z.to_nat hash := op]> (buckets hm))
    (elements hm) (store hm).
Definition set_elements hm (n : Z) : nr_hashmap_t V :=
  HashMap (dtor_func hm) (log2_num_buckets hm) (buckets hm) n (store hm).

Definition set_prev (op : option address) b := Bucket op (next b) (key b) (value b).
Definition set_next (op : option address) b := Bucket (prev b) op (key b) (value b).
Definition set_value v b := Bucket (prev b) (next b) (key b) v.

(** Writing through a pointer that may be [NULL] (guarded in the code). *)
Definition update_at (op : option address) (f : nr_hashmap_bucket_t V → nr_hashmap_bucket_t V) st :=
  match op with None => st | Some p => alter f p st end.

(** ** Creation *)
Definition nr_hashmap_create_internal (log2 : Z) (d : bool) : nr_hashmap_t V :=
  let log2 := if log2 =? 0 then 8 else if 24 <? log2 then 24 else log2 in
  HashMap d log2 (nr_calloc (Z.shiftl 1 log2)) 0 ∅.

Definition nr_hashmap_create (d : bool) := nr_hashmap_create_internal 0 d.

(** [1 << actual_buckets] is computed in [int] and then converted to [size_t]:
    at 31 it is [INT_MIN], which converts to more than any request below
    2^64 - 2^31. *)
Fixpoint buckets_loop (fuel : nat) (actual_buckets requested : Z) : Z :=
  match fuel with
  | O => actual_buckets
  | S fuel =>
      let n := if actual_buckets =? 31 then u64 (- 2 ^ 31) else Z.shiftl 1 actual_buckets in
      if n <? requested then buckets_loop fuel (actual_buckets + 1) requested
      else actual_buckets
  end.

Definition nr_hashmap_create_buckets (n : Z) (d : bool) : nr_hashmap_t V :=
  nr_hashmap_create_internal (if n =? 0 then 0 else buckets_loop 31 1 n) d.

(** ** Lookup *)
Fixpoint fetch_loop (fuel : nat) st (op : option address) k : option address :=
  match fuel, op with
  | S fuel, Some p =>
      match st !! p with
      | Some b =>
          if (Z.of_nat (length k) =? Z.of_nat (length (key b))) && (nr_memcmp k (key b) =? 0)
          then Some p else fetch_loop fuel st (next b) k
      | None => None
      end
  | _, _ => None
  end.

(** The node found; a list has at most as many nodes as the store. *)
Definition nr_hashmap_fetch hm (hash : Z) k : option address :=
  fetch_loop (S (size (store hm))) (store hm) (bucket_head hm hash) k.

(** [None] for the key stands for a [NULL] pointer. *)
Definition bad_args ohm (ok : option (list Z)) : bool :=
  match ohm, ok with Some _, Some (_ :: _) => false | _, _ => true end.

Definition value_of hm p : V := default NULL (value <$> store hm !! p).

Definition nr_hashmap_get_into ohm (ok : option (list Z)) (out : bool) : bool * option V :=
  match ohm, ok with
  | Some hm, Some k =>
      if bad_args ohm ok || negb out then (false, None)
      else match nr_hashmap_fetch hm (nr_hashmap_hash_key (log2_num_buckets hm) k) k with
           | Some p => (true, Some (value_of hm p))
           | None => (false, None)
           end
  | _, _ => (false, None)
  end.

Definition nr_hashmap_get ohm (ok : option (list Z)) : V :=
  default NULL (nr_hashmap_get_into ohm ok true).2.

Definition nr_hashmap_has ohm (ok : option (list Z)) : bool :=
  match ohm, ok with
  | Some hm, Some k =>
      if bad_args ohm ok then false
      else bool_decide (is_Some
        (nr_hashmap_fetch hm (nr_hashmap_hash_key (log2_num_buckets hm) k) k))
  | _, _ => false
  end.

Definition nr_hashmap_count ohm : Z :=
  match ohm with None => 0 | Some hm => elements hm end.

(** ** Update *)
Definition nr_hashmap_add_internal hm (hash : Z) k v : nr_hashmap_t V :=
  let bucket := fresh (dom (store hm)) in
  let st := <[bucket := Bucket None (bucket_head hm hash) k v]> (store hm) in
  let st := update_at (bucket_head hm hash) (set_prev (Some bucket)) st in
  set_elements (set_head (set_store hm st) hash (Some bucket)) (u64 (elements hm + 1)).

Definition nr_hashmap_set ohm (ok : option (list Z)) v : bool * option (nr_hashmap_t V) :=
  match ohm, ok with
  | Some hm, Some k =>
      if bad_args ohm ok then (false, ohm)
      else
        let hash := nr_hashmap_hash_key (log2_num_buckets hm) k in
        match nr_hashmap_fetch hm hash k with
        | Some _ => (false, ohm)
        | None => (true, Some (nr_hashmap_add_internal hm hash k v))
        end
  | _, _ => (false, ohm)
  end.

(** The values given to the destructor, and the table. *)
Definition nr_hashmap_update ohm (ok : option (list Z)) v : list V * option (nr_hashmap_t V) :=
  match ohm, ok with
  | Some hm, Some k =>
      if bad_args ohm ok then ([], ohm)
      else
        let hash := nr_hashmap_hash_key (log2_num_buckets hm) k in
        match nr_hashmap_fetch hm hash k with
        | Some p =>
            (if dtor_func hm then [value_of hm p] else [],
             Some (set_store hm (update_at (Some p) (set_value v) (store hm))))
        | None => ([], Some (nr_hashmap_add_internal hm hash k v))
        end
  | _, _ => ([], ohm)
  end.

Definition nr_hashmap_destroy_bucket hm p : list V * nr_hashmap_t V :=
  (if dtor_func hm then [value_of hm p] else [], set_store hm (delete p (store hm))).

(** Unlinking a node: its neighbours are patched through the store. *)
Definition unlink hm (hash : Z) p : nr_hashmap_t V :=
  match store hm !! p with
  | None => hm
  | Some b =>
      let st := update_at (next b) (set_prev (prev b)) (store hm) in
      let st := update_at (prev b) (set_next (next b)) st in
      let hm := set_store hm st in
      if decide (bucket_head hm hash = Some p) then set_head hm hash (next b) else hm
  end.

Definition nr_hashmap_delete ohm (ok : option (list Z)) :
    bool * list V * option (nr_hashmap_t V) :=
  match ohm, ok with
  | Some hm, Some k =>
      if bad_args ohm ok then (false, [], ohm)
      else
        let hash := nr_hashmap_hash_key (log2_num_buckets hm) k in
        match nr_hashmap_fetch hm hash k with
        | Some p =>
            let '(destroyed, hm) := nr_hashmap_destroy_bucket (unlink hm hash p) p in
            (true, destroyed, Some (set_elements hm (u64 (elements hm - 1))))
        | None => (false, [], ohm)
        end
  | _, _ => (false, [], ohm)
  end.

(** ** Iteration *)
Fixpoint chain_loop (fuel : nat) st (op : option address) : list address :=
  match fuel, op with
  | S fuel, Some p =>
      match st !! p with Some b => p :: chain_loop fuel st (next b) | None => [p] end
  | _, _ => []
  end.

(** The nodes in the order [nr_hashmap_apply] visits them: table index by table
    index, along each list. *)
Definition visit hm : list address :=
  seqZ 0 (Z.shiftl 1 (log2_num_buckets hm)) ≫=
    λ i, chain_loop (S (size (store hm))) (store hm) (bucket_head hm i).

(** The key-value pairs handed to the callback, in order. *)
Definition nr_hashmap_apply ohm : list (list Z * V) :=
  match ohm with
  | None => []
  | Some hm => omap (λ p, (λ b, (key b, value b)) <$> store hm !! p) (visit hm)
  end.

(** The list at one index is freed node by node, [next] being read first. *)
Fixpoint destroy_chain (fuel : nat) hm (op : option address) : list V * nr_hashmap_t V :=
  match fuel, op with
  | S fuel, Some p =>
      match store hm !! p with
      | Some b =>
          let '(d, hm) := nr_hashmap_destroy_bucket hm p in
          let '(d', hm) := destroy_chain fuel hm (next b) in (d ++ d', hm)
      | None => ([], hm)
      end
  | _, _ => ([], hm)
  end.

(** What the destructor receives, and the emptied store with the [NULL] the
    caller's pointer is reset to. *)
Definition nr_hashmap_destroy ohm :
    list V * gmap address (nr_hashmap_bucket_t V) * option (nr_hashmap_t V) :=
  match ohm with
  | None => ([], ∅, None)
  | Some hm =>
      let '(d, hm) := foldl (λ '(d, hm) i,
          let '(d', hm) := destroy_chain (S (size (store hm))) hm (bucket_head hm i) in (d ++ d', hm))
        ([], hm) (seqZ 0 (Z.shiftl 1 (log2_num_buckets hm))) in
      (d, store hm, None)
  end.

(** The keys, each copied with [nr_strndup] (up to its first NUL). *)
Definition nr_hashmap_keys `{Allocator (list Z)} ohm : option (option (nr_vector_t (list Z))) :=
  match ohm with
  | None => Some None
  | Some hm =>
      foldl (λ acc k, ov ← acc; '(_, ov) ← nr_vector_push_back ov (cstr k); Some ov)
        (Some (Some (nr_vector_create (nr_hashmap_count ohm) true)))
        (fst <$> nr_hashmap_apply ohm)
  end.
End hashmap.

(** ** Doubly linked lists in the store *)
Section lists.
Context {V : Type} `{Pointer V}.
Implicit Types (st : gmap address (nr_hashmap_bucket_t V)) (b : nr_hashmap_bucket_t V)
  (p q : address) (l : list address) (pr hd : option address).

(** From [hd] on, the store holds the list of nodes [l], each pointing back to
    the one before it, the first one to [pr]. *)
Fixpoint dll st pr hd l : Prop :=
  match l with
  | [] => hd = None
  | p :: l => hd = Some p ∧ ∃ b, st !! p = Some b ∧ prev b = pr ∧ dll st (Some p) (next b) l
  end.

Lemma dll_frame st st' pr hd l :
  (∀ p, p ∈ l → st' !! p = st !! p) → dll st pr hd l → dll st' pr hd l.
Proof.
  revert pr hd. induction l as [|p l IH]; intros pr hd Hf; simpl; [done|].
  intros (-> & b & Hb & Hp & Hl). split; [done|]. exists b.
  rewrite Hf by left. split_and!; [done..|]. apply IH; [|done]. intros. apply Hf. by right.
Qed.

Lemma dll_head st pr hd l : dll st pr hd l → hd = head l.
Proof. destruct l; simpl; [done|]. by intros [-> _]. Qed.

Lemma dll_lookup st pr hd l p : dll st pr hd l → p ∈ l → is_Some (st !! p).
Proof.
  revert pr hd. induction l as [|q l IH]; intros pr hd Hl Hp.
  - by apply not_elem_of_nil in Hp.
  - destruct Hl as (_ & b & Hb & _ & Hl). apply elem_of_cons in Hp as [->|Hp]; [by exists b|].
    by eapply IH.
Qed.

Lemma update_at_ne op f st p : op ≠ Some p → update_at op f st !! p = st !! p.
Proof. destruct op as [q|]; simpl; [|done]. intros. rewrite lookup_alter_ne; congruence. Qed.

Lemma update_at_eq p f st : update_at (Some p) f st !! p = f <$> st !! p.
Proof. simpl. by rewrite lookup_alter_eq. Qed.

Lemma dll_set_prev st pr pr' hd l : NoDup l → dll st pr hd l →
  dll (update_at hd (set_prev pr') st) pr' hd l.
Proof.
  destruct l as [|p l]; simpl; [by intros _ ->|].
  intros [Hp _]%NoDup_cons (-> & b & Hb & _ & Hl). split; [done|].
  exists (set_prev pr' b). rewrite update_at_eq, Hb. split_and!; [done..|].
  eapply dll_frame; [|exact Hl]. intros q Hq. apply update_at_ne. congruence.
Qed.

(** The neighbours of a node in the middle of a list. *)
Lemma dll_middle st pr hd l1 p l2 b :
  dll st pr hd (l1 ++ p :: l2) → st !! p = Some b →
  prev b = from_option Some pr (last l1) ∧ next b = head l2.
Proof.
  revert pr hd. induction l1 as [|q l1 IH]; intros pr hd Hl Hb; simpl in Hl.
  - destruct Hl as (_ & b' & Hb' & Hpr & Hl). simplify_eq. split; [done|by eapply dll_head].
  - destruct Hl as (_ & b' & _ & _ & Hl). destruct (IH _ _ Hl Hb) as [-> ->].
    rewrite last_cons. by destruct (last l1).
Qed.

(** Unlinking a node of a list. *)
Lemma unlink_dll st pr hd l1 p l2 b :
  NoDup (l1 ++ p :: l2) → (∀ q, pr = Some q → q ∉ l1 ++ p :: l2) →
  dll st pr hd (l1 ++ p :: l2) → st !! p = Some b →
  dll (update_at (prev b) (set_next (next b)) (update_at (next b) (set_prev (prev b)) st))
    pr (match l1 with [] => next b | _ => hd end) (l1 ++ l2).
Proof.
  revert pr hd. induction l1 as [|q l1 IH]; intros pr hd Hnd Hpr Hl Hb; simpl in *.
  - destruct Hl as (-> & b' & Hb' & Hp & Hl). simplify_eq.
    apply NoDup_cons in Hnd as [Hp Hnd].
    eapply dll_frame; [|eapply dll_set_prev; [done|exact Hl]].
    intros r Hr. apply update_at_ne. intros Eq. apply (Hpr r Eq). by right.
  - pose proof Hl as Hl0. destruct Hl as (-> & bq & Hbq & Hpq & Hl).
    apply NoDup_cons in Hnd as [Hq Hnd].
    destruct (dll_middle _ _ _ _ _ _ _ Hl Hb) as [Eprev Enext].
    assert (Hhead : next b ≠ Some q).
    { rewrite Enext. intros E. apply Hq, elem_of_app. right. right.
      destruct l2; simplify_eq/=. left. }
    split; [done|]. destruct (decide (l1 = [])) as [->|Hl1].
    + simpl in Eprev. exists (set_next (next b) bq).
      rewrite Eprev, update_at_eq, update_at_ne, Hbq by done. split_and!; [done..|].
      specialize (IH (Some q) (next bq) Hnd). rewrite Eprev in IH. apply IH; [|done|done].
      by intros ? [= <-].
    + exists bq. rewrite !update_at_ne, Hbq; [|done|].
      * split_and!; [done..|]. specialize (IH (Some q) (next bq) Hnd).
        destruct l1; [done|]. apply IH; [|done|done]. by intros ? [= <-].
      * rewrite Eprev. destruct (last l1) as [r|] eqn:Er; [|by apply last_None in Er].
        simpl. intros [= ->]. apply Hq, elem_of_app. left.
        by apply last_Some_elem_of in Er.
Qed.
End lists.

(** ** The representation invariant and the abstract map *)
Section invariant.
Context {V : Type} `{Pointer V}.
Implicit Types (hm : nr_hashmap_t V) (st : gmap address (nr_hashmap_bucket_t V))
  (k : list Z) (v : V) (p q : address) (m : gmap (list Z) V) (ch : Z → list address).

Definition payload st : gmap address (list Z * V) := (λ b, (key b, value b)) <$> st.

Definition table_size hm : Z := Z.shiftl 1 (log2_num_buckets hm).

(** [ch] says which nodes each list has. *)
Record chained hm ch : Prop := {
  ch_log2 : 1 ≤ log2_num_buckets hm ≤ 24;
  ch_length : length (buckets hm) = Z.to_nat (table_size hm);
  ch_dll : ∀ i, 0 ≤ i < table_size hm →
    dll (store hm) None (bucket_head hm i) (ch i) ∧ NoDup (ch i);
  ch_elem : ∀ i p, 0 ≤ i < table_size hm →
    p ∈ ch i ↔ ∃ k v, payload (store hm) !! p = Some (k, v) ∧
                      nr_hashmap_hash_key (log2_num_buckets hm) k = i;
}.

(** The store holds exactly the bindings of [m], each once. *)
Record binds (pl : gmap address (list Z * V)) m : Prop := {
  b_sound : ∀ p k v, pl !! p = Some (k, v) → m !! k = Some v;
  b_complete : ∀ k v, m !! k = Some v → ∃ p, pl !! p = Some (k, v);
  b_unique : ∀ p q k v w, pl !! p = Some (k, v) → pl !! q = Some (k, w) → p = q;
}.

Definition represents hm m : Prop :=
  (∃ ch, chained hm ch) ∧ binds (payload (store hm)) m ∧
  elements hm = u64 (Z.of_nat (size m)).

Lemma payload_lookup st p : payload st !! p = (λ b, (key b, value b)) <$> st !! p.
Proof. apply lookup_fmap. Qed.

Lemma payload_Some st p k v : payload st !! p = Some (k, v) →
  ∃ b, st !! p = Some b ∧ key b = k ∧ value b = v.
Proof. rewrite payload_lookup. destruct (st !! p) as [b|]; [|done]. intros [= <- <-]. eauto. Qed.

Lemma payload_update_at op f st : (∀ b, key (f b) = key b) → (∀ b, value (f b) = value b) →
  payload (update_at op f st) = payload st.
Proof.
  intros Hk Hv. apply map_eq. intros p. rewrite !payload_lookup.
  destruct op as [q|]; [|done]. simpl. destruct (decide (q = p)) as [->|].
  - rewrite lookup_alter_eq. destruct (st !! p); simpl; [|done]. by rewrite Hk, Hv.
  - by rewrite lookup_alter_ne.
Qed.

Lemma table_size_pos hm ch : chained hm ch → 0 < table_size hm.
Proof.
  intros [? _ _ _]. unfold table_size. rewrite Z.shiftl_1_l. lia.
Qed.

Lemma hash_key_range hm ch k : chained hm ch →
  0 ≤ nr_hashmap_hash_key (log2_num_buckets hm) k < table_size hm.
Proof.
  intros [? _ _ _]. unfold nr_hashmap_hash_key, table_size. rewrite Z.shiftl_1_l.
  rewrite Z.sub_1_r, <-Z.ones_equiv, Z.land_ones by lia.
  apply Z.mod_pos_bound. lia.
Qed.

Lemma chain_bound hm ch i : chained hm ch → 0 ≤ i < table_size hm →
  (length (ch i) ≤ size (store hm))%nat.
Proof.
  intros Hc Hi. destruct (ch_dll _ _ Hc i Hi) as [Hl Hnd].
  rewrite <-size_dom, <-(size_list_to_set (C:=gset address)) by done.
  apply subseteq_size. intros p. rewrite elem_of_list_to_set, elem_of_dom.
  by eapply dll_lookup.
Qed.

(** Walking a list finds its first node with the key. *)
Lemma fetch_loop_spec st pr hd l fuel k : dll st pr hd l → (length l < fuel)%nat →
  match fetch_loop fuel st hd k with
  | Some p => p ∈ l ∧ ∃ b, st !! p = Some b ∧ key b = k
  | None => ∀ p b, p ∈ l → st !! p = Some b → key b ≠ k
  end.
Proof.
  revert pr hd fuel. induction l as [|p l IH]; intros pr hd fuel Hl Hf; simpl in Hl.
  - subst hd. destruct fuel; simpl; intros p b Hp; by apply not_elem_of_nil in Hp.
  - destruct Hl as (-> & b & Hb & _ & Hl). destruct fuel as [|fuel]; [simpl in Hf; lia|].
    simpl. rewrite Hb. unfold nr_memcmp. destruct (decide (k = key b)) as [Hk|Hk].
    + rewrite Hk, Z.eqb_refl. simpl. split; [left|by exists b].
    + rewrite andb_false_r. specialize (IH _ _ fuel Hl ltac:(simpl in Hf; lia)).
      destruct (fetch_loop fuel st (next b) k).
      * destruct IH as (? & ?). split; [by right|done].
      * intros q c [->|Hq]%elem_of_cons Hc; [congruence|by eapply IH].
Qed.

Lemma fetch_spec hm m k : represents hm m →
  match nr_hashmap_fetch hm (nr_hashmap_hash_key (log2_num_buckets hm) k) k with
  | Some p => ∃ b, store hm !! p = Some b ∧ key b = k ∧ m !! k = Some (value b)
  | None => m !! k = None
  end.
Proof.
  intros ([ch Hc] & Hb & _). pose proof (hash_key_range hm ch k Hc) as Hr.
  set (i := nr_hashmap_hash_key _ k) in *.
  destruct (ch_dll _ _ Hc i Hr) as [Hl _]. pose proof (chain_bound _ _ _ Hc Hr).
  pose proof (fetch_loop_spec _ _ _ _ (S (size (store hm))) k Hl ltac:(lia)) as Hf.
  unfold nr_hashmap_fetch. destruct (fetch_loop _ _ _ k) as [p|].
  - destruct Hf as (_ & b & Hst & Hk). exists b. split_and!; [done..|].
    eapply b_sound; [done|]. rewrite payload_lookup, Hst. simpl. by rewrite Hk.
  - destruct (m !! k) as [v|] eqn:Em; [|done]. exfalso.
    destruct (b_complete _ _ Hb _ _ Em) as [p Hp].
    destruct (payload_Some _ _ _ _ Hp) as (b & Hst & Hk & _).
    eapply Hf; [|exact Hst|exact Hk]. apply (ch_elem _ _ Hc); [done|]. eauto.
Qed.
(** ** The abstract effect of each change of the store *)
Lemma binds_insert pl m p k v : pl !! p = None → m !! k = None → binds pl m →
  binds (<[p := (k, v)]> pl) (<[k := v]> m).
Proof.
  intros Hp Hk [Hs Hc Hu]. split.
  - intros q k' v'. rewrite lookup_insert_Some. intros [[<- [= <- <-]]|[? Hq]].
    + apply lookup_insert_eq.
    + apply Hs in Hq as Hq'. rewrite lookup_insert_ne; congruence.
  - intros k' v'. rewrite lookup_insert_Some. intros [[<- <-]|[? Hm]].
    + exists p. apply lookup_insert_eq.
    + destruct (Hc _ _ Hm) as [q Hq]. exists q. rewrite lookup_insert_ne; congruence.
  - intros q r k' v' w'. rewrite !lookup_insert_Some.
    intros [[<- [= <- <-]]|[? Hq]] [[<- Er]|[? Hr]]; simplify_eq; try done.
    + apply Hs in Hr. congruence.
    + apply Hs in Hq. congruence.
    + by eapply Hu.
Qed.

Lemma binds_delete pl m p k v : pl !! p = Some (k, v) → binds pl m →
  binds (delete p pl) (delete k m).
Proof.
  intros Hp [Hs Hc Hu]. split.
  - intros q k' v'. rewrite lookup_delete_Some. intros [Hne Hq].
    rewrite lookup_delete_ne; [by eapply Hs|]. intros <-. by eapply Hne, Hu.
  - intros k' v'. rewrite lookup_delete_Some. intros [Hne Hm].
    destruct (Hc _ _ Hm) as [q Hq]. exists q. rewrite lookup_delete_ne; congruence.
  - intros q r k' v' w'. rewrite !lookup_delete_Some. intros [? ?] [? ?]. by eapply Hu.
Qed.

Lemma binds_update pl m p k v w : pl !! p = Some (k, v) → binds pl m →
  binds (<[p := (k, w)]> pl) (<[k := w]> m).
Proof.
  intros Hp Hb. pose proof (b_sound _ _ Hb _ _ _ Hp) as Hm.
  rewrite <-insert_delete_eq, <-(insert_delete_eq m). apply binds_insert.
  - apply lookup_delete_eq.
  - apply lookup_delete_eq.
  - by eapply binds_delete.
Qed.

Lemma size_delete_Z m k v : m !! k = Some v →
  u64 (u64 (Z.of_nat (size m)) - 1) = u64 (Z.of_nat (size (delete k m))).
Proof.
  intros Hm. pose proof (map_size_delete_Some k m ltac:(by exists v)) as Hs.
  assert (size m ≠ 0%nat) by (apply map_size_non_empty_iff; intros ->; by rewrite lookup_empty in Hm).
  unfold u64. rewrite Zminus_mod_idemp_l. f_equal. lia.
Qed.

Lemma size_insert_Z m k v : m !! k = None →
  u64 (u64 (Z.of_nat (size m)) + 1) = u64 (Z.of_nat (size (<[k := v]> m))).
Proof.
  intros Hm. rewrite map_size_insert_None by done.
  unfold u64. rewrite Zplus_mod_idemp_l. f_equal. lia.
Qed.

Lemma bucket_head_set hm ch i j op : chained hm ch → 0 ≤ i < table_size hm → 0 ≤ j →
  bucket_head (set_head hm i op) j = if decide (i = j) then op else bucket_head hm j.
Proof.
  intros [_ Hl _ _] Hi Hj. unfold bucket_head. simpl. case_decide as Hd.
  - subst j. by rewrite list_lookup_insert_eq by lia.
  - by rewrite list_lookup_insert_ne by lia.
Qed.

(** A change of the values only keeps the lists. *)
Lemma chained_values hm st ch :
  (∀ p, (λ b, (prev b, next b, key b)) <$> st !! p =
        (λ b, (prev b, next b, key b)) <$> store hm !! p) →
  chained hm ch → chained (set_store hm st) ch.
Proof.
  intros Hst [Hl Hb Hd He]. split; [done|done| |].
  - intros i Hi. destruct (Hd i Hi) as [Hdl Hnd]. split; [|done].
    change (bucket_head (set_store hm st) i) with (bucket_head hm i). clear Hnd. revert Hdl.
    generalize (bucket_head hm i) (None (A:=address)).
    induction (ch i) as [|p l IH]; intros hd pr; simpl; [done|].
    intros (-> & b & Hsp & Hp & Hdl). split; [done|]. specialize (Hst p). rewrite Hsp in Hst.
    destruct (st !! p) as [b'|] eqn:E; [|done]. injection Hst as Ep En Ek.
    exists b'. split_and!; [done|congruence|]. rewrite En. by apply IH.
  - intros i p Hi. rewrite (He i p Hi). simpl. specialize (Hst p).
    rewrite !payload_lookup. destruct (st !! p) as [b'|], (store hm !! p) as [b|]; try done.
    injection Hst as _ _ Ek. simpl. split.
    + intros (k & v & [= <- <-] & Hk). exists (key b'), (value b'). split; [done|congruence].
    + intros (k & v & [= <- <-] & Hk). exists (key b), (value b). split; [done|congruence].
Qed.

Lemma chained_elem_none hm ch i p : chained hm ch → 0 ≤ i < table_size hm →
  store hm !! p = None → p ∉ ch i.
Proof.
  intros Hc Hi Hn Hp. apply (ch_elem _ _ Hc) in Hp as (k & v & Hp & _); [|done].
  rewrite payload_lookup, Hn in Hp. done.
Qed.

Lemma chains_disjoint hm ch i j p : chained hm ch → 0 ≤ i < table_size hm →
  0 ≤ j < table_size hm → p ∈ ch i → p ∈ ch j → i = j.
Proof.
  intros Hc Hi Hj Hpi Hpj.
  apply (ch_elem _ _ Hc) in Hpi as (k & v & Hp & <-); [|done].
  apply (ch_elem _ _ Hc) in Hpj as (k' & v' & Hp' & <-); [|done]. congruence.
Qed.

(** Adding a node in front of its list. *)
Section add.
Context (hm : nr_hashmap_t V) (ch : Z → list address) (k : list Z) (v : V).
Context (Hc : chained hm ch).
Let i := nr_hashmap_hash_key (log2_num_buckets hm) k.
Let p := fresh (dom (store hm)).
Let hm' := nr_hashmap_add_internal hm i k v.
Let ch' j := if decide (i = j) then p :: ch i else ch j.

Lemma add_index : 0 ≤ i < table_size hm.
Proof. by eapply hash_key_range. Qed.

Lemma add_fresh : store hm !! p = None.
Proof. apply not_elem_of_dom, is_fresh. Qed.

Lemma add_payload : payload (store hm') = <[p := (k, v)]> (payload (store hm)).
Proof. simpl. rewrite payload_update_at by done. unfold payload. by rewrite fmap_insert. Qed.

Lemma add_dll j : 0 ≤ j < table_size hm →
  dll (store hm') None (bucket_head hm' j) (ch' j) ∧ NoDup (ch' j).
Proof.
  intros Hj. pose proof add_index as Hi. pose proof add_fresh as Hp.
  assert (Hpj : ∀ j, 0 ≤ j < table_size hm → p ∉ ch j) by (intros; by eapply chained_elem_none).
  destruct (ch_dll _ _ Hc i Hi) as [Hl Hnd]. pose proof (dll_head _ _ _ _ Hl) as Hhd.
  set (st1 := <[p := Bucket None (bucket_head hm i) k v]> (store hm)).
  assert (Hfr : ∀ j, 0 ≤ j < table_size hm → ∀ q, q ∈ ch j → st1 !! q = store hm !! q).
  { intros j' Hj' q Hq. unfold st1. rewrite lookup_insert_ne; [done|].
    intros <-. by eapply Hpj. }
  assert (bucket_head hm' j = if decide (i = j) then Some p else bucket_head hm j) as ->
    by (eapply (bucket_head_set hm ch); [done..|lia]).
  change (store hm') with (update_at (bucket_head hm i) (set_prev (Some p)) st1).
  unfold ch'. case_decide as Hij.
  - subst j. split; [|by constructor; [apply Hpj|]]. split; [done|].
    exists (Bucket None (bucket_head hm i) k v). split_and!; [|done|].
    + rewrite update_at_ne; [apply lookup_insert_eq|]. rewrite Hhd. intros E.
      apply (Hpj i Hi). destruct (ch i); simplify_eq/=. left.
    + eapply dll_set_prev; [done|]. eapply dll_frame; [|exact Hl]. by apply Hfr.
  - destruct (ch_dll _ _ Hc j Hj) as [Hlj Hndj]. split; [|done].
    eapply dll_frame; [|exact Hlj]. intros q Hq. rewrite update_at_ne; [exact (Hfr j Hj q Hq)|].
    rewrite Hhd. intros E. apply Hij. eapply chains_disjoint; [done..| |exact Hq].
    destruct (ch i); simplify_eq/=. left.
Qed.

Lemma add_internal_chained : chained hm' ch'.
Proof.
  split; [apply Hc|simpl; by rewrite length_insert, (ch_length _ _ Hc)|exact add_dll|].
  intros j q Hj. change (table_size _) with (table_size hm) in Hj. rewrite add_payload.
  change (log2_num_buckets hm') with (log2_num_buckets hm).
  setoid_rewrite lookup_insert_Some. pose proof (ch_elem _ _ Hc j q Hj) as He.
  assert (Hq : ∀ kv, payload (store hm) !! q = Some kv → p ≠ q).
  { intros kv Hq <-. by rewrite payload_lookup, add_fresh in Hq. }
  unfold ch'. case_decide as Hij.
  - subst j. rewrite elem_of_cons, He. split.
    + intros [->|(k' & v' & Hk & ?)]; [by exists k, v; auto|].
      exists k', v'. split; [|done]. right. split; [exact (Hq _ Hk)|done].
    + intros (k' & v' & [[<- ?]|[? ?]] & ?); [by left|right; eauto].
  - rewrite He. split.
    + intros (k' & v' & Hk & ?). exists k', v'. split; [|done]. right. split; [exact (Hq _ Hk)|done].
    + intros (k' & v' & [[<- [= <- <-]]|[? ?]] & ?); [done|eauto].
Qed.
End add.

Lemma add_represents hm m k v : represents hm m → m !! k = None →
  represents (nr_hashmap_add_internal hm (nr_hashmap_hash_key (log2_num_buckets hm) k) k v)
    (<[k := v]> m).
Proof.
  intros ([ch Hc] & Hb & He) Hm. split_and!.
  - eexists. by apply add_internal_chained.
  - simpl. rewrite payload_update_at by done. unfold payload. rewrite fmap_insert.
    apply binds_insert; [|done|done]. rewrite lookup_fmap.
    assert (store hm !! fresh (dom (store hm)) = None) as ->
      by (apply not_elem_of_dom, is_fresh). done.
  - simpl. rewrite He. by apply size_insert_Z.
Qed.
Lemma update_represents hm m p b v : represents hm m → store hm !! p = Some b →
  represents (set_store hm (update_at (Some p) (set_value v) (store hm))) (<[key b := v]> m).
Proof.
  intros ([ch Hc] & Hb & He) Hst.
  assert (Hp : payload (store hm) !! p = Some (key b, value b))
    by (rewrite payload_lookup, Hst; done).
  split_and!.
  - exists ch. apply chained_values; [|done]. intros q. destruct (decide (p = q)) as [->|].
    + rewrite update_at_eq. by destruct (store hm !! q).
    + rewrite update_at_ne by congruence. done.
  - simpl. replace (payload _) with (<[p := (key b, v)]> (payload (store hm))).
    { by eapply binds_update. }
    apply map_eq. intros q. rewrite !payload_lookup. destruct (decide (p = q)) as [->|].
    + rewrite lookup_insert_eq, lookup_alter_eq, Hst. done.
    + rewrite lookup_insert_ne, lookup_alter_ne, payload_lookup by done. done.
  - simpl. rewrite He. f_equal. f_equal. rewrite map_size_insert_Some; [done|].
    exists (value b). by eapply b_sound.
Qed.

(** Deleting a node of its list. *)
Section delete.
Context (hm : nr_hashmap_t V) (ch : Z → list address) (p : address) (b : nr_hashmap_bucket_t V).
Context (Hc : chained hm ch) (Hst : store hm !! p = Some b).
Let i := nr_hashmap_hash_key (log2_num_buckets hm) (key b).
Let hm' := (nr_hashmap_destroy_bucket (unlink hm i p) p).2.

Lemma del_index : 0 ≤ i < table_size hm.
Proof. by eapply hash_key_range. Qed.

Lemma del_in : p ∈ ch i.
Proof.
  apply (ch_elem _ _ Hc); [apply del_index|]. exists (key b), (value b).
  by rewrite payload_lookup, Hst.
Qed.

Let st1 := update_at (prev b) (set_next (next b)) (update_at (next b) (set_prev (prev b)) (store hm)).

Lemma del_store : store hm' = delete p st1.
Proof. unfold hm', unlink. rewrite Hst. simpl. by destruct (decide _). Qed.

Lemma del_head j : 0 ≤ j → bucket_head hm' j =
  if decide (i = j) then if decide (bucket_head hm i = Some p) then next b else bucket_head hm i
  else bucket_head hm j.
Proof.
  intros Hj. unfold hm', unlink. rewrite Hst. cbv zeta. fold st1.
  change (bucket_head (set_store hm st1) i) with (bucket_head hm i).
  destruct (decide (bucket_head hm i = Some p)).
  - change (bucket_head (set_head hm i (next b)) j = if decide (i = j) then next b else bucket_head hm j).
    eapply bucket_head_set; [done|apply del_index|done].
  - change (bucket_head hm j = if decide (i = j) then bucket_head hm i else bucket_head hm j).
    case_decide; by subst.
Qed.

Lemma del_payload : payload (store hm') = delete p (payload (store hm)).
Proof.
  rewrite del_store. unfold payload at 1. rewrite fmap_delete. f_equal.
  change (payload st1 = payload (store hm)). unfold st1. by rewrite !payload_update_at by done.
Qed.

Lemma del_same : log2_num_buckets hm' = log2_num_buckets hm ∧ elements hm' = elements hm ∧
  length (buckets hm') = length (buckets hm).
Proof.
  unfold hm', unlink. rewrite Hst. simpl. destruct (decide _); simpl; by rewrite ?length_insert.
Qed.

Lemma del_dll l1 l2 j : ch i = l1 ++ p :: l2 → 0 ≤ j < table_size hm →
  let l := if decide (i = j) then l1 ++ l2 else ch j in
  dll (store hm') None (bucket_head hm' j) l ∧ NoDup l.
Proof.
  intros Ech Hj l. pose proof del_index as Hi.
  destruct (ch_dll _ _ Hc i Hi) as [Hl Hnd]. rewrite Ech in Hl, Hnd.
  destruct (dll_middle _ _ _ _ _ _ _ Hl Hst) as [Eprev Enext].
  assert ((p ∉ l1 ++ l2) ∧ NoDup (l1 ++ l2)) as [Hp Hnd']
    by (rewrite <-NoDup_cons, Permutation_middle; exact Hnd).
  rewrite del_store, del_head by lia. subst l. case_decide as Hij.
  - subst j. split; [|exact Hnd'].
    eapply dll_frame; [intros q Hq; apply lookup_delete_ne; by intros <-|].
    replace (if decide (bucket_head hm i = Some p) then next b else bucket_head hm i)
      with (match l1 with [] => next b | _ => bucket_head hm i end).
    { by apply (unlink_dll _ _ _ _ p). }
    rewrite (dll_head _ _ _ _ Hl). destruct l1 as [|q l1]; simpl.
    + by rewrite decide_True.
    + rewrite decide_False; [done|]. intros [= ->]. apply Hp. left.
  - destruct (ch_dll _ _ Hc j Hj) as [Hlj Hndj]. split; [|done].
    assert (Hne : ∀ q r, q ∈ ch j → r ∈ l1 ++ p :: l2 → r ≠ q).
    { intros q r Hq Hr ->. apply Hij. rewrite <-Ech in Hr. by eapply chains_disjoint. }
    eapply dll_frame; [|exact Hlj]. intros q Hq.
    rewrite lookup_delete_ne by (apply Hne; [done|apply elem_of_app; right; left]).
    unfold st1. rewrite !update_at_ne; [done|..].
    + rewrite Enext. intros E. apply (Hne q q Hq); [|done].
      apply elem_of_app. do 2 right. destruct l2; simplify_eq/=. left.
    + rewrite Eprev. destruct (last l1) as [r|] eqn:Er; [|done]. simpl. intros [= ->].
      apply (Hne q q Hq); [|done]. apply elem_of_app. left. by apply last_Some_elem_of.
Qed.

Lemma delete_chained : ∃ ch', chained hm' ch'.
Proof.
  pose proof del_index as Hi. destruct (list_elem_of_split _ _ del_in) as (l1 & l2 & Ech).
  destruct del_same as (El & _ & Eb).
  assert (Et : table_size hm' = table_size hm) by (unfold table_size; by rewrite El).
  exists (λ j, if decide (i = j) then l1 ++ l2 else ch j).
  split; [rewrite El; apply Hc|rewrite Eb, Et; apply Hc|rewrite Et; by intros; apply del_dll|].
  intros j q Hj. rewrite Et in Hj. rewrite El, del_payload. setoid_rewrite lookup_delete_Some.
  pose proof (ch_elem _ _ Hc j q Hj) as He. case_decide as Hij.
  - subst j. rewrite Ech, <-Permutation_middle, elem_of_cons in He.
    destruct (ch_dll _ _ Hc i Hi) as [_ Hnd].
    rewrite Ech, <-Permutation_middle in Hnd. apply NoDup_cons in Hnd as [Hp _]. split.
    + intros Hq. destruct (proj1 He (or_intror Hq)) as (k & v & ? & ?).
      exists k, v. split_and!; [by intros <-|done..].
    + intros (k & v & [Hne ?] & ?). destruct (proj2 He) as [->|]; [eauto|done|done].
  - rewrite He. split.
    + intros (k & v & Hq & Hk). exists k, v. split_and!; [|done..]. intros <-. apply Hij.
      rewrite payload_lookup, Hst in Hq. simpl in Hq. injection Hq as <- _. exact Hk.
    + intros (k & v & [_ ?] & ?). eauto.
Qed.
End delete.

Lemma unlink_payload hm i p : payload (store (unlink hm i p)) = payload (store hm).
Proof.
  unfold unlink. destruct (store hm !! p) as [b|]; [|done].
  destruct (decide _); simpl; by rewrite !payload_update_at by done.
Qed.

Lemma value_of_payload hm p : value_of hm p = default NULL (snd <$> payload (store hm) !! p).
Proof. rewrite payload_lookup. unfold value_of. by destruct (store hm !! p). Qed.

Lemma delete_represents hm m p b : represents hm m → store hm !! p = Some b →
  let i := nr_hashmap_hash_key (log2_num_buckets hm) (key b) in
  let '(d, hm') := nr_hashmap_destroy_bucket (unlink hm i p) p in
  d = (if dtor_func hm then [value b] else []) ∧
  represents (set_elements hm' (u64 (elements hm' - 1))) (delete (key b) m).
Proof.
  intros ([ch Hc] & Hb & He) Hst i.
  assert (Hp : payload (store hm) !! p = Some (key b, value b))
    by (rewrite payload_lookup, Hst; done).
  destruct (delete_chained hm ch p b Hc Hst) as [ch' Hc']. fold i in Hc'.
  pose proof (del_payload hm p b Hst) as Hpay. fold i in Hpay.
  destruct (del_same hm p b Hst) as (_ & Eel & _). fold i in Eel.
  destruct (nr_hashmap_destroy_bucket (unlink hm i p) p) as [d hm'] eqn:E. simpl in *.
  split.
  - unfold nr_hashmap_destroy_bucket in E. injection E as <- _.
    assert (dtor_func (unlink hm i p) = dtor_func hm) as ->
      by (unfold unlink; rewrite Hst; by destruct (decide _)).
    by rewrite value_of_payload, unlink_payload, Hp.
  - split_and!.
    + exists ch'. destruct Hc'. by split.
    + simpl. rewrite Hpay. by apply (binds_delete _ _ _ _ (value b)).
    + simpl. rewrite Eel, He. eapply size_delete_Z. by eapply b_sound.
Qed.
Lemma create_represents log2 d : 0 ≤ log2 →
  represents (nr_hashmap_create_internal log2 d) ∅.
Proof.
  intros Hl. unfold nr_hashmap_create_internal.
  set (l := if log2 =? 0 then 8 else if 24 <? log2 then 24 else log2).
  assert (1 ≤ l ≤ 24) by (unfold l; bool_cases).
  assert (Hpos : 0 < Z.shiftl 1 l) by (rewrite Z.shiftl_1_l; lia).
  split_and!; [|split; [intros p k v|intros k v|intros p q k v w]|done].
  - exists (λ _, []). split; simpl; [done| | |].
    + unfold nr_calloc. rewrite length_replicate. unfold table_size. simpl.
      destruct (Z.eqb_spec (Z.shiftl 1 l) 0); lia.
    + intros i Hi. split; [|constructor]. unfold bucket_head. simpl.
      destruct (nr_calloc _ !! _) as [op|] eqn:E; [|done].
      by apply lookup_replicate in E as [-> _].
    + intros i p Hi. unfold payload. rewrite fmap_empty. setoid_rewrite lookup_empty.
      split; [by intros ?%not_elem_of_nil|by intros (? & ? & ? & _)].
  - simpl. unfold payload. by rewrite fmap_empty, lookup_empty.
  - by rewrite lookup_empty.
  - simpl. unfold payload. by rewrite fmap_empty, lookup_empty.
Qed.

(** ** Iteration and destruction *)
Lemma dll_size st pr hd l : dll st pr hd l → NoDup l → (length l ≤ size st)%nat.
Proof.
  intros Hl Hnd. rewrite <-size_dom, <-(size_list_to_set (C:=gset address)) by done.
  apply subseteq_size. intros p. rewrite elem_of_list_to_set, elem_of_dom.
  by eapply dll_lookup.
Qed.

Lemma chain_loop_spec st pr hd l fuel : dll st pr hd l → (length l < fuel)%nat →
  chain_loop fuel st hd = l.
Proof.
  revert pr hd fuel. induction l as [|p l IH]; intros pr hd [|fuel] Hl Hf; simpl in *; try lia.
  - by subst.
  - destruct Hl as (-> & b & -> & _ & Hl). f_equal. eapply IH; [done|lia].
Qed.

Lemma visit_spec hm ch : chained hm ch → visit hm = seqZ 0 (table_size hm) ≫= ch.
Proof.
  intros Hc. unfold visit. fold (table_size hm). apply bind_ext_in.
  intros i Hi%elem_of_seqZ. destruct (ch_dll _ _ Hc i ltac:(lia)) as [Hl Hnd].
  eapply chain_loop_spec; [done|]. pose proof (dll_size _ _ _ _ Hl Hnd). lia.
Qed.
Lemma elem_of_visit hm ch p : chained hm ch → p ∈ visit hm ↔ is_Some (store hm !! p).
Proof.
  intros Hc. rewrite (visit_spec hm ch) by done. rewrite list_elem_of_bind. split.
  - intros (i & Hp & Hi%elem_of_seqZ). apply (ch_elem _ _ Hc) in Hp as (k & v & Hp & _); [|lia].
    apply payload_Some in Hp as (b & Hb & _). by exists b.
  - intros [b Hb]. exists (nr_hashmap_hash_key (log2_num_buckets hm) (key b)).
    pose proof (hash_key_range hm ch (key b) Hc). split; [by apply del_in|].
    apply elem_of_seqZ. lia.
Qed.

Lemma NoDup_visit hm ch : chained hm ch → NoDup (visit hm).
Proof.
  intros Hc. rewrite (visit_spec hm ch) by done. apply NoDup_bind.
  - intros i j p Hi%elem_of_seqZ Hj%elem_of_seqZ Hpi Hpj.
    eapply chains_disjoint; [exact Hc|lia|lia|exact Hpi|exact Hpj].
  - intros i Hi%elem_of_seqZ. apply (ch_dll _ _ Hc). lia.
  - apply NoDup_seqZ.
Qed.

(** The nodes visited hold the bindings of the map, each once. *)
Lemma visit_payload hm m : represents hm m →
  omap (λ p, payload (store hm) !! p) (visit hm) ≡ₚ map_to_list m.
Proof.
  intros ([ch Hc] & Hb & _). apply NoDup_Permutation.
  - pose proof (NoDup_visit _ _ Hc) as Hnd. induction Hnd as [|p l Hp Hnd IH]; [constructor|].
    simpl. destruct (payload (store hm) !! p) as [[k v]|] eqn:E; [|done].
    constructor; [|done]. rewrite list_elem_of_omap. intros (q & Hq & Eq).
    apply Hp. by rewrite (b_unique _ _ Hb _ _ _ _ _ E Eq).
  - apply NoDup_map_to_list.
  - intros [k v]. rewrite list_elem_of_omap, elem_of_map_to_list. split.
    + intros (p & _ & Hp). by eapply b_sound.
    + intros Hm. destruct (b_complete _ _ Hb _ _ Hm) as [p Hp]. exists p. split; [|done].
      rewrite (elem_of_visit hm ch) by done. apply payload_Some in Hp as (b & ? & _). by exists b.
Qed.

Lemma apply_spec hm m : represents hm m → nr_hashmap_apply (Some hm) ≡ₚ map_to_list m.
Proof.
  intros Hr. rewrite <-(visit_payload hm m) by done. unfold nr_hashmap_apply.
  induction (visit hm) as [|p l IH]; [done|]. simpl. rewrite payload_lookup.
  destruct (store hm !! p); simpl; by rewrite IH.
Qed.

Definition without (l : list address) st : gmap address (nr_hashmap_bucket_t V) :=
  foldl (λ st p, delete p st) st l.

Lemma without_lookup l st p : without l st !! p = if decide (p ∈ l) then None else st !! p.
Proof.
  revert st. induction l as [|q l IH]; intros st.
  { case_decide as Hp; [by apply not_elem_of_nil in Hp|done]. }
  change (without (q :: l) st) with (without l (delete q st)). rewrite IH. destruct (decide (p ∈ l)) as [Hp|Hp].
  - rewrite decide_True; [done|]. by right.
  - destruct (decide (p = q)) as [->|].
    + rewrite decide_True, lookup_delete_eq; [done|left].
    + rewrite decide_False, lookup_delete_ne; [done..|]. rewrite elem_of_cons. tauto.
Qed.

Lemma without_app l1 l2 st : without (l1 ++ l2) st = without l2 (without l1 st).
Proof. apply foldl_app. Qed.

Lemma destroy_chain_spec hm l pr hd fuel : dll (store hm) pr hd l → NoDup l →
  (length l < fuel)%nat →
  destroy_chain fuel hm hd =
  (if dtor_func hm then value_of hm <$> l else [], set_store hm (without l (store hm))).
Proof.
  revert hm pr hd fuel. induction l as [|p l IH]; intros hm pr hd [|fuel] Hl Hnd Hf;
    simpl in Hl, Hf; try lia.
  - subst hd. simpl. destruct hm; simpl. by destruct dtor_func0.
  - destruct Hl as (-> & b & Hb & _ & Hl). apply NoDup_cons in Hnd as [Hp Hnd].
    cbn [destroy_chain]. rewrite Hb. simpl.
    rewrite (IH (set_store hm (delete p (store hm))) (Some p) (next b) fuel); [|..|done|lia].
    + simpl. destruct (dtor_func hm); [|done]. f_equal. simpl. f_equal.
      apply list_fmap_ext. intros j q Hq. unfold value_of. simpl.
      rewrite lookup_delete_ne; [done|]. intros <-.
      by apply Hp, (list_elem_of_lookup_2 _ _ _ Hq).
    + simpl. eapply dll_frame; [|exact Hl]. intros q Hq. apply lookup_delete_ne. by intros <-.
Qed.

(** The values the destructor gets from a list of nodes. *)
Definition destroyed hm (l : list address) : list V :=
  if dtor_func hm then value_of hm <$> l else [].

Lemma destroy_loop hm ch d0 idx : chained hm ch → NoDup idx →
  Forall (λ i, 0 ≤ i < table_size hm) idx →
  ∀ hm', hm' = set_store hm (store hm') →
  (∀ i p, i ∈ idx → p ∈ ch i → store hm' !! p = store hm !! p) →
  foldl (λ '(d, hm) i,
      let '(d', hm) := destroy_chain (S (size (store hm))) hm (bucket_head hm i) in (d ++ d', hm))
    (d0, hm') idx =
  (d0 ++ destroyed hm (idx ≫= ch), set_store hm (without (idx ≫= ch) (store hm'))).
Proof.
  intros Hc Hnd His. revert d0. induction His as [|i idx Hi His IH]; intros d0 hm' Ehm Hst.
  - simpl. rewrite Ehm at 1. f_equal. unfold destroyed. destruct (dtor_func hm); by rewrite app_nil_r.
  - apply NoDup_cons in Hnd as [Hni Hnd].
    destruct (ch_dll _ _ Hc i Hi) as [Hl Hndi].
    assert (Eh : bucket_head hm' i = bucket_head hm i) by (by rewrite Ehm).
    assert (Hl' : dll (store hm') None (bucket_head hm i) (ch i)).
    { eapply dll_frame; [|exact Hl]. intros p Hp. apply (Hst i); [left|done]. }
    pose proof (dll_size _ _ _ _ Hl' Hndi). cbn [foldl]. rewrite bind_cons, Eh.
    rewrite (destroy_chain_spec hm' (ch i) None) by (done || lia).
    assert (Hvs : (if dtor_func hm' then value_of hm' <$> ch i else []) = destroyed hm (ch i)).
    { unfold destroyed. rewrite Ehm at 1. simpl. destruct (dtor_func hm); [|done].
      apply list_fmap_ext. intros j p Hp%list_elem_of_lookup_2. unfold value_of.
      rewrite (Hst i); [done|left|done]. }
    rewrite Hvs, IH; [|done|simpl; by rewrite Ehm|].
    + f_equal; [|simpl; by rewrite <-without_app].
      rewrite <-app_assoc. f_equal. unfold destroyed. destruct (dtor_func hm); [|done].
      symmetry. apply fmap_app.
    + intros j p Hj Hp. simpl. rewrite without_lookup, decide_False; [by apply (Hst j); [right|]|].
      intros Hpi. apply Hni. rewrite Forall_forall in His.
      by rewrite (chains_disjoint _ _ i j p Hc Hi (His j Hj) Hpi Hp).
Qed.

Lemma destroy_spec hm m : represents hm m →
  let '(d, st, ohm) := nr_hashmap_destroy (Some hm) in
  d ≡ₚ (if dtor_func hm then (map_to_list m).*2 else []) ∧ st = ∅ ∧ ohm = None.
Proof.
  intros Hr. pose proof Hr as ([ch Hc] & _). unfold nr_hashmap_destroy.
  fold (table_size hm).
  rewrite (destroy_loop hm ch) with (hm' := hm).
  - rewrite <-(visit_spec hm ch) by done. split_and!; [|simpl|done].
    + unfold destroyed. destruct (dtor_func hm); [|done]. simpl.
      rewrite <-(visit_payload hm m) by done.
      assert (Forall (λ p, is_Some (store hm !! p)) (visit hm)) as Hall
        by (apply Forall_forall; intros p; by apply (elem_of_visit hm ch)).
      induction Hall as [|p l [b Hp] _ IH]; [done|]. simpl.
      rewrite payload_lookup, Hp. simpl. rewrite IH. unfold value_of. by rewrite Hp.
    + apply map_eq. intros p. rewrite without_lookup, lookup_empty. case_decide as Hp; [done|].
      rewrite (elem_of_visit hm ch), <-eq_None_not_Some in Hp by done. done.
  - done.
  - apply NoDup_seqZ.
  - apply Forall_forall. intros i Hi%elem_of_seqZ. lia.
  - by destruct hm.
  - done.
Qed.
End invariant.

(** ** Refinement: the operations act on the abstract map *)
Section refinement.
Context {V : Type} `{Pointer V}.
Implicit Types (hm : nr_hashmap_t V) (m : gmap (list Z) V) (ok : option (list Z)) (v : V).

(** A key argument may be [NULL] or empty. *)
Inductive map_op :=
  | OSet ok v | OUpdate ok v | ODelete ok | OGetInto ok | OGet ok | OHas ok | OCount.

Inductive result :=
  | RStatus (b : bool) | RValue (o : option V) | RPointer (v : V) | RCount (n : Z) | RNone.

(** The result, what the destructor was given, the new state. *)
Definition exec (op : map_op) hm : result * list V * option (nr_hashmap_t V) :=
  match op with
  | OSet ok v => let '(b, ohm) := nr_hashmap_set (Some hm) ok v in (RStatus b, [], ohm)
  | OUpdate ok v => let '(d, ohm) := nr_hashmap_update (Some hm) ok v in (RNone, d, ohm)
  | ODelete ok => let '(b, d, ohm) := nr_hashmap_delete (Some hm) ok in (RStatus b, d, ohm)
  | OGetInto ok => (RValue (nr_hashmap_get_into (Some hm) ok true).2, [], Some hm)
  | OGet ok => (RPointer (nr_hashmap_get (Some hm) ok), [], Some hm)
  | OHas ok => (RStatus (nr_hashmap_has (Some hm) ok), [], Some hm)
  | OCount => (RCount (nr_hashmap_count (Some hm)), [], Some hm)
  end.

(** A usable key. *)
Definition key_of ok : option (list Z) := k ← ok; match k with [] => None | _ => Some k end.

Definition lookup_key m ok : option V := k ← key_of ok; m !! k.

Definition spec (d : bool) (op : map_op) m : result * list V * gmap (list Z) V :=
  match op with
  | OSet ok v =>
      match key_of ok, lookup_key m ok with
      | Some k, None => (RStatus true, [], <[k := v]> m)
      | _, _ => (RStatus false, [], m)
      end
  | OUpdate ok v =>
      match key_of ok with
      | Some k => (RNone, if d then option_list (m !! k) else [], <[k := v]> m)
      | None => (RNone, [], m)
      end
  | ODelete ok =>
      match key_of ok, lookup_key m ok with
      | Some k, Some v => (RStatus true, if d then [v] else [], delete k m)
      | _, _ => (RStatus false, [], m)
      end
  | OGetInto ok => (RValue (lookup_key m ok), [], m)
  | OGet ok => (RPointer (default NULL (lookup_key m ok)), [], m)
  | OHas ok => (RStatus (bool_decide (is_Some (lookup_key m ok))), [], m)
  | OCount => (RCount (u64 (Z.of_nat (size m))), [], m)
  end.

(** Runs of both, collecting the results. *)
Definition run_map (ops : list map_op) hm : option (list (result * list V) * nr_hashmap_t V) :=
  foldl (λ acc op,
    '(rs, hm) ← acc;
    let '(r, d, ohm) := exec op hm in hm ← ohm; Some (rs ++ [(r, d)], hm)) (Some ([], hm)) ops.

Definition run_gmap (d : bool) (ops : list map_op) m : list (result * list V) * gmap (list Z) V :=
  foldl (λ '(rs, m) op, let '(r, d, m) := spec d op m in (rs ++ [(r, d)], m)) ([], m) ops.

Lemma value_of_lookup hm p b : store hm !! p = Some b → value_of hm p = value b.
Proof. unfold value_of. by intros ->. Qed.

Lemma get_into_spec hm m ok : represents hm m →
  (nr_hashmap_get_into (Some hm) ok true).2 = lookup_key m ok ∧
  nr_hashmap_has (Some hm) ok = bool_decide (is_Some (lookup_key m ok)).
Proof.
  intros Hr. unfold lookup_key, nr_hashmap_get_into, nr_hashmap_has.
  destruct ok as [[|c k]|]; [done| |done]. simpl.
  pose proof (fetch_spec hm m (c :: k) Hr) as Hf.
  destruct (nr_hashmap_fetch _ _ _) as [p|]; [|by rewrite Hf].
  destruct Hf as (b & Hb & _ & Hm). by rewrite Hm, (value_of_lookup _ _ b).
Qed.

Lemma dtor_unlink hm i p : dtor_func (unlink hm i p) = dtor_func hm.
Proof. unfold unlink. destruct (store hm !! p); [|done]. by destruct (decide _). Qed.

(** Both sides of a refinement step, once they are computed. *)
Ltac exists_spec := do 3 eexists; split; [done|]; split; [done|]; eexists; split; [done|].

Lemma map_exec_refines op hm m : represents hm m →
  ∃ r d hm', exec op hm = (r, d, Some hm') ∧ dtor_func hm' = dtor_func hm ∧
    ∃ m', spec (dtor_func hm) op m = (r, d, m') ∧ represents hm' m'.
Proof.
  intros Hr. destruct op as [ok v|ok v|ok|ok|ok|ok|]; cbn [exec spec].
  4-6: destruct (get_into_spec hm m ok Hr) as [Hg Hh]; unfold nr_hashmap_get;
    rewrite ?Hg, ?Hh; by exists_spec.
  4: pose proof Hr as (_ & _ & He); simpl; rewrite He; by exists_spec.
  all: unfold lookup_key; destruct ok as [[|c k]|]; simpl; [by exists_spec| |by exists_spec];
    pose proof (fetch_spec hm m (c :: k) Hr) as Hf;
    destruct (nr_hashmap_fetch _ _ _) as [p|] eqn:Ef.
  - destruct Hf as (b & _ & _ & ->). by exists_spec.
  - rewrite Hf. exists_spec. by apply add_represents.
  - destruct Hf as (b & Hb & Hk & ->). simpl. rewrite (value_of_lookup _ _ _ Hb).
    exists_spec. rewrite <-Hk. by apply update_represents.
  - rewrite Hf. simpl. replace (if dtor_func hm then [] else []) with (@nil V)
      by (by destruct (dtor_func hm)). exists_spec. by apply add_represents.
  - destruct Hf as (b & Hb & Hk & ->).
    pose proof (delete_represents hm m p b Hr Hb) as Hd. rewrite Hk in Hd.
    unfold nr_hashmap_destroy_bucket in *. destruct Hd as [Hd ?].
    rewrite Hd. do 3 eexists. split; [done|]. split; [apply dtor_unlink|]. by eexists.
  - rewrite Hf. by exists_spec.
Qed.

Lemma run_map_refines ops hm m rs : represents hm m →
  ∃ rs' hm', foldl (λ acc op,
      '(rs, hm) ← acc;
      let '(r, d, ohm) := exec op hm in hm ← ohm; Some (rs ++ [(r, d)], hm)) (Some (rs, hm)) ops =
    Some (rs', hm') ∧ dtor_func hm' = dtor_func hm ∧
    ∃ m', foldl (λ '(rs, m) op, let '(r, d, m) := spec (dtor_func hm) op m in (rs ++ [(r, d)], m))
            (rs, m) ops = (rs', m') ∧ represents hm' m'.
Proof.
  revert hm m rs. induction ops as [|op ops IH]; intros hm m rs Hr; [simpl; eauto 10|].
  destruct (map_exec_refines op hm m Hr) as (r & d & hm1 & E & Hd & m1 & Es & Hr1).
  cbn [foldl]. rewrite Es. cbn [mbind option_bind]. rewrite E. cbn [mbind option_bind].
  destruct (IH hm1 m1 (rs ++ [(r, d)]) Hr1) as (rs' & hm' & E' & Hd' & m' & Em' & Hr').
  exists rs', hm'. split; [exact E'|]. split; [congruence|]. exists m'. by rewrite <-Hd.
Qed.
End refinement.
Arguments map_op : clear implicits.
Arguments result : clear implicits.

(** ** Properties *)

(** C9: hash tables refine finite maps. From creation, whatever sequence of
    sets, updates, deletions, lookups and counts is run (with [NULL] and empty
    keys too), every status, every value returned, every value given to the
    destructor and every count is what the same operations give on a finite map
    from keys to values: neither collisions, nor the linking and unlinking of
    nodes in the middle of a list, nor the number of buckets asked for show. *)
Theorem nr_hashmap_refines_map {V} `{Pointer V} (log2 : Z) (d : bool) (ops : list (map_op V)) :
  0 ≤ log2 →
  ∃ rs hm, run_map ops (nr_hashmap_create_internal log2 d) = Some (rs, hm) ∧
    ∃ m, run_gmap d ops ∅ = (rs, m) ∧ represents hm m.
Proof.
  intros Hl. pose proof (create_represents (V:=V) log2 d Hl) as Hr.
  destruct (run_map_refines ops _ _ [] Hr) as (rs & hm & E & _ & m & Em & Hr').
  exists rs, hm. split; [exact E|]. exists m. split; [exact Em|done].
Qed.

(** Three keys in the same list of a table of two buckets: the middle node is
    deleted. *)
Definition example_ops : list (map_op Z) :=
  [OSet (Some [97]) 1; OSet (Some [98]) 2; OSet (Some [99]) 3; OSet (Some [100]) 4;
   OSet (Some [97]) 5; ODelete (Some [98]); OUpdate (Some [99]) 6; OGet (Some [97]);
   OGet (Some [98]); OGetInto (Some [99]); OHas None; OCount].

Lemma nr_hashmap_refines_map_witness :
  ∃ rs hm, run_map example_ops (nr_hashmap_create_internal 1 true) = Some (rs, hm) ∧
    rs.*2 = [[]; []; []; []; []; [2]; [3]; []; []; []; []; []] ∧
    rs.*1 = [RStatus true; RStatus true; RStatus true; RStatus true; RStatus false;
             RStatus true; RNone; RPointer 1; RPointer 0; RValue (Some 6); RStatus false;
             RCount 3].
Proof.
  destruct (nr_hashmap_refines_map 1 true example_ops ltac:(lia)) as (rs & hm & E & m & Em & _).
  exists rs, hm. split; [exact E|].
  assert (rs = (run_gmap true example_ops ∅).1) as -> by (by rewrite Em).
  split; vm_compute; reflexivity.
Defined.

(** [nr_hashmap_apply] hands each binding of the table to the callback
    exactly once, and [nr_hashmap_destroy] frees every node, gives each stored
    value to the destructor exactly once when there is one, and clears the
    caller's pointer. *)
Theorem nr_hashmap_visits_each_binding_once {V} `{Pointer V} (hm : nr_hashmap_t V)
    (m : gmap (list Z) V) :
  represents hm m →
  nr_hashmap_apply (Some hm) ≡ₚ map_to_list m ∧
  let '(destroyed, store', hm_ptr) := nr_hashmap_destroy (Some hm) in
  destroyed ≡ₚ (if dtor_func hm then (map_to_list m).*2 else []) ∧ store' = ∅ ∧ hm_ptr = None.
Proof. intros Hr. split; [by apply apply_spec|by apply destroy_spec]. Qed.

Lemma nr_hashmap_visits_each_binding_once_witness :
  ∃ rs hm, run_map example_ops (nr_hashmap_create_internal 1 true) = Some (rs, hm) ∧
    (nr_hashmap_destroy (Some hm)).1.1 ≡ₚ [1; 4; 6].
Proof.
  destruct (run_map_refines example_ops (nr_hashmap_create_internal 1 true) ∅ [])
    as (rs & hm & E & Hd & m & Em & Hr); [by apply create_represents|].
  exists rs, hm. split; [exact E|].
  pose proof (proj2 (nr_hashmap_visits_each_binding_once hm m Hr)) as Hw.
  destruct (nr_hashmap_destroy (Some hm)) as [[d st] ohm]. destruct Hw as [Hw _]. simpl.
  rewrite Hw, Hd. assert (m = (run_gmap true example_ops ∅).2) as ->
    by (unfold run_gmap; simpl in Em |- *; by rewrite Em).
  transitivity [4; 6; 1]; [vm_compute; reflexivity|].
  apply (Permutation_app_comm [4; 6] [1]).
Defined.
