(* ===== verification/HashTree.v ===== *)
(** * HashTree: binary search trees by hash, laid out in an array

    The string pool and the metric table both keep their entries in an array
    and link them into a search tree by the index of the children: a larger
    hash to the left, any other to the right.  This file has what the two share:
    the shape a tree of indices has in an array, searching and insertion. *)

From S2P Require Import Prelude.
Local Open Scope Z_scope.

(** The interface an entry type provides. *)
Class HashNode (E : Type) := {
  node_hash : E → Z;
  node_left : E → Z;
  node_right : E → Z;
  (** Make an index the child on the side a hash goes to. *)
  node_link : Z → Z → E → E;
}.
#[global] Hint Mode HashNode ! : typeclass_instances.

Class HashNodeLaws (E : Type) `{HashNode E} : Prop := {
  link_hash : ∀ h n (e : E), node_hash (node_link h n e) = node_hash e;
  link_left : ∀ h n (e : E), node_left (node_link h n e) = if node_hash e <? h then n else node_left e;
  link_right : ∀ h n (e : E), node_right (node_link h n e) = if node_hash e <? h then node_right e else n;
}.

Inductive tree := Leaf | Node (l : tree) (i : Z) (r : tree).

#[export] Instance tree_eq_dec : EqDecision tree.
Proof. solve_decision. Defined.

Fixpoint nodes (t : tree) : list Z :=
  match t with Leaf => [] | Node l i r => i :: nodes l ++ nodes r end.

(** Larger hashes on the left, others on the right. *)
Fixpoint bst (key : Z → Z) (t : tree) : Prop :=
  match t with
  | Leaf => True
  | Node l i r => bst key l ∧ bst key r ∧
      Forall (λ j, key i < key j) (nodes l) ∧ Forall (λ j, key j ≤ key i) (nodes r)
  end.

(** Searching by the hash [h] with a test of the entries. *)
Fixpoint search (key : Z → Z) (test : Z → bool) (none h : Z) (t : tree) : Z :=
  match t with
  | Leaf => none
  | Node l i r =>
      if test i then i
      else if key i <? h then search key test none h l else search key test none h r
  end.

Fixpoint insert (key : Z → Z) (h n : Z) (t : tree) : tree :=
  match t with
  | Leaf => Node Leaf n Leaf
  | Node l i r => if key i <? h then Node (insert key h n l) i r else Node l i (insert key h n r)
  end.

(** The node under which [insert] hangs the new one. *)
Fixpoint parent_of (key : Z → Z) (none h : Z) (t : tree) : Z :=
  match t with
  | Leaf => none
  | Node l i r =>
      let c := if key i <? h then l else r in
      match c with Leaf => i | _ => parent_of key none h c end
  end.

(** The search is sound, and complete because of the order. *)
Lemma search_spec key test none h t : bst key t → Forall (λ i, i ≠ none) (nodes t) →
  (∀ i, test i = true → key i = h) →
  if decide (search key test none h t = none) then Forall (λ i, test i = false) (nodes t)
  else let j := search key test none h t in j ∈ nodes t ∧ test j = true.
Proof.
  intros Hb Hp Htest. induction t as [|l IHl i r IHr]; simpl in Hb, Hp |- *.
  { by rewrite decide_True. }
  destruct Hb as (Hl & Hr & Hlt & Hle). apply Forall_cons in Hp as [Hi [Hpl Hpr]%Forall_app].
  destruct (test i) eqn:Em; [rewrite decide_False by done; split; [left|done]|].
  assert (Hno : ∀ j, key j ≠ h → test j = false).
  { intros j Hj. destruct (test j) eqn:E; [|done]. by apply Htest in E. }
  destruct (Z.ltb_spec (key i) h).
  - specialize (IHl Hl Hpl). destruct (decide (search key test none h l = none)).
    + constructor; [done|]. apply Forall_app. split; [done|].
      eapply Forall_impl; [exact Hle|]. intros j Hj. apply Hno. simpl in Hj. lia.
    + split; [right; apply elem_of_app; left|]; apply IHl.
  - specialize (IHr Hr Hpr). destruct (decide (search key test none h r = none)).
    + constructor; [done|]. apply Forall_app. split; [|done].
      eapply Forall_impl; [exact Hlt|]. intros j Hj. apply Hno. simpl in Hj. lia.
    + split; [right; apply elem_of_app; right|]; apply IHr.
Qed.

Lemma nodes_insert key h n t : nodes (insert key h n t) ≡ₚ n :: nodes t.
Proof.
  induction t as [|l IHl i r IHr]; simpl; [done|].
  destruct (key i <? h); simpl; [rewrite IHl|rewrite IHr].
  - by rewrite Permutation_swap.
  - rewrite Permutation_swap. f_equiv. symmetry. apply Permutation_middle.
Qed.

Lemma parent_in key none h t : t ≠ Leaf → parent_of key none h t ∈ nodes t.
Proof.
  induction t as [|l IHl i r IHr]; simpl; [done|]. intros _.
  destruct (key i <? h).
  - destruct l; [left|]. right. apply elem_of_app. left. by apply IHl.
  - destruct r; [left|]. right. apply elem_of_app. right. by apply IHr.
Qed.

Lemma bst_insert key h n t : bst key t → key n = h → bst key (insert key h n t).
Proof.
  intros Ht Hn. induction t as [|l IHl i r IHr]; simpl; [done|].
  destruct Ht as (Hl & Hr & Hlt & Hle). destruct (Z.ltb_spec (key i) h); simpl.
  - split_and!; [by apply IHl|done| |done]. rewrite nodes_insert. constructor; [lia|done].
  - split_and!; [done|by apply IHr|done|]. rewrite nodes_insert. constructor; [lia|done].
Qed.

Lemma bst_ext key key' t : (∀ i, i ∈ nodes t → key' i = key i) → bst key t → bst key' t.
Proof.
  induction t as [|l IHl i r IHr]; intros Hf; simpl; [done|].
  intros (Hl & Hr & Hlt & Hle).
  assert (Hn : ∀ j, j ∈ nodes l ∨ j ∈ nodes r → key' j = key j)
    by (intros; apply Hf; right; by apply elem_of_app).
  rewrite Forall_forall in Hlt, Hle. rewrite !Forall_forall. split_and!.
  - apply IHl; auto.
  - apply IHr; auto.
  - intros j Hj. rewrite (Hf i), Hn; [auto|auto|left].
  - intros j Hj. rewrite (Hf i), Hn; [auto|auto|left].
Qed.

Lemma insert_ext key key' h n t : (∀ i, i ∈ nodes t → key' i = key i) →
  insert key' h n t = insert key h n t.
Proof.
  induction t as [|a IHa i b IHb]; intros Hk; [done|]. simpl. rewrite (Hk i) by left.
  rewrite IHa, IHb; [done|..]; intros j Hj; apply Hk; right; apply elem_of_app; auto.
Qed.

(** ** Trees in an array

    The first entry has index [base]; the index before it means no child. *)
Section array.
Context {E : Type} `{HashNodeLaws E} (base : Z).
Implicit Types (es : list E) (e : E).

Definition entry es (i : Z) : option E := es !! Z.to_nat (i - base).

(** The entries from index [idx] on are laid out as [t]. *)
Fixpoint rep es (idx : Z) (t : tree) : Prop :=
  match t with
  | Leaf => idx = base - 1
  | Node l i r => idx = i ∧ base ≤ i ∧ ∃ e, entry es i = Some e ∧
      rep es (node_left e) l ∧ rep es (node_right e) r
  end.

Definition key es (i : Z) : Z := from_option node_hash 0 (entry es i).

Definition link es (parent h n : Z) : list E :=
  alter (node_link h n) (Z.to_nat (parent - base)) es.

(** A tree of all the entries. *)
Definition tree_of es (t : tree) : Prop :=
  rep es (if decide (es = []) then base - 1 else base) t ∧ bst (key es) t ∧
  nodes t ≡ₚ seqZ base (Z.of_nat (length es)).

Lemma rep_frame es es' idx t :
  (∀ i, i ∈ nodes t → entry es' i = entry es i) → rep es idx t → rep es' idx t.
Proof.
  revert idx. induction t as [|l IHl i r IHr]; intros idx Hf; simpl; [done|].
  intros (-> & Hi & e & He & Hl & Hr). split_and!; [done..|]. exists e.
  rewrite Hf by left. split_and!; [done| |].
  - apply IHl; [|done]. intros. apply Hf. right. apply elem_of_app. by left.
  - apply IHr; [|done]. intros. apply Hf. right. apply elem_of_app. by right.
Qed.

Lemma rep_range es idx t i : rep es idx t → i ∈ nodes t →
  base ≤ i < base + Z.of_nat (length es).
Proof.
  revert idx. induction t as [|l IHl j r IHr]; intros idx Hr Hi; [by apply not_elem_of_nil in Hi|].
  destruct Hr as (_ & Hj & e & He & Hl & Hr). apply elem_of_cons in Hi as [->|Hi].
  - apply lookup_lt_Some in He. lia.
  - apply elem_of_app in Hi as [?|?]; eauto.
Qed.

(** The index of the root of a tree. *)
Lemma rep_root es idx t : rep es idx t → idx = base - 1 ∧ t = Leaf ∨ base ≤ idx ∧ t ≠ Leaf.
Proof. destruct t; simpl; [by left|]. intros (-> & ? & _). by right. Qed.

Section insertion.
Context (es : list E) (h : Z) (new : E).
Context (Hnl : node_left new = base - 1) (Hnr : node_right new = base - 1).
Let n := base + Z.of_nat (length es).

Lemma link_ne parent i : base ≤ i < n → base ≤ parent → i ≠ parent →
  entry (link (es ++ [new]) parent h n) i = entry es i.
Proof.
  intros. unfold link, entry. rewrite list_lookup_alter_ne by lia.
  by rewrite lookup_app_l by lia.
Qed.

Lemma entry_new parent : parent < n → base ≤ parent →
  entry (link (es ++ [new]) parent h n) n = Some new.
Proof.
  intros. unfold link, entry. rewrite list_lookup_alter_ne by lia.
  replace (Z.to_nat (n - base)) with (length es) by lia. by apply list_lookup_middle.
Qed.

Lemma entry_parent parent e : entry es parent = Some e →
  entry (link (es ++ [new]) parent h n) parent = Some (node_link h n e).
Proof.
  intros He. unfold link, entry in *. rewrite list_lookup_alter_eq.
  rewrite lookup_app_l by (by apply lookup_lt_Some in He). by rewrite He.
Qed.

Lemma rep_link parent idx t : rep es idx t → base ≤ parent → parent ∉ nodes t →
  rep (link (es ++ [new]) parent h n) idx t.
Proof.
  intros Hr Hp Hni. eapply rep_frame; [|exact Hr]. intros i Hi.
  apply link_ne; [by eapply rep_range|done|congruence].
Qed.

(** What becomes of the root: it gets the new child, or stays and the child
    is hung deeper. *)
Lemma rep_insert_here i e (other : tree) : entry es i = Some e → base ≤ i →
  let side := node_hash e <? h in
  rep es (if side then node_right e else node_left e) other → i ∉ nodes other →
  rep (link (es ++ [new]) i h n) i
    (if side then Node (Node Leaf n Leaf) i other else Node other i (Node Leaf n Leaf)).
Proof.
  intros He Hi side Ho Hni. pose proof (entry_parent i e He) as Hlp.
  assert (i < n) by (apply lookup_lt_Some in He; lia).
  assert (Hleaf : rep (link (es ++ [new]) i h n) n (Node Leaf n Leaf)).
  { split_and!; [done|lia|]. exists new. split; [by apply entry_new|done]. }
  pose proof (rep_link i _ _ Ho Hi Hni). pose proof (link_left h n e) as Hll.
  pose proof (link_right h n e) as Hlr. fold side in Hll, Hlr.
  destruct side; (split_and!; [done..|]); eexists; (split; [exact Hlp|]);
    rewrite Hll, Hlr; by split.
Qed.

Lemma rep_insert_deep i e (sub' other : tree) parent : entry es i = Some e → base ≤ i →
  let side := node_hash e <? h in
  rep es (if side then node_right e else node_left e) other → base ≤ parent → parent ≠ i →
  parent ∉ nodes other →
  rep (link (es ++ [new]) parent h n) (if side then node_left e else node_right e) sub' →
  rep (link (es ++ [new]) parent h n) i (if side then Node sub' i other else Node other i sub').
Proof.
  intros He Hi side Ho Hp Hne Hni Hs. pose proof (rep_link parent _ _ Ho Hp Hni).
  assert (entry (link (es ++ [new]) parent h n) i = Some e).
  { rewrite link_ne; [done|apply lookup_lt_Some in He; lia|done|done]. }
  destruct side; (split_and!; [done..|]); exists e; by split_and!.
Qed.

Lemma rep_insert none idx t : rep es idx t → t ≠ Leaf → NoDup (nodes t) →
  rep (link (es ++ [new]) (parent_of (key es) none h t) h n) idx (insert (key es) h n t).
Proof.
  revert idx. induction t as [|l IHl i r IHr]; intros idx Hr Ht Hnd; [done|].
  destruct Hr as (-> & Hi & e & He & Hl & Hr). simpl nodes in Hnd.
  apply NoDup_cons in Hnd as [Hni Hnd]. apply NoDup_app in Hnd as (Hndl & Hdisj & Hndr).
  assert ((i ∉ nodes l) ∧ (i ∉ nodes r)) as [Hil Hir]
    by (split; intros ?; apply Hni, elem_of_app; auto).
  assert (key es i = node_hash e) as Hk by (unfold key; by rewrite He).
  simpl parent_of. simpl insert. rewrite Hk.
  assert (Hsub : ∀ sub x, rep es x sub → sub ≠ Leaf → i ∉ nodes sub →
    base ≤ parent_of (key es) none h sub ∧ parent_of (key es) none h sub ≠ i).
  { intros sub x Hs Hsl Hin. pose proof (parent_in (key es) none h sub Hsl) as Hp.
    split; [by apply (rep_range _ _ _ _ Hs Hp)|congruence]. }
  pose proof (rep_insert_here i e) as Hhere. pose proof (rep_insert_deep i e) as Hdeep.
  destruct (node_hash e <? h) eqn:Eh.
  - destruct (decide (l = Leaf)) as [->|Hl'].
    + specialize (Hhere r He Hi). by apply Hhere.
    + destruct (Hsub _ _ Hl Hl' Hil). set (p := parent_of (key es) none h l) in *.
      replace (match l with Leaf => i | _ => _ end) with p by (by destruct l).
      specialize (Hdeep (insert (key es) h n l) r p He Hi).
      apply Hdeep; [done..| |by apply IHl]. apply Hdisj. by apply parent_in.
  - destruct (decide (r = Leaf)) as [->|Hr'].
    + specialize (Hhere l He Hi). by apply Hhere.
    + destruct (Hsub _ _ Hr Hr' Hir). set (p := parent_of (key es) none h r) in *.
      replace (match r with Leaf => i | _ => _ end) with p by (by destruct r).
      specialize (Hdeep (insert (key es) h n r) l p He Hi).
      apply Hdeep; [done..| |by apply IHr]. intros Hp. by apply (Hdisj _ Hp), parent_in.
Qed.
End insertion.

Lemma lookup_link es parent h m i e : es !! i = Some e →
  ∃ e', link es parent h m !! i = Some e' ∧ (e' = e ∨ e' = node_link h m e).
Proof.
  intros He. unfold link. destruct (decide (Z.to_nat (parent - base) = i)) as [->|].
  - rewrite list_lookup_alter_eq, He. simpl. eauto.
  - rewrite list_lookup_alter_ne by done. eauto.
Qed.

Lemma link_key es parent h m i : key (link es parent h m) i = key es i.
Proof.
  unfold key, entry. destruct (es !! Z.to_nat (i - base)) as [e|] eqn:E'.
  - destruct (lookup_link es parent h m _ _ E') as (e' & -> & [->| ->]); [done|].
    simpl. apply link_hash.
  - unfold link. rewrite (lookup_ge_None_2 (alter _ _ _)); [done|].
    rewrite length_alter. by apply lookup_ge_None.
Qed.

Lemma length_link es parent h m : length (link es parent h m) = length es.
Proof. apply length_alter. Qed.

(** Adding an entry at the end of the array and hanging it in the tree. *)
Definition append es (t : tree) (h : Z) (new : E) : list E :=
  if decide (es = []) then [new]
  else link (es ++ [new]) (parent_of (key es) (base - 1) h t) h (base + Z.of_nat (length es)).

Lemma tree_leaf es t : tree_of es t → t = Leaf ↔ es = [].
Proof.
  intros (_ & _ & Hn). split.
  - intros ->. apply Permutation_length in Hn. rewrite length_seqZ in Hn.
    destruct es; [done|]. simpl in Hn. lia.
  - intros ->. destruct t; [done|]. by apply Permutation_length in Hn.
Qed.

Lemma tree_parent es t none h : tree_of es t → es ≠ [] →
  base ≤ parent_of (key es) none h t < base + Z.of_nat (length es).
Proof.
  intros Ht Hes. assert (t ≠ Leaf) as Hl by (intros E'; by apply Hes, (tree_leaf es t)).
  pose proof (parent_in (key es) none h t Hl) as Hin. destruct Ht as (_ & _ & Hn).
  rewrite Hn in Hin. by apply elem_of_seqZ in Hin.
Qed.

(** Searching the array: an index that passes the test, or none does. *)
Lemma tree_search es t test h : tree_of es t →
  (∀ i, test i = true → key es i = h) →
  let j := search (key es) test (base - 1) h t in
  if decide (j = base - 1)
  then ∀ i, base ≤ i < base + Z.of_nat (length es) → test i = false
  else base ≤ j < base + Z.of_nat (length es) ∧ test j = true.
Proof.
  intros (_ & Hb & Hn) Htest j.
  pose proof (search_spec (key es) test (base - 1) h t Hb) as Hs. fold j in Hs.
  assert (Forall (λ i, i ≠ base - 1) (nodes t)) as Hne.
  { rewrite Hn. apply Forall_forall. intros i Hi%elem_of_seqZ. lia. }
  specialize (Hs Hne Htest). destruct (decide (j = base - 1)).
  - intros i Hi. rewrite Forall_forall in Hs. apply Hs. rewrite Hn. by apply elem_of_seqZ.
  - destruct Hs as [Hj ?]. rewrite Hn in Hj. by apply elem_of_seqZ in Hj.
Qed.

Lemma append_key es t h new i : key (append es t h new) i = key (es ++ [new]) i.
Proof. unfold append. case_decide as Hes; [by subst|]. apply link_key. Qed.

Lemma length_append es t h new : length (append es t h new) = S (length es).
Proof.
  unfold append. case_decide as Hes; [by subst|].
  rewrite length_link, length_app. simpl. lia.
Qed.

Lemma tree_append es t h new :
  node_left new = base - 1 → node_right new = base - 1 → node_hash new = h →
  tree_of es t → ∃ t', tree_of (append es t h new) t'.
Proof.
  intros Hnl Hnr Hh Ht. pose proof Ht as (Hr & Hb & Hn).
  set (n := base + Z.of_nat (length es)).
  assert (Hkey : ∀ i, i ∈ nodes t → key (append es t h new) i = key es i).
  { intros i Hi. rewrite append_key. unfold key, entry.
    rewrite Hn in Hi. apply elem_of_seqZ in Hi. by rewrite lookup_app_l by lia. }
  assert (Hkn : key (append es t h new) n = h).
  { rewrite append_key. unfold key, entry, n.
    replace (Z.to_nat _) with (length es) by lia. by rewrite list_lookup_middle. }
  exists (insert (key es) h n t). split_and!.
  - rewrite decide_False by (intros E'; by apply (f_equal length) in E'; rewrite length_append in E').
    unfold append. case_decide as Hes.
    + rewrite (proj2 (tree_leaf es t Ht) Hes). subst es. unfold n. simpl.
      split_and!; [lia|lia|]. exists new. split; [|done]. unfold entry.
      by replace (Z.to_nat _) with 0%nat by lia.
    + apply rep_insert; [done..| |rewrite Hn; apply NoDup_seqZ].
      intros E'. by apply Hes, (tree_leaf es t).
  - rewrite <-(insert_ext (key es) (key (append es t h new)) h n t Hkey).
    apply bst_insert; [|done]. by eapply bst_ext.
  - rewrite nodes_insert, Hn, length_append. unfold n.
    replace (Z.of_nat (S (length es))) with (Z.of_nat (length es) + 1) by lia.
    rewrite (seqZ_app base (Z.of_nat (length es)) 1) by lia.
    rewrite Permutation_app_comm. by simpl.
Qed.
(** Children come after their parents: no search runs in circles. *)
Definition later es : Prop := ∀ i e, es !! i = Some e →
  (node_left e = base - 1 ∨ base + Z.of_nat i < node_left e < base + Z.of_nat (length es)) ∧
  (node_right e = base - 1 ∨ base + Z.of_nat i < node_right e < base + Z.of_nat (length es)).

Lemma later_append es t h new : node_left new = base - 1 → node_right new = base - 1 →
  tree_of es t → later es → later (append es t h new).
Proof.
  intros Hnl Hnr Ht Hes i e. rewrite length_append. unfold append.
  assert (Hold : ∀ j e0, (es ++ [new]) !! j = Some e0 →
    (node_left e0 = base - 1 ∨ base + Z.of_nat j < node_left e0 < base + Z.of_nat (length es)) ∧
    (node_right e0 = base - 1 ∨ base + Z.of_nat j < node_right e0 < base + Z.of_nat (length es))).
  { intros j e0 [Hj|[? Hj]]%lookup_app_Some; [by apply Hes|].
    apply list_lookup_singleton_Some in Hj as [_ <-]. by split; left. }
  case_decide as He.
  { subst es. intros Hi. destruct (Hold i e Hi) as [? ?]. simpl in *. split; lia. }
  intros Hi. destruct (decide (i < S (length es))%nat) as [Hlt|Hge].
  - destruct (lookup_lt_is_Some_2 (es ++ [new]) i) as [e0 He0].
    { rewrite length_app. simpl. lia. }
    unfold link in Hi. destruct (decide (Z.to_nat (parent_of (key es) (base - 1) h t - base) = i)) as [Hp|Hp].
    + rewrite Hp, list_lookup_alter_eq, He0 in Hi. injection Hi as <-.
      destruct (Hold i e0 He0) as [? ?]. rewrite link_left, link_right.
      pose proof (tree_parent es t (base - 1) h Ht He).
      destruct (node_hash e0 <? h); split; lia.
    + rewrite list_lookup_alter_ne, He0 in Hi by done. injection Hi as <-.
      destruct (Hold i e0 He0). split; lia.
  - apply lookup_lt_Some in Hi. rewrite length_link, length_app in Hi. simpl in Hi. lia.
Qed.

(** A change that keeps the hashes and the children keeps the tree. *)
Lemma tree_same es es' t :
  (∀ i, (λ e, (node_hash e, node_left e, node_right e)) <$> es' !! i =
        (λ e, (node_hash e, node_left e, node_right e)) <$> es !! i) →
  (tree_of es t → tree_of es' t) ∧ (later es → later es').
Proof.
  intros Hs. assert (Hlen : length es' = length es).
  { apply Nat.le_antisymm; apply Nat.le_ngt; intros Hl.
    - destruct (lookup_lt_is_Some_2 es' (length es) Hl) as [e He]. specialize (Hs (length es)).
      by rewrite He, (lookup_ge_None_2 es) in Hs by lia.
    - destruct (lookup_lt_is_Some_2 es (length es') Hl) as [e He]. specialize (Hs (length es')).
      by rewrite He, (lookup_ge_None_2 es') in Hs by lia. }
  assert (Hkey : ∀ i, key es' i = key es i).
  { intros i. unfold key, entry. specialize (Hs (Z.to_nat (i - base))).
    destruct (es' !! _), (es !! _); simplify_eq/=; congruence. }
  split.
  - intros (Hr & Hb & Hn). split_and!; [|eapply bst_ext; [|exact Hb]; auto|by rewrite Hlen].
    assert ((if decide (es' = []) then base - 1 else base) =
            (if decide (es = []) then base - 1 else base)) as ->
      by (clear -Hlen; destruct es, es'; simplify_eq/=; done).
    clear Hn Hb. revert Hr. generalize (if decide (es = []) then base - 1 else base).
    induction t as [|l IHl j r IHr]; intros idx; simpl; [done|].
    intros (-> & Hj & e & He & Hl & Hr). split_and!; [done..|].
    unfold entry in *. specialize (Hs (Z.to_nat (j - base))). rewrite He in Hs.
    destruct (es' !! _) as [e'|]; [|done]. injection Hs as _ El Er. exists e'.
    split; [done|]. rewrite El, Er. auto.
  - intros Hl i e' He'. specialize (Hs i). rewrite He' in Hs.
    destruct (es !! i) as [e|] eqn:He; [|done]. injection Hs as _ -> ->. rewrite Hlen. by apply Hl.
Qed.
End array.
