(* ===== verification/StringPool.v ===== *)
(** * StringPool: interned strings (src/axiom/util_string_pool.c)

    Entries form a binary search tree by hash, linked by 1-based indices; the
    bytes of the strings live in tables that are filled one after the other. *)

From S2P Require Import Prelude Memory CString Hash HashTree.
Local Open Scope Z_scope.

(** ** State *)
Record nrstring_t := NrString { hash : Z; length_ : Z; left : Z; right : Z }.

Record nrstable_t := Table {
  num_bytes_used : Z;
  num_bytes_allocated : Z;
  bytes : list Z;
}.

(** The linked list of tables is kept oldest first: the head of the C list is
    the last one.  A string pointer is a table and an offset in its bytes.  The
    two growing arrays hold their initialised part; [size_] is what is
    allocated. *)
Record nrstrpool_t := Pool {
  num_entries : Z;
  size_ : Z;
  entries : list nrstring_t;
  strings : list (nat * Z);
  tables : list nrstable_t;
}.

Definition NR_STRPOOL_STARTING_SIZE : Z := 4096.
Definition NR_STRPOOL_INCREASE_SIZE : Z := 4096.
Definition NR_STRPOOL_TABLE_SIZE : Z := 32768.

(** Past the initialised part the arrays are only read at index 1 of an empty
    pool, where they are still zeroed. *)
Definition zero_entry : nrstring_t := NrString 0 0 0 0.
Definition entry_at (pool : nrstrpool_t) (idx : Z) : nrstring_t :=
  default zero_entry (entries pool !! Z.to_nat (idx - 1)).

Definition string_at (pool : nrstrpool_t) (idx : Z) : option (list Z) :=
  '(t, off) ← strings pool !! Z.to_nat (idx - 1);
  tb ← tables pool !! t;
  Some (cstr (drop (Z.to_nat off) (bytes tb))).

(** ** Access *)
Definition bad_index (pool : option nrstrpool_t) (idx : Z) : bool :=
  match pool with None => true | Some p => (idx <=? 0) || (num_entries p <? idx) end.

Definition nr_string_len (pool : option nrstrpool_t) (idx : Z) : Z :=
  match pool with
  | Some p => if bad_index pool idx then -1 else length_ (entry_at p idx)
  | None => -1
  end.

Definition nr_string_hash (pool : option nrstrpool_t) (idx : Z) : Z :=
  match pool with
  | Some p => if bad_index pool idx then 0 else hash (entry_at p idx)
  | None => 0
  end.

Definition nr_string_get (pool : option nrstrpool_t) (idx : Z) : option (list Z) :=
  match pool with
  | Some p => if bad_index pool idx then None else string_at p idx
  | None => None
  end.

Definition nr_string_pool_create : nrstrpool_t := Pool 0 NR_STRPOOL_STARTING_SIZE [] [] [].

(** ** Search *)
Definition matches (pool : nrstrpool_t) (s : list Z) (h len idx : Z) : bool :=
  (h =? hash (entry_at pool idx)) && (len =? length_ (entry_at pool idx)) &&
  (nr_strcmp (Some s) (string_at pool idx) =? 0).

Definition child (e : nrstring_t) (h : Z) : Z := if hash e <? h then left e else right e.

Fixpoint find_loop (fuel : nat) (pool : nrstrpool_t) (s : list Z) (h len idx : Z) : Z :=
  match fuel with
  | O => 0
  | S fuel =>
      if 0 <? idx then
        if matches pool s h len idx then idx
        else find_loop fuel pool s h len (child (entry_at pool idx) h)
      else 0
  end.

(** Children come later in the array than their parents, so the search takes
    at most one round per entry, and one for an empty pool. *)
Definition nr_string_find_internal (pool : option nrstrpool_t) (s : option (list Z)) (h len : Z) : Z :=
  match pool, s with
  | Some p, Some s =>
      if len <? 0 then 0 else find_loop (S (S (length (entries p)))) p s h len 1
  | _, _ => 0
  end.

Definition nr_string_find (pool : option nrstrpool_t) (s : option (list Z)) : Z :=
  let '(h, len) := nr_mkhash s (Some 0) in nr_string_find_internal pool s h (default 0 len).

Definition nr_string_find_with_hash (pool : option nrstrpool_t) (s : option (list Z)) (h : Z) : Z :=
  nr_string_find_internal pool s h (nr_strlen s).

Definition nr_string_find_with_hash_length (pool : option nrstrpool_t) (s : option (list Z))
    (h len : Z) : Z :=
  nr_string_find_internal pool s h len.

(** ** Insertion *)

(** The loop stops at a match ([inl]) or at the parent of the new node
    ([inr]). *)
Fixpoint add_loop (fuel : nat) (pool : nrstrpool_t) (s : list Z) (h len idx : Z) : Z + Z :=
  match fuel with
  | O => inr idx
  | S fuel =>
      if matches pool s h len idx then inl idx
      else
        let next := child (entry_at pool idx) h in
        if next =? 0 then inr idx else add_loop fuel pool s h len next
  end.

Definition grow_pool (p : nrstrpool_t) : nrstrpool_t :=
  if size_ p =? num_entries p
  then Pool (num_entries p) (size_ p + NR_STRPOOL_INCREASE_SIZE) (entries p) (strings p) (tables p)
  else p.

(** The table with room for the string: the newest one or a new one. *)
Definition ensure_table (tbs : list nrstable_t) (len : Z) : list nrstable_t :=
  let required := len + 1 in
  let fresh :=
    let size := if NR_STRPOOL_TABLE_SIZE <? required then required else NR_STRPOOL_TABLE_SIZE in
    tbs ++ [Table 0 size (replicate (Z.to_nat size) 0)] in
  match last tbs with
  | None => fresh
  | Some t => if num_bytes_allocated t - num_bytes_used t <? required then fresh else tbs
  end.

(** [nr_strcpy] into a table, its terminator included. *)
Definition store_string (t : nrstable_t) (s : list Z) (len : Z) : nrstable_t :=
  Table (num_bytes_used t + (len + 1)) (num_bytes_allocated t)
    (list_inserts (Z.to_nat (num_bytes_used t)) (cstr s ++ [0]) (bytes t)).

(** Hanging the new entry under its parent. *)
Definition link_child (es : list nrstring_t) (parent h new : Z) : list nrstring_t :=
  alter (λ e, if hash e <? h then NrString (hash e) (length_ e) new (right e)
              else NrString (hash e) (length_ e) (left e) new) (Z.to_nat (parent - 1)) es.

Definition append_string (p : nrstrpool_t) (s : list Z) (h len parent : Z) : Z * nrstrpool_t :=
  let new_string := num_entries p in
  let tbs := ensure_table (tables p) len in
  let t := (length tbs - 1)%nat in
  let offset := default 0 (num_bytes_used <$> tbs !! t) in
  let tbs := alter (λ tb, store_string tb s len) t tbs in
  let es := entries p ++ [NrString h len 0 0] in
  let es := if parent =? 0 then es else link_child es parent h (new_string + 1) in
  (new_string + 1, Pool (num_entries p + 1) (size_ p) es (strings p ++ [(t, offset)]) tbs).

Definition nr_string_add_internal (pool : option nrstrpool_t) (s : option (list Z)) (h len : Z) :
    Z * option nrstrpool_t :=
  match pool, s with
  | Some p, Some s =>
      if len <? 0 then (0, pool)
      else
        let p := grow_pool p in
        if num_entries p =? 0 then
          let '(idx, p) := append_string p s h len 0 in (idx, Some p)
        else
          match add_loop (S (length (entries p))) p s h len 1 with
          | inl idx => (idx, Some p)
          | inr parent => let '(idx, p) := append_string p s h len parent in (idx, Some p)
          end
  | _, _ => (0, pool)
  end.

Definition nr_string_add (pool : option nrstrpool_t) (s : option (list Z)) : Z * option nrstrpool_t :=
  let '(h, len) := nr_mkhash s (Some 0) in nr_string_add_internal pool s h (default 0 len).

Definition nr_string_add_with_hash (pool : option nrstrpool_t) (s : option (list Z)) (h : Z) :=
  nr_string_add_internal pool s h (nr_strlen s).

Definition nr_string_add_with_hash_length (pool : option nrstrpool_t) (s : option (list Z))
    (h len : Z) :=
  nr_string_add_internal pool s h len.

(** The strings handed to the callback, in order. *)
Definition nr_string_pool_apply (pool : option nrstrpool_t) : list (option (list Z) * Z) :=
  match pool with
  | None => []
  | Some p => (λ i, (string_at p (i + 1), length_ (entry_at p (i + 1)))) <$> seqZ 0 (num_entries p)
  end.

Definition nr_string_pool_destroy (pool : option nrstrpool_t) : option nrstrpool_t := None.

(** ** The search tree *)
#[export] Instance nrstring_node : HashNode nrstring_t := {|
  node_hash := hash; node_left := left; node_right := right;
  node_link h n e := if hash e <? h then NrString (hash e) (length_ e) n (right e)
                     else NrString (hash e) (length_ e) (left e) n |}.

#[export] Instance nrstring_node_laws : HashNodeLaws nrstring_t.
Proof. split; intros h n e; simpl; by destruct (hash e <? h). Qed.

Lemma matches_key p s h len i : matches p s h len i = true → key 1 (entries p) i = h.
Proof.
  unfold matches, key, entry, entry_at. intros Hm.
  destruct (entries p !! Z.to_nat (i - 1)); simpl in *; lia.
Qed.

Lemma find_loop_search p s h len fuel idx t :
  rep 1 (entries p) idx t → (length (nodes t) < fuel)%nat →
  find_loop fuel p s h len idx = search (key 1 (entries p)) (matches p s h len) 0 h t.
Proof.
  revert fuel idx. induction t as [|l IHl i r IHr]; intros [|fuel] idx Hr Hf;
    simpl in Hr, Hf; try lia; simpl.
  - by subst idx.
  - destruct Hr as (-> & Hi & e & He & Hl & Hr). rewrite length_app in Hf.
    destruct (Z.ltb_spec 0 i); [|lia]. destruct (matches p s h len i); [done|].
    unfold entry in He. unfold child, key, entry, entry_at. rewrite He. simpl.
    destruct (hash e <? h); [apply IHl|apply IHr]; done || lia.
Qed.

Lemma add_loop_search p s h len fuel idx t :
  rep 1 (entries p) idx t → t ≠ Leaf → (length (nodes t) ≤ fuel)%nat →
  add_loop fuel p s h len idx =
  let j := search (key 1 (entries p)) (matches p s h len) 0 h t in
  if j =? 0 then inr (parent_of (key 1 (entries p)) 0 h t) else inl j.
Proof.
  revert fuel idx. induction t as [|l IHl i r IHr]; intros [|fuel] idx Hr Hnl Hf;
    simpl in Hr, Hf; try done; try lia; simpl.
  destruct Hr as (-> & Hi & e & He & Hl & Hr). rewrite length_app in Hf.
  destruct (matches p s h len i); [by destruct (Z.eqb_spec i 0); [lia|]|].
  unfold entry in He. unfold child, entry_at.
  assert (key 1 (entries p) i = hash e) as -> by (unfold key, entry; by rewrite He).
  rewrite He. simpl. destruct (hash e <? h).
  - destruct (rep_root _ _ _ _ Hl) as [[-> ->]|[? Hl']]; [done|].
    destruct (Z.eqb_spec (left e) 0); [lia|]. rewrite (IHl fuel (left e)) by (done || lia).
    by destruct l.
  - destruct (rep_root _ _ _ _ Hr) as [[-> ->]|[? Hr']]; [done|].
    destruct (Z.eqb_spec (right e) 0); [lia|]. rewrite (IHr fuel (right e)) by (done || lia).
    by destruct r.
Qed.

(** ** The tables *)
Definition table_ok (tb : nrstable_t) : Prop :=
  0 ≤ num_bytes_used tb ≤ num_bytes_allocated tb ∧
  length (bytes tb) = Z.to_nat (num_bytes_allocated tb).

(** The terminated string [s] is stored at [off], in the used part. *)
Definition region (tb : nrstable_t) (off : Z) (s : list Z) : Prop :=
  0 ≤ off ∧ off + Z.of_nat (length s) + 1 ≤ num_bytes_used tb ∧
  take (S (length s)) (drop (Z.to_nat off) (bytes tb)) = s ++ [0].

Lemma region_read tb off s : is_cstr s → region tb off s →
  cstr (drop (Z.to_nat off) (bytes tb)) = s.
Proof.
  intros Hs (_ & _ & Hr). rewrite <-(take_drop (S (length s)) (drop _ _)), Hr, <-app_assoc.
  by apply cstr_app.
Qed.

Lemma take_drop_prefix {A} (l1 l2 l1' : list A) o n : (o + n ≤ length l1)%nat →
  take n (drop o (l1 ++ l2)) = take n (drop o (l1 ++ l1')).
Proof.
  intros. rewrite !drop_app_le, !take_app_le by (rewrite ?length_drop; lia). done.
Qed.

Lemma store_string_spec tb s : is_cstr s → table_ok tb →
  num_bytes_used tb + (Z.of_nat (length s) + 1) ≤ num_bytes_allocated tb →
  let tb' := store_string tb s (Z.of_nat (length s)) in
  table_ok tb' ∧ region tb' (num_bytes_used tb) s ∧
  ∀ off s', region tb off s' → region tb' off s'.
Proof.
  intros Hs [Hu Hl] Hroom tb'. unfold tb', store_string. rewrite (cstr_id s) by done.
  assert (length (s ++ [0]) = S (length s)) as Hlen by (rewrite length_app; simpl; lia).
  rewrite inserts_app by (rewrite Hlen; lia). rewrite Hlen.
  set (u := Z.to_nat (num_bytes_used tb)).
  assert (length (take u (bytes tb)) = u) as Hut by (rewrite length_take; lia).
  split_and!.
  - split; simpl; [lia|]. rewrite !length_app, length_drop, Hut. simpl. lia.
  - split_and!; simpl; [lia|lia|]. fold u. rewrite drop_app_length' by done.
    by rewrite take_app_length' by done.
  - intros off s' (Ho & Hos & Hr). split_and!; simpl; [done|lia|].
    rewrite <-Hr. rewrite <-(take_drop u (bytes tb)) at 3.
    apply take_drop_prefix. rewrite Hut. lia.
Qed.

Lemma ensure_table_spec tbs len : Forall table_ok tbs → 0 ≤ len →
  ∃ pre tb, ensure_table tbs len = pre ++ [tb] ∧ Forall table_ok pre ∧ table_ok tb ∧
    num_bytes_used tb + (len + 1) ≤ num_bytes_allocated tb ∧
    ∀ t x, tbs !! t = Some x → ensure_table tbs len !! t = Some x.
Proof.
  intros Hok Hlen. unfold ensure_table.
  set (size := if NR_STRPOOL_TABLE_SIZE <? len + 1 then len + 1 else NR_STRPOOL_TABLE_SIZE).
  assert (len + 1 ≤ size) by (unfold size; bool_cases).
  assert (Hnew : ∃ pre tb, tbs ++ [Table 0 size (replicate (Z.to_nat size) 0)] = pre ++ [tb] ∧
    Forall table_ok pre ∧ table_ok tb ∧
    num_bytes_used tb + (len + 1) ≤ num_bytes_allocated tb ∧
    ∀ t x, tbs !! t = Some x → (tbs ++ [Table 0 size (replicate (Z.to_nat size) 0)]) !! t = Some x).
  { eexists _, _. split; [done|]. split_and!; [done| |simpl; lia|].
    - split; simpl; [lia|by rewrite length_replicate].
    - intros t x Ht. by apply lookup_app_l_Some. }
  destruct (last tbs) as [tb|] eqn:El; [|done].
  destruct (Z.ltb_spec (num_bytes_allocated tb - num_bytes_used tb) (len + 1)); [done|].
  apply last_Some in El as [pre ->]. apply Forall_app in Hok as [Hpre Htb].
  apply Forall_cons in Htb as [Htb _]. exists pre, tb. do 3 (split; [done|]). split; [lia|done].
Qed.

(** ** The pool represents a list of distinct strings *)
Definition hash_of (s : list Z) : Z := (nr_mkhash (Some s) (Some 0)).1.

Lemma nr_mkhash_cstr s : is_cstr s →
  nr_mkhash (Some s) (Some 0) = (hash_of s, Some (Z.of_nat (length s))).
Proof.
  intros Hs. unfold hash_of. destruct (nr_mkhash (Some s) (Some 0)) as [h l] eqn:E. simpl. f_equal.
  unfold nr_mkhash in E. destruct Hs as [|c s Hc Hs]; [by injection E|].
  unfold char_at in E. simpl lookup in E. simpl default in E.
  destruct (Z.eqb_spec c 0); [lia|]. injection E as _ <-.
  simpl nr_strlen. destruct (Z.eqb_spec c 0); [lia|]. by rewrite cstr_id.
Qed.

Record pool_inv (p : nrstrpool_t) (l : list (list Z)) : Prop := {
  pi_entries : num_entries p = Z.of_nat (length l);
  pi_cstr : Forall is_cstr l;
  pi_nodup : NoDup l;
  pi_hash : ∀ i s, l !! i = Some s →
    ∃ e, entries p !! i = Some e ∧ hash e = hash_of s ∧ length_ e = Z.of_nat (length s);
  pi_length : length (entries p) = length l ∧ length (strings p) = length l;
  pi_strings : ∀ i s, l !! i = Some s → ∃ t off tb,
    strings p !! i = Some (t, off) ∧ tables p !! t = Some tb ∧ region tb off s;
  pi_tables : Forall table_ok (tables p);
  pi_tree : ∃ t, tree_of 1 (entries p) t;
}.

Lemma pool_create : pool_inv nr_string_pool_create [].
Proof. split; simpl; try done; [constructor|]. by exists Leaf. Qed.

Lemma string_at_inv p l i s : pool_inv p l → l !! i = Some s →
  string_at p (Z.of_nat i + 1) = Some s.
Proof.
  intros Hp Hi. destruct (pi_strings _ _ Hp _ _ Hi) as (t & off & tb & Hs & Ht & Hr).
  unfold string_at. replace (Z.to_nat (Z.of_nat i + 1 - 1)) with i by lia.
  rewrite Hs. simpl. rewrite Ht. simpl. f_equal. apply region_read; [|done].
  pose proof (pi_cstr _ _ Hp) as Hc. rewrite Forall_lookup in Hc. eauto.
Qed.

Lemma matches_inv p l i s s' : pool_inv p l → is_cstr s → l !! i = Some s' →
  matches p s (hash_of s) (Z.of_nat (length s)) (Z.of_nat i + 1) = bool_decide (s = s').
Proof.
  intros Hp Hs Hi. unfold matches. rewrite (string_at_inv p l i s') by done.
  destruct (pi_hash _ _ Hp _ _ Hi) as (e & He & Hh & Hl). unfold entry_at.
  replace (Z.to_nat (Z.of_nat i + 1 - 1)) with i by lia. rewrite He. simpl. rewrite Hh, Hl.
  assert (is_cstr s') as Hs' by (pose proof (pi_cstr _ _ Hp) as Hc; rewrite Forall_lookup in Hc; eauto).
  pose proof (strcmp_eq s s' Hs Hs') as Hc. destruct (bool_decide_reflect (s = s')) as [->|Hne].
  - rewrite !Z.eqb_refl. simpl. apply Z.eqb_eq. by apply Hc.
  - apply andb_false_iff. right. apply Z.eqb_neq. tauto.
Qed.

(** Position of a string, from 1, or 0. *)
Definition index_of (l : list (list Z)) (s : list Z) : Z :=
  match list_find (λ x, s = x) l with Some (i, _) => Z.of_nat i + 1 | None => 0 end.

Lemma search_index p l t s : pool_inv p l → is_cstr s → tree_of 1 (entries p) t →
  search (key 1 (entries p)) (matches p s (hash_of s) (Z.of_nat (length s))) 0 (hash_of s) t =
  index_of l s.
Proof.
  intros Hp Hs Ht. pose proof (proj1 (pi_length _ _ Hp)) as Hle.
  pose proof (tree_search 1 _ _ (matches p s (hash_of s) (Z.of_nat (length s))) (hash_of s) Ht
    (matches_key p s _ _)) as Hsp. change (1 - 1) with 0 in Hsp. cbv zeta in Hsp.
  set (j := search _ _ 0 _ t) in *. rewrite Hle in Hsp.
  assert (Hm : ∀ i, 1 ≤ i < 1 + Z.of_nat (length l) → ∃ y, l !! Z.to_nat (i - 1) = Some y ∧
    matches p s (hash_of s) (Z.of_nat (length s)) i = bool_decide (s = y)).
  { intros i Hi. destruct (lookup_lt_is_Some_2 l (Z.to_nat (i - 1)) ltac:(lia)) as [y Hy].
    exists y. split; [done|]. rewrite <-(matches_inv p l _ s y) by done. f_equal. lia. }
  unfold index_of. destruct (list_find _ l) as [[i x]|] eqn:E.
  - apply list_find_Some in E as (Hi & <- & _). pose proof (lookup_lt_Some _ _ _ Hi).
    pose proof (matches_inv p l i s s Hp Hs Hi) as Hmi. rewrite bool_decide_true in Hmi by done.
    destruct (decide (j = 0)) as [|Hj0]; [rewrite Hsp in Hmi by lia; done|].
    destruct Hsp as [Hj Hmj]. destruct (Hm j Hj) as (y & Hy & Hmy).
    rewrite Hmj in Hmy. symmetry in Hmy. apply bool_decide_eq_true in Hmy as <-.
    pose proof (NoDup_lookup _ _ _ _ (pi_nodup _ _ Hp) Hi Hy). lia.
  - apply list_find_None in E. rewrite Forall_lookup in E. destruct (decide (j = 0)); [done|].
    destruct Hsp as [Hj Hmj]. destruct (Hm j Hj) as (y & Hy & Hmy).
    rewrite Hmj in Hmy. symmetry in Hmy. apply bool_decide_eq_true in Hmy. by apply E in Hy.
Qed.

Lemma grow_pool_inv p l : pool_inv p l → pool_inv (grow_pool p) l.
Proof. intros [? ? ? ? ? ? ? ?]. unfold grow_pool. by destruct (_ =? _); split. Qed.

(** An old position of the extended list, or the last one. *)
Lemma lookup_snoc_cases {A} (l : list A) x i y : (l ++ [x]) !! i = Some y →
  l !! i = Some y ∨ i = length l ∧ y = x.
Proof.
  intros [?|[? Hi]]%lookup_app_Some; [by left|right].
  assert (i = length l) as -> by (apply lookup_lt_Some in Hi; simpl in Hi; lia).
  rewrite Nat.sub_diag in Hi. by injection Hi.
Qed.

Section append.
Context (p : nrstrpool_t) (l : list (list Z)) (s : list Z) (t : tree).
Context (Hp : pool_inv p l) (Hs : is_cstr s) (Hnew : s ∉ l) (Ht : tree_of 1 (entries p) t).
Let h := hash_of s.
Let len := Z.of_nat (length s).
Let n := Z.of_nat (length l) + 1.
Let new := NrString h len 0 0.
Let es' := append 1 (entries p) t h new.

(** The C code's test of the parent amounts to the pool being empty. *)
Lemma append_entries :
  (let es := entries p ++ [new] in
   let parent := parent_of (key 1 (entries p)) 0 h t in
   if parent =? 0 then es else link_child es parent h n) = es'.
Proof.
  pose proof (proj1 (pi_length _ _ Hp)) as Hle. unfold es', append.
  case_decide as He; cbv zeta.
  - by rewrite (proj2 (tree_leaf 1 _ _ Ht) He), He.
  - pose proof (tree_parent 1 _ _ 0 h Ht He).
    destruct (Z.eqb_spec (parent_of (key 1 (entries p)) 0 h t) 0); [lia|].
    unfold n. rewrite <-Hle, Z.add_comm. done.
Qed.

Lemma append_tables :
  let tbs := ensure_table (tables p) len in
  let tbs' := alter (λ tb, store_string tb s len) (length tbs - 1)%nat tbs in
  let off := default 0 (num_bytes_used <$> tbs !! (length tbs - 1)%nat) in
  Forall table_ok tbs' ∧
  (∃ tb, tbs' !! (length tbs - 1)%nat = Some tb ∧ region tb off s) ∧
  ∀ k tb o s', tables p !! k = Some tb → region tb o s' →
    ∃ tb', tbs' !! k = Some tb' ∧ region tb' o s'.
Proof.
  destruct (ensure_table_spec (tables p) len (pi_tables _ _ Hp) ltac:(unfold len; lia))
    as (pre & tb & E & Hpre & Htb & Hroom & Hkeep).
  intros tbs tbs' off. unfold tbs', off. unfold tbs in *. rewrite E.
  rewrite length_app, Nat.add_sub, list_lookup_middle by done. simpl.
  destruct (store_string_spec tb s Hs Htb Hroom) as (Hok & Hreg & Hold). fold len in Hok, Hreg, Hold.
  assert (Hal : alter (λ tb, store_string tb s len) (length pre) (pre ++ [tb]) =
                pre ++ [store_string tb s len]).
  { rewrite <-(Nat.add_0_r (length pre)). by rewrite alter_app_r. }
  rewrite Hal. split_and!.
  - apply Forall_app. split; [done|]. by constructor.
  - eexists. by rewrite list_lookup_middle.
  - intros k tb0 o s' Hk Hr. apply Hkeep in Hk. rewrite E in Hk.
    destruct (decide (k = length pre)) as [->|].
    + rewrite list_lookup_middle in Hk |- * by done. simplify_eq. eauto.
    + exists tb0. split; [|done]. apply lookup_app_Some in Hk as [?|[? Hk]]; [by apply lookup_app_l_Some|].
      apply lookup_lt_Some in Hk. simpl in Hk. lia.
Qed.

Lemma append_hash i x : (l ++ [s]) !! i = Some x →
  ∃ e, es' !! i = Some e ∧ hash e = hash_of x ∧ length_ e = Z.of_nat (length x).
Proof.
  intros Hx.
  assert (∃ e, (entries p ++ [new]) !! i = Some e ∧ hash e = hash_of x ∧
    length_ e = Z.of_nat (length x)) as (e & He & Hh & Hl).
  { apply lookup_snoc_cases in Hx as [Hx|[-> ->]].
    - destruct (pi_hash _ _ Hp _ _ Hx) as (e & ? & ?). exists e. split; [|done].
      by apply lookup_app_l_Some.
    - exists new. split; [|done]. rewrite <-(proj1 (pi_length _ _ Hp)). by apply list_lookup_middle. }
  unfold es', append. case_decide as Hes; [rewrite Hes in He; eauto|].
  edestruct (lookup_link 1 (entries p ++ [new])) as (e' & -> & [->| ->]); [exact He|eauto|].
  eexists. split; [done|]. simpl. by destruct (_ <? _).
Qed.

Lemma append_inv :
  let '(i, p') := append_string p s h len (parent_of (key 1 (entries p)) 0 h t) in
  i = n ∧ pool_inv p' (l ++ [s]).
Proof.
  pose proof (pi_length _ _ Hp) as [Hle Hls]. pose proof (pi_entries _ _ Hp) as Hn.
  destruct append_tables as (Htok & (tb & Htb & Hreg) & Hold).
  unfold append_string. rewrite Hn. fold new n. pose proof append_entries as Hes. cbv zeta in Hes.
  rewrite Hes. split; [done|].
  assert (length es' = S (length l)) as Hles by (unfold es'; by rewrite length_append, Hle).
  split; cbn [num_entries entries strings tables].
  - rewrite length_app. simpl. lia.
  - apply Forall_app. split; [apply Hp|by constructor].
  - apply NoDup_app. split_and!; [apply Hp| |apply NoDup_singleton].
    intros x Hx ->%list_elem_of_singleton. done.
  - apply append_hash.
  - rewrite Hles, !length_app. simpl. lia.
  - intros i x [Hx|[-> ->]]%lookup_snoc_cases.
    + destruct (pi_strings _ _ Hp _ _ Hx) as (k & o & tb0 & ? & Hk & Hr).
      destruct (Hold _ _ _ _ Hk Hr) as (tb' & ? & ?). exists k, o, tb'.
      split_and!; [by apply lookup_app_l_Some|done|done].
    + rewrite <-Hls. eexists _, _, tb.
      split; [by apply list_lookup_middle|split; [exact Htb|exact Hreg]].
  - exact Htok.
  - by apply tree_append.
Qed.
End append.

(** ** The operations on the list of strings *)
Definition intern (l : list (list Z)) (s : list Z) : list (list Z) :=
  if decide (s ∈ l) then l else l ++ [s].

Lemma index_of_not_in l s : s ∉ l → index_of l s = 0.
Proof.
  intros Hs. unfold index_of. destruct (list_find _ l) as [[i x]|] eqn:E; [|done].
  apply list_find_Some in E as (Hi & <- & _). by apply list_elem_of_lookup_2 in Hi.
Qed.

Lemma index_of_in l s : s ∈ l → index_of l s ≠ 0.
Proof.
  intros Hs. unfold index_of. destruct (list_find _ l) as [[i x]|] eqn:E; [lia|].
  apply list_find_None in E. rewrite Forall_forall in E. by destruct (E s Hs).
Qed.

Lemma index_of_snoc l s : s ∉ l → index_of (l ++ [s]) s = Z.of_nat (length l) + 1.
Proof.
  intros Hs. unfold index_of. rewrite list_find_app_r.
  - simpl. rewrite decide_True by done. simpl. lia.
  - apply list_find_None, Forall_forall. by intros x Hx <-.
Qed.

Lemma find_spec p l s : pool_inv p l → is_cstr s →
  nr_string_find (Some p) (Some s) = index_of l s.
Proof.
  intros Hp Hs. unfold nr_string_find. rewrite nr_mkhash_cstr by done.
  unfold nr_string_find_internal. cbn [default from_option id].
  destruct (Z.ltb_spec (Z.of_nat (length s)) 0); [lia|].
  destruct (pi_tree _ _ Hp) as (t & Ht). pose proof Ht as (Hr & _ & Hn).
  destruct (pi_length _ _ Hp) as [Hle Hls]. destruct (decide (l = [])) as [->|].
  - apply nil_length_inv in Hle, Hls. cbn [find_loop]. unfold matches, child, entry_at, string_at.
    rewrite Hle, Hls. simpl. rewrite andb_false_r. by destruct (0 <? hash_of s).
  - rewrite <-(search_index p l t s) by done. apply find_loop_search.
    + by rewrite decide_False in Hr by (intros E; rewrite E in Hle; by destruct l).
    + rewrite Hn, length_seqZ. lia.
Qed.

Lemma append_result p l s t idx :
  pool_inv p l → is_cstr s → s ∉ l → tree_of 1 (entries p) t →
  idx = parent_of (key 1 (entries p)) 0 (hash_of s) t →
  ∃ p', (let '(i, p') := append_string p s (hash_of s) (Z.of_nat (length s)) idx in (i, Some p')) =
    (index_of (intern l s) s, Some p') ∧ pool_inv p' (intern l s).
Proof.
  intros Hp Hs Hnew Ht ->. pose proof (append_inv p l s t Hp Hs Hnew Ht) as Ha.
  destruct (append_string _ _ _ _ _) as [i p']. destruct Ha as [-> Hp']. exists p'.
  unfold intern. by rewrite decide_False, index_of_snoc by done.
Qed.

Lemma add_spec p l s : pool_inv p l → is_cstr s →
  ∃ p', nr_string_add (Some p) (Some s) = (index_of (intern l s) s, Some p') ∧
    pool_inv p' (intern l s).
Proof.
  intros Hp0 Hs. unfold nr_string_add. rewrite nr_mkhash_cstr by done. unfold nr_string_add_internal.
  simpl default. destruct (Z.ltb_spec (Z.of_nat (length s)) 0); [lia|].
  apply grow_pool_inv in Hp0 as Hp. set (q := grow_pool p) in *. clearbody q. clear Hp0.
  destruct (pi_tree _ _ Hp) as (t & Ht). pose proof Ht as (Hr & _ & Hn).
  destruct (pi_length _ _ Hp) as [Hle Hls]. pose proof (pi_entries _ _ Hp) as Hne.
  destruct (Z.eqb_spec (num_entries q) 0) as [H0|].
  - assert (l = []) as -> by (destruct l; [done|simpl in Hne; lia]).
    apply (append_result q [] s t); try done; [by apply not_elem_of_nil|].
    apply nil_length_inv in Hle. by rewrite (proj2 (tree_leaf 1 _ _ Ht) Hle).
  - assert (entries q ≠ []) as He0 by (intros E; rewrite E in Hle; simpl in Hle; lia).
    rewrite decide_False in Hr by done.
    rewrite (add_loop_search q s _ _ _ 1 t); [|done|by intros E; apply He0, (tree_leaf 1 _ t)|].
    + cbv zeta. rewrite (search_index q l t s) by done. destruct (decide (s ∈ l)) as [Hin|Hout].
      * pose proof (index_of_in _ _ Hin). unfold intern. rewrite decide_True by done.
        destruct (Z.eqb_spec (index_of l s) 0); [done|]. by exists q.
      * rewrite index_of_not_in by done. simpl. by apply (append_result q l s t).
    + rewrite Hn, length_seqZ. lia.
Qed.

Definition nth_string (l : list (list Z)) (i : Z) : option (list Z) :=
  if (i <=? 0) || (Z.of_nat (length l) <? i) then None else l !! Z.to_nat (i - 1).

Lemma access_spec p l i : pool_inv p l →
  nr_string_get (Some p) i = nth_string l i ∧
  nr_string_len (Some p) i = from_option (λ s, Z.of_nat (length s)) (-1) (nth_string l i) ∧
  nr_string_hash (Some p) i = from_option hash_of 0 (nth_string l i).
Proof.
  intros Hp. unfold nr_string_get, nr_string_len, nr_string_hash, nth_string, bad_index.
  rewrite (pi_entries _ _ Hp).
  destruct (Z.leb_spec i 0), (Z.ltb_spec (Z.of_nat (length l)) i); try done. simpl.
  destruct (lookup_lt_is_Some_2 l (Z.to_nat (i - 1)) ltac:(lia)) as [s Hs]. rewrite Hs. simpl.
  pose proof (string_at_inv p l _ s Hp Hs) as Hat.
  replace (Z.of_nat (Z.to_nat (i - 1)) + 1) with i in Hat by lia. rewrite Hat.
  destruct (pi_hash _ _ Hp _ _ Hs) as (e & He & Hh & Hl). unfold entry_at. by rewrite He.
Qed.

(** What callers do with a pool. *)
Inductive pool_op := Add (s : option (list Z)) | Find (s : option (list Z)) | Get (i : Z) | Len (i : Z).
Inductive pool_result := RIndex (i : Z) | RString (s : option (list Z)).

Definition op_ok (op : pool_op) : Prop :=
  match op with Add (Some s) | Find (Some s) => is_cstr s | _ => True end.

Definition exec (op : pool_op) (pool : option nrstrpool_t) : pool_result * option nrstrpool_t :=
  match op with
  | Add s => let '(i, pool) := nr_string_add pool s in (RIndex i, pool)
  | Find s => (RIndex (nr_string_find pool s), pool)
  | Get i => (RString (nr_string_get pool i), pool)
  | Len i => (RIndex (nr_string_len pool i), pool)
  end.

Definition spec (op : pool_op) (l : list (list Z)) : pool_result * list (list Z) :=
  match op with
  | Add (Some s) => (RIndex (index_of (intern l s) s), intern l s)
  | Find (Some s) => (RIndex (index_of l s), l)
  | Add None | Find None => (RIndex 0, l)
  | Get i => (RString (nth_string l i), l)
  | Len i => (RIndex (from_option (λ s, Z.of_nat (length s)) (-1) (nth_string l i)), l)
  end.

(** ** Properties *)

(** C30: a string pool interns strings. Whatever sequence of additions, searches
    and accesses is run on a fresh pool ([NULL] strings and out-of-range indices
    too), every index, string and length returned is that of a list of distinct
    strings in order of first addition: adding a string again gives its first
    index, searching finds exactly the strings added, whatever their hashes and
    the shape of the tree, and the bytes of a string survive all later
    additions, across new tables. *)
Theorem nr_string_pool_interns (ops : list pool_op) :
  Forall op_ok ops →
  let '(rs, pool) := run exec ops (Some nr_string_pool_create) in
  ∃ p l, pool = Some p ∧ run spec ops [] = (rs, l) ∧ pool_inv p l.
Proof.
  induction ops as [|op ops IH] using rev_ind; intros Hops.
  { exists nr_string_pool_create, []. split_and!; [done..|]. apply pool_create. }
  apply Forall_app in Hops as [Hops Hop]. apply Forall_cons in Hop as [Hop _]. specialize (IH Hops).
  rewrite !run_snoc. destruct (run exec ops _) as [rs pool]. destruct IH as (p & l & -> & -> & Hp).
  destruct op as [[s|]|[s|]|i|i]; cbn [op_ok exec spec] in Hop |- *.
  - destruct (add_spec p l s Hp Hop) as (p' & -> & Hp'). by exists p', (intern l s).
  - by exists p, l.
  - exists p, l. by rewrite (find_spec p l s).
  - by exists p, l.
  - exists p, l. by rewrite (proj1 (access_spec p l i Hp)).
  - exists p, l. by rewrite (proj1 (proj2 (access_spec p l i Hp))).
Qed.

Lemma nr_string_pool_interns_witness :
  let ops := [Find (Some []); Add (Some [97; 98]); Add (Some []); Add (Some [99]); Add (Some [97; 98]);
              Find (Some [99]); Find (Some [100]); Get 1; Get 4; Len 2; Add None] in
  (run exec ops (Some nr_string_pool_create)).1 =
  [RIndex 0; RIndex 1; RIndex 2; RIndex 3; RIndex 1; RIndex 3; RIndex 0;
   RString (Some [97; 98]); RString None; RIndex 0; RIndex 0].
Proof.
  intros ops. assert (Hok : Forall op_ok ops).
  { repeat (apply Forall_cons_2; [try exact I; repeat (apply Forall_cons_2; [lia|]); constructor|]).
    constructor. }
  pose proof (nr_string_pool_interns ops Hok) as Hw.
  destruct (run exec ops _) as [rs pool]. destruct Hw as (p & l & _ & Hs & _). simpl.
  change rs with (rs, l).1. rewrite <-Hs. vm_compute. reflexivity.
Defined.
