(* ===== verification/Metrics.v ===== *)
(** * Metrics: the metric table (src/axiom/util_metrics.c)

    Metrics sit in a growing array, linked into a search tree by the hash of
    their name; the names are interned in the table's own string pool.  The
    64-bit sums wrap. *)

From S2P Require Import Prelude CString Hash HashTree StringPool.
Local Open Scope Z_scope.
Set Warnings "-clear-no-such-hyp".

(** ** State *)
Definition MET_IS_APDEX : Z := 1.
Definition MET_FORCED : Z := 2.

Definition NRM_COUNT : nat := 0.
Definition NRM_SATISFYING : nat := 0.
Definition NRM_TOTAL : nat := 1.
Definition NRM_TOLERATING : nat := 1.
Definition NRM_EXCLUSIVE : nat := 2.
Definition NRM_FAILING : nat := 2.
Definition NRM_MIN : nat := 3.
Definition NRM_MAX : nat := 4.
Definition NRM_SUMSQUARES : nat := 5.

Definition NR_TIME_MAX : Z := 2 ^ 64 - 1.
Definition NRM_DEFAULT_MAX_SIZE : Z := 2048.

Record nrmetric_t := Metric {
  m_hash : Z;
  m_left : Z;
  m_right : Z;
  flags : Z;
  name_index : Z;
  mdata : list Z;
}.

Record nrmtable_t := MetricTable {
  number : Z;
  allocated : Z;
  max_size : Z;
  metrics : list nrmetric_t;
  strpool : nrstrpool_t;
}.

(** A pointer to a metric of the table is its index. *)
Definition metric_at (table : nrmtable_t) (i : Z) : option nrmetric_t :=
  metrics table !! Z.to_nat i.

Definition set_metrics (table : nrmtable_t) (ms : list nrmetric_t) : nrmtable_t :=
  MetricTable (number table) (allocated table) (max_size table) ms (strpool table).

Definition attribute (metric : option nrmetric_t) (a : nat) : Z :=
  match metric with None => 0 | Some m => default 0 (mdata m !! a) end.

Definition nrm_satisfying metric := attribute metric NRM_SATISFYING.
Definition nrm_tolerating metric := attribute metric NRM_TOLERATING.
Definition nrm_failing metric := attribute metric NRM_FAILING.
Definition nrm_count metric := attribute metric NRM_COUNT.
Definition nrm_total metric := attribute metric NRM_TOTAL.
Definition nrm_exclusive metric := attribute metric NRM_EXCLUSIVE.
Definition nrm_min metric := attribute metric NRM_MIN.
Definition nrm_max metric := attribute metric NRM_MAX.
Definition nrm_sumsquares metric := attribute metric NRM_SUMSQUARES.

Definition nrm_is_apdex (metric : option nrmetric_t) : bool :=
  match metric with Some m => negb (Z.land (flags m) MET_IS_APDEX =? 0) | None => false end.
Definition nrm_is_forced (metric : option nrmetric_t) : bool :=
  match metric with Some m => negb (Z.land MET_FORCED (flags m) =? 0) | None => false end.

Definition nrm_table_create (max : Z) : nrmtable_t :=
  let max := if max <=? 0 then NRM_DEFAULT_MAX_SIZE else max in
  MetricTable 0 max max [] nr_string_pool_create.

(** The caller's pointer afterwards. *)
Definition nrm_table_destroy (table_p : option (option nrmtable_t)) : option (option nrmtable_t) :=
  (λ _, None) <$> table_p.

Definition nrm_table_size (table : option nrmtable_t) : Z :=
  match table with None => 0 | Some t => number t end.

Definition nrm_get_metric (table : option nrmtable_t) (i : Z) : option nrmetric_t :=
  match table with
  | Some t => if (0 <=? i) && (i <? number t) then metric_at t i else None
  | None => None
  end.

Definition nrm_get_name (table : option nrmtable_t) (metric : option nrmetric_t) : option (list Z) :=
  match table, metric with
  | Some t, Some m => nr_string_get (Some (strpool t)) (name_index m)
  | _, _ => None
  end.

(** ** Searching *)
Definition nrm_hash (name : option (list Z)) : Z := (nr_mkhash name None).1.

Definition m_matches (table : nrmtable_t) (name : option (list Z)) (h i : Z) : bool :=
  match metric_at table i with
  | None => false
  | Some m => (h =? m_hash m) &&
      (nr_strcmp name (nr_string_get (Some (strpool table)) (name_index m)) =? 0)
  end.

Definition m_child (table : nrmtable_t) (i h : Z) : Z :=
  match metric_at table i with
  | None => -1
  | Some m => if m_hash m <? h then m_left m else m_right m
  end.

(** The index found, -1 for [NULL].  Children come after their parents, so one
    round per metric is enough. *)
Fixpoint m_find_loop (fuel : nat) (table : nrmtable_t) (name : option (list Z)) (h i : Z) : Z :=
  match fuel with
  | O => -1
  | S fuel =>
      if i =? -1 then -1
      else if m_matches table name h i then i
      else m_find_loop fuel table name h (m_child table i h)
  end.

Definition nrm_find_internal (table : option nrmtable_t) (name : option (list Z)) (h : Z) : Z :=
  match table with
  | None => -1
  | Some t =>
      if number t =? 0 then -1 else m_find_loop (S (length (metrics t))) t name h 0
  end.

Definition nrm_find (table : option nrmtable_t) (name : option (list Z)) : Z :=
  nrm_find_internal table name (nrm_hash name).

(** ** Creation *)

(** The loop that looks for the free place of the new metric. *)
Fixpoint place_loop (fuel : nat) (table : nrmtable_t) (h i : Z) : Z :=
  match fuel with
  | O => i
  | S fuel =>
      let c := m_child table i h in
      if c =? -1 then i else place_loop fuel table h c
  end.

Definition link_metric (ms : list nrmetric_t) (parent h new : Z) : list nrmetric_t :=
  alter (λ m, if m_hash m <? h
              then Metric (m_hash m) new (m_right m) (flags m) (name_index m) (mdata m)
              else Metric (m_hash m) (m_left m) new (flags m) (name_index m) (mdata m))
    (Z.to_nat parent) ms.

(** The new index, -1 for [NULL]. *)
Definition nrm_create (table : option nrmtable_t) (name : option (list Z)) (h : Z) :
    Z * option nrmtable_t :=
  match table, name with
  | Some t, Some _ =>
      let allocated' :=
        if allocated t <=? number t then allocated t + NRM_DEFAULT_MAX_SIZE else allocated t in
      let new_index := number t in
      let '(name_index, pool) := nr_string_add (Some (strpool t)) name in
      let new_metric := Metric h (-1) (-1) 0 name_index [0; 0; 0; NR_TIME_MAX; 0; 0] in
      let t' := MetricTable (number t + 1) allocated' (max_size t) (metrics t ++ [new_metric])
                  (default (strpool t) pool) in
      if new_index =? 0 then (new_index, Some t')
      else
        let parent := place_loop (length (metrics t)) t h 0 in
        (new_index, Some (set_metrics t' (link_metric (metrics t') parent h new_index)))
  | _, _ => (-1, table)
  end.

Definition nrm_is_full (table : option nrmtable_t) : bool :=
  match table with Some t => max_size t <=? number t | None => false end.

(** ** Adding *)
Definition set_flag (f : Z) (m : nrmetric_t) : nrmetric_t :=
  Metric (m_hash m) (m_left m) (m_right m) (Z.lor (flags m) f) (name_index m) (mdata m).
Definition update_metric (t : nrmtable_t) (i : Z) (f : nrmetric_t → nrmetric_t) : nrmtable_t :=
  set_metrics t (alter f (Z.to_nat i) (metrics t)).

Definition add_to (a : nat) (x : Z) (d : list Z) : list Z := alter (λ y, u64 (y + x)) a d.
Definition lower_to (a : nat) (x : Z) (d : list Z) : list Z := alter (λ y, if x <? y then x else y) a d.
Definition raise_to (a : nat) (x : Z) (d : list Z) : list Z := alter (λ y, if y <? x then x else y) a d.
Definition set_mdata (m : nrmetric_t) (d : list Z) : nrmetric_t :=
  Metric (m_hash m) (m_left m) (m_right m) (flags m) (name_index m) d.

Definition add_values (count total exclusive min max sum_of_squares : Z) (m : nrmetric_t) : nrmetric_t :=
  let d := mdata m in
  let d := add_to NRM_COUNT count d in
  let d := add_to NRM_TOTAL total d in
  let d := add_to NRM_EXCLUSIVE exclusive d in
  let d := lower_to NRM_MIN min d in
  let d := raise_to NRM_MAX max d in
  set_mdata m (add_to NRM_SUMSQUARES sum_of_squares d).

(** "Supportability/MetricsDropped" *)
Definition MetricsDropped : list Z :=
  [83; 117; 112; 112; 111; 114; 116; 97; 98; 105; 108; 105; 116; 121; 47; 77; 101; 116; 114; 105;
   99; 115; 68; 114; 111; 112; 112; 101; 100].

(** The index found or made, -1 for [NULL].  A full table records the drop with
    [nrm_force_add], which comes back here with [force] and cannot drop in turn:
    two levels of the recursion are enough. *)
Fixpoint nrm_find_or_create (level : nat) (force : bool) (table : option nrmtable_t)
    (name : option (list Z)) : Z * option nrmtable_t :=
  let hash := nrm_hash name in
  match table, name with
  | Some t, Some _ =>
      let i := nrm_find_internal table name hash in
      if (i =? -1) && (nrm_is_full table && negb force) then
        match level with
        | O => (-1, table)
        | S level =>
            let '(j, table) := nrm_find_or_create level true table (Some MetricsDropped) in
            (-1, if j =? -1 then table
                 else (λ t, update_metric t j (add_values 1 0 0 0 0 0)) <$> table)
        end
      else
        let '(i, table) := if i =? -1 then nrm_create table name hash else (i, table) in
        (i, if force && negb (i =? -1)
            then (λ t, update_metric t i (set_flag MET_FORCED)) <$> table else table)
  | _, _ => (-1, table)
  end.

Definition nrm_add_internal (force : bool) (table : option nrmtable_t) (name : option (list Z))
    (count total exclusive min max sum_of_squares : Z) : option nrmtable_t :=
  let '(i, table) := nrm_find_or_create 1 force table name in
  if i =? -1 then table
  else (λ t, update_metric t i (add_values count total exclusive min max sum_of_squares)) <$> table.

Definition nrm_add_ex (table : option nrmtable_t) name (duration exclusive : Z) :=
  nrm_add_internal false table name 1 duration exclusive duration duration (u64 (duration * duration)).
Definition nrm_force_add_ex (table : option nrmtable_t) name (duration exclusive : Z) :=
  nrm_add_internal true table name 1 duration exclusive duration duration (u64 (duration * duration)).
Definition nrm_add (table : option nrmtable_t) name (duration : Z) :=
  nrm_add_internal false table name 1 duration duration duration duration (u64 (duration * duration)).
Definition nrm_force_add (table : option nrmtable_t) name (duration : Z) :=
  nrm_add_internal true table name 1 duration duration duration duration (u64 (duration * duration)).

Definition add_apdex_values (satisfying tolerating failing min_apdex max_apdex : Z)
    (m : nrmetric_t) : nrmetric_t :=
  let m := set_flag MET_IS_APDEX m in
  let d := mdata m in
  let d := add_to NRM_SATISFYING satisfying d in
  let d := add_to NRM_TOLERATING tolerating d in
  let d := add_to NRM_FAILING failing d in
  let d := lower_to NRM_MIN min_apdex d in
  set_mdata m (raise_to NRM_MAX max_apdex d).

Definition nrm_add_apdex_internal (force : bool) (table : option nrmtable_t) (name : option (list Z))
    (satisfying tolerating failing min_apdex max_apdex : Z) : option nrmtable_t :=
  let '(i, table) := nrm_find_or_create 1 force table name in
  if i =? -1 then table
  else (λ t, update_metric t i
          (add_apdex_values satisfying tolerating failing min_apdex max_apdex)) <$> table.

Definition nrm_add_apdex (table : option nrmtable_t) name (satisfying tolerating failing apdex : Z) :=
  nrm_add_apdex_internal false table name satisfying tolerating failing apdex apdex.
Definition nrm_force_add_apdex (table : option nrmtable_t) name
    (satisfying tolerating failing apdex : Z) :=
  nrm_add_apdex_internal true table name satisfying tolerating failing apdex apdex.

Definition nrm_duplicate_metric (table : option nrmtable_t) (current_name new_name : option (list Z)) :
    option nrmtable_t :=
  match table, current_name, new_name with
  | Some t, Some _, Some _ =>
      let i := nrm_find table current_name in
      if i =? -1 then table
      else
        let m := metric_at t i in
        nrm_add_internal (nrm_is_forced m) table new_name (nrm_count m) (nrm_total m)
          (nrm_exclusive m) (nrm_min m) (nrm_max m) (nrm_sumsquares m)
  | _, _, _ => table
  end.

(** ** Validation *)
Definition validate_metric (t : nrmtable_t) (i : Z) : bool :=
  match metric_at t i with
  | None => false
  | Some m =>
      negb (m_left m <? -1) && negb (m_right m <? -1) &&
      negb (number t <=? m_left m) && negb (number t <=? m_right m) &&
      negb (negb (m_left m =? -1) && (m_left m <=? i)) &&
      negb (negb (m_right m =? -1) && (m_right m <=? i)) &&
      bool_decide (is_Some (nr_string_get (Some (strpool t)) (name_index m)))
  end.

Definition nrm_table_validate (table : option nrmtable_t) : bool :=
  match table with
  | None => false
  | Some t =>
      negb (number t <? 0) && negb (allocated t <? 0) && negb (max_size t <? 0) &&
      negb (allocated t <? number t) && forallb (validate_metric t) (seqZ 0 (number t))
  end.

(** ** The table as a list of named statistics *)
Record stats := Stats {
  s_apdex : bool;
  s_forced : bool;
  s_count : Z;      (** or satisfying *)
  s_total : Z;      (** or tolerating *)
  s_exclusive : Z;  (** or failing *)
  s_min : Z;
  s_max : Z;
  s_squares : Z;
}.

Definition flags_of (s : stats) : Z :=
  (if s_apdex s then 1 else 0) + (if s_forced s then 2 else 0).
Definition data_of (s : stats) : list Z :=
  [s_count s; s_total s; s_exclusive s; s_min s; s_max s; s_squares s].

Definition new_stats : stats := Stats false false 0 0 0 NR_TIME_MAX 0 0.

(** What one addition does to the statistics of a name. *)
Definition stats_add (force apdex : bool) (c t e mn mx sq : Z) (s : stats) : stats :=
  Stats (s_apdex s || apdex) (s_forced s || force)
    (u64 (s_count s + c)) (u64 (s_total s + t)) (u64 (s_exclusive s + e))
    (Z.min mn (s_min s)) (Z.max mx (s_max s))
    (if apdex then s_squares s else u64 (s_squares s + sq)).

#[export] Instance metric_node : HashNode nrmetric_t := {|
  node_hash := m_hash; node_left := m_left; node_right := m_right;
  node_link h n m := if m_hash m <? h
              then Metric (m_hash m) n (m_right m) (flags m) (name_index m) (mdata m)
              else Metric (m_hash m) (m_left m) n (flags m) (name_index m) (mdata m) |}.

#[export] Instance metric_node_laws : HashNodeLaws nrmetric_t.
Proof. split; intros h n e; simpl; by destruct (m_hash e <? h). Qed.

Record represents (t : nrmtable_t) (mx : Z) (l : list (list Z * stats)) : Prop := {
  mr_number : number t = Z.of_nat (length l);
  mr_length : length (metrics t) = length l;
  mr_max : max_size t = mx;
  mr_allocated : 0 < mx ∧ number t ≤ allocated t;
  mr_pool : pool_inv (strpool t) l.*1;
  mr_metric : ∀ i n s, l !! i = Some (n, s) → ∃ m, metrics t !! i = Some m ∧
    m_hash m = hash_of n ∧ name_index m = Z.of_nat i + 1 ∧
    flags m = flags_of s ∧ mdata m = data_of s;
  mr_tree : ∃ tr, tree_of 0 (metrics t) tr;
  mr_later : later 0 (metrics t);
}.

(** The specification of an addition: update the name's statistics or add it
    at the end; but a full table takes no new unforced name, and counts the drop
    under its own forced name instead. *)
Definition put (n : list Z) (g : stats → stats) (l : list (list Z * stats)) : list (list Z * stats) :=
  match list_find (λ x, n = x.1) l with
  | Some (i, (_, s)) => <[i := (n, g s)]> l
  | None => l ++ [(n, g new_stats)]
  end.

Definition accepts (mx : Z) (force : bool) (n : list Z) (l : list (list Z * stats)) : bool :=
  bool_decide (n ∈ l.*1) || (Z.of_nat (length l) <? mx) || force.

Definition dropped (l : list (list Z * stats)) : list (list Z * stats) :=
  put MetricsDropped (stats_add true false 1 0 0 0 0 0) l.

Definition spec_add (mx : Z) (force : bool) (n : list Z) (g : stats → stats)
    (l : list (list Z * stats)) : list (list Z * stats) :=
  if accepts mx force n l then put n g l else dropped l.

(** ** Runs of operations *)
Inductive metric_op :=
| Add (force : bool) (name : option (list Z)) (count total exclusive min max sum_of_squares : Z)
| AddApdex (force : bool) (name : option (list Z)) (satisfying tolerating failing min max : Z)
| Duplicate (current_name new_name : option (list Z)).

Definition name_ok (name : option (list Z)) : Prop := match name with Some n => is_cstr n | None => True end.
Definition op_ok (op : metric_op) : Prop :=
  match op with
  | Add _ n _ _ _ _ _ _ | AddApdex _ n _ _ _ _ _ => name_ok n
  | Duplicate n n' => name_ok n ∧ name_ok n'
  end.

Definition exec (table : option nrmtable_t) (op : metric_op) : option nrmtable_t :=
  match op with
  | Add force n c t e mn mx sq => nrm_add_internal force table n c t e mn mx sq
  | AddApdex force n s t f mn mx => nrm_add_apdex_internal force table n s t f mn mx
  | Duplicate n n' => nrm_duplicate_metric table n n'
  end.

Definition stats_of (l : list (list Z * stats)) (n : list Z) : option stats :=
  snd ∘ snd <$> list_find (λ x, n = x.1) l.

Definition spec (mx : Z) (l : list (list Z * stats)) (op : metric_op) : list (list Z * stats) :=
  match op with
  | Add force (Some n) c t e mn mxv sq => spec_add mx force n (stats_add force false c t e mn mxv sq) l
  | AddApdex force (Some n) s t f mn mxv => spec_add mx force n (stats_add force true s t f mn mxv 0) l
  | Duplicate (Some n) (Some n') =>
      match stats_of l n with
      | Some s => spec_add mx (s_forced s) n' (stats_add (s_forced s) false (s_count s) (s_total s)
                    (s_exclusive s) (s_min s) (s_max s) (s_squares s)) l
      | None => l
      end
  | _ => l
  end.

(** What a client reads of a metric through its pointer. *)
Definition read_metric (m : nrmetric_t) : stats :=
  Stats (nrm_is_apdex (Some m)) (nrm_is_forced (Some m)) (nrm_count (Some m)) (nrm_total (Some m))
    (nrm_exclusive (Some m)) (nrm_min (Some m)) (nrm_max (Some m)) (nrm_sumsquares (Some m)).

Definition read_index (t : nrmtable_t) (i : Z) : option stats :=
  if i =? -1 then None else read_metric <$> metric_at t i.

Definition limit (m : Z) : Z := if m <=? 0 then NRM_DEFAULT_MAX_SIZE else m.

(** The statistics of one name after a list of timings. *)
Definition timings (n : list Z) (ds : list (list Z * Z)) : list Z := (filter (λ d, d.1 = n) ds).*2.

Definition summary (ts : list Z) : stats :=
  Stats false false (u64 (Z.of_nat (length ts))) (u64 (foldr Z.add 0 ts)) (u64 (foldr Z.add 0 ts))
    (foldr Z.min NR_TIME_MAX ts) (foldr Z.max 0 ts) (u64 (foldr Z.add 0 ((λ x, x * x) <$> ts))).

Definition unforced (op : metric_op) : Prop :=
  match op with
  | Add force _ _ _ _ _ _ _ | AddApdex force _ _ _ _ _ _ => force = false
  | Duplicate _ _ => False
  end.

(** ** Searching *)
Lemma nrm_hash_cstr n : is_cstr n → nrm_hash (Some n) = hash_of n.
Proof. intros Hn. unfold nrm_hash, hash_of, nr_mkhash. by destruct (_ =? 0). Qed.

Lemma m_matches_key t name h i : m_matches t name h i = true → key 0 (metrics t) i = h.
Proof.
  unfold m_matches, key, entry, metric_at. rewrite Z.sub_0_r.
  destruct (metrics t !! Z.to_nat i); simpl; [lia|done].
Qed.

Lemma m_find_loop_search t name h fuel idx tr :
  rep 0 (metrics t) idx tr → (length (nodes tr) < fuel)%nat →
  m_find_loop fuel t name h idx = search (key 0 (metrics t)) (m_matches t name h) (-1) h tr.
Proof.
  revert fuel idx. induction tr as [|l IHl i r IHr]; intros [|fuel] idx Hr Hf;
    simpl in Hr, Hf; try lia; simpl.
  - by subst idx.
  - destruct Hr as (-> & Hi & e & He & Hl & Hr). rewrite length_app in Hf.
    destruct (Z.eqb_spec i (-1)); [lia|]. destruct (m_matches t name h i); [done|].
    unfold m_child, metric_at, key. unfold entry in *. rewrite Z.sub_0_r in He |- *.
    rewrite He. simpl. destruct (m_hash e <? h); [apply IHl|apply IHr]; done || lia.
Qed.

Lemma place_loop_parent t h fuel idx tr :
  rep 0 (metrics t) idx tr → tr ≠ Leaf → (length (nodes tr) ≤ fuel)%nat →
  place_loop fuel t h idx = parent_of (key 0 (metrics t)) (-1) h tr.
Proof.
  revert fuel idx. induction tr as [|l IHl i r IHr]; intros [|fuel] idx Hr Hnl Hf;
    simpl in Hr, Hf; try done; try lia; simpl.
  destruct Hr as (-> & Hi & e & He & Hl & Hr). rewrite length_app in Hf.
  assert (key 0 (metrics t) i = m_hash e) as -> by (unfold key; by rewrite He).
  unfold m_child, metric_at. unfold entry in He. rewrite Z.sub_0_r in He. rewrite He.
  destruct (m_hash e <? h).
  - destruct (rep_root _ _ _ _ Hl) as [[E ->]|[? Hl']].
    + simpl in E. by rewrite E.
    + destruct (Z.eqb_spec (m_left e) (-1)); [simpl in *; lia|].
      rewrite (IHl fuel (m_left e)) by (done || lia). by destruct l.
  - destruct (rep_root _ _ _ _ Hr) as [[E ->]|[? Hr']].
    + simpl in E. by rewrite E.
    + destruct (Z.eqb_spec (m_right e) (-1)); [simpl in *; lia|].
      rewrite (IHr fuel (m_right e)) by (done || lia). by destruct r.
Qed.

Lemma nth_string_name l i n : l !! i = Some n → nth_string l (Z.of_nat i + 1) = Some n.
Proof.
  intros Hi. pose proof (lookup_lt_Some _ _ _ Hi). unfold nth_string.
  destruct (Z.leb_spec (Z.of_nat i + 1) 0), (Z.ltb_spec (Z.of_nat (length l)) (Z.of_nat i + 1)); try lia.
  simpl. by replace (Z.to_nat _) with i by lia.
Qed.

Lemma m_matches_spec t mx l i n n' s : represents t mx l → is_cstr n → l !! i = Some (n', s) →
  m_matches t (Some n) (hash_of n) (Z.of_nat i) = bool_decide (n = n').
Proof.
  intros Hr Hn Hi. destruct (mr_metric _ _ _ Hr _ _ _ Hi) as (m & Hm & Hh & Hni & _).
  unfold m_matches, metric_at. rewrite Nat2Z.id, Hm, Hh, Hni.
  assert (Hi1 : l.*1 !! i = Some n') by (by rewrite list_lookup_fmap, Hi).
  rewrite (proj1 (access_spec _ _ _ (mr_pool _ _ _ Hr))), (nth_string_name _ _ n') by done.
  assert (is_cstr n') as Hn'.
  { pose proof (pi_cstr _ _ (mr_pool _ _ _ Hr)) as Hc. rewrite Forall_lookup in Hc. eauto. }
  simpl. pose proof (strcmp_eq n n' Hn Hn') as Hc.
  destruct (bool_decide_reflect (n = n')) as [->|].
  - rewrite Z.eqb_refl. apply Z.eqb_eq. by apply Hc.
  - apply andb_false_iff. right. apply Z.eqb_neq. tauto.
Qed.

(** Index of a name, -1 when it has none. *)
Definition position (l : list (list Z * stats)) (n : list Z) : Z := index_of l.*1 n - 1.

Lemma position_find l n : position l n =
  match list_find (λ x, n = x.1) l with Some (i, _) => Z.of_nat i | None => -1 end.
Proof.
  unfold position, index_of. rewrite list_find_fmap.
  change (λ x, (λ x0, n = x0) x.1) with (λ x : list Z * stats, n = x.1).
  destruct (list_find _ l) as [[i x]|]; simpl; lia.
Qed.

Lemma nrm_find_spec t mx l n : represents t mx l → is_cstr n →
  nrm_find_internal (Some t) (Some n) (hash_of n) = position l n.
Proof.
  intros Hr Hn. unfold nrm_find_internal. pose proof (mr_number _ _ _ Hr) as Hnum.
  pose proof (mr_length _ _ _ Hr) as Hlen. rewrite position_find.
  destruct (mr_tree _ _ _ Hr) as [tr Ht]. pose proof Ht as (Hrep & _ & Hnodes).
  destruct (Z.eqb_spec (number t) 0).
  { destruct l; [done|simpl in Hnum; lia]. }
  rewrite decide_False in Hrep by (intros E; rewrite E in Hlen; simpl in Hlen; lia).
  rewrite (m_find_loop_search _ _ _ _ 0 tr); [|done|rewrite Hnodes, length_seqZ; lia].
  pose proof (tree_search 0 _ _ (m_matches t (Some n) (hash_of n)) (hash_of n) Ht
    (m_matches_key t _ _)) as Hsp. change (0 - 1) with (-1) in Hsp. cbv zeta in Hsp.
  set (j := search _ _ (-1) _ tr) in *. rewrite Hlen in Hsp.
  assert (Hm : ∀ i x, l !! i = Some x →
    m_matches t (Some n) (hash_of n) (Z.of_nat i) = bool_decide (n = x.1)).
  { intros i [n' s] Hi. by eapply m_matches_spec. }
  destruct (list_find _ l) as [[i x]|] eqn:E.
  - apply list_find_Some in E as (Hi & Hx & _). pose proof (lookup_lt_Some _ _ _ Hi).
    pose proof (Hm _ _ Hi) as Hmi. rewrite bool_decide_true in Hmi by done.
    destruct (decide (j = -1)) as [|Hj0]; [rewrite Hsp in Hmi by lia; done|].
    destruct Hsp as [Hj Hmj]. destruct (lookup_lt_is_Some_2 l (Z.to_nat j) ltac:(lia)) as [y Hy].
    pose proof (Hm _ _ Hy) as Hmy. rewrite Z2Nat.id, Hmj in Hmy by lia.
    symmetry in Hmy. apply bool_decide_eq_true in Hmy.
    assert (Hnd : NoDup l.*1) by (by eapply pi_nodup, mr_pool).
    enough (Z.to_nat j = i) by lia.
    eapply (NoDup_lookup _ _ _ n Hnd); rewrite list_lookup_fmap; [rewrite Hy|rewrite Hi];
      simpl; by f_equal.
  - apply list_find_None in E. rewrite Forall_lookup in E. destruct (decide (j = -1)); [done|].
    destruct Hsp as [Hj Hmj]. destruct (lookup_lt_is_Some_2 l (Z.to_nat j) ltac:(lia)) as [y Hy].
    pose proof (Hm _ _ Hy) as Hmy. rewrite Z2Nat.id, Hmj in Hmy by lia.
    symmetry in Hmy. apply bool_decide_eq_true in Hmy. by apply E in Hy.
Qed.

(** ** Creation and updates *)
Lemma metric_append t mx l tr n new :
  represents t mx l → tree_of 0 (metrics t) tr →
  (let ms := metrics t ++ [new] in
   if number t =? 0 then ms
   else link_metric ms (place_loop (length (metrics t)) t (hash_of n) 0) (hash_of n) (number t)) =
  append 0 (metrics t) tr (hash_of n) new.
Proof.
  intros Hr Ht. pose proof (mr_number _ _ _ Hr). pose proof (mr_length _ _ _ Hr) as Hlen.
  pose proof Ht as (Hrep & _ & Hnodes). unfold append. case_decide as He; cbv zeta.
  - rewrite He in Hlen. simpl in Hlen. destruct (Z.eqb_spec (number t) 0); [by rewrite He|lia].
  - assert (metrics t ≠ []) by done. destruct (Z.eqb_spec (number t) 0).
    { destruct (metrics t); [done|simpl in Hlen; lia]. }
    rewrite (place_loop_parent _ _ _ 0 tr); [|done|by intros E; apply He, (tree_leaf 0 _ tr)|].
    + unfold link_metric, link. rewrite Hlen, Z.sub_0_r. by replace (number t) with (0 + Z.of_nat (length l)) by lia.
    + rewrite Hnodes, length_seqZ. lia.
Qed.

Lemma nrm_create_spec t mx l n : represents t mx l → is_cstr n → n ∉ l.*1 →
  ∃ t', nrm_create (Some t) (Some n) (hash_of n) = (Z.of_nat (length l), Some t') ∧
    represents t' mx (l ++ [(n, new_stats)]).
Proof.
  intros Hr Hn Hnew. pose proof Hr as [Hnum Hlen Hmax [Hmx Hal] Hpool Hmet [tr Ht] Hlat].
  destruct (add_spec _ _ n Hpool Hn) as (p' & Ep & Hp'). unfold intern in *.
  rewrite decide_False, index_of_snoc in * by done.
  unfold nrm_create. rewrite Ep. cbn [metrics default from_option id].
  set (new := Metric (hash_of n) (-1) (-1) 0 (Z.of_nat (length l.*1) + 1) [0; 0; 0; NR_TIME_MAX; 0; 0]).
  set (al := if allocated t <=? number t then _ else _).
  pose proof (metric_append t mx l tr n new Hr Ht) as Happ. cbv zeta in Happ.
  exists (MetricTable (number t + 1) al (max_size t) (append 0 (metrics t) tr (hash_of n) new) p').
  split; [rewrite <-Happ, <-Hnum; by destruct (number t =? 0)|].
  assert (Hla : length (append 0 (metrics t) tr (hash_of n) new) = S (length l))
    by (by rewrite length_append, Hlen).
  split; cbn [number metrics max_size allocated strpool].
  - rewrite length_app. simpl. lia.
  - rewrite Hla, length_app. simpl. lia.
  - done.
  - split; [done|]. unfold al, NRM_DEFAULT_MAX_SIZE. destruct (Z.leb_spec (allocated t) (number t)); lia.
  - by rewrite fmap_app.
  - intros i n' s Hi.
    assert (∃ m, (metrics t ++ [new]) !! i = Some m ∧ m_hash m = hash_of n' ∧
      name_index m = Z.of_nat i + 1 ∧ flags m = flags_of s ∧ mdata m = data_of s)
      as (m & Hm & ? & ? & ? & ?).
    { apply lookup_snoc_cases in Hi as [Hi|[-> [= -> ->]]].
      - destruct (Hmet _ _ _ Hi) as (m & ? & ?). exists m. split; [by apply lookup_app_l_Some|done].
      - exists new. rewrite <-Hlen. split; [by apply list_lookup_middle|]. simpl.
        rewrite length_fmap. by rewrite Hlen. }
    unfold append. case_decide as He; [rewrite He in Hm; eauto 10|].
    edestruct (lookup_link 0 (metrics t ++ [new])) as (m' & -> & [->| ->]); [exact Hm|eauto 10|].
    eexists. split; [done|]. simpl. by destruct (_ <? _).
  - by apply tree_append.
  - by apply later_append.
Qed.

Lemma update_spec t mx l i n s s' f : represents t mx l → l !! i = Some (n, s) →
  (∀ m, m_hash (f m) = m_hash m ∧ m_left (f m) = m_left m ∧ m_right (f m) = m_right m ∧
        name_index (f m) = name_index m) →
  (∀ m, flags m = flags_of s → mdata m = data_of s →
        flags (f m) = flags_of s' ∧ mdata (f m) = data_of s') →
  represents (update_metric t (Z.of_nat i) f) mx (<[i := (n, s')]> l).
Proof.
  intros [Hnum Hlen Hmax Hal Hpool Hmet [tr Ht] Hlat] Hi Hf Hs.
  assert (Hshape : ∀ j, (λ m, (node_hash m, node_left m, node_right m)) <$> alter f i (metrics t) !! j =
                        (λ m, (node_hash m, node_left m, node_right m)) <$> metrics t !! j).
  { intros j. destruct (decide (i = j)) as [->|]; [|by rewrite list_lookup_alter_ne].
    rewrite list_lookup_alter_eq. destruct (metrics t !! j) as [m|]; [|done]. simpl.
    destruct (Hf m) as (-> & -> & -> & _). done. }
  destruct (tree_same (E:=nrmetric_t) 0 _ _ tr Hshape) as [Htr Hla].
  unfold update_metric. rewrite Nat2Z.id.
  split; cbn [set_metrics number metrics max_size allocated strpool].
  - by rewrite length_insert.
  - by rewrite length_alter, length_insert.
  - done.
  - done.
  - rewrite list_fmap_insert, list_insert_id; [done|]. by rewrite list_lookup_fmap, Hi.
  - intros j n' s'' Hj. destruct (decide (i = j)) as [<-|Hne].
    + rewrite list_lookup_insert_eq in Hj by (by apply lookup_lt_Some in Hi). injection Hj as <- <-.
      destruct (Hmet _ _ _ Hi) as (m & Hm & ? & ? & Hfl & Hd). exists (f m).
      rewrite list_lookup_alter_eq, Hm. destruct (Hf m) as (-> & _ & _ & ->).
      destruct (Hs m Hfl Hd). by split_and!.
    + rewrite list_lookup_insert_ne in Hj by done. destruct (Hmet _ _ _ Hj) as (m & ? & ?).
      exists m. by rewrite list_lookup_alter_ne by done.
  - exists tr. by apply Htr.
  - by apply Hla.
Qed.

Lemma u64_add_u64 x y : u64 (u64 x + y) = u64 (x + y).
Proof. unfold u64. by rewrite Zplus_mod_idemp_l. Qed.

Definition force_stats (s : stats) : stats :=
  Stats (s_apdex s) true (s_count s) (s_total s) (s_exclusive s) (s_min s) (s_max s) (s_squares s).

Lemma set_flag_spec s m : flags m = flags_of s → mdata m = data_of s →
  flags (set_flag MET_FORCED m) = flags_of (force_stats s) ∧
  mdata (set_flag MET_FORCED m) = data_of (force_stats s).
Proof. intros Hf Hd. simpl. rewrite Hf, Hd. by destruct s as [[] []]. Qed.

Lemma add_values_spec c t e mn mx sq s m : flags m = flags_of s → mdata m = data_of s →
  let s' := stats_add false false c t e mn mx sq s in
  flags (add_values c t e mn mx sq m) = flags_of s' ∧
  mdata (add_values c t e mn mx sq m) = data_of s'.
Proof.
  intros Hf Hd. unfold add_values, set_mdata. cbn [flags mdata]. rewrite Hf, Hd. split.
  - destruct s as [[] []]; done.
  - cbn -[stats_add u64 Z.ltb Z.add]. unfold data_of, stats_add. cbn -[Z.min Z.max u64 Z.ltb Z.add].
    repeat f_equal; bool_cases.
Qed.

Lemma add_apdex_spec sa to fa mn mx s m : flags m = flags_of s → mdata m = data_of s →
  let s' := stats_add false true sa to fa mn mx 0 s in
  flags (add_apdex_values sa to fa mn mx m) = flags_of s' ∧
  mdata (add_apdex_values sa to fa mn mx m) = data_of s'.
Proof.
  intros Hf Hd. unfold add_apdex_values, set_flag, set_mdata. cbn [flags mdata]. rewrite Hf, Hd. split.
  - destruct s as [[] []]; done.
  - cbn -[stats_add u64 Z.ltb Z.add]. unfold data_of, stats_add. cbn -[Z.min Z.max u64 Z.ltb Z.add].
    repeat f_equal; bool_cases.
Qed.

(** ** Additions *)
Lemma foc_accepts level force t n :
  (nrm_find_internal (Some t) (Some n) (nrm_hash (Some n)) =? -1) &&
    (nrm_is_full (Some t) && negb force) = false →
  nrm_find_or_create level force (Some t) (Some n) =
  let i := nrm_find_internal (Some t) (Some n) (nrm_hash (Some n)) in
  let '(i, table) := if i =? -1 then nrm_create (Some t) (Some n) (nrm_hash (Some n)) else (i, Some t) in
  (i, if force && negb (i =? -1)
      then (λ t, update_metric t i (set_flag MET_FORCED)) <$> table else table).
Proof. intros E. destruct level; cbn [nrm_find_or_create]; by rewrite E. Qed.

(** Updating what was just put is putting the composed update. *)
Lemma put_spec l n g : ∃ i s, put n g l !! i = Some (n, g s) ∧
  (∀ g', <[i := (n, g' (g s))]> (put n g l) = put n (g' ∘ g) l) ∧
  i = Z.to_nat (if position l n =? -1 then Z.of_nat (length l) else position l n) ∧
  (if position l n =? -1 then s = new_stats else l !! i = Some (n, s)).
Proof.
  rewrite position_find. unfold put. destruct (list_find _ l) as [[i [n' s]]|] eqn:E.
  - apply list_find_Some in E as (Hi & Hn & _). simpl in Hn. subst n'. exists i, s.
    destruct (Z.eqb_spec (Z.of_nat i) (-1)); [lia|]. split_and!; [|intros g'|lia|done].
    + apply list_lookup_insert_eq. by apply lookup_lt_Some in Hi.
    + by rewrite list_insert_insert_eq.
  - exists (length l), new_stats. simpl. split_and!; [|intros g'|lia|done].
    + by apply list_lookup_middle.
    + rewrite insert_app_r_alt by lia. by rewrite Nat.sub_diag.
Qed.

Lemma put_id l n : n ∈ l.*1 → put n id l = l.
Proof.
  intros (x & -> & Hx)%list_elem_of_fmap. unfold put. destruct (list_find _ l) as [[i [n' s]]|] eqn:E.
  - apply list_find_Some in E as (Hi & Hn & _). simpl in Hn. subst. by apply list_insert_id.
  - apply list_find_None in E. rewrite Forall_forall in E. by destruct (E _ Hx).
Qed.

Lemma position_in l n : n ∈ l.*1 ↔ position l n ≠ -1.
Proof.
  unfold position. split.
  - intros Hn. pose proof (index_of_in _ _ Hn). lia.
  - intros Hp. destruct (decide (n ∈ l.*1)) as [|Hn]; [done|].
    by rewrite index_of_not_in in Hp.
Qed.

Definition forcing (force : bool) : stats → stats := if force then force_stats else id.

Lemma force_update t mx l i n s : represents t mx l → l !! i = Some (n, s) →
  represents (update_metric t (Z.of_nat i) (set_flag MET_FORCED)) mx (<[i := (n, force_stats s)]> l).
Proof. intros Hr Hi. eapply update_spec; [done|exact Hi|done|apply set_flag_spec]. Qed.

Lemma foc_accept_spec level force t mx l n :
  represents t mx l → is_cstr n → accepts mx force n l = true →
  ∃ i t', nrm_find_or_create level force (Some t) (Some n) = (Z.of_nat i, Some t') ∧
    represents t' mx (put n (forcing force) l) ∧
    i = Z.to_nat (if position l n =? -1 then Z.of_nat (length l) else position l n).
Proof.
  intros Hr Hn Hacc. pose proof (nrm_find_spec t mx l n Hr Hn) as Hfind.
  rewrite foc_accepts; rewrite nrm_hash_cstr, Hfind by done.
  - cbv zeta. destruct (put_spec l n (forcing force)) as (i & s & Hput & Hcomp & Hi & Hs).
    destruct (put_spec l n id) as (i0 & s0 & Hput0 & Hcomp0 & Hi0 & Hs0).
    assert (i0 = i) as -> by congruence.
    assert (∃ t1, (if position l n =? -1 then nrm_create (Some t) (Some n) (hash_of n)
                   else (position l n, Some t)) = (Z.of_nat i, Some t1) ∧
            represents t1 mx (put n id l)) as (t1 & -> & Hr1).
    { destruct (Z.eqb_spec (position l n) (-1)) as [Hp|Hp].
      - assert (n ∉ l.*1) as Hnew by (rewrite position_in; lia).
        destruct (nrm_create_spec t mx l n Hr Hn Hnew) as (t1 & -> & Hr1).
        exists t1. split; [by rewrite Hi, Nat2Z.id|]. unfold put. rewrite position_find in Hp.
        destruct (list_find _ l) as [[? []]|]; [lia|done].
      - exists t. rewrite Hi. unfold position in *. pose proof (proj2 (position_in l n) Hp).
        rewrite put_id by done. split; [|done]. f_equal. unfold index_of in *.
        destruct (list_find _ l.*1) as [[? []]|]; lia. }
    destruct (Z.eqb_spec (Z.of_nat i) (-1)); [lia|]. exists i.
    destruct force; cbn [andb negb fmap option_fmap option_map]; [|by exists t1].
    exists (update_metric t1 (Z.of_nat i) (set_flag MET_FORCED)). split_and!; [done| |done].
    change (put n (forcing true) l) with (put n (force_stats ∘ id) l).
    rewrite <-(Hcomp0 force_stats). by apply force_update.
  - unfold accepts in Hacc. unfold nrm_is_full.
    rewrite (mr_max _ _ _ Hr), (mr_number _ _ _ Hr).
    destruct (Z.eqb_spec (position l n) (-1)) as [Hp|]; [|done].
    rewrite bool_decide_false in Hacc by (rewrite position_in; lia).
    destruct force; [by rewrite andb_false_r|].
    destruct (Z.ltb_spec (Z.of_nat (length l)) mx), (Z.leb_spec mx (Z.of_nat (length l))); try done; lia.
Qed.

Lemma put_ext n g g' l : (∀ s, g s = g' s) → put n g l = put n g' l.
Proof. intros Hg. unfold put. destruct (list_find _ l) as [[i [n' s]]|]; by rewrite Hg. Qed.

(** Any update after an accepted lookup. *)
Lemma accepted_update force t mx l n f g level :
  represents t mx l → is_cstr n → accepts mx force n l = true →
  (∀ m, m_hash (f m) = m_hash m ∧ m_left (f m) = m_left m ∧ m_right (f m) = m_right m ∧
        name_index (f m) = name_index m) →
  (∀ m s, flags m = flags_of s → mdata m = data_of s →
        flags (f m) = flags_of (g s) ∧ mdata (f m) = data_of (g s)) →
  ∃ i t', nrm_find_or_create level force (Some t) (Some n) = (i, Some t') ∧ (i =? -1) = false ∧
    represents (update_metric t' i f) mx (put n (g ∘ forcing force) l).
Proof.
  intros Hr Hn Hacc Hf Hg.
  destruct (foc_accept_spec level force t mx l n Hr Hn Hacc) as (i & t' & E & Hr' & Hi).
  destruct (put_spec l n (forcing force)) as (j & s & Hput & Hcomp & Hj & _).
  assert (j = i) as -> by congruence.
  exists (Z.of_nat i), t'. split; [done|]. split; [lia|]. rewrite <-Hcomp.
  eapply update_spec; [done|exact Hput|done|]. intros. by apply Hg.
Qed.

Lemma is_cstr_dropped : is_cstr MetricsDropped.
Proof. unfold MetricsDropped, is_cstr. repeat (apply Forall_cons_2; [lia|]). constructor. Qed.

Lemma stats_add_force force apdex c t e mn mx sq s :
  stats_add force apdex c t e mn mx sq s = stats_add false apdex c t e mn mx sq (forcing force s).
Proof. destruct force, s as [a []]; done. Qed.

(** A full table counts the drop and gives no metric. *)
Lemma foc_drop_spec t mx l n :
  represents t mx l → is_cstr n → accepts mx false n l = false →
  ∃ t', nrm_find_or_create 1 false (Some t) (Some n) = (-1, Some t') ∧ represents t' mx (dropped l).
Proof.
  intros Hr Hn Hacc. unfold accepts in Hacc. rewrite orb_false_r in Hacc.
  apply orb_false_iff in Hacc as [Hin Hfull]. apply bool_decide_eq_false in Hin.
  rewrite position_in in Hin. pose proof (nrm_find_spec t mx l n Hr Hn) as Hfind.
  destruct (accepted_update true t mx l MetricsDropped (add_values 1 0 0 0 0 0)
    (stats_add false false 1 0 0 0 0 0) 0 Hr is_cstr_dropped) as (i & t' & E & Hi & Hr').
  { unfold accepts. by rewrite orb_true_r. } { done. } { intros. by apply add_values_spec. }
  change (nrm_find_or_create 1 false (Some t) (Some n)) with
    (let hash := nrm_hash (Some n) in
     let i := nrm_find_internal (Some t) (Some n) hash in
     if (i =? -1) && (nrm_is_full (Some t) && negb false) then
       let '(j, table) := nrm_find_or_create 0 true (Some t) (Some MetricsDropped) in
       (-1, if j =? -1 then table
            else (λ t, update_metric t j (add_values 1 0 0 0 0 0)) <$> table)
     else
       let '(i, table) := if i =? -1 then nrm_create (Some t) (Some n) hash else (i, Some t) in
       (i, if false && negb (i =? -1)
           then (λ t, update_metric t i (set_flag MET_FORCED)) <$> table else table)).
  cbv zeta. rewrite nrm_hash_cstr, Hfind by done.
  assert ((position l n =? -1) && (nrm_is_full (Some t) && negb false) = true) as ->.
  { unfold nrm_is_full. rewrite (mr_max _ _ _ Hr), (mr_number _ _ _ Hr). lia. }
  rewrite E, Hi. simpl. eexists. split; [done|].
  unfold dropped. erewrite put_ext; [exact Hr'|]. intros st. apply (stats_add_force true).
Qed.

(** An addition to the table does what the specification says. *)
Lemma add_spec_full force t mx l n f g g' :
  represents t mx l → is_cstr n →
  (∀ m, m_hash (f m) = m_hash m ∧ m_left (f m) = m_left m ∧ m_right (f m) = m_right m ∧
        name_index (f m) = name_index m) →
  (∀ m s, flags m = flags_of s → mdata m = data_of s →
        flags (f m) = flags_of (g s) ∧ mdata (f m) = data_of (g s)) →
  (∀ s, g' s = g (forcing force s)) →
  ∃ t', (let '(i, table) := nrm_find_or_create 1 force (Some t) (Some n) in
         if i =? -1 then table else (λ t, update_metric t i f) <$> table) = Some t' ∧
    represents t' mx (spec_add mx force n g' l).
Proof.
  intros Hr Hn Hf Hg Hg'. unfold spec_add. destruct (accepts mx force n l) eqn:Hacc.
  - destruct (accepted_update force t mx l n f g 1 Hr Hn Hacc Hf Hg) as (i & t' & -> & -> & Hr').
    eexists. split; [done|]. rewrite (put_ext _ g' (g ∘ forcing force)) by done. exact Hr'.
  - assert (force = false) as ->.
    { unfold accepts in Hacc. by destruct force; [rewrite orb_true_r in Hacc|]. }
    destruct (foc_drop_spec t mx l n Hr Hn Hacc) as (t' & -> & Hr'). by exists t'.
Qed.

Lemma add_internal_spec force t mx l n c to e mn mxv sq : represents t mx l → is_cstr n →
  ∃ t', nrm_add_internal force (Some t) (Some n) c to e mn mxv sq = Some t' ∧
    represents t' mx (spec_add mx force n (stats_add force false c to e mn mxv sq) l).
Proof.
  intros Hr Hn. eapply add_spec_full; [done..| |intros s; apply stats_add_force].
  intros. by apply add_values_spec.
Qed.

Lemma add_apdex_internal_spec force t mx l n sa to fa mn mxv : represents t mx l → is_cstr n →
  ∃ t', nrm_add_apdex_internal force (Some t) (Some n) sa to fa mn mxv = Some t' ∧
    represents t' mx (spec_add mx force n (stats_add force true sa to fa mn mxv 0) l).
Proof.
  intros Hr Hn. eapply add_spec_full; [done..| |intros s; apply stats_add_force].
  intros. by apply add_apdex_spec.
Qed.

Lemma create_table_spec m :
  represents (nrm_table_create m) (limit m) [].
Proof.
  unfold limit, nrm_table_create, NRM_DEFAULT_MAX_SIZE. split; simpl; try done.
  - split; destruct (Z.leb_spec m 0); lia.
  - apply pool_create.
  - exists Leaf. by split_and!.
Qed.

(** ** Reading *)
Lemma read_spec t mx l i n s : represents t mx l → l !! i = Some (n, s) →
  ∃ m, metric_at t (Z.of_nat i) = Some m ∧ read_metric m = s ∧
    nrm_get_name (Some t) (Some m) = Some n.
Proof.
  intros Hr Hi. destruct (mr_metric _ _ _ Hr _ _ _ Hi) as (m & Hm & _ & Hni & Hf & Hd).
  exists m. unfold metric_at. rewrite Nat2Z.id. split_and!; [done| |].
  - unfold read_metric, nrm_is_apdex, nrm_is_forced, nrm_count, nrm_total, nrm_exclusive, nrm_min,
      nrm_max, nrm_sumsquares, attribute. rewrite Hf, Hd. by destruct s as [[] []].
  - unfold nrm_get_name. rewrite (proj1 (access_spec _ _ _ (mr_pool _ _ _ Hr))), Hni.
    apply nth_string_name. by rewrite list_lookup_fmap, Hi.
Qed.

Lemma find_stats t mx l n : represents t mx l → is_cstr n →
  read_index t (nrm_find (Some t) (Some n)) = stats_of l n.
Proof.
  intros Hr Hn. unfold nrm_find, read_index, stats_of.
  rewrite nrm_hash_cstr, (nrm_find_spec t mx l n Hr Hn), position_find by done.
  destruct (list_find _ l) as [[i [n' s]]|] eqn:E; [|done].
  apply list_find_Some in E as (Hi & _). destruct (Z.eqb_spec (Z.of_nat i) (-1)); [lia|].
  destruct (read_spec t mx l i n' s Hr Hi) as (m & -> & Hm & _). simpl. by rewrite Hm.
Qed.

Lemma duplicate_spec t mx l n n' : represents t mx l → is_cstr n → is_cstr n' →
  ∃ t', nrm_duplicate_metric (Some t) (Some n) (Some n') = Some t' ∧
    represents t' mx (spec mx l (Duplicate (Some n) (Some n'))).
Proof.
  intros Hr Hn Hn'. cbn [spec nrm_duplicate_metric]. rewrite <-(find_stats t mx l n Hr Hn).
  unfold nrm_find, read_index. rewrite nrm_hash_cstr, (nrm_find_spec t mx l n Hr Hn), position_find by done.
  destruct (list_find _ l) as [[i [n0 s]]|] eqn:E; [|by exists t].
  apply list_find_Some in E as (Hi & _). destruct (Z.eqb_spec (Z.of_nat i) (-1)); [lia|].
  destruct (read_spec t mx l i n0 s Hr Hi) as (m & -> & Hm & _). cbn [fmap option_fmap option_map].
  subst s. by apply add_internal_spec.
Qed.

Lemma exec_spec t mx l op : represents t mx l → op_ok op →
  ∃ t', exec (Some t) op = Some t' ∧ represents t' mx (spec mx l op).
Proof.
  intros Hr Hop. destruct op as [force [n|] c to e mn mxv sq|force [n|] sa to fa mn mxv|[n|] [n'|]].
  1: by apply add_internal_spec. 2: by apply add_apdex_internal_spec.
  3: by apply duplicate_spec; try apply Hop.
  all: by exists t.
Qed.

Lemma run_spec mx ops t l : represents t mx l → Forall op_ok ops →
  ∃ t', foldl exec (Some t) ops = Some t' ∧ represents t' mx (foldl (spec mx) l ops).
Proof.
  revert t l. induction ops as [|op ops IH]; intros t l Hr Hops; [by exists t|].
  apply Forall_cons in Hops as [Hop Hops]. destruct (exec_spec t mx l op Hr Hop) as (t1 & E & Hr1).
  simpl. rewrite E. by apply IH.
Qed.

Lemma validate_spec t mx l : represents t mx l → nrm_table_validate (Some t) = true.
Proof.
  intros Hr. pose proof Hr as [Hnum Hlen Hmax [Hmx Hal] Hpool Hmet _ Hlat].
  unfold nrm_table_validate. assert (∀ b, b = true → negb (number t <? 0) && negb (allocated t <? 0) &&
    negb (max_size t <? 0) && negb (allocated t <? number t) && b = true) as H by (intros b ->; lia).
  apply H, forallb_forall. intros i Hi%list_elem_of_In%elem_of_seqZ.
  destruct (lookup_lt_is_Some_2 l (Z.to_nat i) ltac:(lia)) as [[n s] Hl].
  destruct (read_spec t mx l _ n s Hr Hl) as (m & Hm & _ & Hn). rewrite Z2Nat.id in Hm by lia.
  unfold validate_metric. rewrite Hm. unfold nrm_get_name in Hn. rewrite Hn.
  rewrite bool_decide_true by done. destruct (Hlat _ _ Hm) as [H1 H2]. simpl in H1, H2.
  rewrite Hlen in H1, H2. lia.
Qed.

(** ** Facts of the specification *)
Lemma put_cons n g x l :
  put n g (x :: l) = if decide (n = x.1) then (n, g x.2) :: l else x :: put n g l.
Proof.
  unfold put. simpl. destruct x as [n' s]. simpl. case_decide; [by subst|].
  by destruct (list_find _ l) as [[i [n0 s0]]|].
Qed.

Lemma stats_of_cons n x l : stats_of (x :: l) n = if decide (n = x.1) then Some x.2 else stats_of l n.
Proof.
  unfold stats_of. simpl. case_decide; [done|]. by destruct (list_find _ l) as [[i y]|].
Qed.

Lemma stats_of_put n g l n' : stats_of (put n g l) n' =
  if decide (n' = n) then Some (g (default new_stats (stats_of l n))) else stats_of l n'.
Proof.
  induction l as [|x l IH].
  - unfold put. simpl. rewrite stats_of_cons. simpl. by case_decide.
  - rewrite put_cons, !stats_of_cons. destruct (decide (n = x.1)) as [->|].
    + rewrite stats_of_cons. simpl. by case_decide.
    + rewrite stats_of_cons, IH. repeat case_decide; congruence.
Qed.

Lemma put_names n g l : (put n g l).*1 = intern l.*1 n.
Proof.
  unfold intern. induction l as [|x l IH]; [unfold put; by rewrite decide_False by apply not_elem_of_nil|].
  rewrite put_cons. destruct (decide (n = x.1)) as [->|Hd].
  - rewrite decide_True; [done|]. by left.
  - rewrite !fmap_cons, IH. destruct (decide (n ∈ l.*1)).
    + rewrite decide_True; [done|by right].
    + rewrite decide_False; [done|]. by intros [?|?]%elem_of_cons.
Qed.

Lemma length_put n g l : length (put n g l) = if decide (n ∈ l.*1) then length l else S (length l).
Proof.
  rewrite <-(length_fmap fst (put n g l)), put_names. unfold intern.
  case_decide; rewrite ?length_app, length_fmap; simpl; lia.
Qed.

Lemma stats_of_not_in l n : n ∉ l.*1 → stats_of l n = None.
Proof.
  induction l as [|x l IH]; [done|]. rewrite stats_of_cons. intros Hn.
  rewrite decide_False by (intros ->; apply Hn; by left). apply IH. intros ?. apply Hn. by right.
Qed.

Lemma u64_add_r x y : u64 (x + u64 y) = u64 (x + y).
Proof. unfold u64. by rewrite Zplus_mod_idemp_r. Qed.

Lemma foldr_snoc_op (f : Z → Z → Z) b ts d : (∀ x y z, f x (f y z) = f y (f x z)) →
  foldr f b (ts ++ [d]) = f d (foldr f b ts).
Proof. intros Hf. induction ts as [|t ts IH]; [done|]. simpl. by rewrite IH, Hf. Qed.

Lemma summary_snoc ts d :
  stats_add false false 1 d d d d (u64 (d * d)) (summary ts) = summary (ts ++ [d]).
Proof.
  unfold summary, stats_add.
  cbn [s_apdex s_forced s_count s_total s_exclusive s_min s_max s_squares orb].
  rewrite !u64_add_u64, u64_add_r, fmap_app, length_app, Nat2Z.inj_add.
  cbn [fmap list_fmap length]. rewrite !foldr_snoc_op by lia. f_equal; f_equal; lia.
Qed.

Lemma timings_snoc n ds d : timings n (ds ++ [d]) = timings n ds ++ (if decide (d.1 = n) then [d.2] else []).
Proof. unfold timings. rewrite filter_app, fmap_app. f_equal. rewrite filter_cons. by case_decide. Qed.

(** With room for all the names, the specification summarises the timings. *)
Lemma spec_summary mx ds (names : list (list Z)) :
  ds.*1 ⊆ names → Z.of_nat (length names) ≤ mx →
  let l := foldl (λ l d, spec_add mx false d.1 (stats_add false false 1 d.2 d.2 d.2 d.2 (u64 (d.2 * d.2))) l)
             [] ds in
  NoDup l.*1 ∧ l.*1 ⊆ ds.*1 ∧ ds.*1 ⊆ l.*1 ∧
  ∀ n, n ∈ ds.*1 → stats_of l n = Some (summary (timings n ds)).
Proof.
  intros Hsub Hlen. induction ds as [|d ds IH] using rev_ind.
  { simpl. split_and!; [constructor|done|done|]. intros n Hn. by apply not_elem_of_nil in Hn. }
  rewrite fmap_app in Hsub |- *. rewrite foldl_app. cbn [foldl fmap list_fmap].
  set (l := foldl _ [] ds) in *.
  destruct IH as (Hnd & Hl1 & Hl2 & Hs); [set_solver|]. cbv zeta.
  assert (accepts mx false d.1 l = true) as Hacc.
  { unfold accepts. destruct (decide (d.1 ∈ l.*1)); [by rewrite bool_decide_true|].
    assert (length (d.1 :: l.*1) ≤ length names)%nat as Hle.
    { apply submseteq_length, NoDup_submseteq; [by constructor|]. set_solver. }
    simpl in Hle. rewrite length_fmap in Hle. rewrite bool_decide_false by done. lia. }
  unfold spec_add. rewrite Hacc, put_names. unfold intern.
  split_and!; [..|intros n Hn].
  - case_decide; [done|]. apply NoDup_app. split_and!; [done|set_solver|apply NoDup_singleton].
  - case_decide; set_solver.
  - case_decide; set_solver.
  - rewrite stats_of_put, timings_snoc. destruct (decide (n = d.1)) as [->|Hne].
    + rewrite decide_True by done. rewrite <-summary_snoc. do 2 f_equal.
      destruct (decide (d.1 ∈ ds.*1)) as [Hin|Hin]; [by rewrite Hs|].
      rewrite stats_of_not_in by set_solver. unfold timings.
      rewrite filter_none; [done|]. apply Forall_forall. intros x Hx Hxn. apply Hin. rewrite <-Hxn.
      by apply list_elem_of_fmap_2.
    + rewrite decide_False by done. rewrite app_nil_r. apply Hs. set_solver.
Qed.

Lemma spec_bound mx ops : 0 < mx → Forall unforced ops →
  let l := foldl (spec mx) [] ops in
  Z.of_nat (length l) ≤ mx ∨ Z.of_nat (length l) = mx + 1 ∧ MetricsDropped ∈ l.*1.
Proof.
  intros Hmx. induction ops as [|op ops IH] using rev_ind; intros Hops; [left; simpl; lia|].
  apply Forall_app in Hops as [Hops Hop]. apply Forall_cons in Hop as [Hop _]. specialize (IH Hops).
  rewrite foldl_app. cbn [foldl]. set (l := foldl _ [] ops) in *. cbv zeta in *.
  assert (∀ n g, let l' := spec_add mx false n g l in
    Z.of_nat (length l') ≤ mx ∨ Z.of_nat (length l') = mx + 1 ∧ MetricsDropped ∈ l'.*1) as H.
  { intros n g. unfold spec_add, accepts, dropped. cbv zeta.
    destruct (decide (n ∈ l.*1)) as [Hn|Hn].
    - rewrite bool_decide_true by done. simpl. rewrite length_put, put_names. unfold intern.
      by rewrite !decide_True by done.
    - rewrite bool_decide_false by done. simpl. rewrite orb_false_r.
      destruct (Z.ltb_spec (Z.of_nat (length l)) mx) as [Hl|Hl].
      + left. rewrite length_put, decide_False by done. lia.
      + rewrite length_put, put_names. unfold intern. case_decide as Hd; [tauto|].
        right. split; [destruct IH as [?|[? ?]]; [lia|done]|]. apply elem_of_app. right. by left. }
  destruct op as [force [n|] c to e mn mxv sq|force [n|] sa to fa mn mxv|? ?]; simpl in Hop;
    [subst force; apply H|exact IH|subst force; apply H|exact IH|done].
Qed.

(** ** Properties *)

(** C21: the metric table is its specification. Whatever additions, apdex additions and duplications are
    run on a fresh table, the table then has the size of the list of named
    statistics the specification keeps; looking a name up gives the statistics of that name, or nothing
    when it has none; the metric at each index has the name and the statistics of that place of the
    list; and the table passes its own validation. A name duplicated under itself has its figures added
    to themselves, although the header says that the source is not modified. *)
Theorem nrm_table_refines_stats (m : Z) (ops : list metric_op) :
  Forall op_ok ops →
  let l := foldl (spec (limit m)) [] ops in
  ∃ t, foldl exec (Some (nrm_table_create m)) ops = Some t ∧
    nrm_table_size (Some t) = Z.of_nat (length l) ∧
    (∀ n, is_cstr n → read_index t (nrm_find (Some t) (Some n)) = stats_of l n) ∧
    (∀ i : nat, (λ me, (nrm_get_name (Some t) (Some me), read_metric me)) <$> nrm_get_metric (Some t) (Z.of_nat i)
                = (λ x, (Some x.1, x.2)) <$> l !! i) ∧
    nrm_table_validate (Some t) = true.
Proof.
  intros Hops l. destruct (run_spec _ _ _ _ (create_table_spec m) Hops) as (t & E & Hr).
  fold l in Hr. exists t. pose proof (mr_number _ _ _ Hr) as Hn. split_and!; [done|done| | |].
  - intros. by eapply find_stats.
  - intros i. unfold nrm_get_metric. rewrite Hn. destruct (l !! i) as [[n s]|] eqn:Hi.
    + destruct (read_spec _ _ _ _ _ _ Hr Hi) as (me & Hme & Hs & Hname).
      pose proof (lookup_lt_Some _ _ _ Hi).
      destruct (Z.leb_spec 0 (Z.of_nat i)), (Z.ltb_spec (Z.of_nat i) (Z.of_nat (length l))); try lia.
      cbn [andb]. rewrite Hme. cbn [fmap option_fmap option_map]. by rewrite Hname, Hs.
    + apply lookup_ge_None in Hi. destruct (Z.ltb_spec (Z.of_nat i) (Z.of_nat (length l))); [lia|].
      by rewrite andb_false_r.
  - by eapply validate_spec.
Qed.

(** A table of one metric: the second name is dropped, a forced one is kept. *)
Example nrm_table_refines_stats_witness :
  let ops := [Add false (Some [97]) 1 5 5 5 5 25; Add false (Some [98]) 1 7 7 7 7 49;
              AddApdex true (Some [99]) 1 0 0 3 3; Duplicate (Some [97]) (Some [97])] in
  foldl (spec (limit 1)) [] ops =
    [([97], Stats false false 2 10 10 5 5 50); (MetricsDropped, Stats false true 1 0 0 0 0 0);
     ([99], Stats true true 1 0 0 3 3 0)] ∧
  ∃ t, foldl exec (Some (nrm_table_create 1)) ops = Some t ∧ nrm_table_size (Some t) = 3 ∧
    nrm_table_validate (Some t) = true.
Proof.
  split; [by vm_compute|].
  destruct (nrm_table_refines_stats 1
    [Add false (Some [97]) 1 5 5 5 5 25; Add false (Some [98]) 1 7 7 7 7 49;
     AddApdex true (Some [99]) 1 0 0 3 3; Duplicate (Some [97]) (Some [97])]) as (t & E & Hn & _ & _ & Hv).
  { repeat constructor; done. }
  exists t. split_and!; [exact E| |exact Hv]. rewrite Hn. by vm_compute.
Defined.

(** timings add up. After timings are added with [nrm_add] to a fresh table with
    room for all their names, looking up a name that was added gives the number of its timings, their
    sum as total and as exclusive time, their minimum and maximum and the sum of their squares, the
    sums modulo 2^64. *)
Theorem nrm_add_aggregates (m : Z) (ds : list (list Z * Z)) (n : list Z) :
  Forall (λ d, is_cstr d.1) ds → Z.of_nat (length (remove_dups ds.*1)) ≤ limit m →
  n ∈ ds.*1 →
  ∃ t, foldl (λ t d, nrm_add t (Some d.1) d.2) (Some (nrm_table_create m)) ds = Some t ∧
    read_index t (nrm_find (Some t) (Some n)) = Some (summary (timings n ds)).
Proof.
  intros Hds Hlen Hn.
  set (ops := (λ d : list Z * Z, Add false (Some d.1) 1 d.2 d.2 d.2 d.2 (u64 (d.2 * d.2))) <$> ds).
  destruct (run_spec (limit m) ops _ _ (create_table_spec m)) as (t & E & Hr).
  { unfold ops. by apply Forall_fmap. }
  unfold ops in E, Hr. rewrite foldl_fmap in E. rewrite foldl_fmap in Hr. exists t. split; [exact E|].
  rewrite (find_stats _ _ _ n Hr).
  - apply (spec_summary (limit m) ds (remove_dups ds.*1)); [|done|done].
    intros x Hx. by apply elem_of_remove_dups.
  - apply list_elem_of_fmap in Hn as (d & -> & Hd). rewrite Forall_forall in Hds. by apply Hds.
Qed.

Example nrm_add_aggregates_witness :
  let ds := [([97], 5); ([98], 4); ([97], 7)] in
  ∃ t, foldl (λ t d, nrm_add t (Some d.1) d.2) (Some (nrm_table_create 2)) ds = Some t ∧
    read_index t (nrm_find (Some t) (Some [97])) = Some (Stats false false 2 12 12 5 7 74).
Proof.
  intros ds. apply (nrm_add_aggregates 2 ds [97]); [repeat constructor; done|by vm_compute|by left].
Defined.

(** the table is bounded. However many unforced additions are run on a fresh
    table, it holds at most its limit of metrics and the one that counts the drops. *)
Theorem nrm_table_bounded (m : Z) (ops : list metric_op) :
  Forall op_ok ops → Forall unforced ops →
  nrm_table_size (foldl exec (Some (nrm_table_create m)) ops) ≤ limit m + 1.
Proof.
  intros Hops Hu. destruct (run_spec _ _ _ _ (create_table_spec m) Hops) as (t & -> & Hr).
  simpl. rewrite (mr_number _ _ _ Hr).
  pose proof (spec_bound (limit m) ops). unfold limit, NRM_DEFAULT_MAX_SIZE in *.
  destruct (Z.leb_spec m 0); cbv zeta in *; naive_solver lia.
Qed.

Example nrm_table_bounded_witness :
  nrm_table_size (foldl exec (Some (nrm_table_create 1))
    [Add false (Some [97]) 1 5 5 5 5 25; Add false (Some [98]) 1 7 7 7 7 49; AddApdex false (Some [99]) 1 0 0 3 3])
  ≤ 2.
Proof. apply (nrm_table_bounded 1); repeat constructor; done. Defined.
