(* ===== verification/SegmentTree.v ===== *)
(** * SegmentTree: the children of segments and the tree they form
    (src/axiom/nr_segment_children.c, .h and _private.h; the tree operations of
    src/axiom/nr_segment.c)

    Segments point at each other, so they live in a heap: a pointer to a
    segment is an address, [None] is [NULL].  A pointer to the children
    structure of a segment is the address of that segment.  An operation that
    may not return gives an [option]: [None] stands for the endless loop of
    Vector.v, or for following a pointer that points to no segment. *)

From S2P Require Import Prelude Memory Vector.
Local Open Scope Z_scope.
Set Warnings "-clear-no-such-hyp,-register-all".

(** ** State *)
Definition NR_SEGMENT_CHILDREN_PACKED_LIMIT : Z := 8.

Inductive nr_segment_color_t := NR_SEGMENT_WHITE | NR_SEGMENT_GREY.

#[export] Instance color_eq_dec : EqDecision nr_segment_color_t.
Proof. solve_decision. Defined.

(** The union and the flag that says which side is in use. *)
Inductive nr_segment_children_t :=
| Packed (count : Z) (packed : list (option nat))
| Vectored (vector : nr_vector_t (option nat)).

(** The fields that the tree operations and the comparators use. *)
Record nr_segment_t := Segment {
  txn : Z;
  parent : option nat;
  children : nr_segment_children_t;
  child_ix : Z;
  color : nr_segment_color_t;
  start_time : Z;
  stop_time : Z;
  priority : Z;
}.

Abbreviation heap := (gmap nat nr_segment_t).

Definition with_parent (p : option nat) (s : nr_segment_t) : nr_segment_t :=
  Segment (txn s) p (children s) (child_ix s) (color s) (start_time s) (stop_time s) (priority s).
Definition with_children (c : nr_segment_children_t) (s : nr_segment_t) : nr_segment_t :=
  Segment (txn s) (parent s) c (child_ix s) (color s) (start_time s) (stop_time s) (priority s).
Definition with_child_ix (ix : Z) (s : nr_segment_t) : nr_segment_t :=
  Segment (txn s) (parent s) (children s) ix (color s) (start_time s) (stop_time s) (priority s).
Definition with_color (c : nr_segment_color_t) (s : nr_segment_t) : nr_segment_t :=
  Segment (txn s) (parent s) (children s) (child_ix s) c (start_time s) (stop_time s) (priority s).

Section segments.
Context `{Allocator (option nat)} `{QsortR}.
Implicit Types (h : heap) (c : option nat) (child : option nat).

(** An access through an optional pointer. *)
Definition field {A} (f : nr_segment_t → A) h (p : option nat) : option A :=
  i ← p; f <$> h !! i.

Definition set_children h (i : nat) (ch : nr_segment_children_t) : heap :=
  alter (with_children ch) i h.

(** ** Children (nr_segment_children.h) *)
Definition nr_segment_get_child_ix h (segment : option nat) : Z :=
  match segment with
  | None => -1
  | Some i => from_option child_ix 0 (h !! i)
  end.

Definition nr_segment_set_child_ix h (segment : option nat) (ix : Z) : heap :=
  match segment with
  | None => h
  | Some i => alter (with_child_ix ix) i h
  end.

(** The packed slots keep whatever the memory of the union holds. *)
Definition empty_children : nr_segment_children_t :=
  Packed 0 (uninitialised <$> seq 0 (Z.to_nat NR_SEGMENT_CHILDREN_PACKED_LIMIT)).

Definition nr_segment_children_init h c : heap :=
  match c with None => h | Some i => set_children h i empty_children end.

(** The vector's slots are freed: the vector is gone from the union. *)
Definition nr_segment_children_deinit h c : heap := nr_segment_children_init h c.

Definition children_size (ch : nr_segment_children_t) : Z :=
  match ch with
  | Packed count _ => count
  | Vectored v => nr_vector_size (Some v)
  end.

Definition children_slot (ch : nr_segment_children_t) (i : Z) : option nat :=
  match ch with
  | Packed _ es => default NULL (es !! Z.to_nat i)
  | Vectored v => slot v i
  end.

Definition nr_segment_children_size h c : Z := from_option children_size 0 (field children h c).

Definition nr_segment_children_get h c (i : Z) : option nat :=
  if nr_segment_children_size h c <=? i then None
  else ch ← field children h c; children_slot ch i.

Definition migrate_to_vector (ch : nr_segment_children_t) : nr_segment_children_t :=
  match ch with
  | Vectored _ => ch
  | Packed count es =>
      if 0 <? count then
        let packed := take (Z.to_nat count) es in
        let v := nr_vector_init_impl (count * 2) false in
        Vectored (Vec (capacity v) count (list_inserts 0 packed (elements v)) (dtor v))
      else Vectored (nr_vector_init_impl NR_SEGMENT_CHILDREN_PACKED_LIMIT false)
  end.

Definition nr_segment_children_migrate_to_vector h (i : nat) : heap :=
  alter (λ s, with_children (migrate_to_vector (children s)) s) i h.

(** Only called on a vector. *)
Definition nr_segment_children_add_vector h (i : nat) child : option (bool * heap) :=
  ch ← children <$> h !! i;
  match ch with
  | Packed _ _ => None
  | Vectored v =>
      '(b, ov) ← nr_vector_push_back (Some v) child;
      Some (b, set_children h i (Vectored (default v ov)))
  end.

Definition nr_segment_children_add h c child : option (bool * heap) :=
  match c, child with
  | Some i, Some _ =>
      ch ← children <$> h !! i;
      match ch with
      | Packed count es =>
          let new_count := count + 1 in
          if NR_SEGMENT_CHILDREN_PACKED_LIMIT <? new_count then
            let h := nr_segment_children_migrate_to_vector h i in
            let h := nr_segment_set_child_ix h child (nr_segment_children_size h c) in
            '(_, h) ← nr_segment_children_add_vector h i child;
            Some (true, h)
          else
            let h := set_children h i (Packed new_count (<[Z.to_nat count := child]> es)) in
            Some (true, nr_segment_set_child_ix h child (new_count - 1))
      | Vectored v =>
          let h := nr_segment_set_child_ix h child (nr_vector_size (Some v)) in
          '(_, h) ← nr_segment_children_add_vector h i child;
          Some (true, h)
      end
  | _, _ => Some (false, h)
  end.

(** Swap'n'pop: the last child takes the place of the removed one, which is
    found by its own index. *)
Definition nr_segment_children_remove h c child : bool * heap :=
  match c, child with
  | Some i, Some _ =>
      if nr_segment_children_size h c =? 0 then (false, h)
      else
        let index := u64 (nr_segment_get_child_ix h child) in
        match field children h c with
        | None => (false, h)
        | Some (Packed count es) =>
            let e := count - 1 in
            if e <? index then (false, h)
            else
              let temp := default NULL (es !! Z.to_nat e) in
              let h := nr_segment_set_child_ix h temp index in
              (true, set_children h i (Packed (count - 1) (<[Z.to_nat index := temp]> es)))
        | Some (Vectored v) =>
            if nr_vector_size (Some v) <=? index then (false, h)
            else
              let '(ok, temp) := nr_vector_get_element (Some v) (nr_vector_size (Some v) - 1) true in
              if negb ok then (false, h)
              else
                let temp := default NULL temp in
                let h := nr_segment_set_child_ix h temp index in
                let '(ok, _, ov) := nr_vector_replace (Some v) index temp in
                if negb ok then (false, h)
                else
                  let '(ok, _, ov) := nr_vector_pop_back ov true in
                  (ok, set_children h i (Vectored (default v ov)))
        end
  | _, _ => (false, h)
  end.

(** ** Siblings and reparenting (nr_segment_children.c) *)

(** The loops over neighbouring pairs, from index [i]. *)
Fixpoint prev_loop (n : nat) h c child (i : Z) : option nat :=
  match n with
  | O => None
  | S n =>
      if bool_decide (nr_segment_children_get h c i = child) then nr_segment_children_get h c (i - 1)
      else prev_loop n h c child (i + 1)
  end.

Definition nr_segment_children_get_prev h c child : option nat :=
  match c, child with
  | Some _, Some _ =>
      let used := nr_segment_children_size h c in
      if used <=? 1 then None else prev_loop (Z.to_nat (used - 1)) h c child 1
  | _, _ => None
  end.

Fixpoint next_loop (n : nat) h c child (i : Z) : option nat :=
  match n with
  | O => None
  | S n =>
      if bool_decide (nr_segment_children_get h c i = child) then nr_segment_children_get h c (i + 1)
      else next_loop n h c child (i + 1)
  end.

Definition nr_segment_children_get_next h c child : option nat :=
  match c, child with
  | Some _, Some _ =>
      let used := nr_segment_children_size h c in
      if used <=? 1 then None else next_loop (Z.to_nat (used - 1)) h c child 0
  | _, _ => None
  end.

(** The loop that redirects the children [i], [i + 1], ... *)
Fixpoint reparent_loop (n : nat) h c (new_parent : nat) (parent_size i : Z) : option heap :=
  match n with
  | O => Some h
  | S n =>
      child ← nr_segment_children_get h c i;
      reparent_loop n
        (alter (λ s, with_child_ix (parent_size + i) (with_parent (Some new_parent) s)) child h)
        c new_parent parent_size (i + 1)
  end.

Definition children_elements (ch : nr_segment_children_t) : list (option nat) :=
  match ch with Packed _ es => es | Vectored v => elements v end.

Definition nr_segment_children_reparent h c (new_parent : option nat) : option (bool * heap) :=
  match c, new_parent with
  | Some i, Some p =>
      let size := nr_segment_children_size h c in
      if size =? 0 then Some (true, h)
      else
        let parent_size := nr_segment_children_size h new_parent in
        let req_parent_size := size + parent_size in
        h ← reparent_loop (Z.to_nat size) h c p parent_size 0;
        let h := if NR_SEGMENT_CHILDREN_PACKED_LIMIT <? req_parent_size
                 then nr_segment_children_migrate_to_vector h p else h in
        source ← children_elements <$> field children h c;
        let copied := take (Z.to_nat size) source in
        ch ← children <$> h !! p;
        h ← match ch with
            | Packed _ es =>
                Some (set_children h p (Packed req_parent_size (list_inserts (Z.to_nat parent_size) copied es)))
            | Vectored v =>
                '(_, ov) ← nr_vector_ensure (Some v) req_parent_size;
                let v := default v ov in
                Some (set_children h p (Vectored (Vec (capacity v) req_parent_size
                  (list_inserts (Z.to_nat parent_size) copied (elements v)) (dtor v))))
            end;
        Some (true, nr_segment_children_deinit h c)
  | _, _ => Some (false, h)
  end.

(** ** The tree (nr_segment.c) *)

(** Is the segment among the ancestors that start at [ancestor]?  [None] when
    the chain of parents does not end within [fuel] steps. *)
Fixpoint ancestor_loop (fuel : nat) h (ancestor : option nat) (segment : nat) : option bool :=
  match ancestor with
  | None => Some false
  | Some a =>
      if decide (a = segment) then Some true
      else match fuel with
           | O => None
           | S fuel => s ← h !! a; ancestor_loop fuel h (parent s) segment
           end
  end.

(** A chain of parents without a cycle is no longer than the heap. *)
Definition nr_segment_set_parent h (segment new_parent : option nat) : option (bool * heap) :=
  match segment with
  | None => Some (false, h)
  | Some i =>
      s ← h !! i;
      same_txn ← match new_parent with
                 | None => Some true
                 | Some p => (λ q, bool_decide (txn s = txn q)) <$> h !! p
                 end;
      if negb same_txn then Some (false, h)
      else if decide (parent s = new_parent) then Some (true, h)
      else
        cycle ← ancestor_loop (size h) h new_parent i;
        if (cycle : bool) then Some (false, h)
        else
          let h := match parent s with
                   | Some p => (nr_segment_children_remove h (Some p) segment).2
                   | None => h
                   end in
          match new_parent with
          | None => None
          | Some p =>
              '(_, h) ← nr_segment_children_add h (Some p) segment;
              Some (true, alter (with_parent new_parent) i h)
          end
  end.

Definition nr_segment_add_child h (new_parent child : option nat) : option (bool * heap) :=
  match new_parent, child with
  | Some _, Some _ => '(_, h) ← nr_segment_set_parent h child new_parent; Some (true, h)
  | _, _ => Some (false, h)
  end.

Definition nr_segment_set_timing h (segment : option nat) (start duration : Z) : bool * heap :=
  match segment with
  | None => (false, h)
  | Some i =>
      (true, alter (λ s, Segment (txn s) (parent s) (children s) (child_ix s) (color s) start
                           (u64 (start + duration)) (priority s)) i h)
  end.

(** ** Traversal

    The state the callbacks work on is threaded through; they are given the
    segment and leave the segments alone.  A callback may ask for a post
    callback, which has its own userdata. *)
Definition nr_segment_toggle_color (c : nr_segment_color_t) : nr_segment_color_t :=
  match c with NR_SEGMENT_WHITE => NR_SEGMENT_GREY | NR_SEGMENT_GREY => NR_SEGMENT_WHITE end.

Section iterate.
Context {S : Type} (callback : nat → S → S * option (nat → S → S)).

(** The recursion of the C function; [fuel] bounds its depth. *)
Fixpoint nr_segment_iterate_helper (fuel : nat) (root : option nat)
    (reset_color set_color : nr_segment_color_t) (hs : heap * S) : option (heap * S) :=
  match fuel with
  | O => None
  | Datatypes.S fuel =>
      match root with
      | None => Some hs
      | Some i =>
          let '(h, s) := hs in
          seg ← h !! i;
          if decide (color seg = reset_color) then
            let n_children := children_size (children seg) in
            let h := alter (with_color set_color) i h in
            let '(s, post_callback) := callback i s in
            '(h, s) ← foldl (λ acc k,
                '(h, s) ← acc;
                nr_segment_iterate_helper fuel (nr_segment_children_get h root k)
                  reset_color set_color (h, s))
              (Some (h, s)) (seqZ 0 n_children);
            Some (h, match post_callback with Some post => post i s | None => s end)
          else Some hs
      end
  end.
End iterate.

(** Every level of the recursion but the last colours a segment, so one level
    more than there are segments is enough. *)
Definition nr_segment_iterate {S : Type} h (root : option nat)
    (callback : option (nat → S → S * option (nat → S → S))) (s : S) : option (heap * S) :=
  match callback, root with
  | Some callback, Some i =>
      seg ← h !! i;
      nr_segment_iterate_helper callback (Datatypes.S (size h)) root (color seg)
        (nr_segment_toggle_color (color seg)) (h, s)
  | _, _ => Some (h, s)
  end.

(** ** Comparison of segments *)

(** [COMPARATOR_NULL_CHECK]: [NULL] is the smallest pointer. *)
Definition comparator_null_check (a b : option nat) (k : nat → nat → Z) : Z :=
  match a, b with
  | None, None => 0
  | None, Some _ => -1
  | Some _, None => 1
  | Some x, Some y => k x y
  end.

Definition nr_segment_duration_comparator (a b : nr_segment_t) : Z :=
  let duration_a := u64 (stop_time a - start_time a) in
  let duration_b := u64 (stop_time b - start_time b) in
  if duration_a <? duration_b then -1 else if duration_b <? duration_a then 1 else 0.

Definition nr_segment_span_priority_comparator (a b : nr_segment_t) : Z :=
  if priority b <? priority a then 1
  else if priority a <? priority b then -1
  else nr_segment_duration_comparator a b.

(** What an address of the heap holds; a segment in use is always there. *)
Definition segment_at h (i : nat) : nr_segment_t :=
  default (Segment 0 None empty_children 0 NR_SEGMENT_WHITE 0 0 0) (h !! i).

Definition nr_segment_wrapped_duration_comparator h (a b : option nat) : Z :=
  comparator_null_check a b
    (λ x y, nr_segment_duration_comparator (segment_at h x) (segment_at h y)).

Definition nr_segment_wrapped_span_priority_comparator h (a b : option nat) : Z :=
  comparator_null_check a b
    (λ x y, nr_segment_span_priority_comparator (segment_at h x) (segment_at h y)).
End segments.

(** ** The children as a list *)
Definition klist (ch : nr_segment_children_t) : list (option nat) :=
  match ch with Packed count es => take (Z.to_nat count) es | Vectored v => values v end.

Definition children_ok (ch : nr_segment_children_t) : Prop :=
  match ch with
  | Packed count es => 0 ≤ count ≤ 8 ∧ length es = 8%nat
  | Vectored v => vec_inv v
  end.

(** The last child takes the place [k]. *)
Definition swap_pop {A} (k : nat) (l : list A) : list A :=
  match last l with
  | Some x => take (length l - 1) (<[k := x]> l)
  | None => []
  end.

Lemma swap_pop_snoc {A} k (l : list A) x :
  swap_pop k (l ++ [x]) = if decide (k < length l)%nat then <[k := x]> l else l.
Proof.
  unfold swap_pop. rewrite last_snoc, length_app. simpl.
  replace (length l + 1 - 1)%nat with (length l) by lia. case_decide as Hk.
  - rewrite insert_app_l by done. apply take_app_length'. by rewrite length_insert.
  - rewrite insert_app_r_alt by lia. by apply take_app_length'.
Qed.

Lemma swap_pop_perm {A} k (l : list A) y : l !! k = Some y → y :: swap_pop k l ≡ₚ l.
Proof.
  destruct l as [|x l _] using rev_ind; [done|]. rewrite swap_pop_snoc. intros Hk.
  case_decide as Hlt.
  - rewrite lookup_app_l in Hk by done. rewrite <-(take_drop_middle l k y Hk) at 2.
    rewrite insert_take_drop by done. rewrite <-Permutation_middle, <-(Permutation_cons_append _ x).
    rewrite <-Permutation_middle. apply Permutation_swap.
  - rewrite lookup_app_r in Hk by lia. apply list_lookup_singleton_Some in Hk as [_ ->].
    apply Permutation_cons_append.
Qed.

Lemma length_swap_pop {A} k (l : list A) : length (swap_pop k l) = (length l - 1)%nat.
Proof.
  destruct l as [|x l _] using rev_ind; [done|]. rewrite swap_pop_snoc, length_app. simpl.
  case_decide; rewrite ?length_insert; lia.
Qed.

(** Where the children are after a removal. *)
Lemma swap_pop_lookup {A} k (l : list A) m y : (k < length l)%nat → swap_pop k l !! m = Some y →
  (m = k ∧ last l = Some y ∧ (k < length l - 1)%nat) ∨ (m ≠ k ∧ l !! m = Some y ∧ (m < length l - 1)%nat).
Proof.
  destruct l as [|x l _] using rev_ind; [simpl; lia|]. rewrite swap_pop_snoc, length_app, last_snoc.
  simpl. intros Hk Hm. case_decide as Hlt.
  - destruct (decide (m = k)) as [->|].
    + left. rewrite list_lookup_insert_eq in Hm by done. split_and!; [done..|lia].
    + right. rewrite list_lookup_insert_ne in Hm by done. pose proof (lookup_lt_Some _ _ _ Hm).
      split_and!; [done|by rewrite lookup_app_l|lia].
  - pose proof (lookup_lt_Some _ _ _ Hm). right. split_and!; [lia|by rewrite lookup_app_l|lia].
Qed.

Lemma swap_pop_last {A} k (l : list A) y : (k < length l - 1)%nat → last l = Some y →
  swap_pop k l !! k = Some y.
Proof.
  destruct l as [|x l _] using rev_ind; [done|]. rewrite swap_pop_snoc, last_snoc, length_app.
  simpl. intros Hk [= ->]. rewrite decide_True by lia. apply list_lookup_insert_eq. lia.
Qed.

Lemma swap_pop_other {A} k (l : list A) m y : m ≠ k → (m < length l - 1)%nat → l !! m = Some y →
  swap_pop k l !! m = Some y.
Proof.
  destruct l as [|x l _] using rev_ind; [done|]. rewrite swap_pop_snoc, length_app. simpl.
  intros Hm Hlt Hy. rewrite lookup_app_l in Hy by lia.
  case_decide; [by rewrite list_lookup_insert_ne|done].
Qed.

Section segment_proofs.
Context `{Allocator (option nat)} `{QsortR}.
Context (Hal : ∀ n, realloc_succeeds (V:=option nat) n = true).
Implicit Types (h : heap).

Lemma children_size_spec ch : children_ok ch → children_size ch = Z.of_nat (length (klist ch)).
Proof.
  destruct ch as [count es|v]; simpl.
  - intros [? ?]. rewrite length_take. lia.
  - intros Hv. pose proof (vi_used _ Hv). rewrite length_values by done. lia.
Qed.

Lemma children_slot_spec ch (k : nat) x : children_ok ch → klist ch !! k = Some x →
  children_slot ch (Z.of_nat k) = x.
Proof.
  destruct ch as [count es|v]; simpl; intros Hc Hk.
  - apply lookup_take_Some in Hk as [Hk _]. by rewrite Nat2Z.id, Hk.
  - pose proof (vi_used _ Hc). pose proof (lookup_lt_Some _ _ _ Hk) as Hlt.
    rewrite length_values in Hlt by done.
    pose proof (slot_lookup v (Z.of_nat k) Hc ltac:(lia)) as Hs. rewrite Nat2Z.id, Hk in Hs. congruence.
Qed.

Lemma empty_children_spec : children_ok empty_children ∧ klist empty_children = [].
Proof. split; [|done]. split; [lia|done]. Qed.

Lemma migrate_spec ch : children_ok ch →
  ∃ v, migrate_to_vector ch = Vectored v ∧ vec_inv v ∧ values v = klist ch.
Proof.
  destruct ch as [count es|v]; simpl; intros Hc; [|by exists v]. destruct Hc as [Hc Hl].
  destruct (Z.ltb_spec 0 count).
  - eexists. split; [done|]. unfold nr_vector_init_impl.
    destruct (Z.eqb_spec (count * 2) 0); [lia|]. simpl.
    assert (length (list_inserts 0 (take (Z.to_nat count) es) (nr_calloc (V:=option nat) (count * 2))) =
            Z.to_nat (count * 2)) as Hlen.
    { rewrite length_inserts. unfold nr_calloc. destruct (Z.eqb_spec (count * 2) 0); [lia|].
      apply length_replicate. }
    split; [split; simpl; [lia|done|lia]|]. unfold values. simpl.
    rewrite length_inserts in Hlen. rewrite inserts_0 by (rewrite length_take; lia).
    apply take_app_length'. rewrite length_take. lia.
  - eexists. split; [done|]. split; [by apply (create_inv 8 false)|].
    by replace (Z.to_nat count) with 0%nat by lia.
Qed.

(** Writes to different fields commute. *)
Lemma ix_children_comm h i j ix ch :
  alter (with_child_ix ix) j (alter (with_children ch) i h) =
  alter (with_children ch) i (alter (with_child_ix ix) j h).
Proof.
  destruct (decide (i = j)) as [->|]; [|by rewrite alter_alter_ne].
  rewrite !alter_alter_eq. by apply alter_ext.
Qed.

Lemma add_vector_spec h i j s v : h !! i = Some s → children s = Vectored v →
  vec_inv v → used v < 2 ^ 59 →
  ∃ v', nr_segment_children_add_vector h i (Some j) = Some (true, set_children h i (Vectored v')) ∧
    vec_inv v' ∧ values v' = values v ++ [Some j].
Proof.
  intros Hi Hs Hv Hu. pose proof (vi_used _ Hv). pose proof (length_values v Hv) as Hl.
  destruct (insert_list v (used v) (Some j) (values v ++ [Some j]) Hal Hv ltac:(lia) Hu)
    as (v' & E & Hv' & _ & Hvs); [by rewrite take_ge, drop_ge by lia|].
  exists v'. split; [|done]. unfold nr_segment_children_add_vector. rewrite Hi.
  cbn [fmap option_fmap option_map mbind option_bind]. rewrite Hs. unfold nr_vector_push_back.
  rewrite E. done.
Qed.

(** Adding a child: it goes to the end, and its index says so. *)
Lemma children_add_spec h i j s : h !! i = Some s → children_ok (children s) →
  Z.of_nat (length (klist (children s))) < 2 ^ 59 →
  ∃ ch', nr_segment_children_add h (Some i) (Some j) =
      Some (true, alter (with_child_ix (Z.of_nat (length (klist (children s))))) j (set_children h i ch')) ∧
    children_ok ch' ∧ klist ch' = klist (children s) ++ [Some j].
Proof.
  intros Hi Hok Hlen. pose proof (children_size_spec _ Hok) as Hsz. unfold nr_segment_children_add.
  rewrite Hi. cbn [fmap option_fmap option_map mbind option_bind].
  destruct (children s) as [count es|v] eqn:Ech.
  - destruct Hok as [Hc Hl]. simpl in Hsz. unfold NR_SEGMENT_CHILDREN_PACKED_LIMIT.
    destruct (Z.ltb_spec 8 (count + 1)).
    + destruct (migrate_spec (Packed count es)) as (v & Em & Hv & Hvs); [done|].
      pose proof (length_values v Hv) as Hlv. pose proof (vi_used _ Hv). rewrite Hvs in Hlv.
      set (h1 := nr_segment_children_migrate_to_vector h i).
      assert (h1 !! i = Some (with_children (Vectored v) s)) as Hi1.
      { unfold h1, nr_segment_children_migrate_to_vector. by rewrite lookup_alter_eq, Hi, <-Em, <-Ech. }
      assert (nr_segment_children_size h1 (Some i) = used v) as Hs1.
      { unfold nr_segment_children_size, field. simpl. by rewrite Hi1. }
      set (h2 := nr_segment_set_child_ix h1 (Some j) (nr_segment_children_size h1 (Some i))).
      assert (∃ s2, h2 !! i = Some s2 ∧ children s2 = Vectored v) as (s2 & Hi2 & Hs2).
      { unfold h2. simpl. destruct (decide (i = j)) as [->|].
        - rewrite lookup_alter_eq, Hi1. eauto.
        - rewrite lookup_alter_ne, Hi1 by done. eauto. }
      destruct (add_vector_spec h2 i j s2 v Hi2 Hs2 Hv ltac:(lia)) as (v' & -> & Hv' & Hvs').
      exists (Vectored v'). split; [|by rewrite <-Hvs]. cbn [mbind option_bind]. do 2 f_equal.
      unfold h2. rewrite Hs1. cbn [nr_segment_set_child_ix]. unfold set_children.
      rewrite <-ix_children_comm.
      replace (used v) with (Z.of_nat (length (klist (Packed count es)))) by (simpl in *; lia).
      f_equal. unfold h1, nr_segment_children_migrate_to_vector. rewrite alter_alter_eq. by apply alter_ext.
    + eexists. split; [simpl in *; do 2 f_equal; f_equal; f_equal; lia|].
      split; [split; [lia|by rewrite length_insert]|]. simpl.
      destruct (lookup_lt_is_Some_2 es (Z.to_nat count)) as [y Hy]; [lia|].
      replace (Z.to_nat (count + 1)) with (S (Z.to_nat count)) by lia.
      rewrite (take_S_r _ _ (Some j)) by (apply list_lookup_insert_eq; lia).
      by rewrite take_insert_ge.
  - set (h1 := nr_segment_set_child_ix _ _ _).
    assert (∃ s1, h1 !! i = Some s1 ∧ children s1 = Vectored v) as (s1 & Hi1 & Hs1).
    { unfold h1. simpl. destruct (decide (i = j)) as [->|].
      - rewrite lookup_alter_eq, Hi. eauto.
      - rewrite lookup_alter_ne, Hi by done. eauto. }
    simpl in Hok, Hsz. destruct (add_vector_spec h1 i j s1 v Hi1 Hs1 Hok ltac:(simpl in *; lia)) as (v' & -> & Hv' & Hvs').
    exists (Vectored v'). split; [|done]. simpl. do 2 f_equal. unfold h1, set_children. simpl.
    rewrite ix_children_comm. do 2 f_equal. simpl in Hsz. by rewrite Hsz.
Qed.

(** Removing the child at its index: swap'n'pop, the moved child learns its
    new place. *)
Lemma children_remove_spec h i j s t k : h !! i = Some s → children_ok (children s) →
  h !! j = Some t → child_ix t = Z.of_nat k → (k < length (klist (children s)))%nat →
  ∃ ch' x, nr_segment_children_remove h (Some i) (Some j) =
      (true, set_children (nr_segment_set_child_ix h x (Z.of_nat k)) i ch') ∧
    last (klist (children s)) = Some x ∧ children_ok ch' ∧ klist ch' = swap_pop k (klist (children s)).
Proof.
  intros Hi Hok Hj Hix Hk. pose proof (children_size_spec _ Hok) as Hsz.
  unfold nr_segment_children_remove, nr_segment_children_size, field. simpl.
  rewrite Hi, Hj. cbn [fmap option_fmap option_map from_option]. rewrite Hsz, Hix.
  destruct (Z.eqb_spec (Z.of_nat (length (klist (children s)))) 0); [lia|].
  destruct (last (klist (children s))) as [x|] eqn:Hlast; [|apply last_None in Hlast; rewrite Hlast in Hk; simpl in Hk; lia].
  rewrite last_lookup in Hlast. unfold swap_pop. rewrite last_lookup, Hlast. clear Hi Hj Hix.
  destruct (children s) as [count es|v].
  - destruct Hok as [Hc Hl]. simpl in *. rewrite length_take in *.
    rewrite u64_small by lia. destruct (Z.ltb_spec (count - 1) (Z.of_nat k)); [lia|].
    rewrite lookup_take_lt in Hlast by lia.
    replace (Z.to_nat (count - 1)) with (pred (Z.to_nat count `min` length es))%nat by lia.
    rewrite Hlast, Nat2Z.id. exists (Packed (count - 1) (<[k := x]> es)), x. split_and!; [done..| |].
    + split; [lia|by rewrite length_insert].
    + simpl. rewrite <-take_insert_lt by lia. rewrite take_take. f_equal. lia.
  - simpl in *. pose proof (vi_used _ Hok). pose proof (vi_capacity _ Hok).
    rewrite length_values in * by done. rewrite u64_small by lia.
    destruct (Z.leb_spec (used v) (Z.of_nat k)); [lia|].
    destruct (Z.leb_spec (used v) (used v - 1)); [lia|]. cbn [orb negb default from_option id].
    pose proof (slot_lookup v (used v - 1) Hok ltac:(lia)) as Hsl.
    replace (Z.to_nat (used v - 1)) with (pred (Z.to_nat (used v))) in Hsl by lia.
    rewrite Hlast in Hsl. injection Hsl as <-.
    destruct (replace_spec v (Z.of_nat k) x Hok ltac:(lia)) as [Hr Hrv]. rewrite Nat2Z.id in Hrv.
    simpl. destruct (Z.eqb_spec (used v) 0); [lia|].
    pose proof (remove_impl_list (set_slot v (Z.of_nat k) x) (used v - 1) Hr ltac:(lia)) as Hp.
    destruct (nr_vector_remove_impl _ _) as [[b e] v']. destruct Hp as (Hp & Hv' & _).
    unfold list_remove in Hp. rewrite Hrv in Hp.
    destruct (<[k:=x]> (values v) !! Z.to_nat (used v - 1)) eqn:El.
    2: { apply lookup_ge_None in El. rewrite length_insert, length_values in El by done. lia. }
    injection Hp as <- <- Hvs. exists (Vectored v'), x. split_and!; [done..|].
    simpl. rewrite <-Hvs. rewrite delete_take_drop, drop_ge, app_nil_r
      by (rewrite length_insert, length_values by done; lia). f_equal. lia.
Qed.

(** An index out of range is refused. *)
Lemma children_remove_refuses h i j s : h !! i = Some s → children_ok (children s) →
  Z.of_nat (length (klist (children s))) ≤ u64 (nr_segment_get_child_ix h (Some j)) →
  nr_segment_children_remove h (Some i) (Some j) = (false, h).
Proof.
  intros Hi Hok Hle. pose proof (children_size_spec _ Hok) as Hsz.
  unfold nr_segment_children_remove, nr_segment_children_size, field. simpl.
  rewrite Hi. cbn [fmap option_fmap option_map from_option]. rewrite Hsz.
  case_match; [done|]. simpl in Hle.
  destruct (children s) as [count es|v]; simpl in *.
  - by destruct (Z.ltb_spec (count - 1) (u64 (from_option child_ix 0 (h !! j)))); [|lia].
  - by destruct (Z.leb_spec (used v) (u64 (from_option child_ix 0 (h !! j)))); [|lia].
Qed.

(** ** The tree invariant *)
Definition kids h (i : nat) : list (option nat) := from_option (klist ∘ children) [] (h !! i).

(** What the operations on children leave alone. *)
Definition core (s : nr_segment_t) := (txn s, parent s, color s, start_time s, stop_time s, priority s).
Definition same_core h h' : Prop := ∀ i, core <$> h' !! i = core <$> h !! i.

(** Children and parents agree, and every child knows its place; [detached] is
    a segment between its removal and its addition. *)
Record tree_inv (detached : option nat) h : Prop := {
  ti_ok : ∀ i s, h !! i = Some s → children_ok (children s);
  ti_child : ∀ i s k c, h !! i = Some s → klist (children s) !! k = Some c →
    ∃ j t, c = Some j ∧ c ≠ detached ∧ h !! j = Some t ∧ parent t = Some i ∧
      child_ix t = Z.of_nat k ∧ txn t = txn s;
  ti_parent : ∀ j t i, h !! j = Some t → Some j ≠ detached → parent t = Some i →
    ∃ s k, h !! i = Some s ∧ child_ix t = Z.of_nat k ∧ klist (children s) !! k = Some (Some j);
}.

(** The heap after one segment got new children and another a new index. *)
Lemma lookup_alters h x i n ch y s' :
  nr_segment_set_child_ix (set_children h i ch) x n !! y = Some s' ↔
  ∃ s, h !! y = Some s ∧
    s' = Segment (txn s) (parent s) (if decide (y = i) then ch else children s)
           (if decide (Some y = x) then n else child_ix s) (color s) (start_time s) (stop_time s) (priority s).
Proof.
  assert (nr_segment_set_child_ix (set_children h i ch) x n !! y = (λ s,
    Segment (txn s) (parent s) (if decide (y = i) then ch else children s)
           (if decide (Some y = x) then n else child_ix s) (color s) (start_time s) (stop_time s) (priority s))
    <$> h !! y) as ->.
  - unfold set_children. destruct x as [x|]; simpl; rewrite ?lookup_alter;
      repeat case_decide; simplify_eq; by destruct (h !! _) as [[]|].
  - destruct (h !! y) as [s|]; simpl; naive_solver.
Qed.

Lemma alters_core h x i n ch : same_core h (nr_segment_set_child_ix (set_children h i ch) x n).
Proof.
  intros y. destruct (nr_segment_set_child_ix _ _ _ !! y) as [s'|] eqn:E.
  - apply lookup_alters in E as (s & -> & ->). done.
  - destruct (h !! y) as [s|] eqn:Ey; [|done].
    assert (is_Some (nr_segment_set_child_ix (set_children h i ch) x n !! y)) as [? ?]; [|congruence].
    eexists. apply lookup_alters. eauto.
Qed.

Lemma alters_kids h x i s n ch y : h !! i = Some s →
  kids (nr_segment_set_child_ix (set_children h i ch) x n) y = if decide (y = i) then klist ch else kids h y.
Proof.
  intros Hi. unfold kids.
  destruct (nr_segment_set_child_ix _ _ _ !! y) as [s'|] eqn:E.
  - apply lookup_alters in E as (s0 & -> & ->). simpl. by case_decide.
  - pose proof (alters_core h x i n ch y) as Hc. rewrite E in Hc. destruct (h !! y) eqn:Ey; [done|].
    case_decide; [congruence|done].
Qed.

Lemma set_ix_children h x i n ch :
  set_children (nr_segment_set_child_ix h x n) i ch = nr_segment_set_child_ix (set_children h i ch) x n.
Proof. destruct x as [x|]; [|done]. simpl. symmetry. apply ix_children_comm. Qed.

Lemma tree_detach h j t : tree_inv None h → h !! j = Some t → parent t = None → tree_inv (Some j) h.
Proof.
  intros [Hok Hch Hpa] Hj Ht. split; [done|..].
  - intros i s k c Hi Hk. destruct (Hch i s k c Hi Hk) as (j' & t' & -> & _ & Hj' & Hp & ? & ?).
    exists j', t'. split_and!; try done. intros [= ->]. congruence.
  - intros. by eapply Hpa.
Qed.

Lemma remove_inv h i j t : tree_inv None h → h !! j = Some t → parent t = Some i →
  ∃ h', nr_segment_children_remove h (Some i) (Some j) = (true, h') ∧ tree_inv (Some j) h' ∧
    same_core h h' ∧ (∀ x, if decide (x = i) then Some j :: kids h' i ≡ₚ kids h i
                           else kids h' x = kids h x).
Proof.
  intros [Hok Hch Hpa] Hj Hp. destruct (Hpa j t i Hj) as (s & k & Hi & Hix & Hk); [done..|].
  pose proof (lookup_lt_Some _ _ _ Hk) as Hlt. pose proof (Hok _ _ Hi) as Hoki.
  destruct (children_remove_spec h i j s t k Hi Hoki Hj Hix Hlt) as (ch & x & -> & Hlast & Hch' & Hkl).
  rewrite last_lookup in Hlast. set (len := length (klist (children s))) in *.
  destruct (Hch i s _ x Hi Hlast) as (xj & tx & -> & _ & Hxj & Hxp & Hxix & Hxtx).
  eexists. split; [done|]. rewrite set_ix_children. split_and!; [|apply alters_core|].
  - split.
    + intros y sy (s0 & Hy & ->)%lookup_alters. simpl. case_decide; [done|by eapply Hok].
    + intros y sy m c (s0 & Hy & ->)%lookup_alters Hm. simpl in Hm |- *.
      case_decide as Hyi.
      * subst y. simplify_eq. rewrite Hkl in Hm.
        apply swap_pop_lookup in Hm as [(-> & Hl & ?)|(Hmk & Hl & ?)]; [|..|done].
        -- rewrite last_lookup in Hl. fold len in Hl. rewrite Hlast in Hl. injection Hl as <-. exists xj. eexists.
           split_and!; [done| |apply (lookup_alters h (Some xj) i); eauto|done| |].
           ++ intros [= ->]. simplify_eq. lia.
           ++ simpl. by rewrite decide_True.
           ++ exact Hxtx.
        -- destruct (Hch i s m c Hi Hl) as (j' & t' & -> & _ & Hj' & Hp' & Hix' & Htx).
           exists j'. eexists. split_and!; [done| |apply (lookup_alters h (Some xj) i); eauto|done| |done].
           ++ intros [= ->]. simplify_eq. lia.
           ++ simpl. rewrite decide_False; [done|]. intros [= ->]. simplify_eq. lia.
      * destruct (Hch y s0 m c Hy Hm) as (j' & t' & -> & _ & Hj' & Hp' & Hix' & Htx).
        exists j'. eexists. split_and!; [done| |apply (lookup_alters h (Some xj) i); eauto|done| |done].
        -- intros [= ->]. simplify_eq.
        -- simpl. rewrite decide_False; [done|]. intros [= ->]. simplify_eq.
    + intros j' t' y (t0 & Hj' & ->)%lookup_alters Hne Hpy. simpl in Hpy |- *.
      destruct (Hpa j' t0 y Hj') as (s0 & m & Hy & Hm & Hc); [done..|].
      eexists. exists (if decide (Some j' = Some xj) then k else m).
      split; [apply (lookup_alters h (Some xj) i); eauto|]. simpl. split; [by case_decide|].
      destruct (decide (y = i)) as [->|Hyi].
      * simplify_eq. rewrite Hkl. pose proof (lookup_lt_Some _ _ _ Hc).
        case_decide as Hx; simplify_eq.
        -- apply swap_pop_last; [|by rewrite last_lookup]. fold len.
           assert (m ≠ k) by (intros ->; congruence). lia.
        -- apply swap_pop_other; [intros ->; congruence| |done]. fold len.
           assert (m ≠ pred len) by (intros ->; congruence). lia.
      * rewrite decide_False; [done|]. intros [= ->]. simplify_eq.
  - intros y. rewrite !(alters_kids _ _ _ s) by done. case_decide; [|done].
    rewrite decide_True, Hkl by done. unfold kids. rewrite Hi. by apply swap_pop_perm.
Qed.

Lemma core_lookup h h' i s : same_core h h' → h !! i = Some s →
  ∃ s', h' !! i = Some s' ∧ core s' = core s.
Proof.
  intros Hc Hi. specialize (Hc i). rewrite Hi in Hc. destruct (h' !! i) as [s'|]; [|done].
  exists s'. split; [done|]. exact (inj Some _ _ Hc).
Qed.

Lemma core_with_parent p s s' : core s = core s' → core (with_parent p s) = core (with_parent p s').
Proof. destruct s, s'. unfold core. simpl. congruence. Qed.

Lemma add_inv h i j s t : tree_inv (Some j) h → h !! i = Some s → h !! j = Some t → txn t = txn s →
  Z.of_nat (length (kids h i)) < 2 ^ 59 →
  ∃ h', nr_segment_children_add h (Some i) (Some j) = Some (true, h') ∧
    tree_inv None (alter (with_parent (Some i)) j h') ∧ same_core h h' ∧
    ∀ x, kids h' x = if decide (x = i) then kids h i ++ [Some j] else kids h x.
Proof.
  intros [Hok Hch Hpa] Hi Hj Htx Hlen. unfold kids in Hlen. rewrite Hi in Hlen. simpl in Hlen.
  destruct (children_add_spec h i j s Hi (Hok _ _ Hi) Hlen) as (ch & -> & Hoc & Hkl).
  set (n := length (klist (children s))) in *. eexists. split; [done|].
  change (alter (with_child_ix (Z.of_nat n)) j (set_children h i ch))
    with (nr_segment_set_child_ix (set_children h i ch) (Some j) (Z.of_nat n)).
  set (h' := nr_segment_set_child_ix _ _ _).
  assert (Hlook : ∀ y sy, alter (with_parent (Some i)) j h' !! y = Some sy ↔ ∃ s0, h !! y = Some s0 ∧
    sy = Segment (txn s0) (if decide (y = j) then Some i else parent s0)
      (if decide (y = i) then ch else children s0) (if decide (y = j) then Z.of_nat n else child_ix s0)
      (color s0) (start_time s0) (stop_time s0) (priority s0)).
  { intros y sy. rewrite lookup_alter_Some. unfold h'. split.
    - intros [(<- & x & (s0 & ? & ->)%lookup_alters & ->)|(Hne & (s0 & ? & ->)%lookup_alters)];
        exists s0; (split; [done|]); simpl.
      + by rewrite !(decide_True (P:=j = j)), (decide_True (P:=Some j = Some j)).
      + by rewrite !(decide_False (P:=y = j)), (decide_False (P:=Some y = Some j)) by congruence.
    - intros (s0 & Hy & ->). destruct (decide (y = j)) as [->|Hne].
      + left. split; [done|]. eexists. split; [apply lookup_alters; eauto|].
        by rewrite (decide_True (P:=Some j = Some j)).
      + right. split; [done|]. apply lookup_alters. exists s0. split; [done|].
        by rewrite (decide_False (P:=Some y = Some j)) by congruence. }
  split_and!; [|apply alters_core|].
  - split.
    + intros y sy (s0 & Hy & ->)%Hlook. simpl. case_decide; [done|by eapply Hok].
    + intros y sy m c (s0 & Hy & ->)%Hlook Hm. simpl in Hm |- *.
      assert (Hold : klist (children s0) !! m = Some c → ∃ j' t', c = Some j' ∧ c ≠ None ∧
        alter (with_parent (Some i)) j h' !! j' = Some t' ∧ parent t' = Some y ∧
        child_ix t' = Z.of_nat m ∧ txn t' = txn s0).
      { intros Hc. destruct (Hch y s0 m c Hy Hc) as (j' & t' & -> & Hne & Hj' & ? & ? & ?).
        exists j'. eexists. split_and!; [done|done|apply Hlook; eauto| | |]; simpl;
          rewrite ?(decide_False (P:=j' = j)) by congruence; done. }
      case_decide as Hyi; [|by apply Hold]. subst y. simplify_eq. rewrite Hkl in Hm.
      apply lookup_app_Some in Hm as [Hm|[Hge Hm]]; [by apply Hold|].
      apply list_lookup_singleton_Some in Hm as [Hm <-]. exists j. eexists.
      split_and!; [done|done|apply Hlook; eauto| | |]; simpl;
        rewrite ?(decide_True (P:=j = j)) by done; try done. fold n in Hm, Hge. lia.
    + intros j' t' y (t0 & Hj' & ->)%Hlook _ Hpy. simpl in Hpy |- *.
      destruct (decide (j' = j)) as [->|Hne].
      * injection Hpy as <-. eexists. exists n. split_and!; [apply Hlook; eauto|done|]. simpl.
        rewrite decide_True, Hkl by done. by apply list_lookup_middle.
      * destruct (Hpa j' t0 y Hj') as (s0 & m & Hy & Hm & Hc); [congruence|done|].
        eexists. exists m. split_and!; [apply Hlook; eauto|done|]. simpl.
        case_decide as Hyi; [|done]. subst y. simplify_eq. rewrite Hkl. by apply lookup_app_l_Some.
  - intros x. unfold h'. rewrite (alters_kids _ _ _ s) by done. case_decide; [|done].
    unfold kids. by rewrite Hi.
Qed.

(** ** Cycles *)

(** The chain of parents of a segment ends at a root, [d] steps above. *)
Inductive depth h : nat → nat → Prop :=
| depth_root i s : h !! i = Some s → parent s = None → depth h i 0
| depth_child i s p d : h !! i = Some s → parent s = Some p → depth h p d → depth h i (S d).

(** [below h i a]: [a] is [i] or one of its ancestors. *)
Inductive below h : nat → nat → Prop :=
| below_refl i : below h i i
| below_step i s p a : h !! i = Some s → parent s = Some p → below h p a → below h i a.

Record forest h : Prop := {
  fo_inv : tree_inv None h;
  fo_depth : ∀ i s, h !! i = Some s → ∃ d, depth h i d;
}.

Lemma depth_det h i d d' : depth h i d → depth h i d' → d = d'.
Proof.
  intros Hd. revert d'. induction Hd as [i s Hi Hs|i s p d Hi Hs Hd IH]; inversion 1; simplify_eq; auto.
Qed.

Lemma depth_bound h i d : depth h i d → (d < size h)%nat.
Proof.
  intros Hd. enough (∃ l, length l = S d ∧ NoDup l ∧
    ∀ x, x ∈ l → is_Some (h !! x) ∧ ∃ d', depth h x d' ∧ (d' ≤ d)%nat) as (l & Hl & Hnd & Hx).
  { rewrite <-size_dom. assert (length l ≤ size (dom h))%nat; [|lia].
    rewrite <-(size_list_to_set (C:=gset nat) l) by done. apply subseteq_size.
    intros x Hin%elem_of_list_to_set. apply elem_of_dom. by apply Hx. }
  induction Hd as [i s Hi Hs|i s p d Hi Hs Hd (l & Hl & Hnd & Hx)].
  - exists [i]. split_and!; [done|apply NoDup_singleton|]. intros x ->%list_elem_of_singleton.
    split; [eauto|]. exists 0%nat. split; [by econstructor|done].
  - exists (i :: l). simpl. split_and!; [by f_equal|constructor; [|done]|].
    + intros Hin. destruct (Hx _ Hin) as (_ & d' & Hd' & ?).
      pose proof (depth_det _ _ _ _ Hd' (depth_child _ _ _ _ _ Hi Hs Hd)). lia.
    + intros x [->|Hin]%elem_of_cons.
      * split; [eauto|]. exists (S d). split; [by econstructor|done].
      * destruct (Hx _ Hin) as (? & d' & ? & ?). split; [done|]. exists d'. split; [done|lia].
Qed.

(** The cycle check decides whether the segment is an ancestor. *)
Lemma ancestor_loop_spec h a d n segment : depth h a d → (d < n)%nat →
  ∃ b : bool, ancestor_loop n h (Some a) segment = Some b ∧ (b = true ↔ below h a segment).
Proof.
  intros Hd. revert n. induction Hd as [i s Hi Hs|i s p d Hi Hs Hd IH]; intros [|n] Hn; try lia;
    cbn [ancestor_loop]; case_decide as Heq; try (subst; exists true; split; [done|]; split;
      [constructor|done]); rewrite Hi; cbn [mbind option_bind]; rewrite Hs.
  - exists false. split; [by destruct n|]. split; [done|]. inversion 1; simplify_eq.
  - destruct (IH n) as (b & -> & Hb); [lia|]. exists b. split; [done|]. rewrite Hb. split.
    + intros Hbl. by econstructor.
    + inversion 1; simplify_eq; done.
Qed.

Lemma kids_length D h i : tree_inv D h → (length (kids h i) ≤ size h)%nat.
Proof.
  intros [_ Hch _]. unfold kids. destruct (h !! i) as [s|] eqn:Hi; simpl; [|lia].
  set (l := klist (children s)).
  assert (NoDup l) as Hnd.
  { apply NoDup_alt. intros k k' c Hk Hk'. destruct (Hch i s k c Hi Hk) as (j & t & -> & _ & Hj & _ & Hix & _).
    destruct (Hch i s k' _ Hi Hk') as (j' & t' & [= <-] & _ & Hj' & _ & Hix' & _). simplify_eq. lia. }
  rewrite <-size_dom. change (size (dom h)) with (length (base.elements (dom h))). rewrite <-(length_fmap Some (base.elements (dom h))).
  apply submseteq_length, NoDup_submseteq; [done|].
  intros c Hc. apply list_elem_of_lookup in Hc as [k Hk].
  destruct (Hch i s k c Hi Hk) as (j & t & -> & _ & Hj & _). apply list_elem_of_fmap_2, elem_of_elements.
  by apply elem_of_dom.
Qed.

(** Hanging a segment elsewhere keeps every chain of parents finite, unless it
    goes below itself. *)
Lemma depth_move h h' i p :
  (∀ x, parent <$> h' !! x = if decide (x = i) then (λ _, Some p) <$> h !! x else parent <$> h !! x) →
  (∀ x s, h !! x = Some s → ∃ d, depth h x d) → is_Some (h !! p) → ¬ below h p i →
  ∀ x s, h' !! x = Some s → ∃ d, depth h' x d.
Proof.
  intros Hpar Hd [sp Hp] Hnb. assert (Hlook : ∀ x s, h !! x = Some s → ∃ s', h' !! x = Some s' ∧
    parent s' = if decide (x = i) then Some p else parent s).
  { intros x s Hx. specialize (Hpar x). rewrite Hx in Hpar. destruct (h' !! x) as [s'|]; [|by case_decide].
    exists s'. split; [done|]. case_decide; by injection Hpar. }
  assert (Hkeep : ∀ q d, depth h q d → ¬ below h q i → depth h' q d).
  { induction 1 as [q s Hq Hs|q s r d Hq Hs Hr IH]; intros Hn;
      destruct (Hlook _ _ Hq) as (s' & Hq' & Hs'); rewrite decide_False in Hs'
        by (intros ->; apply Hn; constructor); rewrite Hs in Hs'.
    - by econstructor.
    - econstructor; [done..|]. apply IH. intros Hb. apply Hn. by econstructor. }
  destruct (Hd _ _ Hp) as [dp Hdp]. pose proof (Hkeep _ _ Hdp Hnb) as Hdp'.
  intros x s' Hx'. assert (∃ s, h !! x = Some s) as [s Hx].
  { specialize (Hpar x). rewrite Hx' in Hpar. destruct (h !! x); [eauto|by case_decide]. }
  destruct (Hd _ _ Hx) as [d Hdx]. clear s Hx s' Hx'.
  induction Hdx as [x s Hx Hs|x s r d Hx Hs Hr [d' IH]];
    destruct (Hlook _ _ Hx) as (s' & Hx' & Hs'); case_decide; rewrite ?Hs in Hs';
    eexists; by econstructor.
Qed.

Lemma remove_or_detached h i s : forest h → h !! i = Some s →
  let h1 := match parent s with
            | Some q => (nr_segment_children_remove h (Some q) (Some i)).2
            | None => h
            end in
  tree_inv (Some i) h1 ∧ same_core h h1.
Proof.
  intros [Hinv _] Hi. destruct (parent s) as [q|] eqn:Hq; cbv zeta.
  - by destruct (remove_inv h q i s Hinv Hi Hq) as (h' & -> & ? & ? & _).
  - by split; [eapply tree_detach|].
Qed.

Lemma set_parent_accepts h i p s sp : forest h → h !! i = Some s → h !! p = Some sp →
  Z.of_nat (size h) < 2 ^ 59 → txn s = txn sp → parent s ≠ Some p → ¬ below h p i →
  ∃ h', nr_segment_set_parent h (Some i) (Some p) = Some (true, h') ∧ forest h' ∧
    ∀ x, core <$> h' !! x = (core ∘ (if decide (x = i) then with_parent (Some p) else id)) <$> h !! x.
Proof.
  intros Hf Hi Hp Hsize Htx Hne Hnb. pose proof Hf as [Hinv Hd]. unfold nr_segment_set_parent.
  rewrite Hi, Hp. cbn [mbind option_bind fmap option_fmap option_map].
  rewrite bool_decide_true, decide_False by done. cbn [negb].
  destruct (Hd _ _ Hp) as [d Hdp].
  destruct (ancestor_loop_spec h p d (size h) i Hdp) as (b & -> & Hb); [by eapply depth_bound|].
  destruct b; [tauto|]. cbn [mbind option_bind].
  destruct (remove_or_detached h i s Hf Hi) as [Hinv1 Hc1]. set (h1 := match parent s with Some q => (nr_segment_children_remove h (Some q) (Some i)).2 | None => h end) in *.
  destruct (core_lookup _ _ _ _ Hc1 Hi) as (s1 & Hi1 & Es1).
  destruct (core_lookup _ _ _ _ Hc1 Hp) as (sp1 & Hp1 & Esp1).
  assert (size h1 = size h) as Hsz.
  { rewrite <-!size_dom. f_equal. apply set_eq. intros x. rewrite !elem_of_dom.
    rewrite <-!(fmap_is_Some core). by rewrite Hc1. }
  destruct (add_inv h1 p i sp1 s1 Hinv1 Hp1 Hi1) as (h2 & -> & Hinv2 & Hc2 & _).
  { unfold core in *. congruence. }
  { pose proof (kids_length (Some i) h1 p Hinv1). lia. }
  cbn [mbind option_bind]. eexists. split; [done|].
  assert (∀ x, core <$> alter (with_parent (Some p)) i h2 !! x =
    (core ∘ (if decide (x = i) then with_parent (Some p) else id)) <$> h !! x) as Hcore.
  { intros x. specialize (Hc1 x). specialize (Hc2 x). rewrite Hc1 in Hc2. rewrite lookup_alter.
    destruct (decide (i = x)) as [->|]; [|by rewrite decide_False].
    rewrite decide_True by done. destruct (h2 !! x) as [x2|], (h !! x) as [x0|]; try done.
    simpl. f_equal. apply core_with_parent. exact (inj Some _ _ Hc2). }
  split; [|done]. split; [done|]. eapply (depth_move h _ i p); [|done|eauto|done].
  intros x. specialize (Hcore x). apply (f_equal (fmap (λ c, c.1.1.1.1.2))) in Hcore.
  rewrite <-!option_fmap_compose in Hcore. etransitivity; [exact Hcore|].
  by destruct (decide (x = i)), (h !! x).
Qed.

Lemma kids_spec h x : tree_inv None h → NoDup (kids h x) ∧
  ∀ c, c ∈ kids h x ↔ ∃ j, c = Some j ∧ parent <$> h !! j = Some (Some x).
Proof.
  intros [_ Hch Hpa]. unfold kids. split.
  - destruct (h !! x) as [s|] eqn:Hx; [|constructor]. apply NoDup_alt. intros k k' c Hk Hk'.
    destruct (Hch x s k c Hx Hk) as (j & t & -> & _ & Hj & _ & Hix & _).
    destruct (Hch x s k' _ Hx Hk') as (j' & t' & [= <-] & _ & Hj' & _ & Hix' & _). simplify_eq. lia.
  - intros c. split.
    + destruct (h !! x) as [s|] eqn:Hx; [|by intros ?%not_elem_of_nil].
      intros [k Hk]%list_elem_of_lookup.
      destruct (Hch x s k c Hx Hk) as (j & t & -> & _ & Hj & Hp & _). exists j. by rewrite Hj, <-Hp.
    + intros (j & -> & Hj). destruct (h !! j) as [t|] eqn:Ht; [|done]. injection Hj as Hp.
      destruct (Hpa j t x Ht) as (s & k & -> & _ & Hk); [done..|]. by eapply list_elem_of_lookup_2.
Qed.

(** ** Reparenting *)
Lemma loop_field_children h j f c : (∀ s, children (f s) = children s) →
  field children (alter f j h) c = field children h c.
Proof.
  intros Hf. unfold field. destruct c as [c|]; [|done]. simpl. rewrite lookup_alter.
  case_decide; [|done]. subst. destruct (h !! c); [|done]. simpl. by rewrite Hf.
Qed.

Lemma children_get_spec h c s (k : nat) x : h !! c = Some s → children_ok (children s) →
  klist (children s) !! k = Some x → nr_segment_children_get h (Some c) (Z.of_nat k) = x.
Proof.
  intros Hc Hok Hk. unfold nr_segment_children_get, nr_segment_children_size, field. simpl.
  rewrite Hc. cbn [fmap option_fmap option_map from_option mbind option_bind].
  rewrite children_size_spec by done. pose proof (lookup_lt_Some _ _ _ Hk).
  destruct (Z.leb_spec (Z.of_nat (length (klist (children s)))) (Z.of_nat k)); [lia|].
  by apply children_slot_spec.
Qed.

(** The effect of the loop on one segment. *)
Definition moved (l : list (option nat)) (p : nat) (base : Z) (x : nat) (s : nr_segment_t) : nr_segment_t :=
  match list_find (eq (Some x)) l with
  | Some (k, _) => with_child_ix (base + Z.of_nat k) (with_parent (Some p) s)
  | None => s
  end.

Lemma reparent_loop_spec l h c p psz s i : field children h (Some c) = Some (children s) →
  children_ok (children s) → drop i (klist (children s)) = l → NoDup l → Forall is_Some l →
  ∃ h1, reparent_loop (length l) h (Some c) p psz (Z.of_nat i) = Some h1 ∧
    ∀ x, h1 !! x = moved l p (psz + Z.of_nat i) x <$> h !! x.
Proof.
  intros Hc Hok. revert h i Hc. induction l as [|y l IH]; intros h i Hc Hl Hnd Hs.
  { exists h. split; [done|]. intros x. by destruct (h !! x). }
  apply NoDup_cons in Hnd as [Hy Hnd]. apply Forall_cons in Hs as [[j ->] Hs].
  assert (Hi : klist (children s) !! i = Some (Some j)).
  { rewrite <-(Nat.add_0_r i), <-lookup_drop, Hl. done. }
  cbn [length reparent_loop]. assert (nr_segment_children_get h (Some c) (Z.of_nat i) = Some j) as ->.
  { unfold field in Hc. simpl in Hc. destruct (h !! c) as [s'|] eqn:E; [|done]. injection Hc as Hc.
    rewrite <-Hc in *. by eapply children_get_spec. }
  cbn [mbind option_bind]. replace (Z.of_nat i + 1) with (Z.of_nat (S i)) by lia.
  destruct (IH (alter (λ s, with_child_ix (psz + Z.of_nat i) (with_parent (Some p) s)) j h) (S i))
    as (h1 & -> & Hh1); [by rewrite loop_field_children|by erewrite drop_S in Hl by done; congruence|done..|].
  exists h1. split; [done|]. intros x. rewrite Hh1, lookup_alter. unfold moved. simpl.
  destruct (decide (j = x)) as [->|Hne].
  - rewrite decide_True by done. destruct (h !! x) as [sx|]; [|done]. simpl. f_equal.
    destruct (list_find _ l) as [[k z]|] eqn:E.
    + apply list_find_Some in E as (Hk & <- & _). by apply list_elem_of_lookup_2 in Hk.
    + f_equal. lia.
  - rewrite decide_False by congruence. destruct (h !! x) as [sx|]; [|done]. simpl. f_equal.
    destruct (list_find _ l) as [[k z]|]; [|done]. simpl. f_equal. lia.
Qed.

(** Room for the children of both, and the copy at the end. *)
Lemma append_children ch ch0 req copied : children_ok ch0 →
  ch = (if 8 <? req then migrate_to_vector ch0 else ch0) →
  req = Z.of_nat (length (klist ch0) + length copied) → req < 2 ^ 58 →
  ∃ ch', (match ch with
          | Packed _ es => Some (Packed req (list_inserts (length (klist ch0)) copied es))
          | Vectored v => '(_, ov) ← nr_vector_ensure (Some v) req;
              let v := default v ov in
              Some (Vectored (Vec (capacity v) req (list_inserts (length (klist ch0)) copied (elements v)) (dtor v)))
          end) = Some ch' ∧ children_ok ch' ∧ (0 < req → klist ch' = klist ch0 ++ copied).
Proof.
  intros Hok Hch Hreq Hb.
  assert ((∃ n es, ch = Packed n es ∧ ch0 = ch ∧ req ≤ 8) ∨
          ∃ v, ch = Vectored v ∧ vec_inv v ∧ values v = klist ch0) as [(n & es & -> & -> & Hr)|(v & -> & Hv & Hvs)].
  { destruct (Z.ltb_spec 8 req).
    - destruct (migrate_spec ch0 Hok) as (v & E & ? & ?). right. exists v. by rewrite Hch.
    - rewrite Hch. destruct ch0 as [n es|v]; [left; by exists n, es|right; by exists v]. }
  - destruct Hok as [Hn Hl]. simpl in Hreq. rewrite length_take in Hreq. eexists. split; [done|].
    assert (length (klist (Packed n es)) = Z.to_nat n) as -> by (simpl; rewrite length_take; lia).
    split; [split; [lia|by rewrite length_inserts]|]. intros _. simpl.
    rewrite inserts_app by lia. rewrite app_assoc. apply take_app_length'.
    rewrite length_app, length_take. lia.
  - pose proof (vi_used _ Hv). pose proof (length_values v Hv) as Hlv. rewrite Hvs in Hlv.
    unfold nr_vector_ensure. destruct (Z.eqb_spec req 0).
    { eexists. split; [done|]. destruct copied; [|simpl in Hreq; lia]. destruct (klist ch0) eqn:E; [|simpl in Hreq; lia].
      split; [|lia]. destruct Hv. simpl. split; simpl; [lia|done|done]. }
    pose proof (ensure_spec v req Hv ltac:(lia)) as He.
    destruct (nr_vector_ensure_impl v req) as [[[] v']|] eqn:E; cbn [mbind option_bind default from_option id].
    + destruct He as (Hv' & Hvs' & Hu & _ & _ & Hc). eexists. split; [done|].
      pose proof (vi_length _ Hv') as Hl'. split; [split; simpl; [lia|by rewrite length_inserts|by destruct Hv']|].
      intros _. simpl. unfold values. simpl. rewrite inserts_app by lia. rewrite app_assoc.
      replace (take (length (klist ch0)) (elements v')) with (klist ch0).
      * apply take_app_length'. rewrite length_app. lia.
      * rewrite <-Hvs, <-Hvs'. unfold values. f_equal. rewrite length_take. lia.
    + destruct He as (-> & ? & c' & ? & Hc' & Hn). rewrite nr_reallocarray_total in Hn by (done || lia). done.
    + lia.
Qed.

Lemma moved_in l p b x s k : NoDup l → l !! k = Some (Some x) →
  moved l p b x s = with_child_ix (b + Z.of_nat k) (with_parent (Some p) s).
Proof.
  intros Hnd Hk. unfold moved. destruct (list_find _ l) as [[k' y]|] eqn:E.
  - apply list_find_Some in E as (Hk' & <- & _). by rewrite (NoDup_lookup _ _ _ _ Hnd Hk Hk').
  - apply list_find_None in E. rewrite Forall_lookup in E. by destruct (E _ _ Hk).
Qed.

Lemma moved_out l p b x s : Some x ∉ l → moved l p b x s = s.
Proof.
  intros Hx. unfold moved. destruct (list_find _ l) as [[k' y]|] eqn:E; [|done].
  apply list_find_Some in E as (Hk' & <- & _). by apply list_elem_of_lookup_2 in Hk'.
Qed.

Lemma with_children_same s s' : children s' = children s → with_children (children s) s' = s'.
Proof. intros <-. by destruct s'. Qed.

(** The heap after the children of [c] went to [p], whose children are [ch]. *)
Definition reparented (l : list (option nat)) (c p : nat) (b : Z) (ch : nr_segment_children_t)
    (x : nat) (s : nr_segment_t) : nr_segment_t :=
  with_children (if decide (x = c) then empty_children else if decide (x = p) then ch else children s)
    (moved l p b x s).

Lemma reparent_heap h c p sc sp : h !! c = Some sc → h !! p = Some sp → c ≠ p →
  children_ok (children sc) → children_ok (children sp) → NoDup (klist (children sc)) →
  Forall is_Some (klist (children sc)) → klist (children sc) ≠ [] →
  Z.of_nat (length (klist (children sp)) + length (klist (children sc))) < 2 ^ 58 →
  ∃ ch h', nr_segment_children_reparent h (Some c) (Some p) = Some (true, h') ∧
    children_ok ch ∧ klist ch = klist (children sp) ++ klist (children sc) ∧
    ∀ x, h' !! x = reparented (klist (children sc)) c p (Z.of_nat (length (klist (children sp)))) ch x <$> h !! x.
Proof.
  intros Hc Hp Hne Hokc Hokp Hnd Hsome Hl Hb. set (l := klist (children sc)) in *.
  unfold nr_segment_children_reparent, nr_segment_children_size.
  assert (field children h (Some c) = Some (children sc)) as Efc by (unfold field; simpl; by rewrite Hc).
  assert (field children h (Some p) = Some (children sp)) as Efp by (unfold field; simpl; by rewrite Hp).
  rewrite Efc, Efp. cbn [from_option]. rewrite !children_size_spec by done. fold l.
  destruct (Z.eqb_spec (Z.of_nat (length l)) 0); [destruct l; [done|simpl in *; lia]|].
  destruct (reparent_loop_spec l h c p (Z.of_nat (length (klist (children sp)))) sc 0)
    as (h1 & E1 & Hh1); [done..|]. rewrite (Nat2Z.id (length l)). change (Z.of_nat 0) with 0 in *. rewrite E1.
  rewrite Z.add_0_r in Hh1. cbn [mbind option_bind].
  set (psz := length (klist (children sp))) in *. set (req := Z.of_nat (length l) + Z.of_nat psz).
  unfold NR_SEGMENT_CHILDREN_PACKED_LIMIT.
  set (h2 := if 8 <? req then nr_segment_children_migrate_to_vector h1 p else h1).
  set (ch0 := if 8 <? req then migrate_to_vector (children sp) else children sp).
  assert (Hmc : ∀ b x s, children (moved l p b x s) = children s)
    by (intros; unfold moved; by destruct (list_find _ l) as [[]|]).
  assert (Hh2 : ∀ x, h2 !! x = (λ s, with_children (if decide (x = p) then ch0 else children s)
    (moved l p (Z.of_nat psz) x s)) <$> h !! x).
  { intros x. unfold h2, ch0, nr_segment_children_migrate_to_vector.
    destruct (decide (x = p)) as [->|].
    - destruct (8 <? req); rewrite ?lookup_alter_eq, Hh1, Hp; simpl; f_equal;
        rewrite ?with_children_same by apply Hmc; by rewrite ?Hmc.
    - assert (h1 !! x = (λ s, with_children (children s) (moved l p (Z.of_nat psz) x s)) <$> h !! x) as <-.
      { rewrite Hh1. destruct (h !! x); [|done]. simpl. by rewrite with_children_same by apply Hmc. }
      destruct (8 <? req); [by rewrite lookup_alter_ne|done]. }
  assert (children_elements <$> field children h2 (Some c) = Some (children_elements (children sc))) as ->.
  { unfold field. simpl. rewrite Hh2, Hc. simpl. by rewrite decide_False. }
  cbn [mbind option_bind].
  assert (take (length l) (children_elements (children sc)) = l) as ->.
  { unfold l. destruct (children sc) as [n0 es|v]; simpl.
    - destruct Hokc. rewrite length_take. f_equal. lia.
    - unfold values. rewrite length_take. destruct Hokc. f_equal. lia. }
  assert (children <$> h2 !! p = Some ch0) as -> by (rewrite Hh2, Hp; simpl; by rewrite decide_True).
  cbn [mbind option_bind].
  destruct (append_children ch0 (children sp) req l Hokp) as (ch & Ech & Hokch & Hkl); [done|lia|lia|].
  exists ch, (set_children (set_children h2 p ch) c empty_children).
  split_and!; [|done|apply Hkl; lia|].
  - rewrite Nat2Z.id. destruct ch0 as [n1 es|v]; [by injection Ech as <-|].
    destruct (nr_vector_ensure (Some v) req) as [[? ov]|]; [|done]. by injection Ech as <-.
  - intros x. unfold set_children, reparented. destruct (decide (x = c)) as [->|Hxc].
    { rewrite lookup_alter_eq, lookup_alter_ne, Hh2 by done. by destruct (h !! c). }
    rewrite lookup_alter_ne by done. destruct (decide (x = p)) as [->|Hxp].
    { rewrite lookup_alter_eq, Hh2. destruct (h !! p); [|done]. simpl. by rewrite (decide_True (P:=p = p)). }
    rewrite lookup_alter_ne, Hh2 by done. destruct (h !! x); [|done]. simpl. by rewrite decide_False.
Qed.

(** Reparenting keeps the tree. *)
Lemma reparent_inv D h c p sc sp : tree_inv D h → h !! c = Some sc → h !! p = Some sp → c ≠ p →
  txn sc = txn sp → Z.of_nat (size h) < 2 ^ 57 →
  ∃ h', nr_segment_children_reparent h (Some c) (Some p) = Some (true, h') ∧ tree_inv D h' ∧
    (∀ x, kids h' x = if decide (x = c) then [] else if decide (x = p) then kids h p ++ kids h c
                      else kids h x) ∧
    (∀ x, parent <$> h' !! x = if decide (Some x ∈ kids h c) then Some (Some p) else parent <$> h !! x).
Proof.
  intros Hinv Hc Hp Hne Htx Hsize. pose proof Hinv as [Hok Hch Hpa].
  pose proof (kids_length D h c Hinv) as Hlc. pose proof (kids_length D h p Hinv) as Hlp.
  assert (kids h c = klist (children sc)) as Ec by (unfold kids; by rewrite Hc).
  assert (kids h p = klist (children sp)) as Ep by (unfold kids; by rewrite Hp).
  rewrite Ec in *. rewrite Ep in *. set (l := klist (children sc)) in *.
  assert (Hlk : ∀ k x, l !! k = Some x → ∃ j t, x = Some j ∧ x ≠ D ∧ h !! j = Some t ∧
    parent t = Some c ∧ child_ix t = Z.of_nat k ∧ txn t = txn sc) by (intros; by eapply Hch).
  destruct (decide (l = [])) as [Hl|Hl].
  { exists h. unfold nr_segment_children_reparent, nr_segment_children_size, field. simpl.
    rewrite Hc. cbn [fmap option_fmap option_map from_option]. rewrite children_size_spec by eauto.
    fold l. rewrite Hl, app_nil_r. split_and!; [done|done| |].
    - intros x. repeat case_decide; subst; unfold kids; rewrite ?Hc, ?Hp; done.
    - intros x. rewrite decide_False; [done|]. apply not_elem_of_nil. }
  assert (NoDup l) as Hnd.
  { apply NoDup_alt. intros k k' x Hk Hk'. destruct (Hlk _ _ Hk) as (j & t & -> & _ & Hj & _ & Hix & _).
    destruct (Hlk _ _ Hk') as (j' & t' & [= <-] & _ & Hj' & _ & Hix' & _). simplify_eq. lia. }
  assert (Hin : ∀ j t, Some j ∈ l → h !! j = Some t → parent t = Some c).
  { intros j t [k Hk]%list_elem_of_lookup Ht. destruct (Hlk _ _ Hk) as (? & ? & [= <-] & _ & ? & ? & _). congruence. }
  destruct (reparent_heap h c p sc sp Hc Hp Hne (Hok _ _ Hc) (Hok _ _ Hp) Hnd) as (ch & h' & -> & Hokch & Hkl & Hh').
  { apply Forall_lookup. intros k x Hk. by destruct (Hlk _ _ Hk) as (? & ? & -> & _). } { done. } { fold l. lia. }
  fold l in Hkl, Hh'. set (n := length (klist (children sp))) in *. exists h'. split; [done|].
  assert (Hmc : ∀ b x s, children (moved l p b x s) = children s)
    by (intros; unfold moved; by destruct (list_find _ l) as [[]|]).
  assert (Hkid : ∀ x, kids h' x = if decide (x = c) then [] else if decide (x = p)
    then klist (children sp) ++ l else kids h x).
  { intros x. unfold kids. rewrite Hh'. destruct (h !! x) as [sx|] eqn:Hx; simpl; unfold reparented;
      repeat case_decide; simplify_eq; done. }
  split_and!; [|done|].
  - split.
    + intros y sy Hy. rewrite Hh' in Hy. destruct (h !! y) as [s0|] eqn:Hy0; [|done]. injection Hy as <-.
      simpl. repeat case_decide; [apply empty_children_spec|done|by eapply Hok].
    + intros y sy k x Hy Hk. rewrite Hh' in Hy. destruct (h !! y) as [s0|] eqn:Hy0; [|done]. injection Hy as <-.
      assert (Hold : y ≠ c → klist (children s0) !! k = Some x → ∃ j t, x = Some j ∧ x ≠ D ∧ h' !! j = Some t ∧
        parent t = Some y ∧ child_ix t = Z.of_nat k ∧ txn t = txn s0).
      { intros Hyc Hx. destruct (Hch y s0 k x Hy0 Hx) as (j & t & -> & Hd & Hj & Hjp & Hix & Hjt).
        exists j. eexists. rewrite Hh', Hj. split_and!; [done|done|done|..]; unfold reparented;
          rewrite moved_out by (intros Hjl; pose proof (Hin _ _ Hjl Hj); congruence); done. }
      simpl in Hk. assert (txn (reparented l c p (Z.of_nat n) ch y s0) = txn s0) as ->.
      { unfold reparented, moved. by destruct (list_find _ l) as [[]|]. }
      destruct (decide (y = c)) as [->|Hyc]; [done|].
      destruct (decide (y = p)) as [->|Hyp]; [|by apply Hold]. simplify_eq. rewrite Hkl in Hk.
      apply lookup_app_Some in Hk as [Hk|[Hge Hk]]; [by apply Hold|]. fold n in Hge, Hk.
      destruct (Hlk _ _ Hk) as (j & t & -> & Hd & Hj & Hjp & Hix & Hjt).
      exists j. eexists. rewrite Hh', Hj. split_and!; [done|done|done|..]; unfold reparented;
        rewrite (moved_in _ _ _ _ _ _ Hnd Hk); simpl; [done|lia|congruence].
    + intros j t y Hj Hd Hy. rewrite Hh' in Hj. destruct (h !! j) as [t0|] eqn:Hj0; [|done]. injection Hj as <-.
      assert (Hlook : ∀ y k s0, h !! y = Some s0 → y ≠ c → klist (if decide (y = p) then ch else children s0) !! k = Some (Some j) →
        ∃ s, h' !! y = Some s ∧ klist (children s) !! k = Some (Some j)).
      { intros y' k s0 Hy' Hyc Hk. rewrite Hh', Hy'. eexists. split; [done|]. simpl. by rewrite decide_False. }
      unfold reparented in *. cbn [with_children parent child_ix] in Hy |- *.
      destruct (decide (Some j ∈ l)) as [Hjl|Hjl].
      * apply list_elem_of_lookup in Hjl as [k Hk]. rewrite (moved_in _ _ _ _ _ _ Hnd Hk) in Hy |- *.
        injection Hy as <-. destruct (Hlook p (n + k)%nat sp Hp) as (s & Hs & Hks); [done| |].
        { rewrite decide_True, Hkl by done. rewrite lookup_app_r by (unfold n; lia).
          by replace (n + k - length (klist (children sp)))%nat with k by (unfold n; lia). }
        exists s, (n + k)%nat. split_and!; [done|simpl; lia|done].
      * rewrite moved_out in Hy |- * by done. destruct (Hpa j t0 y Hj0 Hd Hy) as (s0 & k & Hy0 & Hix & Hk).
        assert (y ≠ c) as Hyc by (intros ->; apply Hjl, list_elem_of_lookup; simplify_eq; eauto).
        destruct (Hlook y k s0 Hy0 Hyc) as (s & Hs & Hks).
        { case_decide; [|done]. subst y. simplify_eq. rewrite Hkl. by apply lookup_app_l_Some. }
        by exists s, k.
  - intros x. rewrite Hh'. destruct (h !! x) as [sx|] eqn:Hx.
    + simpl. case_decide as Hxl.
      * apply list_elem_of_lookup in Hxl as [k Hk]. by rewrite (moved_in _ _ _ _ _ _ Hnd Hk).
      * by rewrite moved_out.
    + case_decide as Hxl; [|done]. apply list_elem_of_lookup in Hxl as [k Hk].
      destruct (Hlk _ _ Hk) as (? & ? & [= <-] & _ & ? & _). congruence.
Qed.
End segment_proofs.

(** ** Traversal *)

(** The order of a traversal: the segments in which it was inside when it
    entered another. *)
Inductive visit := Visit (i : nat) (inner : list visit).

Fixpoint preorder (t : visit) : list nat := let '(Visit i l) := t in i :: flat_map preorder l.

Abbreviation preorders f := (flat_map preorder f).

(** What the callbacks make of such an order. *)
Fixpoint run_visit {S} (callback : nat → S → S * option (nat → S → S)) (t : visit) (s : S) : S :=
  let '(Visit i l) := t in
  let '(s, post) := callback i s in
  let s := foldl (λ s t, run_visit callback t s) s l in
  match post with Some post => post i s | None => s end.

(** The segment a visit enters. *)
Definition entered (t : visit) : nat := let '(Visit i _) := t in i.

(** Depth-first order, told without painting.  [walk col h seen roots f]: who
    goes to [roots] one after the other, having been to [seen], makes the
    visits [f].  A root that is [NULL], of another colour or already seen is
    passed over; another is entered, then its children are gone to, in their
    order, and then the roots that remain. *)
Inductive walk (col : nr_segment_color_t) h : list nat → list (option nat) → list visit → Prop :=
| walk_nil seen : walk col h seen [] []
| walk_skip seen r roots f :
    (∀ i s, r = Some i → h !! i = Some s → color s = col → i ∈ seen) →
    walk col h seen roots f → walk col h seen (r :: roots) f
| walk_enter seen i s inner roots f :
    h !! i = Some s → color s = col → i ∉ seen →
    walk col h (seen ++ [i]) (kids h i) inner →
    walk col h (seen ++ preorder (Visit i inner)) roots f →
    walk col h seen (Some i :: roots) (Visit i inner :: f).

(** The visits have the shape of the tree: inside a segment all its children
    are visited, in their order. *)
Inductive mirrors h : visit → Prop :=
| Mirrors i inner : kids h i = Some ∘ entered <$> inner → Forall (mirrors h) inner →
    mirrors h (Visit i inner).

(** Reachable through children of one colour. *)
Inductive reach (col : nr_segment_color_t) h : nat → nat → Prop :=
| reach_refl i s : h !! i = Some s → color s = col → reach col h i i
| reach_step i s j k : h !! i = Some s → color s = col → Some j ∈ kids h i →
    reach col h j k → reach col h i k.

Lemma walk_app col h seen l1 f1 l2 f2 : walk col h seen l1 f1 →
  walk col h (seen ++ preorders f1) l2 f2 → walk col h seen (l1 ++ l2) (f1 ++ f2).
Proof.
  induction 1 as [seen|seen r l f Hr _ IH|seen i s inner l f Hi Hs Hn Hin _ _ IH];
    cbn [flat_map app]; intros H2; [by rewrite app_nil_r in H2| |].
  - apply walk_skip; auto.
  - eapply walk_enter; [done..|]. apply IH. by rewrite <-app_assoc.
Qed.

(** ** The walk of a forest *)

Lemma below_trans h x y z : below h x y → below h y z → below h x z.
Proof. induction 1; [done|]. intros. by econstructor; eauto. Qed.

(** Of two ancestors of a segment one is above the other. *)
Lemma below_chain h x a b : below h x a → below h x b → below h a b ∨ below h b a.
Proof.
  induction 1 as [x|x s p a Hx Hp Ha IH]; [auto|]. inversion 1; simplify_eq; [|auto].
  right. by econstructor.
Qed.

Lemma below_depth h x a d : below h x a → depth h x d → ∃ e, depth h a e ∧ (e ≤ d)%nat.
Proof.
  intros Hb. revert d. induction Hb as [x|x s p a Hx Hp Ha IH]; intros d Hd; [by exists d|].
  inversion Hd; simplify_eq. edestruct IH as (e & ? & ?); [done|]. exists e. split; [done|lia].
Qed.

(** A segment is not below its own child. *)
Lemma not_below_child h i j s : forest h → h !! j = Some s → parent s = Some i → ¬ below h i j.
Proof.
  intros Hf Hj Hp Hb. destruct (fo_depth h Hf j s Hj) as [d Hd]. inversion Hd; simplify_eq.
  edestruct (below_depth h i j) as (e & He & ?); [done..|].
  pose proof (depth_det _ _ _ _ Hd He). lia.
Qed.

Lemma siblings_apart h i j k s t x : forest h → h !! j = Some s → parent s = Some i →
  h !! k = Some t → parent t = Some i → below h x j → below h x k → j = k.
Proof.
  intros Hf Hj Hpj Hk Hpk Hxj Hxk.
  destruct (below_chain _ _ _ _ Hxj Hxk) as [Hb|Hb]; inversion Hb; simplify_eq; try done.
  - by destruct (not_below_child h i k t).
  - by destruct (not_below_child h i j s).
Qed.

(** Whoever walks a forest of one colour makes the visits of its shape, as long
    as no root is below another and nothing below a root has been seen. *)
Lemma walk_mirrors col h seen roots f : forest h → (∀ x s, h !! x = Some s → color s = col) →
  walk col h seen roots f →
  (∀ r, r ∈ roots → ∃ j, r = Some j ∧ is_Some (h !! j)) →
  (∀ k k' j j' x, roots !! k = Some (Some j) → roots !! k' = Some (Some j') →
    below h x j → below h x j' → k = k') →
  (∀ x j, Some j ∈ roots → below h x j → x ∉ seen) →
  roots = Some ∘ entered <$> f ∧ Forall (mirrors h) f ∧
  ∀ x, x ∈ preorders f → ∃ j, Some j ∈ roots ∧ below h x j.
Proof.
  intros Hf Hcol.
  induction 1 as [seen|seen r l f Hr _ IH|seen i s inner l f Hi Hs Hn _ IH1 _ IH2]; intros Hroots Hapart Hseen.
  - split_and!; [done|constructor|]. by intros x ?%not_elem_of_nil.
  - destruct (Hroots r) as (j & -> & [s Hj]); [by left|].
    destruct (Hseen j j); [by left|constructor|]. by eapply Hr, Hcol.
  - destruct (kids_spec h i) as [Hnd Hkids]; [apply Hf|].
    assert (Hkid : ∀ j, Some j ∈ kids h i → ∃ t, h !! j = Some t ∧ parent t = Some i).
    { intros j (? & [= <-] & Hj)%Hkids. destruct (h !! j) as [t|]; [|done]. injection Hj as Hj. eauto. }
    destruct IH1 as (Ek & Hm & Hin).
    { intros r Hr. pose proof Hr as (j & -> & _)%Hkids. destruct (Hkid j Hr) as (t & Ht & _). eauto. }
    { intros k k' j j' x Hk Hk' Hx Hx'. destruct (Hkid j) as (t & Ht & Hp); [by eapply list_elem_of_lookup_2|].
      destruct (Hkid j') as (t' & Ht' & Hp'); [by eapply list_elem_of_lookup_2|].
      pose proof (siblings_apart h i j j' t t' x Hf Ht Hp Ht' Hp' Hx Hx') as ->. by eapply NoDup_lookup. }
    { intros x j Hj Hx. destruct (Hkid j Hj) as (t & Ht & Hp). rewrite not_elem_of_app, list_elem_of_singleton. split.
      - apply (Hseen x i); [by left|]. eapply below_trans; [done|]. econstructor; [done..|constructor].
      - intros ->. by eapply not_below_child. }
    assert (Hbelow : ∀ x, x ∈ preorder (Visit i inner) → below h x i).
    { intros x [->|Hx]%elem_of_cons; [constructor|]. destruct (Hin x Hx) as (j & Hj & Hb).
      destruct (Hkid j Hj) as (t & Ht & Hp). eapply below_trans; [done|]. econstructor; [done..|constructor]. }
    destruct IH2 as (El & Hml & Hinl).
    { intros r Hr. apply Hroots. by right. }
    { intros k k' j j' x Hk Hk' Hx Hx'. by apply Nat.succ_inj, (Hapart (S k) (S k') j j' x). }
    { intros x j Hj Hx. rewrite not_elem_of_app. split; [apply (Hseen x j); [by right|done]|].
      intros Hxi%Hbelow. apply list_elem_of_lookup in Hj as [k Hk].
      by discriminate (Hapart 0%nat (S k) i j x eq_refl Hk Hxi Hx). }
    split_and!; [by rewrite El at 1|by repeat constructor|].
    intros x. cbn [flat_map]. intros [Hx|Hx]%elem_of_app.
    + exists i. split; [by left|auto].
    + destruct (Hinl x Hx) as (j & ? & ?). exists j. split; [by right|done].
Qed.

Lemma walk_root_mirrors col h i s f : forest h → (∀ x s, h !! x = Some s → color s = col) →
  h !! i = Some s → walk col h [] [Some i] [f] → mirrors h f.
Proof.
  intros Hf Hcol Hi Hw. destruct (walk_mirrors _ _ _ _ _ Hf Hcol Hw) as (_ & Hm & _).
  - intros r ->%list_elem_of_singleton. eauto.
  - intros [|k] [|k'] ? ? ? ? ?; by simplify_eq/=.
  - by intros x j _ _ ?%not_elem_of_nil.
  - by apply Forall_inv in Hm.
Qed.

Section traversal.
Context `{Allocator (option nat)} `{QsortR}.
Context (reset set : nr_segment_color_t) (Hcol : set ≠ reset).
Implicit Types (h : heap) (f : list visit).

(** [h] is [h0] with the segments [seen] painted. *)
Definition painted h0 (seen : list nat) h : Prop :=
  ∀ x, h !! x = (λ s, if decide (x ∈ seen) then with_color set s else s) <$> h0 !! x.

Lemma painted_app h0 seen h l h' : painted h0 seen h → painted h l h' → painted h0 (seen ++ l) h'.
Proof.
  intros H1 H2 x. rewrite H2, H1. destruct (h0 !! x) as [s|]; [|done]. cbn [fmap option_fmap option_map].
  destruct (decide (x ∈ seen)), (decide (x ∈ l));
    (destruct (decide (x ∈ seen ++ l)) as [E|E]; rewrite elem_of_app in E; try done; tauto).
Qed.

Lemma painted_fresh h0 seen h x s : painted h0 seen h → h !! x = Some s → color s = reset →
  (x ∉ seen) ∧ h0 !! x = Some s.
Proof.
  intros Hp Hx Hs. rewrite Hp in Hx. destruct (h0 !! x) as [s'|]; [|done]. injection Hx as <-. by case_decide.
Qed.

Lemma painted_kids h0 seen h x : painted h0 seen h → kids h x = kids h0 x.
Proof. intros Hp. unfold kids. rewrite Hp. destruct (h0 !! x); [|done]. simpl. by case_decide. Qed.

Lemma paint_one h i s : h !! i = Some s → painted h [i] (alter (with_color set) i h).
Proof.
  intros Hi x. rewrite lookup_alter. destruct (decide (i = x)) as [<-|Hne].
  - rewrite Hi. cbn [fmap option_fmap option_map]. by rewrite decide_True by left.
  - destruct (h !! x) as [sx|]; [|done]. cbn [fmap option_fmap option_map].
    rewrite decide_False; [done|]. by intros ->%list_elem_of_singleton.
Qed.

(** What a traversal from some roots does: it enters segments of the old
    colour, each once, and paints them; it leaves no child of theirs behind. *)
Record explored h (roots : list (option nat)) f h' : Prop := {
  ex_nodup : NoDup (preorders f);
  ex_heap : painted h (preorders f) h';
  ex_reset : ∀ x, x ∈ preorders f → ∃ s, h !! x = Some s ∧ color s = reset;
  ex_closed : ∀ x c, x ∈ preorders f → Some c ∈ kids h x → ∃ s, h' !! c = Some s ∧ color s ≠ reset;
  ex_roots : ∀ r, Some r ∈ roots → ∃ s, h' !! r = Some s ∧ color s ≠ reset;
  ex_reach : ∀ x, x ∈ preorders f → ∃ r, Some r ∈ roots ∧ reach reset h r x;
  ex_walk : ∀ h0 seen, painted h0 seen h → walk reset h0 seen roots f;
}.

Lemma explored_mono h l f h' x s : explored h l f h' → h !! x = Some s → color s ≠ reset →
  ∃ s', h' !! x = Some s' ∧ color s' ≠ reset.
Proof.
  intros He Hx Hs. rewrite (ex_heap _ _ _ _ He), Hx. eexists. split; [done|].
  by case_decide.
Qed.

Lemma recolor_kids h h' x (g : nat → nr_segment_t → bool) :
  (∀ x, h' !! x = (λ s, if g x s then with_color set s else s) <$> h !! x) → kids h' x = kids h x.
Proof. intros Hh. unfold kids. rewrite Hh. destruct (h !! x); [|done]. simpl. by case_match. Qed.

Lemma explored_kids h l f h' x : explored h l f h' → kids h' x = kids h x.
Proof.
  intros He. apply (recolor_kids h h' x (λ x _, bool_decide (x ∈ preorders f))).
  intros y. rewrite (ex_heap _ _ _ _ He). destruct (h !! y); [|done]. simpl.
  by destruct (decide _); [rewrite bool_decide_true|rewrite bool_decide_false].
Qed.

Lemma reach_mono h h' r x : (∀ x, kids h' x = kids h x) →
  (∀ x s, h' !! x = Some s → color s = reset → ∃ s', h !! x = Some s' ∧ color s' = reset) →
  reach reset h' r x → reach reset h r x.
Proof.
  intros Hk Hc. induction 1 as [i s Hi Hs|i s j k Hi Hs Hj _ IH];
    destruct (Hc i s Hi Hs) as (s' & ? & ?); [by econstructor|].
  rewrite Hk in Hj. by econstructor.
Qed.

Lemma explored_back h l f h' x s : explored h l f h' → h' !! x = Some s → color s = reset →
  (x ∉ preorders f) ∧ h !! x = Some s.
Proof.
  intros He Hx Hs. rewrite (ex_heap _ _ _ _ He) in Hx. destruct (h !! x) as [s'|]; [|done].
  injection Hx as <-. by case_decide.
Qed.

Lemma explored_skip h r : (∀ i, r = Some i → ∃ s, h !! i = Some s ∧ color s ≠ reset) →
  explored h [r] [] h.
Proof.
  intros Hr. split; simpl; [constructor| | | | | |];
    try by (intros; match goal with Hx : _ ∈ [] |- _ => apply not_elem_of_nil in Hx end).
  - intros x. by destruct (h !! x).
  - intros i Hi%list_elem_of_singleton. by apply Hr.
  - intros h0 seen Hp. apply walk_skip; [|constructor]. intros i s -> Hi Hs.
    destruct (decide (i ∈ seen)) as [|Hn]; [done|]. destruct (Hr i eq_refl) as (s' & Hi' & Hs').
    rewrite Hp, Hi in Hi'. cbn [fmap option_fmap option_map] in Hi'. rewrite decide_False in Hi' by done. congruence.
Qed.

Lemma explored_app h l1 f1 h1 l2 f2 h2 :
  explored h l1 f1 h1 → explored h1 l2 f2 h2 → explored h (l1 ++ l2) (f1 ++ f2) h2.
Proof.
  intros H1 H2. pose proof (λ x, explored_kids _ _ _ _ x H1) as Hk.
  assert (Hdisj : ∀ x, x ∈ preorders f2 → (x ∉ preorders f1) ∧ ∃ s, h !! x = Some s ∧ color s = reset).
  { intros x Hx. destruct (ex_reset _ _ _ _ H2 x Hx) as (s & Hs & Hc).
    destruct (explored_back _ _ _ _ _ _ H1 Hs Hc). eauto. }
  split; rewrite ?flat_map_app.
  - apply NoDup_app. split_and!; [apply H1| |apply H2]. intros x Hx Hx2. by apply Hdisj in Hx2 as [? _].
  - intros x. rewrite (ex_heap _ _ _ _ H2), (ex_heap _ _ _ _ H1). destruct (h !! x) as [s|]; [|done].
    simpl. destruct (decide (x ∈ preorders f1)), (decide (x ∈ preorders f2));
      (destruct (decide (x ∈ preorders f1 ++ preorders f2)) as [E|E]; rewrite elem_of_app in E; try done; tauto).
  - intros x [Hx|Hx]%elem_of_app; [by eapply ex_reset|by apply Hdisj].
  - intros x c [Hx|Hx]%elem_of_app Hc.
    + destruct (ex_closed _ _ _ _ H1 x c Hx Hc) as (s & ? & ?). by eapply explored_mono.
    + rewrite <-Hk in Hc. by eapply ex_closed.
  - intros r [Hr|Hr]%elem_of_app; [|by eapply ex_roots].
    destruct (ex_roots _ _ _ _ H1 r Hr) as (s & ? & ?). by eapply explored_mono.
  - intros x [Hx|Hx]%elem_of_app.
    + destruct (ex_reach _ _ _ _ H1 x Hx) as (r & ? & ?). exists r. rewrite elem_of_app. auto.
    + destruct (ex_reach _ _ _ _ H2 x Hx) as (r & ? & Hr). exists r. rewrite elem_of_app. split; [auto|].
      eapply reach_mono; [exact Hk| |exact Hr]. intros y s Hy Hs.
      destruct (explored_back _ _ _ _ _ _ H1 Hy Hs). eauto.
  - intros h0 seen Hp. apply walk_app; [by apply (ex_walk _ _ _ _ H1)|].
    apply (ex_walk _ _ _ _ H2). eapply painted_app; [done|apply H1].
Qed.

Lemma explored_node h i s f h' : h !! i = Some s → color s = reset →
  explored (alter (with_color set) i h) (kids h i) f h' → explored h [Some i] [Visit i f] h'.
Proof.
  intros Hi Hs He. set (h1 := alter (with_color set) i h) in *.
  assert (Hh1 : ∀ x, h1 !! x = (λ s, if bool_decide (x = i) then with_color set s else s) <$> h !! x).
  { intros x. unfold h1. rewrite lookup_alter. destruct (decide (i = x)) as [->|].
    - by rewrite bool_decide_true.
    - rewrite bool_decide_false by done. by destruct (h !! x). }
  pose proof (λ x, recolor_kids h h1 x (λ x _, bool_decide (x = i)) Hh1) as Hk.
  assert (Hback : ∀ x sx, h1 !! x = Some sx → color sx = reset → x ≠ i ∧ h !! x = Some sx).
  { intros x sx Hx Hc. rewrite Hh1 in Hx. destruct (h !! x); [|done]. injection Hx as <-.
    by case_bool_decide. }
  assert (Hnot : i ∉ preorders f).
  { intros Hin. destruct (ex_reset _ _ _ _ He i Hin) as (sx & Hx & Hc). by destruct (Hback _ _ Hx Hc). }
  assert (Hroot : ∃ s, h' !! i = Some s ∧ color s ≠ reset).
  { eapply explored_mono; [exact He| |]; [rewrite Hh1, Hi; simpl; by rewrite bool_decide_true|done]. }
  split; simpl; rewrite ?app_nil_r.
  - constructor; [done|apply He].
  - intros x. rewrite (ex_heap _ _ _ _ He), Hh1. destruct (h !! x) as [sx|]; [|done]. simpl.
    case_bool_decide as Hxi; [subst x; rewrite decide_False by done; by rewrite decide_True by left|].
    destruct (decide (x ∈ preorders f)); [by rewrite decide_True by (by right)|].
    rewrite decide_False; [done|]. by intros [?|?]%elem_of_cons.
  - intros x [->|Hx]%elem_of_cons; [eauto|]. destruct (ex_reset _ _ _ _ He x Hx) as (sx & Hsx & Hc).
    destruct (Hback _ _ Hsx Hc). eauto.
  - intros x c [->|Hx]%elem_of_cons Hc; [by eapply ex_roots|]. rewrite <-Hk in Hc. by eapply ex_closed.
  - intros r [= ->]%list_elem_of_singleton. done.
  - intros x [->|Hx]%elem_of_cons.
    + exists i. split; [by left|]. by econstructor.
    + exists i. split; [by left|]. destruct (ex_reach _ _ _ _ He x Hx) as (r & Hr & Hrx).
      eapply reach_step; [done..|]. eapply reach_mono; [exact Hk| |exact Hrx].
      intros y sy Hy Hsy. destruct (Hback _ _ Hy Hsy). eauto.
  - intros h0 seen Hp. destruct (painted_fresh _ _ _ _ _ Hp Hi Hs). eapply walk_enter; [done..| |constructor].
    rewrite <-(painted_kids _ _ _ _ Hp). apply (ex_walk _ _ _ _ He).
    eapply painted_app; [done|by eapply paint_one].
Qed.

(** From a segment of the old colour, exactly what it reaches is visited. *)
Lemma explored_reach h i f h' : explored h [Some i] [Visit i f] h' →
  ∀ x, x ∈ preorder (Visit i f) ↔ reach reset h i x.
Proof.
  intros He x. assert (Hpre : preorder (Visit i f) = preorders [Visit i f]) by (simpl; by rewrite app_nil_r).
  rewrite Hpre. split.
  - intros Hx. by destruct (ex_reach _ _ _ _ He x Hx) as (r & [= ->]%list_elem_of_singleton & ?).
  - assert (i ∈ preorders [Visit i f]) as Hin by (left). revert Hin.
    generalize i at 1 3. intros r Hin. induction 1 as [r s Hr Hs|r s j k Hr Hs Hj Hjk IH]; [done|].
    apply IH. destruct (ex_closed _ _ _ _ He r j Hin Hj) as (sj & Hsj & Hc).
    rewrite (ex_heap _ _ _ _ He) in Hsj. destruct (h !! j) as [s0|] eqn:Hj0; [|done].
    injection Hsj as <-. case_decide; [done|]. destruct Hc.
    inversion Hjk; simplify_eq; done.
Qed.

(** ** The traversal ends *)

(** Children are good structures and point to segments. *)
Definition closed h : Prop := ∀ i s, h !! i = Some s →
  children_ok (children s) ∧ ∀ j, Some j ∈ klist (children s) → is_Some (h !! j).

(** The segments still to be painted. *)
Definition remaining h : gset nat := filter (λ x, color <$> h !! x = Some reset) (dom h).

Lemma explored_lookup h l f h' x s' : explored h l f h' → h' !! x = Some s' →
  ∃ s, h !! x = Some s ∧ children s' = children s ∧ (color s' = reset → color s = reset).
Proof.
  intros He Hx. rewrite (ex_heap _ _ _ _ He) in Hx. destruct (h !! x) as [s|]; [|done].
  injection Hx as <-. exists s. by case_decide.
Qed.

Lemma explored_dom h l f h' x : explored h l f h' → is_Some (h !! x) → is_Some (h' !! x).
Proof. intros He [s Hs]. rewrite (ex_heap _ _ _ _ He), Hs. by eexists. Qed.

Lemma explored_closed h l f h' : explored h l f h' → closed h → closed h'.
Proof.
  intros He Hc x s' Hx. destruct (explored_lookup _ _ _ _ _ _ He Hx) as (s & Hs & -> & _).
  destruct (Hc x s Hs) as [? Hj]. split; [done|]. intros j Hin. eapply explored_dom; [done|]. by apply Hj.
Qed.

Lemma remaining_mono h h' : (∀ x s', h' !! x = Some s' → color s' = reset →
  ∃ s, h !! x = Some s ∧ color s = reset) → remaining h' ⊆ remaining h.
Proof.
  intros Hm x. unfold remaining. rewrite !elem_of_filter, !elem_of_dom.
  intros [Hc [s' Hs']]. rewrite Hs' in Hc. injection Hc as Hc.
  destruct (Hm x s' Hs' Hc) as (s & -> & <-). eauto.
Qed.

Lemma paint_remaining h i s : h !! i = Some s → color s = reset →
  (size (remaining (alter (with_color set) i h)) < size (remaining h))%nat.
Proof.
  intros Hi Hs. apply subset_size. split.
  - apply remaining_mono. intros x s' [(<- & s0 & ? & ->)|[? Hx]]%lookup_alter_Some Hc; [done|eauto].
  - intros Hsub. assert (i ∈ remaining h) as Hin.
    { unfold remaining. rewrite elem_of_filter, elem_of_dom, Hi. simpl. rewrite Hs. eauto. }
    apply Hsub in Hin. unfold remaining in Hin. rewrite elem_of_filter, lookup_alter_eq, Hi in Hin.
    destruct Hin as [[= ?] _]. done.
Qed.

Lemma paint_closed h i : closed h → closed (alter (with_color set) i h).
Proof.
  intros Hc x s' Hx. assert (∃ s, h !! x = Some s ∧ children s' = children s) as (s & Hs & ->).
  { apply lookup_alter_Some in Hx as [(<- & s0 & ? & ->)|[? ?]]; eauto. }
  destruct (Hc x s Hs) as [? Hj]. split; [done|]. intros j Hin%Hj. by apply lookup_alter_is_Some.
Qed.

Abbreviation run_visits callback f s := (foldl (λ s t, run_visit callback t s) s f).

(** The traversal from one root with [fuel], and over the children of one
    segment: both explore, whatever the callback does. *)
Definition helper_explores (fuel : nat) : Prop := ∀ h root,
  closed h → (size (remaining h) < fuel)%nat → (∀ i, root = Some i → is_Some (h !! i)) →
  ∃ f h', explored h [root] f h' ∧
    (∀ i s, root = Some i → h !! i = Some s → color s = reset → ∃ inner, f = [Visit i inner]) ∧
    ∀ S (callback : nat → S → S * option (nat → S → S)) s,
      nr_segment_iterate_helper callback fuel root reset set (h, s) = Some (h', run_visits callback f s).

Lemma loop_explores fuel i ch l : helper_explores fuel → children_ok ch → ∀ h m,
  closed h → (size (remaining h) < fuel)%nat → field children h (Some i) = Some ch →
  drop m (klist ch) = l →
  ∃ f h', explored h l f h' ∧ ∀ S (callback : nat → S → S * option (nat → S → S)) s,
    foldl (λ acc k, '(h, s) ← acc;
      nr_segment_iterate_helper callback fuel (nr_segment_children_get h (Some i) k) reset set (h, s))
      (Some (h, s)) (seqZ (Z.of_nat m) (Z.of_nat (length l))) = Some (h', run_visits callback f s).
Proof.
  intros Hfuel Hok. induction l as [|c l IH]; intros h m Hc Hr Hi Hl.
  { exists [], h. split; [|done]. split; try done; try (intros; apply walk_nil); try (intros ? Hx; by apply not_elem_of_nil in Hx);
      try (intros ? ? Hx; by apply not_elem_of_nil in Hx); [constructor|]. intros x. by destruct (h !! x). }
  assert (Hm : klist ch !! m = Some c) by (rewrite <-(Nat.add_0_r m), <-lookup_drop, Hl; done).
  assert (Hget : nr_segment_children_get h (Some i) (Z.of_nat m) = c ∧ ∃ s, h !! i = Some s ∧ children s = ch).
  { unfold field in Hi. simpl in Hi. destruct (h !! i) as [s|] eqn:E; [|done]. injection Hi as <-.
    split; [by eapply children_get_spec|eauto]. }
  destruct Hget as (Hget & s0 & Hs0 & Hch).
  destruct (Hfuel h c Hc Hr) as (f1 & h1 & He1 & _ & Hrun1).
  { intros j ->. destruct (Hc i s0 Hs0) as [_ Hj]. apply Hj. rewrite Hch. by eapply list_elem_of_lookup_2. }
  destruct (IH h1 (Datatypes.S m)) as (f2 & h2 & He2 & Hrun2).
  - by eapply explored_closed.
  - eapply Nat.le_lt_trans; [|exact Hr]. apply subseteq_size, remaining_mono.
    intros x s' Hx Hcol'. destruct (explored_lookup _ _ _ _ _ _ He1 Hx) as (s & ? & _ & ?). eauto.
  - destruct (explored_dom _ _ _ _ i He1) as [s' Hs']; [eauto|].
    destruct (explored_lookup _ _ _ _ _ _ He1 Hs') as (s & ? & Hs & _). simplify_eq.
    unfold field. simpl. rewrite Hs'. simpl. by rewrite Hs.
  - erewrite drop_S in Hl by done. congruence.
  - exists (f1 ++ f2), h2. split; [by apply (explored_app h [c] f1 h1 l f2 h2)|].
    intros S callback s. rewrite foldl_app. cbn [length]. rewrite Nat2Z.inj_succ, seqZ_cons by lia.
    cbn [foldl mbind option_bind]. rewrite Hget, Hrun1, Z.pred_succ.
    replace (Z.succ (Z.of_nat m)) with (Z.of_nat (Datatypes.S m)) by lia. apply Hrun2.
Qed.

Lemma helper_spec fuel : helper_explores fuel.
Proof.
  induction fuel as [|fuel IH]; intros h root Hc Hr Hroot; [lia|].
  destruct root as [i|].
  2: { exists [], h. split; [by apply explored_skip|]. by split. }
  destruct (Hroot i eq_refl) as [s0 Hs0]. destruct (decide (color s0 = reset)) as [Hcol0|Hcol0].
  2: { exists [], h. split; [apply explored_skip; intros ? [= <-]; eauto|]. split.
       - intros ? ? [= <-] ? ?. congruence.
       - intros S callback s. cbn [nr_segment_iterate_helper]. rewrite Hs0. cbn [mbind option_bind].
         by rewrite decide_False. }
  destruct (Hc i s0 Hs0) as [Hok _]. pose proof (paint_remaining h i s0 Hs0 Hcol0).
  destruct (loop_explores fuel i (children s0) (klist (children s0)) IH Hok
    (alter (with_color set) i h) 0) as (f & h' & He & Hrun).
  - by apply paint_closed.
  - lia.
  - unfold field. simpl. by rewrite lookup_alter_eq, Hs0.
  - done.
  - exists [Visit i f], h'. split; [|split].
    + eapply explored_node; [done..|]. unfold kids. by rewrite Hs0.
    + intros ? ? [= <-] _ _. eauto.
    + intros S callback s. cbn [nr_segment_iterate_helper]. rewrite Hs0. cbn [mbind option_bind].
      rewrite decide_True by done. cbn [foldl run_visit]. destruct (callback i s) as [s1 post].
      rewrite children_size_spec by done. rewrite Hrun. done.
Qed.
End traversal.

(** ** Comparison *)
Lemma compare_flip_trans (A : Type) (key1 key2 : A → Z) (cmp : A → A → Z) :
  (∀ a b, cmp a b = if key1 b <? key1 a then 1 else if key1 a <? key1 b then -1
                    else if key2 a <? key2 b then -1 else if key2 b <? key2 a then 1 else 0) →
  Comparator cmp.
Proof.
  intros Hc. split; intros; rewrite !Hc in *; bool_cases.
Qed.

#[export] Instance span_priority_comparator : Comparator nr_segment_span_priority_comparator.
Proof.
  apply (compare_flip_trans _ priority (λ a, u64 (stop_time a - start_time a))). done.
Qed.

#[export] Instance duration_comparator : Comparator nr_segment_duration_comparator.
Proof.
  apply (compare_flip_trans _ (λ _, 0) (λ a, u64 (stop_time a - start_time a))). done.
Qed.

(** The check for [NULL] keeps an order an order. *)
Lemma null_check_comparator (cmp : nat → nat → Z) : Comparator cmp →
  Comparator (λ a b, comparator_null_check a b cmp).
Proof.
  intros Hc. split.
  - intros [x|] [y|]; simpl; try lia. apply (cmp_flip x y).
  - intros [x|] [y|] [z|]; simpl; try lia. apply (cmp_trans x y z).
Qed.

#[export] Instance wrapped_span_priority_comparator `{Allocator (option nat)} h :
  Comparator (nr_segment_wrapped_span_priority_comparator h).
Proof.
  apply null_check_comparator. split; intros; [apply span_priority_comparator|by eapply span_priority_comparator].
Qed.

#[export] Instance wrapped_duration_comparator `{Allocator (option nat)} h :
  Comparator (nr_segment_wrapped_duration_comparator h).
Proof.
  apply null_check_comparator. split; intros; [apply duration_comparator|by eapply duration_comparator].
Qed.

(** ** Properties *)

(** C11: [nr_segment_set_parent] keeps the segments a forest. For two segments
    of a forest (children lists that agree with the parents and with every child's own index, packed or
    in a vector, and no cycle) it refuses, and changes nothing, exactly when the
    transactions differ or the new parent is the segment itself or below it; otherwise the segment's
    parent is the new one, no other segment's parent changes, and the result is again a forest whose
    children lists have exactly the segments that name the list's owner as parent, each once. *)
Theorem nr_segment_set_parent_forest `{Allocator (option nat)} (h : heap) (i p : nat) (s sp : nr_segment_t) :
  (∀ n, realloc_succeeds (V:=option nat) n = true) → Z.of_nat (size h) < 2 ^ 57 →
  forest h → h !! i = Some s → h !! p = Some sp →
  ∃ b h', nr_segment_set_parent h (Some i) (Some p) = Some (b, h') ∧
    (b = false ↔ txn s ≠ txn sp ∨ parent s ≠ Some p ∧ below h p i) ∧ (b = false → h' = h) ∧
    forest h' ∧
    (b = true → ∀ x, parent <$> h' !! x = if decide (x = i) then Some (Some p) else parent <$> h !! x) ∧
    ∀ x, NoDup (kids h' x) ∧ ∀ c, c ∈ kids h' x ↔ ∃ j, c = Some j ∧ parent <$> h' !! j = Some (Some x).
Proof.
  intros Hal Hsize Hf Hi Hp.
  assert (Hkids : ∀ h', forest h' → ∀ x, NoDup (kids h' x) ∧
    ∀ c, c ∈ kids h' x ↔ ∃ j, c = Some j ∧ parent <$> h' !! j = Some (Some x))
    by (intros h' [Hinv _] x; by apply kids_spec).
  destruct (decide (txn s = txn sp)) as [Htx|Htx].
  2: { exists false, h. unfold nr_segment_set_parent. rewrite Hi, Hp. cbn [mbind option_bind fmap option_fmap option_map].
       rewrite bool_decide_false by done. cbn [negb]. split_and!; [done|naive_solver|done|done|done|auto]. }
  destruct (decide (parent s = Some p)) as [Hsp|Hsp].
  { exists true, h. unfold nr_segment_set_parent. rewrite Hi, Hp. cbn [mbind option_bind fmap option_fmap option_map].
    rewrite bool_decide_true, decide_True by done. split_and!; [done|naive_solver|done|done| |auto].
    intros _ x. case_decide; [|done]. subst. rewrite Hi. simpl. by rewrite Hsp. }
  destruct (fo_depth _ Hf _ _ Hp) as [d Hd].
  destruct (ancestor_loop_spec h p d (size h) i Hd) as (b & Hb & Hbelow); [by eapply depth_bound|].
  destruct b.
  - exists false, h. unfold nr_segment_set_parent. rewrite Hi, Hp. cbn [mbind option_bind fmap option_fmap option_map].
    rewrite bool_decide_true, decide_False, Hb by done. split_and!; [done|naive_solver|done|done|done|auto].
  - assert (¬ below h p i) as Hnb by (by intros ?%Hbelow).
    destruct (set_parent_accepts Hal h i p s sp Hf Hi Hp) as (h' & -> & Hf' & Hc); [lia|done..|].
    exists true, h'. split_and!; [done|naive_solver|done|done| |auto].
    intros _ x. specialize (Hc x). apply (f_equal (fmap (λ c, c.1.1.1.1.2))) in Hc.
    rewrite <-!option_fmap_compose in Hc. etransitivity; [exact Hc|].
    destruct (decide (x = i)) as [->|]; [by rewrite Hi|by destruct (h !! x)].
Qed.

(** Segments without parents and children are a forest. *)
Lemma orphans_forest `{Allocator (option nat)} (h : heap) :
  map_Forall (λ _ s, parent s = None ∧ children s = empty_children) h → forest h.
Proof.
  intros Ho. split; [split|].
  - intros i s Hi. destruct (Ho i s Hi) as [_ ->]. apply empty_children_spec.
  - intros i s k c Hi Hk. destruct (Ho i s Hi) as [_ E]. by rewrite E in Hk.
  - intros j t i Hj _ Hp. destruct (Ho j t Hj) as [E _]. congruence.
  - intros i s Hi. destruct (Ho i s Hi) as [E _]. exists 0%nat. by econstructor.
Qed.

Definition orphan (i : nat) : nr_segment_t :=
  Segment 1 None (@empty_children (GenerousAllocator.allocator (option nat))) 0 NR_SEGMENT_WHITE 0 (Z.of_nat i) 0.

(** Three segments, the second hung below the first. *)
Lemma nr_segment_set_parent_forest_witness :
  let alloc := GenerousAllocator.allocator (option nat) in
  let h := list_to_map ((λ i, (i, orphan i)) <$> seq 0 3) : heap in
  ∃ h', @nr_segment_set_parent alloc h (Some 1%nat) (Some 0%nat) = Some (true, h') ∧ forest h' ∧
    kids h' 0 = [Some 1%nat].
Proof.
  intros alloc h.
  destruct (@nr_segment_set_parent_forest alloc h 1 0 (orphan 1) (orphan 0)) as (b & h' & E & Hb & _ & Hf & _).
  - done.
  - by vm_compute.
  - apply orphans_forest. intros i s Hi. unfold h in Hi.
    apply elem_of_list_to_map_2, list_elem_of_fmap in Hi as (j & [= -> ->] & _). done.
  - by vm_compute.
  - by vm_compute.
  - exists h'. destruct b; [|vm_compute in E; discriminate]. split; [exact E|]. split; [exact Hf|].
    vm_compute in E. injection E as <-. by vm_compute.
Defined.

(** [nr_segment_children_reparent] hands all children over. When a
    segment's children and parents agree (a segment [detached] from its parent's children excepted, as in
    [nr_segment_discard]), giving the children of [c] to another segment [p] of the transaction ends with
    true, puts them in order behind those of [p], leaves [c] without children, makes [p] the parent of
    each of them and of no other segment, and keeps children, parents and indices in agreement, whether the
    two structures are packed, a vector, or become one. *)
Theorem nr_segment_children_reparent_moves `{Allocator (option nat)} (h : heap) (detached : option nat)
    (c p : nat) (sc sp : nr_segment_t) :
  (∀ n, realloc_succeeds (V:=option nat) n = true) → Z.of_nat (size h) < 2 ^ 57 →
  tree_inv detached h → h !! c = Some sc → h !! p = Some sp → c ≠ p → txn sc = txn sp →
  ∃ h', nr_segment_children_reparent h (Some c) (Some p) = Some (true, h') ∧ tree_inv detached h' ∧
    (∀ x, kids h' x = if decide (x = c) then [] else if decide (x = p) then kids h p ++ kids h c
                      else kids h x) ∧
    (∀ x, parent <$> h' !! x = if decide (Some x ∈ kids h c) then Some (Some p) else parent <$> h !! x).
Proof. intros. by eapply reparent_inv. Qed.

(** Segment 1 with its child 2, reparented to segment 0. *)
Lemma nr_segment_children_reparent_moves_witness :
  let alloc := GenerousAllocator.allocator (option nat) in
  let h := list_to_map ((λ i, (i, orphan i)) <$> seq 0 3) : heap in
  let h1 := (default (false, h) (@nr_segment_set_parent alloc h (Some 2%nat) (Some 1%nat))).2 in
  ∃ h2, @nr_segment_children_reparent alloc h1 (Some 1%nat) (Some 0%nat) = Some (true, h2) ∧
    kids h1 1 = [Some 2%nat] ∧ kids h2 0 = [Some 2%nat] ∧ kids h2 1 = [] ∧ tree_inv None h2.
Proof.
  intros alloc h h1. assert (Hf : @forest h).
  { apply orphans_forest. intros i s Hi. unfold h in Hi.
    apply elem_of_list_to_map_2, list_elem_of_fmap in Hi as (j & [= -> ->] & _). done. }
  destruct (@set_parent_accepts alloc (λ _, eq_refl) h 2 1 (orphan 2) (orphan 1) Hf)
    as (h1' & E & [Hinv _] & _); [by vm_compute..| |].
  { intros Hb. inversion Hb; subst. by vm_compute in H; simplify_eq. }
  assert (h1' = h1) as -> by (unfold h1; by rewrite E).
  edestruct (@nr_segment_children_reparent_moves alloc h1 None 1 0) as (h2 & E2 & Hinv2 & Hk & _);
    [done|by vm_compute|exact Hinv|vm_compute; reflexivity|vm_compute; reflexivity|done|done|].
  exists h2. split; [exact E2|]. split; [by vm_compute|].
  split_and!; [rewrite (Hk 0%nat); by vm_compute|rewrite (Hk 1%nat); by vm_compute|exact Hinv2].
Defined.

(** C12: [nr_segment_iterate] visits what can be reached, once, in depth-first order. On any heap of
    segments whose children structures are sound and point to segments, with cycles or sharing or
    without, the traversal ends; the segments it enters are those reachable from the root through
    children of the root's colour, each entered once; it paints these and nothing else. The visits are
    those of the depth-first [walk] from the root on the heap as it was: a segment is entered before its
    children, they are gone to in their order, and only a child that is [NULL], of another colour or
    already entered is passed over; on a forest of one colour none is, so the visits have the shape of the
    tree. The callbacks are called as these visits say: the callback of a segment, then the visits inside
    it, then its post callback. The visits do not depend on the callbacks. *)
Theorem nr_segment_iterate_visits `{Allocator (option nat)} (h : heap) (i : nat) (s : nr_segment_t) :
  closed h → h !! i = Some s →
  ∃ inner h',
    NoDup (preorder (Visit i inner)) ∧
    (∀ x, x ∈ preorder (Visit i inner) ↔ reach (color s) h i x) ∧
    (∀ x, h' !! x = (λ sx, if decide (x ∈ preorder (Visit i inner))
                           then with_color (nr_segment_toggle_color (color s)) sx else sx) <$> h !! x) ∧
    walk (color s) h [] [Some i] [Visit i inner] ∧
    (forest h → (∀ x sx, h !! x = Some sx → color sx = color s) → mirrors h (Visit i inner)) ∧
    ∀ S (callback : nat → S → S * option (nat → S → S)) (st : S),
      nr_segment_iterate h (Some i) (Some callback) st = Some (h', run_visit callback (Visit i inner) st).
Proof.
  intros Hc Hi. assert (Hcol : nr_segment_toggle_color (color s) ≠ color s) by (by destruct (color s)).
  destruct (helper_spec (color s) _ Hcol (S (size h)) h (Some i) Hc) as (f & h' & He & Hf & Hrun).
  { rewrite <-size_dom. apply Nat.lt_succ_r, subseteq_size. by intros x [_ ?]%elem_of_filter. }
  { intros ? [= <-]. eauto. }
  destruct (Hf i s eq_refl Hi eq_refl) as [inner ->].
  assert (preorder (Visit i inner) = preorders [Visit i inner]) as Hpre by (simpl; by rewrite app_nil_r).
  assert (Hw : walk (color s) h [] [Some i] [Visit i inner]).
  { apply (ex_walk _ _ _ _ _ _ He). intros x. by destruct (h !! x). }
  exists inner, h'. split_and!.
  - rewrite Hpre. apply He.
  - by eapply explored_reach.
  - rewrite Hpre. apply (ex_heap _ _ _ _ _ _ He).
  - exact Hw.
  - intros Hfo Hone. by eapply walk_root_mirrors.
  - intros S callback st. unfold nr_segment_iterate. rewrite Hi. cbn [mbind option_bind].
    rewrite Hrun. done.
Qed.

(** Segment 0 with the children 1 and 2, added in this order, and 3 apart:
    entered and left in this order; the numbers are logged on entering, their
    successors' tens on leaving. *)
Lemma nr_segment_iterate_visits_witness :
  let alloc := GenerousAllocator.allocator (option nat) in
  let h := list_to_map ((λ i, (i, orphan i)) <$> seq 0 4) : heap in
  let callback (i : nat) (log : list nat) := (log ++ [i], Some (λ i log, log ++ [i + 10])%nat) in
  ∃ h1 h2 h3 inner, @nr_segment_set_parent alloc h (Some 1%nat) (Some 0%nat) = Some (true, h1) ∧
    @nr_segment_set_parent alloc h1 (Some 2%nat) (Some 0%nat) = Some (true, h2) ∧
    mirrors h2 (Visit 0 inner) ∧
    nr_segment_iterate h2 (Some 0%nat) (Some callback) [] = Some (h3, [0; 1; 11; 2; 12; 10]%nat) ∧
    color <$> h3 !! 2%nat = Some NR_SEGMENT_GREY ∧ color <$> h3 !! 3%nat = Some NR_SEGMENT_WHITE.
Proof.
  intros alloc h callback. assert (Hf : @forest h).
  { apply orphans_forest. intros i s Hi. unfold h in Hi.
    apply elem_of_list_to_map_2, list_elem_of_fmap in Hi as (j & [= -> ->] & _). done. }
  destruct (@set_parent_accepts alloc (λ _, eq_refl) h 1 0 (orphan 1) (orphan 0) Hf)
    as (h1 & E1 & Hf1 & _); [by vm_compute..| |].
  { intros Hb. inversion Hb; subst. by vm_compute in H; simplify_eq. }
  pose proof E1 as E1'. vm_compute in E1'. injection E1' as E1'.
  edestruct (@set_parent_accepts alloc (λ _, eq_refl) h1 2 0)
    as (h2 & E2 & Hf2 & _); [exact Hf1|rewrite <-E1'; by vm_compute|rewrite <-E1'; by vm_compute|rewrite <-E1'; by vm_compute|by vm_compute|by vm_compute| |].
  { intros Hb. rewrite <-E1' in Hb. inversion Hb; subst. by vm_compute in H; simplify_eq. }
  exists h1, h2. pose proof E2 as E2'. rewrite <-E1' in E2'. vm_compute in E2'. injection E2' as E2'.
  assert (∃ s, h2 !! 0%nat = Some s ∧ color s = NR_SEGMENT_WHITE) as (s & Hs & Hcs).
  { rewrite <-E2'. eexists. by split. }
  destruct Hf2 as [[Hok Hch Hpa] Hd].
  assert (Hcl : closed h2).
  { intros x sx Hx. split; [by eapply Hok|]. intros j [k Hk]%list_elem_of_lookup.
    destruct (Hch x sx k _ Hx Hk) as (? & ? & [= <-] & _ & ? & _). eauto. }
  destruct (@nr_segment_iterate_visits alloc h2 0 s Hcl Hs) as (inner & h3 & _ & _ & _ & _ & Hm & Hrun).
  exists h3, inner. specialize (Hrun _ callback []).
  split; [exact E1|]. split; [exact E2|]. split.
  { apply Hm; [by split; [split|]|]. rewrite Hcs.
    assert (map_Forall (λ (_ : nat) sx, color sx = NR_SEGMENT_WHITE) h2) as Hall; [|exact Hall].
    rewrite <-E2'. apply map_Forall_to_list. by repeat constructor. }
  rewrite Hrun.
  eassert (Some (h3, run_visit callback (Visit 0 inner) []) = Some (_, [0; 1; 11; 2; 12; 10]%nat)) as E3.
  { rewrite <-Hrun, <-E2'. vm_compute. reflexivity. }
  injection E3 as -> Er. split; [do 2 f_equal; exact Er|]. by split.
Defined.
