(* ===== verification/Json.v ===== *)
(** * Json: escaping strings for JSON (src/axiom/util_json.c)

    The escaped string is ASCII: bytes that start well-formed UTF-8 sequences
    become \u escapes of their UTF-16 units, other bytes outside ASCII become
    the escape of their value. *)

From S2P Require Import Prelude Memory CString.
Local Open Scope Z_scope.

(** ** Hexadecimal output, as [%02x] and [%04x] of a small enough number *)
Definition hex_digit (d : Z) : Z := if d <? 10 then 48 + d else 87 + d.
Definition hex2 (v : Z) : list Z := [hex_digit (v / 16); hex_digit (v mod 16)].
Definition hex4 (v : Z) : list Z :=
  [hex_digit (v / 4096); hex_digit (v / 256 mod 16); hex_digit (v / 16 mod 16); hex_digit (v mod 16)].

(** ** Escaping *)

(** What the first byte of a UTF-8 sequence says: bits of the code point,
    bytes of the sequence, mask of the payload in this byte. *)
Definition utf8_lead (c : Z) : option (Z * nat * Z) :=
  if Z.land c 0xe0 =? 0xc0 then Some (11, 2%nat, 0x1f)
  else if Z.land c 0xf0 =? 0xe0 then Some (16, 3%nat, 0xf)
  else if Z.land c 0xf8 =? 0xf0 then Some (21, 4%nat, 0x7)
  else if Z.land c 0xfc =? 0xf8 then Some (26, 5%nat, 0x3)
  else if Z.land c 0xfe =? 0xfc then Some (31, 6%nat, 0x1)
  else None.

(** The loop over the other bytes of the sequence; [None] is the fault. *)
Fixpoint continuation (n : nat) (l : list Z) (i code_point : Z) : option Z :=
  match n with
  | O => Some code_point
  | S n =>
      if Z.land (char_at l i) 0xc0 =? 0x80
      then continuation n l (i + 1)
             (Z.lor (u32 (Z.shiftl code_point 6)) (Z.land (char_at l i) 0x3f))
      else None
  end.

(** \u00XX for the byte. *)
Definition fault_escape (c : Z) : list Z := [92; 117; 48; 48] ++ hex2 c.

Definition code_point_escape (bits code_point : Z) : option (list Z) :=
  if bits <=? 16 then Some ([92; 117] ++ hex4 (Z.land code_point 0xffff))
  else if bits =? 21 then
    let code_point := u32 (code_point - 0x10000) in
    let surrogate_0 := 0xd800 + Z.land (Z.shiftr code_point 10) (Z.shiftl 1 10 - 1) in
    let surrogate_1 := 0xdc00 + Z.land (Z.shiftr code_point 0) (Z.shiftl 1 10 - 1) in
    Some ([92; 117] ++ hex4 (Z.land surrogate_0 0xffff) ++ [92; 117] ++ hex4 (Z.land surrogate_1 0xffff))
  else None.

(** One round of the loop on the rest [l] of the string, which starts with [c]:
    the bytes written and the number of bytes read. *)
Definition escape_one (c : Z) (l : list Z) : list Z * nat :=
  if c =? 34 then ([92; 34], 1%nat)
  else if c =? 10 then ([92; 110], 1%nat)
  else if c =? 13 then ([92; 114], 1%nat)
  else if c =? 12 then ([92; 102], 1%nat)
  else if c =? 8 then ([92; 98], 1%nat)
  else if c =? 9 then ([92; 116], 1%nat)
  else if c =? 92 then ([92; 92], 1%nat)
  else if c =? 47 then ([92; 47], 1%nat)
  else if Z.land c 0xc0 =? 0xc0 then
    match utf8_lead c with
    | None => (fault_escape c, 1%nat)
    | Some (bits_in_code_point, nbytes, lead_mask) =>
        match continuation (nbytes - 1) l 1 (Z.land c lead_mask) with
        | None => (fault_escape c, 1%nat)
        | Some code_point =>
            match code_point_escape bits_in_code_point code_point with
            | None => (fault_escape c, 1%nat)
            | Some out => (out, nbytes)
            end
        end
    end
  else if (c <=? 0x1f) || (0x7f <=? c) then (fault_escape c, 1%nat)
  else ([c], 1%nat).

(** One round reads at least a byte: the length of the string is fuel enough. *)
Fixpoint escape_loop (fuel : nat) (json : list Z) : list Z :=
  match fuel, json with
  | S fuel, c :: _ =>
      if c =? 0 then []
      else let '(out, n) := escape_one c json in out ++ escape_loop fuel (drop n json)
  | _, _ => []
  end.

Definition escaped (json : option (list Z)) : list Z :=
  let json := default [] json in [34] ++ escape_loop (length json) json ++ [34].

(** The memory at [dest] afterwards, [None] for [NULL]. *)
Definition nr_json_escape (dest : option (list Z)) (json : option (list Z)) : Z * option (list Z) :=
  match dest with
  | None => (0, None)
  | Some d => (Z.of_nat (length (escaped json)), Some (list_inserts 0 (escaped json ++ [0]) d))
  end.

(** ** What a JSON reader makes of it

    The string grammar of JSON on ASCII input; the value is the sequence of
    UTF-16 units. *)
Definition hex_value (c : Z) : option Z :=
  if (48 <=? c) && (c <=? 57) then Some (c - 48)
  else if (97 <=? c) && (c <=? 102) then Some (c - 87)
  else None.

Definition hex4_value (a b c d : Z) : option Z :=
  a ← hex_value a; b ← hex_value b; c ← hex_value c; d ← hex_value d;
  Some (((a * 16 + b) * 16 + c) * 16 + d).

Definition simple_escape (c : Z) : option Z :=
  if c =? 34 then Some 34 else if c =? 92 then Some 92 else if c =? 47 then Some 47
  else if c =? 98 then Some 8 else if c =? 102 then Some 12 else if c =? 110 then Some 10
  else if c =? 114 then Some 13 else if c =? 116 then Some 9 else None.

Fixpoint json_chars (l : list Z) : option (list Z) :=
  match l with
  | [] => None
  | c :: l =>
      if c =? 34 then match l with [] => Some [] | _ => None end
      else if c =? 92 then
        match l with
        | [] => None
        | e :: l =>
            if e =? 117 then
              match l with
              | a :: b :: c :: d :: l => v ← hex4_value a b c d; cons v <$> json_chars l
              | _ => None
              end
            else v ← simple_escape e; cons v <$> json_chars l
        end
      else if (32 <=? c) && (c <? 128) then cons c <$> json_chars l
      else None
  end.

Definition json_string (l : list Z) : option (list Z) :=
  match l with c :: l => if c =? 34 then json_chars l else None | [] => None end.

(** ** Unicode *)
Definition scalar_value (cp : Z) : Prop := 0 < cp < 0x110000 ∧ ¬ 0xd800 ≤ cp < 0xe000.

Definition utf8 (cp : Z) : list Z :=
  if cp <? 0x80 then [cp]
  else if cp <? 0x800 then [0xc0 + cp / 64; 0x80 + cp mod 64]
  else if cp <? 0x10000 then [0xe0 + cp / 4096; 0x80 + cp / 64 mod 64; 0x80 + cp mod 64]
  else [0xf0 + cp / 262144; 0x80 + cp / 4096 mod 64; 0x80 + cp / 64 mod 64; 0x80 + cp mod 64].

Definition utf16 (cp : Z) : list Z :=
  if cp <? 0x10000 then [cp]
  else [0xd800 + (cp - 0x10000) / 1024; 0xdc00 + (cp - 0x10000) mod 1024].

(** ** Digits *)
Lemma hex_value_digit d : 0 ≤ d < 16 → hex_value (hex_digit d) = Some d.
Proof.
  intros Hd. unfold hex_digit, hex_value. destruct (Z.ltb_spec d 10).
  - destruct (Z.leb_spec 48 (48 + d)), (Z.leb_spec (48 + d) 57); try lia. simpl. f_equal. lia.
  - destruct (Z.leb_spec 48 (87 + d)), (Z.leb_spec (87 + d) 57), (Z.leb_spec 97 (87 + d)),
      (Z.leb_spec (87 + d) 102); try lia. simpl. f_equal. lia.
Qed.

Lemma hex4_digits v : 0 ≤ v < 65536 →
  0 ≤ v / 4096 < 16 ∧ 0 ≤ v / 256 mod 16 < 16 ∧ 0 ≤ v / 16 mod 16 < 16 ∧ 0 ≤ v mod 16 < 16 ∧
  v = ((v / 4096 * 16 + v / 256 mod 16) * 16 + v / 16 mod 16) * 16 + v mod 16.
Proof. intros. Z.to_euclidean_division_equations. lia. Qed.

Lemma fault_escape_hex4 c : is_byte c → fault_escape c = [92; 117] ++ hex4 c.
Proof.
  intros Hc. unfold is_byte in Hc. unfold fault_escape, hex2, hex4.
  replace (c / 4096) with 0 by (Z.to_euclidean_division_equations; lia).
  replace (c / 256 mod 16) with 0 by (Z.to_euclidean_division_equations; lia).
  replace (c / 16 mod 16) with (c / 16) by (Z.to_euclidean_division_equations; lia). done.
Qed.

Definition printable (c : Z) : Prop := 32 ≤ c < 127.

Lemma hex_digit_printable d : 0 ≤ d < 16 → printable (hex_digit d).
Proof. intros. unfold printable, hex_digit. bool_cases. Qed.

(** ** One escape

    The bytes written are printable, few enough, and read back as some UTF-16
    units whatever follows. *)
Record escape_ok (out : list Z) (n : nat) (units : list Z) : Prop := {
  eo_printable : Forall printable out;
  eo_length : (length out ≤ 6 * n)%nat;
  eo_read : ∀ tail, json_chars (out ++ tail) = app units <$> json_chars tail;
}.

Lemma fmap_cons_app (v : Z) us (o : option (list Z)) :
  cons v <$> (app us <$> o) = app (v :: us) <$> o.
Proof. by destruct o. Qed.

Lemma unicode_escape_ok v n : 0 ≤ v < 65536 → (0 < n)%nat → escape_ok ([92; 117] ++ hex4 v) n [v].
Proof.
  intros Hv Hn. destruct (hex4_digits v Hv) as (? & ? & ? & ? & Ev). split.
  - repeat constructor; try (unfold printable; lia); by apply hex_digit_printable.
  - simpl. lia.
  - intros tail. simpl. unfold hex4_value. rewrite !hex_value_digit by done. simpl. by rewrite <-Ev.
Qed.

Lemma simple_escape_ok e v : simple_escape e = Some v → printable e → e ≠ 117 →
  escape_ok [92; e] 1 [v].
Proof.
  intros He Hp Hne. split.
  - constructor; [unfold printable; lia|]. by constructor.
  - simpl. lia.
  - intros tail. simpl. destruct (Z.eqb_spec e 117); [done|]. by rewrite He.
Qed.

Lemma plain_ok c : printable c → c ≠ 34 → c ≠ 92 → escape_ok [c] 1 [c].
Proof.
  intros Hc H1 H2. unfold printable in Hc. split.
  - by constructor.
  - simpl. lia.
  - intros tail. simpl. destruct (Z.eqb_spec c 34), (Z.eqb_spec c 92); try done.
    destruct (Z.leb_spec 32 c), (Z.ltb_spec c 128); try lia. done.
Qed.

Lemma escape_ok_app o1 n1 u1 o2 n2 u2 :
  escape_ok o1 n1 u1 → escape_ok o2 n2 u2 → escape_ok (o1 ++ o2) (n1 + n2) (u1 ++ u2).
Proof.
  intros [P1 L1 R1] [P2 L2 R2]. split.
  - by apply Forall_app.
  - rewrite length_app. lia.
  - intros tail. rewrite <-app_assoc, R1, R2. destruct (json_chars tail); [|done]. simpl.
    by rewrite <-app_assoc.
Qed.

Lemma escape_ok_more o n n' u : escape_ok o n u → (n ≤ n')%nat → escape_ok o n' u.
Proof. intros [P L R] Hn. split; [done|lia|done]. Qed.

Lemma land_ffff x : Z.land x 0xffff = x mod 65536.
Proof. change 0xffff with (Z.ones 16). by rewrite Z.land_ones. Qed.
Lemma land_3ff x : Z.land x (Z.shiftl 1 10 - 1) = x mod 1024.
Proof. change (Z.shiftl 1 10 - 1) with (Z.ones 10). by rewrite Z.land_ones. Qed.

(** The UTF-16 units that the code computes. *)
Definition code_units (bits code_point : Z) : list Z :=
  if bits <=? 16 then [code_point mod 65536]
  else
    let code_point := u32 (code_point - 0x10000) in
    [0xd800 + code_point / 1024 mod 1024; 0xdc00 + code_point mod 1024].

Lemma code_point_escape_ok bits cp out : code_point_escape bits cp = Some out →
  escape_ok out 2 (code_units bits cp).
Proof.
  unfold code_point_escape, code_units. destruct (bits <=? 16).
  - intros [= <-]. rewrite land_ffff. apply unicode_escape_ok; [apply Z.mod_pos_bound; lia|lia].
  - destruct (bits =? 21); [|done]. intros [= <-]. set (c := u32 (cp - 65536)).
    rewrite !land_3ff, !land_ffff, Z.shiftr_div_pow2, Z.shiftr_0_r by lia. change (2 ^ 10) with 1024.
    pose proof (Z.mod_pos_bound (c / 1024) 1024 ltac:(lia)). pose proof (Z.mod_pos_bound c 1024 ltac:(lia)).
    rewrite (Z.mod_small (0xd800 + _)), (Z.mod_small (0xdc00 + _)) by lia.
    apply (escape_ok_app ([92; 117] ++ hex4 _) 1 [_] ([92; 117] ++ hex4 _) 1 [_]);
      apply unicode_escape_ok; lia.
Qed.

Lemma continuation_length n l i cp cp' : continuation n l i cp = Some cp' → (0 < n)%nat → 0 ≤ i →
  i + Z.of_nat n ≤ Z.of_nat (length l).
Proof.
  revert i cp. induction n as [|n IH]; intros i cp Hc Hn Hi; [lia|]. simpl in Hc.
  destruct (Z.eqb_spec (Z.land (char_at l i) 192) 128) as [E|]; [|done].
  destruct n as [|n].
  - unfold char_at in E. destruct (l !! Z.to_nat i) eqn:El; [|done]. apply lookup_lt_Some in El. lia.
  - specialize (IH (i + 1) _ Hc). lia.
Qed.

Lemma utf8_lead_bytes c bits n mask : utf8_lead c = Some (bits, n, mask) → (2 ≤ n)%nat.
Proof.
  unfold utf8_lead. intros Hl.
  repeat (destruct (_ =? _); [injection Hl as <- <- <-; lia|]). done.
Qed.

(** One round of the loop on any byte but NUL. *)
Lemma escape_one_ok c l : 0 < c < 256 → ∃ units,
  escape_ok (escape_one c (c :: l)).1 (escape_one c (c :: l)).2 units ∧
  (1 ≤ (escape_one c (c :: l)).2 ≤ length (c :: l))%nat.
Proof.
  intros Hc. set (r := escape_one c (c :: l)).
  assert (Hfault : ∃ units, escape_ok (fault_escape c) 1 units ∧ (1 ≤ 1 ≤ length (c :: l))%nat).
  { exists [c]. split; [|simpl; lia]. rewrite fault_escape_hex4 by (unfold is_byte; lia).
    apply unicode_escape_ok; lia. }
  assert (Hsimple : ∀ e, simple_escape e = Some c → printable e → e ≠ 117 →
    ∃ units, escape_ok [92; e] 1 units ∧ (1 ≤ 1 ≤ length (c :: l))%nat).
  { intros e ? ? ?. exists [c]. split; [by apply simple_escape_ok|simpl; lia]. }
  unfold r, escape_one.
  destruct (Z.eqb_spec c 34) as [->|]; [by apply Hsimple|].
  destruct (Z.eqb_spec c 10) as [->|]; [by apply Hsimple|].
  destruct (Z.eqb_spec c 13) as [->|]; [by apply Hsimple|].
  destruct (Z.eqb_spec c 12) as [->|]; [by apply Hsimple|].
  destruct (Z.eqb_spec c 8) as [->|]; [by apply Hsimple|].
  destruct (Z.eqb_spec c 9) as [->|]; [by apply Hsimple|].
  destruct (Z.eqb_spec c 92) as [->|]; [by apply Hsimple|].
  destruct (Z.eqb_spec c 47) as [->|]; [by apply Hsimple|].
  destruct (Z.land c 192 =? 192).
  - destruct (utf8_lead c) as [[[bits nb] mask]|] eqn:El; [|exact Hfault].
    apply utf8_lead_bytes in El.
    destruct (continuation (nb - 1) (c :: l) 1 (Z.land c mask)) as [cp|] eqn:Ec; [|exact Hfault].
    apply continuation_length in Ec; [|lia..].
    destruct (code_point_escape bits cp) as [out|] eqn:Eo; [|exact Hfault].
    exists (code_units bits cp). split; [|simpl in *; lia].
    eapply escape_ok_more; [by apply code_point_escape_ok|done].
  - destruct (Z.leb_spec c 31), (Z.leb_spec 127 c); cbn [orb]; try exact Hfault.
    exists [c]. split; [|simpl; lia]. apply plain_ok; unfold printable; lia.
Qed.

Lemma escape_loop_ok fuel l : is_cstr l → (length l ≤ fuel)%nat →
  ∃ units, escape_ok (escape_loop fuel l) (length l) units.
Proof.
  revert l. induction fuel as [|fuel IH]; intros l Hl Hf.
  { destruct l; [|simpl in Hf; lia]. exists []. split; [constructor|done|]. intros tail. simpl.
    by destruct (json_chars tail). }
  destruct l as [|c l].
  { exists []. split; [constructor|done|]. intros tail. simpl. by destruct (json_chars tail). }
  pose proof Hl as [Hc _]%Forall_cons. cbn [escape_loop].
  destruct (Z.eqb_spec c 0); [lia|]. destruct (escape_one_ok c l Hc) as (u1 & Hok & Hn).
  destruct (escape_one c (c :: l)) as [out n'] eqn:E. cbn [fst snd] in Hok, Hn.
  destruct (IH (drop n' (c :: l))) as (u2 & Hok2).
  - by apply Forall_drop.
  - rewrite length_drop. simpl in *. lia.
  - exists (u1 ++ u2). eapply escape_ok_more; [by apply escape_ok_app|]. rewrite length_drop. lia.
Qed.

Lemma escaped_ok l : is_cstr l → ∃ units,
  json_string (escaped (Some l)) = Some units ∧ Forall printable (escaped (Some l)) ∧
  (length (escaped (Some l)) ≤ 6 * length l + 2)%nat.
Proof.
  intros Hl. destruct (escape_loop_ok (length l) l Hl (le_n _)) as (units & [P L R]).
  exists units. unfold escaped. simpl. split_and!.
  - rewrite R. simpl. by rewrite app_nil_r.
  - constructor; [by unfold printable|]. apply Forall_app. split; [done|].
    by repeat constructor.
  - rewrite length_app. simpl. lia.
Qed.

(** ** UTF-8 input *)

Lemma cont_byte r : 0 ≤ r < 64 → Z.land (0x80 + r) 0xc0 = 0x80 ∧ Z.land (0x80 + r) 0x3f = r.
Proof.
  intros Hr. pose proof (byte_cases (λ r, (Z.land (0x80 + r) 0xc0 =? 0x80) && (Z.land (0x80 + r) 0x3f =? r))
    0 64 eq_refl r ltac:(lia)) as Hb. cbv beta in Hb. lia.
Qed.

Lemma lead2 q : 0 ≤ q < 32 → Z.land (0xc0 + q) 0xc0 = 0xc0 ∧ utf8_lead (0xc0 + q) = Some (11, 2%nat, 0x1f) ∧
  Z.land (0xc0 + q) 0x1f = q.
Proof.
  intros Hq. pose proof (byte_cases (λ q, (Z.land (0xc0 + q) 0xc0 =? 0xc0) &&
    (Z.land (0xc0 + q) 0xe0 =? 0xc0) && (Z.land (0xc0 + q) 0x1f =? q)) 0 32 eq_refl q ltac:(lia)) as Hb.
  cbv beta in Hb. unfold utf8_lead. destruct (Z.land (192 + q) 224 =? 192); [split_and!; [lia|done|lia]|lia].
Qed.

Lemma lead3 q : 0 ≤ q < 16 → Z.land (0xe0 + q) 0xc0 = 0xc0 ∧ utf8_lead (0xe0 + q) = Some (16, 3%nat, 0xf) ∧
  Z.land (0xe0 + q) 0xf = q.
Proof.
  intros Hq. pose proof (byte_cases (λ q, (Z.land (0xe0 + q) 0xc0 =? 0xc0) && negb (Z.land (0xe0 + q) 0xe0 =? 0xc0) &&
    (Z.land (0xe0 + q) 0xf0 =? 0xe0) && (Z.land (0xe0 + q) 0xf =? q)) 0 16 eq_refl q ltac:(lia)) as Hb.
  cbv beta in Hb. unfold utf8_lead. destruct (Z.land (224 + q) 224 =? 192); [lia|].
  destruct (Z.land (224 + q) 240 =? 224); [split_and!; [lia|done|lia]|lia].
Qed.

Lemma lead4 q : 0 ≤ q < 8 → Z.land (0xf0 + q) 0xc0 = 0xc0 ∧ utf8_lead (0xf0 + q) = Some (21, 4%nat, 0x7) ∧
  Z.land (0xf0 + q) 0x7 = q.
Proof.
  intros Hq. pose proof (byte_cases (λ q, (Z.land (0xf0 + q) 0xc0 =? 0xc0) && negb (Z.land (0xf0 + q) 0xe0 =? 0xc0) &&
    negb (Z.land (0xf0 + q) 0xf0 =? 0xe0) &&
    (Z.land (0xf0 + q) 0xf8 =? 0xf0) && (Z.land (0xf0 + q) 0x7 =? q)) 0 8 eq_refl q ltac:(lia)) as Hb.
  cbv beta in Hb. unfold utf8_lead. destruct (Z.land (240 + q) 224 =? 192); [lia|].
  destruct (Z.land (240 + q) 240 =? 224); [lia|].
  destruct (Z.land (240 + q) 248 =? 240); [split_and!; [lia|done|lia]|lia].
Qed.

(** One more byte of a sequence. *)
Lemma lor_shift x r : 0 ≤ x < 2 ^ 26 → 0 ≤ r < 64 → Z.lor (u32 (Z.shiftl x 6)) r = x * 64 + r.
Proof.
  intros Hx Hr. rewrite Z.shiftl_mul_pow2, u32_small, Z.lor_comm by lia.
  rewrite lor_add_shift by lia. lia.
Qed.

Lemma continuation_step n l i cp r rest : l = take (Z.to_nat i) l ++ (0x80 + r) :: rest →
  0 ≤ i < Z.of_nat (length l) → 0 ≤ r < 64 → 0 ≤ cp < 2 ^ 26 →
  continuation (S n) l i cp = continuation n l (i + 1) (cp * 64 + r).
Proof.
  intros El Hi Hr Hcp. simpl. assert (char_at l i = 0x80 + r) as ->.
  { unfold char_at. rewrite El, lookup_app_r by (rewrite length_take; lia).
    replace (Z.to_nat i - _)%nat with 0%nat by (rewrite length_take; lia). done. }
  destruct (cont_byte r Hr) as [-> ->]. rewrite Z.eqb_refl, lor_shift by done. done.
Qed.

(** The characters the switch does not name, of the two kinds. *)
Lemma escape_one_plain c l : 0 < c < 128 → ∃ out, escape_one c (c :: l) = (out, 1%nat) ∧ escape_ok out 1 [c].
Proof.
  intros Hc. assert (Hs : ∀ e, simple_escape e = Some c → printable e → e ≠ 117 →
    ∃ out, ([92; e], 1%nat) = (out, 1%nat) ∧ escape_ok out 1 [c]).
  { intros e ? ? ?. exists [92; e]. split; [done|by apply simple_escape_ok]. }
  assert (Z.land c 0xc0 ≠ 0xc0) as Hno.
  { pose proof (byte_cases (λ c, negb (Z.land c 0xc0 =? 0xc0)) 0 128 eq_refl c ltac:(lia)). cbv beta in *. lia. }
  unfold escape_one.
  destruct (Z.eqb_spec c 34) as [->|]; [by apply Hs|].
  destruct (Z.eqb_spec c 10) as [->|]; [by apply Hs|].
  destruct (Z.eqb_spec c 13) as [->|]; [by apply Hs|].
  destruct (Z.eqb_spec c 12) as [->|]; [by apply Hs|].
  destruct (Z.eqb_spec c 8) as [->|]; [by apply Hs|].
  destruct (Z.eqb_spec c 9) as [->|]; [by apply Hs|].
  destruct (Z.eqb_spec c 92) as [->|]; [by apply Hs|].
  destruct (Z.eqb_spec c 47) as [->|]; [by apply Hs|].
  destruct (Z.eqb_spec (Z.land c 192) 192); [done|]. clear Hs.
  destruct (Z.leb_spec c 31), (Z.leb_spec 127 c); cbn [orb].
  1-3: exists (fault_escape c); (split; [done|]); rewrite fault_escape_hex4 by (unfold is_byte; lia);
    apply unicode_escape_ok; lia.
  exists [c]. split; [done|]. apply plain_ok; unfold printable; lia.
Qed.

Lemma escape_one_lead c l : Z.land c 0xc0 = 0xc0 → escape_one c l =
  match utf8_lead c with
  | None => (fault_escape c, 1%nat)
  | Some (bits, n, mask) =>
      match continuation (n - 1) l 1 (Z.land c mask) with
      | None => (fault_escape c, 1%nat)
      | Some cp => match code_point_escape bits cp with
                   | None => (fault_escape c, 1%nat)
                   | Some out => (out, n)
                   end
      end
  end.
Proof.
  intros Hc. assert (∀ k, Z.land k 192 ≠ 192 → c ≠ k) as Hk by (intros k Hk ->; done).
  unfold escape_one. repeat (match goal with |- context [c =? ?k] =>
    destruct (Z.eqb_spec c k); [exfalso; by apply (Hk k)|] end). by rewrite Hc.
Qed.

Lemma code_point_escape_some bits cp : bits ≤ 16 ∨ bits = 21 → is_Some (code_point_escape bits cp).
Proof.
  unfold code_point_escape. intros Hb. destruct (Z.leb_spec bits 16); [done|].
  destruct (Z.eqb_spec bits 21); [done|lia].
Qed.

(** A well-formed sequence is read whole and becomes its UTF-16 units. *)
Lemma escape_one_utf8 cp l : scalar_value cp → ∃ c rest out,
  utf8 cp = c :: rest ∧ 0 < c < 256 ∧
  escape_one c (utf8 cp ++ l) = (out, length (utf8 cp)) ∧ escape_ok out 2 (utf16 cp).
Proof.
  intros [Hcp Hsur]. unfold utf8, utf16.
  assert (Hseq : ∀ c bits n mask rest cp0, Z.land c 0xc0 = 0xc0 → utf8_lead c = Some (bits, n, mask) →
    continuation (n - 1) (c :: rest ++ l) 1 (Z.land c mask) = Some cp0 → bits ≤ 16 ∨ bits = 21 →
    length (c :: rest) = n →
    ∃ out, escape_one c ((c :: rest) ++ l) = (out, length (c :: rest)) ∧ escape_ok out 2 (code_units bits cp0)).
  { intros c bits n mask rest cp0 Hc Hl Hk Hb Hn. rewrite escape_one_lead, Hl by done.
    cbn [app]. rewrite Hk. destruct (code_point_escape_some bits cp0 Hb) as [out E]. rewrite E.
    exists out. split; [by rewrite Hn|]. by apply code_point_escape_ok. }
  destruct (Z.ltb_spec cp 128).
  { destruct (escape_one_plain cp l) as (out & E & Hok); [lia|]. exists cp, [], out.
    destruct (Z.ltb_spec cp 65536); [|lia]. split_and!; [done|lia|lia|done|apply (escape_ok_more _ 1); [done|lia]]. }
  destruct (Z.ltb_spec cp 2048).
  { assert (0 ≤ cp / 64 < 32 ∧ 0 ≤ cp mod 64 < 64 ∧ cp = cp / 64 * 64 + cp mod 64) as (Hq & Hr & E)
      by (Z.to_euclidean_division_equations; lia).
    destruct (lead2 _ Hq) as (Hc & Hl & Hm).
    destruct (Hseq _ _ _ _ [0x80 + cp mod 64] cp Hc Hl) as (out & Eo & Hok); [|lia|done|].
    { rewrite Hm. cbn [Nat.sub]. rewrite (continuation_step _ _ _ _ (cp mod 64) l); simpl; try done; try lia.
      by rewrite <-E. }
    eexists _, _, out. split_and!; [done|lia|lia|exact Eo|]. destruct (Z.ltb_spec cp 65536); [|lia].
    unfold code_units in Hok. simpl in Hok. by rewrite Z.mod_small in Hok by lia. }
  destruct (Z.ltb_spec cp 65536).
  { assert (0 ≤ cp / 4096 < 16 ∧ 0 ≤ cp / 64 mod 64 < 64 ∧ 0 ≤ cp mod 64 < 64 ∧
      cp = (cp / 4096 * 64 + cp / 64 mod 64) * 64 + cp mod 64) as (Hq & Hr1 & Hr & E)
      by (Z.to_euclidean_division_equations; lia).
    destruct (lead3 _ Hq) as (Hc & Hl & Hm).
    destruct (Hseq _ _ _ _ [0x80 + cp / 64 mod 64; 0x80 + cp mod 64] cp Hc Hl) as (out & Eo & Hok); [|lia|done|].
    { rewrite Hm. cbn [Nat.sub].
      rewrite (continuation_step _ _ _ _ (cp / 64 mod 64) ((0x80 + cp mod 64) :: l)); simpl length; try done; try lia.
      rewrite (continuation_step _ _ _ _ (cp mod 64) l); simpl length; try done; try lia. simpl. by rewrite <-E. }
    eexists _, _, out. split_and!; [done|lia|lia|exact Eo|].
    unfold code_units in Hok. simpl in Hok. by rewrite Z.mod_small in Hok by lia. }
  assert (0 ≤ cp / 262144 < 8 ∧ 0 ≤ cp / 4096 mod 64 < 64 ∧ 0 ≤ cp / 64 mod 64 < 64 ∧ 0 ≤ cp mod 64 < 64 ∧
    cp = ((cp / 262144 * 64 + cp / 4096 mod 64) * 64 + cp / 64 mod 64) * 64 + cp mod 64) as (Hq & Hr2 & Hr1 & Hr & E)
    by (Z.to_euclidean_division_equations; lia).
  destruct (lead4 _ Hq) as (Hc & Hl & Hm).
  destruct (Hseq _ _ _ _ [0x80 + cp / 4096 mod 64; 0x80 + cp / 64 mod 64; 0x80 + cp mod 64] cp Hc Hl)
    as (out & Eo & Hok); [|lia|done|].
  { rewrite Hm. cbn [Nat.sub].
    rewrite (continuation_step _ _ _ _ (cp / 4096 mod 64) ((0x80 + cp / 64 mod 64) :: (0x80 + cp mod 64) :: l));
      simpl length; try done; try lia.
    rewrite (continuation_step _ _ _ _ (cp / 64 mod 64) ((0x80 + cp mod 64) :: l)); simpl length; try done; try lia.
    rewrite (continuation_step _ _ _ _ (cp mod 64) l); simpl length; try done; try lia. simpl. by rewrite <-E. }
  eexists _, _, out. split_and!; [done|lia|lia|exact Eo|].
  unfold code_units in Hok. simpl in Hok. rewrite u32_small in Hok by lia.
  rewrite Z.mod_small in Hok; [done|]. Z.to_euclidean_division_equations. lia.
Qed.

Lemma escape_loop_utf8 cps fuel : Forall scalar_value cps → (length (flat_map utf8 cps) ≤ fuel)%nat →
  ∀ tail, json_chars (escape_loop fuel (flat_map utf8 cps) ++ tail) =
          app (flat_map utf16 cps) <$> json_chars tail.
Proof.
  revert fuel. induction cps as [|cp cps IH]; intros fuel Hcps Hf tail.
  { simpl. destruct fuel; simpl; by destruct (json_chars tail). }
  apply Forall_cons in Hcps as [Hcp Hcps]. cbn [flat_map] in Hf |- *.
  destruct (escape_one_utf8 cp (flat_map utf8 cps) Hcp) as (c & rest & out & Eu & Hc & Eo & Hok).
  rewrite length_app in Hf. destruct fuel as [|fuel]; [rewrite Eu in Hf; simpl in Hf; lia|].
  assert (escape_loop (S fuel) (utf8 cp ++ flat_map utf8 cps) =
    out ++ escape_loop fuel (flat_map utf8 cps)) as ->.
  { rewrite Eu in *. cbn [app escape_loop]. destruct (Z.eqb_spec c 0); [lia|].
    cbn [app] in Eo. rewrite Eo. by rewrite <-Eu, app_comm_cons, <-Eu, drop_app_length. }
  rewrite <-app_assoc, (eo_read _ _ _ Hok), IH.
  - destruct (json_chars tail); [|done]. simpl. by rewrite <-app_assoc.
  - done.
  - rewrite Eu in Hf. simpl in Hf. lia.
Qed.

(** ** Properties *)

(** C32: escaping loses nothing. The string that [nr_json_escape] writes for the
    UTF-8 encoding of any sequence of Unicode characters (NUL excepted) is a JSON string, and a JSON
    reader gets from it the UTF-16 units of exactly these characters. *)
Theorem nr_json_escape_reads_back (cps : list Z) :
  Forall scalar_value cps →
  json_string (escaped (Some (flat_map utf8 cps))) = Some (flat_map utf16 cps).
Proof.
  intros Hcps. unfold escaped. simpl. rewrite escape_loop_utf8 by done. simpl. by rewrite app_nil_r.
Qed.

(** The quote, the euro sign and a face: one, three and four bytes. *)
Lemma nr_json_escape_reads_back_witness :
  json_string (escaped (Some [34; 226; 130; 172; 240; 159; 152; 130])) = Some [34; 0x20ac; 0xd83d; 0xde02].
Proof.
  apply (nr_json_escape_reads_back [34; 0x20ac; 0x1f602]). unfold scalar_value.
  repeat (apply Forall_cons_2; [lia|]). constructor.
Defined.

(** escaping any bytes is safe. For every C string, malformed UTF-8 too,
    and memory with the space that [nr_buffer_add_escape_json] reserves for it, [nr_json_escape] stays within
    that space (no byte after the terminator changes), returns the length of what it wrote, and what
    it wrote is a JSON string of printable ASCII characters. *)
Theorem nr_json_escape_safe (d s : list Z) :
  is_cstr s → 6 * nr_strlen (Some s) + 3 ≤ Z.of_nat (length d) →
  ∃ out, nr_json_escape (Some d) (Some s) =
      (Z.of_nat (length out), Some (out ++ [0] ++ drop (length out + 1) d)) ∧
    Z.of_nat (length out) + 1 ≤ 6 * nr_strlen (Some s) + 3 ∧
    Forall printable out ∧ is_Some (json_string out).
Proof.
  intros Hs Hd. unfold nr_strlen in *. rewrite cstr_id in * by done.
  destruct (escaped_ok s Hs) as (units & Hr & Hp & Hl). exists (escaped (Some s)).
  unfold nr_json_escape. split_and!; [|lia|done|by rewrite Hr].
  rewrite inserts_0 by (rewrite length_app; cbn [length]; lia). by rewrite length_app, <-app_assoc.
Qed.

(** A byte that is not UTF-8 between two letters. *)
Lemma nr_json_escape_safe_witness :
  nr_json_escape (Some (replicate 22 7)) (Some [97; 200; 98]) =
    (10, Some ([34; 97; 92; 117; 48; 48; 99; 56; 98; 34] ++ [0] ++ replicate 11 7)) ∧
  is_Some (json_string [34; 97; 92; 117; 48; 48; 99; 56; 98; 34]).
Proof.
  destruct (nr_json_escape_safe (replicate 22 7) [97; 200; 98]) as (out & E & _ & _ & Hj).
  { repeat (apply Forall_cons_2; [lia|]). constructor. } { by vm_compute. }
  assert (nr_json_escape (Some (replicate 22 7)) (Some [97; 200; 98]) =
    (10, Some ([34; 97; 92; 117; 48; 48; 99; 56; 98; 34] ++ [0] ++ replicate 11 7))) as E' by (by vm_compute).
  split; [exact E'|]. eexists. vm_compute. reflexivity.
Defined.
