(* ===== verification/Buffer.v ===== *)
(** * Buffer: byte buffers (src/axiom/util_buffer.c)

    A buffer is written at its end and read at its front; [bptr] is the first
    unread byte.  The C [int]s are unbounded integers here, and a theorem shows
    that they stay in range. *)

From S2P Require Import Prelude Memory CString Strings Json.
Local Open Scope Z_scope.

(** ** State *)
Record nrbuf_t := Buf {
  avail : Z;
  bsize : Z;
  bptr : Z;
  extsize : Z;
  buf : list Z;
}.

Section buffer.
Context `{Allocator Z}.
Implicit Types (bp : nrbuf_t) (bufp : option nrbuf_t).

(** ** Operations *)
Definition nr_buffer_len bufp : Z := match bufp with None => -1 | Some bp => avail bp end.

(** The memory from the pointer returned on. *)
Definition nr_buffer_cptr bufp : option (list Z) :=
  match bufp with
  | None => None
  | Some bp => if avail bp <=? 0 then None else Some (drop (Z.to_nat (bptr bp)) (buf bp))
  end.

Definition nr_buffer_reset bufp : option nrbuf_t :=
  (λ bp, Buf 0 (bsize bp) 0 (extsize bp) (buf bp)) <$> bufp.

Definition nr_buffer_create (estsize ext : Z) : nrbuf_t :=
  let estsize := if estsize <? 1024 then 1024 else estsize in
  let ext := if ext <=? 0 then estsize / 3 else ext in
  let ext := if ext <? 512 then 512 else ext in
  Buf 0 estsize 0 ext (resize [] (Z.to_nat estsize)).

(** The part [nr_buffer_add] and [nr_buffer_ensure] share: grow the memory when
    it looks too small, then move the unread bytes to the front. *)
Definition enlarge bp (bytes_needed : Z) : nrbuf_t :=
  let bytes_remaining := bsize bp - avail bp in
  if bytes_remaining <? bytes_needed then
    let bytes_extra := bytes_needed - bytes_remaining in
    let bsize' := if bytes_extra <? extsize bp then bsize bp + extsize bp
                  else bsize bp + (bytes_extra / extsize bp + 1) * extsize bp in
    Buf (avail bp) bsize' (bptr bp) (extsize bp) (resize (buf bp) (Z.to_nat bsize'))
  else bp.

Definition move_to_front bp : nrbuf_t :=
  if bptr bp =? 0 then bp
  else Buf (avail bp) (bsize bp) 0 (extsize bp)
         (nr_memmove (buf bp) 0 (Z.to_nat (bptr bp)) (Z.to_nat (avail bp))).

Definition make_room bp (dlen : Z) : nrbuf_t := move_to_front (enlarge bp (dlen + avail bp)).

Definition nr_buffer_add bufp (data : option (list Z)) (dlen : Z) : option nrbuf_t :=
  match bufp with
  | None => None
  | Some bp =>
      if dlen <=? 0 then bufp
      else
        let bp := make_room bp dlen in
        let b := match data with
                 | Some d => list_inserts (Z.to_nat (avail bp)) (take (Z.to_nat dlen) d) (buf bp)
                 | None => buf bp
                 end in
        Some (Buf (avail bp + dlen) (bsize bp) (bptr bp) (extsize bp) b)
  end.

(** The pointer returned is that of the first free byte. *)
Definition nr_buffer_ensure bp (reqsize : Z) : nrbuf_t := make_room bp reqsize.

Definition nr_buffer_add_escape_json bufp (raw_string : option (list Z)) : option nrbuf_t :=
  match bufp, raw_string with
  | Some bp, Some raw =>
      let bp := nr_buffer_ensure bp (nr_strlen raw_string * 6 + 3) in
      let a := Z.to_nat (avail bp) in
      let '(escaped_len, dest) := nr_json_escape (Some (drop a (buf bp))) (Some raw) in
      let bp := Buf (avail bp) (bsize bp) (bptr bp) (extsize bp)
                  (take a (buf bp) ++ default [] dest) in
      nr_buffer_add (Some bp) None escaped_len
  | _, _ => bufp
  end.

(** The number returned, the bytes copied to [destp], and the buffer. *)
Definition nr_buffer_use bufp (dlen : Z) : Z * list Z * option nrbuf_t :=
  match bufp with
  | None => (-1, [], None)
  | Some bp =>
      if dlen <? 0 then (-1, [], bufp)
      else
        let dlen := if avail bp <? dlen then avail bp else dlen in
        let copied := take (Z.to_nat dlen) (drop (Z.to_nat (bptr bp)) (buf bp)) in
        let avail' := avail bp - dlen in
        (dlen, copied, Some (Buf avail' (bsize bp) (if avail' =? 0 then 0 else bptr bp + dlen)
                               (extsize bp) (buf bp)))
  end.

(** The caller's pointer afterwards. *)
Definition nr_buffer_destroy (bufp : option (option nrbuf_t)) : option (option nrbuf_t) :=
  (λ _, None) <$> bufp.

Definition uint8 (v : Z) : Z := v mod 256.

Definition nr_buffer_write_uint32_t_le bufp (val : Z) : option nrbuf_t :=
  nr_buffer_add bufp (Some [uint8 (Z.shiftr val 0); uint8 (Z.shiftr val 8);
                            uint8 (Z.shiftr val 16); uint8 (Z.shiftr val 24)]) 4.

Definition nr_buffer_write_uint64_t_as_text bufp (val : Z) : option nrbuf_t :=
  match bufp with
  | None => None
  | Some _ => nr_buffer_add bufp (Some (decimal val)) (Z.of_nat (length (decimal val)))
  end.

(** The value written to [val], [None] for [NR_FAILURE]; [out] says whether [val]
    is a pointer. *)
Definition nr_buffer_read_uint32_t_le bufp (out : bool) : option Z * option nrbuf_t :=
  match bufp with
  | None => (None, None)
  | Some _ =>
      if negb out then (None, bufp)
      else let '(n, bytes, bufp) := nr_buffer_use bufp 4 in
      if negb (n =? 4) then (None, bufp)
      else
        let x := Z.lor 0 (Z.shiftl (char_at bytes 0) 0) in
        let x := Z.lor x (u32 (Z.shiftl (char_at bytes 1) 8)) in
        let x := Z.lor x (u32 (Z.shiftl (char_at bytes 2) 16)) in
        let x := Z.lor x (u32 (Z.shiftl (char_at bytes 3) 24)) in
        (Some x, bufp)
  end.

Definition nr_buffer_peek_end bufp : Z :=
  match bufp with
  | None => 0
  | Some bp => if avail bp =? 0 then 0 else char_at (buf bp) (avail bp - 1)
  end.
End buffer.

(** ** The bytes in a buffer *)
Definition contents (bp : nrbuf_t) : list Z :=
  take (Z.to_nat (avail bp)) (drop (Z.to_nat (bptr bp)) (buf bp)).

Record buf_inv (bp : nrbuf_t) : Prop := {
  bi_avail : 0 ≤ avail bp;
  bi_bptr : 0 ≤ bptr bp;
  bi_fits : bptr bp + avail bp ≤ bsize bp;
  bi_length : length (buf bp) = Z.to_nat (bsize bp);
  bi_ext : 512 ≤ extsize bp;
}.

Lemma buffer_length_contents bp : buf_inv bp → length (contents bp) = Z.to_nat (avail bp).
Proof. intros [? ? ? ? ?]. unfold contents. rewrite length_take, length_drop. lia. Qed.

Section buffer_proofs.
Context `{Allocator Z}.
Implicit Types (bp : nrbuf_t).

Lemma resize_grow (es : list Z) n : (length es ≤ n)%nat → ∃ r, resize es n = es ++ r.
Proof. intros. unfold resize. rewrite take_ge by lia. eauto. Qed.

(** What growing and moving keep, and the room they make. *)
Record roomy bp bp' (dlen : Z) : Prop := {
  ro_inv : buf_inv bp';
  ro_contents : contents bp' = contents bp;
  ro_avail : avail bp' = avail bp;
  ro_ext : extsize bp' = extsize bp;
  ro_room : dlen + 2 * avail bp ≤ bsize bp';
  ro_size : bsize bp' ≤ Z.max (bsize bp) (dlen + 2 * avail bp + extsize bp);
  ro_grows : bsize bp ≤ bsize bp';
}.

Lemma enlarge_roomy bp dlen : buf_inv bp → 0 ≤ dlen → roomy bp (enlarge bp (dlen + avail bp)) dlen.
Proof.
  intros Hb Hd. pose proof Hb as [Ha Hp Hf Hl He]. unfold enlarge.
  destruct (Z.ltb_spec (bsize bp - avail bp) (dlen + avail bp)); [|by split; try done; lia].
  set (extra := dlen + avail bp - (bsize bp - avail bp)).
  set (b' := if extra <? extsize bp then _ else _).
  assert (dlen + 2 * avail bp ≤ b' ≤ dlen + 2 * avail bp + extsize bp ∧ bsize bp ≤ b') as [? ?].
  { unfold b'. destruct (Z.ltb_spec extra (extsize bp)); [lia|].
    pose proof (Z.mul_div_le extra (extsize bp)). pose proof (Z.mul_succ_div_gt extra (extsize bp)). lia. }
  destruct (resize_grow (buf bp) (Z.to_nat b')) as [r Er]; [lia|].
  split; try done; simpl; try lia.
  - split; simpl; try lia. by rewrite length_resize.
  - unfold contents. simpl. rewrite Er, drop_app_le, take_app_le by (rewrite ?length_drop; lia). done.
Qed.

Lemma move_roomy bp bp' dlen : roomy bp bp' dlen → roomy bp (move_to_front bp') dlen ∧ bptr (move_to_front bp') = 0.
Proof.
  intros [[Ha Hp Hf Hl He] Hc Hav Hex Hr Hs Hg]. unfold move_to_front.
  destruct (Z.eqb_spec (bptr bp') 0); [done|]. split; [|done]. split; try done.
  - split; simpl; try lia. by rewrite length_memmove.
  - rewrite <-Hc. unfold contents, nr_memmove. simpl. rewrite drop_0, inserts_0
      by (rewrite length_take, length_drop; lia).
    apply take_app_length'. rewrite length_take, length_drop. lia.
Qed.

Lemma make_room_spec bp dlen : buf_inv bp → 0 ≤ dlen →
  roomy bp (make_room bp dlen) dlen ∧ bptr (make_room bp dlen) = 0.
Proof. intros. by apply move_roomy, enlarge_roomy. Qed.

Lemma contents_at_0 bp : bptr bp = 0 → contents bp = take (Z.to_nat (avail bp)) (buf bp).
Proof. intros E. unfold contents. by rewrite E. Qed.

Lemma buffer_add_spec bp d dlen : buf_inv bp → 0 ≤ dlen → dlen ≤ Z.of_nat (length d) →
  ∃ bp', nr_buffer_add (Some bp) (Some d) dlen = Some bp' ∧ buf_inv bp' ∧
    contents bp' = contents bp ++ take (Z.to_nat dlen) d ∧ extsize bp' = extsize bp ∧
    bsize bp' ≤ Z.max (bsize bp) (dlen + 2 * avail bp + extsize bp).
Proof.
  intros Hb Hd Hl. unfold nr_buffer_add. destruct (Z.leb_spec dlen 0).
  { exists bp. replace dlen with 0 by lia. rewrite app_nil_r. split_and!; done || lia. }
  destruct (make_room_spec bp dlen Hb Hd) as [[[Ha Hp Hf Hlen He] Hc Hav Hex Hr Hs Hg] Hb0].
  set (b := make_room bp dlen) in *. eexists. split; [done|]. rewrite <-Hc, (contents_at_0 b) by done.
  split_and!; [| |done|done].
  - split; simpl; try lia. by rewrite length_inserts.
  - rewrite contents_at_0 by done. simpl. rewrite inserts_app by (rewrite length_take; lia).
    rewrite app_assoc. apply take_app_length'. rewrite length_app, !length_take. lia.
Qed.

Lemma ensure_add_spec bp raw : buf_inv bp → is_cstr raw →
  ∃ bp', nr_buffer_add_escape_json (Some bp) (Some raw) = Some bp' ∧ buf_inv bp' ∧
    contents bp' = contents bp ++ escaped (Some raw) ∧ extsize bp' = extsize bp ∧
    bsize bp' ≤ Z.max (bsize bp) (nr_strlen (Some raw) * 6 + 3 + 2 * avail bp + extsize bp).
Proof.
  intros Hb Hraw. destruct (escaped_ok raw Hraw) as (_ & _ & _ & Hel).
  unfold nr_buffer_add_escape_json, nr_strlen, nr_buffer_ensure in *. rewrite cstr_id by done.
  set (req := Z.of_nat (length raw) * 6 + 3).
  destruct (make_room_spec bp req Hb) as [[[Ha Hp Hf Hlen He] Hc Hav Hex Hr Hs Hg] Hb0]; [lia|].
  set (b := make_room bp req) in *. unfold nr_json_escape.
  set (out := escaped (Some raw)) in *. set (n := length out) in *.
  assert (Z.of_nat n + 1 ≤ req) as Hnr by (unfold n, req; lia).
  set (b1 := Buf _ _ _ _ (_ ++ _)).
  assert (take (Z.to_nat (avail b) + n) (buf b1) = contents b ++ out) as Hbuf.
  { unfold b1. cbn [buf default from_option id]. rewrite inserts_0
      by (rewrite length_app, length_drop; cbn [length]; lia).
    rewrite <-(contents_at_0 b) by done. rewrite <-app_assoc, app_assoc. apply take_app_length'.
    rewrite length_app, buffer_length_contents by (by split). done. }
  assert (buf_inv b1) as Hb1.
  { split; unfold b1; cbn [avail bsize bptr extsize buf default from_option id]; try lia.
    rewrite length_app, length_inserts, length_take, length_drop. lia. }
  unfold nr_buffer_add. assert (0 < n)%nat by (unfold n, out, escaped; simpl; lia).
  destruct (Z.leb_spec (Z.of_nat n) 0); [lia|].
  assert (make_room b1 (Z.of_nat n) = b1) as ->.
  { unfold make_room, enlarge, b1. cbn [avail bsize].
    destruct (Z.ltb_spec (bsize b - avail b) (Z.of_nat n + avail b)); [lia|].
    unfold move_to_front. cbn [bptr]. by rewrite Hb0. }
  eexists. split; [done|]. split_and!; [|..|done|done].
  - destruct Hb1. split; cbn [avail bsize bptr extsize buf]; unfold b1 in *; cbn [avail bsize bptr extsize] in *; try lia; try done.
  - rewrite contents_at_0 by done. change (take (Z.to_nat (avail b + Z.of_nat n)) (buf b1) = contents bp ++ out).
    rewrite Z2Nat.inj_add, Nat2Z.id, Hbuf by lia. by rewrite Hc.
Qed.

Lemma buffer_use_spec bp dlen : buf_inv bp → 0 ≤ dlen →
  let k := Z.to_nat (Z.min dlen (avail bp)) in
  ∃ bp', nr_buffer_use (Some bp) dlen = (Z.of_nat k, take k (contents bp), Some bp') ∧ buf_inv bp' ∧
    contents bp' = drop k (contents bp) ∧ extsize bp' = extsize bp ∧ bsize bp' = bsize bp.
Proof.
  intros Hb Hd k. pose proof Hb as [Ha Hp Hf Hl He]. unfold nr_buffer_use.
  destruct (Z.ltb_spec dlen 0); [lia|].
  assert ((if avail bp <? dlen then avail bp else dlen) = Z.of_nat k) as -> by (unfold k; bool_cases).
  rewrite Nat2Z.id. eexists. split.
  { unfold contents. rewrite take_take. replace (k `min` Z.to_nat (avail bp))%nat with k by lia. done. }
  split_and!; [| |done|done].
  - split; simpl; try done; bool_cases; lia.
  - unfold contents. simpl. rewrite skipn_firstn_comm, drop_drop.
    destruct (Z.eqb_spec (avail bp - Z.of_nat k) 0) as [E|].
    + rewrite E. replace (Z.to_nat (avail bp) - k)%nat with 0%nat by lia. done.
    + f_equal; [lia|]. f_equal. lia.
Qed.

(** ** Little-endian numbers *)
Definition le32 (v : Z) : list Z := [v mod 256; v / 256 mod 256; v / 65536 mod 256; v / 16777216 mod 256].
Definition of_le32 (b : list Z) : Z :=
  char_at b 0 + 256 * char_at b 1 + 65536 * char_at b 2 + 16777216 * char_at b 3.

Lemma read_le32 b0 b1 b2 b3 : is_byte b0 → is_byte b1 → is_byte b2 → is_byte b3 →
  Z.lor (Z.lor (Z.lor (Z.lor 0 (Z.shiftl b0 0)) (u32 (Z.shiftl b1 8))) (u32 (Z.shiftl b2 16)))
    (u32 (Z.shiftl b3 24)) = of_le32 [b0; b1; b2; b3].
Proof.
  unfold is_byte. intros. rewrite Z.shiftl_0_r, Z.lor_0_l, !Z.shiftl_mul_pow2 by lia.
  rewrite !u32_small by lia. rewrite (lor_add_shift b0) by lia.
  rewrite (lor_add_shift _ b2) by lia. rewrite (lor_add_shift _ b3) by lia.
  unfold of_le32, char_at. simpl. lia.
Qed.

Lemma write_le32 v :
  [uint8 (Z.shiftr v 0); uint8 (Z.shiftr v 8); uint8 (Z.shiftr v 16); uint8 (Z.shiftr v 24)] = le32 v.
Proof. unfold uint8, le32. rewrite Z.shiftr_0_r, !Z.shiftr_div_pow2 by lia. done. Qed.

Lemma le32_roundtrip v : of_le32 (le32 v) = u32 v.
Proof.
  unfold of_le32, le32, char_at, u32. simpl. Z.to_euclidean_division_equations. lia.
Qed.

Lemma le32_bytes v : Forall is_byte (le32 v).
Proof. unfold le32. repeat constructor; apply Z.mod_pos_bound; lia. Qed.

(** ** Runs of operations on a buffer, and on a queue of bytes *)
Inductive buf_op :=
| Append (data : list Z)
| AppendJson (raw : list Z)
| WriteU32 (v : Z)
| WriteU64 (v : Z)
| Use (n : Z)
| ReadU32
| Reset
| Len.

Inductive buf_result := RUnit | RLen (n : Z) | RUsed (n : Z) (bytes : list Z) | RU32 (v : option Z).

Definition op_ok (op : buf_op) : Prop :=
  match op with
  | Append d => Forall is_byte d
  | AppendJson s => is_cstr s
  | WriteU32 v => 0 ≤ v < 2 ^ 32
  | WriteU64 v => 0 ≤ v < 2 ^ 64
  | _ => True
  end.

(** The space an operation may ask for. *)
Definition cost (op : buf_op) : Z :=
  match op with
  | Append d => Z.of_nat (length d)
  | AppendJson s => Z.of_nat (length s) * 6 + 3
  | WriteU32 _ => 4
  | WriteU64 _ => 20
  | _ => 0
  end.

Definition exec (op : buf_op) (b : option nrbuf_t) : buf_result * option nrbuf_t :=
  match op with
  | Append d => (RUnit, nr_buffer_add b (Some d) (Z.of_nat (length d)))
  | AppendJson s => (RUnit, nr_buffer_add_escape_json b (Some s))
  | WriteU32 v => (RUnit, nr_buffer_write_uint32_t_le b v)
  | WriteU64 v => (RUnit, nr_buffer_write_uint64_t_as_text b v)
  | Use n => let '(k, bytes, b) := nr_buffer_use b n in (RUsed k bytes, b)
  | ReadU32 => let '(v, b) := nr_buffer_read_uint32_t_le b true in (RU32 v, b)
  | Reset => (RUnit, nr_buffer_reset b)
  | Len => (RLen (nr_buffer_len b), b)
  end.

(** A failed read of a number uses up the bytes that are there. *)
Definition spec (op : buf_op) (l : list Z) : buf_result * list Z :=
  match op with
  | Append d => (RUnit, l ++ d)
  | AppendJson s => (RUnit, l ++ escaped (Some s))
  | WriteU32 v => (RUnit, l ++ le32 v)
  | WriteU64 v => (RUnit, l ++ decimal v)
  | Use n =>
      if n <? 0 then (RUsed (-1) [], l)
      else let k := Z.to_nat (Z.min n (Z.of_nat (length l))) in (RUsed (Z.of_nat k) (take k l), drop k l)
  | ReadU32 =>
      if (length l <? 4)%nat then (RU32 None, []) else (RU32 (Some (of_le32 (take 4 l))), drop 4 l)
  | Reset => (RUnit, [])
  | Len => (RLen (Z.of_nat (length l)), l)
  end.

(** A buffer that holds [l], with its memory bounded. *)
Record holds (bp : nrbuf_t) (l : list Z) (limit : Z) : Prop := {
  ho_inv : buf_inv bp;
  ho_contents : contents bp = l;
  ho_bytes : Forall is_byte l;
  ho_size : bsize bp ≤ limit;
}.

Lemma avail_length bp : buf_inv bp → avail bp = Z.of_nat (length (contents bp)).
Proof. intros Hb. rewrite buffer_length_contents by done. pose proof (bi_avail _ Hb). lia. Qed.

Lemma add_holds bp l d limit total : holds bp l limit → Forall is_byte d →
  Z.of_nat (length l + length d) ≤ total → 2 * total + extsize bp ≤ limit →
  ∃ bp', nr_buffer_add (Some bp) (Some d) (Z.of_nat (length d)) = Some bp' ∧ holds bp' (l ++ d) limit ∧
    extsize bp' = extsize bp.
Proof.
  intros [Hb Hc Hl Hs] Hd Ht Hlim. pose proof (avail_length bp Hb) as Ha. rewrite Hc in Ha.
  destruct (buffer_add_spec bp d (Z.of_nat (length d)) Hb) as (bp' & E & Hb' & Hc' & He & Hs'); [lia..|].
  exists bp'. split_and!; [done| |done]. split; [done| |by apply Forall_app|lia].
  rewrite Hc', Hc, Nat2Z.id. by rewrite take_ge.
Qed.

Lemma printable_byte l : Forall printable l → Forall is_byte l.
Proof. intros Hl. eapply Forall_impl; [exact Hl|]. unfold printable, is_byte. intros; simpl in *; lia. Qed.

Lemma exec_holds op bp l limit total : holds bp l limit → op_ok op →
  Z.of_nat (length l) + cost op ≤ total → 2 * total + extsize bp ≤ limit →
  ∃ r l' bp', exec op (Some bp) = (r, Some bp') ∧ spec op l = (r, l') ∧ holds bp' l' limit ∧
    extsize bp' = extsize bp ∧ Z.of_nat (length l') ≤ Z.of_nat (length l) + cost op.
Proof.
  intros Hh Hop Ht Hlim. pose proof Hh as [Hb Hc Hl Hs]. pose proof (avail_length bp Hb) as Ha. rewrite Hc in Ha.
  destruct op as [d|s|v|v|n| | |]; cbn [exec spec op_ok cost] in *.
  - destruct (add_holds bp l d limit total Hh) as (bp' & E & ? & ?); [done|lia|done|].
    eexists _, _, bp'. rewrite E. split_and!; [done..|]. rewrite length_app. lia.
  - destruct (ensure_add_spec bp s Hb Hop) as (bp' & E & Hb' & Hc' & He & Hs').
    destruct (escaped_ok s Hop) as (_ & _ & Hp & Hel).
    unfold nr_strlen in Hs'. rewrite cstr_id in Hs' by done.
    eexists _, _, bp'. rewrite E. split_and!; [done|done| |done|rewrite length_app; lia].
    split; [done|by rewrite Hc', Hc|apply Forall_app; split; [done|by apply printable_byte]|lia].
  - unfold nr_buffer_write_uint32_t_le. rewrite write_le32.
    destruct (add_holds bp l (le32 v) limit total Hh) as (bp' & E & ? & ?); [apply le32_bytes|simpl; lia|done|].
    change (Z.of_nat (length (le32 v))) with 4 in E. eexists _, _, bp'. rewrite E. split_and!; [done..|]. rewrite length_app. simpl. lia.
  - destruct (decimal_spec v Hop) as (Hdl & Hd & _).
    destruct (add_holds bp l (decimal v) limit total Hh) as (bp' & E & ? & ?); [|lia|done|].
    { eapply Forall_impl; [exact Hd|]. unfold is_byte. intros; simpl in *; lia. }
    eexists _, _, bp'. cbn [nr_buffer_write_uint64_t_as_text]. rewrite E. split_and!; [done..|]. rewrite length_app. lia.
  - destruct (Z.ltb_spec n 0) as [Hn|Hn].
    { eexists _, _, bp. unfold nr_buffer_use. destruct (Z.ltb_spec n 0); [|lia]. split_and!; [done..|lia]. }
    destruct (buffer_use_spec bp n Hb Hn) as (bp' & E & Hb' & Hc' & He & Hs'). rewrite E, <-Ha, Hc in *.
    eexists _, _, bp'. split_and!; [done|done| |done|rewrite length_drop; lia].
    split; [done|done|by apply Forall_drop|lia].
  - destruct (buffer_use_spec bp 4 Hb) as (bp' & E & Hb' & Hc' & He & Hs'); [lia|].
    unfold nr_buffer_read_uint32_t_le. cbn [negb]. rewrite E, Hc in *.
    destruct (Nat.ltb_spec (length l) 4).
    + eexists _, _, bp'. destruct (Z.eqb_spec (Z.of_nat (Z.to_nat (Z.min 4 (avail bp)))) 4); [lia|].
      split_and!; [done|done| |done|simpl; lia]. split; [done| |constructor|lia].
      rewrite Hc', drop_ge by lia. done.
    + replace (Z.to_nat (Z.min 4 (avail bp))) with 4%nat in * by lia. simpl (negb _). cbv iota.
      destruct l as [|b0 [|b1 [|b2 [|b3 l]]]]; try (simpl in *; lia).
      repeat (apply Forall_cons in Hl as [? Hl]). eexists _, _, bp'.
      split; [|split_and!; [done| |done|rewrite length_drop; lia]].
      * unfold char_at. simpl. by rewrite read_le32.
      * split; [done|done|done|lia].
  - eexists _, _, _. split_and!; [done|done| |done|simpl; lia]. split; [|done|constructor|done].
    destruct Hb. split; simpl; try done; lia.
  - eexists _, _, bp. unfold nr_buffer_len. rewrite Ha. split_and!; [done..|lia].
Qed.

Lemma buffer_create_holds est ext : est ≤ 2 ^ 30 → ext ≤ 2 ^ 30 →
  holds (nr_buffer_create est ext) [] (2 ^ 30) ∧ extsize (nr_buffer_create est ext) ≤ 2 ^ 30.
Proof.
  intros He Hx. unfold nr_buffer_create.
  set (e := if est <? 1024 then 1024 else est). set (x := if ext <=? 0 then e / 3 else ext).
  assert (1024 ≤ e ≤ 2 ^ 30) by (unfold e; bool_cases).
  assert (e / 3 ≤ e) by (Z.to_euclidean_division_equations; lia).
  assert (x ≤ 2 ^ 30) by (unfold x; destruct (Z.leb_spec ext 0); lia).
  split; [|simpl; destruct (Z.ltb_spec x 512); lia].
  split; [|done|constructor|simpl; lia].
  split; simpl; try lia; [by rewrite length_resize|destruct (Z.ltb_spec x 512); lia].
Qed.

Definition total_cost (ops : list buf_op) : Z := foldr (λ op s, cost op + s) 0 ops.

Lemma cost_nonneg op : 0 ≤ cost op.
Proof. destruct op; simpl; lia. Qed.

Lemma total_cost_app a b : total_cost (a ++ b) = total_cost a + total_cost b.
Proof. unfold total_cost. rewrite foldr_app. induction a; simpl in *; lia. Qed.

Lemma run_holds ops est ext : est ≤ 2 ^ 30 → ext ≤ 2 ^ 30 → Forall op_ok ops → total_cost ops ≤ 2 ^ 28 →
  let '(rs, b) := run exec ops (Some (nr_buffer_create est ext)) in
  ∃ bp l, b = Some bp ∧ run spec ops [] = (rs, l) ∧ holds bp l (2 ^ 31 - 1) ∧
    extsize bp ≤ 2 ^ 30 ∧ Z.of_nat (length l) ≤ total_cost ops.
Proof.
  intros He Hx. induction ops as [|op ops IH] using rev_ind; intros Hops Hcost.
  { destruct (buffer_create_holds est ext He Hx) as [[? ? ? ?] ?]. eexists _, []. split_and!; try done.
    split; try done. lia. }
  rewrite total_cost_app in Hcost. pose proof (cost_nonneg op). simpl in Hcost.
  apply Forall_app in Hops as [Hops Hop]. apply Forall_cons in Hop as [Hop _].
  specialize (IH Hops ltac:(lia)). rewrite !run_snoc. destruct (run exec ops _) as [rs b].
  destruct IH as (bp & l & -> & -> & Hh & Hex & Hlen).
  destruct (exec_holds op bp l (2 ^ 31 - 1) (2 ^ 28) Hh Hop) as (r & l' & bp' & -> & -> & Hh' & He' & Hl');
    [lia|lia|].
  exists bp', l'. rewrite total_cost_app. simpl. split_and!; try done; lia.
Qed.

(** ** Appending text *)

(** A step that appends a text to any buffer. *)
Definition appends (f : option nrbuf_t → option nrbuf_t) (text : list Z) : Prop :=
  ∀ bp, buf_inv bp → ∃ bp', f (Some bp) = Some bp' ∧ buf_inv bp' ∧ contents bp' = contents bp ++ text.

Lemma appends_id : appends (λ b, b) [].
Proof. intros bp Hb. exists bp. by rewrite app_nil_r. Qed.

Lemma appends_then f g t u : appends f t → appends g u → appends (λ b, g (f b)) (t ++ u).
Proof.
  intros Hf Hg bp Hb. destruct (Hf bp Hb) as (b1 & E1 & H1 & C1). destruct (Hg b1 H1) as (b2 & E2 & H2 & C2).
  exists b2. by rewrite E1, E2, C2, C1, app_assoc.
Qed.

Lemma appends_add d n : n = Z.of_nat (length d) → appends (λ b, nr_buffer_add b (Some d) n) d.
Proof.
  intros -> bp Hb. destruct (buffer_add_spec bp d (Z.of_nat (length d)) Hb) as (bp' & E & Hb' & Hc & _); [lia..|].
  exists bp'. by rewrite E, Hc, Nat2Z.id, take_ge.
Qed.

Lemma appends_more d r n : n = Z.of_nat (length d) → appends (λ b, nr_buffer_add b (Some (d ++ r)) n) d.
Proof.
  intros -> bp Hb. destruct (buffer_add_spec bp (d ++ r) (Z.of_nat (length d)) Hb) as (bp' & E & Hb' & Hc & _);
    [lia|rewrite length_app; lia|].
  exists bp'. by rewrite E, Hc, Nat2Z.id, take_app_length.
Qed.

Lemma terminated_text f t est ext : appends f t → is_cstr t → est ≤ 2 ^ 30 → ext ≤ 2 ^ 30 →
  nr_strdup (nr_buffer_cptr (nr_buffer_add (f (Some (nr_buffer_create est ext))) (Some [0]) 1)) = t.
Proof.
  intros Hf Ht He Hx. destruct (buffer_create_holds est ext He Hx) as [[Hb Hc _ _] _].
  destruct (appends_then _ _ _ _ Hf (appends_add [0] 1 eq_refl) _ Hb) as (bp & -> & Hb' & Hc').
  rewrite Hc in Hc'. simpl in Hc'. unfold nr_buffer_cptr. pose proof (avail_length bp Hb') as Ha.
  rewrite Hc', length_app in Ha. simpl in Ha. destruct (Z.leb_spec (avail bp) 0); [lia|].
  unfold nr_strdup. cbn [default from_option id]. unfold contents in Hc'.
  rewrite <-(take_drop (Z.to_nat (avail bp)) (drop (Z.to_nat (bptr bp)) (buf bp))), Hc', <-app_assoc.
  by apply cstr_app.
Qed.
End buffer_proofs.

(** ** Properties *)

(** C34: a buffer is a queue of bytes. Whatever sequence of additions, JSON
    strings, numbers, reads and resets is run on a fresh buffer (at most 2^28 bytes asked for in all, and
    sizes up to 2^30 given to the constructor), every length, byte and number returned is that of a queue of bytes,
    short and negative reads included; the unread bytes are always the queue's; and the sizes that the C
    code keeps in an [int] never exceed its range, through every reallocation. *)
Theorem nr_buffer_refines_queue `{Allocator Z} (ops : list buf_op) (estsize ext : Z) :
  estsize ≤ 2 ^ 30 → ext ≤ 2 ^ 30 → Forall op_ok ops → total_cost ops ≤ 2 ^ 28 →
  let '(rs, b) := run exec ops (Some (nr_buffer_create estsize ext)) in
  ∃ bp l, b = Some bp ∧ run spec ops [] = (rs, l) ∧ contents bp = l ∧ buf_inv bp ∧
    bsize bp < 2 ^ 31 ∧ (l ≠ [] → ∃ rest, nr_buffer_cptr b = Some (l ++ rest)).
Proof.
  intros He Hx Hops Hc. pose proof (run_holds ops estsize ext He Hx Hops Hc) as Hr.
  destruct (run exec ops _) as [rs b]. destruct Hr as (bp & l & -> & E & [Hb Hcon Hl Hs] & _).
  exists bp, l. split_and!; try done; [lia|]. intros Hne. pose proof (avail_length bp Hb) as Ha.
  rewrite Hcon in Ha. unfold nr_buffer_cptr. destruct (Z.leb_spec (avail bp) 0).
  { destruct l; [done|simpl in Ha; lia]. }
  exists (drop (Z.to_nat (avail bp)) (drop (Z.to_nat (bptr bp)) (buf bp))).
  rewrite <-Hcon. unfold contents. by rewrite take_drop.
Qed.

Lemma nr_buffer_refines_queue_witness :
  let ops := [Append [1; 2; 3]; WriteU32 258; Use 3; WriteU64 907; ReadU32; Len; AppendJson [47]; Use 100; ReadU32] in
  (run (@exec (GenerousAllocator.allocator Z)) ops (Some (@nr_buffer_create (GenerousAllocator.allocator Z) 0 0))).1 =
  [RUnit; RUnit; RUsed 3 [1; 2; 3]; RUnit; RU32 (Some 258); RLen 3; RUnit;
   RUsed 7 [57; 48; 55; 34; 92; 47; 34]; RU32 None].
Proof.
  intros ops. pose proof (@nr_buffer_refines_queue (GenerousAllocator.allocator Z) ops 0 0) as Hw.
  assert (Hops : Forall op_ok ops).
  { unfold ops. repeat (apply Forall_cons_2;
      [simpl; try lia; unfold is_byte, is_cstr; repeat (apply Forall_cons_2; [lia|]); done|]). constructor. }
  specialize (Hw ltac:(lia) ltac:(lia) Hops ltac:(by vm_compute)).
  destruct (run exec ops _) as [rs b]. destruct Hw as (bp & l & _ & E & _). simpl.
  change rs with (rs, l).1. rewrite <-E. vm_compute. reflexivity.
Defined.

(** numbers survive the buffer. Whatever is in a buffer and is written
    after it, a 32-bit number written in little-endian order and read after the bytes in front of it is the number, and
    the text written for a 64-bit number is at most twenty digits which a decimal reader turns back into it. *)
Theorem nr_buffer_numbers_roundtrip `{Allocator Z} (before after : list Z) (v w : Z) :
  0 ≤ v < 2 ^ 32 → 0 ≤ w < 2 ^ 64 → Forall is_byte before → Forall is_byte after →
  Z.of_nat (length before + length after) < 2 ^ 20 →
  let ops := [Append before; WriteU32 v; WriteU64 w; Append after;
              Use (Z.of_nat (length before)); ReadU32; Use (Z.of_nat (length (decimal w)))] in
  ∃ digits bp, run exec ops (Some (nr_buffer_create 0 0)) =
    ([RUnit; RUnit; RUnit; RUnit; RUsed (Z.of_nat (length before)) before; RU32 (Some v);
      RUsed (Z.of_nat (length digits)) digits], Some bp) ∧
    contents bp = after ∧ (length digits ≤ 20)%nat ∧ Forall (λ c, 48 ≤ c < 58) digits ∧ of_decimal digits = w.
Proof.
  intros Hv Hw Hb Ha Hlen ops. destruct (decimal_spec w Hw) as (Hdl & Hd & Hdw).
  assert (Hops : Forall op_ok ops) by (unfold ops; repeat (apply Forall_cons_2; [done|]); constructor).
  assert (Hcost : total_cost ops ≤ 2 ^ 28) by (unfold ops, total_cost; simpl; lia).
  pose proof (run_holds ops 0 0 ltac:(lia) ltac:(lia) Hops Hcost) as Hr.
  destruct (run exec ops _) as [rs b]. destruct Hr as (bp & l & -> & E & [_ Hcon _ _] & _).
  exists (decimal w), bp. unfold ops, run in E. cbn [foldl spec app] in E.
  destruct (Z.ltb_spec (Z.of_nat (length before)) 0); [lia|].
  rewrite <-!app_assoc in E.
  replace (Z.to_nat (Z.min (Z.of_nat (length before)) _)) with (length before) in E
    by (rewrite length_app; lia).
  rewrite take_app_length, drop_app_length in E. cbn [spec] in E.
  destruct (Nat.ltb_spec (length (le32 v ++ decimal w ++ after)) 4) as [Hlt|_]; [simpl in Hlt; lia|].
  change (take 4 (le32 v ++ decimal w ++ after)) with (le32 v) in E.
  change (drop 4 (le32 v ++ decimal w ++ after)) with (decimal w ++ after) in E.
  rewrite le32_roundtrip, u32_small in E by done. cbn [spec] in E.
  destruct (Z.ltb_spec (Z.of_nat (length (decimal w))) 0); [lia|].
  replace (Z.to_nat (Z.min (Z.of_nat (length (decimal w))) _)) with (length (decimal w)) in E
    by (rewrite length_app; lia).
  rewrite take_app_length, drop_app_length in E. injection E as <- <-. by split_and!.
Qed.

Lemma nr_buffer_numbers_roundtrip_witness :
  let ops := [Append [1]; WriteU32 4294967295; WriteU64 18446744073709551615; Append [2];
              Use (Z.of_nat 1); ReadU32; Use (Z.of_nat (length (decimal 18446744073709551615)))] in
  ∃ digits bp, run (@exec (GenerousAllocator.allocator Z)) ops
      (Some (@nr_buffer_create (GenerousAllocator.allocator Z) 0 0)) =
    ([RUnit; RUnit; RUnit; RUnit; RUsed (Z.of_nat 1) [1]; RU32 (Some 4294967295);
      RUsed (Z.of_nat (length digits)) digits], Some bp) ∧
    contents bp = [2] ∧ of_decimal digits = 18446744073709551615.
Proof.
  intros ops.
  destruct (@nr_buffer_numbers_roundtrip (GenerousAllocator.allocator Z) [1] [2] 4294967295 18446744073709551615)
    as (digits & bp & E & Hc & _ & _ & Hd); [lia|lia|by repeat constructor|by repeat constructor|by vm_compute|].
  exists digits, bp. split; [exact E|]. by split.
Defined.

(** [nr_buffer_peek_end] is the last byte only of a buffer from which
    nothing was read since the last addition. On a buffer whose unread bytes start at the front it returns
    the last of them, 0 when there are none; after a read it can return another byte: with 1, 2, 3 added
    and one byte read, it returns 2 and not 3. *)
Theorem nr_buffer_peek_end_front `{Allocator Z} (bp : nrbuf_t) :
  buf_inv bp → bptr bp = 0 →
  nr_buffer_peek_end (Some bp) = default 0 (last (contents bp)) ∧
  ∃ bp', (run exec [Append [1; 2; 3]; Use 1] (Some (nr_buffer_create 0 0))).2 = Some bp' ∧
    contents bp' = [2; 3] ∧ nr_buffer_peek_end (Some bp') = 2.
Proof.
  intros Hb H0. pose proof (avail_length bp Hb) as Ha. split.
  - unfold nr_buffer_peek_end. rewrite last_lookup. destruct (Z.eqb_spec (avail bp) 0).
    + destruct (contents bp); [done|simpl in Ha; lia].
    + rewrite contents_at_0 in * by done. unfold char_at. f_equal.
      rewrite lookup_take_lt by lia. f_equal. lia.
  - eexists. split; [reflexivity|]. split; [by vm_compute|].
    unfold nr_buffer_peek_end, char_at. simpl. by vm_compute.
Qed.

Lemma nr_buffer_peek_end_front_witness :
  @nr_buffer_peek_end (Some (@nr_buffer_create (GenerousAllocator.allocator Z) 0 0)) = 0.
Proof.
  destruct (@nr_buffer_peek_end_front (GenerousAllocator.allocator Z)
    (@nr_buffer_create (GenerousAllocator.allocator Z) 0 0)) as [E _]; [|done|exact E].
  apply buffer_create_holds; lia.
Defined.
