(* ===== verification/Base64.v ===== *)
(** * Base64: base 64 and the obfuscation built on it
    (src/axiom/util_base64.c, .h, src/axiom/util_obfuscate.c) *)

From S2P Require Import Prelude CString.
Local Open Scope Z_scope.

(** ** Encoding *)

(** [A-Za-z0-9+/] *)
Definition table64 : list Z := seqZ 65 26 ++ seqZ 97 26 ++ seqZ 48 10 ++ [43; 47].

Definition nr_b64_get_table : list Z := table64.

Definition nr_b64_is_valid_character (c : Z) : bool :=
  (61 =? c) || (47 =? c) || (43 =? c) || ((48 <=? c) && (c <=? 57)) ||
  ((97 <=? c) && (c <=? 122)) || ((65 <=? c) && (c <=? 90)).

(** The four six-bit values of three bytes. *)
Definition obuf (a b c : Z) : list Z :=
  [Z.shiftr (Z.land a 0xfc) 2;
   Z.lor (Z.shiftl (Z.land a 0x03) 4) (Z.shiftr (Z.land b 0xf0) 4);
   Z.lor (Z.shiftl (Z.land b 0x0f) 2) (Z.shiftr (Z.land c 0xc0) 6);
   Z.land c 0x3f].

(** What is printed for [isegments] bytes: the missing ones count as 0, their
    characters are padding. *)
Definition encode_quantum (isegments : nat) (a b c : Z) : list Z :=
  let chars := char_at table64 <$> obuf a b c in
  match isegments with
  | 1%nat => take 2 chars ++ [61; 61]
  | 2%nat => take 3 chars ++ [61]
  | _ => chars
  end.

Fixpoint encode_loop (data : list Z) : list Z :=
  match data with
  | [] => []
  | [a] => encode_quantum 1 a 0 0
  | [a; b] => encode_quantum 2 a b 0
  | a :: b :: c :: data => encode_quantum 3 a b c ++ encode_loop data
  end.

(** The string, without its terminator, and the length written to [retlen];
    [data] has [len] bytes. *)
Definition nr_b64_encode (data : option (list Z)) (len : Z) : option (list Z * Z) :=
  match data with
  | None => None
  | Some d =>
      if len <=? 0 then None
      else let out := encode_loop (take (Z.to_nat len) d) in Some (out, Z.of_nat (length out))
  end.

(** The bytes that the encoder allocates. *)
Definition encode_space (len : Z) : Z := len * 4 / 3 + 4.

(** ** Decoding *)

(** The value of a character, which the loop finds at the end of the table only
    when it is the terminator. *)
Fixpoint table_index (table : list Z) (c v : Z) : option Z :=
  match table with
  | [] => if c =? 0 then Some v else None
  | t :: table => if t =? c then Some v else table_index table c (v + 1)
  end.

Fixpoint quantum_loop (n : nat) (s : list Z) (i x : Z) : Z :=
  match n with
  | O => x
  | S n =>
      quantum_loop n s (i + 1)
        (match table_index table64 (char_at s i) 0 with
         | Some v => u64 (u64 (Z.shiftl x 6) + v)
         | None => if char_at s i =? 61 then u64 (Z.shiftl x 6) else x
         end)
  end.

Definition decodeQuantum (src : list Z) : list Z :=
  let x := quantum_loop 4 src 0 0 in
  [Z.land (Z.shiftr (Z.shiftr x 8) 8) 0xff; Z.land (Z.shiftr x 8) 0xff; Z.land x 0xff].

(** Whole quanta, and where the next one starts. *)
Fixpoint decode_loop (n : nat) (src : list Z) : list Z * list Z :=
  match n with
  | O => ([], src)
  | S n => let '(out, rest) := decode_loop n (drop 4 src) in (decodeQuantum src ++ out, rest)
  end.

(** The index of the first '=' or of the terminator. *)
Fixpoint length_loop (src : list Z) : Z :=
  match src with
  | [] => 0
  | c :: src => if (c =? 61) || (c =? 0) then 0 else 1 + length_loop src
  end.

(** The decoded bytes and the length written to [retlen] (no change is [None]). *)
Definition nr_b64_decode (src : option (list Z)) : option (list Z) * option Z :=
  match src with
  | None => (None, None)
  | Some src =>
      if negb (forallb nr_b64_is_valid_character (cstr src)) then (None, None)
      else
        let length := length_loop src in
        let equalsTerm :=
          if char_at src length =? 61
          then if char_at src (length + 1) =? 61 then 2 else 1
          else 0 in
        let numQuantums := (length + equalsTerm) / 4 in
        if numQuantums =? 0 then (None, Some 0)
        else
          let rawlen := numQuantums * 3 - equalsTerm in
          let '(out, rest) := decode_loop (Z.to_nat (numQuantums - 1)) src in
          (Some (out ++ take (Z.to_nat (3 - equalsTerm)) (decodeQuantum rest)), Some rawlen)
  end.

(** ** Obfuscation *)
Fixpoint xor_loop (key : list Z) (klen : Z) (s : list Z) (i : Z) : list Z :=
  match s with
  | [] => []
  | c :: s => Z.lxor c (char_at key (i mod klen)) :: xor_loop key klen s (i + 1)
  end.

Definition key_length (key : list Z) (keylen : Z) : Z :=
  if keylen =? 0 then nr_strlen (Some key) else keylen.

Definition nr_obfuscate (str key : option (list Z)) (keylen : Z) : option (list Z) :=
  match str, key with
  | Some s, Some k =>
      if (char_at s 0 =? 0) || (char_at k 0 =? 0) || (keylen <? 0) then None
      else
        let s := cstr s in
        fst <$> nr_b64_encode (Some (xor_loop k (key_length k keylen) s 0)) (Z.of_nat (length s))
  | _, _ => None
  end.

Definition nr_deobfuscate (str key : option (list Z)) (keylen : Z) : option (list Z) :=
  match str, key with
  | Some s, Some k =>
      if (char_at s 0 =? 0) || (char_at k 0 =? 0) || (keylen <? 0) then None
      else match nr_b64_decode str with
           | (Some decoded, Some slen) =>
               if slen <=? 0 then None
               else Some (xor_loop k (key_length k keylen) (take (Z.to_nat slen) decoded) 0)
           | _ => None
           end
  | _, _ => None
  end.

(** ** Bits *)
Lemma zero_byte : is_byte 0.
Proof. by split. Qed.
#[local] Hint Resolve zero_byte : core.

Lemma obuf_spec a b c : is_byte a → is_byte b → is_byte c →
  obuf a b c = [a / 4; a mod 4 * 16 + b / 16; b mod 16 * 4 + c / 64; c mod 64].
Proof.
  unfold is_byte. intros Ha Hb Hc. unfold obuf.
  pose proof (byte_cases (λ a, (Z.shiftr (Z.land a 0xfc) 2 =? a / 4) && (Z.shiftl (Z.land a 0x03) 4 =? a mod 4 * 2 ^ 4))
    0 256 eq_refl a Ha) as Fa.
  pose proof (byte_cases (λ a, (Z.shiftr (Z.land a 0xf0) 4 =? a / 16) && (Z.shiftl (Z.land a 0x0f) 2 =? a mod 16 * 2 ^ 2))
    0 256 eq_refl b Hb) as Fb.
  pose proof (byte_cases (λ a, (Z.shiftr (Z.land a 0xc0) 6 =? a / 64) && (Z.land a 0x3f =? a mod 64))
    0 256 eq_refl c Hc) as Fc. cbv beta in Fa, Fb, Fc.
  apply andb_true_iff in Fa as [->%Z.eqb_eq ->%Z.eqb_eq]. apply andb_true_iff in Fb as [->%Z.eqb_eq ->%Z.eqb_eq].
  apply andb_true_iff in Fc as [->%Z.eqb_eq ->%Z.eqb_eq].
  rewrite !(Z.lor_comm (_ * _)), !lor_add_shift by (Z.to_euclidean_division_equations; lia).
  do 2 f_equal; [lia|]. f_equal. lia.
Qed.

Lemma six_bits a b c : is_byte a → is_byte b → is_byte c →
  Forall (λ v, 0 ≤ v < 64) (obuf a b c).
Proof.
  intros Ha Hb Hc. rewrite obuf_spec by done. unfold is_byte in *.
  repeat constructor; Z.to_euclidean_division_equations; lia.
Qed.

(** A six-bit value is found back from its character, which is no padding. *)
Lemma table_index_char v : 0 ≤ v < 64 →
  table_index table64 (char_at table64 v) 0 = Some v ∧ char_at table64 v ≠ 61 ∧
  nr_b64_is_valid_character (char_at table64 v) = true ∧ 0 < char_at table64 v < 256.
Proof.
  intros Hv. pose proof (byte_cases (λ v, bool_decide (table_index table64 (char_at table64 v) 0 = Some v) &&
    negb (char_at table64 v =? 61) && nr_b64_is_valid_character (char_at table64 v) &&
    (0 <? char_at table64 v) && (char_at table64 v <? 256)) 0 64 eq_refl v ltac:(lia)) as Hb.
  cbv beta in Hb. rewrite !andb_true_iff, bool_decide_eq_true in Hb. destruct Hb as [[[[? ?] ?] ?] ?].
  split_and!; [done|lia|done|lia|lia].
Qed.

(** ** One quantum *)
Lemma quantum_step n s i x v : 0 ≤ v < 64 → char_at s i = char_at table64 v → 0 ≤ x < 2 ^ 18 →
  quantum_loop (S n) s i x = quantum_loop n s (i + 1) (x * 64 + v).
Proof.
  intros Hv Hc Hx. cbn [quantum_loop]. rewrite Hc. destruct (table_index_char v Hv) as (-> & _).
  rewrite Z.shiftl_mul_pow2 by lia. change (2 ^ 6) with 64. by rewrite !u64_small by (rewrite ?u64_small; lia).
Qed.

Lemma quantum_pad n s i x : char_at s i = 61 → 0 ≤ x < 2 ^ 18 →
  quantum_loop (S n) s i x = quantum_loop n s (i + 1) (x * 64).
Proof.
  intros Hc Hx. cbn [quantum_loop]. rewrite Hc. change (table_index table64 61 0) with (@None Z).
  simpl (61 =? 61). cbv iota. rewrite Z.shiftl_mul_pow2 by lia. change (2 ^ 6) with 64. by rewrite u64_small by lia.
Qed.

Lemma quantum_bytes a b c : is_byte a → is_byte b → is_byte c →
  let x := (a * 256 + b) * 256 + c in
  [Z.land (Z.shiftr (Z.shiftr x 8) 8) 0xff; Z.land (Z.shiftr x 8) 0xff; Z.land x 0xff] = [a; b; c].
Proof.
  intros Ha Hb Hc x. unfold is_byte in *. change 0xff with (Z.ones 8). rewrite !Z.land_ones, !Z.shiftr_div_pow2 by lia.
  subst x. f_equal; [|f_equal; [|f_equal]]; Z.to_euclidean_division_equations; lia.
Qed.

Lemma decode_encode n a b c rest : (1 ≤ n ≤ 3)%nat → is_byte a → is_byte b → is_byte c →
  (n = 1%nat → b = 0) → ((n < 3)%nat → c = 0) →
  decodeQuantum (encode_quantum n a b c ++ rest) = [a; b; c].
Proof.
  intros Hn Ha Hb Hc Hb0 Hc0. pose proof (six_bits a b c Ha Hb Hc) as Hs.
  rewrite <-(quantum_bytes a b c Ha Hb Hc). unfold decodeQuantum.
  enough (quantum_loop 4 (encode_quantum n a b c ++ rest) 0 0 = (a * 256 + b) * 256 + c) as -> by done.
  unfold encode_quantum. rewrite obuf_spec in Hs |- * by done. unfold is_byte in *.
  apply Forall_cons in Hs as [? Hs]. apply Forall_cons in Hs as [? Hs].
  apply Forall_cons in Hs as [? Hs]. apply Forall_cons in Hs as [? _].
  destruct n as [|[|[|[|n]]]]; try lia.
  - rewrite (quantum_step _ _ _ _ (a / 4)) by (done || lia).
    rewrite (quantum_step _ _ _ _ (a mod 4 * 16 + b / 16)) by (done || lia).
    rewrite quantum_pad by (done || lia). rewrite quantum_pad by (done || lia). cbn [quantum_loop].
    rewrite Hb0, Hc0 in * by lia. Z.to_euclidean_division_equations. lia.
  - rewrite (quantum_step _ _ _ _ (a / 4)) by (done || lia).
    rewrite (quantum_step _ _ _ _ (a mod 4 * 16 + b / 16)) by (done || lia).
    rewrite (quantum_step _ _ _ _ (b mod 16 * 4 + c / 64)) by (done || lia).
    rewrite quantum_pad by (done || lia). cbn [quantum_loop].
    rewrite Hc0 in * by lia. Z.to_euclidean_division_equations. lia.
  - rewrite (quantum_step _ _ _ _ (a / 4)) by (done || lia).
    rewrite (quantum_step _ _ _ _ (a mod 4 * 16 + b / 16)) by (done || lia).
    rewrite (quantum_step _ _ _ _ (b mod 16 * 4 + c / 64)) by (done || lia).
    rewrite (quantum_step _ _ _ _ (c mod 64)) by (done || lia). cbn [quantum_loop].
    Z.to_euclidean_division_equations. lia.
Qed.

(** ** The loops *)
Lemma list_ind3 {A} (P : list A → Prop) : P [] → (∀ a, P [a]) → (∀ a b, P [a; b]) →
  (∀ a b c l, P l → P (a :: b :: c :: l)) → ∀ l, P l.
Proof. intros H0 H1 H2 H3. fix IH 1. intros [|a [|b [|c l]]]; [exact H0|exact (H1 a)|exact (H2 a b)|exact (H3 a b c l (IH l))]. Qed.

(** The quanta of the data, and the missing bytes of the last one. *)
Definition quanta (data : list Z) : nat := (length data + 2) / 3.
Definition missing (data : list Z) : nat := 3 * quanta data - length data.

Lemma quanta_cons a b c data : quanta (a :: b :: c :: data) = S (quanta data).
Proof. unfold quanta. simpl length. replace (_ + 2)%nat with (length data + 2 + 1 * 3)%nat by lia. rewrite Nat.div_add by lia. lia. Qed.
Lemma missing_cons a b c data : missing (a :: b :: c :: data) = missing data.
Proof. unfold missing. rewrite quanta_cons. simpl length. lia. Qed.
Lemma quanta_bounds data : (3 * quanta data < length data + 3 ∧ length data ≤ 3 * quanta data)%nat.
Proof. unfold quanta. pose proof (Nat.div_mod (length data + 2) 3). pose proof (Nat.mod_upper_bound (length data + 2) 3). lia. Qed.

Definition is_code (c : Z) : Prop := 0 < c < 256 ∧ c ≠ 61 ∧ nr_b64_is_valid_character c = true.

Lemma code_table a b c : is_byte a → is_byte b → is_byte c →
  Forall is_code (char_at table64 <$> obuf a b c).
Proof.
  intros Ha Hb Hc. rewrite Forall_fmap. eapply Forall_impl; [by apply six_bits|]. intros v Hv.
  destruct (table_index_char v Hv) as (_ & ? & ? & ?). done.
Qed.

(** The output is characters of the table, and then one '=' per missing byte. *)
Lemma encode_loop_shape data : Forall is_byte data →
  ∃ pre, encode_loop data = pre ++ replicate (missing data) 61 ∧ Forall is_code pre ∧
    (length pre + missing data = 4 * quanta data)%nat.
Proof.
  induction data as [|a|a b|a b c data IH] using list_ind3; intros Hd;
    repeat match goal with H : Forall is_byte (_ :: _) |- _ => apply Forall_cons in H as [? H] end.
  - by exists [].
  - exists (take 2 (char_at table64 <$> obuf a 0 0)). split_and!; [done| |done].
    by apply Forall_take, code_table.
  - exists (take 3 (char_at table64 <$> obuf a b 0)). split_and!; [done| |done].
    by apply Forall_take, code_table.
  - destruct IH as (pre & Hpre & Hcode & Hlen); [assumption|].
    exists ((char_at table64 <$> obuf a b c) ++ pre). rewrite missing_cons, quanta_cons, <-app_assoc, <-Hpre.
    split_and!; [done| |rewrite length_app, length_fmap; change (length (obuf a b c)) with 4%nat; lia]. apply Forall_app. split; [by apply code_table|done].
Qed.

Lemma decode_loop_encode data : Forall is_byte data → data ≠ [] →
  let '(out, rest) := decode_loop (quanta data - 1) (encode_loop data) in
  out ++ take (3 - missing data) (decodeQuantum rest) = data.
Proof.
  induction data as [|a|a b|a b c data IH] using list_ind3; intros Hd Hne; [done| | |];
    repeat match goal with H : Forall is_byte (_ :: _) |- _ => apply Forall_cons in H as [? H] end.
  - pose proof (decode_encode 1 a 0 0 []) as E. rewrite app_nil_r in E. cbn [quanta decode_loop encode_loop].
    change (quanta [a] - 1)%nat with 0%nat. cbn [decode_loop]. by rewrite E by (done || lia).
  - pose proof (decode_encode 2 a b 0 []) as E. rewrite app_nil_r in E. cbn [encode_loop].
    change (quanta [a; b] - 1)%nat with 0%nat. cbn [decode_loop]. by rewrite E by (done || lia).
  - rewrite quanta_cons, missing_cons. cbn [encode_loop].
    assert (decodeQuantum (encode_quantum 3 a b c ++ encode_loop data) = [a; b; c]) as E
      by (apply decode_encode; done || lia).
    destruct (decide (data = [])) as [->|Hdata].
    + change (S (quanta []) - 1)%nat with 0%nat. cbn [decode_loop]. by rewrite E.
    + replace (S (quanta data) - 1)%nat with (S (quanta data - 1)).
      2:{ pose proof (quanta_bounds data). destruct data; [done|]. simpl length in *. lia. }
      cbn [decode_loop]. change (drop 4 (encode_quantum 3 a b c ++ encode_loop data)) with (encode_loop data).
      specialize (IH Hd Hdata). destruct (decode_loop _ _) as [out rest]. rewrite E. simpl. by rewrite IH.
Qed.

Lemma length_loop_codes pre n : Forall is_code pre →
  length_loop (pre ++ replicate n 61) = Z.of_nat (length pre).
Proof.
  induction 1 as [|c pre (? & ? & _) _ IH]; [by destruct n|]. cbn [app length_loop].
  destruct (Z.eqb_spec c 61); [done|]. destruct (Z.eqb_spec c 0); [lia|]. cbn [orb]. rewrite IH. simpl length. lia.
Qed.

Lemma codes_cstr pre n : Forall is_code pre → is_cstr (pre ++ replicate n 61).
Proof.
  intros Hp. apply Forall_app. split; [by eapply Forall_impl; [done|intros c [? _]]|].
  apply Forall_replicate. lia.
Qed.

Lemma encode_loop_cstr data : Forall is_byte data → is_cstr (encode_loop data).
Proof. intros Hd. destruct (encode_loop_shape data Hd) as (pre & -> & ? & _). by apply codes_cstr. Qed.

Lemma encode_loop_ne data : data ≠ [] → encode_loop data ≠ [].
Proof. by destruct data as [|a [|b [|c data]]]. Qed.

(** Decoding the output of the encoder gives the data and its length back. *)
Lemma decode_of_encode data : Forall is_byte data → data ≠ [] →
  nr_b64_decode (Some (encode_loop data)) = (Some data, Some (Z.of_nat (length data))).
Proof.
  intros Hd Hne. pose proof (decode_loop_encode data Hd Hne) as Hdec.
  destruct (encode_loop_shape data Hd) as (pre & Hpre & Hcode & Hlen). pose proof (quanta_bounds data).
  assert (length data ≠ 0)%nat by (by destruct data).
  assert (missing data = 3 * quanta data - length data)%nat as Hm by done.
  unfold nr_b64_decode. rewrite Hpre in Hdec |- *. rewrite cstr_id by by apply codes_cstr.
  rewrite length_loop_codes by done.
  rewrite (proj2 (forallb_forall _ _)).
  2:{ intros c [Hc|Hc%list_elem_of_In]%in_app_or; [|by apply elem_of_replicate in Hc as [-> _]].
      rewrite Forall_forall in Hcode. by apply (Hcode c), list_elem_of_In. }
  set (e := if char_at _ _ =? 61 then _ else 0). assert (e = Z.of_nat (missing data)) as ->.
  { subst e. unfold char_at. rewrite !lookup_app_r by lia.
    replace (Z.to_nat (Z.of_nat (length pre)) - length pre)%nat with 0%nat by lia.
    replace (Z.to_nat (Z.of_nat (length pre) + 1) - length pre)%nat with 1%nat by lia.
    assert (missing data < 3)%nat by lia. by destruct (missing data) as [|[|[|]]]; [..|lia]. }
  replace (Z.of_nat (length pre) + Z.of_nat (missing data)) with (Z.of_nat (quanta data) * 4) by lia.
  rewrite Z.div_mul by done. cbn [negb]. destruct (Z.eqb_spec (Z.of_nat (quanta data)) 0); [lia|].
  replace (Z.to_nat (Z.of_nat (quanta data) - 1)) with (quanta data - 1)%nat by lia.
  replace (Z.to_nat (3 - Z.of_nat (missing data))) with (3 - missing data)%nat by lia.
  destruct (decode_loop _ _) as [out rest]. rewrite Hdec. do 2 f_equal. lia.
Qed.

(** ** Properties *)

(** decoding what [nr_b64_encode] produced gives the bytes back, whatever they
    are (NUL bytes included), with their number. *)
Theorem nr_b64_roundtrip data out retlen :
  Forall is_byte data →
  nr_b64_encode (Some data) (Z.of_nat (length data)) = Some (out, retlen) →
  nr_b64_decode (Some out) = (Some data, Some (Z.of_nat (length data))).
Proof.
  intros Hd. unfold nr_b64_encode. case_match; [done|]. intros [= <- <-].
  rewrite take_ge by lia. apply decode_of_encode; [done|]. intros ->. done.
Qed.

Lemma nr_b64_roundtrip_witness :
  nr_b64_decode (Some [65; 80; 56; 67]) = (Some [0; 255; 2], Some 3).
Proof. apply (nr_b64_roundtrip [0; 255; 2] _ 4); [by repeat constructor|vm_compute; reflexivity]. Defined.

(** the encoder never writes past its buffer: of [n] bytes it makes
    [4 * ceil (n / 3)] characters, valid characters all of them and so a C string,
    which fit with the terminator in the space it allocates; it fails exactly when
    there is nothing to encode. *)
Theorem nr_b64_encode_fits data len :
  Forall is_byte data → len = Z.of_nat (length data) →
  match nr_b64_encode (Some data) len with
  | Some (out, retlen) =>
      retlen = Z.of_nat (length out) ∧ retlen = 4 * ((len + 2) / 3) ∧ retlen + 1 ≤ encode_space len ∧
      is_cstr out ∧ Forall (λ c, nr_b64_is_valid_character c = true) out
  | None => data = []
  end.
Proof.
  intros Hd ->. unfold nr_b64_encode. destruct (Z.leb_spec (Z.of_nat (length data)) 0).
  { by destruct data. }
  rewrite take_ge by lia. destruct (encode_loop_shape data Hd) as (pre & Hpre & Hcode & Hlen).
  assert (Z.of_nat (length (encode_loop data)) = 4 * ((Z.of_nat (length data) + 2) / 3)) as Hq.
  { rewrite Hpre, length_app, length_replicate, Hlen. unfold quanta. rewrite Nat2Z.inj_mul, Nat2Z.inj_div. do 2 f_equal; lia. }
  split_and!; [done|done| | |]; rewrite ?Hq.
  - unfold encode_space. Z.to_euclidean_division_equations. lia.
  - rewrite Hpre. by apply codes_cstr.
  - rewrite Hpre. apply Forall_app. split; [|by apply Forall_replicate].
    eapply Forall_impl; [done|]. by intros c (_ & _ & ?).
Qed.

Lemma nr_b64_encode_fits_witness :
  match nr_b64_encode (Some [77; 97; 110; 33]) 4 with
  | Some (out, retlen) =>
      retlen = Z.of_nat (length out) ∧ retlen = 4 * ((4 + 2) / 3) ∧ retlen + 1 ≤ encode_space 4 ∧
      is_cstr out ∧ Forall (λ c, nr_b64_is_valid_character c = true) out
  | None => [77; 97; 110; 33] = []
  end.
Proof. apply (nr_b64_encode_fits [77; 97; 110; 33] 4); [by repeat constructor|reflexivity]. Defined.

Lemma xor_loop_length key klen s i : length (xor_loop key klen s i) = length s.
Proof. revert i. induction s; intros i; simpl; by f_equal. Qed.

Lemma xor_loop_involutive key klen s i : xor_loop key klen (xor_loop key klen s i) i = s.
Proof.
  revert i. induction s as [|c s IH]; intros i; [done|]. simpl.
  by rewrite IH, Z.lxor_assoc, Z.lxor_nilpotent, Z.lxor_0_r.
Qed.

Lemma lxor_byte a b : is_byte a → is_byte b → is_byte (Z.lxor a b).
Proof.
  unfold is_byte. intros Ha Hb. split; [by apply Z.lxor_nonneg; lia|].
  destruct (Z.eq_dec (Z.lxor a b) 0) as [->|]; [lia|]. change 256 with (2 ^ 8).
  apply Z.log2_lt_pow2; [pose proof (proj2 (Z.lxor_nonneg a b)); lia|].
  pose proof (Z.log2_lxor a b ltac:(lia) ltac:(lia)).
  assert (∀ x, 0 ≤ x < 256 → Z.log2 x < 8) as Hl.
  { intros x Hx. destruct (Z.eq_dec x 0) as [->|]; [done|]. apply Z.log2_lt_pow2; lia. }
  pose proof (Hl a Ha). pose proof (Hl b Hb). lia.
Qed.

Lemma char_at_byte s i : Forall is_byte s → is_byte (char_at s i).
Proof.
  intros Hs. unfold char_at. destruct (s !! _) as [c|] eqn:E; [|done].
  by eapply Forall_lookup_1 in E.
Qed.

Lemma xor_loop_bytes key klen s i : Forall is_byte key → Forall is_byte s → Forall is_byte (xor_loop key klen s i).
Proof.
  intros Hk Hs. revert i. induction Hs as [|c s Hc _ IH]; intros i; [done|]. simpl. constructor; [|done].
  by apply lxor_byte, char_at_byte.
Qed.

(** deobfuscating with the key a string was obfuscated with gives the string
    back, also when the XOR with the key made NUL bytes on the way. *)
Theorem nr_deobfuscate_roundtrip str key keylen out :
  is_cstr str → Forall is_byte key →
  nr_obfuscate (Some str) (Some key) keylen = Some out →
  nr_deobfuscate (Some out) (Some key) keylen = Some str.
Proof.
  intros Hs Hk. unfold nr_obfuscate, nr_deobfuscate. rewrite cstr_id by done.
  destruct (_ || _) eqn:Eb; [done|]. apply orb_false_iff in Eb as [[Es Ek]%orb_false_iff El].
  set (x := xor_loop key _ str 0). assert (length x = length str) as Hx by apply xor_loop_length.
  intros Ho. rewrite <-Hx in Ho. assert (Forall is_byte x) as Hxb.
  { apply xor_loop_bytes; [done|]. eapply Forall_impl; [done|]. unfold is_byte. intros; simpl in *; lia. }
  assert (x ≠ []) as Hne by (intros E; apply (f_equal length) in E; rewrite Hx in E; by destruct str).
  unfold nr_b64_encode in Ho. destruct (Z.leb_spec (Z.of_nat (length x)) 0); [by destruct x|].
  rewrite take_ge in Ho by lia. injection Ho as <-.
  assert ((char_at (encode_loop x) 0 =? 0) = false) as ->.
  { pose proof (encode_loop_cstr x Hxb) as Hc. pose proof (encode_loop_ne x Hne).
    destruct (encode_loop x); [done|]. apply Forall_cons in Hc as [? _]. apply Z.eqb_neq. change (z ≠ 0). lia. }
  rewrite Ek, El. cbn [orb]. rewrite decode_of_encode by done.
  destruct (Z.leb_spec (Z.of_nat (length x)) 0); [lia|].
  rewrite take_ge by lia. f_equal. apply xor_loop_involutive.
Qed.

(** The key "pw" on "Zoo!", whose characters become control characters. *)
Lemma nr_deobfuscate_roundtrip_witness :
  nr_deobfuscate (Some [75; 104; 103; 102; 86; 107; 111; 61]) (Some [112; 119]) 0 = Some [90; 111; 111; 33; 58].
Proof. apply (nr_deobfuscate_roundtrip [90; 111; 111; 33; 58] [112; 119] 0); [by repeat constructor..|]. vm_compute. reflexivity. Defined.
