(* ===== verification/LogEvents.v ===== *)
(** * LogEvents: log events and the priority reservoir that keeps them
    (src/axiom/nr_log_event.c, nr_log_events.c, nr_log_level.c)

    The reservoir is a bounded min-max heap of event pointers; a value of
    [option nr_log_event_t] is such a pointer.  The operations return the events
    they free, in order. *)

From S2P Require Import Prelude Memory CString Strings.
From S2P Require MinMaxHeap Vector.
Local Open Scope Z_scope.

(** ** Log events *)

(** [context_attributes] is the address of the attributes, which the event
    owns. *)
Record nr_log_event_t := LogEvent {
  message : option (list Z);
  log_level : option (list Z);
  timestamp : Z;
  context_attributes : option nat;
  trace_id : option (list Z);
  span_id : option (list Z);
  entity_guid : option (list Z);
  entity_name : option (list Z);
  hostname : option (list Z);
  priority : Z;
}.

Abbreviation event_ptr := (option nr_log_event_t).

Definition NR_MAX_LOG_MESSAGE_LEN : Z := 32768.
Definition NR_TIME_DIVISOR_MS : Z := 1000.

Definition nr_log_event_create : event_ptr :=
  Some (LogEvent None None 0 None None None None None None 0).

(** A setter of a string field: nothing happens to or for [NULL]. *)
Definition set_string (set : list Z → nr_log_event_t → nr_log_event_t) (event : event_ptr)
    (str : option (list Z)) : event_ptr :=
  match event, str with
  | Some e, Some s => Some (set (nr_strdup (Some s)) e)
  | _, _ => event
  end.

Definition nr_log_event_set_message (event : event_ptr) (m : option (list Z)) : event_ptr :=
  match event, m with
  | Some (LogEvent _ l t c tr sp g n h p), Some m =>
      Some (LogEvent (Some (nr_strndup (Some m) NR_MAX_LOG_MESSAGE_LEN)) l t c tr sp g n h p)
  | _, _ => event
  end.

Definition nr_log_event_set_log_level := set_string
  (λ s '(LogEvent m l t c tr sp g n h p), LogEvent m (Some s) t c tr sp g n h p).
Definition nr_log_event_set_trace_id := set_string
  (λ s '(LogEvent m l t c tr sp g n h p), LogEvent m l t c (Some s) sp g n h p).
Definition nr_log_event_set_span_id := set_string
  (λ s '(LogEvent m l t c tr sp g n h p), LogEvent m l t c tr (Some s) g n h p).
Definition nr_log_event_set_guid := set_string
  (λ s '(LogEvent m l t c tr sp g n h p), LogEvent m l t c tr sp (Some s) n h p).
Definition nr_log_event_set_entity_name := set_string
  (λ s '(LogEvent m l t c tr sp g n h p), LogEvent m l t c tr sp g (Some s) h p).
Definition nr_log_event_set_hostname := set_string
  (λ s '(LogEvent m l t c tr sp g n h p), LogEvent m l t c tr sp g n (Some s) p).

Definition nr_log_event_set_timestamp (event : event_ptr) (time : Z) : event_ptr :=
  match event with
  | Some (LogEvent m l _ c tr sp g n h p) => Some (LogEvent m l (time / NR_TIME_DIVISOR_MS) c tr sp g n h p)
  | None => None
  end.
Definition nr_log_event_set_context_attributes (event : event_ptr) (attributes : option nat) : event_ptr :=
  match event with
  | Some (LogEvent m l t _ tr sp g n h p) => Some (LogEvent m l t attributes tr sp g n h p)
  | None => None
  end.
Definition nr_log_event_set_priority (event : event_ptr) (p : Z) : event_ptr :=
  match event with
  | Some (LogEvent m l t c tr sp g n h _) => Some (LogEvent m l t c tr sp g n h p)
  | None => None
  end.

(** The event freed, if any, and the pointer afterwards. *)
Definition nr_log_event_destroy (ptr : option event_ptr) : list nr_log_event_t * option event_ptr :=
  match ptr with
  | Some (Some e) => ([e], Some None)
  | _ => ([], ptr)
  end.

(** *** Comparison: by priority, then by age; [NULL] is smallest *)
Definition nr_log_event_age_comparator (a b : nr_log_event_t) : Z :=
  if timestamp a <? timestamp b then -1 else if timestamp b <? timestamp a then 1 else 0.

Definition null_check (a b : event_ptr) (k : nr_log_event_t → nr_log_event_t → Z) : Z :=
  match a, b with
  | Some a, Some b => k a b
  | None, Some _ => -1
  | Some _, None => 1
  | None, None => 0
  end.

Definition nr_log_event_wrapped_age_comparator (a b : event_ptr) : Z :=
  null_check a b nr_log_event_age_comparator.

Definition nr_log_event_priority_comparator (a b : nr_log_event_t) : Z :=
  if priority b <? priority a then 1
  else if priority a <? priority b then -1
  else nr_log_event_wrapped_age_comparator (Some a) (Some b).

Definition nr_log_event_wrapped_priority_comparator (a b : event_ptr) : Z :=
  null_check a b nr_log_event_priority_comparator.

#[export] Instance priority_comparator : Comparator nr_log_event_wrapped_priority_comparator.
Proof.
  split; intros [x|] [y|]; try intros [z|]; unfold nr_log_event_wrapped_priority_comparator, null_check,
    nr_log_event_priority_comparator, nr_log_event_wrapped_age_comparator, null_check,
    nr_log_event_age_comparator; bool_cases; lia.
Qed.

(** ** Log levels *)
Definition log_levels : list (list Z) :=
  [lit "EMERGENCY"; lit "ALERT"; lit "CRITICAL"; lit "ERROR"; lit "WARNING"; lit "NOTICE"; lit "INFO";
   lit "DEBUG"].
Definition LOG_LEVEL_UNKNOWN : Z := 8.
Definition LL_UNKN_STR : list Z := lit "UNKNOWN".

(** The chain of comparisons. *)
Fixpoint level_loop (str : list Z) (levels : list (list Z)) (level : Z) : Z :=
  match levels with
  | [] => LOG_LEVEL_UNKNOWN
  | l :: levels => if strcasecmp str l =? 0 then level else level_loop str levels (level + 1)
  end.

Definition nr_log_level_str_to_int (str : option (list Z)) : Z :=
  match str with None => LOG_LEVEL_UNKNOWN | Some s => level_loop s log_levels 0 end.

Definition nr_log_level_rfc_to_psr (level : Z) : list Z :=
  if level <? 0 then LL_UNKN_STR else default LL_UNKN_STR (log_levels !! Z.to_nat level).

(** A level is recognised by its name in any case, and its name is printed for it. *)
Lemma log_level_names level : 0 ≤ level < 8 →
  nr_log_level_str_to_int (Some (nr_log_level_rfc_to_psr level)) = level ∧
  nr_log_level_str_to_int (Some (nr_tolower <$> nr_log_level_rfc_to_psr level)) = level.
Proof.
  intros Hl. pose proof (byte_cases (λ l, (nr_log_level_str_to_int (Some (nr_log_level_rfc_to_psr l)) =? l) &&
    (nr_log_level_str_to_int (Some (nr_tolower <$> nr_log_level_rfc_to_psr l)) =? l)) 0 8 eq_refl level ltac:(lia)) as H.
  cbv beta in H. apply andb_true_iff in H as [? ?]. lia.
Qed.

(** ** The reservoir *)
Record nr_log_events_t := LogEvents {
  events_allocated : Z;
  events_used : Z;
  events_seen : Z;
  events : option (MinMaxHeap.heap event_ptr);
}.

Definition NR_MAX_LOG_EVENTS_MAX_SAMPLES_STORED : Z := 20000.

Definition nr_log_events_is_sampling (evs : option nr_log_events_t) : bool :=
  match evs with
  | None => false
  | Some e => negb (events_used e <? events_allocated e)
  end.

(** The destructor of the heap, seen as a filter of what it is called on. *)
Definition nr_log_event_discard_wrapper (event : event_ptr) : list nr_log_event_t :=
  match event with None => [] | Some _ => (nr_log_event_destroy (Some event)).1 end.

Definition nr_log_events_create (max_events : Z) : option nr_log_events_t :=
  if NR_MAX_LOG_EVENTS_MAX_SAMPLES_STORED <? max_events then None
  else Some (LogEvents max_events 0 0
    (if negb (max_events =? 0)
     then MinMaxHeap.nr_minmax_heap_create max_events (Some nr_log_event_wrapped_priority_comparator) true
     else None)).

Definition nr_log_events_destroy (evs : option (option nr_log_events_t)) :
    list nr_log_event_t * option (option nr_log_events_t) :=
  match evs with
  | Some (Some e) =>
      (MinMaxHeap.nr_minmax_heap_destroy (events e) ≫= nr_log_event_discard_wrapper, Some None)
  | _ => ([], evs)
  end.

Definition nr_log_events_max_events (evs : option nr_log_events_t) : Z := from_option events_allocated 0 evs.
Definition nr_log_events_number_seen (evs : option nr_log_events_t) : Z := from_option events_seen 0 evs.
Definition nr_log_events_number_saved (evs : option nr_log_events_t) : Z := from_option events_used 0 evs.

(** Whether the event was sampled, the events freed, and the reservoir. *)
Definition nr_log_events_add_event (evs : option nr_log_events_t) (event : event_ptr) :
    bool * list nr_log_event_t * option nr_log_events_t :=
  match event with
  | None => (false, [], evs)
  | Some _ =>
      let evs := (λ e, LogEvents (events_allocated e) (events_used e) (u64 (events_seen e + 1)) (events e)) <$> evs in
      match evs with
      | Some (LogEvents allocated used seen (Some h)) =>
          if allocated =? 0 then (true, (nr_log_event_destroy (Some event)).1, evs)
          else
            let sampled := nr_log_events_is_sampling evs in
            let '(h, gone) := MinMaxHeap.nr_minmax_heap_insert (Some h) event in
            (sampled, gone ≫= nr_log_event_discard_wrapper,
             Some (LogEvents allocated (if sampled then used else u64 (used + 1)) seen h))
      | _ => (true, (nr_log_event_destroy (Some event)).1, evs)
      end
  end.

(** [None] when [nr_vector_push_back] does not return. *)
Definition nr_log_event_htov_iterator_callback `{Allocator event_ptr} (value : event_ptr)
    (vector : option (Vector.nr_vector_t event_ptr)) : option (option (Vector.nr_vector_t event_ptr)) :=
  match value, vector with
  | Some _, Some _ => '(_, v) ← Vector.nr_vector_push_back vector value; Some v
  | _, _ => Some vector
  end.

Definition nr_log_events_to_vector `{Allocator event_ptr} (evs : option nr_log_events_t)
    (vector : option (Vector.nr_vector_t event_ptr)) : option (option (Vector.nr_vector_t event_ptr)) :=
  match evs, vector with
  | Some (LogEvents _ _ _ (Some h)), Some _ =>
      foldl (λ acc value, acc ≫= nr_log_event_htov_iterator_callback value) (Some vector)
        (MinMaxHeap.nr_minmax_heap_iterate (Some h))
  | _, _ => Some vector
  end.

(** ** Proofs *)
Section reservoir.
Context `{Allocator event_ptr}.

Lemma some_split {A} (l1 l2 : list (option A)) (l : list A) : l1 ++ l2 ≡ₚ Some <$> l →
  ∃ k1 k2, l1 = Some <$> k1 ∧ l2 = Some <$> k2 ∧ k1 ++ k2 ≡ₚ l.
Proof.
  intros Hp. apply Permutation_map_inv in Hp as (k & Hk & Hp).
  symmetry in Hk. apply fmap_app_inv in Hk as (k1 & k2 & -> & -> & ->). by exists k1, k2.
Qed.

Lemma discard_some (l : list nr_log_event_t) : (Some <$> l) ≫= nr_log_event_discard_wrapper = l.
Proof. induction l as [|e l IH]; [done|]. simpl. by f_equal. Qed.

Lemma push_all (l : list nr_log_event_t) (v : Vector.nr_vector_t event_ptr) :
  (∀ n, realloc_succeeds (V:=event_ptr) n = true) → Vector.vec_inv v →
  Vector.used v + Z.of_nat (length l) < 2 ^ 59 →
  ∃ v', foldl (λ acc value, acc ≫= nr_log_event_htov_iterator_callback value) (Some (Some v)) (Some <$> l) = Some (Some v') ∧
    Vector.vec_inv v' ∧ Vector.values v' = Vector.values v ++ (Some <$> l).
Proof.
  intros Hal. revert v. induction l as [|e l IH]; intros v Hv Hu.
  { exists v. by rewrite app_nil_r. }
  simpl in Hu. destruct (Vector.exec_refines (Vector.PushBack (Some e)) v Hal Hv ltac:(lia) I)
    as (b & r & v1 & E & Hv1 & Hu1 & Hs).
  cbn [Vector.exec Vector.spec] in E, Hs.
  destruct (Vector.nr_vector_push_back (Some v) (Some e)) as [[b' ov]|] eqn:Ep; [|done].
  simpl in E. simplify_eq.
  destruct (IH v1 Hv1) as (v' & Hf & Hv' & Hvs); [lia|]. exists v'. split_and!; [|done|].
  - rewrite fmap_cons. cbn [foldl mbind option_bind].
    assert (nr_log_event_htov_iterator_callback (Some e) (Some v) = Some (Some v1)) as ->; [|exact Hf].
    unfold nr_log_event_htov_iterator_callback. by rewrite Ep.
  - rewrite Hvs. by replace (Vector.values v1) with (Vector.values v ++ [Some e]) by congruence; rewrite <-app_assoc.
Qed.

(** The state after adding [added], of which [dropped] were freed. *)
Definition reservoir_inv (max : Z) (added dropped kept : list nr_log_event_t) (e : nr_log_events_t) : Prop :=
  events_allocated e = max ∧ events_seen e = Z.of_nat (length added) ∧
  events_used e = Z.of_nat (length kept) ∧ dropped ++ kept ≡ₚ added ∧
  Z.of_nat (length kept) = Z.min max (Z.of_nat (length added)) ∧
  if decide (max = 0) then events e = None
  else ∃ h, events e = Some h ∧ MinMaxHeap.keeps_largest (Some <$> dropped) h ∧
    MinMaxHeap.contents h = Some <$> kept ∧ Z.of_nat (MinMaxHeap.bound h) = max ∧
    MinMaxHeap.comparator h = nr_log_event_wrapped_priority_comparator ∧ MinMaxHeap.destructor h = true.

Lemma create_reservoir max : 0 ≤ max ≤ 20000 → max ≠ 1 →
  ∃ e, nr_log_events_create max = Some e ∧ reservoir_inv max [] [] [] e.
Proof.
  intros Hmax H1. unfold nr_log_events_create, NR_MAX_LOG_EVENTS_MAX_SAMPLES_STORED.
  destruct (Z.ltb_spec 20000 max); [lia|]. eexists. split; [done|].
  unfold reservoir_inv. simpl. split_and!; [done..|lia|]. destruct (Z.eqb_spec max 0), (decide (max = 0)); try done.
  simpl. destruct (MinMaxHeap.nr_minmax_heap_create (V:=event_ptr) max (Some nr_log_event_wrapped_priority_comparator) true) as [h|] eqn:E.
  - destruct (MinMaxHeap.create_spec _ _ _ _ E) as (Hinv & Hnil & Hcmp & Hd & Hb & _).
    exists h. split_and!; try done. split; [done|done|]. intros d x Hd'. by apply not_elem_of_nil in Hd'.
  - unfold MinMaxHeap.nr_minmax_heap_create in E. destruct (Z.eqb_spec max 1), (Z.ltb_spec max 0); try lia; done.
Qed.

Lemma add_event_reservoir max added dropped kept e x :
  0 ≤ max → Z.of_nat (length added) + 1 < 2 ^ 64 → reservoir_inv max added dropped kept e →
  ∃ gone kept' e', nr_log_events_add_event (Some e) (Some x) =
      (bool_decide (max ≤ Z.of_nat (length added)), gone, Some e') ∧
    reservoir_inv max (added ++ [x]) (dropped ++ gone) kept' e'.
Proof.
  intros Hmax Hlen (Ha & Hs & Hu & Hp & Hk & He). destruct e as [allocated used seen oh]. simpl in *. subst.
  pose proof (Permutation_length Hp) as Hpl. rewrite length_app in Hpl.
  assert (negb (Z.of_nat (length kept) <? max) = bool_decide (max ≤ Z.of_nat (length added))) as Hsam.
  { destruct (Z.ltb_spec (Z.of_nat (length kept)) max), (bool_decide_reflect (max ≤ Z.of_nat (length added))); lia || done. }
  unfold nr_log_events_add_event. cbn [fmap option_fmap option_map]. rewrite u64_small by lia.
  destruct (decide (max = 0)) as [->|Hm].
  { subst oh. rewrite bool_decide_true by lia. eexists [x], kept, _. split; [done|]. unfold reservoir_inv. simpl.
    rewrite length_app. simpl. split_and!; [done|lia|done| |lia|done].
    destruct kept; [|simpl in *; lia]. rewrite !app_nil_r in *. by rewrite Hp. }
  destruct He as (h & -> & Hkl & Hc & Hb & Hcmp & Hd). simpl. destruct (Z.eqb_spec max 0); [done|].
  rewrite Hsam. assert (Comparator (MinMaxHeap.comparator h)) as Hcomp by (rewrite Hcmp; apply _).
  pose proof (MinMaxHeap.insert_keeps_largest (Some <$> dropped) h (Some x) ltac:(lia) Hkl) as Hins.
  destruct (MinMaxHeap.insert h (Some x)) as [h' d] eqn:Ei. destruct Hins as (ev & -> & Hsp & Hkl' & Hperm).
  rewrite Hd, Hc in *. change (Some x :: (Some <$> kept)) with (Some <$> x :: kept) in Hperm.
  symmetry in Hperm. destruct (some_split _ _ _ Hperm) as (gone & kept' & -> & Hc' & Hpk).
  exists gone, kept'. rewrite discard_some. eexists. split; [done|].
  pose proof (Permutation_length Hpk) as Hl. rewrite length_app in Hl. simpl in Hl.
  (* how much is kept *)
  assert (Z.of_nat (length kept') = Z.min max (Z.of_nat (length added) + 1)) as Hkept.
  { pose proof (MinMaxHeap.wf_bound _ (proj1 (MinMaxHeap.kl_inv _ _ Hkl'))) as Hw.
    pose proof (MinMaxHeap.kl_full _ _ Hkl') as Hf. rewrite (MinMaxHeap.sp_bound _ _ Hsp) in Hw, Hf.
    rewrite <-MinMaxHeap.length_contents, Hc', length_fmap in Hw, Hf. rewrite <-fmap_app in Hf.
    destruct (decide (dropped ++ gone = [])) as [E|E].
    - apply app_eq_nil in E as [-> ->]. simpl in *. lia.
    - assert ((Some <$> dropped ++ gone) ≠ []) as Hne by (by destruct (dropped ++ gone)). specialize (Hf Hne).
      assert (length gone + length dropped ≠ 0)%nat by (rewrite Nat.add_comm, <-length_app; by destruct (dropped ++ gone)).
      lia. }
  unfold reservoir_inv. simpl. rewrite length_app. simpl. split_and!; [done|lia| | |lia|].
  - case_bool_decide; [|rewrite u64_small]; lia.
  - rewrite <-app_assoc, Hpk, (Permutation_app_comm added [x]), <-Hp. simpl. symmetry. apply Permutation_middle.
  - destruct (decide (max = 0)); [done|]. exists h'. rewrite fmap_app.
    rewrite (MinMaxHeap.sp_bound _ _ Hsp), (MinMaxHeap.sp_comparator _ _ Hsp), (MinMaxHeap.sp_destructor _ _ Hsp). by split_and!.
Qed.

Lemma run_reservoir max xs : 0 ≤ max ≤ 20000 → max ≠ 1 → Z.of_nat (length xs) < 2 ^ 64 →
  let '(rs, e) := run (λ x e, nr_log_events_add_event e (Some x)) xs (nr_log_events_create max) in
  ∃ kept e', e = Some e' ∧ reservoir_inv max xs (concat rs.*2) kept e' ∧
    rs.*1 = (λ i, bool_decide (max ≤ i)) <$> seqZ 0 (Z.of_nat (length xs)).
Proof.
  intros Hmax H1. induction xs as [|x xs IH] using rev_ind; intros Hl.
  { destruct (create_reservoir max Hmax H1) as (e & -> & Hr). by exists [], e. }
  rewrite length_app in Hl |- *. cbn [length] in Hl |- *. rewrite run_snoc.
  destruct (run _ xs _) as [rs e]. destruct IH as (kept & e1 & -> & Hr & Hb); [lia|].
  destruct (add_event_reservoir max xs (concat rs.*2) kept e1 x ltac:(lia) ltac:(lia) Hr) as (gone & kept' & e2 & Ea & Hr2). cbv beta iota. rewrite Ea.
  exists kept', e2. split_and!; [done| |].
  - rewrite fmap_app, concat_app. simpl. by rewrite app_nil_r.
  - rewrite fmap_app, Hb. simpl. replace (Z.of_nat (length xs + 1)) with (Z.of_nat (length xs) + 1) by lia.
    rewrite seqZ_app by lia. by rewrite fmap_app.
Qed.
End reservoir.

(** C35: the reservoir keeps the log events of highest priority. Whatever
    events are added to a fresh reservoir of any admissible size but 1, it keeps as many as it can and frees the others,
    each exactly once; no freed event has a higher priority than a kept one, nor the same and a later time; an
    addition reports sampling exactly when the reservoir was full; the counters are right; and
    copying into a vector ends and hands over exactly the kept events. *)
Theorem nr_log_events_keep_highest `{Allocator event_ptr} (max : Z) (xs : list nr_log_event_t) :
  (∀ n, realloc_succeeds (V:=event_ptr) n = true) →
  0 ≤ max ≤ NR_MAX_LOG_EVENTS_MAX_SAMPLES_STORED → max ≠ 1 → Z.of_nat (length xs) < 2 ^ 64 →
  let '(rs, e) := run (λ x e, nr_log_events_add_event e (Some x)) xs (nr_log_events_create max) in
  ∃ kept, concat rs.*2 ++ kept ≡ₚ xs ∧ Z.of_nat (length kept) = Z.min max (Z.of_nat (length xs)) ∧
    (∀ d k, d ∈ concat rs.*2 → k ∈ kept →
      priority d < priority k ∨ priority d = priority k ∧ timestamp d ≤ timestamp k) ∧
    rs.*1 = ((λ i, bool_decide (max ≤ i)) <$> seqZ 0 (Z.of_nat (length xs))) ∧
    nr_log_events_number_seen e = Z.of_nat (length xs) ∧
    nr_log_events_number_saved e = Z.of_nat (length kept) ∧
    ∃ v, nr_log_events_to_vector e (Some (Vector.nr_vector_create 0 false)) = Some (Some v) ∧
      Vector.values v = Some <$> kept.
Proof.
  intros Hal Hmax H1 Hl. pose proof (run_reservoir max xs Hmax H1 Hl) as Hr.
  destruct (run _ xs _) as [rs e]. destruct Hr as (kept & e' & -> & (Ha & Hs & Hu & Hp & Hk & He) & Hb).
  exists kept. destruct (Vector.create_inv (V:=event_ptr) 0 false ltac:(lia)) as [Hv Hvs].
  destruct e' as [allocated used seen oh]. simpl in *. subst.
  destruct (decide (max = 0)) as [->|Hm].
  - subst oh. destruct kept; [|simpl in *; lia]. split_and!; try done; [set_solver|]. by eexists.
  - destruct He as (h & -> & Hkl & Hc & Hbd & Hcmp & _). split_and!; try done.
    + intros d k Hd' Hk'. pose proof (MinMaxHeap.kl_below _ _ Hkl (Some d) (Some k)) as Hle.
      rewrite Hcmp, Hc in Hle. specialize (Hle ltac:(by apply list_elem_of_fmap_2) ltac:(by apply list_elem_of_fmap_2)).
      revert Hle. cbn. unfold nr_log_event_priority_comparator. cbn. unfold nr_log_event_age_comparator. bool_cases.
    + destruct (push_all kept (Vector.nr_vector_create 0 false) Hal Hv) as (v & E & _ & Hvs').
      { simpl. unfold NR_MAX_LOG_EVENTS_MAX_SAMPLES_STORED in Hmax. lia. }
      exists v. rewrite Hvs in Hvs'. split; [|done]. cbn.
      rewrite MinMaxHeap.used_values_contents by apply Hkl. by rewrite Hc.
Qed.

Definition example_event (p t : Z) : nr_log_event_t :=
  LogEvent (Some (lit "m")) None t None None None None None None p.

Lemma nr_log_events_keep_highest_witness :
  let '(rs, e) := run (λ x e, nr_log_events_add_event e (Some x))
    [example_event 5 1; example_event 9 2; example_event 5 3; example_event 7 4] (nr_log_events_create 2) in
  concat rs.*2 = [example_event 5 1; example_event 5 3] ∧ nr_log_events_number_saved e = 2.
Proof.
  pose proof (@nr_log_events_keep_highest (GenerousAllocator.allocator event_ptr) 2
    [example_event 5 1; example_event 9 2; example_event 5 3; example_event 7 4]
    (λ _, eq_refl) ltac:(by split) ltac:(done) ltac:(done)) as Hw.
  destruct (run _ _ _) as [rs e] eqn:E. destruct Hw as (kept & _ & Hk & _ & _ & _ & Hs & _). split.
  - apply (f_equal (λ r, concat r.1.*2)) in E. cbn [fst] in E. rewrite <-E. vm_compute. reflexivity.
  - rewrite Hs, Hk. reflexivity.
Defined.

Lemma run_one (xs : list nr_log_event_t) : Z.of_nat (length xs) < 2 ^ 64 →
  run (λ x e, nr_log_events_add_event e (Some x)) xs (nr_log_events_create 1) =
  ((λ x, (true, [x])) <$> xs, Some (LogEvents 1 0 (Z.of_nat (length xs)) None)).
Proof.
  induction xs as [|x xs IH] using rev_ind; intros Hl; [done|].
  rewrite length_app in Hl |- *. cbn [length] in Hl |- *. rewrite run_snoc, IH by lia.
  cbn -[Z.add]. rewrite u64_small by lia. rewrite fmap_app. do 4 f_equal. lia.
Qed.

(** a reservoir asked for one log event keeps none. [nr_log_events_create 1]
    succeeds and promises room for one event, but its heap cannot be created (a bound of 1 is not one): every event
    added is freed at once and reported as sampled, although the reservoir is never full. *)
Theorem nr_log_events_create_one_keeps_none (xs : list nr_log_event_t) :
  Z.of_nat (length xs) < 2 ^ 64 →
  let '(rs, e) := run (λ x e, nr_log_events_add_event e (Some x)) xs (nr_log_events_create 1) in
  rs = (λ x, (true, [x])) <$> xs ∧ nr_log_events_max_events e = 1 ∧
  nr_log_events_number_seen e = Z.of_nat (length xs) ∧
  nr_log_events_number_saved e = 0 ∧ nr_log_events_is_sampling e = false.
Proof. intros Hl. by rewrite run_one. Qed.

Lemma nr_log_events_create_one_keeps_none_witness :
  let '(rs, e) := run (λ x e, nr_log_events_add_event e (Some x)) [example_event 5 1] (nr_log_events_create 1) in
  rs = [(true, [example_event 5 1])] ∧ nr_log_events_number_saved e = 0.
Proof.
  pose proof (nr_log_events_create_one_keeps_none [example_event 5 1] ltac:(done)) as Hw.
  destruct (run _ _ _) as [rs e]. split; apply Hw.
Defined.
