(* ===== verification/Random.v ===== *)
(** * Random: uniform random numbers (src/axiom/util_random.c)

    The generator is the linear congruential generator of POSIX: [nrand48] and
    [erand48] advance the 48-bit number held in the three shorts of [xsubi]. *)

From Stdlib Require Import QArith.
From S2P Require Import Prelude.
Local Open Scope Z_scope.

(** ** The generator of the C library *)
Definition lcg_a : Z := 0x5DEECE66D.
Definition lcg_c : Z := 0xB.

Definition lcg (x : Z) : Z := (lcg_a * x + lcg_c) mod 2 ^ 48.

(** ** State *)
Record nr_random_t := Random { xsubi0 : Z; xsubi1 : Z; xsubi2 : Z }.

Definition of_xsubi (r : nr_random_t) : Z := xsubi0 r + 2 ^ 16 * xsubi1 r + 2 ^ 32 * xsubi2 r.
Definition to_xsubi (x : Z) : nr_random_t :=
  Random (x mod 2 ^ 16) (x / 2 ^ 16 mod 2 ^ 16) (x / 2 ^ 32 mod 2 ^ 16).

(** The 31 high-order bits of the next number. *)
Definition nrand48 (r : nr_random_t) : Z * nr_random_t :=
  let x := lcg (of_xsubi r) in (Z.shiftr x 17, to_xsubi x).

(** The next number, as a fraction of 2^48. *)
Definition erand48 (r : nr_random_t) : Q * nr_random_t :=
  let x := lcg (of_xsubi r) in (x # 281474976710656, to_xsubi x).

(** ** Operations *)
Definition nr_random_create : nr_random_t := Random 0 0 0.

Definition nr_random_destroy (rnd_ptr : option (option nr_random_t)) : option (option nr_random_t) :=
  (λ _, None) <$> rnd_ptr.

Definition nr_random_seed (rnd : option nr_random_t) (seed : Z) : option nr_random_t :=
  (λ _, Random 0x330e (Z.land seed 0xffff) (Z.shiftr (Z.land seed 0xffffffff) 16)) <$> rnd.

Definition nr_random_create_from_seed (seed : Z) : option nr_random_t :=
  nr_random_seed (Some nr_random_create) seed.

Definition nr_random_seed_from_time (rnd : option nr_random_t) (now : Z) : option nr_random_t :=
  nr_random_seed rnd now.

Definition NR_RANDOM_MAX_EXCLUSIVE_LIMIT : Z := 2 ^ 31.

(** Up to [2 ^ k] rounds of a loop whose body goes on with [inl] and ends with
    [inr]. *)
Fixpoint rounds {S R : Type} (k : nat) (body : S → S + R) (s : S) : S + R :=
  match k with
  | O => body s
  | S k => match rounds k body s with inl s => rounds k body s | r => r end
  end.

Definition draw (largest_multiple max_exclusive : Z) (r : nr_random_t) : nr_random_t + (Z * nr_random_t) :=
  let '(x, r) := nrand48 r in
  if x <? largest_multiple then inr (x mod max_exclusive, r) else inl r.

(** The generator has a period of 2^48, after which the loop would never end:
    [None]. *)
Definition nr_random_range (rnd : option nr_random_t) (max_exclusive : Z) : option (Z * option nr_random_t) :=
  match rnd with
  | None => Some (0, None)
  | Some r =>
      if (max_exclusive <=? 1) || (NR_RANDOM_MAX_EXCLUSIVE_LIMIT <? max_exclusive) then Some (0, rnd)
      else
        let largest_multiple :=
          NR_RANDOM_MAX_EXCLUSIVE_LIMIT - NR_RANDOM_MAX_EXCLUSIVE_LIMIT mod max_exclusive in
        match rounds 48 (draw largest_multiple max_exclusive) r with
        | inr (x, r) => Some (x, Some r)
        | inl _ => None
        end
  end.

Arguments nr_random_range _ _ : simpl never.

Definition nr_random_real (rnd : option nr_random_t) : Q * option nr_random_t :=
  match rnd with
  | None => ((-1 # 1)%Q, None)
  | Some r => let '(x, r) := erand48 r in (x, Some r)
  end.

(** ** The period

    The generator modulo [2 ^ k] visits every residue within [2 ^ k] steps:
    [lcg_a] is 1 modulo 4 and [lcg_c] is odd. *)
Section period.
Implicit Types (n k : nat) (x t : Z).

Definition step (x : Z) : Z := lcg_a * x + lcg_c.

(** The sum of the first [n] powers of [lcg_a]. *)
Fixpoint geo (n : nat) : Z := match n with O => 0 | S n => lcg_a * geo n + 1 end.

Lemma geo_pow n : lcg_a ^ Z.of_nat n = (lcg_a - 1) * geo n + 1.
Proof.
  induction n as [|n IH]; [done|]. cbn [geo]. replace (Z.of_nat (S n)) with (1 + Z.of_nat n) by lia.
  rewrite Z.pow_add_r, IH, Z.pow_1_r by lia. ring.
Qed.

Lemma step_iter n x : Nat.iter n step x = x + geo n * ((lcg_a - 1) * x + lcg_c).
Proof.
  induction n as [|n IH]; [cbn; ring|]. change (Nat.iter (S n) step x) with (step (Nat.iter n step x)).
  rewrite IH. unfold step. cbn [geo]. ring.
Qed.

Lemma geo_add n m : geo (n + m) = lcg_a ^ Z.of_nat m * geo n + geo m.
Proof.
  induction m as [|m IH]; [rewrite Nat.add_0_r; change (Z.of_nat 0) with 0; rewrite Z.pow_0_r; cbn [geo]; ring|].
  rewrite Nat.add_succ_r. cbn [geo]. rewrite IH. replace (Z.of_nat (S m)) with (1 + Z.of_nat m) by lia.
  rewrite Z.pow_add_r, Z.pow_1_r by lia. ring.
Qed.

(** The sum of [2 ^ k] powers is an odd multiple of [2 ^ k]. *)
Lemma geo_pow2 k : ∃ m, geo (2 ^ k) = 2 ^ Z.of_nat k * (2 * m + 1).
Proof.
  induction k as [|k [m IH]]; [by exists 0|].
  replace (2 ^ S k)%nat with (2 ^ k + 2 ^ k)%nat by (simpl; lia).
  rewrite geo_add, geo_pow, IH. replace (Z.of_nat (S k)) with (1 + Z.of_nat k) by lia.
  rewrite Z.pow_add_r by lia. change (2 ^ 1) with 2.
  set (p := 2 ^ Z.of_nat k). set (o := 2 * m + 1).
  (* (a^n + 1) = (a - 1) p o + 2, half of which is odd *)
  exists (m + (lcg_a - 1) / 4 * p * o * o). replace (lcg_a - 1) with (4 * ((lcg_a - 1) / 4)) at 1 by done.
  generalize ((lcg_a - 1) / 4). intros q. subst o. ring.
Qed.

Lemma iter_reaches k x t : ∃ n, (n < 2 ^ k)%nat ∧ Nat.iter n step x mod 2 ^ Z.of_nat k = t mod 2 ^ Z.of_nat k.
Proof.
  revert x. induction k as [|k IH]; intros x; [exists O; split; [simpl; lia|by rewrite !Z.mod_1_r]|].
  destruct (IH x) as (n & Hn & Hmod). set (y := Nat.iter n step x) in *.
  replace (Z.of_nat (S k)) with (Z.of_nat k + 1) in * by lia. rewrite Z.pow_add_r by lia. change (2 ^ 1) with 2.
  set (p := 2 ^ Z.of_nat k) in *. assert (0 < p) by (apply Z.pow_pos_nonneg; lia).
  assert (∃ d, y = t + p * d) as [d Hd].
  { exists (y / p - t / p). pose proof (Z.div_mod y p). pose proof (Z.div_mod t p). lia. }
  pose proof (Z.div_mod d 2 ltac:(lia)) as Hd2. pose proof (Z.mod_pos_bound d 2 ltac:(lia)).
  destruct (decide (d mod 2 = 0)) as [Hev|Hodd].
  - exists n. split; [simpl; lia|]. fold y. rewrite Hd. replace d with (2 * (d / 2)) by lia.
    replace (t + p * (2 * (d / 2))) with (t + d / 2 * (p * 2)) by ring. apply Z.mod_add. lia.
  - exists (2 ^ k + n)%nat. split; [simpl; lia|]. rewrite Nat.iter_add. fold y. rewrite step_iter.
    destruct (geo_pow2 k) as [m ->]. fold p.
    assert (∃ q, (lcg_a - 1) * y + lcg_c = 2 * q + 1) as [q ->].
    { exists ((lcg_a - 1) / 2 * y + 5). replace (lcg_a - 1) with (2 * ((lcg_a - 1) / 2)) at 1 by done.
      unfold lcg_c. ring. }
    rewrite Hd. replace d with (2 * (d / 2) + 1) by lia.
    replace (t + p * (2 * (d / 2) + 1) + p * (2 * m + 1) * (2 * q + 1))
      with (t + (d / 2 + m * (2 * q + 1) + q + 1) * (p * 2)) by ring. apply Z.mod_add. lia.
Qed.
End period.

(** ** The loop of [nr_random_range] ends *)
Section rounds.
Context {S R : Type} (body : S → S + R) (f : S → S) (Hf : ∀ s s', body s = inl s' → s' = f s).

Lemma rounds_inl k s s' : rounds k body s = inl s' →
  s' = Nat.iter (2 ^ k) f s ∧ ∀ i, (i < 2 ^ k)%nat → ∃ t, body (Nat.iter i f s) = inl t.
Proof.
  revert s s'. induction k as [|k IH]; intros s s' Hr; cbn [rounds] in Hr.
  - split; [by apply Hf|]. intros i Hi. simpl in Hi. replace i with O by lia. by exists s'.
  - destruct (rounds k body s) as [s1|] eqn:E1; [|done].
    destruct (IH _ _ E1) as [-> H1]. destruct (IH _ _ Hr) as [-> H2].
    assert (2 ^ Datatypes.S k = 2 ^ k + 2 ^ k)%nat as E by (simpl; lia). rewrite E.
    split; [by rewrite Nat.iter_add|]. intros i Hi. destruct (decide (i < 2 ^ k)%nat) as [Hlt|Hge]; [by apply H1|].
    destruct (H2 (i - 2 ^ k)%nat) as [t Ht]; [lia|]. exists t. rewrite <-Nat.iter_add in Ht.
    by replace (i - 2 ^ k + 2 ^ k)%nat with i in Ht by lia.
Qed.

Lemma rounds_inr k s (P : R → Prop) : (∀ s r, body s = inr r → P r) →
  (∃ n r, (n < 2 ^ k)%nat ∧ body (Nat.iter n f s) = inr r) → ∃ r, rounds k body s = inr r ∧ P r.
Proof.
  intros HP (n & r & Hn & Hb). destruct (rounds k body s) as [s'|r'] eqn:E.
  - destruct (rounds_inl _ _ _ E) as [_ Hi]. destruct (Hi n Hn) as [t Ht]. congruence.
  - exists r'. split; [done|]. clear Hn Hb. revert s E. induction k as [|k IH]; intros s E; [by eapply HP|].
    cbn [rounds] in E. destruct (rounds k body s) as [s1|r1] eqn:E1; [by eapply IH|]. simplify_eq. by eapply IH.
Qed.
End rounds.

Definition next (r : nr_random_t) : nr_random_t := to_xsubi (lcg (of_xsubi r)).

Lemma of_to_xsubi x : 0 ≤ x < 2 ^ 48 → of_xsubi (to_xsubi x) = x.
Proof.
  intros Hx. unfold of_xsubi, to_xsubi. cbn [xsubi0 xsubi1 xsubi2].
  change (2 ^ 16) with 65536. change (2 ^ 32) with (65536 * 65536). change (2 ^ 48) with (65536 * (65536 * 65536)) in Hx.
  rewrite <-Z.div_div by lia. Z.to_euclidean_division_equations. lia.
Qed.

Lemma step_mod m x y : x mod m = y mod m → (lcg_a * x + lcg_c) mod m = step y mod m.
Proof.
  intros E. unfold step. rewrite <-(Zplus_mod_idemp_l (lcg_a * x)), <-(Zmult_mod_idemp_r x), E.
  by rewrite Zmult_mod_idemp_r, Zplus_mod_idemp_l.
Qed.

Lemma next_iter n r : of_xsubi (Nat.iter n next r) mod 2 ^ 48 = Nat.iter n step (of_xsubi r) mod 2 ^ 48.
Proof.
  induction n as [|n IH]; [done|].
  change (Nat.iter (S n) next r) with (next (Nat.iter n next r)).
  change (Nat.iter (S n) step (of_xsubi r)) with (step (Nat.iter n step (of_xsubi r))).
  unfold next. rewrite of_to_xsubi by (apply Z.mod_pos_bound; lia). unfold lcg.
  rewrite Z.mod_mod by lia. by apply step_mod.
Qed.

Definition short (x : Z) : Prop := 0 ≤ x < 2 ^ 16.
Definition wf_random (r : nr_random_t) : Prop := short (xsubi0 r) ∧ short (xsubi1 r) ∧ short (xsubi2 r).

Lemma to_xsubi_wf x : wf_random (to_xsubi x).
Proof. repeat split; apply Z.mod_pos_bound; lia. Qed.

Lemma draw_result l m r x r' : 0 < m → draw l m r = inr (x, r') → 0 ≤ x < m ∧ wf_random r'.
Proof.
  intros Hm. unfold draw, nrand48. destruct (Z.ltb_spec (Z.shiftr (lcg (of_xsubi r)) 17) l); [|done].
  intros [= <- <-]. split; [apply Z.mod_pos_bound; lia|apply to_xsubi_wf].
Qed.

Lemma range_returns r m : 1 < m ≤ NR_RANDOM_MAX_EXCLUSIVE_LIMIT →
  ∃ x r', nr_random_range (Some r) m = Some (x, Some r') ∧ 0 ≤ x < m ∧ wf_random r'.
Proof.
  unfold NR_RANDOM_MAX_EXCLUSIVE_LIMIT. intros Hm. unfold nr_random_range.
  destruct (Z.leb_spec m 1); [lia|]. destruct (Z.ltb_spec NR_RANDOM_MAX_EXCLUSIVE_LIMIT m); [unfold NR_RANDOM_MAX_EXCLUSIVE_LIMIT in *; lia|].
  cbn [orb]. set (l := NR_RANDOM_MAX_EXCLUSIVE_LIMIT - _).
  assert (0 < l) as Hl by (pose proof (Z.mod_pos_bound NR_RANDOM_MAX_EXCLUSIVE_LIMIT m); unfold l, NR_RANDOM_MAX_EXCLUSIVE_LIMIT in *; lia).
  destruct (rounds_inr (draw l m) next ltac:(unfold draw, nrand48; intros s s'; by case_match; intros [= <-]) 48 r
    (λ '(x, r'), 0 ≤ x < m ∧ wf_random r')) as ([x r'] & -> & ?).
  - intros s [x r'] Hd. apply (draw_result l m s); [lia|done].
  - destruct (iter_reaches 48 (step (of_xsubi r)) 0) as (n & Hn & Hz). exists n.
    change (2 ^ Z.of_nat 48) with (2 ^ 48) in Hz. rewrite Z.mod_0_l in Hz by done.
    assert (lcg (of_xsubi (Nat.iter n next r)) = 0) as Hx.
    { unfold lcg. rewrite <-Hz. change (step (of_xsubi r)) with (Nat.iter 1 step (of_xsubi r)).
      rewrite <-Nat.iter_add, Nat.add_1_r. rewrite <-next_iter.
      change (Nat.iter (S n) next r) with (next (Nat.iter n next r)). unfold next.
      rewrite of_to_xsubi by (apply Z.mod_pos_bound; lia). unfold lcg. by rewrite Z.mod_mod. }
    unfold draw, nrand48. rewrite Hx. change (Z.shiftr 0 17) with 0. destruct (Z.ltb_spec 0 l); [|lia]. by eexists.
  - by exists x, r'.
Qed.

Lemma range_some r m : ∃ x r', nr_random_range (Some r) m = Some (x, Some r').
Proof.
  destruct (decide (1 < m ≤ NR_RANDOM_MAX_EXCLUSIVE_LIMIT)) as [Hm|Hm].
  - destruct (range_returns r m Hm) as (x & r' & ? & _). eauto.
  - exists 0, r. unfold nr_random_range.
    destruct (Z.leb_spec m 1), (Z.ltb_spec NR_RANDOM_MAX_EXCLUSIVE_LIMIT m); try done. lia.
Qed.

(** [nr_random_range] always returns, and in range. Whatever the state of
    the generator and the bound, the loop that rejects the draws above the largest multiple of the bound meets a
    draw it accepts before the generator is back where it started; the number returned is below the bound, and
    it is 0 without a generator and for a bound of at most 1 or above the limit, where no number is drawn. *)
Theorem nr_random_range_returns (rnd : option nr_random_t) (m : Z) :
  ∃ x rnd', nr_random_range rnd m = Some (x, rnd') ∧
    match rnd with
    | Some r =>
        if decide (1 < m ≤ NR_RANDOM_MAX_EXCLUSIVE_LIMIT)
        then 0 ≤ x < m ∧ ∃ r', rnd' = Some r' ∧ wf_random r'
        else x = 0 ∧ rnd' = rnd
    | None => x = 0 ∧ rnd' = None
    end.
Proof.
  destruct rnd as [r|]; [|by exists 0, None]. destruct (decide _) as [Hm|Hm].
  - destruct (range_returns r m Hm) as (x & r' & -> & ? & ?). eauto 10.
  - exists 0, (Some r). split; [|done]. unfold nr_random_range.
    destruct (Z.leb_spec m 1), (Z.ltb_spec NR_RANDOM_MAX_EXCLUSIVE_LIMIT m); try done. lia.
Qed.
