(* ===== verification/AnalyticsEvents.v ===== *)
(** * AnalyticsEvents: the sampled reservoir of analytics events
    (src/axiom/nr_analytics_events.c)

    An event is the JSON text it is stored as.  The reservoir holds copies of
    the events given to it, chosen by random replacement when it is full. *)

From S2P Require Import Prelude CString Strings Random.
Local Open Scope Z_scope.
#[local] Set Warnings "-clear-no-such-hyp".

Record nr_analytics_event_t := Event { json : list Z }.

Definition nr_analytics_event_create_from_string (str : option (list Z)) : nr_analytics_event_t :=
  Event (nr_strdup str).

Definition nr_analytics_event_duplicate (event : option nr_analytics_event_t) : option nr_analytics_event_t :=
  (λ e, Event (nr_strdup (Some (json e)))) <$> event.

Definition nr_analytics_event_json (event : option nr_analytics_event_t) : option (list Z) := json <$> event.

Definition nr_analytics_event_destroy (event_ptr : option (option nr_analytics_event_t)) :
    list nr_analytics_event_t * option (option nr_analytics_event_t) :=
  match event_ptr with Some (Some e) => ([e], Some None) | _ => ([], event_ptr) end.

Record nr_analytics_events_t := Events {
  events_allocated : Z;
  events_used : Z;
  events_seen : Z;
  events : list (option nr_analytics_event_t);
}.

Section events.
Implicit Types evs : option nr_analytics_events_t.

Definition nr_analytics_events_max_events evs : Z := from_option events_allocated 0 evs.
Definition nr_analytics_events_number_seen evs : Z := from_option events_seen 0 evs.
Definition nr_analytics_events_number_saved evs : Z := from_option events_used 0 evs.

Definition NR_ANALYTICS_EVENTS_MAX_EVENTS_SANITY_CHECK : Z := 10 * 1000 * 1000.

Definition nr_analytics_events_create_ex (max_events : Z) : option nr_analytics_events_t :=
  if max_events <? 0 then None
  else if NR_ANALYTICS_EVENTS_MAX_EVENTS_SANITY_CHECK <? max_events then None
  else Some (Events max_events 0 0 (replicate (Z.to_nat max_events) None)).

Definition nr_analytics_events_create (max_events : Z) : option nr_analytics_events_t :=
  if max_events <=? 0 then None else nr_analytics_events_create_ex max_events.

(** The events freed, in order, and the pointer afterwards. *)
Definition nr_analytics_events_destroy (events_ptr : option (option nr_analytics_events_t)) :
    list nr_analytics_event_t * option (option nr_analytics_events_t) :=
  match events_ptr with
  | Some (Some e) =>
      (seqZ 0 (events_used e) ≫= (λ i, (nr_analytics_event_destroy (events e !! Z.to_nat i)).1), Some None)
  | _ => ([], events_ptr)
  end.

Definition nr_analytics_events_is_sampling evs : bool :=
  match evs with None => false | Some e => negb (events_used e <? events_allocated e) end.

Definition set_event (e : nr_analytics_events_t) (i : Z) (event : option nr_analytics_event_t) :=
  <[Z.to_nat i := event]> (events e).

(** The reservoir and the generator afterwards; [None] when the random number
    does not come. *)
Definition nr_analytics_events_add_event evs (event : option nr_analytics_event_t) (rnd : option nr_random_t) :
    option (option nr_analytics_events_t * option nr_random_t) :=
  match evs, event with
  | Some e, Some _ =>
      let seen := events_seen e + 1 in
      if negb (nr_analytics_events_is_sampling evs)
      then Some (Some (Events (events_allocated e) (events_used e + 1) seen
                         (set_event e (events_used e) (nr_analytics_event_duplicate event))), rnd)
      else
        '(replace_idx, rnd) ← nr_random_range rnd seen;
        Some (Some (Events (events_allocated e) (events_used e) seen
                (if (0 <=? replace_idx) && (replace_idx <? events_allocated e)
                 then set_event e replace_idx (nr_analytics_event_duplicate event)
                 else events e)), rnd)
  | _, _ => Some (evs, rnd)
  end.

Definition nr_analytics_events_get_event_json evs (i : Z) : option (list Z) :=
  match evs with
  | None => None
  | Some e => if (i <? 0) || (events_used e <=? i) then None
              else nr_analytics_event_json (mjoin (events e !! Z.to_nat i))
  end.
End events.

(** ** Runs *)
Definition add_all (jsons : list (list Z)) (evs : option nr_analytics_events_t) (rnd : option nr_random_t) :
    option (option nr_analytics_events_t * option nr_random_t) :=
  foldl (λ acc j, '(evs, rnd) ← acc; nr_analytics_events_add_event evs (Some (Event j)) rnd) (Some (evs, rnd)) jsons.

Definition saved_json (evs : option nr_analytics_events_t) : list (option (list Z)) :=
  nr_analytics_events_get_event_json evs <$> seqZ 0 (nr_analytics_events_number_saved evs).

(** [idx] are the positions, among the events added, of the saved ones. *)
Record reservoir (max : Z) (jsons : list (list Z)) (idx : list nat) (e : nr_analytics_events_t) : Prop := {
  rv_allocated : events_allocated e = max;
  rv_seen : events_seen e = Z.of_nat (length jsons);
  rv_used : events_used e = Z.of_nat (length idx);
  rv_length : Z.of_nat (length idx) = Z.min max (Z.of_nat (length jsons));
  rv_nodup : NoDup idx;
  rv_saved : events e = ((λ i, Event <$> jsons !! i) <$> idx) ++ replicate (Z.to_nat max - length idx) None;
  rv_range : Forall (λ i, (i < length jsons)%nat) idx;
}.

Lemma duplicate_event j : is_cstr j → nr_analytics_event_duplicate (Some (Event j)) = Some (Event j).
Proof. intros Hj. unfold nr_analytics_event_duplicate, nr_strdup. simpl. by rewrite cstr_id. Qed.

Lemma saved_extend jsons j idx : Forall (λ i, (i < length jsons)%nat) idx →
  (λ i, Event <$> (jsons ++ [j]) !! i) <$> idx = (λ i, Event <$> jsons !! i) <$> idx.
Proof. induction 1 as [|i idx Hi _ IH]; [done|]. rewrite !fmap_cons, IH. by rewrite lookup_app_l. Qed.

Lemma add_reservoir max jsons j idx e rnd : 0 ≤ max → is_cstr j → Z.of_nat (length jsons) + 1 < 2 ^ 31 →
  reservoir max jsons idx e →
  ∃ idx' e' rnd', nr_analytics_events_add_event (Some e) (Some (Event j)) rnd = Some (Some e', rnd') ∧
    reservoir max (jsons ++ [j]) idx' e'.
Proof.
  intros Hmax Hj Hl [Ha Hs Hu Hlen Hnd Hsv Hr]. unfold nr_analytics_events_add_event, nr_analytics_events_is_sampling, set_event.
  rewrite duplicate_event, Ha, Hs, Hu, Hsv, negb_involutive by done.
  assert (Forall (λ i, (i < length (jsons ++ [j]))%nat) idx) as Hr'.
  { eapply Forall_impl; [done|]. simpl. intros i Hi. rewrite length_app. lia. }
  assert (Some (Event j) = Event <$> (jsons ++ [j]) !! length jsons) as Ej by by rewrite lookup_app_r, Nat.sub_diag.
  assert (length jsons ∉ idx) as Hnew by (intros Hin; rewrite Forall_forall in Hr; apply Hr in Hin; lia).
  rewrite <-(saved_extend jsons j idx Hr).
  destruct (Z.ltb_spec (Z.of_nat (length idx)) max) as [Hroom|Hfull].
  - exists (idx ++ [length jsons]). do 2 eexists. split; [done|]. split; simpl; rewrite ?length_app; simpl; try lia.
    + apply NoDup_app. split_and!; [done|set_solver|apply NoDup_singleton].
    + rewrite Nat2Z.id, fmap_app. simpl. rewrite <-Ej.
      replace (Z.to_nat max - length idx)%nat with (S (Z.to_nat max - (length idx + 1))) by lia.
      rewrite insert_app_r_alt by (rewrite length_fmap; lia). rewrite length_fmap, Nat.sub_diag. simpl. by rewrite <-app_assoc.
    + apply Forall_app. rewrite length_app in Hr'. split; [done|]. repeat constructor. lia.
  - destruct (nr_random_range rnd (Z.of_nat (length jsons) + 1)) as [[r rnd']|] eqn:Er; simpl.
    2:{ exfalso. destruct rnd as [rn|]; [|done]. destruct (decide (1 < Z.of_nat (length jsons) + 1)).
        - destruct (range_returns rn (Z.of_nat (length jsons) + 1)) as (? & ? & E & _); [unfold NR_RANDOM_MAX_EXCLUSIVE_LIMIT; lia|congruence].
        - unfold nr_random_range in Er. destruct (Z.leb_spec (Z.of_nat (length jsons) + 1) 1); [done|lia]. }
    destruct ((0 <=? r) && (r <? max)) eqn:Eb.
    + apply andb_true_iff in Eb as [H1 H2]. exists (<[Z.to_nat r := length jsons]> idx). do 2 eexists. split; [done|].
      assert (Z.to_nat r < length idx)%nat by lia.
      split; simpl; rewrite ?length_app, ?length_insert; simpl; try lia.
      * by apply NoDup_insert_new.
      * rewrite insert_app_l by (rewrite length_fmap; lia). by rewrite list_fmap_insert, <-Ej.
      * apply Forall_insert; [by rewrite length_app in Hr'|]. lia.
    + exists idx. do 2 eexists. split; [done|]. split; simpl; rewrite ?length_app; simpl; try done; try lia.
      by rewrite length_app in Hr'.
Qed.

Lemma add_all_snoc jsons j evs rnd : add_all (jsons ++ [j]) evs rnd =
  '(evs, rnd) ← add_all jsons evs rnd; nr_analytics_events_add_event evs (Some (Event j)) rnd.
Proof. unfold add_all. by rewrite foldl_app. Qed.

Lemma add_all_reservoir max jsons rnd : 0 ≤ max ≤ NR_ANALYTICS_EVENTS_MAX_EVENTS_SANITY_CHECK →
  Forall is_cstr jsons → Z.of_nat (length jsons) < 2 ^ 31 →
  ∃ idx e rnd', add_all jsons (nr_analytics_events_create_ex max) rnd = Some (Some e, rnd') ∧
    reservoir max jsons idx e.
Proof.
  intros Hmax. induction jsons as [|j jsons IH] using rev_ind; intros Hj Hl.
  - unfold nr_analytics_events_create_ex. destruct (Z.ltb_spec max 0); [lia|].
    destruct (Z.ltb_spec NR_ANALYTICS_EVENTS_MAX_EVENTS_SANITY_CHECK max); [lia|].
    exists [], (Events max 0 0 (replicate (Z.to_nat max) None)), rnd. split; [done|].
    split; simpl; try done; try lia; [constructor|by rewrite Nat.sub_0_r].
  - apply Forall_app in Hj as [Hjs Hj]. apply Forall_cons in Hj as [Hj _]. rewrite length_app in Hl. simpl in Hl.
    destruct IH as (idx & e & rnd1 & E & Hr); [done|lia|].
    destruct (add_reservoir max jsons j idx e rnd1) as (idx' & e' & rnd' & E' & Hr'); [lia|done|lia|done|].
    exists idx', e', rnd'. split; [|done]. by rewrite add_all_snoc, E.
Qed.

Lemma saved_lookup max jsons idx e : reservoir max jsons idx e →
  saved_json (Some e) = (λ i, jsons !! i) <$> idx.
Proof.
  intros [Ha Hs Hu Hlen Hnd Hsv Hr]. unfold saved_json, nr_analytics_events_number_saved. simpl. rewrite Hu.
  apply list_eq. intros k. rewrite !list_lookup_fmap. destruct (decide (k < length idx)%nat) as [Hk|Hk].
  - rewrite lookup_seqZ_lt by lia. destruct (lookup_lt_is_Some_2 idx k Hk) as [i Hi]. rewrite Hi. simpl.
    unfold nr_analytics_events_get_event_json. rewrite Hu. destruct (Z.ltb_spec (0 + Z.of_nat k) 0); [lia|].
    destruct (Z.leb_spec (Z.of_nat (length idx)) (0 + Z.of_nat k)); [lia|]. cbn [orb].
    rewrite Hsv, lookup_app_l by (rewrite length_fmap; lia). rewrite list_lookup_fmap.
    replace (Z.to_nat (0 + Z.of_nat k)) with k by lia. rewrite Hi. simpl. f_equal. by destruct (jsons !! i).
  - rewrite lookup_seqZ_ge, (lookup_ge_None_2 idx) by lia. done.
Qed.

(** the reservoir is a sample without repetition. Whatever events are added
    to a fresh reservoir, with whatever generator or none, every addition returns; the reservoir has then seen
    all the events and saved as many as it has room for, up to the number added; and what it gives back are unchanged copies
    of events at distinct positions of the sequence added, so that none is lost before the reservoir is
    full and none is saved twice. *)
Theorem nr_analytics_events_sample (max : Z) (jsons : list (list Z)) (rnd : option nr_random_t) :
  0 ≤ max ≤ NR_ANALYTICS_EVENTS_MAX_EVENTS_SANITY_CHECK →
  Forall is_cstr jsons → Z.of_nat (length jsons) < 2 ^ 31 →
  ∃ evs rnd' (idx : list nat),
    add_all jsons (nr_analytics_events_create_ex max) rnd = Some (evs, rnd') ∧
    nr_analytics_events_number_seen evs = Z.of_nat (length jsons) ∧
    nr_analytics_events_number_saved evs = Z.min max (Z.of_nat (length jsons)) ∧
    nr_analytics_events_is_sampling evs = bool_decide (max ≤ Z.of_nat (length jsons)) ∧
    NoDup idx ∧ Forall (λ i, (i < length jsons)%nat) idx ∧
    saved_json evs = (λ i, jsons !! i) <$> idx.
Proof.
  intros Hmax Hj Hl. destruct (add_all_reservoir max jsons rnd Hmax Hj Hl) as (idx & e & rnd' & E & Hr).
  exists (Some e), rnd', idx. pose proof Hr as [Ha Hs Hu Hlen Hnd Hsv Hrg]. split_and!; try done.
  - simpl. lia.
  - simpl. rewrite Ha, Hu. destruct (Z.ltb_spec (Z.of_nat (length idx)) max); case_bool_decide; lia || done.
  - by eapply saved_lookup.
Qed.

(** Room for two of three events: the third replaces one or is not saved. *)
Lemma nr_analytics_events_sample_witness :
  ∃ evs rnd', add_all [lit "[1]"; lit "[2]"; lit "[3]"] (nr_analytics_events_create_ex 2)
      (nr_random_create_from_seed 1) = Some (evs, rnd') ∧
    nr_analytics_events_number_saved evs = 2 ∧ nr_analytics_events_number_seen evs = 3.
Proof.
  destruct (nr_analytics_events_sample 2 [lit "[1]"; lit "[2]"; lit "[3]"] (nr_random_create_from_seed 1))
    as (evs & rnd' & idx & E & Hs & Hv & _); [by split|by repeat constructor|done|].
  exists evs, rnd'. split; [exact E|]. split; [rewrite Hv; reflexivity|rewrite Hs; reflexivity].
Defined.
