(* ===== verification/AppHarvest.v ===== *)
(** * AppHarvest: adaptive sampling of transactions (src/axiom/nr_app_harvest.c)

    The harvest counts the transactions of the current cycle and decides which
    are sampled.  Times and counters are 64-bit unsigned. *)

From S2P Require Import Prelude Random.
Local Open Scope Z_scope.

Record nr_app_harvest_t := AppHarvest {
  connect_timestamp : Z;
  frequency : Z;
  target_transactions_per_cycle : Z;
  next_harvest : Z;
  threshold : Z;
  prev_transactions_seen : Z;
  transactions_seen : Z;
  transactions_sampled : Z;
}.

Section harvest.
(** [pow (target, target / sampled) - pow (target, 0.5)], computed by the
    floating-point library and truncated. *)
Context (pow_difference : Z → Z → Z).
Implicit Types ah : nr_app_harvest_t.

Definition nr_app_harvest_calculate_next_harvest_time ah (now : Z) : Z :=
  if now <? connect_timestamp ah then connect_timestamp ah
  else if frequency ah =? 0 then connect_timestamp ah
  else
    let cycles := (now - connect_timestamp ah) / frequency ah in
    u64 (connect_timestamp ah + u64 (frequency ah * (cycles + 1))).

Definition nr_app_harvest_calculate_threshold (target sampled_true_count : Z) : Z :=
  if (sampled_true_count =? 0) || (target =? 0) || (sampled_true_count <? target) then 0
  else pow_difference target sampled_true_count.

Definition nr_app_harvest_compare_harvest_to_now (connect_timestamp frequency now : Z) : bool :=
  now <? u64 (connect_timestamp + frequency).

Definition nr_app_harvest_is_first (oah : option nr_app_harvest_t) (now : Z) : bool :=
  match oah with
  | None => false
  | Some ah => nr_app_harvest_compare_harvest_to_now (connect_timestamp ah) (frequency ah) now
  end.

Definition nr_app_harvest_private_init (oah : option nr_app_harvest_t)
    (connect harvest_frequency sampling_target now : Z) : option nr_app_harvest_t :=
  match oah with
  | None => None
  | Some (AppHarvest prev_connect prev_frequency _ next thr prev seen sampled) =>
      let ah := AppHarvest connect harvest_frequency sampling_target next thr prev seen sampled in
      if negb (connect =? prev_connect) || negb (harvest_frequency =? prev_frequency)
      then Some (AppHarvest connect harvest_frequency sampling_target
                   (nr_app_harvest_calculate_next_harvest_time ah now) 0 0 0 0)
      else Some ah
  end.

Definition nr_app_harvest_init oah (connect harvest_frequency sampling_target clock : Z) :=
  nr_app_harvest_private_init oah connect harvest_frequency sampling_target clock.

(** The counters rolled into a new harvest. *)
Definition roll ah (now : Z) : nr_app_harvest_t :=
  if next_harvest ah <=? now then
    let thr := nr_app_harvest_calculate_threshold (target_transactions_per_cycle ah) (transactions_sampled ah) in
    let prev := if u64 (next_harvest ah + frequency ah) <=? now then 0 else transactions_seen ah in
    AppHarvest (connect_timestamp ah) (frequency ah) (target_transactions_per_cycle ah)
      (nr_app_harvest_calculate_next_harvest_time ah now) thr prev 0 0
  else ah.

Definition see ah : nr_app_harvest_t :=
  AppHarvest (connect_timestamp ah) (frequency ah) (target_transactions_per_cycle ah) (next_harvest ah)
    (threshold ah) (prev_transactions_seen ah) (u64 (transactions_seen ah + 1)) (transactions_sampled ah).

Definition sample ah : nr_app_harvest_t :=
  AppHarvest (connect_timestamp ah) (frequency ah) (target_transactions_per_cycle ah) (next_harvest ah)
    (threshold ah) (prev_transactions_seen ah) (transactions_seen ah) (u64 (transactions_sampled ah + 1)).

Definition set_threshold ah (t : Z) : nr_app_harvest_t :=
  AppHarvest (connect_timestamp ah) (frequency ah) (target_transactions_per_cycle ah) (next_harvest ah)
    t (prev_transactions_seen ah) (transactions_seen ah) (transactions_sampled ah).

(** [None] when the random number does not come. *)
Definition nr_app_harvest_private_should_sample (oah : option nr_app_harvest_t) (rnd : option nr_random_t)
    (now : Z) : option (bool * option nr_app_harvest_t * option nr_random_t) :=
  match oah, rnd with
  | Some ah, Some _ =>
      let ah := see (roll ah now) in
      let target := target_transactions_per_cycle ah in
      if nr_app_harvest_is_first (Some ah) now then
        if transactions_sampled ah <? target then Some (true, Some (sample ah), rnd)
        else Some (false, Some ah, rnd)
      else if transactions_sampled ah <? target then
        '(r, rnd) ← nr_random_range rnd (prev_transactions_seen ah);
        if r <? target then Some (true, Some (sample ah), rnd) else Some (false, Some ah, rnd)
      else
        let ah := set_threshold ah (nr_app_harvest_calculate_threshold target (transactions_sampled ah)) in
        '(r, rnd) ← nr_random_range rnd (transactions_seen ah);
        if r <? threshold ah then Some (true, Some (sample ah), rnd) else Some (false, Some ah, rnd)
  | _, _ => Some (false, oah, rnd)
  end.

Definition nr_app_harvest_should_sample (oah : option nr_app_harvest_t) (rnd : option nr_random_t) (clock : Z) :=
  nr_app_harvest_private_should_sample oah rnd clock.

(** ** Invariant: the next harvest is the end of a cycle counted from the
    connection, and no more transactions are sampled than seen. *)
Record harvest_inv ah : Prop := {
  hi_connect : 0 ≤ connect_timestamp ah;
  hi_frequency : 0 < frequency ah;
  hi_next : ∃ k, 0 ≤ k ∧ next_harvest ah = connect_timestamp ah + k * frequency ah;
  hi_counts : 0 ≤ transactions_sampled ah ≤ transactions_seen ah;
  hi_target : 0 ≤ target_transactions_per_cycle ah;
}.

Lemma next_harvest_time ah now : 0 ≤ connect_timestamp ah ≤ now → 0 < frequency ah →
  now + frequency ah < 2 ^ 64 →
  ∃ k, 0 ≤ k ∧ nr_app_harvest_calculate_next_harvest_time ah now = connect_timestamp ah + k * frequency ah ∧
    now < connect_timestamp ah + k * frequency ah ≤ now + frequency ah.
Proof.
  intros Hc Hf Hb. unfold nr_app_harvest_calculate_next_harvest_time.
  destruct (Z.ltb_spec now (connect_timestamp ah)); [lia|]. destruct (Z.eqb_spec (frequency ah) 0); [lia|].
  set (q := (now - connect_timestamp ah) / frequency ah).
  pose proof (Z.div_mod (now - connect_timestamp ah) (frequency ah) ltac:(lia)) as Hd. fold q in Hd.
  pose proof (Z.mod_pos_bound (now - connect_timestamp ah) (frequency ah) Hf).
  assert (0 ≤ q) by (apply Z.div_pos; lia). exists (q + 1). rewrite !u64_small by (rewrite ?u64_small; nia).
  split_and!; [lia|nia|nia|nia].
Qed.

(** What the roll leaves: the counters of the cycle that [now] is in. *)
Lemma roll_spec ah now : harvest_inv ah → connect_timestamp ah ≤ now → now + frequency ah < 2 ^ 64 →
  next_harvest ah + frequency ah < 2 ^ 64 →
  let ah' := roll ah now in
  harvest_inv ah' ∧ now < next_harvest ah' ∧
  connect_timestamp ah' = connect_timestamp ah ∧ frequency ah' = frequency ah ∧
  target_transactions_per_cycle ah' = target_transactions_per_cycle ah ∧
  if decide (next_harvest ah ≤ now) then
    next_harvest ah' ≤ now + frequency ah ∧ transactions_seen ah' = 0 ∧ transactions_sampled ah' = 0 ∧
    prev_transactions_seen ah' = (if decide (now < next_harvest ah + frequency ah) then transactions_seen ah else 0)
  else ah' = ah.
Proof.
  intros [Hc Hf (k & Hk & Hn) Hcnt Ht] Hnow Hb Hb2 ah'. unfold ah', roll.
  destruct (Z.leb_spec (next_harvest ah) now), (decide (next_harvest ah ≤ now)); try lia; cycle 1.
  { split_and!; try done; try lia. split; eauto. }
  destruct (next_harvest_time ah now) as (k' & Hk' & E & Hr); [lia..|]. rewrite E, u64_small by nia. simpl.
  split_and!; try done; try lia.
  - split; simpl; try lia. by exists k'.
  - destruct (Z.leb_spec (next_harvest ah + frequency ah) now), (decide (now < next_harvest ah + frequency ah)); lia.
Qed.

(** The decision, once the counters are those of the current cycle. *)
Lemma decision ah r now :
  let ah2 := see (roll ah now) in
  ∃ b t r', nr_app_harvest_private_should_sample (Some ah) (Some r) now =
    Some (b, Some (set_threshold (if (b : bool) then sample ah2 else ah2) t), Some r') ∧
    (nr_app_harvest_is_first (Some ah2) now = true →
      b = bool_decide (transactions_sampled ah2 < target_transactions_per_cycle ah2)).
Proof.
  intros ah2. unfold nr_app_harvest_private_should_sample. fold ah2. cbv zeta. clearbody ah2.
  assert (∀ a, set_threshold a (threshold a) = a) as Hset by (by intros []).
  assert (∀ a, set_threshold (sample a) (threshold a) = sample a) as Hsam by (by intros []).
  destruct (nr_app_harvest_is_first (Some ah2) now).
  { destruct (Z.ltb_spec (transactions_sampled ah2) (target_transactions_per_cycle ah2)).
    - exists true, (threshold ah2), r. split; [by rewrite Hsam|]. by rewrite bool_decide_true.
    - exists false, (threshold ah2), r. split; [by rewrite Hset|]. rewrite bool_decide_false by lia. done. }
  destruct (transactions_sampled ah2 <? target_transactions_per_cycle ah2).
  - destruct (range_some r (prev_transactions_seen ah2)) as (x & r' & ->). cbn [mbind option_bind].
    destruct (x <? _); [exists true|exists false]; exists (threshold ah2), r'; (split; [|done]).
    + by rewrite Hsam.
    + by rewrite Hset.
  - change (transactions_seen (set_threshold ah2 _)) with (transactions_seen ah2).
    destruct (range_some r (transactions_seen ah2)) as (x & r' & ->). cbn [mbind option_bind].
    destruct (x <? _); [exists true|exists false];
      exists (nr_app_harvest_calculate_threshold (target_transactions_per_cycle ah2) (transactions_sampled ah2)), r'; done.
Qed.

Lemma harvest_step ah r now : harvest_inv ah → connect_timestamp ah ≤ now → now + frequency ah < 2 ^ 64 →
  next_harvest ah + frequency ah < 2 ^ 64 → transactions_seen ah + 1 < 2 ^ 64 →
  ∃ b ah' r', nr_app_harvest_private_should_sample (Some ah) (Some r) now = Some (b, Some ah', Some r') ∧
    harvest_inv ah' ∧ now < next_harvest ah' ∧
    connect_timestamp ah' = connect_timestamp ah ∧ frequency ah' = frequency ah ∧
    target_transactions_per_cycle ah' = target_transactions_per_cycle ah ∧
    (if decide (next_harvest ah ≤ now) then
       next_harvest ah' ≤ now + frequency ah ∧ transactions_seen ah' = 1 ∧ transactions_sampled ah' = Z.b2z b ∧
       prev_transactions_seen ah' = (if decide (now < next_harvest ah + frequency ah) then transactions_seen ah else 0)
     else
       next_harvest ah' = next_harvest ah ∧ transactions_seen ah' = transactions_seen ah + 1 ∧
       transactions_sampled ah' = transactions_sampled ah + Z.b2z b ∧
       prev_transactions_seen ah' = prev_transactions_seen ah) ∧
    (now < connect_timestamp ah + frequency ah →
      b = bool_decide ((if decide (next_harvest ah ≤ now) then 0 else transactions_sampled ah) <
                       target_transactions_per_cycle ah)).
Proof.
  intros Hinv Hnow Hb Hb2 Hseen. destruct (roll_spec ah now Hinv Hnow Hb Hb2) as (Hi & Hlt & Hc & Hf & Ht & Hroll).
  destruct (decision ah r now) as (b & t & r' & E & Hfirst). exists b. eexists _, r'. split; [exact E|].
  destruct Hi as [Hi1 Hi2 Hi3 Hi4 Hi5]. pose proof (hi_counts _ Hinv) as Hcnt. pose proof (hi_connect _ Hinv).
  assert (transactions_seen (roll ah now) + 1 < 2 ^ 64) as Hs by (destruct (decide _); [lia|by rewrite Hroll]).
  assert (transactions_seen (see (roll ah now)) = transactions_seen (roll ah now) + 1) as Hs2
    by (simpl; by rewrite u64_small by lia).
  set (ah2 := see (roll ah now)) in *. change (transactions_sampled (roll ah now)) with (transactions_sampled ah2) in *.
  set (ah' := set_threshold _ t).
  assert (transactions_sampled ah' = transactions_sampled ah2 + Z.b2z b ∧ transactions_seen ah' = transactions_seen ah2 ∧
    prev_transactions_seen ah' = prev_transactions_seen ah2 ∧ next_harvest ah' = next_harvest ah2 ∧
    connect_timestamp ah' = connect_timestamp ah2 ∧ frequency ah' = frequency ah2 ∧
    target_transactions_per_cycle ah' = target_transactions_per_cycle ah2) as (E1 & E2 & E3 & E4 & E5 & E6 & E7).
  { subst ah'. destruct b; simpl; split_and!; try done; [|lia]. by rewrite u64_small by (simpl in *; lia). }
  split_and!; try (by rewrite ?E4, ?E5, ?E6, ?E7).
  - split; rewrite ?E1, ?E2, ?E4, ?E5, ?E6, ?E7; try done. rewrite Hs2. destruct b; simpl in *; lia.
  - rewrite E1, E2, E3, E4, Hs2. destruct (decide (next_harvest ah ≤ now)).
    + destruct Hroll as (R1 & R2 & -> & R4). rewrite R2. by split_and!.
    + subst ah2. rewrite Hroll. done.
  - intros Hnf. rewrite Hfirst.
    + change (target_transactions_per_cycle ah2) with (target_transactions_per_cycle (roll ah now)). rewrite Ht.
      destruct (decide (next_harvest ah ≤ now));
        [|change (transactions_sampled ah2) with (transactions_sampled (roll ah now)); by rewrite Hroll]. by destruct Hroll as (_ & _ & -> & _).
    + simpl. unfold nr_app_harvest_compare_harvest_to_now. rewrite Hc, Hf. apply Z.ltb_lt.
      pose proof (hi_frequency _ Hinv). rewrite u64_small; lia.
Qed.

(** A sequence of transactions, at the times given. *)
Fixpoint sample_all (nows : list Z) (ah : option nr_app_harvest_t) (rnd : option nr_random_t) :
    option (list bool * option nr_app_harvest_t * option nr_random_t) :=
  match nows with
  | [] => Some ([], ah, rnd)
  | now :: nows =>
      '(b, ah, rnd) ← nr_app_harvest_private_should_sample ah rnd now;
      '(bs, ah, rnd) ← sample_all nows ah rnd;
      Some (b :: bs, ah, rnd)
  end.

Lemma first_cycle nows ah r : harvest_inv ah → next_harvest ah = connect_timestamp ah + frequency ah →
  connect_timestamp ah + 2 * frequency ah < 2 ^ 64 →
  transactions_seen ah + Z.of_nat (length nows) < 2 ^ 64 →
  Forall (λ now, connect_timestamp ah ≤ now < connect_timestamp ah + frequency ah) nows →
  ∃ bs ah' r', sample_all nows (Some ah) (Some r) = Some (bs, Some ah', Some r') ∧
    bs = (λ i, bool_decide (i < target_transactions_per_cycle ah - transactions_sampled ah)) <$>
      seqZ 0 (Z.of_nat (length nows)) ∧
    transactions_seen ah' = transactions_seen ah + Z.of_nat (length nows).
Proof.
  revert ah r. induction nows as [|now nows IH]; intros ah r Hinv Hnext Hb Hs Hnows.
  { exists [], ah, r. split_and!; [done|done|simpl; lia]. }
  apply Forall_cons in Hnows as [Hnow Hnows]. simpl in Hs. pose proof (hi_frequency _ Hinv) as Hfq.
  destruct (harvest_step ah r now Hinv) as (b & ah1 & r1 & E & Hinv1 & Hlt1 & Hc1 & Hf1 & Ht1 & Hcnt & Hfirst); [lia..|].
  destruct (decide (next_harvest ah ≤ now)); [lia|]. destruct Hcnt as (Hn1 & Hs1 & Hsm1 & _).
  destruct (IH ah1 r1 Hinv1) as (bs & ah' & r' & E' & Hbs & Hs'); rewrite ?Hn1, ?Hc1, ?Hf1; [done|lia|lia|done|].
  exists (b :: bs), ah', r'. cbn [sample_all]. rewrite E. cbn [mbind option_bind]. rewrite E'.
  split_and!; [done| |simpl; lia].
  rewrite Hbs, Ht1, Hsm1, Hfirst by lia. cbn [length]. rewrite Nat2Z.inj_succ, <-Z.add_1_l, seqZ_app by lia.
  simpl. f_equal; [apply bool_decide_ext; lia|]. unfold seqZ. rewrite <-!list_fmap_compose.
  apply list_fmap_ext. intros i ? _. simpl. apply bool_decide_ext. case_bool_decide; simpl; lia.
Qed.

(** in the first cycle exactly the first transactions are sampled. From the
    connection of an application, with the clock in the first cycle, whatever the harvest held before, and whatever the times
    of the transactions within that cycle, their order and the random numbers, the first ones up to the target are
    sampled and none after them. *)
Theorem nr_app_harvest_first_cycle (prev : nr_app_harvest_t) (r : nr_random_t) (connect freq target now : Z)
    (nows : list Z) :
  0 ≤ connect → 0 < freq → connect + 2 * freq < 2 ^ 64 → 0 ≤ target < 2 ^ 16 →
  connect ≠ connect_timestamp prev ∨ freq ≠ frequency prev →
  Z.of_nat (length nows) < 2 ^ 64 → Forall (λ t, connect ≤ t < connect + freq) (now :: nows) →
  ∃ ah' r', sample_all nows (nr_app_harvest_private_init (Some prev) connect freq target now) (Some r) =
    Some ((λ i, bool_decide (i < target)) <$> seqZ 0 (Z.of_nat (length nows)), Some ah', Some r').
Proof.
  intros Hc Hf Hb Ht Hprev Hl Hnows. apply Forall_cons in Hnows as [Hnow Hnows].
  destruct prev as [pc pf pt pn pth pp ps psm]. simpl in Hprev. unfold nr_app_harvest_private_init.
  replace (negb (connect =? pc) || negb (freq =? pf)) with true
    by (destruct (Z.eqb_spec connect pc), (Z.eqb_spec freq pf); simpl; lia || done).
  set (ah0 := AppHarvest connect freq target pn pth pp ps psm).
  destruct (next_harvest_time ah0 now) as (k & Hk & E & Hr); [simpl; lia..|]. rewrite E. simpl in Hr |- *.
  assert (k = 1) as -> by nia. rewrite Z.mul_1_l.
  set (ah1 := AppHarvest connect freq target (connect + freq) 0 0 0 0).
  destruct (first_cycle nows ah1 r) as (bs & ah' & r' & -> & -> & _); try done.
  - split; simpl; try lia. exists 1. lia.
  - simpl. rewrite Z.sub_0_r. by exists ah', r'.
Qed.

(** C39: each decision leaves the counters of its cycle. From a harvest whose next
    harvest is the end of a cycle and that sampled at most what it saw, the decision returns and leaves
    such a harvest, whose cycle is the one the time is in; within the cycle the counters go on, and at its end
    they start again, the number seen being kept when the cycle that ended was the one before; and in the first cycle
    the transaction is sampled exactly when the target is not reached. *)
Theorem nr_app_harvest_cycles ah r now : harvest_inv ah → connect_timestamp ah ≤ now → now + frequency ah < 2 ^ 64 →
  next_harvest ah + frequency ah < 2 ^ 64 → transactions_seen ah + 1 < 2 ^ 64 →
  ∃ b ah' r', nr_app_harvest_private_should_sample (Some ah) (Some r) now = Some (b, Some ah', Some r') ∧
    harvest_inv ah' ∧ now < next_harvest ah' ∧
    connect_timestamp ah' = connect_timestamp ah ∧ frequency ah' = frequency ah ∧
    target_transactions_per_cycle ah' = target_transactions_per_cycle ah ∧
    (if decide (next_harvest ah ≤ now) then
       next_harvest ah' ≤ now + frequency ah ∧ transactions_seen ah' = 1 ∧ transactions_sampled ah' = Z.b2z b ∧
       prev_transactions_seen ah' = (if decide (now < next_harvest ah + frequency ah) then transactions_seen ah else 0)
     else
       next_harvest ah' = next_harvest ah ∧ transactions_seen ah' = transactions_seen ah + 1 ∧
       transactions_sampled ah' = transactions_sampled ah + Z.b2z b ∧
       prev_transactions_seen ah' = prev_transactions_seen ah) ∧
    (now < connect_timestamp ah + frequency ah →
      b = bool_decide ((if decide (next_harvest ah ≤ now) then 0 else transactions_sampled ah) <
                       target_transactions_per_cycle ah)).
Proof. apply harvest_step. Qed.
End harvest.

Lemma nr_app_harvest_first_cycle_witness :
  ∃ ah' r', sample_all (λ _ _, 0) [105; 120; 159; 110]
      (nr_app_harvest_private_init (Some (AppHarvest 0 0 0 0 0 0 0 0)) 100 60 2 100) (Some (Random 1 2 3)) =
    Some ([true; true; false; false], Some ah', Some r').
Proof.
  apply (nr_app_harvest_first_cycle (λ _ _, 0) (AppHarvest 0 0 0 0 0 0 0 0) (Random 1 2 3) 100 60 2 100 [105; 120; 159; 110]);
    try done; [by left|]. repeat constructor; simpl; lia.
Defined.

(** At the end of the first cycle the ten transactions seen are kept. *)
Lemma nr_app_harvest_cycles_witness :
  ∃ b ah' r', nr_app_harvest_private_should_sample (λ _ _, 3) (Some (AppHarvest 100 60 5 160 0 0 10 5)) (Some (Random 1 2 3)) 170 =
    Some (b, Some ah', Some r') ∧ prev_transactions_seen ah' = 10 ∧ transactions_seen ah' = 1.
Proof.
  destruct (nr_app_harvest_cycles (λ _ _, 3) (AppHarvest 100 60 5 160 0 0 10 5) (Random 1 2 3) 170)
    as (b & ah' & r' & E & _ & _ & _ & _ & _ & Hc & _); [|done..|].
  - split; simpl; try lia. exists 1. lia.
  - exists b, ah', r'. split; [exact E|]. by destruct Hc as (_ & ? & _ & ?).
Defined.

