(* ===== verification/Slab.v ===== *)
(** * Slab: the slab allocator (src/axiom/util_slab.c, util_slab_private.h)

    A slab hands out objects of one size from pages it never moves, and keeps
    released objects in a vector for the next request.  An object's address is
    the number of its page, the oldest first, and its offset in the page's
    data; the head of the list of pages is the last one. *)

From S2P Require Import Prelude Memory.
From S2P Require Vector.
Local Open Scope Z_scope.
#[local] Set Warnings "-clear-no-such-hyp".

Definition addr : Type := nat * Z.

Record nr_slab_page_t := Page { capacity : Z; used : Z; data : list Z }.

Record nr_slab_t := Slab {
  pages : list nr_slab_page_t;
  free_list : Vector.nr_vector_t (option addr);
  object_size : Z;
  page_size : Z;
  count : Z;
}.

(** The three words in front of a page's data. *)
Definition sizeof_page : Z := 24.

Definition nr_slab_page_create (page_size : Z) : nr_slab_page_t :=
  let c := u64 (page_size - sizeof_page) in Page c 0 (replicate (Z.to_nat c) 0).

Definition aligned_size (object_size : Z) : Z :=
  if negb (object_size mod 16 =? 0) then u64 (16 * (object_size / 16 + 1)) else object_size.

(** [sys] is the system's page size as [sysconf] reports it. *)
Definition initial_page_size (sys object_size page_size : Z) : Z :=
  let sys := if sys <=? 0 then 4096 else sys in
  if page_size =? 0 then u64 (sys * (u64 (object_size * 4) / sys + 1))
  else u64 (sys * ((if page_size mod sys =? 0 then 0 else 1) + page_size / sys)).

Section slab.
Context `{Allocator (option addr)}.

Definition nr_slab_create (sys object_size page_size : Z) : option nr_slab_t :=
  if object_size =? 0 then None
  else
    let os := aligned_size object_size in
    let ps := initial_page_size sys os page_size in
    if ps <? u64 (os + sizeof_page) then None
    else Some (Slab [nr_slab_page_create ps] (Vector.nr_vector_create 128 false) os ps 0).

Definition nr_slab_destroy (slab_ptr : option (option nr_slab_t)) : option (option nr_slab_t) :=
  (λ _, None) <$> slab_ptr.

(** Take an object off the free list. *)
Definition reuse (s : nr_slab_t) : option (option addr * nr_slab_t) :=
  if 0 <? Vector.nr_vector_size (Some (free_list s)) then
    let '(ok, ptr, v) := Vector.nr_vector_pop_back (Some (free_list s)) true in
    if ok then Some (mjoin ptr, Slab (pages s) (default (free_list s) v) (object_size s) (page_size s) (u64 (count s + 1)))
    else None
  else None.

(** A new page when the current one is full. *)
Definition ensure_page (s : nr_slab_t) (head : nr_slab_page_t) : nr_slab_t :=
  if u64 (capacity head - used head) <? object_size s then
    let ps := if page_size s <=? 4 * 1024 * 1024 then u64 (page_size s * 2) else page_size s in
    Slab (pages s ++ [nr_slab_page_create ps]) (free_list s) (object_size s) ps (count s)
  else s.

Definition bump (s : nr_slab_t) : option addr * nr_slab_t :=
  let k := (length (pages s) - 1)%nat in
  (option_map (λ p, (k, used p)) (pages s !! k),
   Slab (alter (λ p, Page (capacity p) (used p + object_size s) (data p)) k (pages s))
     (free_list s) (object_size s) (page_size s) (u64 (count s + 1))).

Definition nr_slab_next (slab : option nr_slab_t) : option addr * option nr_slab_t :=
  match slab with
  | None => (None, None)
  | Some s =>
      match last (pages s) with
      | None => (None, slab)
      | Some head =>
          match reuse s with
          | Some (ptr, s) => (ptr, Some s)
          | None => let '(ptr, s) := bump (ensure_page s head) in (ptr, Some s)
          end
      end
  end.

(** Overwrite memory from an address on. *)
Definition write (s : nr_slab_t) (a : addr) (bytes : list Z) : nr_slab_t :=
  Slab (alter (λ p, Page (capacity p) (used p) (list_inserts (Z.to_nat a.2) bytes (data p))) a.1 (pages s))
    (free_list s) (object_size s) (page_size s) (count s).

(** [None] when [nr_vector_push_back] does not return. *)
Definition nr_slab_release (slab : option nr_slab_t) (obj : option addr) : option (bool * option nr_slab_t) :=
  match slab, obj with
  | Some s, Some a =>
      let s := write s a (replicate (Z.to_nat (object_size s)) 0) in
      '(ok, v) ← Vector.nr_vector_push_back (Some (free_list s)) obj;
      Some (ok, Some (Slab (pages s) (default (free_list s) v) (object_size s) (page_size s) (count s)))
  | _, _ => Some (false, slab)
  end.

Definition nr_slab_count (slab : option nr_slab_t) : Z := from_option count 0 slab.

(** The bytes of an object. *)
Definition read (s : nr_slab_t) (a : addr) : list Z :=
  match pages s !! a.1 with
  | Some p => take (Z.to_nat (object_size s)) (drop (Z.to_nat a.2) (data p))
  | None => []
  end.

(** ** The invariant *)

(** A slot of the pages: a multiple of the object size in the used part. *)
Definition slot (s : nr_slab_t) (a : addr) : Prop :=
  ∃ p k, pages s !! a.1 = Some p ∧ 0 ≤ k ∧ a.2 = k * object_size s ∧ a.2 + object_size s ≤ used p.

Record page_ok (os : Z) (p : nr_slab_page_t) : Prop := {
  po_length : Z.of_nat (length (data p)) = capacity p;
  po_used : 0 ≤ used p ≤ capacity p;
  po_slots : ∃ k, used p = k * os;
  po_capacity : capacity p < 2 ^ 62;
  po_zero : Forall (λ b, b = 0) (drop (Z.to_nat (used p)) (data p));
}.

Definition zeros (s : nr_slab_t) : list Z := replicate (Z.to_nat (object_size s)) 0.

(** [live] are the objects handed out and not released. *)
Record slab_inv (s : nr_slab_t) (live : list addr) : Prop := {
  si_object : 0 < object_size s < 2 ^ 32;
  si_aligned : object_size s mod 16 = 0;
  si_page : object_size s + sizeof_page ≤ page_size s < 2 ^ 61;
  si_pages : pages s ≠ [] ∧ Forall (page_ok (object_size s)) (pages s);
  si_free : Vector.vec_inv (free_list s);
  si_slots : ∃ free, Vector.values (free_list s) = Some <$> free ∧ NoDup (free ++ live) ∧
    Forall (slot s) (free ++ live) ∧ Forall (λ a, read s a = zeros s) free;
}.

(** Distinct slots do not overlap. *)
Lemma slots_apart s a b : 0 < object_size s → slot s a → slot s b → a ≠ b → a.1 = b.1 →
  a.2 + object_size s ≤ b.2 ∨ b.2 + object_size s ≤ a.2.
Proof.
  intros Hos (p & k & _ & Hk & Ea & _) (q & l & _ & Hl & Eb & _) Hne Hpage.
  assert (k ≠ l) by (intros ->; destruct Hne; destruct a, b; simpl in *; congruence). nia.
Qed.
(** *** Memory *)
Lemma inserts_here {A} (l k : list A) i : (i + length k ≤ length l)%nat →
  take (length k) (drop i (list_inserts i k l)) = k.
Proof.
  intros Hl. apply list_eq. intros m. destruct (decide (m < length k)%nat) as [Hm|Hm].
  - rewrite lookup_take_lt, lookup_drop, list_lookup_inserts by lia. f_equal. lia.
  - by rewrite lookup_take_ge, lookup_ge_None_2 by lia.
Qed.

Lemma inserts_elsewhere {A} (l k : list A) i j n : (j + n ≤ i ∨ i + length k ≤ j)%nat →
  take n (drop j (list_inserts i k l)) = take n (drop j l).
Proof.
  intros Hj. apply list_eq. intros m. destruct (decide (m < n)%nat) as [Hm|Hm].
  - rewrite !lookup_take_lt, !lookup_drop by lia.
    destruct Hj; [by rewrite list_lookup_inserts_lt by lia|by rewrite list_lookup_inserts_ge by lia].
  - by rewrite !lookup_take_ge by lia.
Qed.

Lemma drop_inserts {A} (l k : list A) i j : (i + length k ≤ j)%nat →
  drop j (list_inserts i k l) = drop j l.
Proof. intros Hj. apply list_eq. intros m. rewrite !lookup_drop, list_lookup_inserts_ge by lia. done. Qed.

Section writes.
Context (s : nr_slab_t) (a : addr) (bytes : list Z).
Hypothesis (Hos : 0 < object_size s) (Hpages : Forall (page_ok (object_size s)) (pages s)).
Hypothesis (Ha : slot s a) (Hbytes : Z.of_nat (length bytes) = object_size s).

Lemma slot_bounds b : slot s b → ∃ p, pages s !! b.1 = Some p ∧ page_ok (object_size s) p ∧
  0 ≤ b.2 ∧ b.2 + object_size s ≤ used p ∧ used p ≤ Z.of_nat (length (data p)).
Proof.
  intros (p & k & Hp & Hk & E & Hu). pose proof (Forall_lookup_1 _ _ _ _ Hpages Hp) as Hpo.
  exists p. pose proof (po_used _ _ Hpo). rewrite (po_length _ _ Hpo). split_and!; try done; nia.
Qed.

Lemma read_write_same : read (write s a bytes) a = bytes.
Proof.
  destruct (slot_bounds a Ha) as (p & Hp & _ & ? & ? & ?). unfold read, write. simpl.
  rewrite list_lookup_alter_eq, Hp. simpl. rewrite <-Hbytes, Nat2Z.id. apply inserts_here. lia.
Qed.

Lemma read_write_other b : slot s b → b ≠ a → read (write s a bytes) b = read s b.
Proof.
  intros Hb Hne. unfold read, write. simpl. destruct (decide (b.1 = a.1)) as [E|E].
  - pose proof (slots_apart s a b Hos Ha Hb (not_eq_sym Hne) (eq_sym E)) as Hd.
    destruct (slot_bounds b Hb) as (p & Hp & _ & ? & _). destruct (slot_bounds a Ha) as (q & Hq & _ & ? & _).
    rewrite E in Hp |- *. rewrite list_lookup_alter_eq, Hp. simpl. apply inserts_elsewhere. lia.
  - by rewrite list_lookup_alter_ne by done.
Qed.

Lemma slot_write b : slot (write s a bytes) b ↔ slot s b.
Proof.
  unfold slot, write. simpl. destruct (decide (b.1 = a.1)) as [E|E].
  - rewrite E, list_lookup_alter_eq. split.
    + intros (p & k & Hp & ?). destruct (pages s !! a.1) as [q|]; [|done]. injection Hp as <-. by exists q, k.
    + intros (p & k & -> & ?). by eexists _, k.
  - by rewrite list_lookup_alter_ne by done.
Qed.

Lemma write_pages : Forall (page_ok (object_size s)) (pages (write s a bytes)).
Proof.
  apply Forall_alter; [done|]. intros p Hp [H1 H2 H3 H4 H5].
  destruct (slot_bounds a Ha) as (q & Hq & _ & ? & ? & ?). simplify_eq.
  split; simpl; try done; [by rewrite length_inserts|]. rewrite drop_inserts; [done|lia].
Qed.
End writes.

(** Writing an object keeps the invariant; only that object changes. *)
Lemma write_inv s live a bytes : slab_inv s live → a ∈ live → Z.of_nat (length bytes) = object_size s →
  slab_inv (write s a bytes) live ∧ read (write s a bytes) a = bytes ∧
  ∀ b, b ∈ live → b ≠ a → read (write s a bytes) b = read s b.
Proof.
  intros [H1 H2 H3 [H4 H5] H6 (free & Hf & Hnd & Hsl & Hz)] Ha Hb.
  assert (∀ b, b ∈ free ++ live → slot s b) as Hslot by by apply Forall_forall.
  assert (slot s a) as Hsa by (apply Hslot, elem_of_app; by right).
  split_and!.
  - split; try done.
    + split; [|apply (write_pages s a bytes); (done || lia)]. simpl. intros E. apply (f_equal length) in E.
      rewrite length_alter in E. destruct (pages s); done.
    + exists free. split_and!; [done|done| |].
      * eapply Forall_impl; [done|]. intros b Hb'. by apply slot_write.
      * rewrite Forall_forall in Hz |- *. intros b Hbf. change (zeros (write s a bytes)) with (zeros s).
        rewrite <-(Hz b Hbf). apply read_write_other; try done; try lia; [apply Hslot, elem_of_app; by left|].
        intros ->. apply NoDup_app in Hnd as (_ & Hd & _). by apply (Hd a).
  - apply read_write_same; done || lia.
  - intros b Hbl Hne. apply read_write_other; try done; try lia. apply Hslot, elem_of_app. by right.
Qed.
(** *** Taking an object *)
Lemma app_page s p : Forall (page_ok (object_size s)) (pages s) → ∀ a, slot s a →
  let s' := Slab (pages s ++ [p]) (free_list s) (object_size s) (page_size s) (count s) in
  slot s' a ∧ read s' a = read s a.
Proof.
  intros Hp a (q & k & Hq & Hk & E & Hu) s'. unfold read. simpl. apply lookup_lt_Some in Hq as Hlt.
  rewrite lookup_app_l by done. split; [|done]. exists q, k. simpl. rewrite lookup_app_l by done. by split_and!.
Qed.

Lemma all_zero (l : list Z) : Forall (λ b, b = 0) l → l = replicate (length l) 0.
Proof. intros Hl. symmetry. apply replicate_as_Forall. split; [done|]. by eapply Forall_impl; [done|intros x ->]. Qed.

Lemma new_page_ok os ps : 0 < os → os + sizeof_page ≤ ps < 2 ^ 61 →
  page_ok os (nr_slab_page_create ps) ∧ capacity (nr_slab_page_create ps) = ps - sizeof_page ∧
  used (nr_slab_page_create ps) = 0.
Proof.
  unfold sizeof_page. intros Hos Hps. unfold nr_slab_page_create, sizeof_page. simpl.
  rewrite u64_small by lia. split_and!; try done. split; simpl; try lia.
  - rewrite length_replicate. lia.
  - by exists 0.
  - by apply Forall_replicate.
Qed.

Lemma ensure_page_spec s head live : slab_inv s live → last (pages s) = Some head →
  let s' := ensure_page s head in
  slab_inv s' live ∧ object_size s' = object_size s ∧ count s' = count s ∧ free_list s' = free_list s ∧
  (∃ p, last (pages s') = Some p ∧ used p + object_size s ≤ capacity p) ∧
  ∀ a, a ∈ live → read s' a = read s a.
Proof.
  intros Hinv Hhead s'. pose proof Hinv as [H1 H2 H3 [H4 H5] H6 (free & Hf & Hnd & Hsl & Hz)].
  assert (page_ok (object_size s) head) as Hok.
  { apply last_Some in Hhead as [l E]. rewrite E in H5. apply Forall_app in H5 as [_ H5]. by apply Forall_cons in H5 as [? _]. }
  pose proof (po_used _ _ Hok). pose proof (po_capacity _ _ Hok). unfold s', ensure_page.
  rewrite u64_small by lia. destruct (Z.ltb_spec (capacity head - used head) (object_size s)) as [Hfull|Hroom]; cycle 1.
  { split_and!; try done. exists head. split; [done|lia]. }
  set (ps := if _ <=? _ then _ else _).
  assert (object_size s + sizeof_page ≤ ps < 2 ^ 61) as Hps.
  { unfold ps. destruct (Z.leb_spec (page_size s) (4 * 1024 * 1024)); [|done]. rewrite u64_small; unfold sizeof_page in *; lia. }
  destruct (new_page_ok (object_size s) ps) as (Hn1 & Hn2 & Hn3); [lia|done|].
  pose proof (app_page s (nr_slab_page_create ps) H5) as Happ.
  assert (∀ a, a ∈ free ++ live → slot s a) as Hslot by by apply Forall_forall.
  split_and!; try done.
  - split; simpl; try done.
    + split; [by destruct (pages s)|]. apply Forall_app. split; [done|]. by constructor.
    + exists free. split_and!; [done|done| |].
      * eapply Forall_impl; [done|]. intros a Ha. by apply (Happ a Ha).
      * rewrite Forall_forall in Hz |- *. intros a Ha. etrans; [|by apply Hz].
        refine (proj2 (Happ a _)). apply Hslot, elem_of_app. by left.
  - exists (nr_slab_page_create ps). cbn [pages object_size]. rewrite last_snoc. split; [done|]. rewrite Hn2, Hn3. lia.
  - intros a Ha. refine (proj2 (Happ a _)). apply Hslot, elem_of_app. by right.
Qed.

Lemma bump_spec s live p : slab_inv s live → last (pages s) = Some p → used p + object_size s ≤ capacity p →
  ∃ a s', bump s = (Some a, s') ∧ slab_inv s' (a :: live) ∧ (a ∉ live) ∧
    object_size s' = object_size s ∧ count s' = u64 (count s + 1) ∧ free_list s' = free_list s ∧
    read s' a = zeros s' ∧ ∀ b, b ∈ live → read s' b = read s b.
Proof.
  intros [H1 H2 H3 [H4 H5] H6 (free & Hf & Hnd & Hsl & Hz)] Hlast Hroom.
  rewrite last_lookup in Hlast. set (k := (length (pages s) - 1)%nat).
  assert (pages s !! k = Some p) as Hk by (unfold k; by rewrite <-Hlast; f_equal; lia).
  pose proof (Forall_lookup_1 _ _ _ _ H5 Hk) as [P1 P2 (j & P3) P4 P5].
  unfold bump. fold k. rewrite Hk. simpl. eexists (k, used p), _. split; [done|].
  set (s' := Slab _ _ _ _ _).
  assert (∀ b, read s' b = read s b) as Hread.
  { intros b. unfold read, s'. simpl. destruct (decide (b.1 = k)) as [E|E].
    - by rewrite E, list_lookup_alter_eq, Hk.
    - by rewrite list_lookup_alter_ne by done. }
  assert (∀ b, slot s b → slot s' b ∧ b ≠ (k, used p)) as Hslot.
  { intros b (q & m & Hq & Hm & E & Hu). split.
    - destruct (decide (b.1 = k)) as [Eb|Eb].
      + exists (Page (capacity p) (used p + object_size s) (data p)), m. unfold s'. simpl.
        rewrite Eb in Hq |- *. rewrite list_lookup_alter_eq, Hk. split_and!; try done. simplify_eq. lia.
      + exists q, m. unfold s'. simpl. by rewrite list_lookup_alter_ne by done.
    - intros ->. simpl in *. simplify_eq. lia. }
  assert ((k, used p) ∉ free ++ live) as Hnew.
  { intros Hin. rewrite Forall_forall in Hsl. by destruct (Hslot _ (Hsl _ Hin)). }
  assert (read s' (k, used p) = zeros s') as Hzero.
  { rewrite Hread. unfold read. simpl. rewrite Hk. rewrite (all_zero _ P5), take_replicate.
    unfold zeros. change (object_size s') with (object_size s). f_equal. rewrite length_drop. lia. }
  split_and!; try done; [|set_solver].
  split; unfold s'; simpl; try done.
  - split; [intros E; apply (f_equal length) in E; rewrite length_alter in E; by destruct (pages s)|].
    apply Forall_alter; [done|]. intros q Hq _. simplify_eq. split; simpl; try done; try lia.
    + exists (j + 1). lia.
    + replace (Z.to_nat (used p + object_size s)) with (Z.to_nat (used p) + Z.to_nat (object_size s))%nat by lia.
      rewrite <-drop_drop. by apply Forall_drop.
  - exists free. split_and!; [done| | |].
    + rewrite <-Permutation_middle. by constructor.
    + rewrite Forall_forall in Hsl |- *. intros b Hb. rewrite <-Permutation_middle in Hb.
      apply elem_of_cons in Hb as [->|Hb]; [|by apply Hslot, Hsl].
      exists (Page (capacity p) (used p + object_size s) (data p)), j. simpl. rewrite list_lookup_alter_eq, Hk.
      split_and!; try done; nia.
    + eapply Forall_impl; [done|]. intros b Hb. fold s'. by rewrite Hread.
Qed.
(** A released object comes back, zero as a fresh one. *)
Lemma reuse_spec s live : slab_inv s live →
  match reuse s with
  | Some (ptr, s') => ∃ a, ptr = Some a ∧ slab_inv s' (a :: live) ∧ (a ∉ live) ∧
      object_size s' = object_size s ∧ count s' = u64 (count s + 1) ∧
      Vector.used (free_list s') ≤ Vector.used (free_list s) ∧ pages s' = pages s ∧ read s' a = zeros s'
  | None => True
  end.
Proof.
  intros [H1 H2 H3 H45 H6 (free & Hf & Hnd & Hsl & Hz)]. unfold reuse.
  destruct (Z.ltb_spec 0 (Vector.nr_vector_size (Some (free_list s)))) as [Hu|Hu]; [|done].
  simpl in Hu. unfold Vector.nr_vector_pop_back. simpl.
  destruct (Z.eqb_spec (Vector.used (free_list s)) 0); [lia|]. simpl.
  pose proof (Vector.length_values _ H6) as Hlen. rewrite Hf, length_fmap in Hlen.
  pose proof (Vector.remove_impl_list (free_list s) (Vector.used (free_list s) - 1) H6 ltac:(lia)) as Hr.
  destruct (Vector.nr_vector_remove_impl _ _) as [[b e] v']. destruct Hr as (Hr & Hv' & Hu').
  destruct (@exists_last _ free) as (free' & a & ->); [intros ->; simpl in Hlen; lia|].
  rewrite length_app in Hlen. simpl in Hlen. rewrite Hf, fmap_app, fmap_cons in Hr. unfold Vector.list_remove in Hr.
  replace (Z.to_nat (Vector.used (free_list s) - 1)) with (length (Some <$> free')) in Hr by (rewrite length_fmap; lia).
  rewrite list_lookup_middle, delete_middle in Hr by done. simpl in Hr. injection Hr as <- <- Hv.
  exists a. simpl. rewrite app_nil_r in Hv. apply Forall_app in Hz as [Hz Hza]. apply Forall_cons in Hza as [Hza _].
  rewrite <-app_assoc in Hnd, Hsl.
  split_and!; try done.
  - split; simpl; try done. exists free'. by split_and!.
  - apply NoDup_app in Hnd as (_ & _ & Hnd). by apply NoDup_cons in Hnd as [? _].
Qed.

Lemma next_spec s live : slab_inv s live →
  ∃ a s', nr_slab_next (Some s) = (Some a, Some s') ∧ slab_inv s' (a :: live) ∧ (a ∉ live) ∧
    object_size s' = object_size s ∧ count s' = u64 (count s + 1) ∧
    Vector.used (free_list s') ≤ Vector.used (free_list s) ∧
    read s' a = zeros s' ∧ ∀ b, b ∈ live → read s' b = read s b.
Proof.
  intros Hinv. unfold nr_slab_next. destruct (last (pages s)) as [head|] eqn:Hl.
  2:{ apply last_None in Hl. by destruct (si_pages _ _ Hinv). }
  pose proof (reuse_spec s live Hinv) as Hr. destruct (reuse s) as [[ptr s']|].
  - destruct Hr as (a & -> & ? & ? & Ho & ? & ? & Hp & ?). exists a, s'. split_and!; try done.
    intros b _. unfold read. by rewrite Hp, Ho.
  - destruct (ensure_page_spec s head live Hinv Hl) as (Hi & Ho & Hc & Hf & (p & Hp & Hroom) & Hread).
    rewrite <-Ho in Hroom. destruct (bump_spec _ live p Hi Hp Hroom) as (a & s' & -> & Hi' & Hn & Ho' & Hc' & Hf' & Hz & Hrd).
    exists a, s'. split_and!; try done; try congruence; [by rewrite Hf', Hf|].
    intros b Hb. by rewrite Hrd, Hread.
Qed.

Lemma release_spec s l1 a l2 : (∀ n, realloc_succeeds (V:=option addr) n = true) →
  slab_inv s (l1 ++ a :: l2) → Vector.used (free_list s) < 2 ^ 59 →
  ∃ s', nr_slab_release (Some s) (Some a) = Some (true, Some s') ∧ slab_inv s' (l1 ++ l2) ∧
    object_size s' = object_size s ∧ count s' = count s ∧
    Vector.used (free_list s') ≤ Vector.used (free_list s) + 1 ∧
    ∀ b, b ∈ l1 ++ l2 → read s' b = read s b.
Proof.
  intros Hal Hinv Hu. assert (Z.of_nat (length (zeros s)) = object_size s) as Hlz.
  { unfold zeros. rewrite length_replicate. pose proof (si_object _ _ Hinv). lia. }
  assert (a ∈ l1 ++ a :: l2) as Ha by set_solver.
  destruct (write_inv s (l1 ++ a :: l2) a (zeros s) Hinv Ha Hlz) as (Hw & Hra & Hrb).
  unfold nr_slab_release. fold (zeros s).
  destruct Hw as [H1 H2 H3 H45 H6 (free & Hf & Hnd & Hsl & Hz)].
  change (free_list (write s a (zeros s))) with (free_list s) in *.
  destruct (Vector.exec_refines (Vector.PushBack (Some a)) (free_list s) Hal H6 Hu I) as (b & e & v' & E & Hv' & Hu' & Hs).
  cbn [Vector.exec Vector.spec] in E, Hs.
  destruct (Vector.nr_vector_push_back (Some (free_list s)) (Some a)) as [[b' ov]|]; [|done].
  cbn [mbind option_bind] in E |- *. injection Hs as <- <- Hs. simplify_eq. cbn [default from_option id].
  assert (∀ b, b ∈ l1 ++ l2 → b ≠ a) as Hne.
  { apply NoDup_app in Hnd as (_ & _ & Hnd). rewrite <-Permutation_middle in Hnd. apply NoDup_cons in Hnd as [Hn _].
    by intros b Hb ->. }
  eexists. split_and!; try done.
  - split; simpl; try done. exists (free ++ [a]). split_and!.
    + by rewrite <-Hs, Hf, fmap_app.
    + rewrite <-app_assoc. simpl. by rewrite (Permutation_middle l1 l2 a).
    + rewrite <-app_assoc. simpl. rewrite (Permutation_middle l1 l2 a). done.
    + apply Forall_app. split; [done|]. constructor; [|done]. exact Hra.
  - intros b Hb. refine (Hrb b _ (Hne b Hb)). set_solver.
Qed.

(** ** Runs against the specification

    The specification keeps the live objects with their contents. *)
Inductive slab_op := Next | Release (n : nat) | Put (n : nat) (bytes : list Z).

(** What a client does: objects are named by their place in the list of live
    ones.  [None] when an operation refuses or does not return. *)
Definition exec (op : slab_op) (s : nr_slab_t) (live : list addr) : option (nr_slab_t * list addr) :=
  match op with
  | Next => match nr_slab_next (Some s) with (Some a, Some s) => Some (s, a :: live) | _ => None end
  | Release n =>
      a ← live !! n; r ← nr_slab_release (Some s) (Some a);
      match r with (true, Some s) => Some (s, delete n live) | _ => None end
  | Put n bytes => a ← live !! n; Some (write s a bytes, live)
  end.

Definition spec (os : Z) (op : slab_op) (objects : list (list Z)) : list (list Z) :=
  match op with
  | Next => replicate (Z.to_nat os) 0 :: objects
  | Release n => delete n objects
  | Put n bytes => <[n := bytes]> objects
  end.

(** The client releases and writes live objects only, and whole objects. *)
Definition op_ok (os : Z) (op : slab_op) (objects : list (list Z)) : Prop :=
  match op with
  | Next => True
  | Release n => (n < length objects)%nat
  | Put n bytes => (n < length objects)%nat ∧ Z.of_nat (length bytes) = os
  end.

Fixpoint ops_ok (os : Z) (ops : list slab_op) (objects : list (list Z)) : Prop :=
  match ops with
  | [] => True
  | op :: ops => op_ok os op objects ∧ ops_ok os ops (spec os op objects)
  end.

Definition run_slab (ops : list slab_op) (s : nr_slab_t) (live : list addr) : option (nr_slab_t * list addr) :=
  foldl (λ acc op, '(s, live) ← acc; exec op s live) (Some (s, live)) ops.

Lemma slab_exec_spec op s live objects : (∀ n, realloc_succeeds (V:=option addr) n = true) →
  slab_inv s live → Vector.used (free_list s) < 2 ^ 59 → read s <$> live = objects → op_ok (object_size s) op objects →
  ∃ s' live', exec op s live = Some (s', live') ∧ slab_inv s' live' ∧ object_size s' = object_size s ∧
    Vector.used (free_list s') ≤ Vector.used (free_list s) + 1 ∧
    read s' <$> live' = spec (object_size s) op objects ∧
    count s' = (match op with Next => u64 (count s + 1) | _ => count s end).
Proof.
  intros Hal Hinv Hu <- Hop. destruct op as [|n|n bytes]; cbn [exec spec op_ok] in *; rewrite ?length_fmap in Hop.
  - destruct (next_spec s live Hinv) as (a & s' & -> & Hi & Hn & Ho & Hc & Hu' & Hz & Hr).
    exists s', (a :: live). split_and!; try done; try lia. rewrite fmap_cons. f_equal.
    + rewrite Hz. unfold zeros. by rewrite Ho.
    + apply list_fmap_ext. intros i b Hb. apply Hr. by eapply list_elem_of_lookup_2.
  - destruct (lookup_lt_is_Some_2 live n Hop) as [a Ha]. rewrite Ha. cbn [mbind option_bind].
    apply list_elem_of_split_length in Ha as (l1 & l2 & -> & ->).
    destruct (release_spec s l1 a l2 Hal Hinv Hu) as (s' & -> & Hi & Ho & Hc & Hu' & Hr).
    simpl. rewrite delete_middle. exists s', (l1 ++ l2). split_and!; try done.
    rewrite !fmap_app, fmap_cons. rewrite <-(length_fmap (read s) l1), delete_middle, <-!fmap_app.
    apply list_fmap_ext. intros i b Hb. apply Hr. by eapply list_elem_of_lookup_2.
  - destruct Hop as [Hn Hb]. destruct (lookup_lt_is_Some_2 live n Hn) as [a Ha]. rewrite Ha. cbn [mbind option_bind].
    destruct (write_inv s live a bytes Hinv) as (Hi & Hra & Hrb); [by eapply list_elem_of_lookup_2|done|].
    eexists _, live. split_and!; try done; [simpl; lia|].
    apply list_eq. intros i. rewrite list_lookup_fmap. destruct (decide (i = n)) as [->|Hi'].
    + rewrite list_lookup_insert_eq by (by rewrite length_fmap). rewrite Ha. simpl. by rewrite Hra.
    + rewrite list_lookup_insert_ne, list_lookup_fmap by done. destruct (live !! i) as [b|] eqn:Eb; [|done]. simpl.
      f_equal. apply Hrb; [by eapply list_elem_of_lookup_2|]. intros ->. destruct Hi'.
      destruct (si_slots _ _ Hinv) as (free & _ & Hnd & _). apply NoDup_app in Hnd as (_ & _ & Hnd).
      by eapply NoDup_lookup.
Qed.
(** The data of a page starts 24 bytes into a block that the C library aligns to 16
    bytes: no object is at a multiple of 16 bytes. *)
Lemma slot_alignment s live a : slab_inv s live → slot s a → (sizeof_page + a.2) mod 16 = 8.
Proof.
  intros Hinv (p & k & _ & _ & -> & _). unfold sizeof_page.
  rewrite <-Zplus_mod_idemp_r, <-Zmult_mod_idemp_r, (si_aligned _ _ Hinv), Z.mul_0_r. done.
Qed.

(** *** Creation *)
Lemma aligned_size_spec os : 0 < os < 2 ^ 31 → os ≤ aligned_size os < os + 16 ∧ aligned_size os mod 16 = 0.
Proof.
  intros Hos. unfold aligned_size. pose proof (Z.div_mod os 16 ltac:(lia)). pose proof (Z.mod_pos_bound os 16 ltac:(lia)).
  destruct (Z.eqb_spec (os mod 16) 0); simpl; [lia|]. rewrite u64_small by lia.
  split; [lia|]. rewrite Z.mul_comm. by apply Z.mod_mul.
Qed.

Lemma initial_page_range sys os ps : sys < 2 ^ 24 → 0 < os < 2 ^ 32 → 0 ≤ ps < 2 ^ 32 →
  0 ≤ initial_page_size sys os ps < 2 ^ 61.
Proof.
  intros Hsys Hos Hps. unfold initial_page_size. set (y := if sys <=? 0 then 4096 else sys).
  assert (0 < y < 2 ^ 24) by (unfold y; destruct (Z.leb_spec sys 0); lia).
  rewrite (u64_small (os * 4)) by lia.
  pose proof (Z.div_mod (os * 4) y ltac:(lia)). pose proof (Z.mod_pos_bound (os * 4) y ltac:(lia)).
  pose proof (Z.div_mod ps y ltac:(lia)). pose proof (Z.mod_pos_bound ps y ltac:(lia)).
  destruct (Z.eqb_spec ps 0); [|destruct (Z.eqb_spec (ps mod y) 0)]; rewrite u64_small; nia.
Qed.

Lemma slab_create_spec sys os ps s : sys < 2 ^ 24 → 0 < os < 2 ^ 31 → 0 ≤ ps < 2 ^ 32 →
  nr_slab_create sys os ps = Some s →
  slab_inv s [] ∧ os ≤ object_size s ∧ count s = 0 ∧ Vector.used (free_list s) = 0.
Proof.
  intros Hsys Hos Hps. unfold nr_slab_create. destruct (Z.eqb_spec os 0); [lia|].
  destruct (aligned_size_spec os Hos) as [Ha Hm].
  pose proof (initial_page_range sys (aligned_size os) ps Hsys ltac:(lia) Hps) as Hp.
  set (p := initial_page_size sys _ ps) in *. unfold sizeof_page at 1. rewrite u64_small by lia.
  destruct (Z.ltb_spec p (aligned_size os + 24)); [done|]. intros [= <-]. simpl.
  destruct (new_page_ok (aligned_size os) p) as (Hn & _); [lia|unfold sizeof_page; lia|].
  destruct (Vector.create_inv (V:=option addr) 128 false ltac:(lia)) as [Hv Hvs].
  split_and!; [|lia|done|done]. split; simpl; try done; try lia.
  - unfold sizeof_page. lia.
  - split; [done|]. by constructor.
  - exists []. split_and!; [done|constructor|constructor|constructor].
Qed.

Lemma slab_run_spec ops s live objects : (∀ n, realloc_succeeds (V:=option addr) n = true) →
  slab_inv s live → Vector.used (free_list s) + Z.of_nat (length ops) < 2 ^ 59 → read s <$> live = objects →
  ops_ok (object_size s) ops objects →
  ∃ s' live', run_slab ops s live = Some (s', live') ∧ slab_inv s' live' ∧ object_size s' = object_size s ∧
    read s' <$> live' = foldl (λ o op, spec (object_size s) op o) objects ops.
Proof.
  intros Hal. revert s live objects. induction ops as [|op ops IH]; intros s live objects Hinv Hu Hr Hok.
  { by exists s, live. }
  simpl in Hu. destruct Hok as [Hop Hok].
  destruct (slab_exec_spec op s live objects Hal Hinv ltac:(lia) Hr Hop) as (s1 & l1 & E & Hi1 & Ho1 & Hu1 & Hr1 & _).
  destruct (IH s1 l1 _ Hi1 ltac:(lia) Hr1) as (s' & live' & E' & Hi' & Ho' & Hr'); [by rewrite Ho1|].
  exists s', live'. rewrite Ho1 in *. split_and!; try done; try congruence.
  unfold run_slab in *. cbn [foldl mbind option_bind]. by rewrite E.
Qed.
End slab.

(** C36: live objects are private memory. Whatever objects a client takes, writes and
    releases (live objects only), on a slab created with any sizes that allow one, every request is served; a new object is
    at least of the size asked for and zero, also when it was used before; the contents of each live object
    are what was last written to it, whatever happens to the others, across new pages and reuse; and live objects lie
    at distinct multiples of the object size inside the used part of their page. *)
Theorem nr_slab_objects_private `{Allocator (option addr)} (sys os ps : Z) (s0 : nr_slab_t) (ops : list slab_op) :
  (∀ n, realloc_succeeds (V:=option addr) n = true) →
  sys < 2 ^ 24 → 0 < os < 2 ^ 31 → 0 ≤ ps < 2 ^ 32 → nr_slab_create sys os ps = Some s0 →
  Z.of_nat (length ops) < 2 ^ 59 → ops_ok (object_size s0) ops [] →
  ∃ s live, run_slab ops s0 [] = Some (s, live) ∧
    os ≤ object_size s ∧ object_size s mod 16 = 0 ∧
    read s <$> live = foldl (λ o op, spec (object_size s) op o) [] ops ∧
    NoDup live ∧ Forall (slot s) live.
Proof.
  intros Hal Hsys Hos Hps Hc Hl Hok. destruct (slab_create_spec sys os ps s0 Hsys Hos Hps Hc) as (Hi & Ho & _ & Hu).
  destruct (slab_run_spec ops s0 [] [] Hal Hi ltac:(lia) eq_refl Hok) as (s & live & E & Hi' & Ho' & Hr).
  exists s, live. rewrite Ho'. destruct (si_slots _ _ Hi') as (free & _ & Hnd & Hsl & _).
  apply NoDup_app in Hnd as (_ & _ & Hnd). apply Forall_app in Hsl as [_ Hsl].
  split_and!; try done. by rewrite <-Ho', (si_aligned _ _ Hi').
Qed.

(** Two objects; the first is released and comes back zero, the second keeps its bytes. *)
Definition example_ops : list slab_op :=
  [Next; Put 0 (replicate 16 7); Next; Put 0 (replicate 16 9); Release 1; Next].

Lemma nr_slab_objects_private_witness :
  ∃ s live, run_slab (H:=GenerousAllocator.allocator (option addr)) example_ops
      (Slab [nr_slab_page_create 64] (Vector.nr_vector_create 128 false) 16 64 0) [] = Some (s, live) ∧
    read s <$> live = [replicate 16 0; replicate 16 9].
Proof.
  destruct (@nr_slab_objects_private (GenerousAllocator.allocator (option addr)) 64 9 1
    (Slab [nr_slab_page_create 64] (Vector.nr_vector_create 128 false) 16 64 0) example_ops)
    as (s & live & E & Ho & _ & Hr & _); [done..|cbn; repeat split; lia|].
  exists s, live. split; [exact E|]. rewrite Hr.
  replace (object_size s) with 16; [reflexivity|].
  symmetry. apply (f_equal (λ r, from_option (λ r, object_size r.1) 0 r)) in E. cbn in E. rewrite <-E. vm_compute. reflexivity.
Defined.
