(* ===== verification/Sql.v ===== *)
(** * Sql: obfuscation and normalization of SQL (src/axiom/util_sql.c)

    A statement is the list of its characters; a pointer into it is the suffix
    that starts there. *)

From S2P Require Import Prelude CString Hash Strings.
Local Open Scope Z_scope.
#[local] Set Warnings "-clear-no-such-hyp".

(** ** Obfuscation *)

(** The suffix at the first newline, and at the first end of a comment. *)
Fixpoint at_newline (p : list Z) : option (list Z) :=
  match p with [] => None | c :: p' => if c =? 10 then Some p else at_newline p' end.
Fixpoint at_comment_end (p : list Z) : option (list Z) :=
  match p with
  | [] => None
  | c :: p' => if (c =? 42) && (char_at p' 0 =? 47) then Some p else at_comment_end p'
  end.

(** Where the loop is: outside literals, inside a quoted string, inside a
    number. *)
Inductive obf_state := Normal | Quoted (quote : Z) | Number.

(** One iteration of the loop at a character [c] in front of [p]: the characters
    written, the new place and state.  [None] ends the loop; a place of [None] is
    one behind the terminator. *)
Definition obfuscate_step (state : obf_state) (c : Z) (p : list Z) :
    option (list Z * option (list Z) * obf_state) :=
  match state with
  | Normal =>
      if c =? 34 then Some ([63], Some p, Quoted 34)
      else if c =? 39 then Some ([63], Some p, Quoted 39)
      else if c =? 45 then
        if char_at p 0 =? 45
        then p ← at_newline (c :: p); Some ([], Some (drop 1 p), Normal)
        else Some ([c], Some p, Normal)
      else if c =? 47 then
        if char_at p 0 =? 42
        then p ← at_comment_end (c :: p); Some ([], Some (drop 2 p), Normal)
        else Some ([c], Some p, Normal)
      else if nr_isdigit c then Some ([63], Some p, Number)
      else Some ([c], Some p, Normal)
  | Quoted quote =>
      if c =? 92 then Some ([], match p with [] => None | _ :: p => Some p end, state)
      else if c =? quote then
        if char_at p 0 =? quote then Some ([], Some (drop 1 p), state) else Some ([], Some p, Normal)
      else Some ([], Some p, state)
  | Number => if nr_isdigit c then Some ([], Some p, state) else Some ([], Some (c :: p), Normal)
  end.

(** [None] when the loop gets behind the terminator: there the C code reads
    memory that is not the string's. *)
Fixpoint obfuscate_loop (fuel : nat) (state : obf_state) (p : list Z) : option (list Z) :=
  match fuel, p with
  | S fuel, c :: p =>
      match obfuscate_step state c p with
      | None => Some []
      | Some (_, None, _) => None
      | Some (out, Some p, state) => (out ++.) <$> obfuscate_loop fuel state p
      end
  | _, _ => Some []
  end.

(** Each character takes at most two iterations. *)
Definition nr_sql_obfuscate (raw : option (list Z)) : option (option (list Z)) :=
  match raw with
  | None => Some None
  | Some raw => Some <$> obfuscate_loop (S (2 * length (cstr raw))) Normal (cstr raw)
  end.

(** ** Normalization *)

(** The characters written for one character, and the new state. *)
Definition normalize_step (state : nat) (c : Z) : list Z * nat :=
  match state with
  | O => ([c], if (c =? 105) || (c =? 73) then 1%nat else O)
  | 1%nat => ([c], if (c =? 110) || (c =? 78) then 2%nat else O)
  | 2%nat => ([c], if c =? 40 then 3%nat else if nr_isspace c then 2%nat else O)
  | 3%nat =>
      if (c =? 63) || (c =? 44) || nr_isspace c then ([], 3%nat)
      else if c =? 41 then ([63; 41], O)
      else ([c], 4%nat)
  | _ => ([c], if c =? 41 then O else 4%nat)
  end.

Fixpoint normalize_loop (state : nat) (p : list Z) : list Z :=
  match p with
  | [] => []
  | c :: p => let '(out, state) := normalize_step state c in out ++ normalize_loop state p
  end.

(** The string written, without its terminator. *)
Definition nr_sql_normalize (obfuscated_sql : option (list Z)) : option (list Z) :=
  match obfuscated_sql with
  | None => None
  | Some s => if char_at s 0 =? 0 then None else Some (normalize_loop 0 (cstr s))
  end.

(** The bytes allocated for it. *)
Definition normalize_space (obfuscated_sql : list Z) : Z := strlen obfuscated_sql + 1.

Definition nr_sql_normalized_id (obfuscated_sql : option (list Z)) : Z :=
  match nr_sql_normalize obfuscated_sql with
  | None => 0
  | Some normalized => (nr_mkhash (Some normalized) None).1
  end.

(** ** Obfuscation hides literals *)
Definition measure (state : obf_state) (p : list Z) : nat :=
  2 * length p + match state with Number => 1 | _ => 0 end.

(** What may be written: no digit, no quote. *)
Definition hidden (c : Z) : Prop := nr_isdigit c = false ∧ c ≠ 34 ∧ c ≠ 39 ∧ 0 < c < 256.

Lemma at_newline_suffix p q : at_newline p = Some q → q `suffix_of` p ∧ q ≠ [].
Proof.
  induction p as [|c p IH]; [done|]. simpl. destruct (c =? 10); [intros [= <-]; by split|].
  intros Hq. destruct (IH Hq). split; [by apply suffix_cons_r|done].
Qed.

Lemma at_comment_end_suffix p q : at_comment_end p = Some q → q `suffix_of` p ∧ (2 ≤ length q)%nat.
Proof.
  induction p as [|c p IH]; [done|]. simpl. destruct (_ && _) eqn:E.
  - intros [= <-]. split; [done|]. apply andb_true_iff in E as [_ E]. destruct p; [done|]. simpl. lia.
  - intros Hq. destruct (IH Hq). split; [by apply suffix_cons_r|done].
Qed.

Lemma suffix_drop {A} n (p : list A) : drop n p `suffix_of` p.
Proof. exists (take n p). by rewrite take_drop. Qed.

Lemma is_cstr_suffix p q : q `suffix_of` p → is_cstr p → is_cstr q.
Proof. intros [k ->] Hp. by apply Forall_app in Hp as [_ ?]. Qed.

Lemma hidden_plain c : 0 < c < 256 → nr_isdigit c = false → c ≠ 34 → c ≠ 39 → Forall hidden [c].
Proof. intros. constructor; [|constructor]. done. Qed.

Lemma hidden_mark : Forall hidden [63].
Proof. by apply hidden_plain. Qed.
#[local] Hint Resolve hidden_mark Forall_nil_2 : core.

Ltac step := split_and!; unfold measure; rewrite ?length_drop; cbn [length] in *; auto; try lia.

Lemma step_spec state c p out op state' : is_cstr (c :: p) →
  obfuscate_step state c p = Some (out, op, state') →
  match op with
  | Some p' => p' `suffix_of` c :: p ∧ (length out + length p' ≤ length (c :: p))%nat ∧
      (measure state' p' < measure state (c :: p))%nat ∧ Forall hidden out
  | None => c = 92 ∧ p = []
  end.
Proof.
  intros Hp. apply Forall_cons in Hp as [Hc _].
  assert (p `suffix_of` c :: p) as Hs by by apply suffix_cons_r.
  destruct state as [|quote|]; cbn [obfuscate_step].
  - destruct (Z.eqb_spec c 34); [intros [= <- <- <-]; step|].
    destruct (Z.eqb_spec c 39); [intros [= <- <- <-]; step|].
    destruct (Z.eqb_spec c 45) as [->|].
    { destruct (char_at p 0 =? 45); [|intros [= <- <- <-]; step; by apply hidden_plain].
      destruct (at_newline _) as [q|] eqn:E; [|done]. intros [= <- <- <-].
      destruct (at_newline_suffix _ _ E) as [Hq Hne]. apply suffix_length in Hq as Hl. simpl in Hl.
      destruct q; [done|]. step. etrans; [apply (suffix_drop 1)|done]. }
    destruct (Z.eqb_spec c 47) as [->|].
    { destruct (char_at p 0 =? 42); [|intros [= <- <- <-]; step; by apply hidden_plain].
      destruct (at_comment_end _) as [q|] eqn:E; [|done]. intros [= <- <- <-].
      destruct (at_comment_end_suffix _ _ E) as [Hq Hne]. apply suffix_length in Hq as Hl. simpl in Hl.
      step. by etrans; [apply (suffix_drop 2)|]. }
    destruct (nr_isdigit c) eqn:Ed; intros [= <- <- <-]; step. by apply hidden_plain.
  - destruct (Z.eqb_spec c 92) as [->|].
    { intros [= <- <- <-]. destruct p as [|x p]; [done|]. step. by do 2 apply suffix_cons_r. }
    destruct (c =? quote); [destruct (char_at p 0 =? quote)|]; intros [= <- <- <-]; step.
    by etrans; [apply (suffix_drop 1)|].
  - destruct (nr_isdigit c); intros [= <- <- <-]; step.
Qed.

(** A sound loop: what it writes is hidden and no longer than what it reads; it
    gets behind the terminator only after a final backslash; and fuel above the measure does not
    matter. *)
Lemma obfuscate_loop_spec fuel state p : is_cstr p → (measure state p ≤ fuel)%nat →
  match obfuscate_loop fuel state p with
  | Some out => (length out ≤ length p)%nat ∧ Forall hidden out
  | None => last p = Some 92
  end ∧ ∀ fuel', (measure state p ≤ fuel')%nat → obfuscate_loop fuel' state p = obfuscate_loop fuel state p.
Proof.
  revert state p. induction fuel as [|fuel IH]; intros state p Hp Hm.
  { unfold measure in Hm. destruct p; [|simpl in Hm; lia]. split; [done|]. by intros []. }
  destruct p as [|c p]; [split; [done|]; by intros []|].
  assert (∀ fuel', (measure state (c :: p) ≤ fuel')%nat → ∃ f, fuel' = S f) as Hpos.
  { intros [|f] Hf; [unfold measure in Hf; simpl in Hf; lia|by exists f]. }
  cbn [obfuscate_loop]. destruct (obfuscate_step state c p) as [[[out [p'|]] state']|] eqn:E.
  - destruct (step_spec _ _ _ _ _ _ Hp E) as (Hs & Hl & Hlt & Hh).
    destruct (IH state' p') as [Hr Hf]; [by eapply is_cstr_suffix|lia|]. split.
    + destruct (obfuscate_loop fuel state' p') as [out'|]; simpl.
      * destruct Hr as [Hr1 Hr2]. rewrite length_app. split; [simpl in *; lia|by apply Forall_app].
      * destruct Hs as [k ->]. by rewrite last_app, Hr.
    + intros fuel' Hf'. destruct (Hpos _ Hf') as [f ->]. cbn [obfuscate_loop]. rewrite E. by rewrite Hf by lia.
  - destruct (step_spec _ _ _ _ _ _ Hp E) as [-> ->]. split; [done|].
    intros fuel' Hf'. destruct (Hpos _ Hf') as [f ->]. cbn [obfuscate_loop]. by rewrite E.
  - split; [split; [simpl; lia|done]|]. intros fuel' Hf'. destruct (Hpos _ Hf') as [f ->].
    cbn [obfuscate_loop]. by rewrite E.
Qed.

(** Quoted strings without a quote or a backslash in them. *)
Lemma quoted_loop fuel q body post : is_cstr (body ++ q :: post) →
  q ≠ 92 → Forall (λ c, c ≠ q ∧ c ≠ 92) body → char_at post 0 ≠ q →
  (length body < fuel)%nat →
  obfuscate_loop fuel (Quoted q) (body ++ q :: post) = obfuscate_loop (fuel - S (length body)) Normal post.
Proof.
  intros Hc Hq Hb Hpost. revert fuel. induction Hb as [|c body [Hc1 Hc2] _ IH]; intros fuel Hf;
    destruct fuel as [|fuel]; [simpl in Hf; lia| |simpl in Hf; lia|]; cbn [app obfuscate_loop obfuscate_step].
  - destruct (Z.eqb_spec q 92); [done|]. rewrite Z.eqb_refl.
    destruct (Z.eqb_spec (char_at post 0) q); [done|]. simpl. rewrite Nat.sub_0_r. by destruct (obfuscate_loop _ _ _).
  - destruct (Z.eqb_spec c 92); [done|]. destruct (Z.eqb_spec c q); [done|].
    apply Forall_cons in Hc as [_ Hc]. rewrite IH by (done || simpl in *; lia). simpl. by destruct (obfuscate_loop _ _ _).
Qed.

(** C38: obfuscation hides every literal. The text written for any statement ends
    and has no digit and no quote in it, it is no longer than the statement, and so fits in
    the space allocated; only on a statement whose last character is a backslash can the loop skip the
    terminator and read on behind it, and on a quote and a backslash it does. *)
Theorem nr_sql_obfuscate_hides (raw : list Z) :
  is_cstr raw →
  match nr_sql_obfuscate (Some raw) with
  | Some (Some out) =>
      Forall (λ c, nr_isdigit c = false ∧ c ≠ 34 ∧ c ≠ 39) out ∧ is_cstr out ∧
      Z.of_nat (length out) + 1 ≤ strlen raw + 1
  | Some None => False
  | None => last raw = Some 92
  end ∧
  (∀ fuel, (2 * length raw ≤ fuel)%nat → Some <$> obfuscate_loop fuel Normal raw = nr_sql_obfuscate (Some raw)) ∧
  nr_sql_obfuscate (Some [39; 92]) = None.
Proof.
  intros Hraw. unfold nr_sql_obfuscate. rewrite strlen_id, cstr_id by done.
  destruct (obfuscate_loop_spec (S (2 * length raw)) Normal raw Hraw) as [Hs Hf]; [unfold measure; lia|].
  split; [|split; [|done]].
  - destruct (obfuscate_loop _ _ _) as [out|]; simpl; [|done]. destruct Hs as [Hl Hh]. split_and!; [| |lia].
    + eapply Forall_impl; [done|]. by intros c (? & ? & ? & _).
    + eapply Forall_impl; [done|]. by intros c (_ & _ & _ & ?).
  - intros fuel Hfuel. rewrite Hf; [done|]. unfold measure. lia.
Qed.

(** "id=42 or n='x'" *)
Lemma nr_sql_obfuscate_hides_witness :
  nr_sql_obfuscate (Some (lit "id=42 or n='x'")) = Some (Some (lit "id=? or n=?")) ∧
  Forall (λ c, nr_isdigit c = false ∧ c ≠ 34 ∧ c ≠ 39) (lit "id=? or n=?").
Proof.
  assert (E : nr_sql_obfuscate (Some (lit "id=42 or n='x'")) = Some (Some (lit "id=? or n=?"))) by (vm_compute; reflexivity).
  split; [exact E|]. destruct (nr_sql_obfuscate_hides (lit "id=42 or n='x'")) as [Hw _]; [by repeat constructor|].
  rewrite E in Hw. exact (proj1 Hw).
Defined.

Definition plain (c : Z) : Prop := c ≠ 34 ∧ c ≠ 39 ∧ c ≠ 45 ∧ c ≠ 47 ∧ nr_isdigit c = false.

Lemma plain_loop fuel pre rest : Forall plain pre → (length pre ≤ fuel)%nat →
  obfuscate_loop fuel Normal (pre ++ rest) = (pre ++.) <$> obfuscate_loop (fuel - length pre) Normal rest.
Proof.
  intros Hp. revert fuel. induction Hp as [|c pre (H1 & H2 & H3 & H4 & H5) _ IH]; intros fuel Hf.
  { simpl. rewrite Nat.sub_0_r. by destruct (obfuscate_loop _ _ _). }
  destruct fuel as [|fuel]; [simpl in Hf; lia|]. cbn [app obfuscate_loop obfuscate_step].
  destruct (Z.eqb_spec c 34), (Z.eqb_spec c 39), (Z.eqb_spec c 45), (Z.eqb_spec c 47); try done. rewrite H5.
  rewrite IH by (simpl in Hf; lia). simpl. by destruct (obfuscate_loop _ _ _).
Qed.

(** A quoted string is one question mark, whatever is in it: obfuscation does not depend
    on the literal. *)
Lemma nr_sql_obfuscate_string (pre body post : list Z) (q : Z) :
  is_cstr (pre ++ q :: body ++ q :: post) → Forall plain pre → q = 34 ∨ q = 39 →
  Forall (λ c, c ≠ q ∧ c ≠ 92) body → char_at post 0 ≠ q →
  nr_sql_obfuscate (Some (pre ++ q :: body ++ q :: post)) =
    fmap (M:=option) (λ out, pre ++ [63] ++ out) <$> nr_sql_obfuscate (Some post).
Proof.
  intros Hc Hpre Hq Hb Hpost. apply Forall_app in Hc as Hc'. destruct Hc' as [_ Hc'].
  apply Forall_cons in Hc' as [_ Hc']. assert (is_cstr post) as Hcp.
  { apply Forall_app in Hc' as [_ Hc']. by apply Forall_cons in Hc' as [_ ?]. }
  unfold nr_sql_obfuscate. rewrite !cstr_id by done. set (fuel := S (2 * length (pre ++ _))).
  assert (2 * length pre + 2 * length body + 2 * length post + 4 < fuel)%nat as Hfuel
    by (unfold fuel; repeat (rewrite length_app; cbn [length]); lia).
  rewrite plain_loop by (done || lia). destruct (fuel - length pre)%nat as [|f] eqn:Ef; [lia|].
  assert (obfuscate_loop (S f) Normal (q :: body ++ q :: post) =
          (63 ::.) <$> obfuscate_loop f (Quoted q) (body ++ q :: post)) as ->.
  { cbn [obfuscate_loop obfuscate_step]. destruct Hq as [-> | ->]; simpl; by destruct (obfuscate_loop _ _ _). }
  rewrite quoted_loop by (done || lia || (destruct Hq; lia)).
  destruct (obfuscate_loop_spec (S (2 * length post)) Normal post Hcp) as [_ Hf]; [unfold measure; lia|].
  rewrite Hf by (unfold measure; lia). by destruct (obfuscate_loop _ _ _).
Qed.

(** ** Normalization *)

(** The state after a piece of text. *)
Definition state_after (state : nat) (p : list Z) : nat := foldl (λ st c, (normalize_step st c).2) state p.

Lemma normalize_app state p q :
  normalize_loop state (p ++ q) = normalize_loop state p ++ normalize_loop (state_after state p) q.
Proof.
  revert state. induction p as [|c p IH]; intros state; [done|]. simpl.
  destruct (normalize_step state c) as [out st] eqn:E. by rewrite IH, app_assoc.
Qed.

Definition marker (c : Z) : bool := (c =? 63) || (c =? 44) || nr_isspace c.

Lemma normalize_markers l post : Forall (λ c, marker c = true) l →
  normalize_loop 3 (l ++ 41 :: post) = 63 :: 41 :: normalize_loop 0 post.
Proof. induction 1 as [|c l Hc _ IH]; [done|]. unfold marker in Hc. simpl. by rewrite Hc. Qed.

(** What a state does with what it wrote. *)
Lemma normalize_idem state p : (state ≤ 4)%nat → normalize_loop state (normalize_loop state p) = normalize_loop state p.
Proof.
  revert state. induction p as [|c p IH]; intros state Hst; [done|].
  assert (∀ out st, normalize_step state c = (out, st) → (st ≤ 4)%nat ∧
    (out = [c] ∨ out = [] ∧ state = 3%nat ∧ st = 3%nat ∨ out = [63; 41] ∧ state = 3%nat ∧ st = 0%nat)) as Hcase.
  { intros out st. destruct state as [|[|[|[|state]]]]; simpl; repeat case_match; intros [= <- <-]; split; try lia; auto. }
  cbn [normalize_loop]. destruct (normalize_step state c) as [out st] eqn:E.
  destruct (Hcase out st eq_refl) as (Hs & [-> | [(-> & -> & ->)|(-> & -> & ->)]]).
  - cbn [app normalize_loop]. rewrite E. cbn [app]. by rewrite IH.
  - by apply IH.
  - cbn [app normalize_loop]. simpl. by rewrite IH by lia.
Qed.

Lemma normalize_cstr state p : is_cstr p → is_cstr (normalize_loop state p).
Proof.
  intros Hp. revert state. induction Hp as [|c p Hc _ IH]; intros state; [constructor|]. simpl.
  destruct (normalize_step state c) as [out st] eqn:E. apply Forall_app. split; [|apply IH].
  destruct state as [|[|[|[|state]]]]; simpl in E; repeat case_match; injection E as <- <-; repeat (apply Forall_cons_2; [lia|]); apply Forall_nil_2.
Qed.

(** normalization forgets how long an IN list is, and nothing is left to
    normalize. Two statements that differ only in the placeholders, commas and spaces of a list
    behind "in (" have the same normalized text and so the same id; and normalizing a normalized
    statement changes nothing. *)
Theorem nr_sql_normalize_in_lists (pre l1 l2 post : list Z) :
  is_cstr (pre ++ l1 ++ 41 :: post) → is_cstr l2 → state_after 0 pre = 3%nat →
  Forall (λ c, marker c = true) l1 → Forall (λ c, marker c = true) l2 →
  nr_sql_normalize (Some (pre ++ l1 ++ 41 :: post)) = nr_sql_normalize (Some (pre ++ l2 ++ 41 :: post)) ∧
  nr_sql_normalized_id (Some (pre ++ l1 ++ 41 :: post)) = nr_sql_normalized_id (Some (pre ++ l2 ++ 41 :: post)) ∧
  nr_sql_normalize (Some (pre ++ l1 ++ 41 :: post)) ≫= (λ n, nr_sql_normalize (Some n)) =
    nr_sql_normalize (Some (pre ++ l1 ++ 41 :: post)).
Proof.
  intros Hc Hc2 Hst H1 H2.
  assert (is_cstr pre ∧ is_cstr (41 :: post)) as [Hcp Hcs].
  { apply Forall_app in Hc as [? Hc]. by apply Forall_app in Hc as [_ ?]. }
  assert (pre ≠ []) as Hne by (by intros ->).
  assert (∀ l, is_cstr l → Forall (λ c, marker c = true) l →
    nr_sql_normalize (Some (pre ++ l ++ 41 :: post)) = Some (normalize_loop 0 pre ++ 63 :: 41 :: normalize_loop 0 post)) as Hnorm.
  { intros l Hl Hm. unfold nr_sql_normalize. destruct pre as [|c pre]; [done|]. apply Forall_cons in Hcp as Hc0.
    destruct (Z.eqb_spec (char_at ((c :: pre) ++ l ++ 41 :: post) 0) 0) as [E|]; [change (c = 0) in E; lia|].
    rewrite cstr_id; [by rewrite normalize_app, Hst, normalize_markers|]. apply Forall_app. split; [done|]. by apply Forall_app. }
  assert (is_cstr l1) as Hc1 by (apply Forall_app in Hc as [_ Hc]; by apply Forall_app in Hc as [? _]).
  unfold nr_sql_normalized_id. rewrite !Hnorm by done. split_and!; [done|done|]. cbn [mbind option_bind].
  assert (normalize_loop 0 pre ++ 63 :: 41 :: normalize_loop 0 post = normalize_loop 0 (pre ++ l1 ++ 41 :: post)) as ->
    by by rewrite normalize_app, Hst, normalize_markers.
  unfold nr_sql_normalize. pose proof (normalize_cstr 0 _ Hc) as Hcn.
  destruct (Z.eqb_spec (char_at (normalize_loop 0 (pre ++ l1 ++ 41 :: post)) 0) 0) as [E|].
  - destruct pre as [|c pre]; [done|]. apply Forall_cons in Hcp as [? _]. change (c = 0) in E. lia.
  - rewrite cstr_id by done. by rewrite normalize_idem by lia.
Qed.

(** "a in (?,?) b" and "a in ( ? , ?, ? ) b" *)
Lemma nr_sql_normalize_in_lists_witness :
  nr_sql_normalize (Some (lit "a in (?,?) b")) = nr_sql_normalize (Some (lit "a in (? , ?, ?) b")) ∧
  nr_sql_normalize (Some (lit "a in (?,?) b")) = Some (lit "a in (?) b").
Proof.
  destruct (nr_sql_normalize_in_lists (lit "a in (") (lit "?,?") (lit "? , ?, ?") (lit " b")) as (E & _ & _);
    [by repeat constructor|by repeat constructor|reflexivity|by repeat constructor|by repeat constructor|].
  split; [exact E|]. vm_compute. reflexivity.
Defined.

(** No empty parentheses. *)
Fixpoint no_empty (p : list Z) : Prop :=
  match p with [] => True | c :: p => (c = 40 → char_at p 0 ≠ 41) ∧ no_empty p end.

Lemma normalize_length state p : no_empty p →
  (length (normalize_loop state p) ≤
   length p + (if decide (state = 3%nat ∧ (char_at p 0 = 41)%Z) then 1 else 0))%nat.
Proof.
  revert state. induction p as [|c p IH]; intros state; [simpl; lia|]. intros [Hc Hp].
  pose proof (λ st, IH st Hp) as IH'. clear IH. cbn [normalize_loop]. change (char_at (c :: p) 0) with c.
  destruct state as [|[|[|[|state]]]]; cbn [normalize_step].
  - specialize (IH' (if (c =? 105) || (c =? 73) then 1%nat else O)). rewrite decide_False in IH' by (case_match; lia).
    cbn [app length]. lia.
  - specialize (IH' (if (c =? 110) || (c =? 78) then 2%nat else O)). rewrite decide_False in IH' by (case_match; lia).
    cbn [app length]. lia.
  - cbn [app length]. destruct (Z.eqb_spec c 40) as [->|].
    + specialize (IH' 3%nat). rewrite decide_False in IH' by (specialize (Hc eq_refl); tauto). lia.
    + specialize (IH' (if nr_isspace c then 2%nat else O)). rewrite decide_False in IH' by (case_match; lia). lia.
  - destruct ((c =? 63) || (c =? 44) || nr_isspace c).
    + cbn [app length]. specialize (IH' 3%nat). case_decide; simpl in IH'; case_decide; lia.
    + destruct (Z.eqb_spec c 41) as [->|].
      * cbn [app length]. specialize (IH' O). rewrite decide_False in IH' by lia. rewrite decide_True by done. lia.
      * cbn [app length]. specialize (IH' 4%nat). rewrite decide_False in IH' by lia. lia.
  - specialize (IH' (if c =? 41 then O else 4%nat)). rewrite decide_False in IH' by (case_match; lia).
    cbn [app length]. lia.
Qed.

(** the space allocated for a normalized statement is enough when the statement has no
    empty parentheses. It is not in general: an empty list behind a word that ends in "in" grows by a
    question mark, and the text of "min()" with its terminator is one byte longer than its space. *)
Theorem nr_sql_normalize_space (s : list Z) :
  is_cstr s → no_empty s →
  (∀ out, nr_sql_normalize (Some s) = Some out → Z.of_nat (length out) + 1 ≤ normalize_space s) ∧
  ∃ out, nr_sql_normalize (Some (lit "min()")) = Some out ∧
    Z.of_nat (length out) + 1 = normalize_space (lit "min()") + 1.
Proof.
  intros Hs Hn. split; [|by eexists]. unfold nr_sql_normalize, normalize_space. rewrite cstr_id, strlen_id by done.
  intros out. case_match; [done|]. intros [= <-]. pose proof (normalize_length 0 s Hn) as Hl.
  rewrite decide_False in Hl by lia. lia.
Qed.

Lemma nr_sql_normalize_space_witness :
  ∃ out, nr_sql_normalize (Some (lit "a in (?, ?)")) = Some out ∧
    Z.of_nat (length out) + 1 ≤ normalize_space (lit "a in (?, ?)").
Proof.
  eexists. split; [vm_compute; reflexivity|].
  apply (proj1 (nr_sql_normalize_space (lit "a in (?, ?)") ltac:(by repeat constructor) ltac:(by repeat split))).
  vm_compute. reflexivity.
Defined.

(** ** Operation and table *)
Inductive nr_sql_parse_type_t :=
| NR_SQL_PARSE_UNKNOWN | NR_SQL_PARSE_UPDATE | NR_SQL_PARSE_FROM | NR_SQL_PARSE_INTO | NR_SQL_PARSE_DROP
| NR_SQL_PARSE_CREATE | NR_SQL_PARSE_COMMIT.

#[export] Instance nr_sql_parse_type_eq_dec : EqDecision nr_sql_parse_type_t.
Proof. solve_decision. Defined.

Definition nr_sql_parse_type_string (from_into_none : nr_sql_parse_type_t) : list Z :=
  match from_into_none with
  | NR_SQL_PARSE_UPDATE => lit "update"
  | NR_SQL_PARSE_FROM => lit "from"
  | NR_SQL_PARSE_INTO => lit "into"
  | NR_SQL_PARSE_CREATE => lit "create"
  | NR_SQL_PARSE_DROP => lit "drop"
  | NR_SQL_PARSE_COMMIT => lit "commit"
  | NR_SQL_PARSE_UNKNOWN => lit "unknown"
  end.

Definition NR_SQL_WHITESPACE_CHARS : list Z := [32; 13; 10; 9; 11; 12].
(** The white space, the two quotes, the backquote and the opening brackets. *)
Definition NR_SQL_DELIMITER_CHARS : list Z := NR_SQL_WHITESPACE_CHARS ++ [39; 34; 96; 40; 91; 64; 123].

Definition skip (n : Z) (s : list Z) : list Z := drop (Z.to_nat n) s.

(** Behind the end of the comment. *)
Fixpoint skip_comment (s : list Z) : option (list Z) :=
  match s with
  | [] => None
  | c :: s' => if (c =? 42) && (char_at s' 0 =? 47) then Some (drop 1 s') else skip_comment s'
  end.

Fixpoint skip_comments (fuel : nat) (s : list Z) : option (list Z) :=
  match fuel with
  | O => Some s
  | S fuel =>
      if (char_at s 0 =? 47) && (char_at s 1 =? 42) then
        s ← skip_comment (drop 2 s);
        skip_comments fuel (skip (strspn s NR_SQL_WHITESPACE_CHARS) s)
      else Some s
  end.

Definition nr_sql_whitespace_comment_prefix (sql : option (list Z)) : option (list Z) :=
  match sql with
  | None => None
  | Some s =>
      if char_at s 0 =? 0 then Some s
      else skip_comments (length s) (skip (strspn s NR_SQL_WHITESPACE_CHARS) s)
  end.

Definition nr_sql_parse_over (str : list Z) (character : Z) : option (list Z) :=
  cend ← strchr str character; Some (skip (cend + 1) str).

(** A keyword, in lower case, in front of a delimiter or the end. *)
Fixpoint nr_parse_sql_keyword (sql keyword : list Z) : bool :=
  match keyword with
  | [] => bool_decide (char_at sql 0 ∈ NR_SQL_DELIMITER_CHARS) || (char_at sql 0 =? 0)
  | k :: keyword => (k =? nr_tolower (char_at sql 0)) && nr_parse_sql_keyword (drop 1 sql) keyword
  end.

Definition operations : list (list Z * nr_sql_parse_type_t) :=
  [(lit "select", NR_SQL_PARSE_FROM); (lit "update", NR_SQL_PARSE_UPDATE); (lit "insert", NR_SQL_PARSE_INTO);
   (lit "replace", NR_SQL_PARSE_INTO); (lit "delete", NR_SQL_PARSE_FROM); (lit "commit", NR_SQL_PARSE_COMMIT);
   (lit "create", NR_SQL_PARSE_CREATE); (lit "drop", NR_SQL_PARSE_DROP)].

Definition find_operation (sql : list Z) : option (list Z * nr_sql_parse_type_t) :=
  find (λ op, nr_strnicmp (Some op.1) (Some sql) (Z.of_nat (length op.1)) =? 0) operations.

(** One iteration of the search for the keyword that the table follows. *)
Inductive scan_result := Continue (x : list Z) (nest_level : Z) (check : bool) | Break (x : list Z) | Return.

(** The white space, the two quotes and the parentheses. *)
Definition word_ends : list Z := NR_SQL_WHITESPACE_CHARS ++ [39; 34; 40; 41].

Definition scan_step (flag : nr_sql_parse_type_t) (x : list Z) (nest_level : Z) (check_replication_stmt : bool) :
    scan_result :=
  match nr_sql_whitespace_comment_prefix (Some x) with
  | None => Return
  | Some x =>
      if check_replication_stmt then
        if nr_parse_sql_keyword x (lit "if") then Continue (drop 2 x) nest_level true
        else if nr_parse_sql_keyword x (lit "not") then Continue (drop 3 x) nest_level true
        else if nr_parse_sql_keyword x (lit "exists") then Break (drop 6 x)
        else Break x
      else if (char_at x 0 =? 39) || (char_at x 0 =? 34) then
        match nr_sql_parse_over (drop 1 x) (char_at x 0) with
        | None => Return
        | Some x => Continue x nest_level false
        end
      else if char_at x 0 =? 40 then Continue (drop 1 x) (nest_level + 1) false
      else if char_at x 0 =? 41 then Continue (drop 1 x) (nest_level - 1) false
      else if (nest_level =? 0) && bool_decide (flag = NR_SQL_PARSE_CREATE ∨ flag = NR_SQL_PARSE_DROP) &&
              nr_parse_sql_keyword x (lit "database") then Continue (drop 8 x) nest_level true
      else if (nest_level =? 0) && bool_decide (flag = NR_SQL_PARSE_CREATE ∨ flag = NR_SQL_PARSE_DROP) &&
              nr_parse_sql_keyword x (lit "table") then Continue (drop 5 x) nest_level true
      else if (nest_level =? 0) && bool_decide (flag = NR_SQL_PARSE_FROM) && nr_parse_sql_keyword x (lit "from")
      then Break (drop 4 x)
      else if (nest_level =? 0) && bool_decide (flag = NR_SQL_PARSE_INTO) && nr_parse_sql_keyword x (lit "into")
      then Break (drop 4 x)
      else Continue (skip (strcspn x word_ends) x) nest_level false
  end.

(** Where the loop ends; [None] when the function returns from it. *)
Fixpoint scan_loop (fuel : nat) (flag : nr_sql_parse_type_t) (x : list Z) (nest_level : Z) (check : bool) :
    option (list Z) :=
  match fuel, x with
  | S fuel, _ :: _ =>
      match scan_step flag x nest_level check with
      | Continue x nest_level check => scan_loop fuel flag x nest_level check
      | Break x => Some x
      | Return => None
      end
  | _, _ => Some x
  end.

(** The characters that end a table name, and those between a database and a dot:
    the delimiters and ]});,* with a slash, the former with the dot too. *)
Definition name_ends : list Z := NR_SQL_DELIMITER_CHARS ++ [93; 125; 41; 59; 44; 42; 46; 47].
Definition name_gap : list Z := NR_SQL_DELIMITER_CHARS ++ [93; 125; 41; 59; 44; 42; 47].
(** The white space, ,`) and ; with the two quotes. *)
Definition paren_name_ends : list Z := NR_SQL_WHITESPACE_CHARS ++ [44; 96; 41; 39; 34; 59].

(** The name behind the last dot. *)
Fixpoint name_loop (fuel : nat) (x : list Z) : list Z :=
  match fuel with
  | O => []
  | S fuel =>
      let x := if bool_decide (char_at x 0 ∈ [96; 39; 34; 123]) then drop 1 x else x in
      let name := take (Z.to_nat (strcspn x name_ends)) x in
      let x := skip (strcspn x name_ends) x in
      let sl := strspn x name_gap in
      if char_at x sl =? 46 then name_loop fuel (skip (sl + 1) x) else name
  end.

Definition find_table (x : list Z) : option (list Z) :=
  x ← nr_sql_whitespace_comment_prefix (Some x);
  let subquery :=
    (char_at x 0 =? 40) && negb (bool_decide (char_at x 1 ∈ [96; 39; 34])) &&
    (let x := drop 1 x in
     let sl := strcspn x paren_name_ends in negb ((char_at x sl =? 41) || (char_at x sl =? 44))) in
  if subquery then Some (lit "(subquery)")
  else
    let x := if char_at x 0 =? 40 then drop 1 x else x in
    let name := name_loop (S (length x)) x in
    match name with [] => None | _ => Some (nr_strndup (Some name) (Z.of_nat (length name))) end.

(** The operation and the table. *)
Definition nr_sql_get_operation_and_table (sql : option (list Z)) : option (list Z) * option (list Z) :=
  match nr_sql_whitespace_comment_prefix (cstr <$> sql) with
  | None => (None, None)
  | Some sql =>
      match find_operation sql with
      | None => (None, None)
      | Some (opname, opflag) =>
          let x :=
            if decide (opflag = NR_SQL_PARSE_COMMIT ∨ opflag = NR_SQL_PARSE_UPDATE)
            then Some (skip (strcspn sql NR_SQL_WHITESPACE_CHARS) sql)
            else scan_loop (S (length sql)) opflag sql 0 false in
          (Some opname, x ← x; find_table x)
      end
  end.

Example table_examples :
  nr_sql_get_operation_and_table (Some (lit "/* c */ SELECT a FROM `db`.`t` WHERE 1")) = (Some (lit "select"), Some (lit "t")) ∧
  nr_sql_get_operation_and_table (Some (lit "create table if not exists x (a)")) = (Some (lit "create"), Some (lit "x")) ∧
  nr_sql_get_operation_and_table (Some (lit "select * from (select 1)")) = (Some (lit "select"), Some (lit "(subquery)")) ∧
  nr_sql_get_operation_and_table (Some (lit "update /* c */ t set")) = (Some (lit "update"), Some (lit "t")) ∧
  nr_sql_get_operation_and_table (Some (lit "select from 'x")) = (Some (lit "select"), Some (lit "x")) ∧
  nr_sql_get_operation_and_table (Some (lit "show x")) = (None, None).
Proof. vm_compute. by split_and!. Qed.

(** *** Spans *)
Lemma strcspn_spec s reject : is_cstr s →
  0 ≤ strcspn s reject ≤ Z.of_nat (length s) ∧
  Forall (λ c, c ∉ cstr reject) (take (Z.to_nat (strcspn s reject)) s).
Proof.
  induction 1 as [|c s Hc _ [IH1 IH2]]; [by split|]. cbn [strcspn length]. destruct (Z.eqb_spec c 0); [lia|].
  case_bool_decide; [split; [lia|constructor]|]. split; [lia|].
  replace (Z.to_nat (1 + strcspn s reject)) with (S (Z.to_nat (strcspn s reject))) by lia. by constructor.
Qed.

Lemma strcspn_pos c s reject : is_cstr (c :: s) → (c ∉ cstr reject) → 0 < strcspn (c :: s) reject.
Proof.
  intros Hs Hn. apply Forall_cons in Hs as [Hc Hs]. cbn [strcspn]. destruct (Z.eqb_spec c 0); [lia|].
  rewrite bool_decide_false by done. pose proof (strcspn_spec s reject Hs). lia.
Qed.

Lemma strspn_spec s accept : is_cstr s → (0 < strspn s accept → s ≠ []) ∧
  0 ≤ strspn s accept ≤ Z.of_nat (length s) ∧ (char_at s (strspn s accept) ∉ cstr accept ∨ char_at s (strspn s accept) = 0).
Proof.
  induction 1 as [|c s Hc _ (_ & IH1 & IH2)]; [split_and!; [simpl; lia|simpl; lia|simpl; lia|by right]|]. cbn [strspn length].
  destruct (Z.eqb_spec c 0); [lia|]. case_bool_decide.
  - split_and!; [done|lia|lia|]. unfold char_at in *.
    by replace (Z.to_nat (1 + strspn s accept)) with (S (Z.to_nat (strspn s accept))) by lia.
  - split_and!; [done|lia|lia|]. by left.
Qed.

Lemma skip_suffix n s : skip n s `suffix_of` s.
Proof. apply suffix_drop. Qed.

Lemma char_at_skip s n : 0 ≤ n → char_at (skip n s) 0 = char_at s n.
Proof. intros. unfold char_at, skip. rewrite lookup_drop. by rewrite Nat.add_0_r. Qed.

Lemma skip_comment_suffix s t : skip_comment s = Some t → t `suffix_of` s.
Proof.
  induction s as [|c s IH]; [done|]. simpl. destruct (_ && _).
  - intros [= <-]. apply suffix_cons_r, suffix_drop.
  - intros Ht. by apply suffix_cons_r, IH.
Qed.

(** White space and comments are behind the place returned, and it is at neither. *)
Definition at_token (s : list Z) : Prop :=
  (char_at s 0 ∉ NR_SQL_WHITESPACE_CHARS) ∧ ¬ (char_at s 0 = 47 ∧ char_at s 1 = 42).

Lemma nul_no_space : 0 ∉ NR_SQL_WHITESPACE_CHARS.
Proof. by apply (bool_decide_eq_false_1 (0 ∈ NR_SQL_WHITESPACE_CHARS)). Qed.

Lemma skip_comments_spec fuel s t : is_cstr s → (length s ≤ fuel)%nat → (char_at s 0 ∉ NR_SQL_WHITESPACE_CHARS) →
  skip_comments fuel s = Some t → t `suffix_of` s ∧ at_token t.
Proof.
  revert s. induction fuel as [|fuel IH]; intros s Hs Hf Hw.
  { destruct s; [|simpl in Hf; lia]. intros [= <-]. split; [done|]. split; [done|]. by intros [? _]. }
  cbn [skip_comments]. destruct (_ && _) eqn:E.
  - destruct (skip_comment (drop 2 s)) as [u|] eqn:Eu; [|done]. cbn [mbind option_bind]. intros Ht.
    assert (u `suffix_of` s) as Hu by (etrans; [by apply skip_comment_suffix|apply suffix_drop]).
    assert (is_cstr u) as Hcu by by eapply is_cstr_suffix.
    destruct (strspn_spec u NR_SQL_WHITESPACE_CHARS Hcu) as (_ & Hr & Hn).
    destruct (IH (skip (strspn u NR_SQL_WHITESPACE_CHARS) u)) as [Hts Hat]; [| | |done|].
    + eapply is_cstr_suffix; [apply skip_suffix|done].
    + apply skip_comment_suffix in Eu. apply suffix_length in Eu. rewrite length_drop in Eu.
      unfold skip. rewrite length_drop. destruct s; [done|]. simpl in *. lia.
    + rewrite char_at_skip by lia. destruct Hn as [Hn| ->]; [exact Hn|apply nul_no_space].
    + split; [|done]. etrans; [done|]. etrans; [apply skip_suffix|done].
  - intros [= <-]. split; [done|]. split; [done|]. intros [E1 E2]. rewrite E1, E2 in E. done.
Qed.

Lemma prefix_spec s t : is_cstr s → nr_sql_whitespace_comment_prefix (Some s) = Some t → t `suffix_of` s ∧ at_token t.
Proof.
  intros Hs. unfold nr_sql_whitespace_comment_prefix. destruct (Z.eqb_spec (char_at s 0) 0) as [E|E].
  - intros [= <-]. split; [done|]. unfold at_token. rewrite E. split; [apply nul_no_space|lia].
  - destruct (strspn_spec s NR_SQL_WHITESPACE_CHARS Hs) as (_ & Hr & Hn). intros Ht.
    apply skip_comments_spec in Ht as [Hsf Hat].
    + split; [|done]. etrans; [done|apply skip_suffix].
    + eapply is_cstr_suffix; [apply skip_suffix|done].
    + unfold skip. rewrite length_drop. lia.
    + rewrite char_at_skip by lia. destruct Hn as [Hn| ->]; [exact Hn|apply nul_no_space].
Qed.

(** *** The searches end *)
Lemma strchr_range s c i : strchr s c = Some i → 0 ≤ i ≤ strlen s.
Proof.
  unfold strchr, first_offset. intros Hf. apply find_some in Hf as [Hin _].
  apply list_elem_of_In, elem_of_seqZ in Hin. lia.
Qed.

Lemma drop_shorter n (x : list Z) : (0 < n)%nat → x ≠ [] → (length (drop n x) < length x)%nat.
Proof. intros. rewrite length_drop. destruct x; [done|]. simpl. lia. Qed.

Lemma char_at_nil i : char_at [] i = 0.
Proof. unfold char_at. by rewrite lookup_nil. Qed.

Lemma keyword_nonempty k kw x : k ≠ 0 → nr_parse_sql_keyword x (k :: kw) = true → x ≠ [].
Proof.
  intros Hk E ->. simpl in E. rewrite char_at_nil in E. change (nr_tolower 0) with 0 in E.
  destruct (Z.eqb_spec k 0); [done|]. simpl in E. done.
Qed.

Ltac keyword := match goal with
  | H : nr_parse_sql_keyword ?x _ = true |- _ =>
      assert (x ≠ []) by (eapply keyword_nonempty; [|exact H]; done); clear H
  end.

(** An iteration that goes on goes on at a shorter suffix, one that breaks at a
    suffix. *)
Lemma scan_step_spec flag x nest check : is_cstr x → x ≠ [] →
  match scan_step flag x nest check with
  | Continue x' _ _ => x' `suffix_of` x ∧ (length x' < length x)%nat
  | Break x' => x' `suffix_of` x
  | Return => True
  end.
Proof.
  intros Hx Hne. unfold scan_step.
  destruct (nr_sql_whitespace_comment_prefix (Some x)) as [y|] eqn:Ey; [|done].
  destruct (prefix_spec x y Hx Ey) as [Hs [Hw _]]. clear Ey. pose proof (suffix_length _ _ Hs) as Hl.
  assert (∀ n, (0 < n)%nat → y ≠ [] → drop n y `suffix_of` x ∧ (length (drop n y) < length x)%nat) as Hdrop.
  { intros n Hn Hy. split; [by etrans; [apply suffix_drop|]|]. pose proof (drop_shorter n y Hn Hy). lia. }
  assert (∀ n, drop n y `suffix_of` x) as Hbreak by (intros n; by etrans; [apply suffix_drop|]).
  assert (∀ c, c ≠ 0 → char_at y 0 = c → y ≠ []) as Hhead by (intros c Hc E ->; by rewrite char_at_nil in E).
  destruct check.
  { destruct (nr_parse_sql_keyword y (lit "if")) eqn:E1; [keyword; auto with lia|].
    destruct (nr_parse_sql_keyword y (lit "not")) eqn:E2; [keyword; auto with lia|].
    destruct (nr_parse_sql_keyword y (lit "exists")); auto. }
  destruct ((char_at y 0 =? 39) || (char_at y 0 =? 34)) eqn:Eq.
  { assert (y ≠ []) as Hy by (intros ->; by rewrite char_at_nil in Eq).
    unfold nr_sql_parse_over. destruct (strchr (drop 1 y) (char_at y 0)) as [i|] eqn:Ei; [|done]. simpl.
    apply strchr_range in Ei. unfold skip. rewrite drop_drop. apply Hdrop; [lia|done]. }
  destruct (Z.eqb_spec (char_at y 0) 40) as [E|E40]; [apply Hdrop; [lia|by apply (Hhead 40)]|].
  destruct (Z.eqb_spec (char_at y 0) 41) as [E|E41]; [apply Hdrop; [lia|by apply (Hhead 41)]|].
  destruct (_ && _ && nr_parse_sql_keyword y (lit "database")) eqn:E1;
    [apply andb_true_iff in E1 as [_ E1]; keyword; auto with lia|].
  destruct (_ && _ && nr_parse_sql_keyword y (lit "table")) eqn:E2;
    [apply andb_true_iff in E2 as [_ E2]; keyword; auto with lia|].
  destruct (_ && _ && nr_parse_sql_keyword y (lit "from")); [auto|].
  destruct (_ && _ && nr_parse_sql_keyword y (lit "into")); [auto|].
  split; [etrans; [apply skip_suffix|done]|].
  destruct y as [|c y]; [unfold skip; rewrite drop_nil; destruct x; [done|simpl; lia]|].
  assert (0 < strcspn (c :: y) word_ends).
  { apply strcspn_pos; [by eapply is_cstr_suffix|]. change (char_at (c :: y) 0) with c in *.
    apply orb_false_iff in Eq as [Eq1%Z.eqb_neq Eq2%Z.eqb_neq]. unfold word_ends. rewrite cstr_id by by repeat constructor.
    rewrite elem_of_app. intros [Hin|Hin]; [done|]. by set_solver. }
  unfold skip. pose proof (drop_shorter (Z.to_nat (strcspn (c :: y) word_ends)) (c :: y) ltac:(lia) ltac:(done)). lia.
Qed.

Lemma scan_loop_spec fuel flag x nest check : is_cstr x → (length x ≤ fuel)%nat →
  (∀ y, scan_loop fuel flag x nest check = Some y → y `suffix_of` x) ∧
  ∀ fuel', (length x ≤ fuel')%nat → scan_loop fuel' flag x nest check = scan_loop fuel flag x nest check.
Proof.
  revert x nest check. induction fuel as [|fuel IH]; intros x nest check Hx Hf.
  { destruct x; [|simpl in Hf; lia]. split; [by intros y [= <-]|by intros []]. }
  destruct x as [|c x]; [split; [by intros y [= <-]|by intros []]|].
  pose proof (scan_step_spec flag (c :: x) nest check Hx ltac:(done)) as Hstep. cbn [scan_loop].
  assert (∀ fuel', (length (c :: x) ≤ fuel')%nat → ∃ f, fuel' = S f) as Hpos.
  { intros [|f] Hf'; [simpl in Hf'; lia|by exists f]. }
  destruct (scan_step flag (c :: x) nest check) as [y n ch|y|] eqn:E.
  - destruct Hstep as [Hs Hl]. destruct (IH y n ch) as [H1 H2]; [by eapply is_cstr_suffix|lia|]. split.
    + intros z Hz. etrans; [by apply H1|done].
    + intros f' Hf'. destruct (Hpos _ Hf') as [f ->]. cbn [scan_loop]. rewrite E. apply H2. lia.
  - split; [by intros z [= <-]|]. intros f' Hf'. destruct (Hpos _ Hf') as [f ->]. cbn [scan_loop]. by rewrite E.
  - split; [done|]. intros f' Hf'. destruct (Hpos _ Hf') as [f ->]. cbn [scan_loop]. by rewrite E.
Qed.

Lemma name_loop_spec fuel x : is_cstr x → (length x < fuel)%nat →
  is_cstr (name_loop fuel x) ∧ Forall (λ c, c ∉ name_ends) (name_loop fuel x) ∧
  ∀ fuel', (length x < fuel')%nat → name_loop fuel' x = name_loop fuel x.
Proof.
  revert x. induction fuel as [|fuel IH]; intros x Hx Hf; [lia|]. cbn [name_loop].
  set (y := if bool_decide _ then _ else x).
  assert (y `suffix_of` x) as Hy by (subst y; case_bool_decide; [apply suffix_drop|done]).
  assert (is_cstr y) as Hcy by by eapply is_cstr_suffix. pose proof (suffix_length _ _ Hy).
  destruct (strcspn_spec y name_ends Hcy) as [Hr Hn]. rewrite cstr_id in Hn by by repeat constructor.
  set (z := skip _ y). assert (z `suffix_of` y) as Hz by apply skip_suffix.
  assert (is_cstr z) as Hcz by by eapply is_cstr_suffix. pose proof (suffix_length _ _ Hz).
  destruct (strspn_spec z name_gap Hcz) as (_ & Hr2 & _).
  destruct (Z.eqb_spec (char_at z (strspn z name_gap)) 46) as [E|E].
  - assert (z ≠ []) as Hzn by (intros Ez; by rewrite Ez, char_at_nil in E).
    assert (length (skip (strspn z name_gap + 1) z) < length z)%nat by (apply drop_shorter; [lia|done]).
    destruct (IH (skip (strspn z name_gap + 1) z)) as (N1 & N2 & N3); [eapply is_cstr_suffix; [apply skip_suffix|done]|lia|].
    split_and!; [done..|]. intros [|f] Hf'; [lia|]. cbn [name_loop]. fold y z. rewrite E. apply N3. lia.
  - split_and!; [by apply is_cstr_take|done|]. intros [|f] Hf'; [lia|]. cbn [name_loop]. fold y z.
    destruct (Z.eqb_spec (char_at z (strspn z name_gap)) 46); done.
Qed.

Definition word_of (op : list Z) (sql : list Z) : Prop := (nr_tolower <$> op) `prefix_of` (nr_tolower <$> sql).

Lemma find_operation_spec sql op flag : is_cstr sql → find_operation sql = Some (op, flag) →
  (op, flag) ∈ operations ∧ word_of op sql.
Proof.
  intros Hs Hf. apply find_some in Hf as [Hin Ht]. apply list_elem_of_In in Hin. split; [done|].
  assert (is_cstr op ∧ op ≠ []) as [Hop Hne].
  { assert (Forall (λ o : list Z * nr_sql_parse_type_t, is_cstr o.1 ∧ o.1 ≠ []) operations) as Hall by (repeat constructor; done).
    rewrite Forall_forall in Hall. exact (Hall _ Hin). }
  simpl in Ht. destruct (Z.ltb_spec 0 (Z.of_nat (length op))); [|destruct op; [done|simpl in *; lia]].
  apply Z.eqb_eq in Ht. unfold strncasecmp in Ht. rewrite Nat2Z.id, (take_ge op) in Ht by done.
  unfold strcasecmp in Ht. rewrite strcmp_eq in Ht by eauto with nr.
  unfold word_of. exists (nr_tolower <$> drop (length op) sql). by rewrite Ht, <-fmap_app, take_drop.
Qed.

(** the operation and the table are read off the statement. On any statement both
    searches end. The operation is one of the eight known words, with which the statement begins after
    white space and comments, up to case; there is a table only where there is an operation, and it is
    the text for a subquery or a non-empty name without white space, quotes, brackets and the other characters
    that end names. *)
Theorem nr_sql_operation_and_table_shape (sql : list Z) :
  is_cstr sql →
  let '(op, table) := nr_sql_get_operation_and_table (Some sql) in
  match op with
  | Some op => ∃ flag text, (op, flag) ∈ operations ∧ text `suffix_of` sql ∧ word_of op text ∧
      ∀ fuel, (length text ≤ fuel)%nat →
        scan_loop fuel flag text 0 false = scan_loop (S (length text)) flag text 0 false
  | None => table = None
  end ∧
  ∀ t, table = Some t → t = lit "(subquery)" ∨ t ≠ [] ∧ Forall (λ c, c ∉ name_ends) t.
Proof.
  intros Hsql. unfold nr_sql_get_operation_and_table.
  change (cstr <$> Some sql) with (Some (cstr sql)). rewrite cstr_id by done.
  destruct (nr_sql_whitespace_comment_prefix (Some sql)) as [text|] eqn:Et; [|cbn; split; [done|by intros t]].
  destruct (prefix_spec sql text Hsql Et) as [Hsuf _]. assert (is_cstr text) as Htext by by eapply is_cstr_suffix.
  destruct (find_operation text) as [[op flag]|] eqn:Eo; [|cbn; split; [done|by intros t]].
  destruct (find_operation_spec text op flag Htext Eo) as [Hin Hw]. split.
  - exists flag, text. split_and!; try done. intros fuel Hf.
    destruct (scan_loop_spec (S (length text)) flag text 0 false Htext ltac:(lia)) as [_ Hfuel]. by apply Hfuel.
  - intros t Ht. destruct (if decide _ then _ else _) as [x|] eqn:Ex; [|done]. cbn [mbind option_bind] in Ht.
    assert (is_cstr x) as Hx.
    { destruct (decide _) in Ex.
      - injection Ex as <-. eapply is_cstr_suffix; [apply skip_suffix|done].
      - destruct (scan_loop_spec (S (length text)) flag text 0 false Htext ltac:(lia)) as [Hs _].
        eapply is_cstr_suffix; [by apply Hs|done]. }
    unfold find_table in Ht. destruct (nr_sql_whitespace_comment_prefix (Some x)) as [y|] eqn:Ey; [|done].
    cbn [mbind option_bind] in Ht. destruct (prefix_spec x y Hx Ey) as [Hys _].
    destruct (_ && _ && _); [injection Ht as <-; by left|]. right.
    set (z := if char_at y 0 =? 40 then drop 1 y else y) in Ht.
    assert (is_cstr z) as Hz.
    { eapply is_cstr_suffix; [|exact Hx]. etrans; [|exact Hys]. subst z. destruct (char_at y 0 =? 40); [apply suffix_drop|done]. }
    destruct (name_loop_spec (S (length z)) z Hz ltac:(lia)) as (H1 & H2 & _).
    destruct (name_loop (S (length z)) z) as [|c n] eqn:En; [done|]. injection Ht as <-.
    unfold nr_strndup. destruct (Z.eqb_spec (Z.of_nat (length (c :: n))) 0); [simpl in *; lia|].
    rewrite Nat2Z.id, take_ge, cstr_id by done. done.
Qed.

Lemma nr_sql_operation_and_table_shape_witness :
  nr_sql_get_operation_and_table (Some (lit "delete from t;")) = (Some (lit "delete"), Some (lit "t")) ∧
  (lit "t" = lit "(subquery)" ∨ lit "t" ≠ [] ∧ Forall (λ c, c ∉ name_ends) (lit "t")).
Proof.
  assert (E : nr_sql_get_operation_and_table (Some (lit "delete from t;")) = (Some (lit "delete"), Some (lit "t")))
    by (vm_compute; reflexivity).
  split; [exact E|]. pose proof (nr_sql_operation_and_table_shape (lit "delete from t;") ltac:(by repeat constructor)) as Hw.
  rewrite E in Hw. exact (proj2 Hw _ eq_refl).
Defined.
