(* ===== verification/Double.v ===== *)
(** * Double: doubles to and from text (src/axiom/util_number_converter.c)

    A [double] is a [spec_float] at the binary64 format.  [snprintf] with
    [%.5f] and [strtod] are written out for the C library's decimal and
    hexadecimal notations; both use the radix character of the locale, which is
    a parameter, and the two functions of the source undo it. *)

From Stdlib Require Import SpecFloat.
From S2P Require Import Prelude Memory CString Strings.
Local Open Scope Z_scope.
#[local] Set Warnings "-clear-no-such-hyp".

Definition double : Type := spec_float.
Definition prec : Z := 53.
Definition emax : Z := 1024.

(** ** Output *)

(** The quotient rounded to the nearest integer, ties to even. *)
Definition round_half_even (n d : Z) : Z :=
  let q := n / d in let r := n mod d in
  if 2 * r <? d then q else if d <? 2 * r then q + 1 else q + q mod 2.

(** How many times [1 / k] is [m * 2 ^ e]. *)
Definition scaled (k : Z) (m : positive) (e : Z) : Z :=
  if 0 <=? e then Zpos m * 2 ^ e * k else round_half_even (Zpos m * k) (2 ^ (- e)).
Definition hundred_thousandths (m : positive) (e : Z) : Z := scaled 100000 m e.

(** The digits of a number of any size a double can have. *)
Definition long_decimal (v : Z) : list Z := decimal_loop 320 v [].

Definition five_digits (v : Z) : list Z :=
  [48 + v / 10000 mod 10; 48 + v / 1000 mod 10; 48 + v / 100 mod 10; 48 + v / 10 mod 10; 48 + v mod 10].

Definition fixed_5 (radix : Z) (v : Z) : list Z :=
  long_decimal (v / 100000) ++ radix :: five_digits (v mod 100000).

Definition sign_text (neg : bool) : list Z := if neg then [45] else [].

(** What [%.5f] prints.  (The sign of a NaN is not kept.) *)
Definition format_5f (radix : Z) (d : double) : list Z :=
  match d with
  | S754_zero s => sign_text s ++ fixed_5 radix 0
  | S754_infinity s => sign_text s ++ lit "inf"
  | S754_nan => lit "nan"
  | S754_finite s m e => sign_text s ++ fixed_5 radix (hundred_thousandths m e)
  end.

(** [snprintf]: the length of the whole text, and the memory with as much of it
    as fits. *)
Definition snprintf (buf : list Z) (len : Z) (text : list Z) : Z * list Z :=
  (Z.of_nat (length text),
   if 0 <? len then write buf 0 (take (Z.to_nat (len - 1)) text ++ [0]) else buf).

(** The loop that replaces the first comma among [n] bytes. *)
Fixpoint replace_comma (n : nat) (buf : list Z) : list Z :=
  match n, buf with
  | S n, c :: buf => if c =? 44 then 46 :: buf else c :: replace_comma n buf
  | _, _ => buf
  end.

Definition nr_double_to_str (radix : Z) (buf : option (list Z)) (buf_len : Z) (input : double) :
    Z * option (list Z) :=
  match buf with
  | None => (-1, None)
  | Some b =>
      if buf_len <=? 0 then (-1, buf)
      else
        let '(natural_width, b) := snprintf b buf_len (format_5f radix input) in
        let actually_written := if natural_width <? buf_len - 1 then natural_width else buf_len - 1 in
        (actually_written, Some (replace_comma (Z.to_nat actually_written) b))
  end.

(** ** Input *)
Fixpoint span (p : Z → bool) (s : list Z) : list Z * list Z :=
  match s with
  | [] => ([], [])
  | c :: s' => if p c then let '(a, r) := span p s' in (c :: a, r) else ([], s)
  end.

Definition hex_digit_value (c : Z) : Z :=
  if nr_isdigit c then c - 48 else if nr_islower c then c - 87 else c - 55.
Definition of_hex (l : list Z) : Z := foldl (λ x c, x * 16 + hex_digit_value c) 0 l.

(** The double nearest to [m * 10 ^ e], to [m * 2 ^ e]. *)
Definition of_decimal_scientific (neg : bool) (m e : Z) : double :=
  match m with
  | Zpos m =>
      if 0 <=? e then binary_round prec emax neg (m * Z.to_pos (10 ^ e)) 0
      else let '(q, x, l) := SFdiv_core_binary prec emax (Zpos m) 0 (10 ^ (- e)) 0 in
           binary_round_aux prec emax neg q x l
  | _ => S754_zero neg
  end.
Definition of_binary_scientific (neg : bool) (m e : Z) : double :=
  match m with Zpos m => binary_round prec emax neg m e | _ => S754_zero neg end.

Definition scan_sign (s : list Z) : bool * list Z :=
  match s with
  | c :: r => if c =? 45 then (true, r) else if c =? 43 then (false, r) else (false, s)
  | [] => (false, s)
  end.

(** Digits with at most one radix character among them, and at least one digit. *)
Definition scan_mantissa (radix : Z) (isd : Z → bool) (s : list Z) : option (list Z * list Z * list Z) :=
  let '(ip, r) := span isd s in
  let '(fp, r') := match r with
                   | c :: r' => if c =? radix then span isd r' else ([], r)
                   | [] => ([], r)
                   end in
  match ip ++ fp with [] => None | _ => Some (ip, fp, r') end.

(** An exponent, if there is a whole one. *)
Definition scan_exponent (marker : Z) (s : list Z) : Z * list Z :=
  match s with
  | c :: r =>
      if nr_tolower c =? marker then
        let '(neg, r) := scan_sign r in
        let '(ds, r) := span nr_isdigit r in
        match ds with [] => (0, s) | _ => ((if neg : bool then -1 else 1) * of_decimal ds, r) end
      else (0, s)
  | [] => (0, s)
  end.

Definition skip_spaces (s : list Z) : list Z := (span nr_isspace s).2.

Definition starts_with (word s : list Z) : bool :=
  bool_decide (nr_tolower <$> take (length word) s = word).

(** The text after [nan] that belongs to it. *)
Definition nan_payload (s : list Z) : list Z :=
  match s with
  | c :: r => if c =? 40 then
                match (span (λ c, nr_isalnum c || (c =? 95)) r).2 with
                | c :: r => if c =? 41 then r else s
                | [] => s
                end
              else s
  | [] => s
  end.

(** The value and the text after it; [None] when no number is there. *)
Definition scan_double (radix : Z) (s : list Z) : option (double * list Z) :=
  let '(neg, s) := scan_sign (skip_spaces s) in
  let hex := if starts_with (lit "0x") s then scan_mantissa radix nr_isxdigit (drop 2 s) else None in
  match hex with
  | Some (ip, fp, r) =>
      let '(e, r) := scan_exponent 112 r in
      Some (of_binary_scientific neg (of_hex (ip ++ fp)) (e - 4 * Z.of_nat (length fp)), r)
  | None =>
      match scan_mantissa radix nr_isdigit s with
      | Some (ip, fp, r) =>
          let '(e, r) := scan_exponent 101 r in
          Some (of_decimal_scientific neg (of_decimal (ip ++ fp)) (e - Z.of_nat (length fp)), r)
      | None =>
          if starts_with (lit "infinity") s then Some (S754_infinity neg, drop 8 s)
          else if starts_with (lit "inf") s then Some (S754_infinity neg, drop 3 s)
          else if starts_with (lit "nan") s then Some (S754_nan, nan_payload (drop 3 s))
          else None
      end
  end.

(** [strtod]: the value and the offset of the end pointer. *)
Definition strtod (radix : Z) (buf : list Z) : double * Z :=
  match scan_double radix buf with
  | Some (d, r) => (d, Z.of_nat (length buf) - Z.of_nat (length r))
  | None => (S754_zero false, 0)
  end.

(** The loop over the converted characters: the first radix character of
    either kind. *)
Inductive scan_status_t := OK | RADIX | OVERSHOT (position_radix : Z).

Fixpoint scan_loop (n : nat) (buf : list Z) (i : Z) : scan_status_t :=
  match n with
  | O => OK
  | S n =>
      if char_at buf i =? 46 then RADIX
      else if char_at buf i =? 44 then OVERSHOT i
      else scan_loop n buf (i + 1)
  end.

Definition BUFSIZ : Z := 8192.

(** The second conversion, of a copy with one character replaced; [None] when
    the place to replace is not in the copy, or holds its terminator and gets a
    comma: then the array is written or read past its end. *)
Definition rescan (radix : Z) (buf : list Z) (position_radix c : Z) : option (double * option Z) :=
  let copy := (nr_strlcpy (Some (replicate (Z.to_nat BUFSIZ) 0)) (Some buf) BUFSIZ).2 in
  if (position_radix <? BUFSIZ - 1) || ((c =? 0) && (position_radix =? BUFSIZ - 1))
  then let '(converted_value, end_) := strtod radix (cstr (write (default [] copy) position_radix [c])) in
       Some (converted_value, Some end_)
  else None.

(** The value and the offset of the end pointer, which is [NULL] for a [NULL]
    string. *)
Definition nr_strtod (radix : Z) (buf : option (list Z)) : option (double * option Z) :=
  match buf with
  | None => Some (S754_zero false, None)
  | Some buf =>
      let '(converted_value, end_) := strtod radix buf in
      match scan_loop (Z.to_nat end_) buf 0 with
      | RADIX => Some (converted_value, Some end_)
      | OVERSHOT position_radix => rescan radix buf position_radix 0
      | OK => if negb (char_at buf end_ =? 46) then Some (converted_value, Some end_) else rescan radix buf end_ 44
      end
  end.

(** ** JSON numbers *)
Record number := Number {
  negative : bool;
  int_digits : list Z;
  frac_digits : list Z;
  (* the marker, the sign, the digits *)
  exponent : option (Z * option bool * list Z);
}.

Definition is_digits (l : list Z) : Prop := Forall (λ c, nr_isdigit c = true) l.

Definition number_ok (n : number) : Prop :=
  is_digits (int_digits n) ∧ int_digits n ≠ [] ∧ is_digits (frac_digits n) ∧
  match exponent n with
  | Some (c, _, ds) => (c = 101 ∨ c = 69) ∧ is_digits ds ∧ ds ≠ []
  | None => True
  end.

Definition frac_text (radix : Z) (fp : list Z) : list Z := match fp with [] => [] | _ => radix :: fp end.
Definition exponent_text (e : option (Z * option bool * list Z)) : list Z :=
  match e with
  | Some (c, s, ds) => c :: (match s with Some true => [45] | Some false => [43] | None => [] end) ++ ds
  | None => []
  end.
Definition number_text (radix : Z) (n : number) : list Z :=
  sign_text (negative n) ++ int_digits n ++ frac_text radix (frac_digits n) ++ exponent_text (exponent n).

Definition exponent_value (e : option (Z * option bool * list Z)) : Z :=
  match e with
  | Some (_, Some true, ds) => -1 * of_decimal ds
  | Some (_, _, ds) => 1 * of_decimal ds
  | None => 0
  end.

(** The double nearest to the number. *)
Definition number_value (n : number) : double :=
  of_decimal_scientific (negative n) (of_decimal (int_digits n ++ frac_digits n))
    (exponent_value (exponent n) - Z.of_nat (length (frac_digits n))).

(** The radix characters of locales. *)
Definition locale_radix (c : Z) : Prop := c = 46 ∨ c = 44.

(** What may follow a number in JSON text. *)
Definition ends_number (rest : list Z) : Prop :=
  match rest with [] => True | c :: _ => c = 44 ∨ c = 93 ∨ c = 125 ∨ 0 ≤ c ≤ 32 end.

Lemma span_app (p : Z → bool) a r : Forall (λ c, p c = true) a →
  match r with [] => True | c :: _ => p c = false end → span p (a ++ r) = (a, r).
Proof.
  intros Ha Hr. induction Ha as [|c a Hc _ IH]; [destruct r as [|c r]; [done|]; simpl; by rewrite Hr|].
  simpl. by rewrite Hc, IH.
Qed.

(** What the scanner needs of the text after a number, besides no radix
    character. *)
Definition stops (r : list Z) : Prop :=
  match r with [] => True | c :: _ => nr_isdigit c = false ∧ nr_tolower c ≠ 101 ∧ nr_tolower c ≠ 120 end.

Lemma ends_stops r : ends_number r → stops r ∧ match r with [] => True | c :: _ => c ≠ 46 end.
Proof.
  destruct r as [|c r]; [done|]. simpl. intros Hc.
  assert (c ≠ 46 ∧ nr_isdigit c = false ∧ nr_isupper c = false ∧ c ≠ 101 ∧ c ≠ 120) as (? & ? & Hu & ? & ?).
  { unfold nr_isdigit, nr_isupper. lia. }
  unfold nr_tolower. by rewrite Hu.
Qed.

Lemma digit_not_radix c radix : nr_isdigit c = true → locale_radix radix → c ≠ radix.
Proof. unfold nr_isdigit, locale_radix. lia. Qed.

Lemma scan_exponent_text e r : stops r →
  match e with Some (c, _, ds) => (c = 101 ∨ c = 69) ∧ is_digits ds ∧ ds ≠ [] | None => True end →
  scan_exponent 101 (exponent_text e ++ r) = (exponent_value e, r).
Proof.
  intros Hr He. assert (match r with [] => True | c :: _ => nr_isdigit c = false end) as Hr1
    by (destruct r; simpl in *; tauto).
  destruct e as [[[c s] ds]|].
  - destruct He as (Hc & Hds & Hne). cbn [exponent_text app].
    unfold scan_exponent. assert ((nr_tolower c =? 101) = true) as ->.
    { by destruct Hc as [-> | ->]. }
    destruct ds as [|d ds]; [done|]. pose proof Hds as [Hd _]%Forall_cons.
    assert (scan_sign (((match s with Some true => [45] | Some false => [43] | None => [] end) ++ d :: ds) ++ r) =
      (match s with Some true => true | _ => false end, (d :: ds) ++ r)) as ->.
    { destruct s as [[]|]; [done..|]. simpl. unfold nr_isdigit in Hd.
      destruct (Z.eqb_spec d 45), (Z.eqb_spec d 43); try lia. done. }
    rewrite span_app by done. by destruct s as [[]|].
  - simpl. destruct r as [|c r]; [done|]. destruct Hr as (_ & Hc & _). simpl.
    by destruct (Z.eqb_spec (nr_tolower c) 101).
Qed.

(** The text after the integer digits: where the mantissa goes on from there. *)
Lemma scan_mantissa_text radix n r : number_ok n → locale_radix radix → stops r →
  (frac_digits n = [] → exponent n = None → match r with [] => True | c :: _ => c ≠ radix end) →
  scan_mantissa radix nr_isdigit (int_digits n ++ (frac_text radix (frac_digits n) ++ exponent_text (exponent n)) ++ r) =
    Some (int_digits n, frac_digits n, exponent_text (exponent n) ++ r).
Proof.
  intros (Hi & Hne & Hf & He) Hx Hr Hrx. unfold scan_mantissa.
  set (e := exponent n) in *. set (fp := frac_digits n) in *. set (ip := int_digits n) in *.
  assert (match exponent_text e ++ r with [] => True | c :: _ => nr_isdigit c = false end) as Hd.
  { destruct e as [[[c s] ds]|]; simpl; [|destruct r; simpl in *; tauto].
    destruct He as (Hc & _). by destruct Hc as [-> | ->]. }
  rewrite <-app_assoc. rewrite span_app; [|done|]; cycle 1.
  { destruct fp; [done|]. simpl. by destruct Hx as [-> | ->]. }
  destruct fp as [|f fp]; cbn [frac_text app].
  - assert (match exponent_text e ++ r with [] => ([], exponent_text e ++ r)
            | c :: r' => if c =? radix then span nr_isdigit r' else ([], exponent_text e ++ r) end
            = ([], exponent_text e ++ r)) as ->.
    { destruct (exponent_text e ++ r) as [|c l] eqn:E; [done|]. destruct (Z.eqb_spec c radix) as [->|]; [|done].
      exfalso. destruct e as [[[c s] ds]|]; simpl in E.
      - injection E as -> _. destruct He as (Hc & _). unfold locale_radix in Hx. lia.
      - subst r. by apply Hrx. }
    rewrite app_nil_r. by destruct ip.
  - rewrite Z.eqb_refl. change (f :: fp ++ exponent_text e ++ r) with ((f :: fp) ++ exponent_text e ++ r). rewrite span_app by done. by destruct ip.
Qed.

Lemma not_hex ip r : is_digits ip → ip ≠ [] → 
  match r with [] => True | c :: _ => nr_tolower c ≠ 120 end → starts_with (lit "0x") (ip ++ r) = false.
Proof.
  intros Hi Hne Hr. unfold starts_with. apply bool_decide_eq_false. change (lit "0x") with [48; 120].
  assert (match ip ++ r with _ :: c :: _ => nr_tolower c ≠ 120 | _ => True end) as Hc.
  { destruct ip as [|c [|c' ip]]; [done| |]; simpl; [done|].
    apply Forall_cons in Hi as [_ [Hc _]%Forall_cons]. unfold nr_isdigit in Hc. unfold nr_tolower.
    assert (nr_isupper c' = false) as -> by (unfold nr_isupper; lia). lia. }
  destruct (ip ++ r) as [|c [|c' l]]; simpl; try done. intros [= _ E]. done.
Qed.

Lemma skip_spaces_none s : match s with [] => True | c :: _ => nr_isspace c = false end → skip_spaces s = s.
Proof. destruct s as [|c s]; [done|]. unfold skip_spaces. simpl. by intros ->. Qed.

Lemma digit_plain c : nr_isdigit c = true →
  nr_isspace c = false ∧ c ≠ 45 ∧ c ≠ 43 ∧ 0 < c < 256.
Proof. unfold nr_isdigit, nr_isspace. lia. Qed.

Lemma scan_sign_text neg ip r : is_digits ip → ip ≠ [] →
  scan_sign (skip_spaces (sign_text neg ++ ip ++ r)) = (neg, ip ++ r).
Proof.
  intros Hi Hne. destruct ip as [|c ip]; [done|]. apply Forall_cons in Hi as [Hc _].
  destruct (digit_plain c Hc) as (? & ? & ? & _). rewrite skip_spaces_none by (by destruct neg).
  destruct neg; [done|]. simpl. by destruct (Z.eqb_spec c 45), (Z.eqb_spec c 43).
Qed.

(** The number in the radix of the locale is read up to its end. *)
Lemma scan_double_text radix n r : number_ok n → locale_radix radix → stops r →
  (frac_digits n = [] → exponent n = None → match r with [] => True | c :: _ => c ≠ radix end) →
  scan_double radix (number_text radix n ++ r) = Some (number_value n, r).
Proof.
  intros Hn Hx Hr Hrx. pose proof Hn as (Hi & Hne & Hf & He). unfold scan_double, number_text.
  rewrite <-!app_assoc, scan_sign_text by done. rewrite not_hex; [|done..|]; cycle 1.
  { destruct (frac_digits n); simpl; [|by destruct Hx as [-> | ->]].
    destruct (exponent n) as [[[c s] ds]|]; simpl; [by destruct He as ([-> | ->] & _)|].
    destruct r; [done|]. simpl in Hr. tauto. }
  rewrite (app_assoc (frac_text _ _)), scan_mantissa_text by done.
  by rewrite scan_exponent_text.
Qed.

Lemma length_number_text radix n : (length (sign_text (negative n) ++ int_digits n) ≤ length (number_text radix n))%nat.
Proof. unfold number_text. rewrite app_assoc, (length_app (_ ++ int_digits n)). lia. Qed.

Lemma strtod_text radix n r : number_ok n → locale_radix radix → stops r →
  (frac_digits n = [] → exponent n = None → match r with [] => True | c :: _ => c ≠ radix end) →
  strtod radix (number_text radix n ++ r) = (number_value n, Z.of_nat (length (number_text radix n))).
Proof.
  intros. unfold strtod. rewrite scan_double_text by done. rewrite length_app. f_equal. lia.
Qed.

(** The scan loop stops at the first radix character of either kind. *)
Lemma scan_loop_skip k n buf i : 0 ≤ i → (∀ j, (j < k)%nat → ∃ c, buf !! (Z.to_nat i + j)%nat = Some c ∧ c ≠ 46 ∧ c ≠ 44) →
  scan_loop (k + n) buf i = scan_loop n buf (i + Z.of_nat k).
Proof.
  revert i. induction k as [|k IH]; intros i Hi Hk; simpl; [f_equal; lia|].
  destruct (Hk 0%nat) as (c & Hc & ? & ?); [lia|]. rewrite Nat.add_0_r in Hc. unfold char_at. rewrite Hc. simpl.
  destruct (Z.eqb_spec c 46), (Z.eqb_spec c 44); [done..|]. rewrite IH; [f_equal; lia|lia|].
  intros j Hj. destruct (Hk (S j)) as (c' & Hc' & ?); [lia|]. exists c'. split; [|done].
  rewrite <-Hc'. f_equal. lia.
Qed.

Definition plain (l : list Z) : Prop := Forall (λ c, c ≠ 46 ∧ c ≠ 44) l.

Lemma scan_loop_plain a b n : plain a → (length a ≤ n)%nat →
  scan_loop n (a ++ b) 0 = scan_loop (n - length a) (a ++ b) (Z.of_nat (length a)).
Proof.
  intros Ha Hn. replace n with (length a + (n - length a))%nat at 1 by lia. apply (scan_loop_skip (length a) (n - length a) (a ++ b) 0); [done|].
  intros j Hj. destruct (lookup_lt_is_Some_2 a j Hj) as [c Hc]. exists c. split.
  - change ((a ++ b) !! j = Some c). by rewrite lookup_app_l.
  - exact (Forall_lookup_1 _ _ _ _ Ha Hc).
Qed.

Lemma plain_sign_digits neg ip : is_digits ip → plain (sign_text neg ++ ip).
Proof.
  intros Hi. apply Forall_app. split; [destruct neg; repeat constructor; done|].
  eapply Forall_impl; [exact Hi|]. unfold nr_isdigit. simpl. lia.
Qed.

Lemma plain_exponent e : match e with Some (c, _, ds) => (c = 101 ∨ c = 69) ∧ is_digits ds ∧ ds ≠ [] | None => True end →
  plain (exponent_text e).
Proof.
  destruct e as [[[c s] ds]|]; [|constructor]. intros (Hc & Hd & _). constructor; [lia|].
  apply (Forall_app _ _ ds). split; [destruct s as [[]|]; repeat constructor; done|].
  eapply Forall_impl; [exact Hd|]. unfold nr_isdigit. simpl. lia.
Qed.

(** The second conversion reads the copy, with a comma or cut off. *)
Definition room : nat := Z.to_nat (BUFSIZ - 1).
Lemma buffer_size : BUFSIZ = Z.of_nat room + 1.
Proof. done. Qed.
Lemma room_value : room = Z.to_nat 8191.
Proof. done. Qed.
#[local] Opaque BUFSIZ room.

Lemma cstr_stop l t : cstr (l ++ 0 :: t) = cstr l.
Proof. induction l as [|x l IH]; [done|]. simpl. destruct (x =? 0); [done|]. by rewrite IH. Qed.

Lemma rescan_copy radix buf pos c : is_cstr buf → 0 ≤ pos < Z.of_nat (length (take room buf)) →
  rescan radix buf pos c =
    let '(v, e) := strtod radix (cstr (<[Z.to_nat pos:=c]> (take room buf))) in Some (v, Some e).
Proof.
  pose proof buffer_size as Hsz. intros Hb Hp. unfold rescan. rewrite strlcpy_writes by (done || lia).
  replace (Z.to_nat (BUFSIZ - 1)) with room by lia.
  cbn [snd default from_option id]. set (cp := take room buf) in *.
  assert (length cp ≤ room)%nat by (subst cp; rewrite length_take; lia).
  destruct (Z.ltb_spec pos (BUFSIZ - 1)); [|lia]. cbn [orb].
  assert (∀ x y, x = y → (let '(v, e) := strtod radix x in Some (v, Some e)) =
    (let '(v, e) := strtod radix y in Some (v, Some e))) as Hcong by (by intros x y ->). apply Hcong.
  rewrite (write_at _ (cp ++ [0]) 0); [|lia|rewrite length_app, length_replicate; simpl; lia]. change (take (Z.to_nat 0) ?l) with (@nil Z).
  unfold write. cbn [list_inserts app]. rewrite <-app_assoc, insert_app_l by lia. apply cstr_stop.
Qed.

(** The whole copy is converted when its terminator is the place. *)
Lemma rescan_last radix buf : is_cstr buf → (room ≤ length buf)%nat →
  rescan radix buf (BUFSIZ - 1) 0 = let '(v, e) := strtod radix (take room buf) in Some (v, Some e).
Proof.
  pose proof buffer_size as Hsz. intros Hb Hl. unfold rescan. rewrite strlcpy_writes by (done || lia).
  replace (Z.to_nat (BUFSIZ - 1)) with room by lia. cbn [snd default from_option id].
  assert (length (take room buf) = room) as Hcp by (rewrite length_take; lia).
  assert (is_cstr (take room buf)) as Hc by by apply is_cstr_take. set (cp := take room buf) in *.
  rewrite Z.eqb_refl, Z.ltb_irrefl. cbn [orb andb Z.eqb].
  rewrite (write_at _ (cp ++ [0]) 0); [|lia|rewrite length_app, length_replicate; simpl; lia].
  change (take (Z.to_nat 0) ?l) with (@nil Z). cbn [app]. rewrite drop_ge
    by (rewrite length_app, length_replicate; simpl; lia). rewrite app_nil_r.
  assert (cstr (write (cp ++ [0]) (BUFSIZ - 1) [0]) = cp) as ->; [|done].
  unfold write. cbn [list_inserts]. replace (Z.to_nat (BUFSIZ - 1)) with (length cp + 0)%nat by lia.
  rewrite insert_app_r. simpl. by rewrite cstr_app.
Qed.

(** What is converted agrees with the text but for the place. *)
Lemma rescan_some radix buf pos c r : is_cstr buf → 0 ≤ pos < Z.of_nat (length buf) →
  rescan radix buf pos c = Some r →
  ∃ copy v e, r = (v, Some e) ∧ strtod radix copy = (v, e) ∧
    ∀ i x, copy !! i = Some x → i ≠ Z.to_nat pos → buf !! i = Some x.
Proof.
  pose proof buffer_size as Hsz. intros Hb Hp E.
  assert (pos < Z.of_nat room ∨ pos = BUFSIZ - 1 ∧ c = 0) as [Hpos|[-> ->]].
  { unfold rescan in E. destruct (Z.ltb_spec pos (BUFSIZ - 1)); [left; lia|].
    destruct (Z.eqb_spec c 0), (Z.eqb_spec pos (BUFSIZ - 1)); try done. by right. }
  - rewrite rescan_copy in E by (rewrite ?length_take; done || lia). destruct (strtod radix _) as [v e] eqn:Es.
    injection E as <-. eexists _, v, e. split; [done|]. split; [exact Es|]. intros i x Hi Hne.
    rewrite <-take_cstr in Hi. apply lookup_take_Some in Hi as [Hi _].
    rewrite list_lookup_insert_ne in Hi by done. by apply lookup_take_Some in Hi as [? _].
  - rewrite rescan_last in E by (done || lia). destruct (strtod radix _) as [v e] eqn:Es.
    injection E as <-. eexists _, v, e. split; [done|]. split; [exact Es|]. intros i x Hi _.
    by apply lookup_take_Some in Hi as [? _].
Qed.

Lemma rescan_cut radix text rest c : is_cstr (text ++ c :: rest) → (length text < room)%nat →
  rescan radix (text ++ c :: rest) (Z.of_nat (length text)) 0 =
    let '(v, e) := strtod radix text in Some (v, Some e).
Proof.
  intros Hb Hl. rewrite rescan_copy; [|done|rewrite length_take, length_app; simpl; lia]. rewrite Nat2Z.id.
  rewrite take_app_ge by lia. replace (room - length text)%nat with (S (room - 1 - length text)) by lia. simpl.
  rewrite insert_app_r_alt by done. rewrite Nat.sub_diag. simpl. rewrite cstr_app; [done|].
  by apply Forall_app in Hb as [? _].
Qed.

Lemma rescan_comma radix a b rest : is_cstr (a ++ 46 :: b ++ rest) → (S (length (a ++ b)) < room)%nat →
  ∃ k, rescan radix (a ++ 46 :: b ++ rest) (Z.of_nat (length a)) 44 =
    let '(v, e) := strtod radix ((a ++ 44 :: b) ++ take k rest) in Some (v, Some e).
Proof.
  rewrite length_app. intros Hb Hl. exists (room - 1 - length a - length b)%nat.
  rewrite rescan_copy; [|done|rewrite length_take, !length_app; simpl; rewrite length_app; lia]. rewrite Nat2Z.id.
  rewrite take_app_ge by lia. replace (room - length a)%nat with (S (room - 1 - length a)) by lia. simpl.
  rewrite insert_app_r_alt by done. rewrite Nat.sub_diag. simpl. rewrite take_app_ge by lia.
  rewrite cstr_id; [by rewrite <-app_assoc|].
  apply Forall_app in Hb as [Ha Hb]. apply Forall_cons in Hb as [_ Hb]. apply Forall_app in Hb as [? Hr].
  apply Forall_app. split; [done|]. constructor; [lia|]. apply Forall_app. split; [done|]. by apply is_cstr_take.
Qed.

Lemma length_span p s : (length (span p s).2 ≤ length s)%nat.
Proof. induction s as [|c s IH]; [done|]. simpl. destruct (p c); [|done]. destruct (span p s); simpl in *; lia. Qed.

Lemma length_scan_exponent k s : (length (scan_exponent k s).2 ≤ length s)%nat.
Proof.
  destruct s as [|c r]; [done|]. unfold scan_exponent. destruct (nr_tolower c =? k); [|done].
  assert (length (scan_sign r).2 ≤ length r)%nat.
  { destruct r as [|x r]; [done|]. simpl. destruct (x =? 45), (x =? 43); simpl; lia. }
  destruct (scan_sign r) as [neg r1]. pose proof (length_span nr_isdigit r1).
  destruct (span nr_isdigit r1) as [[|d ds] r2]; simpl in *; lia.
Qed.

(** With a comma for radix character, an integer and a comma are read past
    the comma. *)
Lemma strtod_past_comma neg ip r : is_digits ip → ip ≠ [] →
  Z.of_nat (length (sign_text neg ++ ip)) < (strtod 44 ((sign_text neg ++ ip) ++ 44 :: r)).2.
Proof.
  intros Hi Hne. unfold strtod, scan_double. rewrite <-!app_assoc, scan_sign_text by done.
  rewrite not_hex by done. unfold scan_mantissa. rewrite span_app by done. simpl (44 =? 44). cbv iota.
  pose proof (length_span nr_isdigit r). destruct (span nr_isdigit r) as [fp r']. simpl in H.
  destruct ip as [|d ip]; [done|]. cbn [app]. pose proof (length_scan_exponent 101 r').
  destruct (scan_exponent 101 r'). simpl in *. rewrite !length_app. simpl. rewrite length_app. simpl. lia.
Qed.

(** A number the function can read in any locale, with what follows it. *)
Record readable (n : number) (rest : list Z) : Prop := {
  rd_number : number_ok n;
  rd_ends : ends_number rest;
  rd_string : is_cstr (number_text 46 n ++ rest);
  rd_fits : (length (number_text 46 n) < room)%nat;
}.

Definition reads (radix : Z) (n : number) (rest : list Z) : Prop :=
  nr_strtod radix (Some (number_text 46 n ++ rest)) =
    Some (number_value n, Some (Z.of_nat (length (number_text 46 n)))).

Lemma text_integer radix n : frac_digits n = [] → number_text radix n = number_text 46 n.
Proof. intros E. unfold number_text. by rewrite E. Qed.

Lemma plain_integer n : number_ok n → frac_digits n = [] → plain (number_text 46 n).
Proof.
  intros (Hi & _ & _ & He) E. unfold number_text. rewrite E, app_assoc. apply Forall_app.
  split; [by apply plain_sign_digits|by apply plain_exponent].
Qed.

Lemma char_after a c r : char_at (a ++ c :: r) (Z.of_nat (length a)) = c.
Proof. unfold char_at. by rewrite Nat2Z.id, lookup_app_r, Nat.sub_diag. Qed.

Lemma reads_element n r : readable n (44 :: r) → frac_digits n = [] → exponent n = None →
  reads 44 n (44 :: r).
Proof.
  intros [Hn Hr Hc Hl] Ef Ee. pose proof Hn as (Hi & Hne & _ & _). pose proof (plain_integer n Hn Ef) as Hp.
  unfold reads, nr_strtod. pose proof (strtod_past_comma (negative n) (int_digits n) r Hi Hne) as Hpc.
  assert (sign_text (negative n) ++ int_digits n = number_text 46 n) as E
    by (unfold number_text; by rewrite Ef, Ee, !app_nil_r).
  rewrite E in Hpc. set (a := number_text 46 n) in *. destruct (strtod 44 (a ++ 44 :: r)) as [v e]. simpl in Hpc.
  rewrite scan_loop_plain by (done || lia).
  replace (Z.to_nat e - length a)%nat with (S (Z.to_nat e - length a - 1)) by lia. cbn [scan_loop].
  rewrite char_after. simpl. rewrite rescan_cut by done. unfold a. rewrite <-(text_integer 44) by done.
  rewrite <-(app_nil_r (number_text 44 n)) at 1. by rewrite strtod_text by (done || by right).
Qed.

Lemma reads_integer radix n rest : readable n rest → locale_radix radix → frac_digits n = [] →
  (exponent n = None → match rest with [] => True | c :: _ => c ≠ radix end) → reads radix n rest.
Proof.
  intros [Hn Hr Hc Hl] Hx Ef Hno. destruct (ends_stops rest Hr) as [Hs Hdot]. pose proof (plain_integer n Hn Ef) as Hp.
  unfold reads, nr_strtod. rewrite <-(text_integer radix), strtod_text, Nat2Z.id by done.
  rewrite (text_integer radix), scan_loop_plain, Nat.sub_diag by done. cbn [scan_loop].
  destruct rest as [|c r].
  - unfold char_at. rewrite app_nil_r, Nat2Z.id. by rewrite lookup_ge_None_2.
  - rewrite char_after. by destruct (Z.eqb_spec c 46).
Qed.

Lemma reads_fraction radix n rest : readable n rest → locale_radix radix → frac_digits n ≠ [] → reads radix n rest.
Proof.
  intros [Hn Hr Hc Hl] Hx Hf. pose proof Hn as (Hi & Hne & _ & He). destruct (ends_stops rest Hr) as [Hs Hdot].
  unfold reads, nr_strtod. set (a := sign_text (negative n) ++ int_digits n).
  assert (plain a) as Hpa by by apply plain_sign_digits.
  set (b := frac_digits n ++ exponent_text (exponent n)).
  assert (∀ radix, number_text radix n = a ++ radix :: b) as Et.
  { intros. unfold number_text, a, b. destruct (frac_digits n); [done|]. by rewrite <-app_assoc. }
  destruct Hx as [-> | ->].
  - rewrite strtod_text by (done || by left). rewrite Nat2Z.id, (Et 46), length_app.
    rewrite <-app_assoc, scan_loop_plain by (done || lia). cbn [length app].
    replace (length a + S (length b) - length a)%nat with (S (length b)) by lia. cbn [scan_loop].
    by rewrite char_after.
  - assert (∃ v, strtod 44 (number_text 46 n ++ rest) = (v, Z.of_nat (length a))) as [v ->].
    { rewrite (Et 46), <-app_assoc. cbn [app].
      pose proof (strtod_text 44 (Number (negative n) (int_digits n) [] None) (46 :: b ++ rest)) as Hst.
      unfold number_text in Hst. cbn [negative int_digits frac_digits exponent frac_text exponent_text] in Hst.
      rewrite !app_nil_r in Hst. eexists. apply Hst; [by split_and!; [done|done|constructor|done]|by right|done|done]. }
    rewrite (Et 46) in *. rewrite <-app_assoc in *. cbn [app] in *.
    rewrite Nat2Z.id, scan_loop_plain, Nat.sub_diag, char_after by done. cbn [scan_loop negb Z.eqb Pos.eqb].
    destruct (rescan_comma 44 a b rest) as [k ->]; [done|rewrite length_app in *; simpl in *; lia|].
    rewrite <-(Et 44), strtod_text; [|done|by right| |by intros ?].
    + by rewrite (Et 44), !length_app.
    + by destruct k, rest.
Qed.

Lemma reads_number radix n rest : readable n rest → locale_radix radix → reads radix n rest.
Proof.
  intros Hrd Hx. destruct (decide (frac_digits n = [])) as [Ef|Ef]; [|by apply reads_fraction].
  destruct (decide (exponent n = None)) as [Ee|Ee]; [|by apply reads_integer].
  destruct rest as [|c r]; [by apply reads_integer|].
  destruct (decide (c = radix)) as [->|]; [|by apply reads_integer].
  destruct Hx as [-> | ->]; [by destruct (ends_stops _ (rd_ends _ _ Hrd))|by apply reads_element].
Qed.

(** C40: [nr_strtod] reads the numbers of JSON text the same way in every locale. In front of
    anything that may follow a number in JSON text it stops at the end of the number and returns the double nearest
    to it, whether the locale's radix character is a point or a comma, even when the comma that separates two array
    elements looks like a radix character to [strtod]; the number has to fit the copy the function makes. *)
Theorem nr_strtod_reads_json (radix : Z) (n : number) (rest : list Z) :
  locale_radix radix → number_ok n → ends_number rest → is_cstr (number_text 46 n ++ rest) →
  (length (number_text 46 n) < room)%nat →
  nr_strtod radix (Some (number_text 46 n ++ rest)) =
    Some (number_value n, Some (Z.of_nat (length (number_text 46 n)))).
Proof.
  intros. by apply reads_number.
Qed.

Lemma nr_strtod_reads_json_witness :
  nr_strtod 44 (Some (lit "-12.50e+1,7]")) = Some (number_value (Number true (lit "12") (lit "50") (Some (101, Some false, [49]))), Some 9).
Proof.
  apply (nr_strtod_reads_json 44 (Number true (lit "12") (lit "50") (Some (101, Some false, [49]))) (lit ",7]")).
  - by right.
  - repeat split; [by repeat constructor|done|by repeat constructor|by left|by repeat constructor|done].
  - by left.
  - vm_compute. repeat constructor.
  - rewrite room_value. change (9 < Z.to_nat 8191)%nat. lia.
Defined.

(** ** Printed doubles *)

(** The sign and the hundred-thousandths a finite double is printed as. *)
Definition printed (d : double) : option (bool * Z) :=
  match d with
  | S754_zero s => Some (s, 0)
  | S754_finite s m e => Some (s, hundred_thousandths m e)
  | _ => None
  end.

Definition printed_number (s : bool) (v : Z) : number :=
  Number s (long_decimal (v / 100000)) (five_digits (v mod 100000)) None.

Lemma digits2_pos_bound m : Zpos m < 2 ^ Zpos (digits2_pos m).
Proof.
  induction m as [m IH|m IH|]; simpl digits2_pos; [| |done]; rewrite Pos2Z.inj_succ, Z.pow_succ_r by lia; lia.
Qed.

Lemma valid_mantissa s m e : valid_binary prec emax (S754_finite s m e) = true → Zpos m < 2 ^ 53 ∧ e ≤ 971.
Proof.
  simpl. unfold bounded, canonical_mantissa, fexp, SpecFloat.emin, prec, emax. intros [Hc He]%andb_true_iff.
  apply Z.eqb_eq in Hc. apply Z.leb_le in He. split; [|lia]. pose proof (digits2_pos_bound m).
  assert (2 ^ Zpos (digits2_pos m) ≤ 2 ^ 53) by (apply Z.pow_le_mono_r; lia). lia.
Qed.

(** What the digits of [long_decimal] can hold. *)
Definition digits_limit : Z := 10 ^ 320.
Lemma digits_limit_big : 2 ^ 53 * 2 ^ 971 < digits_limit.
Proof. by vm_compute. Qed.
Lemma double_range : 2 ^ 60 ≤ 2 ^ 53 * 2 ^ 971.
Proof. by vm_compute. Qed.
Lemma digits_limit_eq : digits_limit = 10 ^ Z.of_nat 320.
Proof. done. Qed.
#[local] Opaque digits_limit.

Lemma scaled_bound k s m e : 0 < k → valid_binary prec emax (S754_finite s m e) = true →
  0 ≤ scaled k m e ∧ scaled k m e / k < digits_limit.
Proof.
  intros Hk Hv. destruct (valid_mantissa s m e Hv) as [Hm He]. pose proof digits_limit_big as Hbig. pose proof double_range.
  unfold scaled. destruct (Z.leb_spec 0 e).
  - assert (2 ^ e ≤ 2 ^ 971) by (apply Z.pow_le_mono_r; lia). assert (0 < 2 ^ e) by (apply Z.pow_pos_nonneg; lia).
    rewrite Z.div_mul by lia. nia.
  - assert (0 < 2 ^ (- e)) as Hd by (apply Z.pow_pos_nonneg; lia). set (d := 2 ^ (- e)) in *.
    assert (0 ≤ round_half_even (Zpos m * k) d ≤ Zpos m * k + 1).
    { unfold round_half_even. pose proof (Z.div_mod (Zpos m * k) d ltac:(lia)).
      pose proof (Z.mod_pos_bound (Zpos m * k) d Hd). set (q := Zpos m * k / d) in *.
      assert (0 ≤ q) by (apply Z.div_pos; lia). pose proof (Z.mod_pos_bound q 2 ltac:(lia)).
      assert (q ≤ q * d) by nia. bool_cases; lia. }
    split; [lia|]. apply Z.div_lt_upper_bound; [done|]. nia.
Qed.

Lemma printed_bound d s v : valid_binary prec emax d = true → printed d = Some (s, v) →
  0 ≤ v ∧ v / 100000 < digits_limit.
Proof.
  destruct d as [s'|s'| |s' m e]; intros Hv; [|done..|]; intros [= -> <-]; [|by apply (scaled_bound 100000 s)].
  rewrite Z.div_0_l by done. pose proof digits_limit_big. pose proof double_range. lia.
Qed.

Lemma decimal_loop_nonempty fuel v acc : decimal_loop (S fuel) v acc ≠ [].
Proof.
  revert v acc. induction fuel as [|fuel IH]; intros v acc; cbn [decimal_loop]; destruct (v / 10 =? 0); try done. apply IH.
Qed.

Lemma five_digits_ok f : 0 ≤ f < 100000 → is_digits (five_digits f) ∧
  ∀ ds, of_decimal (ds ++ five_digits f) = of_decimal ds * 100000 + f.
Proof.
  intros Hf. split.
  - unfold is_digits, five_digits, nr_isdigit. repeat constructor; Z.to_euclidean_division_equations; lia.
  - intros ds. unfold of_decimal, five_digits. rewrite foldl_app. simpl. Z.to_euclidean_division_equations. lia.
Qed.

(** A number in fixed notation, with [fr] behind the point for what is left modulo [k]. *)
Lemma fixed_number_ok s v k fr : 0 < k → 0 ≤ v → v / k < digits_limit →
  is_digits fr → fr ≠ [] → (∀ ds, of_decimal (ds ++ fr) = of_decimal ds * k + v mod k) →
  let n := Number s (long_decimal (v / k)) fr None in
  number_ok n ∧ number_value n = of_decimal_scientific s v (- Z.of_nat (length fr)) ∧
  (∀ radix, number_text radix n = sign_text s ++ long_decimal (v / k) ++ radix :: fr) ∧
  (length (long_decimal (v / k)) ≤ 320)%nat.
Proof.
  intros Hk Hv Hb Hf Hne' Hof. assert (0 ≤ v / k) by (apply Z.div_pos; lia).
  destruct (decimal_loop_acc 320 (v / k) []) as (ds & E & Hl & Hd & Ho); [by rewrite <-digits_limit_eq|].
  rewrite app_nil_r in E. pose proof (decimal_loop_nonempty 319 (v / k) []) as Hne.
  unfold number_ok, number_value, number_text, long_decimal.
  cbn [negative int_digits frac_digits exponent]. rewrite E in *. split_and!.
  - eapply Forall_impl; [exact Hd|]. unfold nr_isdigit. simpl. lia.
  - done.
  - done.
  - done.
  - rewrite Hof, Ho. f_equal. pose proof (Z.div_mod v k). lia.
  - intros. cbn [exponent_text]. rewrite app_nil_r. by destruct fr.
  - done.
Qed.

Lemma printed_number_ok s v : 0 ≤ v → v / 100000 < digits_limit →
  number_ok (printed_number s v) ∧ number_value (printed_number s v) = of_decimal_scientific s v (-5) ∧
  (∀ radix, number_text radix (printed_number s v) = sign_text s ++ fixed_5 radix v) ∧
  (length (number_text 46 (printed_number s v)) ≤ 330)%nat.
Proof.
  intros Hv Hb. destruct (five_digits_ok (v mod 100000)) as [Hf Hof]; [by apply Z.mod_pos_bound|].
  destruct (fixed_number_ok s v 100000 _ ltac:(done) Hv Hb Hf ltac:(done) Hof) as (Hn & Hval & Ht & Hl).
  split_and!; [exact Hn|exact Hval|exact Ht|]. unfold printed_number. rewrite Ht, !length_app. destruct s; simpl; lia.
Qed.

(** Without a comma among its [n] bytes, the text is left alone. *)
Lemma replace_comma_none n l : Forall (λ c, c ≠ 44) (take n l) → replace_comma n l = l.
Proof.
  revert n. induction l as [|c l IH]; intros [|n] Hl; try done. apply Forall_cons in Hl as [Hc Hl]. simpl.
  destruct (Z.eqb_spec c 44); [done|]. by rewrite IH.
Qed.

Lemma replace_comma_skip a l n : Forall (λ c, c ≠ 44) a → replace_comma (length a + n) (a ++ l) = a ++ replace_comma n l.
Proof.
  induction 1 as [|c a Hc _ IH]; [done|]. simpl. destruct (Z.eqb_spec c 44); [done|]. by rewrite IH.
Qed.

Lemma replace_comma_text radix pre post rest : locale_radix radix → plain pre → plain post →
  replace_comma (length (pre ++ radix :: post)) ((pre ++ radix :: post) ++ rest) = (pre ++ 46 :: post) ++ rest.
Proof.
  intros Hx Hpre Hpost.
  assert (∀ l, plain l → Forall (λ c, c ≠ 44) l) as Hp by (intros l Hl; eapply Forall_impl; [exact Hl|naive_solver]).
  rewrite length_app, <-!app_assoc, replace_comma_skip by auto. f_equal. cbn [length app replace_comma].
  destruct Hx as [-> | ->]; [|done]. simpl. f_equal. apply replace_comma_none. rewrite take_app_length. by apply Hp.
Qed.

(** The text is that of the C locale but for its one radix character. *)
Lemma format_shape d : (printed d = None ∧ (∀ r, format_5f r d = format_5f 46 d) ∧ plain (format_5f 46 d) ∧
    is_cstr (format_5f 46 d)) ∨
  ∃ s v, printed d = Some (s, v) ∧ ∀ r, format_5f r d = sign_text s ++ fixed_5 r v.
Proof. destruct d as [s|s| |s m e]; eauto; left; (try destruct s); split_and!; repeat constructor; done. Qed.

Lemma number_cstr n : number_ok n → is_cstr (number_text 46 n).
Proof.
  intros (Hi & _ & Hf & He). unfold number_text.
  assert (∀ l, is_digits l → is_cstr l) as Hd by (intros l Hl; eapply Forall_impl; [exact Hl|apply digit_plain]).
  apply Forall_app. split; [destruct (negative n); by repeat constructor|].
  apply Forall_app. split; [by apply Hd|]. apply Forall_app. split.
  - destruct (frac_digits n); [constructor|]. constructor; [lia|]. by apply Hd.
  - destruct (exponent n) as [[[c s] ds]|]; [|constructor]. destruct He as (Hc & ? & _). constructor; [lia|].
    apply (Forall_app _ _ ds). split; [destruct s as [[]|]; by repeat constructor|by apply Hd].
Qed.

Lemma to_str_memory radix b buf_len text d : format_5f radix d = text →
  Z.of_nat (length text) < buf_len → buf_len ≤ Z.of_nat (length b) →
  nr_double_to_str radix (Some b) buf_len d =
    (Z.of_nat (length text), Some (replace_comma (length text) (text ++ 0 :: drop (S (length text)) b))).
Proof.
  intros E Hl Hb. unfold nr_double_to_str, snprintf. rewrite E. destruct (Z.leb_spec buf_len 0); [lia|].
  destruct (Z.ltb_spec 0 buf_len); [|lia]. rewrite take_ge by lia.
  assert ((if Z.of_nat (length text) <? buf_len - 1 then Z.of_nat (length text) else buf_len - 1) =
    Z.of_nat (length text)) as -> by bool_cases.
  rewrite Nat2Z.id, write_at by (rewrite ?length_app; simpl; lia). rewrite length_app, <-app_assoc. cbn [app length].
  change (take (Z.to_nat 0) b) with (@nil Z). by rewrite Nat.add_1_r.
Qed.

Lemma format_text d s v : valid_binary prec emax d = true → printed d = Some (s, v) →
  (∀ r, format_5f r d = sign_text s ++ fixed_5 r v) →
  number_ok (printed_number s v) ∧ number_value (printed_number s v) = of_decimal_scientific s v (-5) ∧
  format_5f 46 d = number_text 46 (printed_number s v) ∧ (length (format_5f 46 d) ≤ 330)%nat.
Proof.
  intros Hv Hp E. destruct (printed_bound d s v Hv Hp) as [Hv0 Hvb].
  destruct (printed_number_ok s v Hv0 Hvb) as (Hn & Hval & Ht & Hl). by rewrite E, <-Ht.
Qed.

Lemma to_str_writes radix d b buf_len : locale_radix radix → valid_binary prec emax d = true →
  330 < buf_len ≤ Z.of_nat (length b) →
  let text := format_5f 46 d in
  nr_double_to_str radix (Some b) buf_len d =
    (Z.of_nat (length text), Some (text ++ 0 :: drop (S (length text)) b)) ∧ is_cstr text.
Proof.
  intros Hx Hv Hlen text. destruct (format_shape d) as [(Hp & E & Hpl & Hc)|(s & v & Hp & E)].
  - assert (length text ≤ 330)%nat.
    { subst text. destruct d as [s|[]| |s m e]; try done; vm_compute; lia. }
    rewrite (to_str_memory radix b buf_len text) by (apply E || lia). split; [|done].
    by rewrite replace_comma_none by (rewrite take_app_length; eapply Forall_impl; [exact Hpl|naive_solver]).
  - destruct (format_text d s v Hv Hp E) as (Hn & _ & Etext & Hl). fold text in Etext, Hl.
    split; [|rewrite Etext; by apply number_cstr].
    set (pre := sign_text s ++ long_decimal (v / 100000)). set (post := five_digits (v mod 100000)).
    assert (∀ r, format_5f r d = pre ++ r :: post) as Es by (intros r; rewrite E; unfold fixed_5, pre; by rewrite app_assoc).
    destruct Hn as (Hi & _ & Hf & _).
    assert (plain pre ∧ plain post) as [Hpre Hpost].
    { split; [by apply plain_sign_digits|]. by apply (plain_sign_digits false). }
    assert (length (pre ++ radix :: post) = length text) as Elen by (subst text; by rewrite (Es 46), !length_app).
    rewrite (to_str_memory radix b buf_len (pre ++ radix :: post)) by (apply Es || lia).
    by rewrite replace_comma_text, Elen, <-(Es 46) by done.
Qed.

(** Reading printed text back, in front of what may follow it. *)
Lemma read_printed radix d s v rest : locale_radix radix → valid_binary prec emax d = true → printed d = Some (s, v) →
  ends_number rest → is_cstr rest →
  nr_strtod radix (Some (format_5f 46 d ++ rest)) =
    Some (of_decimal_scientific s v (-5), Some (Z.of_nat (length (format_5f 46 d)))).
Proof.
  intros Hx Hv Hp Hr Hc. destruct (format_shape d) as [(Hp' & _)|(s' & v' & Hp' & E)]; [by rewrite Hp in Hp'|].
  rewrite Hp in Hp'. injection Hp' as <- <-. destruct (format_text d s v Hv Hp E) as (Hn & Hval & Et & Hl).
  rewrite Et in Hl |- *. rewrite <-Hval. apply reads_number; [|done].
  split; [done|done|apply Forall_app; split; [by apply number_cstr|done]|]. rewrite room_value. lia.
Qed.

(** [nr_double_to_str] writes the same text in every locale, the one with a point for radix
    character, and reports its length; the rest of the memory is left alone.  For a finite double, reading that text
    back with [nr_strtod], in whatever locale and in front of whatever may follow a number in JSON text, takes all of
    it and gives the double nearest to the five decimal places printed. *)
Theorem nr_double_to_str_reads_back (radix radix' : Z) (b : list Z) (buf_len : Z) (d : double) (rest : list Z) :
  locale_radix radix → locale_radix radix' → valid_binary prec emax d = true →
  330 < buf_len ≤ Z.of_nat (length b) → ends_number rest → is_cstr rest →
  let text := format_5f 46 d in
  ∃ b', nr_double_to_str radix (Some b) buf_len d = (Z.of_nat (length text), Some b') ∧
    cstr b' = text ∧ drop (S (length text)) b' = drop (S (length text)) b ∧
    ∀ s v, printed d = Some (s, v) →
      nr_strtod radix' (Some (text ++ rest)) = Some (of_decimal_scientific s v (-5), Some (Z.of_nat (length text))).
Proof.
  intros Hx Hx' Hv Hlen Hr Hrs text. destruct (to_str_writes radix d b buf_len Hx Hv Hlen) as [E Hc].
  eexists. split; [exact E|]. fold text in Hc |- *. rewrite cstr_app by done. split_and!; [done| |].
  - rewrite <-(Nat.add_1_r (length text)) at 1. by rewrite drop_app_add.
  - intros s v Hp. by apply read_printed.
Qed.

Lemma nr_double_to_str_reads_back_witness :
  ∃ b', nr_double_to_str 44 (Some (replicate 400 1)) 400 (S754_finite true 7881299347898368 (-51)) = (8, Some b') ∧
    cstr b' = lit "-3.50000" ∧ nr_strtod 46 (Some (lit "-3.50000" ++ lit "}")) = Some (S754_finite true 7881299347898368 (-51), Some 8).
Proof.
  destruct (nr_double_to_str_reads_back 44 46 (replicate 400 1) 400 (S754_finite true 7881299347898368 (-51)) (lit "}"))
    as (b' & E & Hc & _ & Hr).
  - by right.
  - by left.
  - by vm_compute.
  - by vm_compute.
  - right. right. by left.
  - by repeat constructor.
  - exists b'. split_and!; [exact E|exact Hc|]. exact (Hr true 350000 eq_refl).
Defined.
