(* ===== verification/Object.v ===== *)
(** * Object: generic objects (src/axiom/util_object.c)

    An object owns its elements: the setters that take an object copy it, so a
    tree is a faithful picture of the memory.  The union of an [int] object has
    a half that [int] setters do not write; it is part of the state because
    [nro_get_long] reads it.  Allocation does not fail here: the source's
    allocators end the process instead. *)

From S2P Require Import Prelude Memory CString Strings StringPool Double.
Local Open Scope Z_scope.
#[local] Set Warnings "-register-all".

Inductive nr_status_t := NR_SUCCESS | NR_FAILURE.
#[export] Instance nr_status_t_eq_dec : EqDecision nr_status_t.
Proof. solve_decision. Defined.

(** ** State *)
Inductive nrotype_t :=
| NR_OBJECT_INVALID
| NR_OBJECT_NONE
| NR_OBJECT_BOOLEAN
| NR_OBJECT_INT
| NR_OBJECT_LONG
| NR_OBJECT_ULONG
| NR_OBJECT_DOUBLE
| NR_OBJECT_STRING
| NR_OBJECT_JSTRING
| NR_OBJECT_HASH
| NR_OBJECT_ARRAY.

#[export] Instance nrotype_eq_dec : EqDecision nrotype_t.
Proof. solve_decision. Defined.

(** [high] is the upper half of the 64-bit union; strings are [NULL] until set;
    keys and data of a hash are kept in pairs, without the unused slots. *)
Inductive nrobj_t :=
| ONone
| OBoolean (ival : Z)
| OInt (ival high : Z)
| OLong (lval : Z)
| OUlong (ulval : Z)
| ODouble (dval : double)
| OString (sval : option (list Z))
| OJstring (sval : option (list Z))
| OHash (allocated : Z) (elements : list (list Z * nrobj_t))
| OArray (allocated : Z) (elements : list nrobj_t).

Definition type_of (op : nrobj_t) : nrotype_t :=
  match op with
  | ONone => NR_OBJECT_NONE
  | OBoolean _ => NR_OBJECT_BOOLEAN
  | OInt _ _ => NR_OBJECT_INT
  | OLong _ => NR_OBJECT_LONG
  | OUlong _ => NR_OBJECT_ULONG
  | ODouble _ => NR_OBJECT_DOUBLE
  | OString _ => NR_OBJECT_STRING
  | OJstring _ => NR_OBJECT_JSTRING
  | OHash _ _ => NR_OBJECT_HASH
  | OArray _ _ => NR_OBJECT_ARRAY
  end.

Definition NRO_CHUNK_SIZE : Z := 8.

(** [None] is [NULL]. *)
Definition obj : Type := option nrobj_t.
Implicit Types (o : obj) (key : option (list Z)).

Definition nro_type o : nrotype_t := from_option type_of NR_OBJECT_INVALID o.

Definition nro_assert o (type : nrotype_t) : obj :=
  match o with
  | None => None
  | Some op => if decide (type = type_of op) then Some op else None
  end.
Definition nro_cassert o (type : nrotype_t) : obj :=
  match o with
  | None => None
  | Some op => if decide (type = type_of op) then Some op else None
  end.

(** ** Creation *)

(** Zeroed memory with a type, containers with a chunk of slots. *)
Definition nro_new (type : nrotype_t) : obj :=
  match type with
  | NR_OBJECT_INVALID => None
  | NR_OBJECT_NONE => Some ONone
  | NR_OBJECT_BOOLEAN => Some (OBoolean 0)
  | NR_OBJECT_INT => Some (OInt 0 0)
  | NR_OBJECT_LONG => Some (OLong 0)
  | NR_OBJECT_ULONG => Some (OUlong 0)
  | NR_OBJECT_DOUBLE => Some (ODouble (SpecFloat.S754_zero false))
  | NR_OBJECT_STRING => Some (OString None)
  | NR_OBJECT_JSTRING => Some (OJstring None)
  | NR_OBJECT_HASH => Some (OHash NRO_CHUNK_SIZE [])
  | NR_OBJECT_ARRAY => Some (OArray NRO_CHUNK_SIZE [])
  end.

Definition nro_new_none : nrobj_t := ONone.
Definition nro_new_boolean (x : Z) : nrobj_t := OBoolean (if x =? 0 then 0 else 1).
Definition nro_new_int (x : Z) : nrobj_t := OInt x 0.
Definition nro_new_long (x : Z) : nrobj_t := OLong x.
Definition nro_new_ulong (x : Z) : nrobj_t := OUlong x.
Definition nro_new_double (x : double) : nrobj_t := ODouble x.
Definition nro_new_string (x : option (list Z)) : nrobj_t := OString (Some (nr_strdup x)).
Definition nro_new_jstring (x : option (list Z)) : nrobj_t := OJstring (Some (nr_strdup x)).
Definition nro_new_hash : nrobj_t := OHash NRO_CHUNK_SIZE [].
Definition nro_new_array : nrobj_t := OArray NRO_CHUNK_SIZE [].

(** A copy has just the slots it needs; the unwritten half of an [int] is zero. *)
Fixpoint nro_copy (op : nrobj_t) : nrobj_t :=
  match op with
  | ONone => ONone
  | OBoolean i => OBoolean i
  | OInt i _ => OInt i 0
  | OLong l => OLong l
  | OUlong u => OUlong u
  | ODouble d => ODouble d
  | OString s => OString (Some (nr_strdup s))
  | OJstring s => OJstring (Some (nr_strdup s))
  | OHash _ es => OHash (Z.of_nat (length es)) ((λ '(k, v), (nr_strdup (Some k), nro_copy v)) <$> es)
  | OArray _ es => OArray (Z.of_nat (length es)) (nro_copy <$> es)
  end.

(** ** Elements *)

(** The position of a key, -2 without one, -1 on an error. *)
Fixpoint find_key_loop (es : list (list Z * nrobj_t)) (key : list Z) (i : Z) : Z :=
  match es with
  | [] => -2
  | (k, _) :: es => if nr_strcmp (Some k) (Some key) =? 0 then i else find_key_loop es key (i + 1)
  end.

Definition nro_find_key_in_hash (op : nrobj_t) key : Z :=
  match op, key with
  | OHash _ es, Some k =>
      if char_at k 0 =? 0 then -1
      else match es with [] => -2 | _ => find_key_loop es k 0 end
  | _, _ => -1
  end.

(** A container with one more element, its slots grown by a chunk when they are
    all taken. *)
Definition grown (size allocated : Z) : Z :=
  if size =? allocated then allocated + NRO_CHUNK_SIZE else allocated.

Definition nro_internal_setvalue_array o (idx : Z) (nobj : obj) : obj * nr_status_t :=
  match o, nobj with
  | Some (OArray allocated es), Some nobj =>
      let size := Z.of_nat (length es) in
      if idx <? 0 then (o, NR_FAILURE)
      else if (0 <? idx) && (size <? idx - 1) then (o, NR_FAILURE)
      else
        let idx := if 0 <? idx then (if idx - 1 =? size then 0 else idx - 1) else idx in
        (if idx =? 0 then Some (OArray (grown size allocated) (es ++ [nobj]))
         else Some (OArray allocated (<[Z.to_nat idx:=nobj]> es)),
         NR_SUCCESS)
  | _, _ => (o, NR_FAILURE)
  end.

Definition nro_internal_setvalue_hash o key (nobj : obj) : obj * nr_status_t :=
  match o, nobj with
  | Some (OHash allocated es), Some nobj =>
      let size := Z.of_nat (length es) in
      let idx := nro_find_key_in_hash (OHash allocated es) key in
      if idx =? -1 then (o, NR_FAILURE)
      else if negb (idx =? -2)
      then (Some (OHash allocated (alter (λ '(k, _), (k, nobj)) (Z.to_nat idx) es)), NR_SUCCESS)
      else (Some (OHash (grown size allocated) (es ++ [(nr_strdup key, nobj)])), NR_SUCCESS)
  | _, _ => (o, NR_FAILURE)
  end.

(** ** Setters

    On a failure the value that was made for the container is freed. *)
Definition nro_set_hash o key (value : obj) := nro_internal_setvalue_hash o key (nro_copy <$> value).
Definition nro_set_array o (idx : Z) (value : obj) := nro_internal_setvalue_array o idx (nro_copy <$> value).

Definition nro_set_hash_none o key := nro_internal_setvalue_hash o key (Some nro_new_none).
Definition nro_set_hash_boolean o key (value : Z) := nro_internal_setvalue_hash o key (Some (nro_new_boolean value)).
Definition nro_set_hash_int o key (value : Z) := nro_internal_setvalue_hash o key (Some (nro_new_int value)).
Definition nro_set_hash_long o key (value : Z) := nro_internal_setvalue_hash o key (Some (nro_new_long value)).
Definition nro_set_hash_ulong o key (value : Z) := nro_internal_setvalue_hash o key (Some (nro_new_ulong value)).
Definition nro_set_hash_double o key (value : double) := nro_internal_setvalue_hash o key (Some (nro_new_double value)).
Definition nro_set_hash_string o key (value : option (list Z)) :=
  nro_internal_setvalue_hash o key (Some (nro_new_string value)).
Definition nro_set_hash_jstring o key (value : option (list Z)) :=
  nro_internal_setvalue_hash o key (Some (nro_new_jstring value)).

Definition nro_set_array_none o (idx : Z) := nro_internal_setvalue_array o idx (Some nro_new_none).
Definition nro_set_array_boolean o (idx value : Z) := nro_internal_setvalue_array o idx (Some (nro_new_boolean value)).
Definition nro_set_array_int o (idx value : Z) := nro_internal_setvalue_array o idx (Some (nro_new_int value)).
Definition nro_set_array_long o (idx value : Z) := nro_internal_setvalue_array o idx (Some (nro_new_long value)).
Definition nro_set_array_ulong o (idx value : Z) := nro_internal_setvalue_array o idx (Some (nro_new_ulong value)).
Definition nro_set_array_double o (idx : Z) (value : double) :=
  nro_internal_setvalue_array o idx (Some (nro_new_double value)).
Definition nro_set_array_string o (idx : Z) (value : option (list Z)) :=
  nro_internal_setvalue_array o idx (Some (nro_new_string value)).
Definition nro_set_array_jstring o (idx : Z) (value : option (list Z)) :=
  nro_internal_setvalue_array o idx (Some (nro_new_jstring value)).

(** ** Getters

    The value and what is stored through the error pointer. *)
Definition found {A} (a : A) : A * nr_status_t := (a, NR_SUCCESS).
Definition error {A} (a : A) : A * nr_status_t := (a, NR_FAILURE).

Definition nro_get_boolean o : Z * nr_status_t :=
  match o with Some (OBoolean i) => found i | _ => error (-1) end.
Definition nro_get_int o : Z * nr_status_t :=
  match o with Some (OInt i _) => found i | _ => error (-1) end.

(** The signed number of a 32-bit and of a 64-bit pattern. *)
Definition int_of (x : Z) : Z := let y := u32 x in if y <? 2 ^ 31 then y else y - 2 ^ 32.
Definition long_of (x : Z) : Z := let y := u64 x in if y <? 2 ^ 63 then y else y - 2 ^ 64.

(** The conversion of a double to an [int] rounds toward zero; what does not fit
    gives the least [int], as on x86-64. *)
Definition int_of_double (d : double) : Z :=
  match d with
  | SpecFloat.S754_zero _ => 0
  | SpecFloat.S754_finite s m e =>
      let t := if 0 <=? e then Zpos m * 2 ^ e else Zpos m / 2 ^ (- e) in
      let v := if s then - t else t in
      if (- 2 ^ 31 <=? v) && (v <? 2 ^ 31) then v else - 2 ^ 31
  | _ => - 2 ^ 31
  end.

Definition nro_get_ival o : Z * nr_status_t :=
  match o with
  | Some (OInt i _) | Some (OBoolean i) => found i
  | Some (OLong l) => found (int_of l)
  | Some (OUlong u) => found (int_of u)
  | Some (ODouble d) => found (int_of_double d)
  | _ => error (-1)
  end.

(** The whole union is read, of an [int] object too (little-endian memory). *)
Definition nro_get_long o : Z * nr_status_t :=
  match o with
  | Some (OLong l) => found l
  | Some (OInt i high) => found (long_of (high * 2 ^ 32 + u32 i))
  | _ => error (-1)
  end.

Definition nro_get_ulong o : Z * nr_status_t :=
  match o with Some (OUlong u) => found u | _ => error 0 end.

(** Minus one. *)
Definition minus_one : double := SpecFloat.S754_finite true 4503599627370496 (-52).
Definition nro_get_double o : double * nr_status_t :=
  match o with Some (ODouble d) => found d | _ => error minus_one end.
Definition nro_get_string o : option (list Z) * nr_status_t :=
  match o with Some (OString s) => found s | _ => error None end.
Definition nro_get_jstring o : option (list Z) * nr_status_t :=
  match o with Some (OJstring s) => found s | _ => error None end.

(** A key that is not there is no error. *)
Definition nro_get_hash_value o key : obj * nr_status_t :=
  match o with
  | Some (OHash _ es as op) =>
      let idx := nro_find_key_in_hash op key in
      if idx =? -1 then error None
      else if idx =? -2 then found None
      else found (snd <$> es !! Z.to_nat idx)
  | _ => error None
  end.

(** The value, the status, and what is stored in [keyp]. *)
Definition nro_get_hash_value_by_index o (idx : Z) : obj * nr_status_t * option (list Z) :=
  match o with
  | Some (OHash _ es) =>
      if (idx <? 1) || (Z.of_nat (length es) <? idx) then (error None, None)
      else (found (snd <$> es !! Z.to_nat (idx - 1)), fst <$> es !! Z.to_nat (idx - 1))
  | _ => (error None, None)
  end.

Definition nro_get_array_value o (idx : Z) : obj * nr_status_t :=
  match o with
  | Some (OArray _ es) =>
      if (idx <? 1) || (Z.of_nat (length es) <=? idx - 1) then error None
      else found (es !! Z.to_nat (idx - 1))
  | _ => error None
  end.

Definition nro_get_hash_boolean o key := nro_get_boolean (nro_get_hash_value o key).1.
Definition nro_get_hash_int o key := nro_get_int (nro_get_hash_value o key).1.
Definition nro_get_hash_long o key := nro_get_long (nro_get_hash_value o key).1.
Definition nro_get_hash_ulong o key := nro_get_ulong (nro_get_hash_value o key).1.
Definition nro_get_hash_string o key := nro_get_string (nro_get_hash_value o key).1.
Definition nro_get_hash_jstring o key := nro_get_jstring (nro_get_hash_value o key).1.
Definition nro_get_hash_double o key := nro_get_double (nro_get_hash_value o key).1.
Definition nro_get_hash_hash o key : obj * nr_status_t :=
  let '(v, err) := nro_get_hash_value o key in (nro_cassert v NR_OBJECT_HASH, err).
Definition nro_get_hash_array o key : obj * nr_status_t :=
  let '(v, err) := nro_get_hash_value o key in (nro_cassert v NR_OBJECT_ARRAY, err).

Definition nro_get_array_boolean o (key : Z) := nro_get_boolean (nro_get_array_value o key).1.
Definition nro_get_array_int o (key : Z) := nro_get_int (nro_get_array_value o key).1.
Definition nro_get_array_long o (key : Z) := nro_get_long (nro_get_array_value o key).1.
Definition nro_get_array_ulong o (key : Z) := nro_get_ulong (nro_get_array_value o key).1.
Definition nro_get_array_ival o (key : Z) := nro_get_ival (nro_get_array_value o key).1.
Definition nro_get_array_string o (key : Z) := nro_get_string (nro_get_array_value o key).1.
Definition nro_get_array_jstring o (key : Z) := nro_get_jstring (nro_get_array_value o key).1.
Definition nro_get_array_double o (key : Z) := nro_get_double (nro_get_array_value o key).1.
Definition nro_get_array_hash o (key : Z) : obj * nr_status_t :=
  let '(v, err) := nro_get_array_value o key in (nro_cassert v NR_OBJECT_HASH, err).
Definition nro_get_array_array o (key : Z) : obj * nr_status_t :=
  let '(v, err) := nro_get_array_value o key in (nro_cassert v NR_OBJECT_ARRAY, err).

(** ** Iteration

    The callback may change the state behind [ptr]; a failure stops. *)
Fixpoint iterate_loop {A} (es : list (list Z * nrobj_t)) (func : list Z → nrobj_t → A → A * nr_status_t) (ptr : A) : A :=
  match es with
  | [] => ptr
  | (k, v) :: es =>
      let '(ptr, rv) := func k v ptr in
      match rv with NR_FAILURE => ptr | NR_SUCCESS => iterate_loop es func ptr end
  end.

Definition nro_iteratehash {A} o (func : option (list Z → nrobj_t → A → A * nr_status_t)) (ptr : A) : A :=
  match o, func with
  | Some (OHash _ es), Some func => iterate_loop es func ptr
  | _, _ => ptr
  end.

Definition nro_getsize o : Z :=
  match o with
  | Some (OArray _ es) => Z.of_nat (length es)
  | Some (OHash _ es) => Z.of_nat (length es)
  | _ => -1
  end.

(** The loop of [nro_find_array_int], positions from 1. *)
Fixpoint find_int_loop (es : list nrobj_t) (x i : Z) : Z :=
  match es with
  | [] => -1
  | OInt ival _ :: es => if x =? ival then i + 1 else find_int_loop es x (i + 1)
  | _ :: es => find_int_loop es x (i + 1)
  end.

Definition nro_find_array_int o (x : Z) : Z :=
  match o with Some (OArray _ es) => find_int_loop es x 0 | _ => -1 end.

(** The caller's pointer afterwards. *)
Definition nro_real_delete (o : option obj) : option obj :=
  match o with Some (Some _) => Some None | _ => o end.

(** ** Induction over the elements of containers *)
Section object_induction.
Variable P : nrobj_t → Prop.
Hypothesis leaf : ∀ op, match op with OHash _ _ | OArray _ _ => False | _ => True end → P op.
Hypothesis hash : ∀ a es, Forall (λ e, P e.2) es → P (OHash a es).
Hypothesis array : ∀ a es, Forall P es → P (OArray a es).

Fixpoint object_ind (op : nrobj_t) : P op :=
  match op with
  | OHash a es =>
      hash a es ((fix go es : Forall (λ e, P e.2) es :=
        match es with
        | [] => Forall_nil_2 _
        | e :: es => Forall_cons_2 _ e es (let '(k, v) as e := e return P e.2 in object_ind v) (go es)
        end) es)
  | OArray a es =>
      array a es ((fix go es : Forall P es :=
        match es with [] => Forall_nil_2 _ | e :: es => Forall_cons_2 _ e es (object_ind e) (go es) end) es)
  | op => leaf op I
  end.
End object_induction.

(** ** Well-formed objects *)
Definition int_range (x : Z) : Prop := - 2 ^ 31 ≤ x < 2 ^ 31.
Definition long_range (x : Z) : Prop := - 2 ^ 63 ≤ x < 2 ^ 63.

Definition key_ok (k : list Z) : Prop := is_cstr k ∧ k ≠ [].

(** Slots for all elements, distinct non-empty keys, and so on in the elements.
    What doubles are allowed is a parameter. *)
Section well_formed.
Variable D : double → Prop.
Inductive obj_well : nrobj_t → Prop :=
| ok_none : obj_well ONone
| ok_boolean i : int_range i → obj_well (OBoolean i)
| ok_int i h : int_range i → 0 ≤ h < 2 ^ 32 → obj_well (OInt i h)
| ok_long l : long_range l → obj_well (OLong l)
| ok_ulong u : 0 ≤ u < 2 ^ 64 → obj_well (OUlong u)
| ok_double d : D d → obj_well (ODouble d)
| ok_string s : is_cstr (default [] s) → obj_well (OString s)
| ok_jstring s : is_cstr (default [] s) → obj_well (OJstring s)
| ok_hash a es : Z.of_nat (length es) ≤ a → NoDup es.*1 → Forall key_ok es.*1 → Forall obj_well es.*2 →
    obj_well (OHash a es)
| ok_array a es : Z.of_nat (length es) ≤ a → Forall obj_well es → obj_well (OArray a es).
End well_formed.

Abbreviation obj_ok := (obj_well (λ d, SpecFloat.valid_binary prec emax d = true)).

Lemma copy_ok {D} op : obj_well D op → obj_well D (nro_copy op).
Proof.
  induction op as [op Hop|a es IH|a es IH] using object_ind; intros Hok.
  - destruct op; inversion Hok; subst; try done; constructor; try done; simpl; unfold nr_strdup; by rewrite cstr_id.
  - inversion Hok as [| | | | | | | |? ? Hl Hn Hk Hv|]; subst. cbn [nro_copy].
    assert (((λ '(k, v), (nr_strdup (Some k), nro_copy v)) <$> es).*1 = es.*1) as E.
    { clear -Hk. induction es as [|[k v] es IHes]; [done|]. simpl in *. apply Forall_cons in Hk as [[? _] ?].
      f_equal; [|by apply IHes]. unfold nr_strdup. simpl. by apply cstr_id. }
    constructor; [by rewrite length_fmap|by rewrite E|by rewrite E|].
    clear -IH Hv. induction es as [|[k v] es IHes]; [constructor|]. simpl in *.
    apply Forall_cons in IH as [? ?], Hv as [? ?]. constructor; [by auto|by apply IHes].
  - inversion Hok as [| | | | | | | | |? ? Hl Hv]; subst. constructor; [by rewrite length_fmap|].
    apply Forall_fmap. eapply Forall_impl; [apply Forall_and; split; [exact IH|exact Hv]|]. simpl. tauto.
Qed.

(** ** Keys *)
Lemma find_key_present es k v j i : NoDup es.*1 → Forall key_ok es.*1 → es !! j = Some (k, v) →
  find_key_loop es k i = i + Z.of_nat j.
Proof.
  revert j i. induction es as [|[k' v'] es IH]; intros j i Hn Hk Hj; [done|].
  rewrite fmap_cons in *. apply NoDup_cons in Hn as [Hni Hn]. apply Forall_cons in Hk as [[Hk' _] Hk]. cbn [find_key_loop].
  destruct j as [|j]; simpl in Hj.
  - injection Hj as -> ->. unfold nr_strcmp. rewrite (proj2 (strcmp_eq k k Hk' Hk') eq_refl). simpl. lia.
  - assert (k ∈ es.*1) as Hin by (apply list_elem_of_fmap; exists (k, v); split; [done|by eapply list_elem_of_lookup_2]).
    assert (is_cstr k) as Hck by (rewrite Forall_forall in Hk; by apply Hk).
    unfold nr_strcmp. destruct (Z.eqb_spec (strcmp k' k) 0) as [E|].
    + apply strcmp_eq in E as ->; [done..|]. done.
    + rewrite (IH j) by done. lia.
Qed.

Lemma find_key_absent es k i : Forall key_ok es.*1 → is_cstr k → k ∉ es.*1 → find_key_loop es k i = -2.
Proof.
  revert i. induction es as [|[k' v'] es IH]; intros i Hk Hc Hn; [done|]. cbn [find_key_loop].
  rewrite fmap_cons in *. apply Forall_cons in Hk as [[Hk' _] Hk]. apply not_elem_of_cons in Hn as [Hne Hn].
  unfold nr_strcmp. destruct (Z.eqb_spec (strcmp k' k) 0) as [E|]; [|by apply IH].
  apply strcmp_eq in E as ->; done.
Qed.

(** The key a hash accepts. *)
Definition usable key : option (list Z) := match key with Some (c :: k) => Some (c :: k) | _ => None end.

Inductive find_spec (es : list (list Z * nrobj_t)) key : Z → Prop :=
| find_bad : usable key = None → find_spec es key (-1)
| find_absent k : usable key = Some k → key_ok k → k ∉ es.*1 → find_spec es key (-2)
| find_present k v j : usable key = Some k → key_ok k → es !! j = Some (k, v) → find_spec es key (Z.of_nat j).

Lemma find_key_spec a es key : NoDup es.*1 → Forall key_ok es.*1 → is_cstr (default [] key) →
  find_spec es key (nro_find_key_in_hash (OHash a es) key).
Proof.
  intros Hn Hk Hc. destruct key as [[|c k]|]; [by constructor| |by constructor].
  unfold nro_find_key_in_hash. change (char_at (c :: k) 0) with c. simpl in Hc.
  pose proof Hc as [Hc0 _]%Forall_cons. destruct (Z.eqb_spec c 0); [lia|].
  assert (match es with [] => -2 | _ => find_key_loop es (c :: k) 0 end = find_key_loop es (c :: k) 0) as -> by by destruct es.
  destruct (decide (c :: k ∈ es.*1)) as [Hin|Hin].
  - apply list_elem_of_fmap in Hin as ([k' v] & E & [j Hj]%list_elem_of_lookup_1). simpl in E. subst k'.
    rewrite (find_key_present es (c :: k) v j 0) by done. by apply (find_present _ _ (c :: k) v j).
  - rewrite find_key_absent by done. by apply (find_absent _ _ (c :: k)).
Qed.

(** ** Hashes as maps in insertion order *)
Definition hash_map : Type := gmap (list Z) nrobj_t * list (list Z).

Inductive represents : obj → hash_map → Prop :=
| Represents a es : obj_ok (OHash a es) → represents (Some (OHash a es)) (list_to_map es, es.*1).

Inductive hash_op :=
| HSet key (value : obj)
| HGet key
| HIndex (idx : Z)
| HSize
| HVisit (n : nat).

Inductive hash_result :=
| RStatus (rv : nr_status_t)
| RValue (value : obj) (err : nr_status_t)
| RBinding (value : obj) (err : nr_status_t) (keyp : option (list Z))
| RSize (n : Z)
| RVisited (l : list (list Z * nrobj_t)).

(** A callback that keeps what it sees and stops after [S n] elements. *)
Definition visitor (n : nat) (k : list Z) (v : nrobj_t) (seen : list (list Z * nrobj_t)) :
    list (list Z * nrobj_t) * nr_status_t :=
  (seen ++ [(k, v)], if decide (S (length seen) ≤ n)%nat then NR_SUCCESS else NR_FAILURE).

Definition exec (op : hash_op) o : hash_result * obj :=
  match op with
  | HSet key value => let '(o, rv) := nro_set_hash o key value in (RStatus rv, o)
  | HGet key => let '(v, err) := nro_get_hash_value o key in (RValue v err, o)
  | HIndex idx => let '(v, err, keyp) := nro_get_hash_value_by_index o idx in (RBinding v err keyp, o)
  | HSize => (RSize (nro_getsize o), o)
  | HVisit n => (RVisited (nro_iteratehash o (Some (visitor n)) []), o)
  end.

Definition bindings (s : hash_map) : list (list Z * nrobj_t) := omap (λ k, pair k <$> s.1 !! k) s.2.

Definition spec (op : hash_op) (s : hash_map) : hash_result * hash_map :=
  match op with
  | HSet key value =>
      match usable key, value with
      | Some k, Some v => (RStatus NR_SUCCESS, (<[k:=nro_copy v]> s.1, intern s.2 k))
      | _, _ => (RStatus NR_FAILURE, s)
      end
  | HGet key =>
      match usable key with Some k => (RValue (s.1 !! k) NR_SUCCESS, s) | None => (RValue None NR_FAILURE, s) end
  | HIndex idx =>
      if decide (1 ≤ idx ≤ Z.of_nat (length s.2))
      then let key := s.2 !! Z.to_nat (idx - 1) in (RBinding (k ← key; s.1 !! k) NR_SUCCESS key, s)
      else (RBinding None NR_FAILURE None, s)
  | HSize => (RSize (Z.of_nat (length s.2)), s)
  | HVisit n => (RVisited (take (S n) (bindings s)), s)
  end.

Definition op_ok (op : hash_op) : Prop :=
  match op with
  | HSet key value => is_cstr (default [] key) ∧ from_option obj_ok True value
  | HGet key => is_cstr (default [] key)
  | _ => True
  end.

Lemma map_of_element (es : list (list Z * nrobj_t)) k v j : NoDup es.*1 → es !! j = Some (k, v) →
  (list_to_map es : gmap _ _) !! k = Some v.
Proof. intros Hn Hj. apply elem_of_list_to_map_1; [done|]. by eapply list_elem_of_lookup_2. Qed.

Lemma bindings_elements (es : list (list Z * nrobj_t)) : NoDup es.*1 → bindings (list_to_map es, es.*1) = es.
Proof.
  intros Hn. unfold bindings. cbn [fst snd].
  assert (∀ l, l ⊆ es → omap (λ k, pair k <$> (list_to_map es : gmap _ _) !! k) l.*1 = l) as H; [|by apply H].
  induction l as [|[k v] l IH]; intros Hs; [done|].
  assert ((k, v) ∈ es) as [j Hj]%list_elem_of_lookup_1 by (apply Hs; left).
  rewrite fmap_cons. cbn [fst omap list_omap]. rewrite (map_of_element es k v j) by done. simpl. f_equal.
  apply IH. intros x Hx. apply Hs. by right.
Qed.

Lemma replace_element (es : list (list Z * nrobj_t)) k v j x : NoDup es.*1 → es !! j = Some (k, v) →
  let es' := alter (λ '(k, _), (k, x)) j es in
  es'.*1 = es.*1 ∧ es'.*2 = <[j:=x]> es.*2 ∧ (list_to_map es' : gmap _ _) = <[k:=x]> (list_to_map es).
Proof.
  revert j. induction es as [|[k' v'] es IH]; intros j Hn Hj; [done|].
  rewrite fmap_cons in Hn. apply NoDup_cons in Hn as [Hni Hn]. destruct j as [|j]; simpl in Hj.
  - injection Hj as -> ->. split_and!; [done|done|]. simpl. by rewrite insert_insert_eq.
  - destruct (IH j Hn Hj) as (E1 & E2 & E3). change (alter ?f (S j) (?e :: es)) with (e :: alter f j es).
    cbv zeta. rewrite !fmap_cons, E1, E2. split_and!; [done|done|]. cbn [list_to_map foldr uncurry]. 
    change (foldr _ _ ?l) with (list_to_map l : gmap (list Z) nrobj_t). rewrite E3. apply insert_insert_ne. intros E. apply Hni.
    apply list_elem_of_fmap. exists (k, v). split; [done|by eapply list_elem_of_lookup_2].
Qed.

Lemma grown_room size allocated : size ≤ allocated → size + 1 ≤ grown size allocated.
Proof. unfold grown, NRO_CHUNK_SIZE. intros. bool_cases. Qed.

(** What setting an element of a hash does. *)
Lemma setvalue_hash_cases D a es key v : obj_well D (OHash a es) → is_cstr (default [] key) → obj_well D v →
  (usable key = None ∧
    nro_internal_setvalue_hash (Some (OHash a es)) key (Some v) = (Some (OHash a es), NR_FAILURE)) ∨
  ∃ k a' es', usable key = Some k ∧
    nro_internal_setvalue_hash (Some (OHash a es)) key (Some v) = (Some (OHash a' es'), NR_SUCCESS) ∧
    obj_well D (OHash a' es') ∧ (list_to_map es' : gmap _ _) = <[k:=v]> (list_to_map es) ∧
    es'.*1 = intern es.*1 k ∧
    (k ∉ es.*1 → es' = es ++ [(k, v)] ∧ a' = grown (Z.of_nat (length es)) a).
Proof.
  intros Hok Hc Hv. inversion Hok as [| | | | | | | |? ? Hl Hn Hk Hvs|]; subst.
  unfold nro_internal_setvalue_hash, intern.
  destruct (find_key_spec a es key Hn Hk Hc) as [E|k E Hkk Hni|k w j E Hkk Hj]; rewrite E; [by left|right..].
  - simpl (-2 =? -1). simpl (negb _). cbv iota.
    assert (nr_strdup key = k) as ->.
    { destruct key as [[|c key]|]; simplify_eq/=. unfold nr_strdup. by apply cstr_id. }
    eexists k, _, _. rewrite decide_False by done. split_and!; [done|done| |by apply list_to_map_snoc|by rewrite fmap_app|done].
    constructor; rewrite ?fmap_app, ?length_app; simpl.
    + rewrite Nat2Z.inj_add. by apply grown_room.
    + apply NoDup_app. split; [done|]. split; [|by apply NoDup_singleton]. intros x Hx ->%list_elem_of_singleton. done.
    + apply Forall_app. split; [done|by constructor].
    + apply Forall_app. split; [done|by constructor].
  - destruct (Z.eqb_spec (Z.of_nat j) (-1)), (Z.eqb_spec (Z.of_nat j) (-2)); try lia.
    simpl (negb _). cbv iota. rewrite Nat2Z.id.
    destruct (replace_element es k w j v Hn Hj) as (E1 & E2 & E3).
    assert (k ∈ es.*1) as Hin.
    { apply list_elem_of_fmap. exists (k, w). split; [done|by eapply list_elem_of_lookup_2]. }
    eexists k, _, _. rewrite decide_True by done. split_and!; [done|done| |done|done|done].
    constructor; rewrite ?E1, ?E2, ?length_alter; [done..|]. by apply Forall_insert.
Qed.

Lemma hash_set_spec o s key v : represents o s → is_cstr (default [] key) → from_option obj_ok True v →
  ∃ rv o' s', nro_set_hash o key v = (o', rv) ∧ spec (HSet key v) s = (RStatus rv, s') ∧ represents o' s'.
Proof.
  intros [a es Hok] Hc Hv. unfold nro_set_hash, spec. cbn [fst snd].
  destruct v as [v|]; [|eexists _, _, _; split_and!; [done|by destruct (usable key)|by constructor]].
  cbn [fmap option_fmap option_map]. pose proof (copy_ok v Hv) as Hcv.
  destruct (setvalue_hash_cases _ a es key (nro_copy v) Hok Hc Hcv) as [[E ->]|(k & a' & es' & E & -> & Hok' & Em & Ek & _)];
    rewrite E; eexists _, _, _; (split_and!; [done..|]); [done|]. rewrite <-Em, <-Ek. by constructor.
Qed.

Lemma visit_all es seen n : (length seen ≤ n)%nat →
  iterate_loop es (visitor n) seen = seen ++ take (S n - length seen) es.
Proof.
  revert seen. induction es as [|[k v] es IH]; intros seen Hn; [by rewrite take_nil, app_nil_r|].
  cbn [iterate_loop visitor]. destruct (decide _) as [Hd|Hd].
  - rewrite IH by (rewrite length_app; simpl; lia). rewrite length_app, <-app_assoc. simpl. 
    replace (S n - length seen)%nat with (S (n - length seen)) by lia. simpl.
    replace (S n - (length seen + 1))%nat with (n - length seen)%nat by lia. by destruct n.
  - replace (S n - length seen)%nat with 1%nat by lia. simpl. by rewrite take_0.
Qed.

Lemma hash_exec_spec op o s : represents o s → op_ok op →
  ∃ r o' s', exec op o = (r, o') ∧ spec op s = (r, s') ∧ represents o' s'.
Proof.
  intros Hr Hop. destruct op as [key v|key|idx| |n].
  - destruct Hop as [Hc Hv]. destruct (hash_set_spec o s key v Hr Hc Hv) as (rv & o' & s' & E1 & E2 & Hr').
    unfold exec. rewrite E1. eauto 6.
  - pose proof Hr as [a es Hok]. inversion Hok as [| | | | | | | |? ? Hl Hn Hk Hvs|]; subst.
    unfold exec, spec, nro_get_hash_value. destruct (find_key_spec a es key Hn Hk Hop) as [E|k E Hkk Hni|k w j E Hkk Hj];
      rewrite E; cbn [fst snd].
    + eexists _, _, _. by split_and!.
    + eexists _, _, _. split_and!; [done| |done]. simpl. by rewrite not_elem_of_list_to_map_1.
    + destruct (Z.eqb_spec (Z.of_nat j) (-1)), (Z.eqb_spec (Z.of_nat j) (-2)); try lia.
      eexists _, _, _. split_and!; [done| |done]. rewrite Nat2Z.id, Hj. simpl. by rewrite (map_of_element es k w j).
  - pose proof Hr as [a es Hok]. inversion Hok as [| | | | | | | |? ? Hl Hn Hk Hvs|]; subst.
    unfold exec, spec, nro_get_hash_value_by_index. cbn [fst snd]. rewrite length_fmap.
    destruct (decide _) as [Hd|Hd], (Z.ltb_spec idx 1), (Z.ltb_spec (Z.of_nat (length es)) idx); try lia;
      cbn [orb]; eexists _, _, _; (split_and!; [done| |done]); try done.
    destruct (lookup_lt_is_Some_2 es (Z.to_nat (idx - 1)) ltac:(lia)) as [[k v] Hj].
    rewrite list_lookup_fmap, Hj. simpl. by rewrite (map_of_element es k v (Z.to_nat (idx - 1))).
  - pose proof Hr as [a es Hok]. eexists _, _, _. split_and!; [done| |done]. unfold spec. simpl. by rewrite length_fmap.
  - pose proof Hr as [a es Hok]. inversion Hok as [| | | | | | | |? ? Hl Hn Hk Hvs|]; subst.
    eexists _, _, _. split_and!; [done| |done]. unfold spec. rewrite bindings_elements by done.
    unfold nro_iteratehash. rewrite visit_all by (simpl; lia). simpl (length []). by rewrite Nat.sub_0_r.
Qed.

(** C37: A hash object is a map in insertion order. Whatever is set, read, indexed, sized or
    iterated, starting from an empty hash, the results are those of a finite map from keys to copies of the values
    together with the list of its keys in the order they were first set: setting a key again replaces its value in
    place, an empty or missing key and a missing value are refused without effect, a key that is not there reads as
    [NULL] without an error, and an iteration shows each binding once, in order, up to the first failure.  The
    object stays well formed. *)
Theorem nro_hash_refines_map (ops : list hash_op) : Forall op_ok ops →
  ∃ rs o s, run exec ops (Some nro_new_hash) = (rs, o) ∧ run spec ops (∅, []) = (rs, s) ∧
    represents o s ∧ NoDup s.2.
Proof.
  intros Hops. destruct (run_simulates represents op_ok exec spec ops (Some nro_new_hash) (∅, []))
    as (rs & o & s & E1 & E2 & Hr); [by intros; apply hash_exec_spec| |done|].
  - change (∅ : gmap (list Z) nrobj_t, @nil (list Z))
      with (list_to_map [] : gmap (list Z) nrobj_t, (@nil (list Z * nrobj_t)).*1).
    constructor. constructor; [by unfold NRO_CHUNK_SIZE|constructor..].
  - exists rs, o, s. split_and!; [done..|]. destruct Hr as [a es Hok]. by inversion Hok.
Qed.

Lemma nro_hash_refines_map_witness :
  ∃ o, run exec [HSet (Some [97]) (Some (OInt 1 0)); HSet (Some []) (Some ONone); HSet (Some [98]) (Some ONone);
      HSet (Some [97]) (Some (OLong 2)); HGet (Some [97]); HGet (Some [99]); HSize; HVisit 9] (Some nro_new_hash) =
    ([RStatus NR_SUCCESS; RStatus NR_FAILURE; RStatus NR_SUCCESS; RStatus NR_SUCCESS;
      RValue (Some (OLong 2)) NR_SUCCESS; RValue None NR_SUCCESS; RSize 2;
      RVisited [([97], OLong 2); ([98], ONone)]], o).
Proof.
  set (ops := [_; _; _; _; _; _; _; _]).
  destruct (nro_hash_refines_map ops) as (rs & o & s & E & E' & _).
  - repeat constructor; simpl; try lia; unfold int_range, long_range; lia.
  - exists o. rewrite E. vm_compute in E'. by injection E' as <- _.
Defined.

(** Setting an element of an array object.  Positions count from one; zero, and the
    position behind the last element, append; positions outside are refused without effect; an element is replaced
    by a copy of the value, except that position one appends too whatever the array holds.  The object stays well
    formed. *)
Theorem nro_set_array_outcome (a : Z) (es : list nrobj_t) (idx : Z) (v : nrobj_t) :
  obj_ok (OArray a es) → obj_ok v →
  let n := Z.of_nat (length es) in
  ∃ res rv, nro_set_array (Some (OArray a es)) idx (Some v) = (Some res, rv) ∧ obj_ok res ∧
    (idx < 0 ∨ n + 1 < idx → rv = NR_FAILURE ∧ res = OArray a es) ∧
    (idx = 0 ∨ idx = n + 1 ∨ idx = 1 → rv = NR_SUCCESS ∧ ∃ a', res = OArray a' (es ++ [nro_copy v])) ∧
    (1 < idx ≤ n → rv = NR_SUCCESS ∧ res = OArray a (<[Z.to_nat (idx - 1):=nro_copy v]> es)).
Proof.
  intros Hok Hv n. inversion Hok as [| | | | | | | | |? ? Hl He]; subst. pose proof (copy_ok v Hv) as Hc.
  assert (obj_ok (OArray (grown n a) (es ++ [nro_copy v]))) as Happ.
  { constructor; [|by apply Forall_app; split; [|constructor]].
    rewrite length_app, Nat2Z.inj_add. by apply grown_room. }
  unfold nro_set_array, nro_internal_setvalue_array. cbn [fmap option_fmap option_map]. fold n.
  destruct (Z.ltb_spec idx 0); [eexists _, _; split_and!; [done..|lia|lia]|].
  destruct (Z.ltb_spec 0 idx); cbn [andb].
  - destruct (Z.ltb_spec n (idx - 1)); [eexists _, _; split_and!; [done..|lia|lia]|].
    destruct (Z.eqb_spec (idx - 1) n); [simpl (0 =? 0)|destruct (Z.eqb_spec (idx - 1) 0)]; cbv iota;
      eexists _, _; (split_and!; [done|try done|lia|eauto|intros; try lia; done]).
    + constructor; [by rewrite length_insert|by apply Forall_insert].
    + lia.
  - destruct (Z.eqb_spec idx 0); [|lia]. eexists _, _; split_and!; [done|done|lia|eauto|lia].
Qed.

Lemma nro_set_array_outcome_witness :
  ∃ a', nro_set_array (Some (OArray 8 [ONone; ONone])) 1 (Some (OInt 7 0)) =
    (Some (OArray a' [ONone; ONone; OInt 7 0]), NR_SUCCESS).
Proof.
  destruct (nro_set_array_outcome 8 [ONone; ONone] 1 (OInt 7 0)) as (o' & rv & -> & _ & _ & Happ & _).
  - constructor; [simpl; lia|repeat constructor].
  - constructor; [unfold int_range; lia|lia].
  - destruct Happ as [-> [a' ->]]; [by right; right|]. by exists a'.
Defined.

(** An [int] object read as a [long]: right for what setters make of numbers
    that are not negative, and for nothing else. *)
Lemma long_of_int_object x high : int_range x → 0 ≤ high < 2 ^ 32 →
  nro_get_long (Some (OInt x high)) = (x, NR_SUCCESS) ↔ (0 ≤ x ∧ high = 0) ∨ (x < 0 ∧ high = 2 ^ 32 - 1).
Proof.
  unfold int_range, nro_get_long, found, long_of, u64, u32. intros Hx Hh.
  assert (x mod 2 ^ 32 = if 0 <=? x then x else x + 2 ^ 32) as ->.
  { destruct (Z.leb_spec 0 x); [apply Z.mod_small; lia|]. rewrite <-(Z_mod_plus_full x 1), Z.mod_small; lia. }
  rewrite Z.mod_small by bool_cases.
  split; [intros [= E]|intros Hc; f_equal]; revert E || revert Hc; bool_cases; lia.
Qed.
