(* ===== verification/ObjectJson.v ===== *)
(** * ObjectJson: writing objects as JSON (src/axiom/util_object.c)

    The writer appends to a byte buffer; the theorem says which text arrives
    there. *)

From S2P Require Import Prelude Memory CString Strings Double Json Buffer Object.
Local Open Scope Z_scope.
#[local] Set Warnings "-register-all".

(** What [%d] and [%lld] print. *)
Definition signed_decimal (x : Z) : list Z := if x <? 0 then 45 :: decimal (- x) else decimal x.

Section writer.
Context `{Allocator Z}.
(** The radix character of the locale. *)
Context (radix : Z).
Implicit Types (buf : option nrbuf_t).

(** The formatted text is put together on the stack, however long it is. *)
Definition add_obj_jfmt buf (text : list Z) : option nrbuf_t := nr_buffer_add buf (Some text) (Z.of_nat (length text)).

Definition add_obj_double buf (d : double) : option nrbuf_t :=
  let '(reqlen, tbuf) := nr_double_to_str radix (Some (resize [] 1024)) 1024 d in nr_buffer_add buf tbuf reqlen.

Fixpoint recursive_obj_to_json (op : nrobj_t) buf : option nrbuf_t :=
  match op with
  | ONone => nr_buffer_add buf (Some (lit "null")) 4
  | OBoolean ival =>
      if negb (ival =? 0) then nr_buffer_add buf (Some (lit "true")) 4
      else nr_buffer_add buf (Some (lit "false")) 5
  | OInt ival _ => add_obj_jfmt buf (signed_decimal ival)
  | OLong lval => add_obj_jfmt buf (signed_decimal lval)
  | OUlong ulval => add_obj_jfmt buf (decimal ulval)
  | ODouble dval => add_obj_double buf dval
  | OString sval => nr_buffer_add_escape_json buf sval
  | OJstring sval => nr_buffer_add buf sval (nr_strlen sval)
  | OHash _ es =>
      let buf := nr_buffer_add buf (Some (lit "{")) 1 in
      let buf := (fix loop es buf :=
        match es with
        | [] => buf
        | e :: es =>
            let buf := let '(key, data) := e in
                       let buf := nr_buffer_add_escape_json buf (Some key) in
                       let buf := nr_buffer_add buf (Some (lit ":")) 1 in
                       recursive_obj_to_json data buf in
            let buf := match es with [] => buf | _ => nr_buffer_add buf (Some (lit ",")) 1 end in
            loop es buf
        end) es buf in
      nr_buffer_add buf (Some (lit "}")) 1
  | OArray _ es =>
      let buf := nr_buffer_add buf (Some (lit "[")) 1 in
      let buf := (fix loop es buf :=
        match es with
        | [] => buf
        | data :: es =>
            let buf := recursive_obj_to_json data buf in
            let buf := match es with [] => buf | _ => nr_buffer_add buf (Some (lit ",")) 1 end in
            loop es buf
        end) es buf in
      nr_buffer_add buf (Some (lit "]")) 1
  end.

Definition to_json_body (obj : obj) buf : option nrbuf_t :=
  match obj with
  | None => nr_buffer_add buf (Some (lit "null")) 4
  | Some op => recursive_obj_to_json op buf
  end.

Definition nro_to_json (obj : obj) : list Z :=
  let buf := Some (nr_buffer_create 4096 4096) in
  let buf := to_json_body obj buf in
  let buf := nr_buffer_add buf (Some [0]) 1 in
  nr_strdup (nr_buffer_cptr buf).

Definition nro_to_json_buffer (obj : obj) buf : nr_status_t * option nrbuf_t :=
  match buf with
  | None => (NR_FAILURE, None)
  | Some _ => (NR_SUCCESS, to_json_body obj buf)
  end.

Definition stringify_boolean (obj : obj) : list Z :=
  let '(ival, err) := nro_get_ival obj in
  let buf := add_obj_jfmt (Some (nr_buffer_create 1024 1024)) (signed_decimal ival) in
  let buf := nr_buffer_add buf (Some [0]) 1 in
  nr_strdup (nr_buffer_cptr buf).

Definition nro_stringify (found : obj) : list Z :=
  let tmp := if decide (NR_OBJECT_BOOLEAN = nro_type found) then stringify_boolean found else nro_to_json found in
  let buf := nr_buffer_add_escape_json (Some (nr_buffer_create 1024 1024)) (Some tmp) in
  let buf := nr_buffer_add buf (Some [0]) 1 in
  nr_strdup (nr_buffer_cptr buf).
End writer.

(** ** The text *)
Fixpoint separated (l : list (list Z)) : list Z :=
  match l with
  | [] => []
  | [x] => x
  | x :: l => x ++ 44 :: separated l
  end.

Fixpoint json_text (op : nrobj_t) : list Z :=
  match op with
  | ONone => lit "null"
  | OBoolean i => if i =? 0 then lit "false" else lit "true"
  | OInt i _ => signed_decimal i
  | OLong l => signed_decimal l
  | OUlong u => decimal u
  | ODouble d => format_5f 46 d
  | OString s => from_option (λ s, escaped (Some s)) [] s
  | OJstring s => default [] s
  | OHash _ es => 123 :: separated ((λ '(k, v), escaped (Some k) ++ 58 :: json_text v) <$> es) ++ [125]
  | OArray _ es => 91 :: separated (json_text <$> es) ++ [93]
  end.

(** ** Appending text *)
Section appending.
Context `{Allocator Z}.

Lemma appends_escaped s : is_cstr (default [] s) →
  appends (λ b, nr_buffer_add_escape_json b s) (from_option (λ s, escaped (Some s)) [] s).
Proof.
  intros Hs. destruct s as [s|]; [|apply appends_id].
  intros bp Hb. destruct (ensure_add_spec bp s Hb Hs) as (bp' & E & Hb' & Hc & _). by exists bp'.
Qed.

(** The loop over the elements of a container, with its commas. *)
Lemma appends_loop {A} (f : A → option nrbuf_t → option nrbuf_t) (t : A → list Z) es :
  Forall (λ e, appends (f e) (t e)) es →
  appends ((fix loop es b :=
    match es with
    | [] => b
    | e :: es => loop es (match es with [] => f e b | _ => nr_buffer_add (f e b) (Some (lit ",")) 1 end)
    end) es) (separated (t <$> es)).
Proof.
  induction 1 as [|e es He Hes IH]; [apply appends_id|].
  destruct es as [|e' es]; [exact He|].
  cbn [fmap list_fmap separated]. change (t e ++ 44 :: ?l) with (t e ++ [44] ++ l). rewrite app_assoc.
  exact (appends_then _ _ _ _ (appends_then _ _ _ _ He (appends_add (lit ",") 1 eq_refl)) IH).
Qed.
End appending.

Lemma json_text_spec `{Allocator Z} radix op : locale_radix radix → obj_ok op →
  appends (recursive_obj_to_json radix op) (json_text op).
Proof.
  intros Hx. induction op as [op Hop|a es IH|a es IH] using object_ind; intros Hok.
  - destruct op as [|i|i h|l|u|d|s|s| |]; try done; cbn [recursive_obj_to_json json_text].
    + by apply appends_add.
    + destruct (i =? 0); by apply appends_add.
    + by apply appends_add.
    + by apply appends_add.
    + by apply appends_add.
    + inversion Hok. unfold add_obj_double.
      destruct (to_str_writes radix d (resize [] 1024) 1024) as [-> _]; [done|done|by rewrite length_resize|].
      by apply appends_more.
    + inversion Hok. by apply appends_escaped.
    + inversion Hok. subst. destruct s as [s|]; [|exact appends_id]. simpl in *. rewrite cstr_id by done.
      by apply appends_add.
  - inversion Hok as [| | | | | | | |? ? Hl Hn Hk Hvs|]; subst. cbn [recursive_obj_to_json json_text].
    change (123 :: ?l) with ([123] ++ l).
    refine (appends_then _ _ _ _ (appends_add (lit "{") 1 eq_refl) (appends_then _ _ _ _ _ (appends_add (lit "}") 1 eq_refl))).
    refine (appends_loop (λ e b, let '(k, v) := e in
      recursive_obj_to_json radix v (nr_buffer_add (nr_buffer_add_escape_json b (Some k)) (Some (lit ":")) 1)) _ es _).
    rewrite Forall_fmap in Hk. rewrite Forall_fmap in Hvs. rewrite Forall_forall in IH, Hk, Hvs |- *. intros [k v] Hin.
    refine (appends_then _ _ _ _ (appends_escaped (Some k) _)
      (appends_then _ _ _ _ (appends_add (lit ":") 1 eq_refl) (IH (k, v) Hin _))).
    + by apply (Hk (k, v)).
    + by apply (Hvs (k, v)).
  - inversion Hok as [| | | | | | | | |? ? Hl Hvs]; subst. cbn [recursive_obj_to_json json_text].
    change (91 :: ?l) with ([91] ++ l).
    refine (appends_then _ _ _ _ (appends_add (lit "[") 1 eq_refl) (appends_then _ _ _ _ _ (appends_add (lit "]") 1 eq_refl))).
    apply (appends_loop (recursive_obj_to_json radix)).
    rewrite Forall_forall in *. intros e He. by apply IH, Hvs.
Qed.

(** ** The text is a string *)
Lemma digits_cstr l : Forall (λ c, 48 ≤ c < 58) l → is_cstr l.
Proof. intros Hl. eapply Forall_impl; [exact Hl|]. simpl. lia. Qed.

Lemma signed_decimal_spec x : long_range x →
  ∃ neg ds, signed_decimal x = sign_text neg ++ ds ∧ Forall (λ c, 48 ≤ c < 58) ds ∧ ds ≠ [] ∧ (length ds ≤ 20)%nat ∧
    of_decimal ds = Z.abs x ∧ neg = (x <? 0).
Proof.
  unfold long_range, signed_decimal. intros Hx.
  destruct (Z.ltb_spec x 0).
  - destruct (decimal_spec (- x)) as (Hl & Hd & Ho); [lia|]. exists true, (decimal (- x)).
    split_and!; [done|done|by apply decimal_loop_nonempty|done|lia|done].
  - destruct (decimal_spec x) as (Hl & Hd & Ho); [lia|]. exists false, (decimal x).
    split_and!; [done|done|by apply decimal_loop_nonempty|done|lia|done].
Qed.

Lemma signed_decimal_cstr x : long_range x → is_cstr (signed_decimal x).
Proof.
  intros Hx. destruct (signed_decimal_spec x Hx) as (neg & ds & -> & Hd & _). apply Forall_app.
  split; [destruct neg; by repeat constructor|by apply digits_cstr].
Qed.

Lemma escaped_cstr s : is_cstr s → is_cstr (escaped (Some s)).
Proof.
  intros Hs. destruct (escaped_ok s Hs) as (_ & _ & Hp & _). eapply Forall_impl; [exact Hp|].
  unfold printable. simpl. lia.
Qed.

Lemma separated_cstr l : Forall is_cstr l → is_cstr (separated l).
Proof.
  induction 1 as [|x l Hx Hl IH]; [constructor|]. destruct l as [|y l]; [done|].
  cbn [separated]. apply Forall_app. split; [done|]. constructor; [lia|exact IH].
Qed.

Lemma format_cstr d : SpecFloat.valid_binary prec emax d = true → is_cstr (format_5f 46 d).
Proof.
  intros Hv. destruct (to_str_writes 46 d (replicate 400 0) 400) as [_ Hc]; [by left|done|by rewrite length_replicate|done].
Qed.

Lemma int_long_range i : int_range i → long_range i.
Proof. unfold int_range, long_range. lia. Qed.

Lemma json_text_cstr op : obj_ok op → is_cstr (json_text op).
Proof.
  induction op as [op Hop|a es IH|a es IH] using object_ind; intros Hok.
  - destruct op as [|i|i h|l|u|d|s|s| |]; try done; inversion Hok; subst; cbn [json_text].
    + by repeat constructor.
    + destruct (i =? 0); by repeat constructor.
    + by apply signed_decimal_cstr, int_long_range.
    + by apply signed_decimal_cstr.
    + apply digits_cstr. by apply decimal_spec.
    + by apply format_cstr.
    + destruct s as [s|]; [by apply escaped_cstr|constructor].
    + done.
  - inversion Hok as [| | | | | | | |? ? Hl Hn Hk Hvs|]; subst. constructor; [lia|]. apply Forall_app.
    split; [|by repeat constructor]. apply separated_cstr, Forall_fmap.
    rewrite Forall_fmap in Hk. rewrite Forall_fmap in Hvs. rewrite Forall_forall in IH, Hk, Hvs |- *. intros [k v] Hin.
    apply Forall_app. split; [by apply escaped_cstr, (Hk (k, v))|]. constructor; [lia|].
    by apply (IH (k, v)), (Hvs (k, v)).
  - inversion Hok as [| | | | | | | | |? ? Hl Hvs]; subst. constructor; [lia|]. apply Forall_app.
    split; [|by repeat constructor]. apply separated_cstr, Forall_fmap.
    rewrite Forall_forall in IH, Hvs |- *. intros e He. by apply IH, Hvs.
Qed.

(** ** The functions of the interface *)
Section interface.
Context `{Allocator Z}.

Lemma stringify_boolean_text i : int_range i → stringify_boolean (Some (OBoolean i)) = signed_decimal i.
Proof.
  intros Hi. exact (terminated_text (λ b, add_obj_jfmt b (signed_decimal i)) (signed_decimal i) 1024 1024
    (appends_add (signed_decimal i) _ eq_refl) (signed_decimal_cstr i (int_long_range i Hi)) ltac:(done) ltac:(done)).
Qed.
End interface.

Lemma nro_to_json_text `{Allocator Z} radix op : locale_radix radix → obj_ok op → nro_to_json radix (Some op) = json_text op.
Proof.
  intros Hx Hok. apply (terminated_text (recursive_obj_to_json radix op)); [by apply json_text_spec|by apply json_text_cstr|done..].
Qed.

(** Objects are written as the JSON text their structure says: [nro_to_json] returns it,
    [nro_to_json_buffer] appends it to what the buffer holds, [nro_stringify] returns it as a JSON string itself,
    booleans as a digit. This holds in every locale, for every well-formed object and whatever the allocator leaves
    in fresh memory; a [NULL] object is written as null, a [NULL] buffer refused. *)
Theorem nro_to_json_writes `{Allocator Z} (radix : Z) (op : nrobj_t) (bp : nrbuf_t) :
  locale_radix radix → obj_ok op → buf_inv bp →
  nro_to_json radix (Some op) = json_text op ∧ nro_to_json radix None = lit "null" ∧
  (∃ bp', nro_to_json_buffer radix (Some op) (Some bp) = (NR_SUCCESS, Some bp') ∧
    contents bp' = contents bp ++ json_text op) ∧
  nro_to_json_buffer radix (Some op) None = (NR_FAILURE, None) ∧
  nro_stringify radix (Some op) = escaped (Some (match op with OBoolean i => signed_decimal i | _ => json_text op end)).
Proof.
  intros Hx Hok Hb. pose proof (json_text_spec radix op Hx Hok) as Hap. pose proof (json_text_cstr op Hok) as Hc.
  pose proof (nro_to_json_text radix op Hx Hok) as E.
  split_and!; [done| | |done|].
  - apply (terminated_text (to_json_body radix None) (lit "null")); [by apply appends_add|by repeat constructor|done..].
  - destruct (Hap bp Hb) as (bp' & E' & _ & Hc'). exists bp'. unfold nro_to_json_buffer, to_json_body. by rewrite E'.
  - assert (∀ t, is_cstr t → nr_strdup (nr_buffer_cptr (nr_buffer_add
      (nr_buffer_add_escape_json (Some (nr_buffer_create 1024 1024)) (Some t)) (Some [0]) 1)) = escaped (Some t)) as Hs.
    { intros t Ht. apply (terminated_text (λ b, nr_buffer_add_escape_json b (Some t))); [by apply (appends_escaped (Some t))| |done..].
      by apply escaped_cstr. }
    unfold nro_stringify. destruct op as [|i|i h|l|u|d|s|s| |]; cbn [nro_type from_option type_of];
      (destruct (decide _) as [Hd|Hd]; [try discriminate Hd|try by destruct Hd]); try (by rewrite E; apply Hs).
    inversion Hok. rewrite stringify_boolean_text by done. by apply Hs, signed_decimal_cstr, int_long_range.
Qed.

Lemma nro_to_json_writes_witness :
  let _ := GenerousAllocator.allocator Z in
  nro_to_json 44 (Some (OHash 8 [(lit "a", OArray 8 [OInt (-1) 0; OString (Some (lit "x/y"))]);
      (lit "b", ODouble (SpecFloat.S754_finite false 4503599627370496 (-53)))])) =
    [123; 34; 97; 34] ++ lit ":[-1," ++ [34; 120; 92; 47; 121; 34] ++ lit "]," ++ [34; 98; 34] ++ lit ":0.50000}".
Proof.
  set (op := OHash _ _). intros al.
  destruct (nro_to_json_writes (H:=al) 44 op (nr_buffer_create 0 0)) as [E _].
  - by right.
  - repeat constructor; simpl; try lia; try (by intros [=]); unfold int_range; try lia.
    + by rewrite list_elem_of_singleton.
    + apply not_elem_of_nil.
  - by destruct (buffer_create_holds 0 0) as [[Hb _ _ _] _].
  - rewrite E. vm_compute. reflexivity.
Defined.
