(* ===== verification/ObjectParse.v ===== *)
(** * ObjectParse: reading JSON into objects (src/axiom/util_object.c)

    A pointer into the text is the rest of the text.  What follows the text in
    memory starts with a NUL and is not known behind it: reading there, writing
    past the end of the block a string is decoded into, and decoding a number
    that was never assigned are the outcome [Undefined]. *)

From S2P Require Import Prelude Memory CString Strings Double Json Object.
Local Open Scope Z_scope.

(** ** Outcomes *)
Inductive outcome (A : Type) := Done (a : A) | Failed | Undefined | OutOfFuel.
Arguments Done {A} _.
Arguments Failed {A}.
Arguments Undefined {A}.
Arguments OutOfFuel {A}.

#[export] Instance outcome_bind : MBind outcome := λ A B f x,
  match x with Done a => f a | Failed => Failed | Undefined => Undefined | OutOfFuel => OutOfFuel end.

(** The character at the pointer. *)
Definition peek (l : list Z) : Z := char_at l 0.

(** ** The C library *)
Definition is_octal (c : Z) : bool := (48 <=? c) && (c <=? 55).
Definition of_octal (l : list Z) : Z := foldl (λ x c, x * 8 + (c - 48)) 0 l.
Definition saturate (x : Z) : Z := Z.max (- 2 ^ 63) (Z.min (2 ^ 63 - 1) x).

(** [strtol] and [strtoll] with base 0: the number, saturated, and the text
    after it, the whole text when there is none. *)
Definition strtol (num : list Z) : Z * list Z :=
  let '(neg, s) := scan_sign (skip_spaces num) in
  let '(ds, v, r) :=
    if starts_with (lit "0x") s && nr_isxdigit (char_at s 2)
    then let '(ds, r) := span nr_isxdigit (drop 2 s) in (ds, of_hex ds, r)
    else if peek s =? 48
    then let '(ds, r) := span is_octal s in (ds, of_octal ds, r)
    else let '(ds, r) := span nr_isdigit s in (ds, of_decimal ds, r) in
  match ds with
  | [] => (0, num)
  | _ => (saturate (if neg then - v else v), r)
  end.

(** [sscanf] with [%4x]: at most four characters behind white space, a sign and
    the 0x prefix among them; [None] when nothing is assigned. *)
Definition scan_hex4 (s : list Z) : option Z :=
  let s := skip_spaces s in
  let '(neg, s') := scan_sign s in
  let w := (4 - (length s - length s'))%nat in
  let '(zero, w', s'') :=
    if starts_with (lit "0x") s' && (2 <=? w)%nat then (true, (w - 2)%nat, drop 2 s') else (false, w, s') in
  let ds := (span nr_isxdigit (take w' s'')).1 in
  match ds with
  | [] => if zero then Some 0 else None
  | _ => Some (u32 (if neg then - of_hex ds else of_hex ds))
  end.

(** ** Strings *)

(** The first pass: how long the decoded string is, roughly. *)
Fixpoint string_length (ptr : list Z) (len : Z) : outcome Z :=
  match ptr with
  | [] => Failed
  | c :: ptr =>
      if c =? 34 then Done len
      else if c =? 92 then match ptr with [] => Undefined | _ :: ptr => string_length ptr (len + 1) end
      else if c <? 32 then Failed
      else string_length ptr (len + 1)
  end.

Definition firstByteMark (len : Z) : Z := if len =? 1 then 0x00 else if len =? 2 then 0xC0 else 0xE0.

(** The bytes of a UTF-16 unit, and what is left of [uc]. *)
Definition transcode (uc : Z) : list Z * Z :=
  let cont uc := Z.land (Z.lor uc 0x80) 0xBF in
  if uc <? 0x80 then ([Z.lor uc (firstByteMark 1) mod 256], uc)
  else if uc <? 0x800 then
    let uc1 := Z.shiftr uc 6 in ([Z.lor uc1 (firstByteMark 2) mod 256; cont uc], uc1)
  else
    let uc1 := Z.shiftr uc 6 in let uc2 := Z.shiftr uc1 6 in
    ([Z.lor uc2 (firstByteMark 3) mod 256; cont uc1; cont uc], uc2).

Definition unescape_char (c : Z) : Z :=
  if c =? 98 then 8 else if c =? 102 then 12 else if c =? 110 then 10
  else if c =? 114 then 13 else if c =? 116 then 9 else if c =? 47 then 47 else c.

(** The second pass, into a block of [len + 1] bytes: the bytes written and the
    pointer. *)
Fixpoint unescape (ptr : list Z) (len : Z) (uc : option Z) (out : list Z) : outcome (list Z * list Z) :=
  let fits bytes := Z.of_nat (length out) + Z.of_nat (length bytes) <=? len + 1 in
  match ptr with
  | [] => Done (out, ptr)
  | c :: ptr1 =>
      if (c =? 34) || (c <=? 31) then Done (out, ptr)
      else if negb (c =? 92)
      then if fits [c] then unescape ptr1 len uc (out ++ [c]) else Undefined
      else match ptr1 with
           | [] => Undefined
           | e :: ptr2 =>
               if e =? 117 then
                 match (match scan_hex4 ptr2 with Some v => Some v | None => uc end), ptr2 with
                 | Some v, _ :: _ :: _ :: _ :: ptr3 =>
                     let '(bytes, v) := transcode v in
                     if fits bytes then unescape ptr3 len (Some v) (out ++ bytes) else Undefined
                 | _, _ => Undefined
                 end
               else if fits [0] then unescape ptr2 len uc (out ++ [unescape_char e]) else Undefined
           end
  end.

(** The string and the pointer behind it. *)
Definition parse_string (str : list Z) : outcome (list Z * list Z) :=
  match str with
  | c :: ptr =>
      if negb (c =? 34) then Failed
      else
        len ← string_length ptr 0;
        '(out, ptr) ← unescape ptr len None [];
        if Z.of_nat (length out) <=? len
        then Done (nr_strdup (Some out), if peek ptr =? 34 then tail ptr else ptr)
        else Undefined
  | [] => Failed
  end.

(** ** Values *)
Fixpoint json_skip (s : list Z) : list Z :=
  match s with
  | c :: r => if (0 <? c) && (c <=? 32) then json_skip r else s
  | [] => []
  end.

Definition INT_MIN : Z := - 2 ^ 31.
Definition INT_MAX : Z := 2 ^ 31 - 1.

Section parser.
(** The radix character of the locale, and the address of the copy of a key. *)
Context (radix : Z) (address : list Z → Z).

(** [stale] is what the half of the union that an [int] leaves alone holds. *)
Definition parse_number (stale : Z) (num : list Z) : outcome (nrobj_t * list Z) :=
  let '(i, ret) := strtol num in
  let c := peek ret in
  if (c =? 46) || (c =? 101) || (c =? 69) then
    match nr_strtod radix (Some num) with
    | None => Undefined
    | Some (SpecFloat.S754_infinity _, _) => let '(l, ret) := strtol num in Done (OLong l, ret)
    | Some (d, ret) => Done (ODouble d, match ret with Some e => drop (Z.to_nat e) num | None => num end)
    end
  else if (i <=? INT_MIN) || (INT_MAX <=? i) then let '(l, ret) := strtol num in Done (OLong l, ret)
  else Done (OInt i stale, ret).

Definition push_element (item child : nrobj_t) : nrobj_t :=
  default item (nro_internal_setvalue_array (Some item) 0 (Some child)).1.
Definition put_element (item : nrobj_t) (key : list Z) (child : nrobj_t) : nrobj_t :=
  default item (nro_internal_setvalue_hash (Some item) (Some key) (Some child)).1.

(** A later child of a hash still holds the address of its key. *)
Definition stale_half (key : list Z) : Z := address key / 2 ^ 32 mod 2 ^ 32.

Fixpoint parse_value (fuel : nat) (stale : Z) (value : list Z) : outcome (nrobj_t * list Z) :=
  match fuel with
  | O => OutOfFuel
  | S fuel =>
      if nr_strncmp (Some value) (Some (lit "null")) 4 =? 0 then Done (ONone, drop 4 value)
      else if nr_strncmp (Some value) (Some (lit "false")) 5 =? 0 then Done (OBoolean 0, drop 5 value)
      else if nr_strncmp (Some value) (Some (lit "true")) 4 =? 0 then Done (OBoolean 1, drop 4 value)
      else if peek value =? 34 then
        '(s, rest) ← parse_string value; Done (OString (Some s), rest)
      else if (peek value =? 45) || ((48 <=? peek value) && (peek value <=? 57))
      then parse_number stale value
      else if peek value =? 91 then parse_array fuel value
      else if peek value =? 123 then parse_object fuel value
      else Failed
  end
with parse_array (fuel : nat) (value : list Z) : outcome (nrobj_t * list Z) :=
  match fuel with
  | O => OutOfFuel
  | S fuel =>
      let value := json_skip (tail value) in
      if peek value =? 93 then Done (OArray 1 [], tail value)
      else
        '(child, value) ← parse_value fuel 0 (json_skip value);
        parse_elements fuel (push_element (OArray NRO_CHUNK_SIZE []) child) (json_skip value)
  end
with parse_elements (fuel : nat) (item : nrobj_t) (value : list Z) : outcome (nrobj_t * list Z) :=
  match fuel with
  | O => OutOfFuel
  | S fuel =>
      if peek value =? 44 then
        '(child, value) ← parse_value fuel 0 (json_skip (tail value));
        parse_elements fuel (push_element item child) (json_skip value)
      else if peek value =? 93 then Done (item, tail value)
      else Failed
  end
with parse_object (fuel : nat) (value : list Z) : outcome (nrobj_t * list Z) :=
  match fuel with
  | O => OutOfFuel
  | S fuel =>
      let value := json_skip (tail value) in
      if peek value =? 125 then Done (OHash 1 [], tail value)
      else
        '(key, value) ← parse_string (json_skip value);
        let value := json_skip value in
        if negb (peek value =? 58) then Failed
        else
          '(child, value) ← parse_value fuel 0 (json_skip (tail value));
          parse_members fuel (put_element (OHash NRO_CHUNK_SIZE []) key child) (json_skip value)
  end
with parse_members (fuel : nat) (item : nrobj_t) (value : list Z) : outcome (nrobj_t * list Z) :=
  match fuel with
  | O => OutOfFuel
  | S fuel =>
      if peek value =? 44 then
        '(key, value) ← parse_string (json_skip (tail value));
        let value := json_skip value in
        if negb (peek value =? 58) then Failed
        else
          '(child, value) ← parse_value fuel (stale_half key) (json_skip (tail value));
          parse_members fuel (put_element item key child) (json_skip value)
      else if peek value =? 125 then Done (item, tail value)
      else Failed
  end.

Definition nro_create_from_json (json : option (list Z)) : outcome obj :=
  match json with
  | None => Done None
  | Some json =>
      if peek json =? 0 then Done None
      else
        match parse_value (2 * length json + 2) 0 (json_skip json) with
        | Done (rv, next) =>
            Done (if negb ((0 =? peek next) || (0 =? peek (json_skip next))) then None else Some rv)
        | Failed => Done None
        | Undefined => Undefined
        | OutOfFuel => OutOfFuel
        end
  end.

(** The copy that is parsed ends at the first NUL among [len] bytes, or there. *)
Definition nro_create_from_json_unterminated (json : option (list Z)) (len : Z) : outcome obj :=
  if len <=? 0 then Done None
  else match json with
       | None => Done None
       | Some json =>
           let terminated := (nr_strxcpy (Some (0 :: replicate (Z.to_nat len) 0)) (Some json) len).2 in
           nro_create_from_json (cstr <$> terminated)
       end.
End parser.


(** ** Reading goes forward

    [passes s r]: a reader got from [s] to [r] without a backslash between. *)
Definition no_backslash (l : list Z) : Prop := Forall (λ c, c ≠ 92) l.
Definition passes (s r : list Z) : Prop := ∃ p, s = p ++ r ∧ no_backslash p.

Lemma passes_refl s : passes s s.
Proof. exists []. by repeat constructor. Qed.
Lemma passes_trans a b c : passes a b → passes b c → passes a c.
Proof.
  intros (p & -> & Hp) (q & -> & Hq). exists (p ++ q). rewrite <-app_assoc. split; [done|]. by apply Forall_app.
Qed.
Lemma passes_cons c s r : c ≠ 92 → passes s r → passes (c :: s) r.
Proof. intros Hc (p & -> & Hp). exists (c :: p). split; [done|by constructor]. Qed.
Lemma passes_length s r : passes s r → (length r ≤ length s)%nat.
Proof. intros (p & -> & _). rewrite length_app. lia. Qed.
Lemma passes_drop k s : no_backslash (take k s) → passes s (drop k s).
Proof. exists (take k s). by rewrite take_drop. Qed.
Lemma passes_tail c s : peek s = c → c ≠ 0 → c ≠ 92 → passes s (tail s) ∧ (length (tail s) < length s)%nat.
Proof.
  destruct s as [|x s]; [by intros <-|]. change (peek (x :: s)) with x. intros -> _ Hc.
  split; [apply passes_cons; [done|apply passes_refl]|simpl; lia].
Qed.
#[local] Hint Resolve passes_refl : core.

Lemma passes_skip s : passes s (json_skip s).
Proof.
  induction s as [|c s IH]; simpl; [done|]. destruct (0 <? c) eqn:E1, (c <=? 32) eqn:E2; simpl; try done.
  apply passes_cons; [lia|done].
Qed.

Lemma passes_span p s a r : (∀ c, p c = true → c ≠ 92) → span p s = (a, r) → passes s r.
Proof.
  intros Hp. revert a. induction s as [|c s IH]; intros a; simpl; [by intros [= <- <-]|].
  destruct (p c) eqn:E; [|by intros [= <- <-]]. destruct (span p s) as [a' r'] eqn:Es. intros [= <- <-].
  apply passes_cons; [by apply Hp|by eapply IH].
Qed.

Lemma digit_no_backslash c : nr_isdigit c = true → c ≠ 92.
Proof. unfold nr_isdigit. lia. Qed.
Lemma xdigit_no_backslash c : nr_isxdigit c = true → c ≠ 92.
Proof. unfold nr_isxdigit, nr_isdigit. lia. Qed.
Lemma octal_no_backslash c : is_octal c = true → c ≠ 92.
Proof. unfold is_octal. lia. Qed.
Lemma space_no_backslash c : nr_isspace c = true → c ≠ 92.
Proof. unfold nr_isspace. lia. Qed.
#[local] Hint Resolve digit_no_backslash xdigit_no_backslash octal_no_backslash space_no_backslash : core.

Lemma passes_skip_spaces s : passes s (skip_spaces s).
Proof. unfold skip_spaces. destruct (span nr_isspace s) eqn:E. exact (passes_span _ _ _ _ space_no_backslash E). Qed.

Lemma passes_sign s neg r : scan_sign s = (neg, r) → passes s r.
Proof.
  destruct s as [|c s]; simpl; [by intros [= <- <-]|].
  destruct (Z.eqb_spec c 45) as [->|]; [intros [= <- <-]; by apply passes_cons|].
  destruct (Z.eqb_spec c 43) as [->|]; [intros [= <- <-]; by apply passes_cons|]. by intros [= <- <-].
Qed.

(** A word in lower case without a backslash. *)
Lemma passes_word word s : starts_with word s = true → no_backslash word → passes s (drop (length word) s).
Proof.
  unfold starts_with. intros E%bool_decide_eq_true Hw. apply passes_drop. rewrite <-E in Hw.
  unfold no_backslash in *. rewrite Forall_fmap in Hw. eapply Forall_impl; [exact Hw|].
  intros c Hc ->. by apply Hc.
Qed.

Lemma passes_mantissa radix isd s ip fp r : locale_radix radix → (∀ c, isd c = true → c ≠ 92) →
  scan_mantissa radix isd s = Some (ip, fp, r) → passes s r.
Proof.
  intros Hx Hd. unfold scan_mantissa. destruct (span isd s) as [ip' r1] eqn:E1. pose proof (passes_span _ _ _ _ Hd E1) as H1.
  assert (∀ fp' r', (match r1 with c :: r' => if c =? radix then span isd r' else ([], r1) | [] => ([], r1) end) = (fp', r') →
    passes r1 r') as H2.
  { intros fp' r'. destruct r1 as [|c r1]; [by intros [= <- <-]|]. destruct (Z.eqb_spec c radix) as [->|]; [|by intros [= <- <-]].
    intros E. apply passes_cons; [unfold locale_radix in Hx; lia|by eapply passes_span]. }
  destruct (match r1 with [] => _ | _ => _ end) as [fp' r'] eqn:E2.
  destruct (ip' ++ fp'); [done|]. intros [= <- <- <-]. eapply passes_trans; [done|by eapply H2].
Qed.

Lemma passes_exponent marker s e r : scan_exponent marker s = (e, r) → (∀ c, nr_tolower c = marker → c ≠ 92) → passes s r.
Proof.
  intros E Hm. destruct s as [|c s]; [by injection E as <- <-|]. unfold scan_exponent in E.
  destruct (Z.eqb_spec (nr_tolower c) marker) as [Ec|]; [|by injection E as <- <-].
  destruct (scan_sign s) as [neg r1] eqn:E1, (span nr_isdigit r1) as [ds r2] eqn:E2.
  destruct ds; injection E as <- <-; [done|]. apply passes_cons; [by apply Hm|].
  eapply passes_trans; [by eapply passes_sign|exact (passes_span _ _ _ _ digit_no_backslash E2)].
Qed.

Lemma marker_no_backslash c m : m = 101 ∨ m = 112 → nr_tolower c = m → c ≠ 92.
Proof. intros Hm <- ->. by destruct Hm. Qed.

Lemma passes_payload s : passes s (nan_payload s).
Proof.
  unfold nan_payload. destruct s as [|c s]; [done|]. destruct (Z.eqb_spec c 40) as [->|]; [|done].
  destruct (span _ s) as [a r] eqn:E. simpl. destruct r as [|c r]; [done|].
  destruct (Z.eqb_spec c 41) as [->|]; [|done].
  apply passes_cons; [done|]. eapply passes_trans; [eapply passes_span; [|exact E]|by apply passes_cons].
  intros c. simpl. unfold nr_isalnum, nr_isdigit, nr_isupper, nr_islower. lia.
Qed.

Lemma passes_double radix s d r : locale_radix radix → scan_double radix s = Some (d, r) → passes s r.
Proof.
  intros Hx. unfold scan_double. destruct (scan_sign (skip_spaces s)) as [neg s1] eqn:E1.
  assert (passes s s1) as H1 by (eapply passes_trans; [apply passes_skip_spaces|by eapply passes_sign]).
  intros E. eapply passes_trans; [exact H1|]. clear H1 E1.
  destruct (if starts_with (lit "0x") s1 then _ else _) as [[[ip fp] r1]|] eqn:Ehex.
  - destruct (starts_with (lit "0x") s1) eqn:Ew; [|done].
    destruct (scan_exponent 112 r1) as [e r2] eqn:E3. injection E as <- <-.
    eapply passes_trans; [apply (passes_word (lit "0x")); [exact Ew|by repeat constructor]|].
    eapply passes_trans; [exact (passes_mantissa _ _ _ _ _ _ Hx xdigit_no_backslash Ehex)|].
    eapply passes_exponent; [exact E3|]. intros c. apply marker_no_backslash. by right.
  - destruct (scan_mantissa radix nr_isdigit s1) as [[[ip fp] r1]|] eqn:E2.
    { destruct (scan_exponent 101 r1) as [e r2] eqn:E3. injection E as <- <-.
      eapply passes_trans; [exact (passes_mantissa _ _ _ _ _ _ Hx digit_no_backslash E2)|].
      eapply passes_exponent; [exact E3|]. intros c. apply marker_no_backslash. by left. }
    destruct (starts_with (lit "infinity") s1) eqn:E3.
    { injection E as <- <-. by apply (passes_word (lit "infinity")); [|repeat constructor]. }
    destruct (starts_with (lit "inf") s1) eqn:E4.
    { injection E as <- <-. by apply (passes_word (lit "inf")); [|repeat constructor]. }
    destruct (starts_with (lit "nan") s1) eqn:E5; [|done]. injection E as <- <-.
    eapply passes_trans; [by apply (passes_word (lit "nan")); [|repeat constructor]|]. apply passes_payload.
Qed.

Lemma strtod_prefix radix s v e : locale_radix radix → strtod radix s = (v, e) →
  0 ≤ e ≤ Z.of_nat (length s) ∧ no_backslash (take (Z.to_nat e) s).
Proof.
  intros Hx. unfold strtod. destruct (scan_double radix s) as [[d r]|] eqn:E; intros [= <- <-]; [|by repeat constructor; lia].
  destruct (passes_double _ _ _ _ Hx E) as (p & -> & Hp). rewrite length_app. split; [lia|].
  replace (Z.to_nat _) with (length p) by lia. by rewrite take_app_length.
Qed.

(** [nr_strtod] on text that fits its copy. *)
Lemma scan_loop_overshot n buf i p : 0 ≤ i → scan_loop n buf i = OVERSHOT p →
  i ≤ p < i + Z.of_nat n ∧ char_at buf p = 44.
Proof.
  revert i. induction n as [|n IH]; intros i Hi; [done|]. cbn [scan_loop].
  destruct (Z.eqb_spec (char_at buf i) 46); [done|]. destruct (Z.eqb_spec (char_at buf i) 44) as [E|].
  - intros [= <-]. split; [lia|done].
  - intros E. apply IH in E; [|lia]. split; [lia|tauto].
Qed.

Lemma rescan_prefix radix buf pos c v ret : locale_radix radix → is_cstr buf →
  0 ≤ pos < Z.of_nat (length buf) → char_at buf pos ≠ 92 → rescan radix buf pos c = Some (v, ret) →
  ∃ e, ret = Some e ∧ no_backslash (take (Z.to_nat e) buf).
Proof.
  intros Hx Hb Hp Hat E. destruct (rescan_some _ _ _ _ _ Hb Hp E) as (copy & v' & e & [= -> ->] & Es & Hcopy).
  destruct (strtod_prefix _ _ _ _ Hx Es) as [He Hn]. exists e. split; [done|].
  apply Forall_lookup. intros i x Hi%lookup_take_Some. destruct Hi as [Hi Hie].
  destruct (decide (i = Z.to_nat pos)) as [->|Hne].
  { intros ->. apply Hat. unfold char_at. by rewrite Hi. }
  destruct (lookup_lt_is_Some_2 copy i ltac:(lia)) as [y Hy]. pose proof (Hcopy i y Hy Hne) as Hy'.
  rewrite Hi in Hy'. injection Hy' as <-.
  refine (Forall_lookup_1 _ _ i _ Hn _). by rewrite lookup_take_lt.
Qed.

Lemma nr_strtod_prefix radix buf v ret : locale_radix radix → is_cstr buf →
  nr_strtod radix (Some buf) = Some (v, ret) → ∃ e, ret = Some e ∧ no_backslash (take (Z.to_nat e) buf).
Proof.
  intros Hx Hb. unfold nr_strtod. destruct (strtod radix buf) as [v' e] eqn:E.
  destruct (strtod_prefix _ _ _ _ Hx E) as [He Hn].
  destruct (scan_loop (Z.to_nat e) buf 0) as [| |p] eqn:Es; [|by intros [= <- <-]; eauto|].
  - destruct (Z.eqb_spec (char_at buf e) 46) as [Ee|]; cbn [negb]; [|by intros [= <- <-]; eauto].
    assert (e < Z.of_nat (length buf)).
    { unfold char_at in Ee. destruct (buf !! Z.to_nat e) eqn:E'; [apply lookup_lt_Some in E'; lia|done]. }
    apply rescan_prefix; [done..|lia|by rewrite Ee].
  - apply scan_loop_overshot in Es as [Hp Ec]; [|done]. apply rescan_prefix; [done..|lia|by rewrite Ec].
Qed.

(** Text that fits the copy is always converted. *)
Lemma nr_strtod_short radix buf : locale_radix radix → is_cstr buf → (length buf < room)%nat →
  is_Some (nr_strtod radix (Some buf)).
Proof.
  intros Hx Hb Hl. unfold nr_strtod. destruct (strtod radix buf) as [v e] eqn:E.
  destruct (strtod_prefix _ _ _ _ Hx E) as [He Hn].
  assert (∀ pos c, 0 ≤ pos < Z.of_nat (length buf) → is_Some (rescan radix buf pos c)) as Hr.
  { intros pos c Hp. rewrite rescan_copy by (rewrite ?take_ge by lia; done). destruct (strtod radix (cstr _)). eauto. }
  destruct (scan_loop (Z.to_nat e) buf 0) as [| |p] eqn:Es; [|eauto|].
  - destruct (Z.eqb_spec (char_at buf e) 46) as [Ee|]; cbn [negb]; [|eauto]. apply Hr.
    unfold char_at in Ee. destruct (buf !! Z.to_nat e) eqn:E'; [apply lookup_lt_Some in E'; lia|done].
  - apply scan_loop_overshot in Es as [Hp Ec]; [|done]. apply Hr. lia.
Qed.

Lemma strtol_spec num i r : strtol num = (i, r) → passes num r ∧ long_range i.
Proof.
  unfold strtol. destruct (scan_sign (skip_spaces num)) as [neg s] eqn:E1.
  assert (passes num s) as H1 by (eapply passes_trans; [apply passes_skip_spaces|by eapply passes_sign]).
  destruct (if starts_with (lit "0x") s && _ then _ else _) as [[ds v] r'] eqn:E2.
  assert (passes s r') as H2.
  { destruct (starts_with (lit "0x") s && nr_isxdigit (char_at s 2)) eqn:Eh.
    - apply andb_true_iff in Eh as [Eh _]. destruct (span nr_isxdigit (drop 2 s)) as [ds' r1] eqn:E3. injection E2 as <- _ <-.
      eapply passes_trans; [apply (passes_word (lit "0x")); [exact Eh|by repeat constructor]|].
      exact (passes_span _ _ _ _ xdigit_no_backslash E3).
    - destruct (peek s =? 48).
      + destruct (span is_octal s) as [ds' r1] eqn:E3. injection E2 as <- _ <-. exact (passes_span _ _ _ _ octal_no_backslash E3).
      + destruct (span nr_isdigit s) as [ds' r1] eqn:E3. injection E2 as <- _ <-. exact (passes_span _ _ _ _ digit_no_backslash E3). }
  destruct ds; intros [= <- <-]; (split; [|unfold long_range, saturate; lia]); [done|by eapply passes_trans].
Qed.

(** ** Escapes *)

(** Every backslash is followed by a character, and backslash u by four
    hexadecimal digits. *)
Fixpoint well_escaped (l : list Z) : bool :=
  match l with
  | [] => true
  | c :: r =>
      if c =? 92 then
        match r with
        | [] => false
        | e :: r =>
            if e =? 117 then
              match r with
              | a :: b :: c :: d :: r =>
                  nr_isxdigit a && nr_isxdigit b && nr_isxdigit c && nr_isxdigit d && well_escaped r
              | _ => false
              end
            else well_escaped r
        end
      else well_escaped r
  end.

Lemma well_escaped_skip c s : c ≠ 92 → well_escaped (c :: s) = well_escaped s.
Proof. intros Hc. simpl. by destruct (Z.eqb_spec c 92). Qed.

Lemma well_escaped_passes s r : passes s r → well_escaped s = true → well_escaped r = true.
Proof.
  intros (p & -> & Hp). induction Hp as [|c p Hc _ IH]; [done|]. cbn [app]. by rewrite well_escaped_skip.
Qed.

Lemma hex_digit_value_range c : nr_isxdigit c = true → 0 ≤ hex_digit_value c < 16.
Proof.
  unfold nr_isxdigit, hex_digit_value, nr_isdigit, nr_islower. intros Hc.
  destruct ((48 <=? c) && (c <=? 57)) eqn:E; [lia|]. destruct ((97 <=? c) && (c <=? 122)) eqn:E'; lia.
Qed.

Lemma scan_hex4_digits a b c d r : nr_isxdigit a = true → nr_isxdigit b = true → nr_isxdigit c = true →
  nr_isxdigit d = true → scan_hex4 (a :: b :: c :: d :: r) = Some (of_hex [a; b; c; d]) ∧ 0 ≤ of_hex [a; b; c; d] < 65536.
Proof.
  intros Ha Hb Hc Hd.
  assert (0 ≤ of_hex [a; b; c; d] < 65536) as Hr.
  { pose proof (hex_digit_value_range a Ha). pose proof (hex_digit_value_range b Hb).
    pose proof (hex_digit_value_range c Hc). pose proof (hex_digit_value_range d Hd). unfold of_hex. simpl. lia. }
  split; [|done]. unfold scan_hex4.
  rewrite skip_spaces_none by (revert Ha; unfold nr_isxdigit, nr_isspace, nr_isdigit; lia).
  assert (scan_sign (a :: b :: c :: d :: r) = (false, a :: b :: c :: d :: r)) as ->.
  { assert (a ≠ 45 ∧ a ≠ 43) as [? ?] by (revert Ha; unfold nr_isxdigit, nr_isdigit; lia).
    simpl. by destruct (Z.eqb_spec a 45), (Z.eqb_spec a 43). }
  rewrite Nat.sub_diag. change (4 - 0)%nat with 4%nat.
  assert (starts_with (lit "0x") (a :: b :: c :: d :: r) = false) as ->.
  { unfold starts_with. apply bool_decide_eq_false. change (lit "0x") with [48; 120]. simpl. intros [= _ E].
    revert E Hb. unfold nr_tolower, nr_isxdigit, nr_isupper, nr_isdigit. destruct ((65 <=? b) && (b <=? 90)) eqn:Eu; [|lia].
    intros E. assert (b = 65 ∨ b = 66 ∨ b = 67 ∨ b = 68 ∨ b = 69 ∨ b = 70 ∨ 70 < b) as Hcase by lia.
    destruct Hcase as [H|[H|[H|[H|[H|[H|H]]]]]]; [by subst b..|lia]. }
  cbn [andb]. cbn [take span]. rewrite Ha, Hb, Hc, Hd, take_0. cbn [fst span]. by rewrite u32_small by lia.
Qed.

Lemma cont_bits u : 0 ≤ u → Z.land (Z.lor u 0x80) 0xBF = 0x80 + u mod 64.
Proof.
  intros Hu. assert (Z.land (Z.lor u 0x80) 0xBF = Z.lor (Z.land u (Z.ones 6)) 0x80) as ->.
  { change 0xBF with (Z.lor (Z.ones 6) 0x80). apply Z.bits_inj'. intros i Hi.
    rewrite !Z.land_spec, !Z.lor_spec, !Z.land_spec. by destruct (Z.testbit u i), (Z.testbit 0x80 i), (Z.testbit (Z.ones 6) i). }
  rewrite Z.land_ones by lia. change (2 ^ 6) with 64. pose proof (Z.mod_pos_bound u 64 ltac:(lia)).
  change 0x80 with (1 * 2 ^ 7) at 1. rewrite lor_add_shift by lia. lia.
Qed.

Lemma lead_bits : (∀ q, 0 ≤ q < 32 → Z.lor q 0xC0 mod 256 = 0xC0 + q) ∧ (∀ q, 0 ≤ q < 16 → Z.lor q 0xE0 mod 256 = 0xE0 + q).
Proof.
  split; intros q Hq; apply Z.eqb_eq.
  - exact (byte_cases (λ q, Z.lor q 0xC0 mod 256 =? 0xC0 + q) 0 32 eq_refl q Hq).
  - exact (byte_cases (λ q, Z.lor q 0xE0 mod 256 =? 0xE0 + q) 0 16 eq_refl q Hq).
Qed.

(** A unit is written as UTF-8, halves of surrogate pairs on their own too. *)
Lemma transcode_utf8 v : 0 ≤ v < 65536 → (transcode v).1 = utf8 v.
Proof.
  intros Hv. destruct lead_bits as [H2 H3]. unfold transcode, utf8, firstByteMark.
  destruct (Z.ltb_spec v 0x80); [simpl; rewrite Z.lor_0_r, Z.mod_small by lia; done|].
  destruct (Z.ltb_spec v 0x800).
  - cbn [fst Z.eqb Pos.eqb]. rewrite Z.shiftr_div_pow2, cont_bits by lia. change (2 ^ 6) with 64.
    rewrite H2 by (Z.to_euclidean_division_equations; lia). done.
  - destruct (Z.ltb_spec v 0x10000); [|lia]. cbn [fst Z.eqb Pos.eqb]. rewrite !Z.shiftr_div_pow2 by lia.
    change (2 ^ 6) with 64. assert (0 ≤ v / 64) by (apply Z.div_pos; lia). rewrite !cont_bits by lia.
    rewrite Z.div_div by lia. rewrite H3 by (Z.to_euclidean_division_equations; lia). done.
Qed.

Lemma utf8_bytes v : 0 ≤ v < 65536 → Forall is_byte (utf8 v) ∧ (1 ≤ length (utf8 v) ≤ 3)%nat.
Proof.
  intros Hv. unfold utf8, is_byte. destruct (v <? 0x80) eqn:E1, (v <? 0x800) eqn:E2, (v <? 0x10000) eqn:E3; try lia;
    (split; [|simpl; lia]); repeat constructor; Z.to_euclidean_division_equations; lia.
Qed.

(** ** Strings

    The first pass counts at least as many characters as the second writes. *)
Lemma string_length_plain c s n : 32 ≤ c → c ≠ 34 → c ≠ 92 → string_length (c :: s) n = string_length s (n + 1).
Proof.
  intros. simpl. destruct (Z.eqb_spec c 34), (Z.eqb_spec c 92), (Z.ltb_spec c 32); try done; lia.
Qed.

Lemma string_length_hex c s n : nr_isxdigit c = true → string_length (c :: s) n = string_length s (n + 1).
Proof. unfold nr_isxdigit, nr_isdigit. intros. apply string_length_plain; lia. Qed.

(** The second pass over one character or escape. *)
Lemma unescape_step_plain c s len uc out : 32 ≤ c → c ≠ 34 → c ≠ 92 → Z.of_nat (length out) ≤ len →
  unescape (c :: s) len uc out = unescape s len uc (out ++ [c]).
Proof.
  intros. cbn [unescape length]. destruct (Z.eqb_spec c 34), (Z.eqb_spec c 92), (Z.leb_spec c 31); try done; try lia.
  cbn [orb negb]. by destruct (Z.leb_spec (Z.of_nat (length out) + Z.of_nat 1) (len + 1)); [|lia].
Qed.

Lemma unescape_step_escape e s len uc out : e ≠ 117 → Z.of_nat (length out) ≤ len →
  unescape (92 :: e :: s) len uc out = unescape s len uc (out ++ [unescape_char e]).
Proof.
  intros. cbn [unescape length]. change ((92 =? 34) || (92 <=? 31)) with false. change (negb (92 =? 92)) with false. cbv iota.
  destruct (Z.eqb_spec e 117); [done|].
  by destruct (Z.leb_spec (Z.of_nat (length out) + Z.of_nat 1) (len + 1)); [|lia].
Qed.

Lemma unescape_step_unicode a b c d s len uc out : nr_isxdigit a = true → nr_isxdigit b = true →
  nr_isxdigit c = true → nr_isxdigit d = true → Z.of_nat (length out) + 2 ≤ len →
  ∃ uc', unescape (92 :: 117 :: a :: b :: c :: d :: s) len uc out =
    unescape s len uc' (out ++ utf8 (of_hex [a; b; c; d])).
Proof.
  intros Ha Hb Hc Hd Hl. cbn [unescape]. change ((92 =? 34) || (92 <=? 31)) with false.
  change (negb (92 =? 92)) with false. change (117 =? 117) with true. cbv iota.
  destruct (scan_hex4_digits a b c d s Ha Hb Hc Hd) as [-> Hr]. pose proof (transcode_utf8 _ Hr) as Ht.
  destruct (utf8_bytes _ Hr) as [_ Hlen]. destruct (transcode _) as [bytes v']. simpl in Ht. subst bytes.
  destruct (Z.leb_spec (Z.of_nat (length out) + Z.of_nat (length (utf8 (of_hex [a; b; c; d])))) (len + 1)); [|lia].
  by exists (Some v').
Qed.

Lemma unescape_char_byte e : 0 < e < 256 → is_byte (unescape_char e).
Proof. unfold unescape_char, is_byte. intros. repeat case_match; lia. Qed.

(** Where the first pass ends, the second ends too, if the escapes are whole. *)
Record unescaped (ptr : list Z) (n m : Z) : Prop := {
  ue_count : n ≤ m;
  ue_second : ∀ uc out len, Forall is_byte out → Z.of_nat (length out) + (m - n) ≤ len →
    ∃ out' r, unescape ptr len uc out = Done (out', 34 :: r) ∧ Forall is_byte out' ∧ Z.of_nat (length out') ≤ len ∧
      well_escaped r = true ∧ ∃ p, ptr = p ++ 34 :: r;
}.

(** Extending it by one piece of text. *)
Lemma unescaped_extend piece s n k m : 1 ≤ k → unescaped s (n + k) m →
  (∀ uc out len, Z.of_nat (length out) + k ≤ len → Forall is_byte out →
    ∃ uc' bytes, unescape (piece ++ s) len uc out = unescape s len uc' (out ++ bytes) ∧ Forall is_byte bytes ∧
      Z.of_nat (length bytes) ≤ k) →
  unescaped (piece ++ s) n m.
Proof.
  intros Hk [Hc Hs] Hp. split; [lia|]. intros uc out len Hout Hl.
  destruct (Hp uc out len) as (uc' & bytes & -> & Hb & Hlen); [lia|done|].
  destruct (Hs uc' (out ++ bytes) len) as (out' & r & E & Ho & Hl' & Hw & p & Ep);
    [by apply Forall_app|rewrite length_app; lia|].
  exists out', r. split_and!; [done..|]. exists (piece ++ p). by rewrite Ep, app_assoc.
Qed.

Lemma well_escaped_split e r : well_escaped (92 :: e :: r) = true →
  (e ≠ 117 ∧ well_escaped r = true) ∨
  ∃ a b c d s, e = 117 ∧ r = a :: b :: c :: d :: s ∧ nr_isxdigit a = true ∧ nr_isxdigit b = true ∧
    nr_isxdigit c = true ∧ nr_isxdigit d = true ∧ well_escaped s = true.
Proof.
  cbn [well_escaped]. change (92 =? 92) with true. cbv iota. destruct (Z.eqb_spec e 117); [|by left].
  destruct r as [|a [|b [|c [|d s]]]]; try done. intros Hw. right.
  rewrite !andb_true_iff in Hw. destruct Hw as [[[[? ?] ?] ?] ?]. by exists a, b, c, d, s.
Qed.

Lemma unescape_ok k ptr n m : (length ptr ≤ k)%nat → is_cstr ptr → well_escaped ptr = true →
  string_length ptr n = Done m → unescaped ptr n m.
Proof.
  revert ptr n. induction k as [|k IH]; intros ptr n Hk Hc Hw Hs; [by destruct ptr; simpl in *; [|lia]|].
  destruct ptr as [|c ptr]; [done|]. apply Forall_cons in Hc as [Hc0 Hc]. simpl in Hk.
  destruct (decide (c = 34)) as [->|].
  { simpl in Hs. injection Hs as <-. split; [lia|]. intros uc out len Ho Hl. exists out, ptr.
    split_and!; [done|done|lia|by rewrite well_escaped_skip in Hw|]. by exists []. }
  destruct (decide (c = 92)) as [->|].
  - destruct ptr as [|e ptr]; [done|]. apply Forall_cons in Hc as [He Hc]. change (string_length ptr (n + 1) = Done m) in Hs.
    destruct (well_escaped_split _ _ Hw) as [[Hne Hw']|(a & b & c & d & s & -> & -> & Ha & Hb & Hc' & Hd & Hw')].
    + apply (unescaped_extend [92; e] _ _ 1); [done|apply IH; simpl in *; (done || lia)|].
      intros uc out len Hl _. exists uc, [unescape_char e]. split_and!; [apply unescape_step_escape; (done || lia)| |done].
      constructor; [by apply unescape_char_byte|constructor].
    + rewrite !string_length_hex in Hs by done.
      apply (unescaped_extend [92; 117; a; b; c; d] _ _ 5); [done|apply IH; simpl in *|].
      * lia.
      * by repeat (apply Forall_cons in Hc as [_ Hc]).
      * done.
      * rewrite <-Hs. f_equal. lia.
      * intros uc out len Hl _. destruct (unescape_step_unicode a b c d s len uc out Ha Hb Hc' Hd) as [uc' E]; [lia|].
        destruct (scan_hex4_digits a b c d s Ha Hb Hc' Hd) as [_ Hr]. destruct (utf8_bytes _ Hr) as [Hby Hlen].
        exists uc', (utf8 (of_hex [a; b; c; d])). split_and!; [exact E|done|lia].
  - assert (32 ≤ c) as Hge.
    { simpl in Hs. destruct (Z.eqb_spec c 34), (Z.eqb_spec c 92), (Z.ltb_spec c 32); try done; lia. }
    rewrite string_length_plain in Hs by done. rewrite well_escaped_skip in Hw by done.
    apply (unescaped_extend [c] _ _ 1); [done|apply IH; (done || lia)|].
    intros uc out len Hl _. exists uc, [c]. split_and!; [apply unescape_step_plain; (done || lia)| |done].
    constructor; [unfold is_byte; lia|constructor].
Qed.

(** Whatever the escapes are, the second pass goes forward and writes bytes. *)
Lemma scan_hex4_nonneg s v : scan_hex4 s = Some v → 0 ≤ v.
Proof.
  unfold scan_hex4. destruct (scan_sign _) as [neg s']. destruct (if starts_with _ _ && _ then _ else _) as [[z w] s''].
  destruct (span _ _).1; [destruct z; [by intros [= <-]|done]|]. intros [= <-]. apply u32_range.
Qed.

Lemma transcode_bytes v : 0 ≤ v → Forall is_byte (transcode v).1 ∧ 0 ≤ (transcode v).2.
Proof.
  intros Hv. unfold transcode, is_byte.
  assert (∀ x, 0 ≤ x mod 256 < 256) by (intros; apply Z.mod_pos_bound; lia).
  assert (∀ x, 0 ≤ x → 0 ≤ Z.land (Z.lor x 0x80) 0xBF < 256) as Hcont.
  { intros x Hx. rewrite cont_bits by done. pose proof (Z.mod_pos_bound x 64). lia. }
  assert (0 ≤ Z.shiftr v 6) by (by apply Z.shiftr_nonneg).
  assert (0 ≤ Z.shiftr (Z.shiftr v 6) 6) by (by apply Z.shiftr_nonneg).
  destruct (v <? 0x80), (v <? 0x800); simpl; (split; [|done]);
    repeat (apply Forall_nil_2 || apply Forall_cons_2); try apply H; by apply Hcont.
Qed.

Lemma unescape_forward k ptr len uc out : (length ptr ≤ k)%nat → is_cstr ptr → Forall is_byte out →
  from_option (λ v, 0 ≤ v) True uc →
  match unescape ptr len uc out with
  | Done (out', r) => Forall is_byte out' ∧ r `suffix_of` ptr
  | Undefined => True
  | _ => False
  end.
Proof.
  revert ptr uc out. induction k as [|k IH]; intros ptr uc out Hk Hc Ho Hu.
  { destruct ptr; simpl in *; [|lia]. by split. }
  destruct ptr as [|c ptr]; [by split|]. apply Forall_cons in Hc as [Hc0 Hc]. simpl in Hk. cbn [unescape].
  assert (∀ s uc out', (length s ≤ k)%nat → is_cstr s → Forall is_byte out' → from_option (λ v, 0 ≤ v) True uc →
    s `suffix_of` c :: ptr →
    match unescape s len uc out' with
    | Done (out', r) => Forall is_byte out' ∧ r `suffix_of` c :: ptr | Undefined => True | _ => False end) as Hrec.
  { intros s uc' out' ? ? ? ? Hsuf. specialize (IH s uc' out'). destruct (unescape s len uc' out') as [[o r]| | |];
      [|by apply IH..]. destruct IH; [done..|]. split; [done|]. by etransitivity. }
  destruct ((c =? 34) || (c <=? 31)); [by split|].
  destruct (negb (c =? 92)).
  - destruct (_ <=? _); [|done]. apply Hrec; [lia|done| |done|by apply suffix_cons_r].
    apply Forall_app. split; [done|]. constructor; [unfold is_byte; lia|constructor].
  - destruct ptr as [|e ptr]; [done|]. apply Forall_cons in Hc as [He Hc]. simpl in Hk. destruct (e =? 117).
    + destruct (match scan_hex4 ptr with Some v => Some v | None => uc end) as [v|] eqn:Ev; [|done].
      assert (0 ≤ v) as Hv.
      { destruct (scan_hex4 ptr) eqn:E; [injection Ev as <-; by eapply scan_hex4_nonneg|by subst uc]. }
      destruct ptr as [|a [|b [|x [|d ptr]]]]; try done. destruct (transcode_bytes v Hv) as [Hb Hv'].
      destruct (transcode v) as [bytes v']. destruct (_ <=? _); [|done]. simpl in *.
      repeat (apply Forall_cons in Hc as [_ Hc]). apply Hrec; [lia|done|by apply Forall_app|done|].
      by repeat apply suffix_cons_r.
    + destruct (_ <=? _); [|done]. apply Hrec; [lia|done| |done|by repeat apply suffix_cons_r].
      apply Forall_app. split; [done|]. constructor; [by apply unescape_char_byte|constructor].
Qed.

Lemma string_length_outcome k ptr n : (length ptr ≤ k)%nat →
  match string_length ptr n with OutOfFuel => False | Undefined => well_escaped ptr = false | _ => True end.
Proof.
  revert ptr n. induction k as [|k IH]; intros ptr n Hk; [by destruct ptr; simpl in *; [|lia]|].
  destruct ptr as [|c ptr]; [done|]. simpl in Hk. destruct (decide (c = 92)) as [->|].
  - destruct ptr as [|e ptr]; [done|]. simpl in Hk. change (string_length (92 :: e :: ptr) n) with (string_length ptr (n + 1)).
    specialize (IH ptr (n + 1)). destruct (string_length ptr (n + 1)); try by apply IH; lia.
    destruct (well_escaped (92 :: e :: ptr)) eqn:Hw; [|done]. exfalso.
    assert (well_escaped ptr = false) as Hf by (apply IH; lia).
    destruct (well_escaped_split _ _ Hw) as [[_ Hw']|(a & b & c & d & s & -> & -> & Ha & Hb & Hc & Hd & Hw')]; [congruence|].
    rewrite !well_escaped_skip in Hf by (by apply xdigit_no_backslash). congruence.
  - rewrite well_escaped_skip by done. specialize (IH ptr (n + 1)). simpl.
    destruct (c =? 34); [done|]. destruct (Z.eqb_spec c 92); [done|]. destruct (c <? 32); [done|].
    apply IH. lia.
Qed.

Lemma parse_string_spec str : is_cstr str →
  match parse_string str with
  | Done (s, r) => is_cstr s ∧ r `suffix_of` str ∧ (well_escaped str = true → well_escaped r = true)
  | Undefined => well_escaped str = false
  | Failed => True
  | OutOfFuel => False
  end.
Proof.
  intros Hc. destruct str as [|q ptr]; [done|]. apply Forall_cons in Hc as [Hq Hc]. unfold parse_string.
  destruct (Z.eqb_spec q 34) as [->|]; [|done]. cbn [negb]. rewrite well_escaped_skip by done.
  pose proof (string_length_outcome (length ptr) ptr 0 (le_n _)) as Ho.
  destruct (string_length ptr 0) as [m| | |] eqn:Es; try done. cbn [mbind outcome_bind].
  pose proof (unescape_forward (length ptr) ptr m None [] (le_n _) Hc (Forall_nil_2 _) I) as Hf.
  destruct (well_escaped ptr) eqn:Hw.
  - destruct (unescape_ok (length ptr) ptr 0 m (le_n _) Hc Hw Es) as [_ Hs].
    destruct (Hs None [] m (Forall_nil_2 _)) as (out & r & E & Hb & Hl & Hwr & p & Ep); [simpl; lia|].
    rewrite E in Hf |- *. cbn [mbind outcome_bind]. destruct (Z.leb_spec (Z.of_nat (length out)) m); [|lia].
    change (peek (34 :: r)) with 34. change (34 =? 34) with true. cbv iota. cbn [tail]. 
    split; [by apply cstr_is_cstr|]. split; [|done]. exists (34 :: p ++ [34]). by rewrite Ep, <-app_comm_cons, <-app_assoc.
  - destruct (unescape ptr m None []) as [[out r]| | |]; try done. destruct Hf as [Hb Hr].
    cbn [mbind outcome_bind]. destruct (_ <=? m); [|done]. split; [by apply cstr_is_cstr|]. split; [|done]. apply suffix_cons_r.
    destruct (peek r =? 34); [|done]. destruct r as [|x r]; [done|]. by eapply suffix_cons_l.
Qed.

(** ** Values *)

(** [follows s r]: a reader can get from [s] to [r]. *)
Definition follows (s r : list Z) : Prop := r `suffix_of` s ∧ (well_escaped s = true → well_escaped r = true).

Lemma follows_trans a b c : follows a b → follows b c → follows a c.
Proof. intros [H1 H2] [H3 H4]. split; [by etransitivity|auto]. Qed.
Lemma passes_follows s r : passes s r → follows s r.
Proof. intros Hp. split; [|by apply well_escaped_passes]. destruct Hp as (p & -> & _). by exists p. Qed.
Lemma follows_cstr s r : follows s r → is_cstr s → is_cstr r.
Proof. intros [[p ->] _] Hc. by apply Forall_app in Hc as [_ ?]. Qed.
Lemma follows_length s r : follows s r → (length r ≤ length s)%nat.
Proof. intros [Hs _]. by apply suffix_length. Qed.
Lemma follows_skip s : follows s (json_skip s).
Proof. apply passes_follows, passes_skip. Qed.

(** A result for text [value]: a well-formed object and a place further on, or a
    refusal; undefined only for broken escapes or numbers that are too long. *)
Definition good (value : list Z) (res : outcome (nrobj_t * list Z)) : Prop :=
  match res with
  | Done (op, r) => obj_well (λ _, True) op ∧ follows value r
  | Failed => True
  | Undefined => ¬ (well_escaped value = true ∧ (length value < room)%nat)
  | OutOfFuel => False
  end.

Lemma good_follows v x res : follows v x → good x res → good v res.
Proof.
  intros Hf Hg. destruct res as [[op r]| | |]; simpl in *; [|done| |done].
  - destruct Hg as [Ho Hr]. split; [done|by eapply follows_trans].
  - intros [Hw Hl]. apply Hg. pose proof (follows_length _ _ Hf). split; [by apply Hf|lia].
Qed.

Lemma good_bind x res k : good x res →
  (∀ op r, obj_well (λ _, True) op → follows x r → good r (k (op, r))) → good x (res ≫= k).
Proof.
  intros Hg Hk. destruct res as [[op r]| | |]; simpl in *; [|done..].
  destruct Hg as [Ho Hr]. eapply good_follows; [exact Hr|by apply Hk].
Qed.

Lemma good_bind_string x k : is_cstr x →
  (∀ s r, is_cstr s → follows x r → good r (k (s, r))) → good x (parse_string x ≫= k).
Proof.
  intros Hc Hk. pose proof (parse_string_spec x Hc) as Hs. destruct (parse_string x) as [[s r]| | |]; simpl in *; [| |by rewrite Hs; intros [? _]|done].
  - destruct Hs as (Hss & Hr & Hw). assert (follows x r) by by split. eapply good_follows; [done|by apply Hk].
  - done.
Qed.

Section parser_proofs.
Context (radix : Z) (address : list Z → Z).
Hypothesis radix_ok : locale_radix radix.

Lemma parse_number_good stale num : is_cstr num → 0 ≤ stale < 2 ^ 32 → good num (parse_number radix stale num).
Proof.
  intros Hc Hst. unfold parse_number. destruct (strtol num) as [i ret] eqn:E.
  destruct (strtol_spec _ _ _ E) as [Hp Hi].
  assert (good num (Done (OLong i, ret))) as Hlong by (split; [by constructor|by apply passes_follows]).
  destruct ((peek ret =? 46) || (peek ret =? 101) || (peek ret =? 69)).
  - destruct (nr_strtod radix (Some num)) as [[v ret']|] eqn:Ed.
    + destruct (nr_strtod_prefix _ _ _ _ radix_ok Hc Ed) as (e & -> & Hn).
      assert (good num (Done (ODouble v, drop (Z.to_nat e) num))) by (split; [by constructor|by apply passes_follows, passes_drop]).
      by destruct v.
    + intros [_ Hl]. by destruct (nr_strtod_short radix num radix_ok Hc Hl) as [? ?]; simplify_eq.
  - destruct ((i <=? INT_MIN) || (INT_MAX <=? i)) eqn:Er; [done|].
    split; [|by apply passes_follows]. constructor; [|done]. unfold int_range, INT_MIN, INT_MAX in *. lia.
Qed.

(** Adding children keeps containers well formed. *)
Lemma push_element_well a es child : obj_well (λ _, True) (OArray a es) → obj_well (λ _, True) child →
  push_element (OArray a es) child = OArray (grown (Z.of_nat (length es)) a) (es ++ [child]) ∧
  obj_well (λ _, True) (push_element (OArray a es) child).
Proof.
  intros Ha Hc. inversion Ha as [| | | | | | | | |? ? Hl He]; subst. split; [done|].
  constructor; [|by apply Forall_app; split; [|constructor]].
  rewrite length_app, Nat2Z.inj_add. by apply grown_room.
Qed.

Lemma put_element_well a es key child : obj_well (λ _, True) (OHash a es) → is_cstr key → obj_well (λ _, True) child →
  ∃ a' es', put_element (OHash a es) key child = OHash a' es' ∧ obj_well (λ _, True) (OHash a' es').
Proof.
  intros Ha Hk Hc. unfold put_element.
  destruct (setvalue_hash_cases _ a es (Some key) child Ha Hk Hc) as [[_ ->]|(k & a' & es' & _ & -> & Hok & _)]; simpl; eauto.
Qed.

Lemma empty_array_well a : 0 ≤ a → obj_well (λ _, True) (OArray a []).
Proof. intros. by constructor. Qed.
Lemma empty_hash_well a : 0 ≤ a → obj_well (λ _, True) (OHash a []).
Proof. intros. constructor; simpl; [lia|constructor..]. Qed.

Lemma stale_half_range key : 0 ≤ stale_half address key < 2 ^ 32.
Proof. apply Z.mod_pos_bound. lia. Qed.

(** A delimiter is consumed, then white space. *)
Lemma after_char c s : peek s = c → c ≠ 0 → c ≠ 92 →
  follows s (json_skip (tail s)) ∧ (length (json_skip (tail s)) < length s)%nat.
Proof.
  intros Hs H0 H92. destruct (passes_tail c s Hs H0 H92) as [Hp Hl].
  pose proof (passes_length _ _ (passes_skip (tail s))). split; [|lia].
  eapply follows_trans; [by apply passes_follows|apply follows_skip].
Qed.

Definition enough (fuel : nat) (s : list Z) : Prop := (2 * length s + 1 ≤ fuel)%nat.

(** What is claimed of the five functions, at one amount of fuel. *)
Record parsers_good (fuel : nat) : Prop := {
  pg_value : ∀ stale value, is_cstr value → 0 ≤ stale < 2 ^ 32 → enough fuel value →
    good value (parse_value radix address fuel stale value);
  pg_array : ∀ value, is_cstr value → peek value = 91 → enough (S fuel) value →
    good value (parse_array radix address fuel value);
  pg_elements : ∀ a es value, obj_well (λ _, True) (OArray a es) → is_cstr value → enough fuel value →
    good value (parse_elements radix address fuel (OArray a es) value);
  pg_object : ∀ value, is_cstr value → peek value = 123 → enough (S fuel) value →
    good value (parse_object radix address fuel value);
  pg_members : ∀ a es value, obj_well (λ _, True) (OHash a es) → is_cstr value → enough fuel value →
    good value (parse_members radix address fuel (OHash a es) value);
}.

Ltac cstr_follows := match goal with H : follows ?s ?r, Hc : is_cstr ?s |- is_cstr ?r => exact (follows_cstr s r H Hc) end.

(** A value after text that was passed. *)
Lemma value_step fuel stale v x (k : nrobj_t * list Z → outcome (nrobj_t * list Z)) : parsers_good fuel →
  follows v x → is_cstr v → 0 ≤ stale < 2 ^ 32 → enough fuel x →
  (∀ op r, obj_well (λ _, True) op → follows x r → is_cstr r → (length r ≤ length x)%nat → good r (k (op, r))) →
  good v (parse_value radix address fuel stale x ≫= k).
Proof.
  intros Hg Hf Hc Hst He Hk. eapply good_follows; [exact Hf|]. assert (is_cstr x) as Hx by cstr_follows.
  apply good_bind; [by apply (pg_value _ Hg)|]. intros op r Ho Hr. apply Hk; [done|done|cstr_follows|by apply follows_length].
Qed.

(** The rest of a container, behind white space. *)
Lemma rest_elements fuel a es r : parsers_good fuel → obj_well (λ _, True) (OArray a es) → is_cstr r → enough fuel r →
  good r (parse_elements radix address fuel (OArray a es) (json_skip r)).
Proof.
  intros Hg Ho Hc He. pose proof (follows_skip r) as Hf. eapply good_follows; [exact Hf|].
  apply (pg_elements _ Hg); [done|cstr_follows|]. apply follows_length in Hf. unfold enough in *. lia.
Qed.

Lemma rest_members fuel a es r : parsers_good fuel → obj_well (λ _, True) (OHash a es) → is_cstr r → enough fuel r →
  good r (parse_members radix address fuel (OHash a es) (json_skip r)).
Proof.
  intros Hg Ho Hc He. pose proof (follows_skip r) as Hf. eapply good_follows; [exact Hf|].
  apply (pg_members _ Hg); [done|cstr_follows|]. apply follows_length in Hf. unfold enough in *. lia.
Qed.

(** A key, a colon, a value and the members after it. *)
Lemma member_step fuel (half : list Z → Z) a es x : parsers_good fuel → obj_well (λ _, True) (OHash a es) →
  is_cstr x → enough fuel x → (∀ k, 0 ≤ half k < 2 ^ 32) →
  good x ('(key, value) ← parse_string x;
    let value := json_skip value in
    if negb (peek value =? 58) then Failed
    else '(child, value) ← parse_value radix address fuel (half key) (json_skip (tail value));
         parse_members radix address fuel (put_element (OHash a es) key child) (json_skip value)).
Proof.
  intros Hg Ho Hx He Hh. apply good_bind_string; [done|]. intros key r Hk Hr. cbv zeta.
  assert (is_cstr r) as Hrc by cstr_follows. pose proof (follows_length _ _ Hr) as Hrl.
  pose proof (follows_skip r) as Hs. pose proof (follows_length _ _ Hs) as Hsl. eapply good_follows; [exact Hs|].
  assert (is_cstr (json_skip r)) as Hsc by cstr_follows.
  destruct (Z.eqb_spec (peek (json_skip r)) 58) as [Ep|]; [|done]. cbn [negb].
  destruct (after_char 58 _ Ep) as [Hf Hl]; [done..|].
  apply value_step; [done|done|done|apply Hh|unfold enough in *; lia|]. intros op r' Hop Hr' Hrc' Hl'.
  destruct (put_element_well a es key op Ho Hk Hop) as (a' & es' & -> & Hok).
  apply rest_members; [done..|]. unfold enough in *. lia.
Qed.

Lemma value_good fuel stale value : parsers_good fuel → is_cstr value → 0 ≤ stale < 2 ^ 32 → enough (S fuel) value →
  good value (parse_value radix address (S fuel) stale value).
Proof.
  intros IH Hc Hst He. cbn [parse_value].
  assert (∀ w, nr_strncmp (Some value) (Some w) (Z.of_nat (length w)) = 0 → is_cstr w → no_backslash w →
    follows value (drop (length w) value)) as Hword.
  { intros w E Hw Hn. apply passes_follows, passes_drop.
    unfold nr_strncmp, strncmp in E. destruct (Z.ltb_spec 0 (Z.of_nat (length w))).
    - rewrite Nat2Z.id, (take_ge w) in E by lia. apply strcmp_eq in E as ->; [done|by apply is_cstr_take|done].
    - replace (length w) with 0%nat by lia. constructor. }
  destruct (Z.eqb_spec (nr_strncmp (Some value) (Some (lit "null")) 4) 0) as [E|_].
  { split; [constructor|]. apply (Hword (lit "null")); [done|by repeat constructor..]. }
  destruct (Z.eqb_spec (nr_strncmp (Some value) (Some (lit "false")) 5) 0) as [E|_].
  { split; [by constructor|]. apply (Hword (lit "false")); [done|by repeat constructor..]. }
  destruct (Z.eqb_spec (nr_strncmp (Some value) (Some (lit "true")) 4) 0) as [E|_].
  { split; [by constructor|]. apply (Hword (lit "true")); [done|by repeat constructor..]. }
  destruct (peek value =? 34).
  { apply good_bind_string; [done|]. intros s r Hs Hr. split; [by constructor|]. by apply passes_follows. }
  destruct ((peek value =? 45) || _); [by apply parse_number_good|].
  destruct (Z.eqb_spec (peek value) 91); [by apply (pg_array _ IH)|].
  destruct (Z.eqb_spec (peek value) 123); [by apply (pg_object _ IH)|done].
Qed.

Lemma array_good fuel value : parsers_good fuel → is_cstr value → peek value = 91 → enough (S (S fuel)) value →
  good value (parse_array radix address (S fuel) value).
Proof.
  intros IH Hc Hp He. cbn [parse_array]. cbv zeta. destruct (after_char 91 value Hp) as [Hf Hl]; [done..|].
  assert (is_cstr (json_skip (tail value))) as Hsc by cstr_follows.
  destruct (Z.eqb_spec (peek (json_skip (tail value))) 93) as [Ep|].
  { split; [by apply empty_array_well|]. eapply follows_trans; [exact Hf|]. apply passes_follows.
    by apply (passes_tail 93). }
  pose proof (follows_skip (json_skip (tail value))) as Hs. pose proof (follows_length _ _ Hs).
  apply value_step; [done|by eapply follows_trans|done|done|unfold enough in *; lia|].
  intros op r Hop Hr Hrc Hrl. destruct (push_element_well NRO_CHUNK_SIZE [] op) as [-> Hok];
    [by apply empty_array_well|done|]. apply rest_elements; [done|done|done|unfold enough in *; lia].
Qed.

Lemma elements_good fuel a es value : parsers_good fuel → obj_well (λ _, True) (OArray a es) → is_cstr value →
  enough (S fuel) value → good value (parse_elements radix address (S fuel) (OArray a es) value).
Proof.
  intros IH Ho Hc He. cbn [parse_elements].
  destruct (Z.eqb_spec (peek value) 44) as [Ep|]; [|destruct (Z.eqb_spec (peek value) 93) as [Ep|]; [|done]].
  + destruct (after_char 44 value Ep) as [Hf Hl]; [done..|].
    apply value_step; [done|done|done|done|unfold enough in *; lia|]. intros op r Hop Hr Hrc Hrl.
    destruct (push_element_well a es op Ho Hop) as [E Hok]. rewrite E in Hok |- *.
    apply rest_elements; [done|done|done|unfold enough in *; lia].
  + split; [done|]. apply passes_follows. by apply (passes_tail 93).
Qed.

Lemma object_good fuel value : parsers_good fuel → is_cstr value → peek value = 123 → enough (S (S fuel)) value →
  good value (parse_object radix address (S fuel) value).
Proof.
  intros IH Hc Hp He. cbn [parse_object]. cbv zeta. destruct (after_char 123 value Hp) as [Hf Hl]; [done..|].
  assert (is_cstr (json_skip (tail value))) as Hsc by cstr_follows.
  destruct (Z.eqb_spec (peek (json_skip (tail value))) 125) as [Ep|].
  { split; [by apply empty_hash_well|]. eapply follows_trans; [exact Hf|]. apply passes_follows.
    by apply (passes_tail 125). }
  pose proof (follows_skip (json_skip (tail value))) as Hs. pose proof (follows_length _ _ Hs).
  assert (is_cstr (json_skip (json_skip (tail value)))) as Hc2 by cstr_follows.
  eapply good_follows; [by eapply follows_trans|].
  apply (member_step fuel (λ _, 0)); [done|by apply empty_hash_well|done|unfold enough in *; lia|done].
Qed.

Lemma members_good fuel a es value : parsers_good fuel → obj_well (λ _, True) (OHash a es) → is_cstr value →
  enough (S fuel) value → good value (parse_members radix address (S fuel) (OHash a es) value).
Proof.
  intros IH Ho Hc He. cbn [parse_members].
  destruct (Z.eqb_spec (peek value) 44) as [Ep|]; [|destruct (Z.eqb_spec (peek value) 125) as [Ep|]; [|done]].
  + destruct (after_char 44 value Ep) as [Hf Hl]; [done..|]. assert (is_cstr (json_skip (tail value))) by cstr_follows.
    eapply good_follows; [exact Hf|].
    apply (member_step fuel (stale_half address)); [done|done|done|unfold enough in *; lia|apply stale_half_range].
  + split; [done|]. apply passes_follows. by apply (passes_tail 125).
Qed.

Lemma parsers_are_good fuel : parsers_good fuel.
Proof.
  induction fuel as [|fuel IH].
  - split; unfold enough; intros; [lia|destruct value; simpl in *; [done|lia]|lia|destruct value; simpl in *; [done|lia]|lia].
  - split; intros; [by apply value_good|by apply array_good|by apply elements_good|by apply object_good|by apply members_good].
Qed.
End parser_proofs.

(** C33: Reading JSON text ends, and is safe on text with whole escapes.  For every text
    [nro_create_from_json] comes to an end and returns an object or [NULL]; an object it returns is well formed, with
    distinct non-empty keys.  Memory behind the text or behind the block of a decoded string is never touched, and no
    number read before it is assigned, if every backslash is followed by a character, backslash u by four hexadecimal
    digits, and the text is shorter than the copy [nr_strtod] makes. *)
Theorem nro_create_from_json_safe (radix : Z) (address : list Z → Z) (json : list Z) :
  locale_radix radix → is_cstr json →
  let res := nro_create_from_json radix address (Some json) in
  (res = Undefined ∨ ∃ o, res = Done o ∧ from_option (obj_well (λ _, True)) True o) ∧
  (well_escaped json = true → Z.of_nat (length json) < BUFSIZ - 1 → res ≠ Undefined).
Proof.
  intros Hx Hc res. unfold res, nro_create_from_json. destruct (peek json =? 0); [by split; [right; exists None|]|].
  pose proof (follows_skip json) as Hf. pose proof (follows_length _ _ Hf).
  assert (good (json_skip json) (parse_value radix address (2 * length json + 2) 0 (json_skip json))) as Hg.
  { apply (pg_value _ _ _ (parsers_are_good radix address Hx _)); [by eapply follows_cstr|done|unfold enough; lia]. }
  apply (good_follows _ _ _ Hf) in Hg. pose proof buffer_size.
  destruct (parse_value _ _ _ _ _) as [[op next]| | |]; simpl in Hg; [| | |done].
  - split; [right|done]. eexists. split; [done|]. destruct (negb _); [done|]. by destruct Hg.
  - split; [right; by exists None|done].
  - split; [by left|]. intros Hw Hl. destruct Hg. split; [done|lia].
Qed.

Lemma nro_create_from_json_safe_witness :
  nro_create_from_json 46 (λ _, 0) (Some [34; 92; 117; 48; 48; 101; 57; 34]) ≠ Undefined ∧
  nro_create_from_json 46 (λ _, 0) (Some [34; 92; 117; 49; 34]) = Undefined.
Proof.
  split; [|vm_compute; reflexivity].
  apply (nro_create_from_json_safe 46 (λ _, 0) [34; 92; 117; 48; 48; 101; 57; 34]); [by left|by repeat constructor|done|].
  rewrite buffer_size, room_value. simpl. lia.
Defined.
