(* ===== verification/ObjectRoundtrip.v ===== *)
(** * ObjectRoundtrip: what is written is read back (src/axiom/util_object.c)

    The string reader agrees with the JSON grammar of strings, and objects
    without preformatted JSON are read back from their text, up to what the
    text does not say. *)

From S2P Require Import Prelude Memory CString Strings Double Json Buffer Object ObjectJson ObjectParse.
Local Open Scope Z_scope.
#[local] Set Warnings "-register-all,-clear-no-such-hyp".

(** ** Strings of the grammar *)
Lemma hex_value_xdigit c v : hex_value c = Some v → nr_isxdigit c = true ∧ hex_digit_value c = v ∧ 0 ≤ v < 16.
Proof.
  unfold hex_value, nr_isxdigit, hex_digit_value, nr_isdigit, nr_islower.
  destruct ((48 <=? c) && (c <=? 57)) eqn:E1; [intros [= <-]; split_and!; [done|done|lia..]|].
  destruct ((97 <=? c) && (c <=? 102)) eqn:E2; [|done]. intros [= <-].
  assert ((97 <=? c) && (c <=? 122) = true) as -> by lia. split_and!; [by rewrite orb_true_r|done|lia..].
Qed.

Lemma hex4_value_digits a b c d v : hex4_value a b c d = Some v →
  nr_isxdigit a = true ∧ nr_isxdigit b = true ∧ nr_isxdigit c = true ∧ nr_isxdigit d = true ∧
  of_hex [a; b; c; d] = v ∧ 0 ≤ v < 65536.
Proof.
  unfold hex4_value. destruct (hex_value a) as [x|] eqn:Ea; [|done]. destruct (hex_value b) as [y|] eqn:Eb; [|done].
  destruct (hex_value c) as [z|] eqn:Ec; [|done]. destruct (hex_value d) as [w|] eqn:Ed; [|done].
  intros [= <-]. destruct (hex_value_xdigit _ _ Ea) as (-> & Ha & ?), (hex_value_xdigit _ _ Eb) as (-> & Hb & ?),
    (hex_value_xdigit _ _ Ec) as (-> & Hc & ?), (hex_value_xdigit _ _ Ed) as (-> & Hd & ?).
  unfold of_hex. simpl. rewrite Ha, Hb, Hc, Hd. split_and!; [done..|lia|lia].
Qed.

Lemma simple_escape_char e v : simple_escape e = Some v → e ≠ 117 → unescape_char e = v ∧ utf8 v = [v] ∧ 0 ≤ v < 65536.
Proof.
  unfold simple_escape, unescape_char. intros He Hne.
  repeat (match type of He with context [?a =? ?b] => destruct (Z.eqb_spec a b) as [->|] in He |- * end;
    [injection He as <-; by repeat split|]). done.
Qed.

(** The two passes over the characters of a string and its closing quote: the
    first counts [k] characters, the second fits in them. *)
Record decodes (body us : list Z) (k : Z) : Prop := {
  dc_first : ∀ rest n, string_length (body ++ rest) n = Done (n + k);
  dc_second : ∀ rest uc out len, Z.of_nat (length out) + k ≤ len →
    unescape (body ++ rest) len uc out = Done (out ++ flat_map utf8 us, 34 :: rest);
  dc_fits : Z.of_nat (length (flat_map utf8 us)) ≤ k;
}.

(** One more character or escape in front, counted [j] times. *)
Lemma decodes_cons piece body u us j k : decodes body us k → Z.of_nat (length (utf8 u)) ≤ j →
  (∀ rest n, string_length (piece ++ rest) n = string_length rest (n + j)) →
  (∀ rest uc out len, Z.of_nat (length out) + j ≤ len →
    ∃ uc', unescape (piece ++ rest) len uc out = unescape rest len uc' (out ++ utf8 u)) →
  decodes (piece ++ body) (u :: us) (j + k).
Proof.
  intros [H1 H2 H3] Hj Hf Hs. split.
  - intros rest n. rewrite <-app_assoc, Hf, H1. f_equal. lia.
  - intros rest uc out len Hl. rewrite <-app_assoc. destruct (Hs (body ++ rest) uc out len) as [uc' ->]; [lia|].
    rewrite H2 by (rewrite length_app; lia). by rewrite <-app_assoc.
  - cbn [flat_map]. rewrite length_app. lia.
Qed.

Lemma json_chars_decodes n body us : (length body ≤ n)%nat → json_chars body = Some us → ∃ k, decodes body us k.
Proof.
  revert body us. induction n as [|n IH]; intros body us Hn Hj; [by destruct body; simpl in *; [|lia]|].
  destruct body as [|c body]; [done|]. cbn [json_chars] in Hj. simpl in Hn.
  destruct (Z.eqb_spec c 34) as [->|].
  { destruct body; [|done]. injection Hj as <-. exists 0. split; [|by intros; rewrite app_nil_r|done].
    intros rest m. by rewrite Z.add_0_r. }
  destruct (Z.eqb_spec c 92) as [->|].
  - destruct body as [|e body]; [done|]. simpl in Hn. destruct (Z.eqb_spec e 117) as [->|].
    + destruct body as [|a [|b [|c [|d body]]]]; try done. simpl in Hn.
      destruct (hex4_value a b c d) as [v|] eqn:Ev; [|done]. cbn [mbind option_bind] in Hj.
      destruct (json_chars body) as [us'|] eqn:Eus; [|done]. injection Hj as <-.
      destruct (hex4_value_digits _ _ _ _ _ Ev) as (Ha & Hb & Hc & Hd & Hv & Hr).
      destruct (IH body us') as [k Hk]; [lia|done|]. destruct (utf8_bytes v Hr) as [_ Hl].
      exists (5 + k). apply (decodes_cons [92; 117; a; b; c; d]); [done|lia| |].
      * intros rest m. cbn [app]. change (string_length (92 :: 117 :: a :: b :: c :: d :: rest) m)
          with (string_length (a :: b :: c :: d :: rest) (m + 1)). rewrite !string_length_hex by done. f_equal. lia.
      * intros rest uc out len Ho. rewrite <-Hv. apply unescape_step_unicode; (done || lia).
    + destruct (simple_escape e) as [v|] eqn:Ev; [|done]. cbn [mbind option_bind] in Hj.
      destruct (json_chars body) as [us'|] eqn:Eus; [|done]. injection Hj as <-.
      destruct (simple_escape_char e v Ev ltac:(done)) as (Hc & Hu & _).
      destruct (IH body us') as [k Hk]; [lia|done|].
      exists (1 + k). apply (decodes_cons [92; e]); [done|by rewrite Hu|done|].
      intros rest uc out len Ho. exists uc. rewrite Hu, <-Hc. apply unescape_step_escape; (done || lia).
  - destruct ((32 <=? c) && (c <? 128)) eqn:Er; [|done]. apply andb_true_iff in Er as [Er1%Z.leb_le Er2%Z.ltb_lt].
    destruct (json_chars body) as [us'|] eqn:Eus; [|done]. injection Hj as <-.
    destruct (IH body us') as [k Hk]; [lia|done|].
    assert (utf8 c = [c]) as Hu by (unfold utf8; by destruct (Z.ltb_spec c 0x80); [|lia]).
    exists (1 + k). apply (decodes_cons [c]); [done|by rewrite Hu|intros; by apply string_length_plain|].
    intros rest uc out len Ho. exists uc. rewrite Hu. apply unescape_step_plain; (done || lia).
Qed.

Lemma parse_string_grammar l us rest : json_string l = Some us →
  parse_string (l ++ rest) = Done (cstr (flat_map utf8 us), rest).
Proof.
  unfold json_string. destruct l as [|c l]; [done|]. destruct (Z.eqb_spec c 34) as [->|]; [|done]. intros Hj.
  destruct (json_chars_decodes (length l) l us (le_n _) Hj) as (k & [H1 H2 H3]).
  unfold parse_string. cbn [app]. rewrite Z.eqb_refl. cbn [negb]. rewrite H1. cbn [mbind outcome_bind].
  rewrite H2 by (simpl; lia). cbn [mbind outcome_bind app].
  by destruct (Z.leb_spec (Z.of_nat (length (flat_map utf8 us))) (0 + k)); [|lia].
Qed.

(** The string reader agrees with the JSON grammar. Every ASCII string of the grammar, whatever
    follows it, is read to its end without touching memory outside its block, and gives the bytes of its UTF-16
    units, each written as UTF-8 on its own, up to the first NUL among them: characters outside the basic
    plane come out as two encoded surrogates. *)
Theorem parse_string_reads_grammar (l us rest : list Z) :
  json_string l = Some us → parse_string (l ++ rest) = Done (cstr (flat_map utf8 us), rest).
Proof. apply parse_string_grammar. Qed.

Lemma parse_string_reads_grammar_witness :
  parse_string ([34; 97; 92; 117; 48; 48; 101; 57; 92; 110; 34] ++ [44]) = Done ([97; 195; 169; 10], [44]).
Proof. apply (parse_string_reads_grammar [34; 97; 92; 117; 48; 48; 101; 57; 92; 110; 34] [97; 233; 10]). reflexivity. Defined.

(** ** Texts in the basic plane *)
Definition text_ok (s : list Z) : Prop :=
  ∃ cps, s = flat_map utf8 cps ∧ Forall (λ cp, scalar_value cp ∧ cp < 0x10000) cps.

Lemma utf8_cstr cp : scalar_value cp → cp < 0x10000 → is_cstr (utf8 cp).
Proof.
  unfold scalar_value, utf8. intros Hs Hc. destruct (Z.ltb_spec cp 0x80), (Z.ltb_spec cp 0x800), (Z.ltb_spec cp 0x10000);
    try lia; repeat (apply Forall_cons_2 || apply Forall_nil_2); Z.to_euclidean_division_equations; lia.
Qed.

Lemma text_cstr s : text_ok s → is_cstr s.
Proof.
  intros (cps & -> & Hc). induction Hc as [|cp cps [Hs Hb] _ IH]; [constructor|].
  apply Forall_app. split; [by apply utf8_cstr|done].
Qed.

Lemma escaped_grammar s : text_ok s → ∃ us, json_string (escaped (Some s)) = Some us ∧ flat_map utf8 us = s.
Proof.
  intros (cps & -> & Hc). exists cps. split; [|done].
  assert (Forall scalar_value cps) as Hs by (eapply Forall_impl; [exact Hc|naive_solver]).
  unfold escaped. simpl. rewrite escape_loop_utf8 by done. simpl. rewrite app_nil_r. f_equal.
  induction Hc as [|cp cps [_ Hb] _ IH]; [done|]. apply Forall_cons in Hs as [_ Hs]. simpl.
  assert (utf16 cp = [cp]) as -> by (unfold utf16; by destruct (Z.ltb_spec cp 0x10000); [|lia]). simpl. by rewrite IH.
Qed.

Lemma parse_escaped s rest : text_ok s → parse_string (escaped (Some s) ++ rest) = Done (s, rest).
Proof.
  intros Hs. destruct (escaped_grammar s Hs) as (us & E & Eu).
  rewrite (parse_string_grammar _ _ _ E), Eu, cstr_id by by apply text_cstr. done.
Qed.

(** ** Decimal numbers *)
Lemma decimal_loop_lead fuel v acc : 0 < v < 10 ^ Z.of_nat fuel →
  ∃ d ds, decimal_loop fuel v acc = d :: ds ∧ d ≠ 48.
Proof.
  revert v acc. induction fuel as [|fuel IH]; intros v acc Hv; [simpl in Hv; lia|].
  cbn [decimal_loop]. pose proof (Z.div_mod v 10). pose proof (Z.mod_pos_bound v 10).
  destruct (Z.eqb_spec (v / 10) 0) as [E|E]; [eexists _, _; split; [done|lia]|].
  apply IH. rewrite Nat2Z.inj_succ, Z.pow_succ_r in Hv by lia.
  assert (0 ≤ v / 10) by (apply Z.div_pos; lia). split; [lia|]. apply Z.div_lt_upper_bound; lia.
Qed.

(** Digits as the writer makes them. *)
Definition written_digits (ds : list Z) : Prop :=
  is_digits ds ∧ (ds = [48] ∨ ∃ d ds', ds = d :: ds' ∧ d ≠ 48).

Lemma decimal_written fuel v : (0 < fuel)%nat → 0 ≤ v < 10 ^ Z.of_nat fuel →
  written_digits (decimal_loop fuel v []) ∧ of_decimal (decimal_loop fuel v []) = v.
Proof.
  intros Hf Hv. destruct (decimal_loop_acc fuel v [] Hv) as (ds & E & _ & Hd & Ho). rewrite app_nil_r in E.
  split; [|by rewrite E]. split.
  - rewrite E. eapply Forall_impl; [exact Hd|]. unfold nr_isdigit. simpl. lia.
  - destruct (decide (v = 0)) as [->|]; [left; by destruct fuel; [lia|]|].
    right. apply decimal_loop_lead. lia.
Qed.

Lemma strtol_written neg ds r : written_digits ds → stops r →
  strtol (sign_text neg ++ ds ++ r) = (saturate (if neg then - of_decimal ds else of_decimal ds), r).
Proof.
  intros [Hd Hlead] Hr. assert (ds ≠ []) as Hne by (destruct Hlead as [->|(d & ds' & -> & _)]; done).
  unfold strtol. rewrite scan_sign_text by done.
  rewrite not_hex; [|done|done|destruct r; simpl in *; tauto]. cbn [andb].
  assert (match r with [] => True | c :: _ => nr_isdigit c = false end) as Hr1 by (destruct r; simpl in *; tauto).
  destruct Hlead as [->|(d & ds' & -> & Hd48)].
  - change (peek ([48] ++ r)) with 48. rewrite Z.eqb_refl.
    rewrite (span_app is_octal [48] r); [done|by repeat constructor|].
    destruct r as [|c r]; [done|]. revert Hr1. unfold is_octal, nr_isdigit. lia.
  - change (peek ((d :: ds') ++ r)) with d. destruct (Z.eqb_spec d 48); [done|]. by rewrite span_app.
Qed.

(** ** What is read back

    Numbers that [int] does not hold strictly become longs; the half of an [int]
    nobody writes is what was there; doubles keep five places. *)
Section roundtrip.
Context (radix : Z) (address : list Z → Z).
Hypothesis radix_ok : locale_radix radix.

Definition reread_int (stale x : Z) : nrobj_t := if (x <=? INT_MIN) || (INT_MAX <=? x) then OLong x else OInt x stale.

Definition chunks (n : nat) : Z := match n with O => 1 | _ => (Z.of_nat n + 7) / 8 * 8 end.

Fixpoint reread (stale : Z) (op : nrobj_t) : nrobj_t :=
  match op with
  | ONone => ONone
  | OBoolean i => OBoolean (if i =? 0 then 0 else 1)
  | OInt i _ => reread_int stale i
  | OLong l => reread_int stale l
  | OUlong u => reread_int stale (saturate u)
  | ODouble d => match printed d with Some (s, v) => ODouble (of_decimal_scientific s v (-5)) | None => ONone end
  | OString s => OString s
  | OJstring s => OJstring s
  | OHash _ es =>
      OHash (chunks (length es))
        match es with
        | [] => []
        | (k, v) :: es => (k, reread 0 v) :: ((λ '(k, v), (k, reread (stale_half address k) v)) <$> es)
        end
  | OArray _ es => OArray (chunks (length es)) (reread 0 <$> es)
  end.

(** The objects that JSON can hold; a double must not be read as infinite. *)
Inductive jsonable : nrobj_t → Prop :=
| js_none : jsonable ONone
| js_boolean i : jsonable (OBoolean i)
| js_int i h : int_range i → jsonable (OInt i h)
| js_long l : long_range l → jsonable (OLong l)
| js_ulong u : 0 ≤ u < 2 ^ 64 → jsonable (OUlong u)
| js_double d s v : SpecFloat.valid_binary prec emax d = true → printed d = Some (s, v) →
    (∀ s', of_decimal_scientific s v (-5) ≠ SpecFloat.S754_infinity s') → jsonable (ODouble d)
| js_string s : text_ok s → jsonable (OString (Some s))
| js_hash a es : NoDup es.*1 → Forall (λ k, text_ok k ∧ k ≠ []) es.*1 → Forall jsonable es.*2 → jsonable (OHash a es)
| js_array a es : Forall jsonable es → jsonable (OArray a es).

(** What follows a value inside its container. *)
Definition delimited (rest : list Z) : Prop := match rest with [] => True | c :: _ => c = 44 ∨ c = 93 ∨ c = 125 end.

Lemma delimited_ends rest : delimited rest → ends_number rest ∧ stops rest ∧ json_skip rest = rest.
Proof.
  intros Hd. assert (ends_number rest) as He by (destruct rest as [|c r]; simpl in *; tauto).
  split; [done|]. split; [by apply ends_stops|]. destruct rest as [|c r]; [done|]. simpl in *.
  by destruct (Z.ltb_spec 0 c), (Z.leb_spec c 32); [lia| | |].
Qed.

Lemma skip_text c s : 32 < c → json_skip (c :: s) = c :: s.
Proof. intros. simpl. by destruct (Z.ltb_spec 0 c), (Z.leb_spec c 32); [lia| | |]. Qed.

(** *** Numbers *)
Lemma parse_written stale neg ds r : written_digits ds → delimited r →
  parse_number radix stale (sign_text neg ++ ds ++ r) =
    Done (reread_int stale (saturate (if neg then - of_decimal ds else of_decimal ds)), r).
Proof.
  intros Hd Hr. destruct (delimited_ends r Hr) as (_ & Hs & _). unfold parse_number.
  rewrite strtol_written by done. set (x := saturate _).
  assert ((peek r =? 46) || (peek r =? 101) || (peek r =? 69) = false) as ->.
  { destruct r as [|c r]; [done|]. change (peek (c :: r)) with c. simpl in Hr. lia. }
  unfold reread_int. by destruct ((x <=? INT_MIN) || (INT_MAX <=? x)).
Qed.

Lemma signed_decimal_written x : long_range x →
  ∃ neg ds, signed_decimal x = sign_text neg ++ ds ∧ written_digits ds ∧
    saturate (if neg : bool then - of_decimal ds else of_decimal ds) = x.
Proof.
  unfold long_range, signed_decimal, saturate. intros Hx.
  assert (2 ^ 64 < 10 ^ Z.of_nat 20) by by vm_compute.
  destruct (Z.ltb_spec x 0).
  - destruct (decimal_written 20 (- x)) as [Hw Ho]; [lia..|]. exists true, (decimal (- x)).
    split_and!; [done|done|]. unfold decimal. rewrite Ho. lia.
  - destruct (decimal_written 20 x) as [Hw Ho]; [lia..|]. exists false, (decimal x).
    split_and!; [done|done|]. unfold decimal. rewrite Ho. lia.
Qed.

Lemma parse_signed stale x r : long_range x → delimited r →
  parse_number radix stale (signed_decimal x ++ r) = Done (reread_int stale x, r).
Proof.
  intros Hx Hr. destruct (signed_decimal_written x Hx) as (neg & ds & -> & Hw & E).
  rewrite <-app_assoc, parse_written by done. by rewrite E.
Qed.

Lemma parse_unsigned stale u r : 0 ≤ u < 2 ^ 64 → delimited r →
  parse_number radix stale (decimal u ++ r) = Done (reread_int stale (saturate u), r).
Proof.
  intros Hu Hr. assert (2 ^ 64 < 10 ^ Z.of_nat 20) by by vm_compute.
  destruct (decimal_written 20 u) as [Hw Ho]; [lia..|].
  change (decimal u ++ r) with (sign_text false ++ decimal u ++ r). rewrite parse_written by done.
  unfold decimal. by rewrite Ho.
Qed.

Lemma parse_double stale d s v r : SpecFloat.valid_binary prec emax d = true → printed d = Some (s, v) →
  (∀ s', of_decimal_scientific s v (-5) ≠ SpecFloat.S754_infinity s') → delimited r → is_cstr r →
  parse_number radix stale (format_5f 46 d ++ r) = Done (ODouble (of_decimal_scientific s v (-5)), r).
Proof.
  intros Hv Hp Hinf Hr Hc. destruct (delimited_ends r Hr) as (He & _ & _). unfold parse_number.
  destruct (printed_bound d s v Hv Hp) as [Hv0 Hvb].
  destruct (format_shape d) as [(Hp' & _)|(s' & v' & Hp' & E)]; [by rewrite Hp in Hp'|].
  rewrite Hp in Hp'. injection Hp' as <- <-.
  assert (∃ r', strtol (format_5f 46 d ++ r) = (saturate (if s then - (v / 100000) else v / 100000), 46 :: r')) as [r' ->].
  { exists (five_digits (v mod 100000) ++ r). rewrite E. unfold fixed_5, long_decimal. rewrite <-!app_assoc. cbn [app].
    destruct (decimal_written 320 (v / 100000)) as [Hw Ho];
      [lia|rewrite <-digits_limit_eq; split; [apply Z.div_pos; lia|done]|].
    rewrite strtol_written by done. by rewrite Ho. }
  change (peek (46 :: r')) with 46. cbn [Z.eqb Pos.eqb orb]. rewrite (read_printed radix d s v) by done.
  rewrite Nat2Z.id, drop_app_length. destruct (of_decimal_scientific s v (-5)) as [|s'| |]; try done. by destruct (Hinf s').
Qed.

(** *** Dispatch *)
Lemma not_word c s w0 w n : c ≠ w0 → 0 < n → (nr_strncmp (Some (c :: s)) (Some (w0 :: w)) n =? 0) = false.
Proof.
  intros Hc Hn. unfold nr_strncmp, strncmp. destruct (Z.ltb_spec 0 n); [|lia].
  destruct (Z.to_nat n) as [|m] eqn:E; [lia|]. cbn [take strcmp]. destruct (Z.eqb_spec c w0); [done|].
  by destruct (c <? w0).
Qed.

Lemma same_word w r : is_cstr w → w ≠ [] → (nr_strncmp (Some (w ++ r)) (Some w) (Z.of_nat (length w)) =? 0) = true.
Proof.
  intros Hw Hne. unfold nr_strncmp, strncmp. destruct (Z.ltb_spec 0 (Z.of_nat (length w))); [|by destruct w].
  rewrite Nat2Z.id, take_app_length, take_ge by done. apply Z.eqb_eq. by apply strcmp_eq.
Qed.

Lemma parse_value_false fuel stale r : parse_value radix address (S fuel) stale (lit "false" ++ r) = Done (OBoolean 0, r).
Proof.
  cbn [parse_value]. change (lit "null") with (110 :: lit "ull"). change (lit "false" ++ r) with (102 :: lit "alse" ++ r) at 1.
  rewrite not_word by done. by rewrite (same_word (lit "false")) by (by repeat constructor).
Qed.

Lemma parse_value_true fuel stale r : parse_value radix address (S fuel) stale (lit "true" ++ r) = Done (OBoolean 1, r).
Proof.
  cbn [parse_value]. change (lit "null") with (110 :: lit "ull"). change (lit "true" ++ r) with (116 :: lit "rue" ++ r) at 1.
  rewrite not_word by done. change (lit "false") with (102 :: lit "alse"). change (lit "true" ++ r) with (116 :: lit "rue" ++ r) at 1.
  rewrite not_word by done. by rewrite (same_word (lit "true")) by (by repeat constructor).
Qed.

Lemma parse_value_other fuel stale c s : c ≠ 110 → c ≠ 102 → c ≠ 116 →
  parse_value radix address (S fuel) stale (c :: s) =
    if c =? 34 then '(t, rest) ← parse_string (c :: s); Done (OString (Some t), rest)
    else if (c =? 45) || ((48 <=? c) && (c <=? 57)) then parse_number radix stale (c :: s)
    else if c =? 91 then parse_array radix address fuel (c :: s)
    else if c =? 123 then parse_object radix address fuel (c :: s)
    else Failed.
Proof.
  intros. cbn [parse_value]. change (lit "null") with (110 :: lit "ull"). change (lit "false") with (102 :: lit "alse").
  change (lit "true") with (116 :: lit "rue"). by rewrite !not_word by done.
Qed.

(** Texts of numbers start with a sign or a digit. *)
Lemma parse_value_number fuel stale neg ds t : is_digits ds → ds ≠ [] →
  parse_value radix address (S fuel) stale (sign_text neg ++ ds ++ t) = parse_number radix stale (sign_text neg ++ ds ++ t).
Proof.
  intros Hd Hne. destruct ds as [|d ds]; [done|]. apply Forall_cons in Hd as [Hd _]. unfold nr_isdigit in Hd.
  destruct neg; cbn [sign_text app]; rewrite parse_value_other by lia; [done|].
  destruct (Z.eqb_spec d 34); [lia|]. by assert (((d =? 45) || ((48 <=? d) && (d <=? 57))) = true) as -> by lia.
Qed.

(** *** Containers *)
Lemma grown_chunks n : grown (Z.of_nat n) (if decide (n = 0%nat) then NRO_CHUNK_SIZE else chunks n) = chunks (S n).
Proof.
  unfold grown, chunks, NRO_CHUNK_SIZE. destruct (decide (n = 0%nat)) as [->|]; [done|].
  destruct n as [|n]; [done|]. destruct (Z.eqb_spec (Z.of_nat (S n)) ((Z.of_nat (S n) + 7) / 8 * 8)) as [E|E];
    Z.to_euclidean_division_equations; lia.
Qed.

Lemma push_fresh a es child : push_element (OArray a es) child = OArray (grown (Z.of_nat (length es)) a) (es ++ [child]).
Proof. done. Qed.

Lemma put_fresh a es k child : Forall key_ok es.*1 → key_ok k → k ∉ es.*1 →
  put_element (OHash a es) k child = OHash (grown (Z.of_nat (length es)) a) (es ++ [(k, child)]).
Proof.
  intros Hes [Hk Hne] Hni. unfold put_element, nro_internal_setvalue_hash.
  assert (nro_find_key_in_hash (OHash a es) (Some k) = -2) as ->.
  { unfold nro_find_key_in_hash. destruct k as [|c k]; [done|]. change (char_at (c :: k) 0) with c.
    pose proof Hk as [Hc _]%Forall_cons. destruct (Z.eqb_spec c 0); [lia|].
    rewrite find_key_absent by done. by destruct es. }
  simpl. unfold nr_strdup. simpl. by rewrite cstr_id.
Qed.

(** One step of each function. *)
Lemma parse_array_S fuel value :
  parse_array radix address (S fuel) value =
    let value := json_skip (tail value) in
    if peek value =? 93 then Done (OArray 1 [], tail value)
    else
      '(child, value) ← parse_value radix address fuel 0 (json_skip value);
      parse_elements radix address fuel (push_element (OArray NRO_CHUNK_SIZE []) child) (json_skip value).
Proof. done. Qed.

Lemma parse_object_S fuel value :
  parse_object radix address (S fuel) value =
    let value := json_skip (tail value) in
    if peek value =? 125 then Done (OHash 1 [], tail value)
    else
      '(key, value) ← parse_string (json_skip value);
      let value := json_skip value in
      if negb (peek value =? 58) then Failed
      else
        '(child, value) ← parse_value radix address fuel 0 (json_skip (tail value));
        parse_members radix address fuel (put_element (OHash NRO_CHUNK_SIZE []) key child) (json_skip value).
Proof. done. Qed.

Lemma parse_elements_S fuel item value :
  parse_elements radix address (S fuel) item value =
    if peek value =? 44 then
      '(child, value) ← parse_value radix address fuel 0 (json_skip (tail value));
      parse_elements radix address fuel (push_element item child) (json_skip value)
    else if peek value =? 93 then Done (item, tail value)
    else Failed.
Proof. done. Qed.

Lemma parse_members_S fuel item value :
  parse_members radix address (S fuel) item value =
    if peek value =? 44 then
      '(key, value) ← parse_string (json_skip (tail value));
      let value := json_skip value in
      if negb (peek value =? 58) then Failed
      else
        '(child, value) ← parse_value radix address fuel (stale_half address key) (json_skip (tail value));
        parse_members radix address fuel (put_element item key child) (json_skip value)
    else if peek value =? 125 then Done (item, tail value)
    else Failed.
Proof. done. Qed.

(** The text of the elements after the first. *)
Definition more (l : list (list Z)) : list Z := flat_map (cons 44) l.

Lemma separated_cons x l : separated (x :: l) = x ++ more l.
Proof.
  revert x. induction l as [|y l IH]; intros x; [by rewrite app_nil_r|].
  change (separated (x :: y :: l)) with (x ++ 44 :: separated (y :: l)). by rewrite IH.
Qed.

Lemma more_delimited l rest c : c = 93 ∨ c = 125 → delimited (more l ++ c :: rest).
Proof. intros Hc. destruct l; simpl; tauto. Qed.

Lemma more_cstr l rest c : Forall is_cstr l → c = 93 ∨ c = 125 → is_cstr rest → is_cstr (more l ++ c :: rest).
Proof.
  intros Hl Hc Hr. apply Forall_app. split; [|constructor; [lia|done]].
  induction Hl as [|x l Hx _ IH]; [constructor|]. constructor; [lia|]. by apply Forall_app.
Qed.

(** *** Induction *)
Lemma json_text_head op : jsonable op → obj_ok op → ∃ c t, json_text op = c :: t ∧ 32 < c ∧ c ≠ 93.
Proof.
  assert (∀ ds t, written_digits ds → ∃ c t', ds ++ t = c :: t' ∧ 32 < c ∧ c ≠ 93) as Hd.
  { intros ds t [Hd Hl]. destruct ds as [|c ds]; [by destruct Hl as [?|(? & ? & ? & ?)]|].
    apply Forall_cons in Hd as [Hc _]. unfold nr_isdigit in Hc. eexists _, _. split; [done|lia]. }
  assert (∀ x, long_range x → ∃ c t, signed_decimal x = c :: t ∧ 32 < c ∧ c ≠ 93) as Hx.
  { intros x Hx. destruct (signed_decimal_written x Hx) as (neg & ds & -> & Hw & _).
    destruct neg; [by eexists _, _|]. simpl. rewrite <-(app_nil_r ds). by apply Hd. }
  intros Hj Hok. destruct Hj as [|i|i h Hi|l Hl|u Hu|d s v Hv Hp _|s Hs|a es Hn Hk Hes|a es Hes]; cbn [json_text].
  - by eexists _, _.
  - destruct (i =? 0); by eexists _, _.
  - by apply Hx, int_long_range.
  - by apply Hx.
  - rewrite <-(app_nil_r (decimal u)). apply Hd. assert (2 ^ 64 < 10 ^ Z.of_nat 20) by by vm_compute.
    apply (decimal_written 20); lia.
  - destruct (format_shape d) as [(Hp' & _)|(s' & v' & Hp' & E)]; [by rewrite Hp in Hp'|]. rewrite E.
    rewrite Hp in Hp'. injection Hp' as <- <-. destruct (printed_bound d s v Hv Hp) as [Hv0 Hvb].
    destruct s; [by eexists _, _|]. cbn [sign_text app]. apply Hd.
    apply (decimal_written 320); [lia|]. rewrite <-digits_limit_eq. split; [apply Z.div_pos; lia|done].
  - by eexists _, _.
  - by eexists _, _.
  - by eexists _, _.
Qed.

Definition reads_back (op : nrobj_t) : Prop := ∀ fuel stale rest, delimited rest → is_cstr rest →
  (2 * length (json_text op) ≤ fuel)%nat →
  parse_value radix address (S fuel) stale (json_text op ++ rest) = Done (reread stale op, rest).

(** An element with all that is known of it. *)
Record readable_object (op : nrobj_t) : Prop := {
  ro_ok : obj_ok op;
  ro_json : jsonable op;
  ro_reads : reads_back op;
}.

Lemma skip_object op rest : readable_object op → json_skip (json_text op ++ rest) = json_text op ++ rest.
Proof.
  intros [Hok Hj _]. destruct (json_text_head op Hj Hok) as (c & t & -> & Hc & _). by apply skip_text.
Qed.

Lemma texts_cstr es : Forall readable_object es → Forall is_cstr (json_text <$> es).
Proof. intros He. apply Forall_fmap. eapply Forall_impl; [exact He|]. intros e [Hok _ _]. by apply json_text_cstr. Qed.

Lemma read_elements es : Forall readable_object es → ∀ fuel done_es rest, is_cstr rest → done_es ≠ [] →
  (2 * length (more (json_text <$> es)) + 1 ≤ fuel)%nat →
  parse_elements radix address fuel (OArray (chunks (length done_es)) done_es) (more (json_text <$> es) ++ 93 :: rest) =
    Done (OArray (chunks (length done_es + length es)) (done_es ++ (reread 0 <$> es)), rest).
Proof.
  induction 1 as [|e es He Hes IH]; intros fuel done_es rest Hc Hne Hf.
  - destruct fuel as [|fuel]; [simpl in Hf; lia|]. simpl. by rewrite app_nil_r, Nat.add_0_r.
  - cbn [fmap list_fmap more flat_map] in *. rewrite length_app in Hf. cbn [length] in Hf.
    destruct fuel as [|fuel]; [lia|]. rewrite parse_elements_S. destruct fuel as [|fuel]; [lia|]. rewrite <-app_assoc.
    change (peek ((44 :: json_text e) ++ ?l)) with 44. change (tail ((44 :: ?t) ++ ?l)) with (t ++ l). rewrite Z.eqb_refl.
    fold (more (json_text <$> es)) in *. rewrite skip_object by done.
    pose proof (more_delimited (json_text <$> es) rest 93 ltac:(by left)) as Hd.
    rewrite (ro_reads _ He); [|exact Hd|by apply more_cstr; [apply texts_cstr|left|]|lia]. cbn [mbind outcome_bind].
    destruct (delimited_ends _ Hd) as (_ & _ & ->). rewrite push_fresh.
    pose proof (grown_chunks (length done_es)) as Hg. rewrite decide_False in Hg by (by destruct done_es).
    rewrite Hg. specialize (IH (S fuel) (done_es ++ [reread 0 e]) rest Hc). rewrite length_app in IH. cbn [length] in IH.
    replace (length done_es + 1)%nat with (S (length done_es)) in IH by lia. rewrite IH; [|by destruct done_es|lia]. rewrite <-app_assoc. cbn [length fmap list_fmap app].
    by rewrite Nat.add_succ_r.
Qed.

(** The members of a hash: the text of a binding, and what it is read as. *)
Definition binding_text (e : list Z * nrobj_t) : list Z := let '(k, v) := e in escaped (Some k) ++ 58 :: json_text v.
Definition reread_binding (half : list Z → Z) (e : list Z * nrobj_t) : list Z * nrobj_t :=
  let '(k, v) := e in (k, reread (half k) v).

Record readable_binding (e : list Z * nrobj_t) : Prop := {
  rb_text : text_ok e.1;
  rb_key : e.1 ≠ [];
  rb_value : readable_object e.2;
}.

Lemma skip_escaped k rest : json_skip (escaped (Some k) ++ rest) = escaped (Some k) ++ rest.
Proof. by apply skip_text. Qed.

Lemma binding_cstr e : readable_binding e → is_cstr (binding_text e).
Proof.
  destruct e as [k v]. intros [Hk _ [Hok _ _]]. apply Forall_app. split; [by apply escaped_cstr, text_cstr|].
  constructor; [lia|by apply json_text_cstr].
Qed.

(** One binding: from the key to behind the value. *)
Lemma read_binding fuel half item k v rest : readable_binding (k, v) → delimited rest → is_cstr rest →
  (2 * length (json_text v) ≤ fuel)%nat →
  ('(key, value) ← parse_string (escaped (Some k) ++ 58 :: json_text v ++ rest);
    let value := json_skip value in
    if negb (peek value =? 58) then Failed
    else '(child, value) ← parse_value radix address (S fuel) (half key) (json_skip (tail value));
         parse_members radix address (S fuel) (put_element item key child) (json_skip value)) =
  parse_members radix address (S fuel) (put_element item k (reread (half k) v)) rest.
Proof.
  intros [Hk Hne Hv] Hd Hc Hf. cbn [fst snd] in *. rewrite parse_escaped by done. cbn [mbind outcome_bind]. cbv zeta.
  rewrite skip_text by done. change (peek (58 :: ?l)) with 58. rewrite Z.eqb_refl. cbn [negb tail].
  rewrite skip_object by done. rewrite (ro_reads _ Hv) by done. cbn [mbind outcome_bind].
  by destruct (delimited_ends _ Hd) as (_ & _ & ->).
Qed.

Lemma read_members es : Forall readable_binding es → ∀ fuel done_es rest, is_cstr rest → done_es ≠ [] →
  NoDup (done_es.*1 ++ es.*1) → Forall key_ok done_es.*1 →
  (2 * length (more (binding_text <$> es)) + 1 ≤ fuel)%nat →
  parse_members radix address fuel (OHash (chunks (length done_es)) done_es) (more (binding_text <$> es) ++ 125 :: rest) =
    Done (OHash (chunks (length done_es + length es)) (done_es ++ (reread_binding (stale_half address) <$> es)), rest).
Proof.
  induction 1 as [|[k v] es He Hes IH]; intros fuel done_es rest Hc Hne Hnd Hk Hf.
  - destruct fuel as [|fuel]; [simpl in Hf; lia|]. simpl. by rewrite app_nil_r, Nat.add_0_r.
  - cbn [fmap list_fmap more flat_map] in *. rewrite length_app in Hf. cbn [length] in Hf.
    unfold binding_text at 1 in Hf. rewrite length_app in Hf. cbn [length] in Hf.
    destruct fuel as [|fuel]; [lia|]. rewrite parse_members_S. destruct fuel as [|fuel]; [lia|]. rewrite <-app_assoc.
    change (peek ((44 :: binding_text (k, v)) ++ ?l)) with 44. rewrite Z.eqb_refl.
    change (tail ((44 :: binding_text (k, v)) ++ ?l)) with ((escaped (Some k) ++ 58 :: json_text v) ++ l).
    fold (more (binding_text <$> es)) in *. rewrite <-app_assoc, skip_escaped. cbn [app].
    pose proof (more_delimited (binding_text <$> es) rest 125 ltac:(by right)) as Hd.
    rewrite read_binding; [|done|exact Hd| |lia].
    2: { apply more_cstr; [|by right|done]. apply Forall_fmap. eapply Forall_impl; [exact Hes|apply binding_cstr]. }
    pose proof He as [Hkt Hkn _]. cbn [fst] in *.
    assert (k ∉ done_es.*1) as Hni.
    { apply NoDup_app in Hnd as (_ & Hdis & _). intros Hin. apply (Hdis _ Hin). left. }
    rewrite put_fresh by (done || by split; [apply text_cstr|]).
    pose proof (grown_chunks (length done_es)) as Hg. rewrite decide_False in Hg by (by destruct done_es).
    rewrite Hg. specialize (IH (S fuel) (done_es ++ [(k, reread (stale_half address k) v)]) rest Hc).
    rewrite length_app in IH. cbn [length] in IH. replace (length done_es + 1)%nat with (S (length done_es)) in IH by lia. rewrite IH; [| |rewrite fmap_app, <-app_assoc; exact Hnd| |lia].
    + rewrite <-app_assoc. cbn [length fmap list_fmap app]. by rewrite Nat.add_succ_r.
    + by destruct done_es.
    + rewrite fmap_app. apply Forall_app. split; [done|]. constructor; [|constructor]. by split; [apply text_cstr|].
Qed.

(** Reading a container from its first element on. *)
Lemma read_array fuel a es stale rest : Forall readable_object es → delimited rest → is_cstr rest →
  (2 * length (json_text (OArray a es)) ≤ fuel)%nat →
  parse_array radix address fuel (json_text (OArray a es) ++ rest) = Done (reread stale (OArray a es), rest).
Proof.
  intros He Hd Hc Hf. cbn [json_text] in *. destruct fuel as [|fuel]; [simpl in Hf; lia|].
  rewrite parse_array_S. cbn [app tail]. destruct He as [|e es He Hes]; [done|].
  cbn [fmap list_fmap] in *. rewrite separated_cons in *. cbn [length] in Hf. rewrite !length_app in Hf. cbn [length] in Hf.
  rewrite <-!app_assoc, !skip_object by done. cbv zeta.
  assert ((peek (json_text e ++ more (json_text <$> es) ++ [93] ++ rest) =? 93) = false) as ->.
  { destruct (json_text_head e (ro_json _ He) (ro_ok _ He)) as (c & t & -> & _ & Hne). by apply Z.eqb_neq. }
  destruct fuel as [|fuel]; [lia|].
  pose proof (more_delimited (json_text <$> es) rest 93 ltac:(by left)) as Hdm. cbn [app].
  rewrite (ro_reads _ He); [|exact Hdm|by apply more_cstr; [apply texts_cstr|left|]|lia]. cbn [mbind outcome_bind].
  destruct (delimited_ends _ Hdm) as (_ & _ & ->). rewrite push_fresh.
  change (grown (Z.of_nat (length (@nil nrobj_t))) NRO_CHUNK_SIZE) with (chunks (length [reread 0 e])).
  change ([] ++ [reread 0 e]) with [reread 0 e]. by rewrite read_elements by (done || lia).
Qed.

Lemma read_object fuel a es stale rest : Forall readable_binding es → NoDup es.*1 → delimited rest → is_cstr rest →
  (2 * length (json_text (OHash a es)) ≤ fuel)%nat →
  parse_object radix address fuel (json_text (OHash a es) ++ rest) = Done (reread stale (OHash a es), rest).
Proof.
  intros He Hn Hd Hc Hf. cbn [json_text] in *. fold binding_text in *.
  destruct fuel as [|fuel]; [simpl in Hf; lia|]. rewrite parse_object_S. cbn [app tail].
  destruct He as [|[k v] es He Hes]; [done|].
  cbn [fmap list_fmap] in *. rewrite separated_cons in *. cbn [length] in Hf. rewrite !length_app in Hf.
  unfold binding_text at 1 in Hf. rewrite length_app in Hf. cbn [length] in Hf.
  change (binding_text (k, v)) with (escaped (Some k) ++ 58 :: json_text v). rewrite <-!app_assoc, !skip_escaped. cbv zeta.
  change (peek (escaped (Some k) ++ ?l)) with 34. change (34 =? 125) with false. cbv iota. cbn [app].
  destruct fuel as [|fuel]; [lia|].
  pose proof (more_delimited (binding_text <$> es) rest 125 ltac:(by right)) as Hdm.
  assert (is_cstr (more (binding_text <$> es) ++ 125 :: rest)) as Hcm.
  { apply more_cstr; [|by right|done]. apply Forall_fmap. eapply Forall_impl; [exact Hes|apply binding_cstr]. }
  pose proof (read_binding fuel (λ _, 0) (OHash NRO_CHUNK_SIZE []) k v _ He Hdm Hcm ltac:(lia)) as E.
  cbv beta zeta in E. rewrite E. pose proof He as [Hkt Hkn _]. cbn [fst] in *.
  rewrite put_fresh; [|apply Forall_nil_2|by split; [apply text_cstr|]|apply not_elem_of_nil].
  change (grown (Z.of_nat (length (@nil (list Z * nrobj_t)))) NRO_CHUNK_SIZE) with (chunks (length [(k, reread 0 v)])).
  change ([] ++ [(k, reread 0 v)]) with [(k, reread 0 v)].
  rewrite read_members; [done|done|done|done|exact Hn| |lia].
  constructor; [by split; [apply text_cstr|]|constructor].
Qed.

Lemma objects_read_back op : jsonable op → obj_ok op → reads_back op.
Proof.
  induction op as [op Hop|a es IH|a es IH] using object_ind; intros Hj Hok fuel stale rest Hd Hc Hf.
  - destruct Hj as [|i|i h Hi|l Hl|u Hu|d s v Hv Hp Hinf|s Hs| |]; try (by destruct Hop); cbn [json_text reread].
    + destruct (i =? 0); [apply parse_value_false|apply parse_value_true].
    + destruct (signed_decimal_written i (int_long_range i Hi)) as (neg & ds & E & [Hw Hl] & _).
      rewrite E, <-app_assoc, parse_value_number, app_assoc, <-E; [by apply parse_signed, Hd; apply int_long_range|done|].
      by destruct Hl as [->|(? & ? & -> & _)].
    + destruct (signed_decimal_written l Hl) as (neg & ds & E & [Hw Hlead] & _).
      rewrite E, <-app_assoc, parse_value_number, app_assoc, <-E; [by apply parse_signed|done|].
      by destruct Hlead as [->|(? & ? & -> & _)].
    + assert (2 ^ 64 < 10 ^ Z.of_nat 20) by by vm_compute.
      destruct (decimal_written 20 u) as [[Hw Hlead] _]; [lia..|].
      pose proof (parse_value_number fuel stale false (decimal u) rest Hw) as E. cbn [sign_text app] in E. rewrite E.
      * by apply parse_unsigned.
      * unfold decimal. by destruct Hlead as [->|(? & ? & -> & _)].
    + rewrite Hp. destruct (format_shape d) as [(Hp' & _)|(s' & v' & Hp' & E)]; [by rewrite Hp in Hp'|].
      rewrite Hp in Hp'. injection Hp' as <- <-. destruct (printed_bound d s v Hv Hp) as [Hv0 Hvb].
      destruct (decimal_written 320 (v / 100000)) as [[Hw Hlead] _];
        [lia|rewrite <-digits_limit_eq; split; [apply Z.div_pos; lia|done]|].
      assert (∀ t, parse_value radix address (S fuel) stale (format_5f 46 d ++ t) = parse_number radix stale (format_5f 46 d ++ t)) as ->.
      { intros t. rewrite E. unfold fixed_5, long_decimal. rewrite <-!app_assoc. apply parse_value_number; [done|].
        by destruct Hlead as [->|(? & ? & -> & _)]. }
      by apply parse_double.
    + change (from_option (λ s, escaped (Some s)) [] (Some s)) with (escaped (Some s)).
      assert (∃ t, escaped (Some s) = 34 :: t) as [t Et] by by eexists.
      rewrite Et. cbn [app]. rewrite parse_value_other by done. rewrite Z.eqb_refl, app_comm_cons, <-Et.
      by rewrite parse_escaped.
  - inversion Hj as [| | | | | | |? ? Hn Hk Hvj|]; subst. inversion Hok as [| | | | | | | |? ? _ _ _ Hvo|]; subst.
    change (json_text (OHash a es) ++ rest) with (123 :: (tail (json_text (OHash a es)) ++ rest)).
    rewrite parse_value_other by done. cbn [Z.eqb Pos.eqb orb andb Z.leb Z.compare Pos.compare Pos.compare_cont].
    change (123 :: (tail (json_text (OHash a es)) ++ rest)) with (json_text (OHash a es) ++ rest).
    rewrite Forall_fmap in Hk. rewrite Forall_fmap in Hvj. rewrite Forall_fmap in Hvo.
    apply read_object; [|done..]. rewrite Forall_forall in IH, Hk, Hvj, Hvo |- *. intros e He.
    destruct (Hk e He) as [Ht Hne]. split; [done|done|]. split; [by apply Hvo|by apply Hvj|].
    apply IH; [done|by apply Hvj|by apply Hvo].
  - inversion Hj as [| | | | | | | |? ? Hvj]; subst. inversion Hok as [| | | | | | | | |? ? _ Hvo]; subst.
    change (json_text (OArray a es) ++ rest) with (91 :: (tail (json_text (OArray a es)) ++ rest)).
    rewrite parse_value_other by done. cbn [Z.eqb Pos.eqb orb andb Z.leb Z.compare Pos.compare Pos.compare_cont].
    change (91 :: (tail (json_text (OArray a es)) ++ rest)) with (json_text (OArray a es) ++ rest).
    apply read_array; [|done..]. rewrite Forall_forall in IH, Hvj, Hvo |- *. intros e He. split; auto.
Qed.
End roundtrip.

(** The round trip. *)
Lemma json_reads_back `{Allocator Z} (radix radix' : Z) (address : list Z → Z) (op : nrobj_t) :
  locale_radix radix → locale_radix radix' → obj_ok op → jsonable op →
  nro_create_from_json radix' address (Some (nro_to_json radix (Some op))) = Done (Some (reread address 0 op)).
Proof.
  intros Hx Hx' Hok Hj. rewrite nro_to_json_text by done. unfold nro_create_from_json.
  destruct (json_text_head address op Hj Hok) as (c & t & E & Hc & _). rewrite E at 1. change (peek (c :: t)) with c.
  destruct (Z.eqb_spec c 0); [lia|]. rewrite E at 2. rewrite skip_text by done. rewrite <-E.
  replace (2 * length (json_text op) + 2)%nat with (S (2 * length (json_text op) + 1)) by lia.
  rewrite <-(app_nil_r (json_text op)) at 2.
  rewrite (objects_read_back radix' address Hx' op Hj Hok) by (done || constructor || lia). done.
Qed.

(** C1: What [nro_to_json] writes, [nro_create_from_json] reads back. For every well-formed
    object without preformatted JSON whose strings are UTF-8 text of the basic plane and whose doubles are finite, in
    whatever locales it is written and read, the object read has the same structure, keys in the same order, strings
    and booleans; integers keep their value, unsigned ones saturated, as an [int] or a [long] by their size; doubles
    keep five decimal places.  The unwritten half of an [int] is that of the address of its key for the members of
    a hash after the first, and zero elsewhere. *)
Theorem nro_json_roundtrip `{Allocator Z} (radix radix' : Z) (address : list Z → Z) (op : nrobj_t) :
  locale_radix radix → locale_radix radix' → obj_ok op → jsonable op →
  nro_create_from_json radix' address (Some (nro_to_json radix (Some op))) = Done (Some (reread address 0 op)).
Proof. apply json_reads_back. Qed.

Lemma nro_json_roundtrip_witness :
  let _ := GenerousAllocator.allocator Z in
  let op := OHash 8 [(lit "a", OArray 8 [OInt (-7) 0; OUlong (2 ^ 64 - 1); OBoolean 1]);
                     (lit "b", ODouble (SpecFloat.S754_finite false 4503599627370496 (-53))); (lit "c", OInt 3 0)] in
  nro_create_from_json 44 (λ _, 0x7f0012345678) (Some (nro_to_json 46 (Some op))) =
    Done (Some (OHash 8 [(lit "a", OArray 8 [OInt (-7) 0; OLong (2 ^ 63 - 1); OBoolean 1]);
      (lit "b", ODouble (SpecFloat.S754_finite false 4503599627370496 (-53))); (lit "c", OInt 3 0x7f00)])).
Proof.
  intros al op. rewrite (nro_json_roundtrip (H:=al) 46 44 (λ _, 0x7f0012345678) op).
  - vm_compute. reflexivity.
  - by left.
  - by right.
  - repeat constructor; simpl; try lia; try (by intros [=]); unfold int_range; try lia;
      rewrite ?list_elem_of_cons, ?list_elem_of_nil; set_solver.
  - assert (∀ c, 0 < c < 128 → text_ok [c]) as Ht.
    { intros c Hc. exists [c]. split; [unfold flat_map, utf8; destruct (Z.ltb_spec c 0x80); [done|lia]|].
      constructor; [|constructor]. unfold scalar_value. lia. }
    assert (∀ s', of_decimal_scientific false 50000 (-5) ≠ SpecFloat.S754_infinity s') by (intros s'; by vm_compute).
    apply js_hash; [|repeat constructor; try done; by apply Ht|].
    { repeat constructor; set_solver. }
    repeat constructor; try (unfold int_range; lia). by eapply js_double.
Defined.

(** A later member read as a [long] is not the number of the text. *)
Example later_member_as_long :
  match nro_create_from_json 46 (λ _, 0x7f0012345678) (Some ([123; 34; 97; 34] ++ lit ":1," ++ [34; 98; 34] ++ lit ":2}")) with
  | Done o => nro_get_hash_long o (Some (lit "a")) = (1, NR_SUCCESS) ∧
      nro_get_hash_long o (Some (lit "b")) = (0x7f00 * 2 ^ 32 + 2, NR_SUCCESS)
  | _ => False
  end.
Proof. vm_compute. by split. Qed.
