(* ===== verification/AttributeConfig.v ===== *)
(** * AttributeConfig: where attributes go (src/axiom/nr_attributes.c, the configuration)

    A configuration is an ordered list of rules that add an attribute to, or
    drop it from, sets of destinations.  The linked list owns its rules and is
    a Rocq list.  Reading the character before an empty pattern is the outcome
    [None]. *)

From S2P Require Import Prelude CString Strings Hash.
Local Open Scope Z_scope.

Definition NR_ATTRIBUTE_DESTINATION_TXN_EVENT : Z := 1.
Definition NR_ATTRIBUTE_DESTINATION_TXN_TRACE : Z := 2.
Definition NR_ATTRIBUTE_DESTINATION_ERROR : Z := 4.
Definition NR_ATTRIBUTE_DESTINATION_BROWSER : Z := 8.
Definition NR_ATTRIBUTE_DESTINATION_SPAN : Z := 16.
Definition NR_ATTRIBUTE_DESTINATION_LOG : Z := 32.
Definition NR_ATTRIBUTE_DESTINATION_ALL : Z := 63.

(** The pattern is kept without its star. *)
Record modifier := Modifier {
  has_wildcard_suffix : bool;
  is_finalize_rule : bool;
  match_ : list Z;
  match_len : Z;
  match_hash : Z;
  include_destinations : Z;
  exclude_destinations : Z;
}.

Record nr_attribute_config_t := Config {
  disabled_destinations : Z;
  modifier_list : list modifier;
}.

(** ** Applying one rule *)
Definition nr_attribute_destination_modifier_match (modifier : option modifier) (key : option (list Z)) (key_hash : Z) : bool :=
  match modifier with
  | None => false
  | Some m =>
      if negb (has_wildcard_suffix m) then
        if negb (match_hash m =? key_hash) then false
        else 0 =? nr_strcmp (Some (match_ m)) key
      else 0 =? nr_strncmp (Some (match_ m)) key (match_len m)
  end.

Definition nr_attribute_destination_modifier_apply (m : modifier) (key : option (list Z)) (key_hash destinations : Z) : Z :=
  if negb (nr_attribute_destination_modifier_match (Some m) key key_hash) then destinations
  else Z.ldiff (Z.lor destinations (include_destinations m)) (exclude_destinations m).

(** ** Configurations *)
Definition nr_attribute_config_create : nr_attribute_config_t := Config 0 [].

Definition nr_attribute_config_disable_destinations (config : option nr_attribute_config_t) (disabled : Z) :=
  (λ c, Config (Z.lor (disabled_destinations c) disabled) (modifier_list c)) <$> config.
Definition nr_attribute_config_enable_destinations (config : option nr_attribute_config_t) (enabled : Z) :=
  (λ c, Config (Z.ldiff (disabled_destinations c) enabled) (modifier_list c)) <$> config.

Definition nr_attribute_destination_modifier_create_internal (match_ : list Z) (include exclude : Z) (is_finalize : bool) :
    option modifier :=
  let len := nr_strlen (Some match_) in
  if len =? 0 then None
  else
    let wild := char_at match_ (len - 1) =? 42 in
    let len := if wild then len - 1 else len in
    let copy := nr_strndup (Some match_) len in
    Some (Modifier wild is_finalize copy len (nr_mkhash (Some copy) None).1 include exclude).

(** Negative: the first rule goes before the second. *)
Definition nr_attribute_destination_modifier_compare (mod1 mod2 : modifier) : Z :=
  let cmp := nr_strcmp (Some (match_ mod1)) (Some (match_ mod2)) in
  if cmp <? 0 then -1
  else if cmp =? 0 then
    if Bool.eqb (has_wildcard_suffix mod1) (has_wildcard_suffix mod2) then 0
    else if has_wildcard_suffix mod1 then -1 else 1
  else 1.

(** The loop over the links: the new rule is merged into an equal one of its
    kind or goes before the first greater one. *)
Fixpoint insert_modifier (new_entry : modifier) (l : list modifier) : list modifier :=
  match l with
  | [] => [new_entry]
  | entry :: l' =>
      let cmp := nr_attribute_destination_modifier_compare new_entry entry in
      if cmp <? 0 then new_entry :: l
      else if (0 =? cmp) && Bool.eqb (is_finalize_rule new_entry) (is_finalize_rule entry) then
        Modifier (has_wildcard_suffix entry) (is_finalize_rule entry) (match_ entry) (match_len entry) (match_hash entry)
          (Z.lor (include_destinations entry) (include_destinations new_entry))
          (Z.lor (exclude_destinations entry) (exclude_destinations new_entry)) :: l'
      else entry :: insert_modifier new_entry l'
  end.

(** One call of the function that inserts a rule; [finalize] is what it calls
    last for a rule of the user. *)
Definition modify_with (finalize : nr_attribute_config_t → option nr_attribute_config_t) (config : nr_attribute_config_t)
    (match_ : option (list Z)) (include exclude : Z) (is_finalize : bool) : option nr_attribute_config_t :=
  match match_ with
  | None => Some config
  | Some match_ =>
      new_entry ← nr_attribute_destination_modifier_create_internal match_ include exclude is_finalize;
      let config := Config (disabled_destinations config) (insert_modifier new_entry (modifier_list config)) in
      if is_finalize then Some config else finalize config
  end.

Definition goes_to_log (destinations : Z) : bool := negb (Z.land destinations NR_ATTRIBUTE_DESTINATION_LOG =? 0).

(** The loop that looks for an include rule; a rule for everything ends it. *)
Fixpoint needs_finalize (l : list modifier) (add_finalize_rule : bool) : bool :=
  match l with
  | [] => add_finalize_rule
  | cur :: l =>
      if goes_to_log (include_destinations cur) then
        if has_wildcard_suffix cur && (match_len cur =? 0) then false else needs_finalize l true
      else needs_finalize l add_finalize_rule
  end.

Definition nr_attribute_config_finalize_log_destination (config : nr_attribute_config_t) : option nr_attribute_config_t :=
  match modifier_list config with
  | [] => Some config
  | l =>
      let kept := filter (λ cur, negb (is_finalize_rule cur && goes_to_log (include_destinations cur))) l in
      let config := Config (disabled_destinations config) kept in
      if needs_finalize kept false
      then modify_with Some config (Some (lit "*")) 0 NR_ATTRIBUTE_DESTINATION_LOG true
      else Some config
  end.

Definition nr_attribute_config_modify_destinations_internal (config : option nr_attribute_config_t) (match_ : option (list Z))
    (include exclude : Z) (is_finalize : bool) : option (option nr_attribute_config_t) :=
  match config with
  | None => Some None
  | Some config => Some <$> modify_with nr_attribute_config_finalize_log_destination config match_ include exclude is_finalize
  end.

Definition nr_attribute_config_modify_destinations config match_ include exclude :=
  nr_attribute_config_modify_destinations_internal config match_ include exclude false.

Definition nr_attribute_destination_modifier_copy (entry : modifier) : modifier :=
  Modifier (has_wildcard_suffix entry) (is_finalize_rule entry) (nr_strdup (Some (match_ entry))) (match_len entry)
    (match_hash entry) (include_destinations entry) (exclude_destinations entry).
Definition nr_attribute_config_copy (config : option nr_attribute_config_t) : option nr_attribute_config_t :=
  (λ c, Config (disabled_destinations c) (nr_attribute_destination_modifier_copy <$> modifier_list c)) <$> config.

Definition nr_attribute_config_apply (config : option nr_attribute_config_t) (key : option (list Z)) (key_hash destinations : Z) : Z :=
  match key, config with
  | None, _ => 0
  | Some _, None => destinations
  | Some _, Some c =>
      Z.ldiff (foldl (λ d m, nr_attribute_destination_modifier_apply m key key_hash d) destinations (modifier_list c))
        (disabled_destinations c)
  end.

(** ** The order of strings *)
Lemma strcmp_prefix a c l : is_cstr (a ++ c :: l) → strcmp a (a ++ c :: l) < 0.
Proof.
  intros Ha. induction a as [|x a IH]; simpl.
  - apply Forall_cons in Ha as [Hc _]. bool_cases.
  - apply Forall_cons in Ha as [Hx Ha]. rewrite Z.eqb_refl. destruct (Z.eqb_spec x 0); [lia|]. by apply IH.
Qed.

(** ** Patterns

    The text of a rule and whether a star follows it. *)
Abbreviation pattern := (list Z * bool)%type.
Definition pattern_of (m : modifier) : pattern := (match_ m, has_wildcard_suffix m).
Definition matches (q : pattern) (key : list Z) : Prop := if q.2 then q.1 `prefix_of` key else q.1 = key.
#[export] Instance matches_dec q key : Decision (matches q key).
Proof. unfold matches. destruct q.2; apply _. Defined.

(** Rules are kept in this order: by text, a star before none. *)
Definition before (q q' : pattern) : Prop := strcmp q.1 q'.1 < 0 ∨ q.1 = q'.1 ∧ q.2 = true ∧ q'.2 = false.

Record modifier_ok (m : modifier) : Prop := {
  mo_cstr : is_cstr (match_ m);
  mo_len : match_len m = Z.of_nat (length (match_ m));
  mo_hash : match_hash m = (nr_mkhash (Some (match_ m)) None).1;
}.

Lemma before_irrefl q : is_cstr q.1 → ¬ before q q.
Proof. intros Hq [H|(_ & E & E')]; [|congruence]. rewrite (proj2 (strcmp_eq _ _ Hq Hq) eq_refl) in H. lia. Qed.

Lemma before_trans q1 q2 q3 : is_cstr q2.1 → before q1 q2 → before q2 q3 → before q1 q3.
Proof.
  intros Hc [H|(E & H1 & H2)] [H'|(E' & H1' & H2')].
  - left. by eapply strcmp_lt_trans.
  - left. by rewrite <-E'.
  - left. by rewrite E.
  - congruence.
Qed.

Inductive compare_spec (m1 m2 : modifier) : Z → Prop :=
| compare_before : before (pattern_of m1) (pattern_of m2) → compare_spec m1 m2 (-1)
| compare_equal : pattern_of m1 = pattern_of m2 → compare_spec m1 m2 0
| compare_after : before (pattern_of m2) (pattern_of m1) → compare_spec m1 m2 1.

Lemma modifier_compare_spec m1 m2 : modifier_ok m1 → modifier_ok m2 →
  compare_spec m1 m2 (nr_attribute_destination_modifier_compare m1 m2).
Proof.
  intros [H1 _ _] [H2 _ _]. unfold nr_attribute_destination_modifier_compare, nr_strcmp.
  pose proof (strcmp_eq _ _ H1 H2) as He. pose proof (strcmp_flip (match_ m1) (match_ m2)) as Hf.
  destruct (Z.ltb_spec (strcmp (match_ m1) (match_ m2)) 0); [apply compare_before; by left|].
  destruct (Z.eqb_spec (strcmp (match_ m1) (match_ m2)) 0) as [E|].
  - apply He in E. destruct (has_wildcard_suffix m1) eqn:E1, (has_wildcard_suffix m2) eqn:E2; simpl;
      [apply compare_equal|apply compare_before|apply compare_after|apply compare_equal];
      try (right; simpl; by split_and!); by unfold pattern_of; rewrite E, E1, E2.
  - apply compare_after. left. simpl. lia.
Qed.

(** A rule applies to the keys its pattern matches. *)
Lemma match_spec m key : modifier_ok m → is_cstr key →
  nr_attribute_destination_modifier_match (Some m) (Some key) (nr_mkhash (Some key) None).1 = true ↔
  matches (pattern_of m) key.
Proof.
  intros [Hc Hl Hh] Hk. unfold nr_attribute_destination_modifier_match, matches, pattern_of. cbn [fst snd].
  destruct (has_wildcard_suffix m); cbn [negb].
  - unfold nr_strncmp, strncmp. rewrite Hl, Nat2Z.id, (take_ge (match_ m)), Z.eqb_eq by done.
    rewrite <-take_prefix, (symmetry_iff (=) (take _ _)), <-strcmp_eq by eauto with nr.
    destruct (Z.ltb_spec 0 (Z.of_nat (length (match_ m)))) as [Hp|Hp]; [lia|].
    by destruct (match_ m); [|simpl in Hp; lia].
  - rewrite Hh, <-(strcmp_eq _ key) by done. unfold nr_strcmp.
    destruct (Z.eqb_spec (nr_mkhash (Some (match_ m)) None).1 (nr_mkhash (Some key) None).1) as [E|E]; cbn [negb]; [lia|].
    split; [done|]. intros E'%strcmp_eq; [|done..]. destruct E. by rewrite E'.
Qed.

Lemma modifier_apply_spec m key d : modifier_ok m → is_cstr key →
  nr_attribute_destination_modifier_apply m (Some key) (nr_mkhash (Some key) None).1 d =
    if decide (matches (pattern_of m) key)
    then Z.ldiff (Z.lor d (include_destinations m)) (exclude_destinations m) else d.
Proof.
  intros Hm Hk. unfold nr_attribute_destination_modifier_apply. pose proof (match_spec m key Hm Hk) as Hs.
  destruct (nr_attribute_destination_modifier_match _ _ _), (decide _); naive_solver.
Qed.

(** ** Ordered lists *)
Lemma sorted_filter {A} (R : relation A) (P : A → Prop) `{∀ x, Decision (P x)} l :
  StronglySorted R l → StronglySorted R (filter P l).
Proof.
  induction 1 as [|x l Hs IH Hx]; [constructor|]. rewrite filter_cons. case_decide; [|done].
  constructor; [done|]. rewrite Forall_forall in *. intros y [_ Hy]%list_elem_of_filter. auto.
Qed.

Lemma sorted_NoDup (l : list pattern) : Forall (λ q, is_cstr q.1) l → StronglySorted before l → NoDup l.
Proof.
  intros Hc. induction 1 as [|q l _ IH Hq]; [constructor|]. apply Forall_cons in Hc as [Hqc Hc]. constructor; [|by apply IH].
  intros Hin. rewrite Forall_forall in Hq. by destruct (before_irrefl q Hqc (Hq q Hin)).
Qed.

Lemma sorted_same_elements (l l' : list pattern) : Forall (λ q, is_cstr q.1) l → Forall (λ q, is_cstr q.1) l' →
  StronglySorted before l → StronglySorted before l' → (∀ q, q ∈ l ↔ q ∈ l') → l = l'.
Proof.
  intros Hc Hc' Hs Hs' He. apply (StronglySorted_unique_strong before); [|done|done|].
  - intros q q' Hq Hq' H1 H2. rewrite Forall_forall in Hc, Hc'.
    destruct (before_irrefl q); [by apply Hc|]. by eapply before_trans; [apply Hc'|..].
  - by apply NoDup_Permutation; [by apply sorted_NoDup..|].
Qed.

(** ** Sets of rules *)
Abbreviation table := (gmap pattern (Z * Z)).
Definition effects (m : modifier) : Z * Z := (include_destinations m, exclude_destinations m).
Definition table_of (us : list modifier) : table := list_to_map ((λ m, (pattern_of m, effects m)) <$> us).

Lemma table_of_cons m us : table_of (m :: us) = <[pattern_of m:=effects m]> (table_of us).
Proof. done. Qed.

(** A rule for a pattern that has one already adds to it. *)
Definition merge_rule (t : table) (q : pattern) (e : Z * Z) : table :=
  <[q:=match t !! q with Some (i, x) => (Z.lor i e.1, Z.lor x e.2) | None => e end]> t.

Record rules_ok (us : list modifier) : Prop := {
  ru_ok : Forall modifier_ok us;
  ru_user : Forall (λ m, is_finalize_rule m = false) us;
  ru_sorted : StronglySorted before (pattern_of <$> us);
}.

Lemma rules_ok_cons m us : rules_ok (m :: us) ↔
  (modifier_ok m ∧ is_finalize_rule m = false ∧ Forall (λ m', before (pattern_of m) (pattern_of m')) us) ∧ rules_ok us.
Proof.
  split.
  - intros [[? ?]%Forall_cons [? ?]%Forall_cons Hs]. rewrite fmap_cons in Hs. apply StronglySorted_cons in Hs as [Hb Hs]. rewrite Forall_fmap in Hb. split; [split_and!; [done|done|exact Hb]|by split].
  - intros [(? & ? & Hb) [? ? ?]]. split; [by constructor..|]. rewrite fmap_cons. apply StronglySorted_cons. split; [by apply Forall_fmap|done].
Qed.

Lemma table_of_None us q : Forall (λ m, q ≠ pattern_of m) us → table_of us !! q = None.
Proof.
  intros Hq. apply not_elem_of_list_to_map_1. rewrite <-list_fmap_compose. intros (m & E & Hm)%list_elem_of_fmap.
  rewrite Forall_forall in Hq. by apply (Hq m Hm).
Qed.

Lemma before_ne m m' : modifier_ok m → before (pattern_of m) (pattern_of m') → pattern_of m ≠ pattern_of m'.
Proof. intros Hm Hb E. rewrite <-E in Hb. destruct (before_irrefl (pattern_of m)); [by apply Hm|done]. Qed.

Lemma insert_rules m us : modifier_ok m → is_finalize_rule m = false → rules_ok us →
  rules_ok (insert_modifier m us) ∧ table_of (insert_modifier m us) = merge_rule (table_of us) (pattern_of m) (effects m) ∧
  (∀ q, before q (pattern_of m) → Forall (λ m', before q (pattern_of m')) us →
    Forall (λ m', before q (pattern_of m')) (insert_modifier m us)).
Proof.
  intros Hm Hf. induction us as [|m0 us IH]; intros Hok.
  { split_and!; [apply rules_ok_cons; split_and!; [done|done|apply Forall_nil_2|done]|done|intros; apply Forall_cons_2; [done|apply Forall_nil_2]]. }
  apply rules_ok_cons in Hok as [(Hm0 & Hf0 & Hb) Hok]. cbn [insert_modifier].
  destruct (modifier_compare_spec m m0 Hm Hm0) as [Hc|Hc|Hc].
  - change (-1 <? 0) with true. cbv iota.
    assert (Forall (λ m', before (pattern_of m) (pattern_of m')) (m0 :: us)) as Hall.
    { constructor; [done|]. eapply Forall_impl; [exact Hb|]. intros m' Hm'. eapply before_trans; [|done..]. apply Hm0. }
    split_and!; [by apply rules_ok_cons; split_and!; [..|by apply rules_ok_cons]| |by constructor].
    unfold merge_rule. rewrite table_of_None; [done|]. eapply Forall_impl; [exact Hall|]. intros m'. by apply before_ne.
  - change (0 <? 0) with false. rewrite Hf, Hf0. cbv iota. simpl (_ && _). cbv iota.
    set (m1 := Modifier _ _ _ _ _ _ _). assert (pattern_of m1 = pattern_of m0) as E by done.
    split_and!.
    + apply rules_ok_cons. split_and!; [destruct Hm0; by split|done|done|done].
    + unfold merge_rule. rewrite !table_of_cons, E, Hc. by rewrite lookup_insert_eq, insert_insert_eq.
    + intros q _ [? ?]%Forall_cons. by constructor.
  - change (1 <? 0) with false. change (0 =? 1) with false. cbv iota. simpl (_ && _). cbv iota.
    destruct (IH Hok) as (IH1 & IH2 & IH3). split_and!.
    + apply rules_ok_cons. split_and!; [done..|by apply IH3|done].
    + unfold merge_rule in *. rewrite !table_of_cons, IH2. pose proof (before_ne m0 m Hm0 Hc). rewrite lookup_insert_ne by done. by apply insert_insert_ne.
    + intros q Hq [? ?]%Forall_cons. constructor; [done|]. by apply IH3.
Qed.

(** ** The reference

    Rules are a map from patterns to their effects.  [r_final] says whether log
    destinations were made exclusive, and if so, whether that came after a rule
    for everything that was there already. *)
Record reference := Reference { r_table : table; r_final : option bool; r_disabled : Z }.

Definition star : pattern := ([], true).

Definition pattern_of_text (text : list Z) : pattern :=
  match last text with
  | Some c => if c =? 42 then (take (length text - 1) text, true) else (text, false)
  | None => (text, false)
  end.

(** Some rule includes log destinations, and the one for everything does not. *)
Definition exclusive (t : table) : bool :=
  negb (bool_decide (map_Forall (λ _ e, goes_to_log e.1 = false) t)) &&
  match t !! star with Some e => negb (goes_to_log e.1) | None => true end.

Definition reference_modify (r : reference) (text : list Z) (e : Z * Z) : reference :=
  let t := merge_rule (r_table r) (pattern_of_text text) e in
  Reference t
    (if exclusive t
     then Some match r_final r with Some b => b | None => bool_decide (is_Some (t !! star)) end
     else r_final r)
    (r_disabled r).

Definition rule_effect (t : table) (d : Z) (q : pattern) : Z :=
  match t !! q with Some (i, e) => Z.ldiff (Z.lor d i) e | None => d end.

(** The patterns a key matches, by precedence: its prefixes, the shortest
    first, and the key itself. *)
Definition prefixes (key : list Z) : list pattern :=
  ((λ n, (take n key, true)) <$> seq 1 (length key)) ++ [(key, false)].

Definition log_dropped (d : Z) : Z := Z.ldiff d NR_ATTRIBUTE_DESTINATION_LOG.

Definition reference_apply (r : reference) (key : list Z) (d : Z) : Z :=
  let d := match r_final r with
           | None => rule_effect (r_table r) d star
           | Some false => rule_effect (r_table r) (log_dropped d) star
           | Some true => log_dropped (rule_effect (r_table r) d star)
           end in
  Z.ldiff (foldl (rule_effect (r_table r)) d (prefixes key)) (r_disabled r).

Inductive config_op :=
| Modify (match_ : option (list Z)) (include exclude : Z)
| Disable (destinations : Z)
| Enable (destinations : Z).

Definition configure (op : config_op) (c : nr_attribute_config_t) : option nr_attribute_config_t :=
  match op with
  | Modify match_ include exclude =>
      res ← nr_attribute_config_modify_destinations (Some c) match_ include exclude; res
  | Disable d => nr_attribute_config_disable_destinations (Some c) d
  | Enable d => nr_attribute_config_enable_destinations (Some c) d
  end.

Definition refer (op : config_op) (r : reference) : reference :=
  match op with
  | Modify None _ _ => r
  | Modify (Some text) include exclude => reference_modify r text (include, exclude)
  | Disable d => Reference (r_table r) (r_final r) (Z.lor (r_disabled r) d)
  | Enable d => Reference (r_table r) (r_final r) (Z.ldiff (r_disabled r) d)
  end.

(** The empty pattern has no last character. *)
Definition config_op_ok (op : config_op) : Prop :=
  match op with Modify (Some text) _ _ => is_cstr text ∧ text ≠ [] | _ => True end.

(** ** The list behind the reference *)
Definition final_rule : modifier := Modifier true true [] 0 0 0 NR_ATTRIBUTE_DESTINATION_LOG.

Definition with_final (f : option bool) (us : list modifier) : list modifier :=
  match f, us with
  | None, _ => us
  | Some true, u :: us => u :: final_rule :: us
  | Some _, _ => final_rule :: us
  end.

Inductive realizes : nr_attribute_config_t → reference → Prop :=
| Realizes us f d : rules_ok us →
    (f = Some true → ∃ u us', us = u :: us' ∧ pattern_of u = star) →
    realizes (Config d (with_final f us)) (Reference (table_of us) f d).

Lemma final_rule_ok : modifier_ok final_rule.
Proof. split; [constructor|done|done]. Qed.

Lemma star_least q : is_cstr q.1 → q = star ∨ before star q.
Proof.
  destruct q as [[|c p] []]; simpl; intros Hc; [by left|right; by right|right; left..];
    apply Forall_cons in Hc as [? _]; simpl; bool_cases.
Qed.

Lemma not_before_star q : is_cstr q.1 → ¬ before q star.
Proof.
  intros Hc [H|(_ & _ & E)]; [|done]. destruct q as [[|c p] w]; simpl in *; [lia|].
  apply Forall_cons in Hc as [? _]. revert H. bool_cases.
Qed.

(** A rule of the user passes the final rule. *)
Lemma insert_past_final m l : modifier_ok m → is_finalize_rule m = false →
  insert_modifier m (final_rule :: l) = final_rule :: insert_modifier m l.
Proof.
  intros Hm Hf. cbn [insert_modifier]. rewrite Hf.
  destruct (modifier_compare_spec m final_rule Hm final_rule_ok) as [Hc|Hc|Hc]; [|done..].
  destruct (not_before_star (pattern_of m)); [apply Hm|done].
Qed.

Lemma insert_with_final m f us : modifier_ok m → is_finalize_rule m = false → rules_ok us →
  (f = Some true → ∃ u us', us = u :: us' ∧ pattern_of u = star) →
  insert_modifier m (with_final f us) = with_final f (insert_modifier m us) ∧
  (f = Some true → ∃ u us', insert_modifier m us = u :: us' ∧ pattern_of u = star).
Proof.
  intros Hm Hf Hok Hu. destruct f as [[]|]; [|split; [|done]..].
  - destruct (Hu eq_refl) as (u & us' & -> & Eu). apply rules_ok_cons in Hok as [(Hmu & Hfu & _) _].
    cbn [with_final]. change (insert_modifier m (u :: ?l)) with
      (let cmp := nr_attribute_destination_modifier_compare m u in
       if cmp <? 0 then m :: u :: l
       else if (0 =? cmp) && Bool.eqb (is_finalize_rule m) (is_finalize_rule u) then
         Modifier (has_wildcard_suffix u) (is_finalize_rule u) (match_ u) (match_len u) (match_hash u)
           (Z.lor (include_destinations u) (include_destinations m))
           (Z.lor (exclude_destinations u) (exclude_destinations m)) :: l
       else u :: insert_modifier m l). rewrite insert_past_final, Hf, Hfu by done.
    destruct (modifier_compare_spec m u Hm Hmu) as [Hc|Hc|Hc]; cbv zeta.
    + rewrite Eu in Hc. destruct (not_before_star (pattern_of m)); [apply Hm|done].
    + simpl. split; [done|]. intros _. eexists _, _. split; [done|]. exact Eu.
    + simpl. split; [done|]. eauto.
  - by apply insert_past_final.
  - done.
Qed.

Lemma table_of_star u us : rules_ok (u :: us) → is_Some (table_of (u :: us) !! star) ↔ pattern_of u = star.
Proof.
  intros [(Hu & _ & Hb) _]%rules_ok_cons. rewrite table_of_cons.
  destruct (decide (pattern_of u = star)) as [->|Hne]; [by rewrite lookup_insert_eq|].
  rewrite lookup_insert_ne, table_of_None; [|by eapply Forall_impl; [exact Hb|]; intros m Hm E; cbv beta in Hm; rewrite <-E in Hm;
    destruct (not_before_star (pattern_of u)); [apply Hu|]|done].
  split; [by intros []|done].
Qed.

(** The final rule goes in front, or behind the user's rule for everything. *)
Lemma insert_final f us : rules_ok us → us ≠ [] →
  (f = Some true → ∃ u us', us = u :: us' ∧ pattern_of u = star) →
  let b := match f with Some b => b | None => bool_decide (is_Some (table_of us !! star)) end in
  insert_modifier final_rule (with_final f us) = with_final (Some b) us ∧
  (b = true → ∃ u us', us = u :: us' ∧ pattern_of u = star).
Proof.
  intros Hok Hne Hu b. destruct us as [|u us]; [done|].
  pose proof Hok as [(Hmu & Hfu & Hb) Hok']%rules_ok_cons. pose proof final_rule_ok as Hr.
  assert (pattern_of u = star → insert_modifier final_rule (u :: us) = u :: final_rule :: us) as Hstar.
  { intros Eu. cbn [insert_modifier]. destruct (modifier_compare_spec final_rule u Hr Hmu) as [Hc|Hc|Hc].
    1,3: rewrite Eu in Hc; by destruct (before_irrefl star (Forall_nil_2 _)).
    rewrite Hfu. simpl. f_equal. destruct us as [|v us]; [done|]. cbn [insert_modifier].
    apply rules_ok_cons in Hok' as [(Hmv & _) _]. rewrite Eu in Hb. apply Forall_cons in Hb as [Hbv _].
    destruct (modifier_compare_spec final_rule v Hr Hmv) as [Hv|Hv|Hv]; [done|..].
    - rewrite <-Hv in Hbv. by destruct (before_irrefl star (Forall_nil_2 _)).
    - destruct (not_before_star (pattern_of v)); [apply Hmv|done]. }
  destruct f as [[]|].
  - destruct (Hu eq_refl) as (u' & us' & [= <- <-] & Eu). split; [|eauto]. cbn [with_final insert_modifier].
    destruct (modifier_compare_spec final_rule u Hr Hmu) as [Hc|Hc|Hc].
    1,3: rewrite Eu in Hc; by destruct (before_irrefl star (Forall_nil_2 _)).
    by rewrite Hfu.
  - by split.
  - destruct (star_least (pattern_of u)) as [Eu|Hbu]; [apply Hmu|..]; unfold b.
    + rewrite bool_decide_true by by apply table_of_star. split; [by apply Hstar|eauto].
    + assert (pattern_of u ≠ star) by (intros E; rewrite E in Hbu; by destruct (before_irrefl star (Forall_nil_2 _))).
      rewrite bool_decide_false by by rewrite table_of_star. split; [|done]. cbn [with_final insert_modifier].
      destruct (modifier_compare_spec final_rule u Hr Hmu) as [Hc|Hc|Hc]; [done|by destruct (before_irrefl star (Forall_nil_2 _))|].
      destruct (not_before_star (pattern_of u)); [apply Hmu|done].
Qed.

Lemma rules_cstr us : rules_ok us → Forall (λ q : pattern, is_cstr q.1) (pattern_of <$> us).
Proof. intros [Hm _ _]. apply Forall_fmap. eapply Forall_impl; [exact Hm|]. by intros m []. Qed.

Lemma table_lookup us q e : rules_ok us →
  table_of us !! q = Some e ↔ ∃ m, m ∈ us ∧ pattern_of m = q ∧ effects m = e.
Proof.
  intros Hok. pose proof (sorted_NoDup _ (rules_cstr us Hok) (ru_sorted us Hok)) as Hn.
  unfold table_of. rewrite <-elem_of_list_to_map; [|by rewrite <-list_fmap_compose]. split.
  - intros (m & [= -> ->] & Hm)%list_elem_of_fmap. eauto.
  - intros (m & Hm & <- & <-). apply list_elem_of_fmap. eauto.
Qed.

Definition logs (m : modifier) : bool := goes_to_log (include_destinations m).
Definition logs_all (m : modifier) : bool := logs m && (has_wildcard_suffix m && (match_len m =? 0)).

Lemma needs_finalize_spec l acc :
  needs_finalize l acc = negb (existsb logs_all l) && (acc || existsb logs l).
Proof.
  revert acc. induction l as [|m l IH]; intros acc; simpl; [by destruct acc|]. unfold logs_all at 1, logs at 1 2.
  destruct (goes_to_log _); simpl; [|by rewrite IH]. destruct (_ && _); simpl; [done|]. rewrite IH. by destruct acc.
Qed.

Lemma needs_finalize_exclusive f us : rules_ok us →
  needs_finalize (with_final f us) false = exclusive (table_of us).
Proof.
  intros Hok. rewrite needs_finalize_spec. simpl (false || _).
  assert (∀ g, g final_rule = false → existsb g (with_final f us) = existsb g us) as Hg.
  { intros g Hg. destruct f as [[]|], us; simpl; by rewrite ?Hg. }
  rewrite !Hg by done. unfold exclusive. rewrite andb_comm. f_equal.
  - apply Bool.eq_iff_eq_true. rewrite negb_true_iff, bool_decide_eq_false. split.
    + intros (m & Hm%list_elem_of_In & Hl)%existsb_exists Hall.
      assert (goes_to_log (effects m).1 = false); [|by unfold logs in Hl; simpl in *; congruence].
      apply (Hall (pattern_of m)). apply table_lookup; eauto.
    + intros Hnot. destruct (existsb logs us) eqn:Ex; [done|]. destruct Hnot.
      intros q e (m & Hm & <- & <-)%table_lookup; [|done]. apply not_true_is_false. intros Hl.
      apply not_true_iff_false in Ex as []. apply existsb_exists. exists m. split; [by apply list_elem_of_In|done].
  - assert (∀ m, m ∈ us → modifier_ok m) as Hall by by apply Forall_forall, Hok.
    destruct (existsb logs_all us) eqn:Ex.
    + apply existsb_exists in Ex as (m & Hm%list_elem_of_In & [Hl [Hw Hlen]%andb_prop]%andb_prop).
      assert (table_of us !! star = Some (effects m)) as ->.
      { apply table_lookup; [done|]. exists m. split_and!; [done| |done]. unfold pattern_of. rewrite Hw.
        rewrite (mo_len m) in Hlen by auto. by destruct (match_ m); [|simpl in Hlen; lia]. }
      unfold logs in Hl. simpl. by rewrite Hl.
    + destruct (table_of us !! star) as [e|] eqn:E; [|done].
      apply table_lookup in E as (m & Hm & [= E1 E2] & <-); [|done]. f_equal. symmetry. apply not_true_is_false. intros Hl.
      apply not_true_iff_false in Ex as []. apply existsb_exists. exists m. split; [by apply list_elem_of_In|].
      unfold logs_all, logs. simpl in Hl. rewrite Hl, E2, (mo_len m), E1 by auto. done.
Qed.

(** ** Steps *)
Lemma final_rule_created : nr_attribute_destination_modifier_create_internal (lit "*") 0 NR_ATTRIBUTE_DESTINATION_LOG true = Some final_rule.
Proof. vm_compute. reflexivity. Qed.

Lemma config_create_spec text i e : is_cstr text → text ≠ [] →
  ∃ m, nr_attribute_destination_modifier_create_internal text i e false = Some m ∧ modifier_ok m ∧
    is_finalize_rule m = false ∧ pattern_of m = pattern_of_text text ∧ effects m = (i, e).
Proof.
  intros Hc Hne. unfold nr_attribute_destination_modifier_create_internal, nr_strlen. rewrite cstr_id by done.
  destruct (exists_last Hne) as (p & c & ->). pose proof Hc as [Hp _]%Forall_app.
  rewrite length_app. simpl (length [c]). destruct (Z.eqb_spec (Z.of_nat (length p + 1)) 0); [lia|].
  unfold pattern_of_text. rewrite last_snoc, length_app. simpl (length [c]).
  replace (length p + 1 - 1)%nat with (length p) by lia. rewrite take_app_length.
  assert (char_at (p ++ [c]) (Z.of_nat (length p + 1) - 1) = c) as ->.
  { unfold char_at. replace (Z.to_nat _) with (length p) by lia. by rewrite lookup_app_r, Nat.sub_diag by lia. }
  destruct (Z.eqb_spec c 42); eexists; (split; [done|]).
  - assert (nr_strndup (Some (p ++ [c])) (Z.of_nat (length p + 1) - 1) = p) as ->.
    { unfold nr_strndup. destruct (Z.eqb_spec (Z.of_nat (length p + 1) - 1) 0).
      - by destruct p; [|simpl in *; lia].
      - replace (Z.to_nat _) with (length p) by lia. rewrite take_app_length. by apply cstr_id. }
    split_and!; [split; simpl; [done|lia|done]|done..].
  - assert (nr_strndup (Some (p ++ [c])) (Z.of_nat (length p + 1)) = p ++ [c]) as ->.
    { unfold nr_strndup. destruct (Z.eqb_spec (Z.of_nat (length p + 1)) 0); [lia|].
      rewrite take_ge by (rewrite length_app; simpl; lia). by apply cstr_id. }
    split_and!; [split; simpl; [done|rewrite length_app; simpl; lia|done]|done..].
Qed.

Lemma kept_all f us : rules_ok us →
  filter (λ cur, negb (is_finalize_rule cur && goes_to_log (include_destinations cur))) (with_final f us) = with_final f us.
Proof.
  intros [_ Hu _]. apply filter_all.
  assert (Forall (λ m, negb (is_finalize_rule m && goes_to_log (include_destinations m))) us) as H.
  { eapply Forall_impl; [exact Hu|]. by intros m ->. }
  destruct f as [[]|], us; try done; repeat (apply Forall_cons_2); try done; by apply Forall_cons in H as [? ?].
Qed.

Lemma insert_nonempty m l : insert_modifier m l ≠ [].
Proof. destruct l as [|m' l]; [done|]. cbn [insert_modifier]. destruct (_ <? 0); [done|]. by destruct (_ && _). Qed.

Lemma with_final_nonempty f us : us ≠ [] → with_final f us ≠ [].
Proof. intros Hne. by destruct f as [[]|], us. Qed.

Lemma finalize_step d l : l ≠ [] →
  nr_attribute_config_finalize_log_destination (Config d l) =
    let kept := filter (λ cur, negb (is_finalize_rule cur && goes_to_log (include_destinations cur))) l in
    if needs_finalize kept false
    then modify_with Some (Config d kept) (Some (lit "*")) 0 NR_ATTRIBUTE_DESTINATION_LOG true
    else Some (Config d kept).
Proof. by destruct l. Qed.

Lemma finalize_spec d f us : rules_ok us → us ≠ [] →
  (f = Some true → ∃ u us', us = u :: us' ∧ pattern_of u = star) →
  let t := table_of us in
  ∃ c', nr_attribute_config_finalize_log_destination (Config d (with_final f us)) = Some c' ∧
    realizes c' (Reference t (if exclusive t
      then Some match f with Some b => b | None => bool_decide (is_Some (t !! star)) end else f) d).
Proof.
  intros Hok Hne Hu t. rewrite finalize_step by by apply with_final_nonempty.
  cbv zeta. rewrite kept_all, needs_finalize_exclusive by done.
  fold t. destruct (exclusive t); [|eexists; split; [done|by constructor]].
  unfold modify_with. rewrite final_rule_created. cbn [mbind option_bind modifier_list disabled_destinations].
  destruct (insert_final f us Hok Hne Hu) as [-> Hb]. eexists. split; [done|].
  constructor; [done|]. intros [= E']. by apply Hb.
Qed.

Lemma configure_refer op c r : realizes c r → config_op_ok op →
  ∃ c', configure op c = Some c' ∧ realizes c' (refer op r).
Proof.
  intros [us f d Hok Hu] Hop. destruct op as [[text|] i e|x|x]; [|by eexists; split; [done|]; constructor..].
  destruct Hop as [Hc Hne]. destruct (config_create_spec text i e Hc Hne) as (m & Em & Hm & Hf & Ep & Ee).
  unfold configure, nr_attribute_config_modify_destinations, nr_attribute_config_modify_destinations_internal, modify_with.
  rewrite Em. cbn [mbind option_bind fmap option_fmap option_map disabled_destinations modifier_list].
  destruct (insert_with_final m f us Hm Hf Hok Hu) as [-> Hu'].
  destruct (insert_rules m us Hm Hf Hok) as (Hok' & Et & _).
  destruct (finalize_spec d f (insert_modifier m us) Hok' (insert_nonempty m us) Hu') as (c' & -> & Hr).
  exists c'. split; [done|]. unfold refer, reference_modify. cbn [r_table r_final r_disabled]. by rewrite <-Ep, <-Ee, <-Et.
Qed.

(** ** Applying the rules *)
Lemma prefixes_spec key q : is_cstr key → q ∈ star :: prefixes key ↔ matches q key.
Proof.
  intros Hk. rewrite elem_of_cons. unfold prefixes. rewrite elem_of_app, list_elem_of_fmap, list_elem_of_singleton.
  unfold matches. destruct q as [p []]; simpl; split.
  - intros [[= ->]|[(n & [= ->] & _)|[=]]]; [apply prefix_nil|]. exists (drop n key). by rewrite take_drop.
  - intros [k ->]. destruct p as [|c p]; [by left|]. right. left. exists (length (c :: p)).
    rewrite take_app_length. split; [done|]. apply elem_of_seq. rewrite length_app. simpl. lia.
  - intros [[=]|[(n & [=] & _)|[= ->]]]. done.
  - intros ->. by right; right.
Qed.

Lemma prefixes_sorted key : is_cstr key → StronglySorted before (star :: prefixes key).
Proof.
  intros Hk. unfold prefixes.
  assert (∀ n m, (n < m ≤ length key)%nat → strcmp (take n key) (take m key) < 0) as Htake.
  { intros n m Hnm. destruct (drop n (take m key)) as [|c l] eqn:E.
    - apply (f_equal length) in E. rewrite length_drop, length_take in E. simpl in E. lia.
    - assert (take m key = take n key ++ c :: l) as E'.
      { rewrite <-(take_drop n (take m key)), take_take, E. by replace (n `min` m)%nat with n by lia. }
      rewrite E'. apply strcmp_prefix. rewrite <-E'. by apply is_cstr_take. }
  change (star :: ((λ n, (take n key, true)) <$> seq 1 (length key)) ++ [(key, false)]) with
    (((λ n, (take n key, true)) <$> seq 0 (S (length key))) ++ [(key, false)]).
  assert (∀ k a, (a + k ≤ S (length key))%nat → StronglySorted before ((λ n, (take n key, true)) <$> seq a k)) as Hseq.
  { induction k as [|k IH]; intros a Ha; [constructor|]. cbn [seq]. rewrite fmap_cons. constructor; [apply IH; lia|].
    apply Forall_fmap, Forall_forall. intros n Hn%elem_of_seq. left. apply Htake. lia. }
  apply StronglySorted_app. split_and!; [|by apply Hseq|repeat constructor].
  intros q1 q2 (n & -> & Hn)%list_elem_of_fmap ->%list_elem_of_singleton. apply elem_of_seq in Hn.
  destruct (decide (n = length key)) as [->|]; [right; simpl; by rewrite take_ge|].
  left. simpl. rewrite <-(take_ge key (length key)) at 2 by done. apply Htake. lia.
Qed.

Lemma foldl_skip {A B} (f : A → B → A) (P : B → Prop) `{∀ x, Decision (P x)} a l :
  (∀ a b, b ∈ l → ¬ P b → f a b = a) → foldl f a l = foldl f a (filter P l).
Proof.
  revert a. induction l as [|b l IH]; intros a Hf; [done|]. simpl. rewrite filter_cons.
  rewrite IH by (intros; apply Hf; [by right|done]). case_decide; [done|]. by rewrite Hf by (left || done).
Qed.

(** The rules that match, in the order of the list, are the rules of the
    patterns of the key. *)
Lemma matching_rules us key : rules_ok us → is_cstr key →
  filter (λ q, matches q key) (pattern_of <$> us) = filter (λ q, is_Some (table_of us !! q)) (star :: prefixes key).
Proof.
  intros Hok Hk. apply sorted_same_elements.
  - apply Forall_forall. intros q [_ Hq]%list_elem_of_filter. pose proof (rules_cstr us Hok) as Hc.
    rewrite Forall_forall in Hc. by apply Hc.
  - apply Forall_forall. intros q [_ Hq%prefixes_spec]%list_elem_of_filter; [|done]. unfold matches in Hq.
    destruct q.2; [destruct Hq as [k ->]; by apply Forall_app in Hk as [? _]|by subst].
  - apply sorted_filter, Hok.
  - by apply sorted_filter, prefixes_sorted.
  - intros q. rewrite !list_elem_of_filter, prefixes_spec, list_elem_of_fmap by done.
    assert (is_Some (table_of us !! q) ↔ ∃ m, q = pattern_of m ∧ m ∈ us) as ->; [|tauto]. split.
    + intros [e (m & Hm & <- & _)%table_lookup]; eauto.
    + intros (m & -> & Hm). exists (effects m). apply table_lookup; eauto.
Qed.

Definition apply_to (key : list Z) (d : Z) (m : modifier) : Z :=
  nr_attribute_destination_modifier_apply m (Some key) (nr_mkhash (Some key) None).1 d.

Lemma fold_rules us l key d : rules_ok us → is_cstr key → (∀ m, m ∈ l → m ∈ us) →
  foldl (apply_to key) d l = foldl (rule_effect (table_of us)) d (filter (λ q, matches q key) (pattern_of <$> l)).
Proof.
  intros Hok Hk. revert d. induction l as [|m l IH]; intros d Hl; [done|].
  assert (m ∈ us) as Hm by (apply Hl; left). rewrite fmap_cons, filter_cons. simpl foldl at 1.
  rewrite IH by (intros; apply Hl; by right). unfold apply_to.
  rewrite modifier_apply_spec; [|by destruct Hok as [Hok _ _]; rewrite Forall_forall in Hok; apply Hok|done].
  case_decide; [|done]. simpl. unfold rule_effect at 3.
  by rewrite (proj2 (table_lookup us (pattern_of m) (effects m) Hok)) by eauto.
Qed.

Lemma fold_prefixes us key d : rules_ok us → is_cstr key →
  foldl (apply_to key) d us = foldl (rule_effect (table_of us)) (rule_effect (table_of us) d star) (prefixes key).
Proof.
  intros Hok Hk. rewrite (fold_rules us us) by done. rewrite matching_rules by done.
  change (foldl (rule_effect ?t) (rule_effect ?t ?d star) (prefixes key)) with (foldl (rule_effect t) d (star :: prefixes key)).
  symmetry. apply foldl_skip. intros d' q _ Hq. unfold rule_effect. destruct (table_of us !! q); [|done].
  by destruct Hq.
Qed.

Lemma fold_behind_star u us key d : rules_ok (u :: us) → is_cstr key → pattern_of u = star →
  apply_to key d u = rule_effect (table_of (u :: us)) d star ∧
  foldl (apply_to key) d us = foldl (rule_effect (table_of (u :: us))) d (prefixes key).
Proof.
  intros Hok Hk Eu. pose proof (matching_rules (u :: us) key Hok Hk) as E.
  assert (table_of (u :: us) !! star = Some (effects u)) as Es.
  { apply table_lookup; [done|]. exists u. split_and!; [left|done|done]. }
  rewrite fmap_cons, Eu, !filter_cons, Es in E.
  rewrite decide_True in E by apply prefix_nil. rewrite decide_True in E by done. injection E as E.
  split.
  - unfold apply_to, rule_effect. rewrite Es. apply rules_ok_cons in Hok as [(Hu & _) _]. rewrite modifier_apply_spec by done.
    rewrite Eu, decide_True by apply prefix_nil. done.
  - rewrite (fold_rules (u :: us) us) by (done || by right). rewrite E. symmetry. apply foldl_skip.
    intros d' q _ Hq. unfold rule_effect. destruct (table_of (u :: us) !! q); [|done]. by destruct Hq.
Qed.

Lemma apply_final key d : is_cstr key → apply_to key d final_rule = log_dropped d.
Proof.
  intros Hk. unfold apply_to. rewrite modifier_apply_spec by (done || apply final_rule_ok).
  rewrite decide_True by apply prefix_nil. simpl. by rewrite Z.lor_0_r.
Qed.

Lemma apply_refer c r key d : realizes c r → is_cstr key →
  nr_attribute_config_apply (Some c) (Some key) (nr_mkhash (Some key) None).1 d = reference_apply r key d.
Proof.
  intros [us f dis Hok Hu] Hk. unfold nr_attribute_config_apply, reference_apply. cbn [modifier_list disabled_destinations r_table r_final r_disabled].
  f_equal. change (foldl (apply_to key) d (with_final f us) =
    foldl (rule_effect (table_of us)) (match f with None => rule_effect (table_of us) d star
      | Some false => rule_effect (table_of us) (log_dropped d) star
      | Some true => log_dropped (rule_effect (table_of us) d star) end) (prefixes key)).
  destruct f as [[]|].
  - destruct (Hu eq_refl) as (u & us' & -> & Eu). cbn [with_final foldl].
    destruct (fold_behind_star u us' key d Hok Hk Eu) as [E1 _]. rewrite E1, apply_final by done.
    by apply fold_behind_star.
  - change (with_final (Some false) us) with (final_rule :: us). cbn [foldl]. rewrite apply_final by done.
    by apply fold_prefixes.
  - by apply fold_prefixes.
Qed.

(** ** The theorem *)
Definition configured (ops : list config_op) : option nr_attribute_config_t :=
  foldl (λ c op, c ≫= configure op) (Some nr_attribute_config_create) ops.
Definition referred (ops : list config_op) : reference :=
  foldl (λ r op, refer op r) (Reference ∅ None 0) ops.

Lemma configured_realizes ops : Forall config_op_ok ops →
  ∃ c, configured ops = Some c ∧ realizes c (referred ops).
Proof.
  unfold configured, referred. induction ops as [|op ops IH] using rev_ind; intros Hops.
  - exists nr_attribute_config_create. split; [done|]. apply (Realizes [] None 0); [by repeat constructor|done].
  - apply Forall_app in Hops as [Hops [Hop _]%Forall_cons]. destruct (IH Hops) as (c & E & Hr).
    rewrite !foldl_app, E. simpl. by apply configure_refer.
Qed.

Lemma copy_same c r : realizes c r → nr_attribute_config_copy (Some c) = Some c.
Proof.
  intros [us f d [Hok _ _] _]. unfold nr_attribute_config_copy. simpl. do 2 f_equal.
  assert (∀ l, Forall modifier_ok l → nr_attribute_destination_modifier_copy <$> l = l) as H.
  { induction 1 as [|m l [Hc _ _] _ IH]; [done|]. rewrite fmap_cons, IH. f_equal. destruct m.
    unfold nr_attribute_destination_modifier_copy, nr_strdup. simpl in *. by rewrite cstr_id. }
  apply H. pose proof final_rule_ok. destruct f as [[]|], us; repeat apply Forall_cons_2; try done;
    by apply Forall_cons in Hok as [? ?].
Qed.

(** C2: The configuration decides by precedence. However rules were added, destinations
    disabled and enabled, the destinations of a key are what one gets by taking the rules for the prefixes of the key,
    shortest first, and then the rule for the key itself, each adding what it includes and then removing what it
    excludes, rules for the same pattern counting as one; disabled destinations are removed at the end.  The log
    destination is taken away first of all once some rule includes it and the rule for everything does not; but it is
    taken away after the rule for everything when that one was there before, so that an include of everything that
    follows stays without effect. Copies of the configuration decide the same. *)
Theorem nr_attribute_config_by_precedence (ops : list config_op) (key : list Z) (d : Z) :
  Forall config_op_ok ops → is_cstr key →
  ∃ c, configured ops = Some c ∧ nr_attribute_config_copy (Some c) = Some c ∧
    nr_attribute_config_apply (Some c) (Some key) (nr_mkhash (Some key) None).1 d = reference_apply (referred ops) key d.
Proof.
  intros Hops Hk. destruct (configured_realizes ops Hops) as (c & E & Hr). exists c.
  split_and!; [done|by eapply copy_same|by apply apply_refer].
Qed.

(** Two orders of the same rules: the key goes to the log or not. *)
Lemma nr_attribute_config_by_precedence_witness :
  let late := [Modify (Some (lit "*")) 0 2; Modify (Some (lit "a.b")) 32 0; Modify (Some (lit "*")) 32 0] in
  let early := [Modify (Some (lit "a.b")) 32 0; Modify (Some (lit "*")) 32 2] in
  (∃ c, configured late = Some c ∧ nr_attribute_config_apply (Some c) (Some (lit "a.c")) (nr_mkhash (Some (lit "a.c")) None).1 63 = 29) ∧
  (∃ c, configured early = Some c ∧ nr_attribute_config_apply (Some c) (Some (lit "a.c")) (nr_mkhash (Some (lit "a.c")) None).1 63 = 61).
Proof.
  intros late early.
  destruct (nr_attribute_config_by_precedence late (lit "a.c") 63) as (c & E & _ & A);
    [repeat constructor; done|by repeat constructor|].
  destruct (nr_attribute_config_by_precedence early (lit "a.c") 63) as (c' & E' & _ & A');
    [repeat constructor; done|by repeat constructor|].
  split; [exists c; split; [done|]; rewrite A|exists c'; split; [done|]; rewrite A']; vm_compute; reflexivity.
Defined.
