(* ===== verification/Attributes.v ===== *)
(** * Attributes: the attributes of a transaction (src/axiom/nr_attributes.c)

    User and agent attributes are kept in two lists, the newest first; a later
    attribute replaces an earlier one with its key.  The lists own their
    attributes.  Messages to the log are left out. *)

From S2P Require Import Prelude Memory CString Strings Hash Double Object Json Buffer ObjectJson AttributeConfig.
Local Open Scope Z_scope.

Definition NR_ATTRIBUTE_KEY_LENGTH_LIMIT : Z := 255.
Definition NR_ATTRIBUTE_VALUE_LENGTH_LIMIT : Z := 255.
Definition NR_ATTRIBUTE_USER_LIMIT : Z := 64.
Definition NR_LOG_CONTEXT_DATA_ATTRIBUTE_PREFIX : list Z := lit "context.".

Record nr_attribute_t := Attribute {
  key : list Z;
  key_hash : Z;
  value : obj;
  destinations : Z;
}.

Record nr_attributes_t := Attributes {
  config : option nr_attribute_config_t;
  num_user_attributes : Z;
  agent_attribute_list : list nr_attribute_t;
  user_attribute_list : list nr_attribute_t;
}.

Definition nr_attributes_create (config : option nr_attribute_config_t) : nr_attributes_t :=
  Attributes (nr_attribute_config_copy config) 0 [] [].

(** ** Removing *)
Fixpoint remove_first (l : list nr_attribute_t) (k : list Z) (hash : Z) : option (list nr_attribute_t) :=
  match l with
  | [] => None
  | a :: l =>
      if (hash =? key_hash a) && (0 =? nr_strcmp (Some k) (Some (key a))) then Some l
      else (λ l, a :: l) <$> remove_first l k hash
  end.

Definition nr_attributes_remove_duplicate (ats : option nr_attributes_t) (k : option (list Z)) (hash : Z) (is_user : bool) :
    option nr_attributes_t :=
  match ats, k with
  | Some a, Some k =>
      Some
        match remove_first (if is_user then user_attribute_list a else agent_attribute_list a) k hash with
        | None => a
        | Some l =>
            if is_user then Attributes (config a) (num_user_attributes a - 1) (agent_attribute_list a) l
            else Attributes (config a) (num_user_attributes a) l (user_attribute_list a)
        end
  | _, _ => ats
  end.

Definition nr_attributes_remove_attribute (ats : option nr_attributes_t) (k : option (list Z)) (is_user : bool) :
    option nr_attributes_t :=
  match ats, k with
  | Some _, Some _ => nr_attributes_remove_duplicate ats k (nr_mkhash k None).1 is_user
  | _, _ => ats
  end.

(** ** Adding *)
Definition nr_attributes_is_valid_value (v : obj) : bool :=
  match v with
  | None => false
  | Some (ODouble (SpecFloat.S754_nan | SpecFloat.S754_infinity _)) => false
  | Some (ODouble _ | ONone | OBoolean _ | OInt _ _ | OLong _ | OUlong _ | OString _) => true
  | Some (OJstring _ | OHash _ _ | OArray _ _) => false
  end.

Definition nr_attributes_add_internal (ats : option nr_attributes_t) (default_destinations : Z) (is_user : bool)
    (k : option (list Z)) (v : obj) : nr_status_t * option nr_attributes_t :=
  match ats, k with
  | Some a, Some s =>
      if char_at s 0 =? 0 then (NR_FAILURE, ats)
      else if negb (nr_attributes_is_valid_value v) then (NR_FAILURE, ats)
      else if NR_ATTRIBUTE_KEY_LENGTH_LIMIT <? nr_strlen k then (NR_FAILURE, ats)
      else
        let hash := (nr_mkhash k None).1 in
        let final_destinations := nr_attribute_config_apply (config a) k hash default_destinations in
        if 0 =? final_destinations then (NR_FAILURE, ats)
        else
          let a := default a (nr_attributes_remove_duplicate (Some a) k hash is_user) in
          if is_user && (NR_ATTRIBUTE_USER_LIMIT =? num_user_attributes a) then (NR_FAILURE, Some a)
          else
            let attribute := Attribute (nr_strdup k) hash (nro_copy <$> v) final_destinations in
            (NR_SUCCESS, Some
              (if is_user
               then Attributes (config a) (num_user_attributes a + 1) (agent_attribute_list a) (attribute :: user_attribute_list a)
               else Attributes (config a) (num_user_attributes a) (attribute :: agent_attribute_list a) (user_attribute_list a)))
  | _, _ => (NR_FAILURE, ats)
  end.

(** Strings are cut to the limit first. *)
Definition nr_attributes_add (ats : option nr_attributes_t) (default_destinations : Z) (is_user : bool)
    (k : option (list Z)) (v : obj) : nr_status_t * option nr_attributes_t :=
  match v with
  | Some (OString _) =>
      let str := default [] (nro_get_string v).1 in
      let buf := (snprintf (replicate (Z.to_nat (NR_ATTRIBUTE_VALUE_LENGTH_LIMIT + 1)) 0) (NR_ATTRIBUTE_VALUE_LENGTH_LIMIT + 1) (cstr str)).2 in
      nr_attributes_add_internal ats default_destinations is_user k (Some (nro_new_string (Some buf)))
  | _ => nr_attributes_add_internal ats default_destinations is_user k v
  end.

Definition nr_attributes_user_add ats dests k v := nr_attributes_add ats dests true k v.
Definition nr_attributes_user_add_string ats dests k (s : option (list Z)) :=
  nr_attributes_user_add ats dests k (Some (nro_new_string s)).
Definition nr_attributes_user_add_long ats dests k (lng : Z) :=
  nr_attributes_user_add ats dests k (Some (nro_new_long lng)).
Definition nr_attributes_agent_add_long ats dests k (lng : Z) :=
  nr_attributes_add ats dests false k (Some (nro_new_long lng)).
Definition nr_attributes_agent_add_string ats dests k (s : option (list Z)) :=
  nr_attributes_add ats dests false k (Some (nro_new_string s)).

(** ** Reading *)
Definition nr_attributes_to_obj_internal (l : list nr_attribute_t) (prefix : option (list Z)) (destination : Z) : obj :=
  match l with
  | [] => None
  | _ =>
      foldl (λ o a,
        if Z.land (destinations a) destination =? 0 then o
        else match prefix with
             | None => (nro_set_hash o (Some (key a)) (value a)).1
             | Some p => (nro_set_hash o (Some (p ++ key a)) (value a)).1
             end) (Some nro_new_hash) l
  end.

Definition nr_attributes_user_to_obj (ats : option nr_attributes_t) (destination : Z) : obj :=
  ats ≫= λ a, nr_attributes_to_obj_internal (user_attribute_list a) None destination.
Definition nr_attributes_agent_to_obj (ats : option nr_attributes_t) (destination : Z) : obj :=
  ats ≫= λ a, nr_attributes_to_obj_internal (agent_attribute_list a) None destination.
Definition nr_attributes_logcontext_to_obj (ats : option nr_attributes_t) (destination : Z) : obj :=
  ats ≫= λ a, nr_attributes_to_obj_internal (user_attribute_list a) (Some NR_LOG_CONTEXT_DATA_ATTRIBUTE_PREFIX) destination.

Definition nr_attributes_user_exists (ats : option nr_attributes_t) (k : option (list Z)) : bool :=
  match ats with
  | None => false
  | Some a => existsb (λ a, 0 =? nr_strcmp (Some (key a)) k) (user_attribute_list a)
  end.

Section debug.
Context `{Allocator Z} (radix : Z).

Definition add_dest (dests : obj) (set : bool) (name : list Z) : obj :=
  if set then (nro_set_array_string dests 0 (Some name)).1 else dests.

Definition nr_attribute_debug_json (a : nr_attribute_t) : list Z :=
  let has d := negb (Z.land d (destinations a) =? 0) in
  let dests := Some nro_new_array in
  let dests := add_dest dests (has NR_ATTRIBUTE_DESTINATION_TXN_EVENT) (lit "event") in
  let dests := add_dest dests (has NR_ATTRIBUTE_DESTINATION_TXN_TRACE) (lit "trace") in
  let dests := add_dest dests (has NR_ATTRIBUTE_DESTINATION_ERROR) (lit "error") in
  let dests := add_dest dests (has NR_ATTRIBUTE_DESTINATION_BROWSER) (lit "browser") in
  let dests := add_dest dests (has NR_ATTRIBUTE_DESTINATION_LOG) (lit "log") in
  let o := (nro_set_hash (Some nro_new_hash) (Some (lit "dests")) dests).1 in
  let o := (nro_set_hash_string o (Some (lit "key")) (Some (key a))).1 in
  let o := (nro_set_hash o (Some (lit "value")) (value a)).1 in
  nro_to_json radix o.

Definition nr_attributes_debug_json (ats : option nr_attributes_t) : option (list Z) :=
  a ← ats;
  let array l := foldl (λ o x, (nro_set_array_jstring o 0 (Some (nr_attribute_debug_json x))).1) (Some nro_new_array) l in
  let o := (nro_set_hash (Some nro_new_hash) (Some (lit "user")) (array (user_attribute_list a))).1 in
  let o := (nro_set_hash o (Some (lit "agent")) (array (agent_attribute_list a))).1 in
  Some (nro_to_json radix o).
End debug.

(** ** The reference: two maps

    From keys to the value kept and the destinations it goes to. *)
Abbreviation bindings_of := (gmap (list Z) (nrobj_t * Z)).
Record reference := Reference { r_user : bindings_of; r_agent : bindings_of }.

(** What is kept of a value; [None] when it is refused. *)
Definition kept_value (v : obj) : option nrobj_t :=
  match v with
  | Some (OString s) => Some (OString (Some (take (Z.to_nat NR_ATTRIBUTE_VALUE_LENGTH_LIMIT) (cstr (default [] s)))))
  | Some v => if nr_attributes_is_valid_value (Some v) then Some (nro_copy v) else None
  | None => None
  end.

Section reference.
Context (cfg : option nr_attribute_config_t).

Definition goes_to (k : list Z) (d : Z) : Z := nr_attribute_config_apply cfg (Some k) (nr_mkhash (Some k) None).1 d.

Definition reference_store (d : Z) (is_user : bool) (k : option (list Z)) (v : option nrobj_t) (r : reference) :
    nr_status_t * reference :=
  match usable k, v with
  | Some k, Some v =>
      if decide (Z.of_nat (length k) ≤ NR_ATTRIBUTE_KEY_LENGTH_LIMIT ∧ goes_to k d ≠ 0) then
        if is_user then
          if decide (r_user r !! k = None ∧ Z.of_nat (size (r_user r)) = NR_ATTRIBUTE_USER_LIMIT) then (NR_FAILURE, r)
          else (NR_SUCCESS, Reference (<[k:=(v, goes_to k d)]> (r_user r)) (r_agent r))
        else (NR_SUCCESS, Reference (r_user r) (<[k:=(v, goes_to k d)]> (r_agent r)))
      else (NR_FAILURE, r)
  | _, _ => (NR_FAILURE, r)
  end.

Definition reference_add (d : Z) (is_user : bool) (k : option (list Z)) (v : obj) : reference → nr_status_t * reference :=
  reference_store d is_user k (kept_value v).

(** The value an object made for a destination has under a key. *)
Definition reference_value (m : bindings_of) (d : Z) (k : list Z) : obj :=
  '(v, ds) ← m !! k; if Z.land ds d =? 0 then None else Some v.

Inductive attribute_op :=
| UserAdd (d : Z) (k : option (list Z)) (v : obj)
| UserAddString (d : Z) (k s : option (list Z))
| UserAddLong (d : Z) (k : option (list Z)) (lng : Z)
| AgentAddString (d : Z) (k s : option (list Z))
| AgentAddLong (d : Z) (k : option (list Z)) (lng : Z)
| Remove (k : list Z) (is_user : bool)
| UserExists (k : list Z)
| UserValue (d : Z) (k : list Z)
| AgentValue (d : Z) (k : list Z)
| LogValue (d : Z) (k : list Z).

Inductive attribute_result :=
| RStatus (rv : nr_status_t)
| RDone
| RExists (b : bool)
| RObject (null : bool) (v : obj).

Definition look (o : obj) (k : list Z) : attribute_result :=
  RObject (match o with Some _ => false | None => true end) (nro_get_hash_value o (Some k)).1.

Definition exec (op : attribute_op) (ats : option nr_attributes_t) : attribute_result * option nr_attributes_t :=
  let status '(rv, ats) := (RStatus rv, ats) in
  match op with
  | UserAdd d k v => status (nr_attributes_user_add ats d k v)
  | UserAddString d k s => status (nr_attributes_user_add_string ats d k s)
  | UserAddLong d k lng => status (nr_attributes_user_add_long ats d k lng)
  | AgentAddString d k s => status (nr_attributes_agent_add_string ats d k s)
  | AgentAddLong d k lng => status (nr_attributes_agent_add_long ats d k lng)
  | Remove k is_user => (RDone, nr_attributes_remove_attribute ats (Some k) is_user)
  | UserExists k => (RExists (nr_attributes_user_exists ats (Some k)), ats)
  | UserValue d k => (look (nr_attributes_user_to_obj ats d) k, ats)
  | AgentValue d k => (look (nr_attributes_agent_to_obj ats d) k, ats)
  | LogValue d k => (look (nr_attributes_logcontext_to_obj ats d) (NR_LOG_CONTEXT_DATA_ATTRIBUTE_PREFIX ++ k), ats)
  end.

Definition refer (op : attribute_op) (r : reference) : attribute_result * reference :=
  let status '(rv, r) := (RStatus rv, r) in
  let value m d k := (RObject (bool_decide (m = ∅)) (reference_value m d k), r) in
  match op with
  | UserAdd d k v => status (reference_add d true k v r)
  | UserAddString d k s => status (reference_add d true k (Some (OString s)) r)
  | UserAddLong d k lng => status (reference_add d true k (Some (OLong lng)) r)
  | AgentAddString d k s => status (reference_add d false k (Some (OString s)) r)
  | AgentAddLong d k lng => status (reference_add d false k (Some (OLong lng)) r)
  | Remove k is_user =>
      (RDone, if is_user then Reference (delete k (r_user r)) (r_agent r) else Reference (r_user r) (delete k (r_agent r)))
  | UserExists k => (RExists (bool_decide (is_Some (r_user r !! k))), r)
  | UserValue d k | LogValue d k => value (r_user r) d k
  | AgentValue d k => value (r_agent r) d k
  end.

Definition attribute_op_ok (op : attribute_op) : Prop :=
  match op with
  | UserAdd _ k v => is_cstr (default [] k) ∧ from_option obj_ok True v
  | UserAddString _ k s | AgentAddString _ k s => is_cstr (default [] k) ∧ is_cstr (default [] s)
  | UserAddLong _ k lng | AgentAddLong _ k lng => is_cstr (default [] k) ∧ long_range lng
  | Remove k _ | UserExists k | UserValue _ k | AgentValue _ k | LogValue _ k => is_cstr k
  end.

(** ** Lists as maps *)
Definition held (a : nr_attribute_t) : nrobj_t := default ONone (value a).
Definition map_of (l : list nr_attribute_t) : bindings_of := list_to_map ((λ a, (key a, (held a, destinations a))) <$> l).

Record attribute_ok (a : nr_attribute_t) : Prop := {
  ao_key : key_ok (key a);
  ao_short : Z.of_nat (length (key a)) ≤ NR_ATTRIBUTE_KEY_LENGTH_LIMIT;
  ao_hash : key_hash a = (nr_mkhash (Some (key a)) None).1;
  ao_value : value a = Some (held a);
  ao_held : obj_ok (held a) ∧ nro_copy (held a) = held a;
  ao_dest : destinations a ≠ 0;
}.

Record list_ok (l : list nr_attribute_t) : Prop := { lo_ok : Forall attribute_ok l; lo_nodup : NoDup (key <$> l) }.

Lemma list_ok_cons a l : list_ok (a :: l) ↔ (attribute_ok a ∧ key a ∉ key <$> l) ∧ list_ok l.
Proof.
  split.
  - intros [[? ?]%Forall_cons Hn]. rewrite fmap_cons in Hn. apply NoDup_cons in Hn as [? ?]. split; [done|by split].
  - intros [[? ?] [? ?]]. split; [by constructor|]. rewrite fmap_cons. by constructor.
Qed.

Lemma map_of_cons a l : map_of (a :: l) = <[key a:=(held a, destinations a)]> (map_of l).
Proof. done. Qed.

Lemma map_of_None l k : k ∉ key <$> l → map_of l !! k = None.
Proof. intros Hk. apply not_elem_of_list_to_map_1. by rewrite <-list_fmap_compose. Qed.

Lemma map_of_size l : list_ok l → size (map_of l) = length l.
Proof.
  induction l as [|a l IH]; intros Hok; [done|]. apply list_ok_cons in Hok as [[_ Hni] Hok].
  rewrite map_of_cons, map_size_insert_None by by apply map_of_None. simpl. by rewrite IH.
Qed.

Lemma map_of_empty l : bool_decide (map_of l = ∅) = match l with [] => true | _ => false end.
Proof.
  destruct l as [|a l]; [done|]. apply bool_decide_eq_false. rewrite map_of_cons. apply insert_non_empty.
Qed.

(** Looking for a key. *)
Lemma key_test a k : attribute_ok a → is_cstr k →
  ((nr_mkhash (Some k) None).1 =? key_hash a) && (0 =? nr_strcmp (Some k) (Some (key a))) = bool_decide (k = key a).
Proof.
  intros Ha Hk. rewrite (ao_hash a) by done. destruct (ao_key a Ha) as [Hc _]. pose proof (strcmp_eq k (key a) Hk Hc) as He.
  unfold nr_strcmp. case_bool_decide as E.
  - rewrite <-E, Z.eqb_refl. rewrite (proj2 (strcmp_eq k k Hk Hk) eq_refl). done.
  - destruct (Z.eqb_spec 0 (strcmp k (key a))); [|by rewrite andb_false_r]. destruct E. by apply He.
Qed.

Lemma remove_first_spec l k : list_ok l → is_cstr k →
  match remove_first l k (nr_mkhash (Some k) None).1 with
  | None => k ∉ key <$> l
  | Some l' => k ∈ key <$> l ∧ list_ok l' ∧ map_of l' = delete k (map_of l) ∧ S (length l') = length l ∧ (key <$> l') ⊆ key <$> l
  end.
Proof.
  induction l as [|a l IH]; intros Hok Hk; [by apply not_elem_of_nil|].
  apply list_ok_cons in Hok as [[Ha Hni] Hok]. specialize (IH Hok Hk). cbn [remove_first]. rewrite key_test by done.
  rewrite fmap_cons, map_of_cons. case_bool_decide as E.
  - subst k. split_and!; [left|done| |done|intros x; by right].
    rewrite delete_insert_eq. symmetry. apply delete_id. by apply map_of_None.
  - destruct (remove_first l k _) as [l'|]; simpl.
    + destruct IH as (Hin & Hok' & E' & Hl & Hs). split_and!; [by right| | |lia|].
      * apply list_ok_cons. split_and!; [done| |done]. intros Hin'. by apply Hni, Hs.
      * rewrite map_of_cons, E'. by rewrite delete_insert_ne.
      * intros x [->|Hx]%elem_of_cons; [left|right; by apply Hs].
    + by apply not_elem_of_cons.
Qed.

(** ** Steps *)
Inductive holds : option nr_attributes_t → reference → Prop :=
| Holds ag us : list_ok ag → list_ok us → Z.of_nat (length us) ≤ NR_ATTRIBUTE_USER_LIMIT →
    holds (Some (Attributes cfg (Z.of_nat (length us)) ag us)) (Reference (map_of us) (map_of ag)).

Definition without (k : list Z) (is_user : bool) (r : reference) : reference :=
  if is_user then Reference (delete k (r_user r)) (r_agent r) else Reference (r_user r) (delete k (r_agent r)).

(** What is left, and that its list does not have the key. *)
Lemma remove_holds ats r k is_user : holds ats r → is_cstr k →
  ∃ ag us, nr_attributes_remove_duplicate ats (Some k) (nr_mkhash (Some k) None).1 is_user =
      Some (Attributes cfg (Z.of_nat (length us)) ag us) ∧
    holds (Some (Attributes cfg (Z.of_nat (length us)) ag us)) (without k is_user r) ∧
    k ∉ (key <$> (if is_user then us else ag)) ∧
    (is_user = true → length us = size (delete k (r_user r))).
Proof.
  intros [ag us Hag Hus Hl] Hk. unfold nr_attributes_remove_duplicate, without.
  pose proof (remove_first_spec (if is_user then us else ag) k) as Hs.
  assert (∀ l l', map_of l' = delete k (map_of l) → k ∉ key <$> l') as Hni.
  { intros l l' E. intros (a & -> & Ha)%list_elem_of_fmap. assert (map_of l' !! key a = None) as En by by rewrite E, lookup_delete_eq.
    apply not_elem_of_list_to_map_2 in En. apply En. rewrite <-list_fmap_compose. apply list_elem_of_fmap. by exists a. }
  destruct is_user; simpl in *; destruct (remove_first _ k _) as [l'|].
  - destruct (Hs Hus Hk) as (Hin & Hok & E & Hlen & _). exists ag, l'.
    replace (Z.of_nat (length us) - 1) with (Z.of_nat (length l')) by lia.
    split_and!; [done|rewrite <-E; constructor; [done..|lia]|by eapply Hni|by rewrite <-E, map_of_size].
  - specialize (Hs Hus Hk). exists ag, us. rewrite delete_id by by apply map_of_None.
    split_and!; [done|by constructor|done|by rewrite map_of_size].
  - destruct (Hs Hag Hk) as (Hin & Hok & E & Hlen & _). exists l', us.
    split_and!; [done|rewrite <-E; by constructor|by eapply Hni|done].
  - specialize (Hs Hag Hk). exists ag, us. rewrite delete_id by by apply map_of_None.
    split_and!; [done|by constructor|done|done].
Qed.

(** The count that is tested after the removal. *)
Lemma user_full us k (us' : list nr_attribute_t) : list_ok us → Z.of_nat (length us) ≤ NR_ATTRIBUTE_USER_LIMIT →
  length us' = size (delete k (map_of us)) →
  (NR_ATTRIBUTE_USER_LIMIT =? Z.of_nat (length us')) =
    bool_decide (map_of us !! k = None ∧ Z.of_nat (size (map_of us)) = NR_ATTRIBUTE_USER_LIMIT).
Proof.
  intros Hok Hl Hlen. rewrite <-(map_of_size us Hok) in Hl. destruct (map_of us !! k) as [x|] eqn:Ek.
  - rewrite bool_decide_false by naive_solver. rewrite map_size_delete_Some in Hlen by done.
    assert (size (map_of us) ≠ 0%nat) by (intros E%map_size_empty_inv; by rewrite E in Ek). lia.
  - rewrite map_size_delete_None in Hlen by done. case_bool_decide as E; [lia|].
    apply Z.eqb_neq. intros E'. apply E. split; [done|lia].
Qed.

(** Values that are kept are copied as they are. *)
Lemma valid_value v : nr_attributes_is_valid_value (Some v) = true → nro_copy (nro_copy v) = nro_copy v.
Proof.
  destruct v as [| | | | | |s| | |]; try done. intros _. simpl. unfold nr_strdup. simpl.
  assert (∀ s, cstr (cstr s) = cstr s) as ->; [|done].
  clear. induction s as [|c s IH]; [done|]. simpl. destruct (Z.eqb_spec c 0); [done|]. simpl.
  destruct (Z.eqb_spec c 0); [done|]. by rewrite IH.
Qed.

Definition accepted (v : obj) : option nrobj_t := if nr_attributes_is_valid_value v then nro_copy <$> v else None.

Lemma add_internal_holds ats r d is_user k v : holds ats r → is_cstr (default [] k) → from_option obj_ok True v →
  ∃ rv ats' r', nr_attributes_add_internal ats d is_user k v = (rv, ats') ∧
    reference_store d is_user k (accepted v) r = (rv, r') ∧ holds ats' r'.
Proof.
  intros [ag us Hag Hus Hl] Hk Hv. pose proof (Holds ag us Hag Hus Hl) as Hh. unfold nr_attributes_add_internal, reference_store.
  destruct k as [[|c k]|]; [eexists _, _, _; by split_and!..| |eexists _, _, _; by split_and!].
  simpl in Hk. change (char_at (c :: k) 0) with c. pose proof Hk as [Hc0 _]%Forall_cons.
  destruct (Z.eqb_spec c 0); [lia|]. cbn [usable]. unfold accepted.
  destruct (nr_attributes_is_valid_value v) eqn:Ev; [|eexists _, _, _; by split_and!]. cbn [negb].
  destruct v as [v|]; [|done]. cbn [fmap option_fmap option_map]. unfold nr_strlen. rewrite cstr_id by done.
  cbn [config]. fold (goes_to (c :: k) d).
  destruct (Z.ltb_spec NR_ATTRIBUTE_KEY_LENGTH_LIMIT (Z.of_nat (length (c :: k)))).
  { rewrite decide_False by lia. eexists _, _, _. by split_and!. }
  destruct (Z.eqb_spec 0 (goes_to (c :: k) d)) as [E0|E0]; [rewrite decide_False by lia; eexists _, _, _; by split_and!|].
  rewrite decide_True by lia.
  destruct (remove_holds _ _ (c :: k) is_user Hh Hk) as (ag' & us' & -> & Hh' & Hni & Hlen). cbn [default from_option].
  set (a := Attribute _ _ _ _).
  assert (attribute_ok a) as Ha.
  { unfold a, nr_strdup. simpl default. rewrite cstr_id by done. split; [done|simpl in *; lia|done|done| |simpl; lia].
    split; [by apply copy_ok|by apply valid_value]. }
  assert (key a = c :: k) as Eka by (unfold a, nr_strdup; simpl default; by apply cstr_id).
  assert (∀ m : bindings_of, <[key a:=(held a, destinations a)]> (delete (c :: k) m) =
    <[c :: k:=(nro_copy v, goes_to (c :: k) d)]> m) as Em by (intros m; rewrite Eka; apply insert_delete_eq).
  inversion Hh' as [? ? Hag' Hus' Hl' E1 E]. subst. destruct is_user; injection E as E2 E3;
    cbn [id andb config num_user_attributes agent_attribute_list user_attribute_list r_user r_agent].
  - rewrite (user_full us (c :: k) us') by (done || by apply Hlen). case_bool_decide as Ef.
    + rewrite decide_True by done. eexists _, _, _. split_and!; [done|done|].
      rewrite delete_id in E2 by apply Ef. rewrite <-E2, <-E3. by constructor.
    + rewrite decide_False by done. eexists _, _, _. split_and!; [done|done|]. rewrite <-Em, <-E2, <-E3, <-map_of_cons.
      specialize (Hlen eq_refl). pose proof (user_full us (c :: k) us' Hus Hl Hlen) as Hf. rewrite bool_decide_false in Hf by done.
      replace (Z.of_nat (length us') + 1) with (Z.of_nat (length (a :: us'))) by (simpl; lia).
      constructor; [done| |simpl; lia]. apply list_ok_cons. by rewrite Eka.
  - eexists _, _, _. split_and!; [done|done|]. rewrite <-Em, <-E2, <-E3, <-map_of_cons.
    constructor; [|done..]. apply list_ok_cons. by rewrite Eka.
Qed.
(** What is stored for a string. *)
Lemma bounded_buffer (s : list Z) : is_cstr s →
  cstr (snprintf (replicate (Z.to_nat (NR_ATTRIBUTE_VALUE_LENGTH_LIMIT + 1)) 0) (NR_ATTRIBUTE_VALUE_LENGTH_LIMIT + 1) s).2 =
  take (Z.to_nat NR_ATTRIBUTE_VALUE_LENGTH_LIMIT) s.
Proof.
  intros Hs. unfold snprintf. cbn [snd]. change (0 <? NR_ATTRIBUTE_VALUE_LENGTH_LIMIT + 1) with true. cbv iota.
  replace (NR_ATTRIBUTE_VALUE_LENGTH_LIMIT + 1 - 1) with NR_ATTRIBUTE_VALUE_LENGTH_LIMIT by lia.
  set (t := take _ s). assert (is_cstr t) as Ht by by apply is_cstr_take.
  destruct (write_string (replicate (Z.to_nat (NR_ATTRIBUTE_VALUE_LENGTH_LIMIT + 1)) 0) t 0 Ht) as [E _].
  { constructor. }
  { rewrite length_replicate. unfold t. rewrite length_take. unfold NR_ATTRIBUTE_VALUE_LENGTH_LIMIT. lia. }
  exact E.
Qed.

Lemma attribute_add_holds ats r d is_user k v : holds ats r → is_cstr (default [] k) → from_option obj_ok True v →
  ∃ rv ats' r', nr_attributes_add ats d is_user k v = (rv, ats') ∧
    reference_add d is_user k v r = (rv, r') ∧ holds ats' r'.
Proof.
  intros Hh Hk Hv. unfold nr_attributes_add, reference_add. destruct v as [v|]; [|by apply add_internal_holds].
  destruct v as [| | | | | |s| | |]; try by apply add_internal_holds.
  simpl in Hv. inversion Hv as [| | | | | |? Hs| | |]; subst. cbn [nro_get_string found fst kept_value].
  pose proof (is_cstr_take (Z.to_nat NR_ATTRIBUTE_VALUE_LENGTH_LIMIT) _ Hs) as Ht.
  rewrite (cstr_id (default [] s) Hs). unfold nro_new_string, nr_strdup. cbn [default from_option id].
  rewrite (bounded_buffer _ Hs). set (t := take _ _) in *.
  pose proof (add_internal_holds ats r d is_user k (Some (OString (Some t))) Hh Hk ltac:(by constructor)) as Ha.
  assert (accepted (Some (OString (Some t))) = Some (OString (Some t))) as E.
  { unfold accepted. simpl. unfold nr_strdup. simpl. by rewrite cstr_id. }
  by rewrite E in Ha.
Qed.

(** ** Objects *)
Lemma to_obj_fold l d (pre : list Z → list Z) o s : list_ok l → represents o s →
  (∀ k, is_cstr k → is_cstr (pre k)) → (∀ k, k ≠ [] → pre k ≠ []) → (∀ k k', pre k = pre k' → k = k') →
  let o' := foldl (λ o a, if Z.land (destinations a) d =? 0 then o else (nro_set_hash o (Some (pre (key a))) (value a)).1) o l in
  ∃ s', represents o' s' ∧ ∀ k, s'.1 !! pre k = match reference_value (map_of l) d k with Some v => Some v | None => s.1 !! pre k end.
Proof.
  intros Hl Hr Hc Hne Hinj. revert o s Hr. induction l as [|a l IH]; intros o s Hr; [by exists s|].
  apply list_ok_cons in Hl as [[Ha Hni] Hl]. specialize (IH Hl). simpl foldl.
  assert (∃ s1, represents (if Z.land (destinations a) d =? 0 then o else (nro_set_hash o (Some (pre (key a))) (value a)).1) s1 ∧
    ∀ k, s1.1 !! pre k = if decide (k = key a) then (if Z.land (destinations a) d =? 0 then s.1 !! pre k else Some (held a)) else s.1 !! pre k)
    as (s1 & Hr1 & Hs1).
  { destruct (Z.eqb_spec (Z.land (destinations a) d) 0); [exists s; split; [done|]; intros k; by destruct (decide _)|].
    destruct (ao_key a Ha) as [Hk Hkn]. destruct (ao_held a Ha) as [Hv Hcopy].
    destruct (hash_set_spec o s (Some (pre (key a))) (Some (held a)) Hr) as (rv & o' & s' & E1 & E2 & Hr'); [by apply Hc|done|].
    exists s'. rewrite (ao_value a Ha), E1. split; [done|]. unfold spec in E2.
    destruct (pre (key a)) as [|c p] eqn:Ep; [by destruct (Hne (key a))|]. cbn [usable] in E2. injection E2 as <- <-.
    intros k. simpl fst. rewrite Hcopy, <-Ep. destruct (decide (k = key a)) as [->|Hk'].
    - by rewrite lookup_insert_eq.
    - rewrite lookup_insert_ne; [done|]. intros E. by apply Hk', Hinj. }
  destruct (IH _ _ Hr1) as (s' & Hr' & Hs'). exists s'. split; [done|]. intros k. rewrite Hs', Hs1.
  unfold reference_value. rewrite map_of_cons. destruct (decide (k = key a)) as [->|Hne'].
  - rewrite lookup_insert_eq, map_of_None by done. simpl. by destruct (_ =? 0).
  - by rewrite lookup_insert_ne by done.
Qed.

Lemma get_hash_value_spec o s k : represents o s → is_cstr k →
  (nro_get_hash_value o (Some k)).1 = match k with [] => None | _ => s.1 !! k end.
Proof.
  intros Hr Hk. destruct (hash_exec_spec (HGet (Some k)) _ _ Hr Hk) as (res & o' & s2 & E1 & E2 & _).
  unfold Object.exec in E1. destruct (nro_get_hash_value o (Some k)) as [v err]. injection E1 as <- <-.
  destruct k as [|c k]; by injection E2.
Qed.

Lemma to_obj_look l d p k : list_ok l → is_cstr (default [] p) → is_cstr k →
  look (nr_attributes_to_obj_internal l p d) (default [] p ++ k) = RObject (bool_decide (map_of l = ∅)) (reference_value (map_of l) d k).
Proof.
  intros Hl Hp Hk. rewrite map_of_empty. destruct l as [|a0 l0] eqn:El; [done|]. rewrite <-El in *.
  assert (nr_attributes_to_obj_internal l p d = foldl (λ o a, if Z.land (destinations a) d =? 0 then o
    else (nro_set_hash o (Some (default [] p ++ key a)) (value a)).1) (Some nro_new_hash) l) as E.
  { rewrite El. unfold nr_attributes_to_obj_internal. by destruct p. }
  destruct (to_obj_fold l d (λ k, default [] p ++ k) (Some nro_new_hash) (∅, [])) as (s' & Hr & Hs); [done| | | | |].
  - change (∅ : gmap (list Z) nrobj_t, @nil (list Z))
      with (list_to_map [] : gmap (list Z) nrobj_t, (@nil (list Z * nrobj_t)).*1).
    constructor. constructor; [by unfold NRO_CHUNK_SIZE|constructor..].
  - intros k' Hk'. by apply Forall_app.
  - by intros k' Hk' [_ ?]%app_nil.
  - intros k1 k2. apply app_inv_head.
  - rewrite <-E in Hr. specialize (Hs k).
    assert (is_cstr (default [] p ++ k)) as Hpk by by apply Forall_app.
    pose proof (get_hash_value_spec _ s' _ Hr Hpk) as E2. unfold look. rewrite E2.
    destruct (nr_attributes_to_obj_internal l p d) eqn:Eo; [|by inversion Hr]. f_equal.
    destruct (default [] p ++ k) as [|c q] eqn:Eq.
    + apply app_nil in Eq as [_ ->]. unfold reference_value. rewrite map_of_None; [done|].
      intros (a & E' & Ha)%list_elem_of_fmap. destruct Hl as [Hl _]. rewrite Forall_forall in Hl.
      destruct (ao_key a (Hl a Ha)) as [_ Hn]. by rewrite <-E' in Hn.
    + rewrite Hs. simpl. rewrite lookup_empty. by destruct (reference_value (map_of l) d k).
Qed.

Lemma exists_spec l k : list_ok l → is_cstr k →
  existsb (λ a, 0 =? nr_strcmp (Some (key a)) (Some k)) l = bool_decide (is_Some (map_of l !! k)).
Proof.
  intros Hl Hk. induction l as [|a l IH]; [done|]. apply list_ok_cons in Hl as [[Ha _] Hl]. cbn [existsb].
  rewrite map_of_cons, IH by done. destruct (ao_key a Ha) as [Hc _]. pose proof (strcmp_eq (key a) k Hc Hk) as He.
  destruct (decide (key a = k)) as [E|Hne].
  - unfold nr_strcmp. by rewrite (proj2 He E), E, lookup_insert_eq.
  - rewrite lookup_insert_ne by done. unfold nr_strcmp. destruct (Z.eqb_spec 0 (strcmp (key a) k)); [|done]. destruct Hne. by apply He.
Qed.

(** ** The theorem *)
Lemma exec_refer op ats r : holds ats r → attribute_op_ok op →
  ∃ res ats' r', exec op ats = (res, ats') ∧ refer op r = (res, r') ∧ holds ats' r'.
Proof.
  intros Hh Hop.
  assert (∀ d is_user k v, is_cstr (default [] k) → from_option obj_ok True v →
    ∃ res ats' r', (let '(rv, ats) := nr_attributes_add ats d is_user k v in (RStatus rv, ats)) = (res, ats') ∧
      (let '(rv, r) := reference_add d is_user k v r in (RStatus rv, r)) = (res, r') ∧ holds ats' r') as Hadd.
  { intros d is_user k v Hk Hv. destruct (attribute_add_holds ats r d is_user k v Hh Hk Hv) as (rv & ats' & r' & -> & -> & ?). eauto 6. }
  assert (∀ s d is_user k, is_cstr (default [] k) → is_cstr (default [] s) → ∃ res ats' r',
      (let '(rv, ats) := nr_attributes_add ats d is_user k (Some (nro_new_string s)) in (RStatus rv, ats)) = (res, ats') ∧
      (let '(rv, r) := reference_add d is_user k (Some (OString s)) r in (RStatus rv, r)) = (res, r') ∧ holds ats' r') as Hstr.
  { intros s d is_user k Hk Hs.
    assert (reference_add d is_user k (Some (OString s)) r = reference_add d is_user k (Some (nro_new_string s)) r) as ->.
    { unfold reference_add, nro_new_string, nr_strdup. simpl. by rewrite !(cstr_id (default [] s) Hs). }
    apply Hadd; [done|]. constructor. simpl. unfold nr_strdup. by rewrite cstr_id. }
  destruct op as [d k v|d k s|d k lng|d k s|d k lng|k is_user|k|d k|d k|d k]; simpl in Hop.
  1-5: destruct Hop as [Hk Hv]; first [by apply Hadd|by apply Hstr|apply Hadd; [done|by constructor]].
  - destruct (remove_holds ats r k is_user Hh Hop) as (ag & us & E & Hh' & _).
    eexists _, _, _. split_and!; [|done|exact Hh']. unfold exec, nr_attributes_remove_attribute.
    destruct Hh. by rewrite E.
  - destruct Hh as [ag us Hag Hus Hl]. eexists _, _, _. split_and!; [done| |by constructor].
    exact (f_equal (λ b, (RExists b, _)) (eq_sym (exists_spec us k Hus Hop))).
  - destruct Hh as [ag us Hag Hus Hl]. eexists _, _, _. split_and!; [done| |by constructor].
    exact (f_equal (λ x, (x, _)) (eq_sym (to_obj_look us d None k Hus (Forall_nil_2 _) Hop))).
  - destruct Hh as [ag us Hag Hus Hl]. eexists _, _, _. split_and!; [done| |by constructor].
    exact (f_equal (λ x, (x, _)) (eq_sym (to_obj_look ag d None k Hag (Forall_nil_2 _) Hop))).
  - destruct Hh as [ag us Hag Hus Hl]. eexists _, _, _. split_and!; [done| |by constructor].
    refine (f_equal (λ x, (x, _)) (eq_sym (to_obj_look us d (Some NR_LOG_CONTEXT_DATA_ATTRIBUTE_PREFIX) k Hus _ Hop))).
    by repeat constructor.
Qed.
End reference.

(** C3: The attributes of a transaction are two finite maps. Whatever is added, removed and
    read, starting from an empty set with any configuration, the results are those of a map of user attributes and one
    of agent attributes from keys to a value and its destinations: an attribute is refused for an empty or long key, a
    value that is not a finite scalar, or when the configuration leaves it no destination; otherwise it replaces the
    one with its key, except that a new key is refused when 64 user attributes are there. Strings are cut to 255
    bytes.  The object made for a destination holds just the attributes that go there, under their keys, with a prefix
    for the log. *)
Theorem nr_attributes_refine_maps (c : option nr_attribute_config_t) (ops : list attribute_op) :
  nr_attribute_config_copy c = c → Forall attribute_op_ok ops →
  ∃ rs ats r, run exec ops (Some (nr_attributes_create c)) = (rs, ats) ∧
    run (refer c) ops (Reference ∅ ∅) = (rs, r) ∧ holds c ats r ∧
    (size (r_user r) ≤ 64)%nat.
Proof.
  intros Hc Hops.
  destruct (run_simulates (holds c) attribute_op_ok exec (refer c) ops (Some (nr_attributes_create c)) (Reference ∅ ∅))
    as (rs & ats & r & E1 & E2 & Hh); [by intros; apply exec_refer| |done|].
  - unfold nr_attributes_create. rewrite Hc. by apply (Holds c [] []); [split; constructor..|].
  - exists rs, ats, r. split_and!; [done..|]. destruct Hh as [ag us Hag Hus Hl]. simpl. rewrite map_of_size by done.
    unfold NR_ATTRIBUTE_USER_LIMIT in Hl. lia.
Qed.

Lemma nr_attributes_refine_maps_witness :
  let c := configured [Modify (Some (lit "request.*")) 0 63; Modify (Some (lit "request.id")) 2 0] in
  (run exec [UserAddLong 1 (Some (lit "a")) 7; UserAddString 63 (Some (lit "request.x")) (Some (lit "y"));
     UserAddString 1 (Some (lit "request.id")) (Some (lit "z")); UserAddLong 3 (Some (lit "a")) 8;
     UserValue 2 (lit "a"); LogValue 2 (lit "request.id"); UserValue 1 (lit "request.id"); Remove (lit "a") true;
     UserExists (lit "a")] (Some (nr_attributes_create c))).1 =
  [RStatus NR_SUCCESS; RStatus NR_FAILURE; RStatus NR_SUCCESS; RStatus NR_SUCCESS; RObject false (Some (OLong 8));
   RObject false (Some (OString (Some (lit "z")))); RObject false None; RDone; RExists false].
Proof.
  intros c. set (ops := [_; _; _; _; _; _; _; _; _]).
  destruct (nr_attributes_refine_maps c ops) as (rs & ats & r & E & E' & _).
  - vm_compute. reflexivity.
  - repeat constructor; simpl; unfold long_range; lia.
  - rewrite E. vm_compute in E'. by injection E' as <- _.
Defined.
