(* ===== verification/ObjectFields.v ===== *)
(** * ObjectFields: hash objects written field by field

    Much of the code builds a hash object by setting constant keys, some of
    them only when there is a value, and reads the fields of a parsed one.  This
    file says once what is in such an object, before and after a round trip
    through JSON. *)

From S2P Require Import Prelude CString Strings Double Object Json ObjectJson ObjectParse ObjectRoundtrip.
Local Open Scope Z_scope.

(** ** Reading a hash *)
Lemma hash_value_lookup a es k : NoDup es.*1 → Forall key_ok es.*1 → key_ok k →
  nro_get_hash_value (Some (OHash a es)) (Some k) = ((list_to_map es : gmap _ _) !! k, NR_SUCCESS).
Proof.
  intros Hn Hks [Hc Hne]. unfold nro_get_hash_value.
  assert (usable (Some k) = Some k) as Hu by by destruct k.
  destruct (find_key_spec a es (Some k) Hn Hks Hc) as [E|k' E Hkk Hni|k' w j E Hkk Hj]; rewrite Hu in E; [done|..].
  - injection E as <-. simpl. by rewrite not_elem_of_list_to_map_1.
  - injection E as <-. destruct (Z.eqb_spec (Z.of_nat j) (-1)), (Z.eqb_spec (Z.of_nat j) (-2)); try lia.
    rewrite Nat2Z.id, Hj. simpl. by rewrite (map_of_element es k w j).
Qed.

(** ** Fields *)
Definition field_list : Type := list (list Z * option nrobj_t).
Definition elements (l : field_list) : list (list Z * nrobj_t) := omap (λ '(k, v), pair k <$> v) l.

Lemma elements_app l l' : elements (l ++ l') = elements l ++ elements l'.
Proof. apply omap_app. Qed.

Lemma elements_keys l : (elements l).*1 ⊆ l.*1.
Proof.
  induction l as [|[k [v|]] l IH]; simpl; [done|..]; intros x.
  - intros [->|Hx]%elem_of_cons; [left|right; by apply IH].
  - intros Hx. right. by apply IH.
Qed.

Lemma elements_nodup l : NoDup l.*1 → NoDup (elements l).*1.
Proof.
  induction l as [|[k [v|]] l IH]; simpl; intros [Hni Hn]%NoDup_cons || intros; [constructor|..].
  - constructor; [intros Hin; by apply Hni, elements_keys|by apply IH].
  - by apply IH.
Qed.

Lemma elements_elem l k v : (k, v) ∈ elements l ↔ (k, Some v) ∈ l.
Proof.
  unfold elements. rewrite list_elem_of_omap. split.
  - intros ([k' [v'|]] & Hin & [= <- <-]). done.
  - intros Hin. by exists (k, Some v).
Qed.

(** Keys are literals: what is asked of them is checked by computation. *)
#[export] Instance key_ok_dec k : Decision (key_ok k).
Proof. unfold key_ok, is_cstr. apply _. Defined.
Ltac by_key := apply (bool_decide_unpack _); vm_compute; exact I.

(** The doubles allowed in the values are a parameter. *)
Section fields.
Context {D : double → Prop}.

Record holds_with (o : obj) (l : field_list) : Prop := {
  hf_shape : ∃ a, o = Some (OHash a (elements l)) ∧ obj_well D (OHash a (elements l));
  hf_nodup : NoDup l.*1;
  hf_keys : Forall key_ok l.*1;
}.

Lemma holds_new : holds_with (Some nro_new_hash) [].
Proof. split; [|constructor..]. exists NRO_CHUNK_SIZE. split; [done|]. constructor; [done|constructor..]. Qed.

Lemma holds_set o l k v : holds_with o l → k ∉ l.*1 → key_ok k → obj_well D v →
  holds_with (nro_internal_setvalue_hash o (Some k) (Some v)).1 (l ++ [(k, Some v)]).
Proof.
  intros [(a & -> & Hok) Hn Hks] Hni Hk Hv. split.
  - assert (usable (Some k) = Some k) as Hu by by destruct Hk; destruct k.
    destruct (setvalue_hash_cases _ a (elements l) (Some k) v Hok) as [[E _]|(k' & a' & es' & E & Es & Hok' & _ & _ & Hnew)];
      [apply Hk|done|by rewrite Hu in E|]. rewrite Hu in E. injection E as <-.
    destruct Hnew as [-> ->]; [intros Hin; by apply Hni, elements_keys|]. rewrite Es.
    eexists. split; [by rewrite elements_app|]. by rewrite elements_app.
  - rewrite fmap_app. apply NoDup_app. split_and!; [done| |by apply NoDup_singleton].
    intros x Hx ->%list_elem_of_singleton. done.
  - rewrite fmap_app. apply Forall_app. split; [done|by apply Forall_singleton].
Qed.

Lemma holds_skip o l k : holds_with o l → k ∉ l.*1 → key_ok k → holds_with o (l ++ [(k, None)]).
Proof.
  intros [(a & -> & Hok) Hn Hks] Hni Hk. split.
  - exists a. by rewrite elements_app, app_nil_r.
  - rewrite fmap_app. apply NoDup_app. split_and!; [done| |by apply NoDup_singleton].
    intros x Hx ->%list_elem_of_singleton. done.
  - rewrite fmap_app. apply Forall_app. split; [done|by apply Forall_singleton].
Qed.

Lemma fst_unique {A B} (l : list (A * B)) k v w : NoDup l.*1 → (k, v) ∈ l → (k, w) ∈ l → v = w.
Proof.
  intros Hn [i Hi]%list_elem_of_lookup [j Hj]%list_elem_of_lookup.
  assert (i = j) as <- by (eapply NoDup_lookup; [exact Hn|..]; rewrite list_lookup_fmap, ?Hi, ?Hj; done). congruence.
Qed.

(** What the fields are read as. *)
Lemma holds_get o l k v : holds_with o l → (k, v) ∈ l → nro_get_hash_value o (Some k) = (v, NR_SUCCESS).
Proof.
  intros [(a & -> & Hok) Hn Hks] Hin. inversion Hok as [| | | | | | | |? ? _ Hn' Hks' _|]; subst.
  assert (key_ok k) as Hk.
  { rewrite Forall_forall in Hks. apply Hks, list_elem_of_fmap. by exists (k, v). }
  rewrite hash_value_lookup by done. f_equal. destruct v as [v|].
  - apply elem_of_list_to_map_1; [done|]. by apply elements_elem.
  - apply not_elem_of_list_to_map_1. intros ([k' w] & E & Hin')%list_elem_of_fmap. simpl in E. subst k'.
    apply elements_elem in Hin'. by pose proof (fst_unique l k None (Some w) Hn Hin Hin').
Qed.

Lemma absent_get o l k : holds_with o l → k ∉ l.*1 → key_ok k → nro_get_hash_value o (Some k) = (None, NR_SUCCESS).
Proof.
  intros Hh Hni Hk. apply (holds_get o (l ++ [(k, None)])); [by apply holds_skip|].
  apply elem_of_app. right. by apply list_elem_of_singleton.
Qed.

(** After a round trip through JSON: the same fields, read back. *)
Lemma reread_elements address stale a (l : list (list Z * nrobj_t)) :
  ∃ a' l', reread address stale (OHash a l) = OHash a' l' ∧ l'.*1 = l.*1 ∧
    ∀ k v, (k, v) ∈ l → ∃ st, (k, reread address st v) ∈ l'.
Proof.
  cbn [reread]. eexists _, _. split; [done|]. destruct l as [|[k0 v0] l]; [split; [done|by intros k v ?%elem_of_nil]|].
  assert (∀ l : list (list Z * nrobj_t), ((λ '(k, v), (k, reread address (stale_half address k) v)) <$> l).*1 = l.*1) as E.
  { clear. induction l as [|[k v] l IH]; [done|]. simpl. by f_equal. }
  split; [by rewrite !fmap_cons, E|].
  intros k v [[= -> ->]|Hin]%elem_of_cons; [exists 0; left|]. exists (stale_half address k). right.
  apply list_elem_of_fmap. by exists (k, v).
Qed.

Lemma reread_get address stale o l k v : holds_with o l → (k, v) ∈ l →
  ∃ op st, o = Some op ∧
    nro_get_hash_value (Some (reread address stale op)) (Some k) = (reread address st <$> v, NR_SUCCESS).
Proof.
  intros [(a & -> & Hok) Hn Hks] Hin. inversion Hok as [| | | | | | | |? ? _ Hn' Hks' _|]; subst.
  assert (key_ok k) as Hk.
  { rewrite Forall_forall in Hks. apply Hks, list_elem_of_fmap. by exists (k, v). }
  destruct (reread_elements address stale a (elements l)) as (a' & l' & E & Ek & Hl). exists (OHash a (elements l)).
  rewrite E. destruct v as [v|].
  - destruct (Hl k v) as [st Hst]; [by apply elements_elem|]. exists st. split; [done|].
    rewrite hash_value_lookup by (rewrite ?Ek; done). f_equal. apply elem_of_list_to_map_1; [by rewrite Ek|done].
  - exists 0. split; [done|]. rewrite hash_value_lookup by (rewrite ?Ek; done). f_equal.
    apply not_elem_of_list_to_map_1. rewrite Ek. intros ([k' w] & E' & Hin')%list_elem_of_fmap. simpl in E'. subst k'.
    apply elements_elem in Hin'. by pose proof (fst_unique l k None (Some w) Hn Hin Hin').
Qed.

(** ** Objects in objects, and their text *)
Lemma holds_copy o l : holds_with o l → (∀ k v, (k, Some v) ∈ l → nro_copy v = v) → holds_with (nro_copy <$> o) l.
Proof.
  intros [(a & -> & Hok) Hn Hks] Hcopy. split; [|done..]. exists (Z.of_nat (length (elements l))).
  assert (nro_copy (OHash a (elements l)) = OHash (Z.of_nat (length (elements l))) (elements l)) as E.
  { cbn [nro_copy]. f_equal. inversion Hok as [| | | | | | | |? ? _ _ Hk _|]; subst.
    rewrite <-(list_fmap_id (elements l)) at 2. apply list_fmap_ext. intros i [k v] Hi%list_elem_of_lookup_2.
    simpl. f_equal; [|by apply (Hcopy k v), elements_elem].
    unfold nr_strdup. simpl. apply cstr_id. rewrite Forall_forall in Hk. apply (Hk k), list_elem_of_fmap. by exists (k, v). }
  split; [by rewrite <-E|]. rewrite <-E. by apply copy_ok.
Qed.

End fields.
Arguments holds_with : clear implicits.
Abbreviation holds_fields := (holds_with (λ d, SpecFloat.valid_binary prec emax d = true)).

Lemma holds_jsonable o l : holds_fields o l → Forall (λ '(k, v), text_ok k ∧ from_option jsonable True v) l →
  ∃ op, o = Some op ∧ jsonable op ∧ obj_ok op.
Proof.
  intros [(a & -> & Hok) Hn Hks] Hj. eexists. split; [done|]. split; [|done].
  rewrite Forall_forall in Hj. inversion Hok as [| | | | | | | |? ? _ Hn' Hks' _|]; subst. constructor; [done|..].
  - apply Forall_forall. intros k ([k' v] & -> & Hin%elements_elem)%list_elem_of_fmap. simpl. pose proof (Hj _ Hin) as [Ht _].
    split; [done|]. rewrite Forall_forall in Hks. assert (key_ok k') as [_ ?]; [|done].
    apply Hks, list_elem_of_fmap. by exists (k', Some v).
  - apply Forall_forall. intros v ([k v'] & -> & Hin%elements_elem)%list_elem_of_fmap. apply Hj in Hin as [_ Hv]. exact Hv.
Qed.

Lemma ascii_text s : Forall (λ c, 0 < c < 128) s → text_ok s.
Proof.
  intros Hs. exists s. split.
  - induction Hs as [|c s Hc _ IH]; [done|]. simpl. unfold utf8 at 1. destruct (Z.ltb_spec c 0x80); [|lia]. simpl. by f_equal.
  - eapply Forall_impl; [exact Hs|]. unfold scalar_value. intros. simpl. lia.
Qed.
Ltac by_text := apply ascii_text; apply (bool_decide_unpack _); vm_compute; exact I.

(** A string that may be missing. *)
Definition string_field (v : option (list Z)) : option nrobj_t := (λ s, OString (Some s)) <$> v.
Lemma string_field_jsonable v : (∀ s, v = Some s → text_ok s) → from_option jsonable True (string_field v).
Proof. intros Hv. destruct v; [|done]. constructor. by apply Hv. Qed.
