(* ===== verification/ObjectMaps.v ===== *)
(** * ObjectMaps: hash objects as finite maps

    Where keys are computed or set more than once, a hash object is best seen as
    the finite map that it holds: setting inserts, getting looks up. *)

From S2P Require Import Prelude Memory CString Strings Double Buffer Json Object ObjectJson ObjectParse ObjectRoundtrip ObjectFields.
Local Open Scope Z_scope.

(** An object that is a map. *)
Definition holds_map (o : obj) (m : gmap (list Z) nrobj_t) : Prop :=
  ∃ a es, o = Some (OHash a es) ∧ obj_ok (OHash a es) ∧ list_to_map es = m.

Lemma map_new : holds_map (Some nro_new_hash) ∅.
Proof. exists NRO_CHUNK_SIZE, []. split; [done|]. split; [|done]. constructor; [done|constructor..]. Qed.

Lemma map_set o m k v : holds_map o m → key_ok k → obj_ok v → holds_map (nro_internal_setvalue_hash o (Some k) (Some v)).1 (<[k:=v]> m).
Proof.
  intros (a & es & -> & Hok & Hm) [Hk Hne] Hv.
  assert (usable (Some k) = Some k) as Hu by by destruct k.
  destruct (setvalue_hash_cases _ a es (Some k) v Hok) as [[E _]|(k' & a' & es' & E & Es & Hok' & Hm' & _)]; [done|done|congruence|].
  rewrite Hu in E. injection E as <-. rewrite Es. exists a', es'. split; [done|]. split; [done|]. by rewrite Hm', Hm.
Qed.

Lemma map_get o m k : holds_map o m → key_ok k → nro_get_hash_value o (Some k) = (m !! k, NR_SUCCESS).
Proof.
  intros (a & es & -> & Hok & Hm) Hk. inversion Hok as [| | | | | | | |? ? _ Hn Hks _|]; subst. by rewrite hash_value_lookup.
Qed.

Lemma map_json `{Allocator Z} radix o m : locale_radix radix → holds_map o m → ∃ op, o = Some op ∧ obj_ok op ∧
  appends (λ b, (nro_to_json_buffer radix o b).2) (json_text op).
Proof.
  intros Hx (a & es & -> & Hok & _). eexists. split; [done|]. split; [done|]. intros bp Hb.
  destruct (json_text_spec radix _ Hx Hok bp Hb) as (bp' & E & Hb' & Hc). exists bp'. cbn [nro_to_json_buffer snd to_json_body]. by rewrite E.
Qed.

