(* ===== verification/DistributedTrace.v ===== *)
(** * DistributedTrace: the trace a transaction is part of, and its payloads
    (src/axiom/nr_distributed_trace.c, .h and _private.h)

    The metadata, its setters, and the JSON payload one agent sends and another
    accepts.  The W3C headers are in TraceContext.  Times are microseconds; the
    clock is a parameter.  [*error] is the name of a metric, [None] for [NULL]. *)

From S2P Require Import Prelude Memory CString Strings Double Object Json Buffer ObjectJson ObjectParse ObjectRoundtrip ObjectFields.
Local Open Scope Z_scope.

Record inbound_t := Inbound {
  set : bool;
  type : option (list Z);
  inbound_app_id : option (list Z);
  inbound_account_id : option (list Z);
  transport_type : option (list Z);
  timestamp : Z;
  guid : option (list Z);
  inbound_txn_id : option (list Z);
  tracing_vendors : option (list Z);
  raw_tracing_vendors : option (list Z);
  trusted_parent_id : option (list Z);
}.

Record nr_distributed_trace_t := Trace {
  account_id : option (list Z);
  app_id : option (list Z);
  txn_id : option (list Z);
  priority : double;
  sampled : bool;
  trace_id : option (list Z);
  trusted_key : option (list Z);
  inbound : inbound_t;
}.

Record nr_distributed_trace_payload_t := Payload {
  metadata : option nr_distributed_trace_t;
  parent_id : option (list Z);
  payload_timestamp : Z;
}.

Definition NR_TRACE_ID_MAX_SIZE : Z := 32.
Definition NR_TIME_DIVISOR_MS : Z := 1000.
Definition NR_DISTRIBUTED_TRACE_VERSION_MAJOR : Z := 0.
Definition NR_DISTRIBUTED_TRACE_VERSION_MINOR : Z := 1.
Definition NR_PRIORITY_ERROR : double := minus_one.

Definition NR_DISTRIBUTED_TRACE_ACCEPT_EXCEPTION := lit "Supportability/DistributedTrace/AcceptPayload/Exception".
Definition NR_DISTRIBUTED_TRACE_ACCEPT_PARSE_EXCEPTION := lit "Supportability/DistributedTrace/AcceptPayload/ParseException".
Definition NR_DISTRIBUTED_TRACE_ACCEPT_MAJOR_VERSION := lit "Supportability/DistributedTrace/AcceptPayload/Ignored/MajorVersion".
Definition NR_DISTRIBUTED_TRACE_ACCEPT_NULL := lit "Supportability/DistributedTrace/AcceptPayload/Ignored/Null".

(** ** Fields of a record that is there *)
Section fields.
Implicit Types dt : option nr_distributed_trace_t.

Definition set_account_id (x : option (list Z)) t := Trace x (app_id t) (txn_id t) (priority t) (sampled t) (trace_id t) (trusted_key t) (inbound t).
Definition set_app_id (x : option (list Z)) t := Trace (account_id t) x (txn_id t) (priority t) (sampled t) (trace_id t) (trusted_key t) (inbound t).
Definition set_txn_id (x : option (list Z)) t := Trace (account_id t) (app_id t) x (priority t) (sampled t) (trace_id t) (trusted_key t) (inbound t).
Definition set_priority x t := Trace (account_id t) (app_id t) (txn_id t) x (sampled t) (trace_id t) (trusted_key t) (inbound t).
Definition set_sampled x t := Trace (account_id t) (app_id t) (txn_id t) (priority t) x (trace_id t) (trusted_key t) (inbound t).
Definition set_trace_id (x : option (list Z)) t := Trace (account_id t) (app_id t) (txn_id t) (priority t) (sampled t) x (trusted_key t) (inbound t).
Definition set_trusted_key (x : option (list Z)) t := Trace (account_id t) (app_id t) (txn_id t) (priority t) (sampled t) (trace_id t) x (inbound t).
Definition set_inbound x t := Trace (account_id t) (app_id t) (txn_id t) (priority t) (sampled t) (trace_id t) (trusted_key t) x.

Definition in_set x i := Inbound x (type i) (inbound_app_id i) (inbound_account_id i) (transport_type i) (timestamp i) (guid i) (inbound_txn_id i) (tracing_vendors i) (raw_tracing_vendors i) (trusted_parent_id i).
Definition in_type x i := Inbound (set i) x (inbound_app_id i) (inbound_account_id i) (transport_type i) (timestamp i) (guid i) (inbound_txn_id i) (tracing_vendors i) (raw_tracing_vendors i) (trusted_parent_id i).
Definition in_app_id x i := Inbound (set i) (type i) x (inbound_account_id i) (transport_type i) (timestamp i) (guid i) (inbound_txn_id i) (tracing_vendors i) (raw_tracing_vendors i) (trusted_parent_id i).
Definition in_account_id x i := Inbound (set i) (type i) (inbound_app_id i) x (transport_type i) (timestamp i) (guid i) (inbound_txn_id i) (tracing_vendors i) (raw_tracing_vendors i) (trusted_parent_id i).
Definition in_transport_type x i := Inbound (set i) (type i) (inbound_app_id i) (inbound_account_id i) x (timestamp i) (guid i) (inbound_txn_id i) (tracing_vendors i) (raw_tracing_vendors i) (trusted_parent_id i).
Definition in_timestamp x i := Inbound (set i) (type i) (inbound_app_id i) (inbound_account_id i) (transport_type i) x (guid i) (inbound_txn_id i) (tracing_vendors i) (raw_tracing_vendors i) (trusted_parent_id i).
Definition in_guid x i := Inbound (set i) (type i) (inbound_app_id i) (inbound_account_id i) (transport_type i) (timestamp i) x (inbound_txn_id i) (tracing_vendors i) (raw_tracing_vendors i) (trusted_parent_id i).
Definition in_txn_id x i := Inbound (set i) (type i) (inbound_app_id i) (inbound_account_id i) (transport_type i) (timestamp i) (guid i) x (tracing_vendors i) (raw_tracing_vendors i) (trusted_parent_id i).
Definition in_tracing_vendors x i := Inbound (set i) (type i) (inbound_app_id i) (inbound_account_id i) (transport_type i) (timestamp i) (guid i) (inbound_txn_id i) x (raw_tracing_vendors i) (trusted_parent_id i).
Definition in_raw_tracing_vendors x i := Inbound (set i) (type i) (inbound_app_id i) (inbound_account_id i) (transport_type i) (timestamp i) (guid i) (inbound_txn_id i) (tracing_vendors i) x (trusted_parent_id i).
Definition in_trusted_parent_id x i := Inbound (set i) (type i) (inbound_app_id i) (inbound_account_id i) (transport_type i) (timestamp i) (guid i) (inbound_txn_id i) (tracing_vendors i) (raw_tracing_vendors i) x.

(** A field of the inbound part of a trace. *)
Definition on_inbound (f : inbound_t → inbound_t) t := set_inbound (f (inbound t)) t.

(** What [set_dt_field] stores: nothing for an empty string. *)
Definition dt_field (value : option (list Z)) : option (list Z) := if nr_strempty value then None else Some (nr_strdup value).

(** ** Creation and access *)
Definition nr_distributed_trace_create : nr_distributed_trace_t :=
  Trace None None None (SpecFloat.S754_zero false) false None None
    (Inbound false None None None None 0 None None None None None).

Definition nr_distributed_trace_get_account_id dt := dt ≫= account_id.
Definition nr_distributed_trace_get_trusted_key dt := dt ≫= trusted_key.
Definition nr_distributed_trace_get_app_id dt := dt ≫= app_id.
Definition nr_distributed_trace_get_txn_id dt := dt ≫= txn_id.
Definition nr_distributed_trace_get_priority dt := from_option priority NR_PRIORITY_ERROR dt.
Definition nr_distributed_trace_get_trace_id dt := dt ≫= trace_id.
Definition nr_distributed_trace_inbound_get_tracing_vendors dt := dt ≫= λ t, tracing_vendors (inbound t).
Definition nr_distributed_trace_inbound_get_raw_tracing_vendors dt := dt ≫= λ t, raw_tracing_vendors (inbound t).
Definition nr_distributed_trace_inbound_get_trusted_parent_id dt := dt ≫= λ t, trusted_parent_id (inbound t).
Definition nr_distributed_trace_is_sampled dt := from_option sampled false dt.
Definition nr_distributed_trace_inbound_is_set dt := from_option (λ t, set (inbound t)) false dt.
Definition nr_distributed_trace_inbound_get_account_id dt := dt ≫= λ t, inbound_account_id (inbound t).
Definition nr_distributed_trace_inbound_get_app_id dt := dt ≫= λ t, inbound_app_id (inbound t).
Definition nr_distributed_trace_inbound_get_guid dt := dt ≫= λ t, guid (inbound t).
Definition nr_distributed_trace_inbound_get_txn_id dt := dt ≫= λ t, inbound_txn_id (inbound t).
Definition nr_distributed_trace_inbound_get_type dt := dt ≫= λ t, type (inbound t).
Definition nr_distributed_trace_inbound_get_transport_type dt := dt ≫= λ t, transport_type (inbound t).
Definition nr_time_duration (start stop : Z) : Z := if stop <? start then 0 else u64 (stop - start).
Definition nr_distributed_trace_inbound_get_timestamp_delta dt (txn_start : Z) : Z :=
  from_option (λ t, nr_time_duration (timestamp (inbound t)) txn_start) 0 dt.
Definition nr_distributed_trace_inbound_has_timestamp dt : bool :=
  from_option (λ t, negb (timestamp (inbound t) =? 0)) false dt.

(** A field is freed, and set again when there is a value. *)
Definition copied (value : option (list Z)) : option (list Z) := (λ v, nr_strdup (Some v)) <$> value.
Definition nr_distributed_trace_set_txn_id dt value := set_txn_id (copied value) <$> dt.
Definition nr_distributed_trace_set_trusted_key dt value := set_trusted_key (copied value) <$> dt.
Definition nr_distributed_trace_set_account_id dt value := set_account_id (copied value) <$> dt.
Definition nr_distributed_trace_set_app_id dt value := set_app_id (copied value) <$> dt.
Definition nr_distributed_trace_set_priority dt value := set_priority value <$> dt.
Definition nr_distributed_trace_set_sampled dt value := set_sampled value <$> dt.
Definition nr_distributed_trace_inbound_set_tracing_vendors dt value := on_inbound (in_tracing_vendors (copied value)) <$> dt.
Definition nr_distributed_trace_inbound_set_trusted_parent_id dt value := on_inbound (in_trusted_parent_id (copied value)) <$> dt.

Definition nr_distributed_trace_set_trace_id dt (value : option (list Z)) (do_padding : bool) :=
  let id :=
    (λ v,
      let len := nr_strlen (Some v) in
      if do_padding && (len <? NR_TRACE_ID_MAX_SIZE)
      then replicate (Z.to_nat (NR_TRACE_ID_MAX_SIZE - len)) 48 ++ nr_strdup (Some v)
      else nr_strdup (Some v)) <$> value in
  set_trace_id id <$> dt.

Definition supported_types : list (list Z) :=
  [lit "Unknown"; lit "HTTP"; lit "HTTPS"; lit "Kafka"; lit "JMS"; lit "IronMQ"; lit "AMQP"; lit "Queue"; lit "Other"].
Definition nr_distributed_trace_inbound_set_transport_type dt (value : option (list Z)) :=
  (λ t, on_inbound (in_transport_type
     (if existsb (λ s, 0 =? nr_strcmp value (Some s)) supported_types then dt_field value else dt_field (Some (lit "Unknown")))) t) <$> dt.
End fields.

Definition nr_distributed_trace_object_get_account_id (object : obj) : option (list Z) :=
  (nro_get_hash_string (nro_get_hash_hash object (Some (lit "d"))).1 (Some (lit "ac"))).1.
Definition nr_distributed_trace_object_get_trusted_key (object : obj) : option (list Z) :=
  (nro_get_hash_string (nro_get_hash_hash object (Some (lit "d"))).1 (Some (lit "tk"))).1.

(** ** Accepting a payload *)
Definition nr_distributed_trace_accept_inbound_payload (dt : option nr_distributed_trace_t) (obj_payload : obj)
    (transport : option (list Z)) (err : option (list Z)) : bool * option nr_distributed_trace_t * option (list Z) :=
  match err with
  | Some _ => (false, dt, err)
  | None =>
      match dt with
      | None => (false, dt, Some NR_DISTRIBUTED_TRACE_ACCEPT_EXCEPTION)
      | Some t =>
          match obj_payload with
          | None => (false, dt, Some NR_DISTRIBUTED_TRACE_ACCEPT_PARSE_EXCEPTION)
          | Some _ =>
              let data := (nro_get_hash_hash obj_payload (Some (lit "d"))).1 in
              let string k := dt_field (nro_get_hash_string data (Some k)).1 in
              let t := on_inbound (in_type (string (lit "ty"))) t in
              let t := on_inbound (in_account_id (string (lit "ac"))) t in
              let t := on_inbound (in_app_id (string (lit "ap"))) t in
              let t := on_inbound (in_guid (string (lit "id"))) t in
              let t := on_inbound (in_txn_id (string (lit "tx"))) t in
              let t := set_trace_id (string (lit "tr")) t in
              let '(p, errp) := nro_get_hash_double data (Some (lit "pr")) in
              let t := if decide (errp = NR_SUCCESS) then set_priority p t else t in
              let '(s, errp) := nro_get_hash_boolean data (Some (lit "sa")) in
              let t := if decide (errp = NR_SUCCESS) then set_sampled (negb (s =? 0)) t else t in
              let t := on_inbound (in_timestamp
                         (u64 (u64 (nro_get_hash_long data (Some (lit "ti"))).1 * NR_TIME_DIVISOR_MS))) t in
              let dt := nr_distributed_trace_inbound_set_transport_type (Some t) transport in
              (true, on_inbound (in_set true) <$> dt, None)
          end
      end
  end.

(** The error of a payload that was parsed, [None] when it is valid. *)
Definition required_data_fields : list (list Z) := [lit "ty"; lit "ac"; lit "ap"; lit "tr"; lit "ti"].
Definition is_failure {A} (res : A * nr_status_t) : bool := bool_decide (res.2 = NR_FAILURE).
Definition payload_error (obj_payload : obj) : option (list Z) :=
  let version := (nro_get_hash_array obj_payload (Some (lit "v"))).1 in
  match version with
  | None => Some NR_DISTRIBUTED_TRACE_ACCEPT_PARSE_EXCEPTION
  | Some _ =>
      if NR_DISTRIBUTED_TRACE_VERSION_MAJOR <? (nro_get_array_int version 1).1
      then Some NR_DISTRIBUTED_TRACE_ACCEPT_MAJOR_VERSION
      else
        let data := (nro_get_hash_hash obj_payload (Some (lit "d"))).1 in
        if is_failure (nro_get_hash_string data (Some (lit "id"))) && is_failure (nro_get_hash_string data (Some (lit "tx")))
        then Some NR_DISTRIBUTED_TRACE_ACCEPT_PARSE_EXCEPTION
        else if existsb (λ k, is_failure (nro_get_hash_string data (Some k)) && is_failure (nro_get_hash_long data (Some k)))
                  required_data_fields
        then Some NR_DISTRIBUTED_TRACE_ACCEPT_PARSE_EXCEPTION
        else None
  end.

Section payload.
Context `{Allocator Z} (radix : Z) (address : list Z → Z).

Definition nr_distributed_trace_convert_payload_to_object (payload : option (list Z)) (err : option (list Z)) :
    outcome (obj * option (list Z)) :=
  match err with
  | Some _ => Done (None, err)
  | None =>
      if nr_strempty payload then Done (None, Some NR_DISTRIBUTED_TRACE_ACCEPT_NULL)
      else
        obj_payload ← nro_create_from_json radix address payload;
        match obj_payload with
        | None => Done (None, Some NR_DISTRIBUTED_TRACE_ACCEPT_PARSE_EXCEPTION)
        | Some _ =>
            match payload_error obj_payload with
            | Some e => Done (None, Some e)
            | None => Done (obj_payload, None)
            end
        end
  end.

(** ** Creating a payload *)
Definition nr_distributed_trace_payload_create (now : Z) (meta : option nr_distributed_trace_t) (parent : option (list Z)) :
    nr_distributed_trace_payload_t := Payload meta (copied parent) now.
Definition nr_distributed_trace_payload_get_parent_id (p : option nr_distributed_trace_payload_t) := p ≫= parent_id.
Definition nr_distributed_trace_payload_get_timestamp (p : option nr_distributed_trace_payload_t) := from_option payload_timestamp 0 p.
Definition nr_distributed_trace_payload_get_metadata (p : option nr_distributed_trace_payload_t) := p ≫= metadata.

Definition add_field_if_set (o : obj) (key : list Z) (value : option (list Z)) : obj :=
  match value with Some _ => (nro_set_hash_string o (Some key) value).1 | None => o end.

(** The object of a payload. *)
Definition payload_data (m : nr_distributed_trace_t) (parent : option (list Z)) (time : Z) : obj :=
  let data := Some nro_new_hash in
  let data := (nro_set_hash_string data (Some (lit "ty")) (Some (lit "App"))).1 in
  let data := add_field_if_set data (lit "ac") (account_id m) in
  let data := add_field_if_set data (lit "ap") (app_id m) in
  let data := add_field_if_set data (lit "id") parent in
  let data := add_field_if_set data (lit "tr") (trace_id m) in
  let data := add_field_if_set data (lit "tx") (txn_id m) in
  let data := (nro_set_hash_double data (Some (lit "pr")) (priority m)).1 in
  let data := (nro_set_hash_boolean data (Some (lit "sa")) (if sampled m then 1 else 0)).1 in
  let data := (nro_set_hash_long data (Some (lit "ti")) (time / NR_TIME_DIVISOR_MS)).1 in
  if negb (0 =? nr_strcmp (trusted_key m) (account_id m)) then add_field_if_set data (lit "tk") (trusted_key m) else data.

Definition payload_object (m : nr_distributed_trace_t) (parent : option (list Z)) (time : Z) : obj :=
  let version := Some nro_new_array in
  let version := (nro_set_array_int version 0 NR_DISTRIBUTED_TRACE_VERSION_MAJOR).1 in
  let version := (nro_set_array_int version 0 NR_DISTRIBUTED_TRACE_VERSION_MINOR).1 in
  let o := (nro_set_hash (Some nro_new_hash) (Some (lit "v")) version).1 in
  (nro_set_hash o (Some (lit "d")) (payload_data m parent time)).1.

Definition nr_distributed_trace_payload_as_text (p : option nr_distributed_trace_payload_t) : option (list Z) :=
  match p with
  | Some (Payload (Some m) parent time) =>
      match parent, txn_id m with
      | None, None => None
      | _, _ => Some (nro_to_json radix (payload_object m parent time))
      end
  | _ => None
  end.
End payload.

(** ** What is in a payload *)
Definition separate_key (m : nr_distributed_trace_t) : bool := negb (0 =? nr_strcmp (trusted_key m) (account_id m)).

Definition data_fields (m : nr_distributed_trace_t) (parent : option (list Z)) (time : Z) : field_list :=
  [(lit "ty", Some (OString (Some (lit "App")))); (lit "ac", string_field (account_id m));
   (lit "ap", string_field (app_id m)); (lit "id", string_field parent); (lit "tr", string_field (trace_id m));
   (lit "tx", string_field (txn_id m)); (lit "pr", Some (ODouble (priority m)));
   (lit "sa", Some (OBoolean (if sampled m then 1 else 0))); (lit "ti", Some (OLong (time / NR_TIME_DIVISOR_MS)));
   (lit "tk", if separate_key m then string_field (trusted_key m) else None)].

Definition text_field (v : option (list Z)) : Prop := ∀ s, v = Some s → text_ok s.

(** Metadata whose strings are texts and whose priority is a finite number. *)
Record metadata_ok (m : nr_distributed_trace_t) : Prop := {
  mo_account : text_field (account_id m);
  mo_app : text_field (app_id m);
  mo_txn : text_field (txn_id m);
  mo_trace : text_field (trace_id m);
  mo_trusted : text_field (trusted_key m);
  mo_priority : jsonable (ODouble (priority m)) ∧ obj_ok (ODouble (priority m));
}.

Lemma holds_string o l k v : holds_fields o l → k ∉ l.*1 → key_ok k → text_field v →
  holds_fields (add_field_if_set o k v) (l ++ [(k, string_field v)]).
Proof.
  intros Hh Hni Hk Hv. destruct v as [s|]; [|by apply holds_skip]. unfold add_field_if_set, nro_set_hash_string.
  assert (is_cstr s) as Hs by by apply text_cstr, Hv. unfold nro_new_string, nr_strdup. simpl default. rewrite cstr_id by done.
  apply holds_set; [done..|by constructor].
Qed.

Ltac field_step := first [apply holds_string; [|by_key|by_key|done]|apply holds_set; [|by_key|by_key|]].

Lemma payload_data_fields m parent time : metadata_ok m → text_field parent → long_range (time / NR_TIME_DIVISOR_MS) →
  holds_fields (payload_data m parent time) (data_fields m parent time).
Proof.
  intros [] Hp Ht.
  assert (holds_fields (nro_set_hash_long (nro_set_hash_boolean (nro_set_hash_double
    (add_field_if_set (add_field_if_set (add_field_if_set (add_field_if_set (add_field_if_set
      (nro_set_hash_string (Some nro_new_hash) (Some (lit "ty")) (Some (lit "App"))).1
      (lit "ac") (account_id m)) (lit "ap") (app_id m)) (lit "id") parent) (lit "tr") (trace_id m)) (lit "tx") (txn_id m))
      (Some (lit "pr")) (priority m)).1 (Some (lit "sa")) (if sampled m then 1 else 0)).1 (Some (lit "ti")) (time / NR_TIME_DIVISOR_MS)).1
    (take 9 (data_fields m parent time))) as H.
  { apply (holds_set _ [_; _; _; _; _; _; _; _]); [|by_key|by_key|by constructor].
    assert (nro_new_boolean (if sampled m then 1 else 0) = OBoolean (if sampled m then 1 else 0)) as E by by destruct (sampled m).
    unfold nro_set_hash_boolean. rewrite E.
    apply (holds_set _ [_; _; _; _; _; _; _]); [|by_key|by_key|constructor; destruct (sampled m); unfold int_range; lia].
    apply (holds_set _ [_; _; _; _; _; _]); [|by_key|by_key|by destruct mo_priority0].
    apply (holds_string _ [_; _; _; _; _]); [|by_key|by_key|done].
    apply (holds_string _ [_; _; _; _]); [|by_key|by_key|done].
    apply (holds_string _ [_; _; _]); [|by_key|by_key|done].
    apply (holds_string _ [_; _]); [|by_key|by_key|done].
    apply (holds_string _ [_]); [|by_key|by_key|done].
    apply (holds_string _ [] (lit "ty") (Some (lit "App"))); [apply holds_new|by_key|by_key|]. intros s [= <-]. by_text. }
  unfold payload_data. change (data_fields m parent time) with (take 9 (data_fields m parent time) ++ drop 9 (data_fields m parent time)).
  simpl drop. fold (separate_key m). destruct (separate_key m).
  - apply holds_string; [exact H|by_key|by_key|done].
  - apply holds_skip; [exact H|by_key|by_key].
Qed.

(** ** A payload after its journey *)
Definition version_object : nrobj_t := OArray 2 [OInt 0 0; OInt 1 0].

Lemma payload_object_fields m parent time : metadata_ok m → text_field parent → long_range (time / NR_TIME_DIVISOR_MS) →
  ∃ d, holds_fields (Some d) (data_fields m parent time) ∧ nro_type (Some d) = NR_OBJECT_HASH ∧ obj_ok d ∧ jsonable d ∧
    holds_fields (payload_object m parent time) [(lit "v", Some version_object); (lit "d", Some d)].
Proof.
  intros Hm Hp Ht. pose proof (payload_data_fields m parent time Hm Hp Ht) as Hh.
  assert (holds_fields (nro_copy <$> payload_data m parent time) (data_fields m parent time)) as Hc.
  { apply (holds_copy _ _ Hh). intros k v Hin. destruct Hm as [H1 H2 H3 H4 H5 [H6 _]].
    assert (∀ x, text_field x → Some v = string_field x → nro_copy v = v) as Hs.
    { intros [s|] Hx; [|done]. intros [= ->]. simpl. unfold nr_strdup. simpl. rewrite cstr_id; [done|]. by apply text_cstr, Hx. }
    repeat (apply elem_of_cons in Hin as [[= _ E]|Hin]; [first [by subst v|by eapply Hs; [|exact E]|idtac]|]); [|by apply elem_of_nil in Hin].
    destruct (separate_key m); [by eapply Hs; [|exact E]|done]. }
  destruct (holds_jsonable _ _ Hc) as (d & Ed & Hj & Hok).
  { destruct Hm as [H1 H2 H3 H4 H5 [H6 _]].
    repeat (apply Forall_cons_2; [split; [by_text|]|]); [| | | | | | | | | |apply Forall_nil_2]; try by apply string_field_jsonable.
    - constructor. by_text.
    - done.
    - by constructor.
    - by constructor.
    - destruct (separate_key m); [by apply string_field_jsonable|done]. }
  exists d. rewrite Ed in Hc. split; [done|]. split.
  { destruct Hc as [(a & [= ->] & _) _ _]. done. }
  split; [done|]. split; [done|].
  unfold payload_object, nro_set_hash. rewrite Ed.
  apply (holds_set _ [_]); [|by_key|by_key|done].
  apply (holds_set _ []); [apply holds_new|by_key|by_key|]. change (obj_ok version_object). constructor; [done|].
  repeat apply Forall_cons_2; [..|apply Forall_nil_2]; constructor; unfold int_range; lia.
Qed.

(** The fields of the data of a payload that was written and read. *)
Lemma parsed_data address m parent time op d : holds_fields (Some op) [(lit "v", Some version_object); (lit "d", Some d)] →
  holds_fields (Some d) (data_fields m parent time) → nro_type (Some d) = NR_OBJECT_HASH →
  let o := Some (reread address 0 op) in
  (nro_get_array_int (nro_get_hash_array o (Some (lit "v"))).1 1).1 = 0 ∧
  (∃ v, (nro_get_hash_array o (Some (lit "v"))).1 = Some v) ∧
  ∀ k v, (k, v) ∈ data_fields m parent time →
    ∃ st, nro_get_hash_value (nro_get_hash_hash o (Some (lit "d"))).1 (Some k) = (reread address st <$> v, NR_SUCCESS).
Proof.
  intros Hop Hd Ht o.
  destruct (reread_get address 0 _ _ (lit "v") (Some version_object) Hop) as (op1 & st & [= <-] & Ev); [left|].
  destruct (reread_get address 0 _ _ (lit "d") (Some d) Hop) as (op1 & st' & [= <-] & Ed); [right; left|].
  unfold nro_get_hash_array, nro_get_hash_hash, o. rewrite Ev, Ed. split; [done|]. split; [by eexists|].
  intros k v Hin. destruct (reread_get address st' _ _ k v Hd Hin) as (op1 & st'' & [= <-] & E). exists st''.
  rewrite <-E. by destruct d.
Qed.

Lemma get_string_reread address st v : nro_get_string (reread address st <$> string_field v) =
  (v, if v is Some _ then NR_SUCCESS else NR_FAILURE).
Proof. by destruct v. Qed.

(** The data has the string fields of the sender. *)
Section parsed.
Context (address : list Z → Z) (m : nr_distributed_trace_t) (parent : option (list Z)) (time : Z) (o : obj).
Hypothesis parsed : ∀ k v, (k, v) ∈ data_fields m parent time →
  ∃ st, nro_get_hash_value (nro_get_hash_hash o (Some (lit "d"))).1 (Some k) = (reread address st <$> v, NR_SUCCESS).

Lemma parsed_string k v : (k, string_field v) ∈ data_fields m parent time →
  nro_get_hash_string (nro_get_hash_hash o (Some (lit "d"))).1 (Some k) = (v, if v is Some _ then NR_SUCCESS else NR_FAILURE).
Proof.
  intros Hin. destruct (parsed k _ Hin) as [st E]. unfold nro_get_hash_string. rewrite E. apply get_string_reread.
Qed.

Lemma parsed_not_long k v : (k, string_field v) ∈ data_fields m parent time →
  (nro_get_hash_long (nro_get_hash_hash o (Some (lit "d"))).1 (Some k)).2 = NR_FAILURE.
Proof. intros Hin. destruct (parsed k _ Hin) as [st E]. unfold nro_get_hash_long. rewrite E. by destruct v. Qed.

Lemma parsed_time : 2 ^ 31 ≤ time / NR_TIME_DIVISOR_MS →
  nro_get_hash_long (nro_get_hash_hash o (Some (lit "d"))).1 (Some (lit "ti")) = (time / NR_TIME_DIVISOR_MS, NR_SUCCESS).
Proof.
  intros Ht. destruct (parsed (lit "ti") (Some (OLong (time / NR_TIME_DIVISOR_MS)))) as [st E]; [by do 8 right; left|].
  unfold nro_get_hash_long. rewrite E. simpl. unfold reread_int, INT_MIN, INT_MAX.
  destruct (Z.leb_spec (2 ^ 31 - 1) (time / NR_TIME_DIVISOR_MS)); [|lia]. by rewrite orb_true_r.
Qed.

Definition complete : bool :=
  (if account_id m is Some _ then true else false) && (if app_id m is Some _ then true else false) &&
  (if trace_id m is Some _ then true else false) &&
  ((if parent is Some _ then true else false) || (if txn_id m is Some _ then true else false)).
End parsed.

Lemma payload_error_spec address m parent time o :
  (nro_get_array_int (nro_get_hash_array o (Some (lit "v"))).1 1).1 = 0 →
  (∃ v, (nro_get_hash_array o (Some (lit "v"))).1 = Some v) →
  (∀ k v, (k, v) ∈ data_fields m parent time →
    ∃ st, nro_get_hash_value (nro_get_hash_hash o (Some (lit "d"))).1 (Some k) = (reread address st <$> v, NR_SUCCESS)) →
  2 ^ 31 ≤ time / NR_TIME_DIVISOR_MS →
  payload_error o = if complete m parent then None else Some NR_DISTRIBUTED_TRACE_ACCEPT_PARSE_EXCEPTION.
Proof.
  intros E1 [v Ev] Hp Ht. unfold payload_error. rewrite Ev in *. rewrite E1.
  change (NR_DISTRIBUTED_TRACE_VERSION_MAJOR <? 0) with false. cbv iota zeta.
  pose proof (parsed_string address m parent time o Hp) as Hs.
  unfold is_failure, required_data_fields. cbn [existsb].
  rewrite (Hs (lit "id") parent) by (do 3 right; left). rewrite (Hs (lit "tx") (txn_id m)) by (do 5 right; left).
  rewrite (Hs (lit "ty") (Some (lit "App"))) by left. rewrite (Hs (lit "ac") (account_id m)) by (right; left).
  rewrite (Hs (lit "ap") (app_id m)) by (do 2 right; left). rewrite (Hs (lit "tr") (trace_id m)) by (do 4 right; left).
  rewrite (parsed_not_long address m parent time o Hp (lit "ac") (account_id m)) by (right; left).
  rewrite (parsed_not_long address m parent time o Hp (lit "ap") (app_id m)) by (do 2 right; left).
  rewrite (parsed_not_long address m parent time o Hp (lit "tr") (trace_id m)) by (do 4 right; left).
  rewrite (parsed_time address m parent time o Hp Ht). unfold complete. cbn [snd]. rewrite andb_false_r.
  by destruct parent, (txn_id m), (account_id m), (app_id m), (trace_id m).
Qed.

(** What the receiver then knows. *)
Definition received (m : nr_distributed_trace_t) (parent : option (list Z)) (now : Z) (transport : option (list Z))
    (t t' : nr_distributed_trace_t) : Prop :=
  (∃ s v, printed (priority m) = Some (s, v) ∧ priority t' = of_decimal_scientific s v (-5)) ∧
  sampled t' = sampled m ∧ trace_id t' = dt_field (trace_id m) ∧
  account_id t' = account_id t ∧ app_id t' = app_id t ∧ txn_id t' = txn_id t ∧ trusted_key t' = trusted_key t ∧
  inbound t' = Inbound true (Some (lit "App")) (dt_field (app_id m)) (dt_field (account_id m))
    (if existsb (λ s, 0 =? nr_strcmp transport (Some s)) supported_types then dt_field transport else Some (lit "Unknown"))
    (now / NR_TIME_DIVISOR_MS * NR_TIME_DIVISOR_MS) (dt_field parent) (dt_field (txn_id m))
    (tracing_vendors (inbound t)) (raw_tracing_vendors (inbound t)) (trusted_parent_id (inbound t)).

Lemma accept_received address m parent now o t transport :
  (∃ op, o = Some op) →
  (∀ k v, (k, v) ∈ data_fields m parent now →
    ∃ st, nro_get_hash_value (nro_get_hash_hash o (Some (lit "d"))).1 (Some k) = (reread address st <$> v, NR_SUCCESS)) →
  jsonable (ODouble (priority m)) → 2 ^ 31 ≤ now / NR_TIME_DIVISOR_MS → now < 2 ^ 63 →
  ∃ t', nr_distributed_trace_accept_inbound_payload (Some t) o transport None = (true, Some t', None) ∧
    received m parent now transport t t'.
Proof.
  intros [op ->] Hp Hj Ht Hn. unfold nr_distributed_trace_accept_inbound_payload.
  pose proof (parsed_string address m parent now _ Hp) as Hs. cbv zeta.
  rewrite (Hs (lit "id") parent) by (do 3 right; left). rewrite (Hs (lit "tx") (txn_id m)) by (do 5 right; left).
  rewrite (Hs (lit "ty") (Some (lit "App"))) by left. rewrite (Hs (lit "ac") (account_id m)) by (right; left).
  rewrite (Hs (lit "ap") (app_id m)) by (do 2 right; left). rewrite (Hs (lit "tr") (trace_id m)) by (do 4 right; left).
  rewrite (parsed_time address m parent now _ Hp Ht).
  destruct (Hp (lit "pr") (Some (ODouble (priority m)))) as [st Epr]; [by do 6 right; left|].
  destruct (Hp (lit "sa") (Some (OBoolean (if sampled m then 1 else 0)))) as [st' Esa]; [by do 7 right; left|].
  inversion Hj as [| | | | |? s v _ Hpr _| | |]; subst.
  unfold nro_get_hash_double, nro_get_hash_boolean. rewrite Epr, Esa. cbn [fst fmap option_fmap option_map reread]. rewrite Hpr.
  cbn [nro_get_double nro_get_boolean found]. rewrite !decide_True by done.
  eexists. split; [reflexivity|]. unfold received.
  assert (u64 (u64 (now / NR_TIME_DIVISOR_MS) * NR_TIME_DIVISOR_MS) = now / NR_TIME_DIVISOR_MS * NR_TIME_DIVISOR_MS) as Eu.
  { unfold NR_TIME_DIVISOR_MS in *. pose proof (Z.mul_div_le now 1000 ltac:(lia)).
    assert (u64 (now / 1000) = now / 1000) as -> by (apply u64_small; lia). apply u64_small. lia. }
  split_and!; [by eexists _, _|by destruct (sampled m)|done..|]. by rewrite <-Eu.
Qed.

(** The object of a payload, and its text. *)
Lemma payload_written `{Allocator Z} (radix : Z) (m : nr_distributed_trace_t) (parent : option (list Z)) (now : Z) :
  locale_radix radix → metadata_ok m → text_field parent → long_range (now / NR_TIME_DIVISOR_MS) → parent ≠ None ∨ txn_id m ≠ None →
  ∃ op d, nr_distributed_trace_payload_as_text radix (Some (nr_distributed_trace_payload_create now (Some m) parent)) = Some (nro_to_json radix (Some op)) ∧
    jsonable op ∧ obj_ok op ∧ nro_type (Some d) = NR_OBJECT_HASH ∧ holds_fields (Some d) (data_fields m parent now) ∧
    holds_fields (Some op) [(lit "v", Some version_object); (lit "d", Some d)].
Proof.
  intros Hx Hm Hp Hr Hid.
  assert (copied parent = parent) as Ec.
  { destruct parent as [s|]; [|done]. simpl. unfold nr_strdup. simpl. rewrite cstr_id; [done|]. by apply text_cstr, Hp. }
  destruct (payload_object_fields m parent now Hm Hp Hr) as (d & Hd & Hty & Hok & Hj & Ho).
  destruct (holds_jsonable _ _ Ho) as (op & Eo & Hjo & Hoko).
  { repeat (apply Forall_cons_2; [split; [by_text|]|]); [|done|apply Forall_nil_2].
    change (jsonable version_object). constructor. repeat apply Forall_cons_2; [..|apply Forall_nil_2]; constructor; unfold int_range; lia. }
  rewrite Eo in Ho. exists op, d. split_and!; [|done..].
  unfold nr_distributed_trace_payload_create, nr_distributed_trace_payload_as_text. rewrite Ec, Eo.
  destruct parent, (txn_id m); try done. by destruct Hid.
Qed.

(** What becomes of a payload on the other side. *)
Lemma payload_accepted `{Allocator Z} (radix radix' : Z) (address : list Z → Z)
    (m t : nr_distributed_trace_t) (parent transport : option (list Z)) (now : Z) :
  locale_radix radix → locale_radix radix' → metadata_ok m → text_field parent →
  2 ^ 31 * NR_TIME_DIVISOR_MS ≤ now < 2 ^ 63 → parent ≠ None ∨ txn_id m ≠ None →
  let payload := nr_distributed_trace_payload_create now (Some m) parent in
  ∃ text, nr_distributed_trace_payload_as_text radix (Some payload) = Some text ∧ is_cstr text ∧ text ≠ [] ∧
    if complete m parent then
      ∃ o t', nr_distributed_trace_convert_payload_to_object radix' address (Some text) None = Done (Some o, None) ∧
        nr_distributed_trace_object_get_trusted_key (Some o) = (if separate_key m then trusted_key m else None) ∧
        nr_distributed_trace_object_get_account_id (Some o) = account_id m ∧
        nr_distributed_trace_accept_inbound_payload (Some t) (Some o) transport None = (true, Some t', None) ∧
        received m parent now transport t t'
    else nr_distributed_trace_convert_payload_to_object radix' address (Some text) None =
      Done (None, Some NR_DISTRIBUTED_TRACE_ACCEPT_PARSE_EXCEPTION).
Proof.
  intros Hx Hx' Hm Hp Hnow Hid. cbv zeta.
  assert (2 ^ 31 ≤ now / NR_TIME_DIVISOR_MS) as Ht by (unfold NR_TIME_DIVISOR_MS in *; apply Z.div_le_lower_bound; lia).
  assert (long_range (now / NR_TIME_DIVISOR_MS)) as Hr.
  { unfold long_range, NR_TIME_DIVISOR_MS in *. Z.to_euclidean_division_equations; lia. }
  destruct (payload_written radix m parent now Hx Hm Hp Hr Hid) as (op & d & -> & Hjo & Hoko & Hty & Hd & Ho).
  exists (nro_to_json radix (Some op)). split; [done|].
  destruct (json_text_head address op Hjo Hoko) as (c & l & Ehead & Hc & _).
  assert (nr_strempty (Some (nro_to_json radix (Some op))) = false) as Ee.
  { rewrite nro_to_json_text, Ehead by done. unfold nr_strempty. change (char_at (c :: l) 0) with c. lia. }
  split; [rewrite nro_to_json_text by done; by apply json_text_cstr|]. split; [rewrite nro_to_json_text, Ehead by done; done|].
  destruct (parsed_data address m parent now op d Ho Hd Hty) as (E1 & E2 & Hparsed).
  unfold nr_distributed_trace_convert_payload_to_object. rewrite Ee, json_reads_back by done. cbn [mbind outcome_bind].
  rewrite (payload_error_spec address m parent now) by done. destruct (complete m parent); [|done].
  destruct (accept_received address m parent now (Some (reread address 0 op)) t transport) as (t' & Ea & Hrec);
    [by eexists|done|by destruct Hm as [_ _ _ _ _ [? _]]|done|lia|].
  exists (reread address 0 op), t'.
  split; [done|]. split; [|split; [|by split]].
  - unfold nr_distributed_trace_object_get_trusted_key.
    rewrite (parsed_string address m parent now _ Hparsed (lit "tk") (if separate_key m then trusted_key m else None)); [done|].
    do 9 right. destruct (separate_key m); left.
  - unfold nr_distributed_trace_object_get_account_id. rewrite (parsed_string address m parent now _ Hparsed (lit "ac") (account_id m)); [done|].
    by right; left.
Qed.

(** C4: A payload reaches the other side. The text made for an outbound request, read by an agent
    in whatever locale, is accepted when it names the sender's account, application and trace and a span or a
    transaction, and refused as a parse exception otherwise.  The receiver then has the sender's trace id and sampling
    decision, the priority to five places, and knows the sender's type, account, application, span and transaction and
    the time to the millisecond; its own identifiers are untouched, unknown transports are named so, and the trusted
    key travels exactly when it is not the account id. *)
Theorem nr_distributed_trace_payload_accepted `{Allocator Z} (radix radix' : Z) (address : list Z → Z)
    (m t : nr_distributed_trace_t) (parent transport : option (list Z)) (now : Z) :
  locale_radix radix → locale_radix radix' → metadata_ok m → text_field parent →
  2 ^ 31 * NR_TIME_DIVISOR_MS ≤ now < 2 ^ 63 → parent ≠ None ∨ txn_id m ≠ None →
  let payload := nr_distributed_trace_payload_create now (Some m) parent in
  ∃ text, nr_distributed_trace_payload_as_text radix (Some payload) = Some text ∧
    if complete m parent then
      ∃ o t', nr_distributed_trace_convert_payload_to_object radix' address (Some text) None = Done (o, None) ∧
        nr_distributed_trace_object_get_trusted_key o = (if separate_key m then trusted_key m else None) ∧
        nr_distributed_trace_accept_inbound_payload (Some t) o transport None = (true, Some t', None) ∧
        received m parent now transport t t'
    else nr_distributed_trace_convert_payload_to_object radix' address (Some text) None =
      Done (None, Some NR_DISTRIBUTED_TRACE_ACCEPT_PARSE_EXCEPTION).
Proof.
  intros Hx Hx' Hm Hp Hnow Hid payload.
  destruct (payload_accepted radix radix' address m t parent transport now Hx Hx' Hm Hp Hnow Hid) as (text & Et & _ & _ & Hrest).
  exists text. split; [exact Et|]. destruct (complete m parent); [|exact Hrest].
  destruct Hrest as (o & t' & Eo & Ek & _ & Ea & Hr). by exists (Some o), t'.
Qed.

Lemma nr_distributed_trace_payload_accepted_witness :
  let _ := GenerousAllocator.allocator Z in
  let m := Trace (Some (lit "1")) (Some (lit "2")) None (SpecFloat.S754_finite false 4503599627370496 (-53)) true
             (Some (lit "ab")) (Some (lit "9")) (inbound nr_distributed_trace_create) in
  ∃ text o t',
    nr_distributed_trace_payload_as_text 44 (Some (nr_distributed_trace_payload_create 1563574856827123 (Some m) (Some (lit "s")))) = Some text ∧
    nr_distributed_trace_convert_payload_to_object 46 (λ _, 0) (Some text) None = Done (o, None) ∧
    nr_distributed_trace_accept_inbound_payload (Some nr_distributed_trace_create) o (Some (lit "HTTP")) None = (true, Some t', None) ∧
    timestamp (inbound t') = 1563574856827000 ∧ transport_type (inbound t') = Some (lit "HTTP").
Proof.
  intros al m.
  destruct (nr_distributed_trace_payload_accepted (H:=al) 44 46 (λ _, 0) m nr_distributed_trace_create (Some (lit "s"))
    (Some (lit "HTTP")) 1563574856827123) as (text & Et & o & t' & Eo & _ & Ea & _ & _ & _ & _ & _ & _ & _ & Ei).
  - by right.
  - by left.
  - split; try (intros s [= <-]; by_text).
    split; [|by constructor]. eapply js_double; [done|vm_compute; reflexivity|intros s'; vm_compute; done].
  - intros s [= <-]; by_text.
  - unfold NR_TIME_DIVISOR_MS. lia.
  - by left.
  - exists text, o, t'. rewrite Ei. by split_and!.
Defined.
