(* ===== verification/StringSplit.v ===== *)
(** * StringSplit: splitting strings (src/axiom/util_strings.c, [nr_strsplit])

    The result is an array object of strings without white space at their ends. *)

From S2P Require Import Prelude CString Strings Double Object.
Local Open Scope Z_scope.

(** The two loops over white space: [len] characters from [s]. *)
Fixpoint drop_trailing (fuel : nat) (s : list Z) (len : Z) : Z :=
  match fuel with
  | O => len
  | S fuel => if (0 <? len) && nr_isspace (char_at s (len - 1)) then drop_trailing fuel s (len - 1) else len
  end.
Fixpoint drop_leading (s : list Z) (len : Z) : list Z * Z :=
  match s with
  | c :: s' => if (0 <? len) && nr_isspace c then drop_leading s' (len - 1) else (s, len)
  | [] => (s, len)
  end.

(** One piece per round; [strpbrk] is [strcspn] with its end told apart. *)
Fixpoint split_loop (fuel : nat) (arr : obj) (s delim : list Z) (use_empty : bool) : obj :=
  match fuel with
  | O => arr
  | S fuel =>
      let len := strcspn s delim in
      let next := if Z.of_nat (length s) <=? len then None else Some (drop (Z.to_nat (len + 1)) s) in
      let len := drop_trailing (Z.to_nat len) s len in
      let '(s, len) := drop_leading s len in
      let arr := if (0 <? len) || use_empty then (nro_set_array_string arr 0 (Some (nr_strndup (Some s) len))).1 else arr in
      match next with Some s => split_loop fuel arr s delim use_empty | None => arr end
  end.

Definition nr_strsplit (orig delim : option (list Z)) (use_empty : bool) : obj :=
  match orig, delim with
  | Some orig, Some delim =>
      let arr := Some nro_new_array in
      if char_at orig 0 =? 0 then (nro_set_array_string arr 0 (Some [])).1
      else if char_at delim 0 =? 0 then (nro_set_array_string arr 0 (Some orig)).1
      else split_loop (S (length (cstr orig))) arr (cstr orig) delim use_empty
  | _, _ => None
  end.

(** ** The pieces *)

(** The text up to a character, and what is behind it, if anything. *)
Fixpoint pieces (delim : list Z) (s : list Z) : list (list Z) :=
  match s with
  | [] => [[]]
  | c :: s => if bool_decide (c ∈ delim) then [] :: pieces delim s
              else match pieces delim s with p :: ps => (c :: p) :: ps | [] => [[c]] end
  end.

(** White space at both ends removed. *)
Fixpoint skip_space (s : list Z) : list Z :=
  match s with c :: s' => if nr_isspace c then skip_space s' else s | [] => [] end.
Definition trim (s : list Z) : list Z := skip_space (reverse (skip_space (reverse s))).

Definition wanted (use_empty : bool) (p : list Z) : Prop := use_empty = true ∨ p ≠ [].
#[export] Instance wanted_dec u p : Decision (wanted u p).
Proof. unfold wanted. apply _. Defined.

(** What the function is to return. *)
Definition tokens (delim s : list Z) (use_empty : bool) : list (list Z) := filter (wanted use_empty) (trim <$> pieces delim s).

Lemma drop_trailing_spec n s : (n ≤ length s)%nat →
  0 ≤ drop_trailing n s (Z.of_nat n) ≤ Z.of_nat n ∧
  take (Z.to_nat (drop_trailing n s (Z.of_nat n))) s = reverse (skip_space (reverse (take n s))).
Proof.
  induction n as [|n IH]; intros Hn; [done|]. cbn [drop_trailing].
  destruct (lookup_lt_is_Some_2 s n ltac:(lia)) as [c Hc]. rewrite (take_S_r s n c Hc), reverse_snoc. cbn [skip_space].
  assert (char_at s (Z.of_nat (S n) - 1) = c) as ->.
  { unfold char_at. replace (Z.to_nat (Z.of_nat (S n) - 1)) with n by lia. by rewrite Hc. }
  destruct (Z.ltb_spec 0 (Z.of_nat (S n))); [|lia]. cbn [andb]. destruct (nr_isspace c).
  - replace (Z.of_nat (S n) - 1) with (Z.of_nat n) by lia. destruct (IH ltac:(lia)) as [? ->]. split; [lia|done].
  - split; [lia|]. rewrite Nat2Z.id, reverse_cons, reverse_involutive. by apply take_S_r.
Qed.

Lemma drop_leading_spec s len : 0 ≤ len ≤ Z.of_nat (length s) →
  let '(s', len') := drop_leading s len in
  0 ≤ len' ≤ Z.of_nat (length s') ∧ take (Z.to_nat len') s' = skip_space (take (Z.to_nat len) s) ∧
  (is_cstr s → is_cstr s').
Proof.
  revert len. induction s as [|c s IH]; intros len Hl; cbn [drop_leading].
  { simpl in *. rewrite take_nil. split_and!; [lia|lia|done|done]. }
  destruct (Z.ltb_spec 0 len); cbn [andb].
  - assert (Z.to_nat len = S (Z.to_nat (len - 1))) as E by lia. rewrite E. cbn [take skip_space]. destruct (nr_isspace c).
    + specialize (IH (len - 1)). destruct (drop_leading s (len - 1)) as [s' len']. simpl in Hl.
      destruct IH as (? & ? & Hc); [lia|]. split_and!; [lia|lia|done|]. intros [_ Hs]%Forall_cons. by apply Hc.
    + rewrite E. split_and!; [lia|lia|done|done].
  - replace len with 0 by lia. split_and!; [lia|simpl; lia|done|done].
Qed.

Lemma pieces_step delim s : is_cstr delim → is_cstr s →
  0 ≤ strcspn s delim ≤ Z.of_nat (length s) ∧
  pieces delim s = take (Z.to_nat (strcspn s delim)) s ::
    (if Z.of_nat (length s) <=? strcspn s delim then [] else pieces delim (drop (Z.to_nat (strcspn s delim + 1)) s)).
Proof.
  intros Hd. induction 1 as [|c s Hc _ IH]; [done|]. cbn [strcspn pieces]. rewrite (cstr_id delim) by done.
  destruct (Z.eqb_spec c 0); [lia|]. case_bool_decide as E; [split; [simpl; lia|done]|].
  destruct IH as [Hr ->]. split; [simpl; lia|].
  replace (Z.to_nat (1 + strcspn s delim)) with (S (Z.to_nat (strcspn s delim))) by lia. cbn [take]. f_equal.
  replace (Z.to_nat (1 + strcspn s delim + 1)) with (S (Z.to_nat (strcspn s delim + 1))) by lia. cbn [drop].
  destruct (Z.leb_spec (Z.of_nat (length s)) (strcspn s delim)), (Z.leb_spec (Z.of_nat (length (c :: s))) (1 + strcspn s delim));
    simpl in *; try lia; done.
Qed.

Lemma skip_space_cstr s : is_cstr s → is_cstr (skip_space s).
Proof. induction 1 as [|c s Hc Hs IH]; [constructor|]. simpl. destruct (nr_isspace c); [done|by constructor]. Qed.
Lemma trim_cstr s : is_cstr s → is_cstr (trim s).
Proof. intros. by apply skip_space_cstr, Forall_reverse, skip_space_cstr, Forall_reverse. Qed.

Definition array_of (ps : list (list Z)) (o : obj) : Prop := ∃ a, o = Some (OArray a ((λ p, OString (Some p)) <$> ps)).

Lemma array_push ps o p : array_of ps o → is_cstr p → array_of (ps ++ [p]) (nro_set_array_string o 0 (Some p)).1.
Proof.
  intros [a ->] Hp. eexists. unfold nro_set_array_string, nro_internal_setvalue_array, nro_new_string, nr_strdup. simpl.
  rewrite cstr_id by done. by rewrite fmap_app.
Qed.

(** One round. *)
Lemma piece_spec s delim : is_cstr delim → is_cstr s →
  let len := strcspn s delim in
  let '(s', len') := drop_leading s (drop_trailing (Z.to_nat len) s len) in
  (0 <? len') = bool_decide (trim (take (Z.to_nat len) s) ≠ []) ∧ nr_strndup (Some s') len' = trim (take (Z.to_nat len) s).
Proof.
  intros Hd Hs len. destruct (pieces_step delim s Hd Hs) as [Hr _]. fold len in Hr.
  destruct (drop_trailing_spec (Z.to_nat len) s ltac:(lia)) as [Ht Et]. rewrite Z2Nat.id in Ht, Et by lia.
  set (tr := drop_trailing _ _ _) in *. pose proof (drop_leading_spec s tr ltac:(lia)) as Hl.
  destruct (drop_leading s tr) as [s' len']. destruct Hl as (Hl & El & Hc). rewrite Et in El. fold (trim (take (Z.to_nat len) s)) in El.
  rewrite <-El. split.
  - destruct (Z.ltb_spec 0 len'); symmetry; [apply bool_decide_eq_true|apply bool_decide_eq_false].
    + intros E%(f_equal length). rewrite length_take in E. simpl in E. lia.
    + replace len' with 0 by lia. tauto.
  - unfold nr_strndup. destruct (Z.eqb_spec len' 0) as [->|]; [done|]. apply cstr_id. by apply is_cstr_take, Hc.
Qed.

Lemma split_loop_spec fuel delim u : is_cstr delim → ∀ s ps o, is_cstr s → (length s < fuel)%nat → array_of ps o →
  array_of (ps ++ tokens delim s u) (split_loop fuel o s delim u).
Proof.
  intros Hd. induction fuel as [|fuel IH]; intros s ps o Hs Hf Ho; [lia|]. cbn [split_loop].
  destruct (pieces_step delim s Hd Hs) as [Hr Ep]. pose proof (piece_spec s delim Hd Hs) as Hp. cbv zeta in Hp.
  destruct (drop_leading s _) as [s' len']. destruct Hp as [E1 E2]. rewrite E1, E2.
  set (p := take _ s) in *. assert (is_cstr p) as Hcp by by apply is_cstr_take.
  assert (array_of (ps ++ filter (wanted u) [trim p])
    (if bool_decide (trim p ≠ []) || u then (nro_set_array_string o 0 (Some (trim p))).1 else o)) as Ho'.
  { rewrite filter_cons, filter_nil. destruct (decide (wanted u (trim p))) as [Hw|Hw]; unfold wanted in Hw.
    - assert (bool_decide (trim p ≠ []) || u = true) as ->; [|by apply array_push; [|apply trim_cstr]].
      destruct Hw as [->|Hw]; [by rewrite orb_true_r|by rewrite bool_decide_true].
    - assert (bool_decide (trim p ≠ []) || u = false) as ->; [|by rewrite app_nil_r].
      destruct u; [by destruct Hw; left|]. rewrite bool_decide_false; [done|]. intros E. apply Hw. by right. }
  unfold tokens. rewrite Ep, fmap_cons. destruct (Z.leb_spec (Z.of_nat (length s)) (strcspn s delim)) as [Hl|Hl]; [done|].
  change (filter (wanted u) (trim p :: ?l)) with (filter (wanted u) ([trim p] ++ l)). rewrite filter_app, app_assoc.
  apply IH; [by apply is_cstr_drop|rewrite length_drop; lia|done].
Qed.

(** The array holds the trimmed pieces. *)
Lemma nr_strsplit_tokens s delim u : is_cstr s → s ≠ [] → is_cstr delim → delim ≠ [] →
  array_of (tokens delim s u) (nr_strsplit (Some s) (Some delim) u).
Proof.
  intros Hs Hne Hd Hdn. unfold nr_strsplit.
  destruct s as [|c s]; [done|]. destruct delim as [|d delim]; [done|]. change (char_at (c :: s) 0) with c. change (char_at (d :: delim) 0) with d.
  pose proof Hs as [Hc _]%Forall_cons. pose proof Hd as [Hd0 _]%Forall_cons.
  destruct (Z.eqb_spec c 0), (Z.eqb_spec d 0); try lia. rewrite cstr_id by done.
  apply (split_loop_spec _ _ _ Hd _ []); [done|lia|]. by exists NRO_CHUNK_SIZE.
Qed.
