(* ===== verification/TraceContext.v ===== *)
(** * TraceContext: the W3C trace context headers
    (src/axiom/nr_distributed_trace.c)

    The two headers one agent writes and another parses and accepts.  Regular
    expressions are matched by PCRE, which is a parameter: for a pattern and a
    subject, the named groups that took part in the match.  Headers are C
    strings; the clock is a parameter; [*error] is the name of a metric. *)

From S2P Require Import Prelude CString Strings Double Object ObjectJson ObjectParse ObjectRoundtrip ObjectFields StringSplit DistributedTrace.
Local Open Scope Z_scope.

Definition NR_DISTRIBUTED_TRACE_W3C_TRACEPARENT_PARSE_EXCEPTION := lit "Supportability/TraceContext/TraceParent/Parse/Exception".
Definition NR_DISTRIBUTED_TRACE_W3C_TRACESTATE_NONRENTRY := lit "Supportability/TraceContext/TraceState/NoNrEntry".
Definition NR_DISTRIBUTED_TRACE_W3C_TRACESTATE_INVALIDNRENTRY := lit "Supportability/TraceContext/TraceState/InvalidNrEntry".
Definition NR_DISTRIBUTED_TRACE_W3C_TRACECONTEXT_ACCEPT_EXCEPTION := lit "Supportability/TraceContext/Accept/Exception".

Inductive nr_upstream_parent_sampling_control_t := DEFAULT | ALWAYS_KEEP | ALWAYS_DROP.
#[export] Instance sampling_control_eq_dec : EqDecision nr_upstream_parent_sampling_control_t.
Proof. solve_decision. Defined.

(** ** The C library *)

(** What [%.6f] prints. *)
Definition millionths (m : positive) (e : Z) : Z := scaled 1000000 m e.
Definition six_digits (v : Z) : list Z := five_digits (v / 10) ++ [48 + v mod 10].
Definition fixed_6 (radix : Z) (v : Z) : list Z := long_decimal (v / 1000000) ++ radix :: six_digits (v mod 1000000).
Definition format_6f (radix : Z) (d : double) : list Z :=
  match d with
  | SpecFloat.S754_zero s => sign_text s ++ fixed_6 radix 0
  | SpecFloat.S754_infinity s => sign_text s ++ lit "inf"
  | SpecFloat.S754_nan => lit "nan"
  | SpecFloat.S754_finite s m e => sign_text s ++ fixed_6 radix (millionths m e)
  end.

(** [strtol] and [strtoull] for digits of a base, as they are applied to what a pattern of digits matched. *)
Definition strtol_10 (s : list Z) : Z := saturate (of_decimal (span nr_isdigit s).1).
Definition strtol_16 (s : list Z) : Z := saturate (of_hex (span nr_isxdigit s).1).
Definition strtoull_10 (s : list Z) : Z := Z.min (2 ^ 64 - 1) (of_decimal (span nr_isdigit s).1).

(** ** Creating headers *)
Definition nr_priority_double_to_str (radix : Z) (value : double) : list Z :=
  let buf := format_6f radix value in replace_comma (length buf) buf.

Definition NRBLANKSTR (s : option (list Z)) : list Z := default [] s.

Definition nr_distributed_trace_create_w3c_tracestate_header (radix : Z) (now : Z) (dt : option nr_distributed_trace_t)
    (span_id txn_id : option (list Z)) : option (list Z) :=
  match dt with
  | None => None
  | Some _ =>
      trusted_account_key ← nr_distributed_trace_get_trusted_key dt;
      account_id ← nr_distributed_trace_get_account_id dt;
      app_id ← nr_distributed_trace_get_app_id dt;
      let sampled := if nr_distributed_trace_is_sampled dt then lit "1" else lit "0" in
      let priority_buf := nr_priority_double_to_str radix (nr_distributed_trace_get_priority dt) in
      Some (cstr trusted_account_key ++ lit "@nr=0-0-" ++ cstr account_id ++ lit "-" ++ cstr app_id ++ lit "-" ++
            cstr (NRBLANKSTR span_id) ++ lit "-" ++ cstr (NRBLANKSTR txn_id) ++ lit "-" ++ sampled ++ lit "-" ++
            priority_buf ++ lit "-" ++ signed_decimal (long_of (now / NR_TIME_DIVISOR_MS)))
  end.

Definition nr_distributed_trace_create_w3c_traceparent_header (trace_id span_id : option (list Z)) (sampled : bool) :
    option (list Z) :=
  match trace_id, span_id with
  | Some _, Some span_id =>
      let tmp := default [] (nr_string_to_lowercase trace_id) in
      let padding := 32 - nr_strlen (Some tmp) in
      let formatted_trace_id :=
        if 0 <? padding then take 32 (replicate (Z.to_nat padding) 48 ++ tmp) else take 32 tmp in
      let flags := if sampled then lit "01" else lit "00" in
      Some (lit "00-" ++ formatted_trace_id ++ lit "-" ++ cstr span_id ++ lit "-" ++ flags)
  | _, _ => None
  end.

(** ** Parsing headers *)
Definition traceparent_pattern : list Z := lit
  "^(?P<version>[0-9a-f]{2})-(?P<trace_id>[0-9a-f]{32})-(?P<parent_id>[0-9a-f]{16})-(?P<trace_flags>[0-9a-f]{2})(?P<additional>-.*)?$".
Definition tracestate_pattern (header_key : list Z) : list Z :=
  lit "^" ++ header_key ++ lit
  "(?P<version>[0-9]+)-(?P<parent_type>[0-9]+)-(?P<parent_account_id>[0-9a-zA-Z]+)-(?P<parent_application_id>[0-9a-zA-Z]+)-(?P<span_id>[0-9a-zA-Z]*)-(?P<transaction_id>[0-9a-zA-Z]*)-(?P<sampled>[0-9]*)-(?P<priority>[0-9.]*)-(?P<timestamp>[0-9]+)".

Definition substrings : Type := list Z → option (list Z).
Definition nr_regex_substrings_get_named (ss : substrings) (name : list Z) : option (list Z) :=
  (λ v, nr_strndup (Some v) (Z.of_nat (length v))) <$> ss name.

Definition header_buffer : list Z := replicate 260 0.
Definition tracestate_key (trusted_account_key : list Z) : list Z :=
  cstr (snprintf header_buffer 260 (cstr trusted_account_key ++ lit "@nr=")).2.

(** The entries: the buffer of the last one of New Relic's, the others, and their names. *)
Record vendors_t := Vendors {
  header_value : list Z;
  headers_to_be_forwarded : option (list Z);
  vendor_names : option (list Z);
}.

Definition vendor_step (header_key : list Z) (st : vendors_t) (value : option (list Z)) : vendors_t :=
  if nr_strncmp value (Some header_key) (nr_strlen (Some header_key)) =? 0
  then Vendors (default [] (nr_strlcpy (Some (header_value st)) value 260).2) (headers_to_be_forwarded st) (vendor_names st)
  else Vendors (header_value st) (nr_str_append (headers_to_be_forwarded st) value (Some (lit ",")))
         (nr_str_append (vendor_names st) (nro_get_array_string (nr_strsplit value (Some (lit "=")) false) 1).1 (Some (lit ","))).

Definition vendor_loop (header_key : list Z) (vendors : obj) : vendors_t :=
  foldl (λ st index, vendor_step header_key st (nro_get_array_string vendors (Z.of_nat index)).1)
    (Vendors header_buffer None None) (seq 1 (Z.to_nat (nro_getsize vendors))).

Definition set_string_if_any (o : obj) (key : list Z) (str : option (list Z)) : obj :=
  if nr_strlen str =? 0 then o else (nro_set_hash_string o (Some key) str).1.

Section parsing.
Context (radix : Z) (regex_capture : list Z → list Z → option substrings).

Definition nr_distributed_trace_convert_w3c_headers_traceparent (o : obj) (traceparent : option (list Z)) :
    option (list Z) * obj :=
  let failure := (Some NR_DISTRIBUTED_TRACE_W3C_TRACEPARENT_PARSE_EXCEPTION, o) in
  match traceparent, o with
  | Some tp, Some _ =>
      match regex_capture traceparent_pattern (cstr tp) with
      | None => failure
      | Some ss =>
          let traceparent_obj := Some nro_new_hash in
          let str := nr_regex_substrings_get_named ss (lit "version") in
          if 0 =? nr_strcmp str (Some (lit "ff")) then failure
          else if (0 =? nr_strcmp str (Some (lit "00"))) &&
                  (if nr_regex_substrings_get_named ss (lit "additional") is Some _ then true else false) then failure
          else
            let traceparent_obj := (nro_set_hash_string traceparent_obj (Some (lit "version")) str).1 in
            let str := nr_regex_substrings_get_named ss (lit "trace_id") in
            if 0 =? nr_strcmp str (Some (lit "00000000000000000000000000000000")) then failure
            else
              let traceparent_obj := (nro_set_hash_string traceparent_obj (Some (lit "trace_id")) str).1 in
              let str := nr_regex_substrings_get_named ss (lit "parent_id") in
              if 0 =? nr_strcmp str (Some (lit "0000000000000000")) then failure
              else
                let traceparent_obj := (nro_set_hash_string traceparent_obj (Some (lit "parent_id")) str).1 in
                let str := default [] (nr_regex_substrings_get_named ss (lit "trace_flags")) in
                let traceparent_obj := (nro_set_hash_int traceparent_obj (Some (lit "trace_flags")) (int_of (strtol_16 str))).1 in
                (None, (nro_set_hash o (Some (lit "traceparent")) traceparent_obj).1)
      end
  | _, _ => failure
  end.

(** The object of New Relic's entry. *)
Definition tracestate_object (ss : substrings) : obj :=
  let get name := nr_regex_substrings_get_named ss name in
  let o := Some nro_new_hash in
  let o := (nro_set_hash_int o (Some (lit "version")) (int_of (strtol_10 (default [] (get (lit "version")))))).1 in
  let o := (nro_set_hash_int o (Some (lit "parent_type")) (int_of (strtol_10 (default [] (get (lit "parent_type")))))).1 in
  let o := (nro_set_hash_string o (Some (lit "parent_account_id")) (get (lit "parent_account_id"))).1 in
  let o := (nro_set_hash_string o (Some (lit "parent_application_id")) (get (lit "parent_application_id"))).1 in
  let o := set_string_if_any o (lit "span_id") (get (lit "span_id")) in
  let o := set_string_if_any o (lit "transaction_id") (get (lit "transaction_id")) in
  let str := get (lit "sampled") in
  let o := if nr_strlen str =? 0 then o else (nro_set_hash_int o (Some (lit "sampled")) (int_of (strtol_10 (default [] str)))).1 in
  let str := get (lit "priority") in
  let o := if nr_strlen str =? 0 then o
           else let '(priority, endptr) := strtod radix (default [] str) in
                if negb (char_at (default [] str) endptr =? 0) then o
                else (nro_set_hash_double o (Some (lit "priority")) priority).1 in
  (nro_set_hash_long o (Some (lit "timestamp")) (long_of (strtoull_10 (default [] (get (lit "timestamp")))))).1.

Definition nr_distributed_trace_convert_w3c_headers_tracestate (o : obj) (tracestate trusted_account_key : option (list Z)) :
    option (list Z) * obj :=
  match tracestate, o, trusted_account_key with
  | Some _, Some _, Some key =>
      let header_key := tracestate_key key in
      let vendors := nr_strsplit tracestate (Some (lit ",")) false in
      if nro_getsize vendors =? 0 then (Some NR_DISTRIBUTED_TRACE_W3C_TRACESTATE_NONRENTRY, o)
      else
        let st := vendor_loop header_key vendors in
        let o := match vendor_names st with
                 | None => o
                 | Some _ =>
                     let o := (nro_set_hash_string o (Some (lit "tracingVendors")) (vendor_names st)).1 in
                     (nro_set_hash_string o (Some (lit "rawTracingVendors")) (headers_to_be_forwarded st)).1
                 end in
        if nr_strlen (Some (header_value st)) =? 0 then (Some NR_DISTRIBUTED_TRACE_W3C_TRACESTATE_NONRENTRY, o)
        else
          match regex_capture (tracestate_pattern header_key) (cstr (header_value st)) with
          | None => (Some NR_DISTRIBUTED_TRACE_W3C_TRACESTATE_INVALIDNRENTRY, o)
          | Some ss => (None, (nro_set_hash o (Some (lit "tracestate")) (tracestate_object ss)).1)
          end
  | _, _, _ => (Some NR_DISTRIBUTED_TRACE_W3C_TRACESTATE_NONRENTRY, o)
  end.

(** [error] is not [NULL]: what it points to before and after. *)
Definition nr_distributed_trace_convert_w3c_headers_to_object (traceparent tracestate trusted_account_key err : option (list Z)) :
    obj * option (list Z) :=
  let o := Some nro_new_hash in
  let '(error_metric, o) := nr_distributed_trace_convert_w3c_headers_traceparent o traceparent in
  match error_metric with
  | Some _ => (None, error_metric)
  | None =>
      let '(error_metric, o) := nr_distributed_trace_convert_w3c_headers_tracestate o tracestate trusted_account_key in
      (o, match error_metric with Some _ => error_metric | None => err end)
  end.
End parsing.

(** ** Accepting headers *)
Definition nr_distributed_trace_set_parent_type (t : nr_distributed_trace_t) (w3c_type : Z) : nr_distributed_trace_t :=
  on_inbound (in_type (dt_field (Some
    (if w3c_type =? 0 then lit "App" else if w3c_type =? 1 then lit "Browser" else if w3c_type =? 2 then lit "Mobile"
     else lit "App")))) t.

Definition positive_double (d : double) : bool :=
  match d with SpecFloat.S754_finite false _ _ | SpecFloat.S754_infinity false => true | _ => false end.

(** The status asked for is never there: the pointer to it is [NULL], which is what it is compared with. *)
Definition nr_distributed_trace_accept_tracestate (t : nr_distributed_trace_t) (tracestate : obj) : nr_distributed_trace_t :=
  let string k := (nro_get_hash_string tracestate (Some k)).1 in
  let field f (v : option (list Z)) t := match v with Some _ => on_inbound (f (dt_field v)) t | None => t end in
  let t := match string (lit "span_id") with
           | Some s => on_inbound (in_trusted_parent_id (copied (Some s))) t
           | None => t
           end in
  let t := field in_account_id (string (lit "parent_account_id")) t in
  let t := field in_app_id (string (lit "parent_application_id")) t in
  let t := field in_txn_id (string (lit "transaction_id")) t in
  let t := set_sampled (negb ((nro_get_hash_int tracestate (Some (lit "sampled"))).1 =? 0)) t in
  let p := (nro_get_hash_double tracestate (Some (lit "priority"))).1 in
  let t := if positive_double p then set_priority p t else t in
  let t := on_inbound (in_timestamp (u64 (u64 (nro_get_hash_long tracestate (Some (lit "timestamp"))).1 * NR_TIME_DIVISOR_MS))) t in
  nr_distributed_trace_set_parent_type t (nro_get_hash_int tracestate (Some (lit "parent_type"))).1.

Definition nr_distributed_trace_accept_inbound_w3c_payload (dt : option nr_distributed_trace_t) (trace_headers : obj)
    (transport : option (list Z)) (err : option (list Z)) : bool * option nr_distributed_trace_t * option (list Z) :=
  match err with
  | Some _ => (false, dt, err)
  | None =>
      match dt with
      | None => (false, dt, Some NR_DISTRIBUTED_TRACE_W3C_TRACECONTEXT_ACCEPT_EXCEPTION)
      | Some t =>
          let failure := (false, dt, Some NR_DISTRIBUTED_TRACE_W3C_TRACEPARENT_PARSE_EXCEPTION) in
          match trace_headers with
          | None => failure
          | Some _ =>
              let traceparent := (nro_get_hash_value trace_headers (Some (lit "traceparent"))).1 in
              let tp_span_id := (nro_get_hash_string traceparent (Some (lit "parent_id"))).1 in
              let tp_trace_id := (nro_get_hash_string traceparent (Some (lit "trace_id"))).1 in
              match traceparent, tp_span_id, tp_trace_id with
              | Some _, Some _, Some _ =>
                  let tracestate := (nro_get_hash_value trace_headers (Some (lit "tracestate"))).1 in
                  let t := match tracestate with
                           | Some _ => nr_distributed_trace_accept_tracestate t tracestate
                           | None => t
                           end in
                  let field f k t :=
                    match (nro_get_hash_string trace_headers (Some k)).1 with
                    | Some v => on_inbound (f (dt_field (Some v))) t
                    | None => t
                    end in
                  let t := field in_tracing_vendors (lit "tracingVendors") t in
                  let t := field in_raw_tracing_vendors (lit "rawTracingVendors") t in
                  let dt := nr_distributed_trace_inbound_set_transport_type (Some t) transport in
                  let dt := on_inbound (in_guid (dt_field tp_span_id)) <$> dt in
                  let dt := set_trace_id (dt_field tp_trace_id) <$> dt in
                  (true, on_inbound (in_set true) <$> dt, None)
              | _, _, _ => failure
              end
          end
      end
  end.

Definition two : double := SpecFloat.S754_finite false 4503599627370496 (-51).
Definition nr_distributed_trace_handle_inbound_w3c_sampled_flag (t : nr_distributed_trace_t) (trace_headers : obj)
    (remote_parent_sampled remote_parent_not_sampled : nr_upstream_parent_sampling_control_t) : nr_distributed_trace_t :=
  if bool_decide (remote_parent_sampled ≠ DEFAULT) || bool_decide (remote_parent_not_sampled ≠ DEFAULT) then
    let '(traceparent, parse_err) := nro_get_hash_value trace_headers (Some (lit "traceparent")) in
    match traceparent with
    | None => t
    | Some _ =>
        if bool_decide (parse_err ≠ NR_SUCCESS) then t
        else
          let '(sampled, parse_err) := nro_get_hash_int traceparent (Some (lit "trace_flags")) in
          if bool_decide (parse_err ≠ NR_SUCCESS) then t
          else if negb (Z.land sampled 0x01 =? 0) then
            if bool_decide (remote_parent_sampled ≠ DEFAULT) then
              if bool_decide (remote_parent_sampled = ALWAYS_KEEP) then set_priority two (set_sampled true t) else set_sampled false t
            else t
          else
            if bool_decide (remote_parent_not_sampled ≠ DEFAULT) then
              if bool_decide (remote_parent_not_sampled = ALWAYS_DROP) then set_sampled false t else set_priority two (set_sampled true t)
            else t
    end
  else t.

(** ** What PCRE is relied on for

    Both patterns are groups of repeated characters with dashes, which no group
    takes, between them: a subject is read from the left. *)
Record group := Group { group_name : list Z; group_class : Z → bool; group_length : nat → bool }.

Fixpoint read_groups (gs : list group) (s : list Z) : option (list (list Z * list Z) * list Z) :=
  match gs with
  | [] => Some ([], s)
  | g :: gs' =>
      let '(v, r) := span (group_class g) s in
      if group_length g (length v) then
        match gs', r with
        | [], _ => Some ([(group_name g, v)], r)
        | _, c :: r => if c =? 45 then '(l, rest) ← read_groups gs' r; Some ((group_name g, v) :: l, rest) else None
        | _, [] => None
        end
      else None
  end.

Definition substrings_of (l : list (list Z * list Z)) : substrings :=
  λ name, snd <$> find (λ e, bool_decide (e.1 = name)) l.

Definition lower_hex (c : Z) : bool := nr_isdigit c || ((97 <=? c) && (c <=? 102)).
Definition traceparent_groups : list group :=
  [Group (lit "version") lower_hex (Nat.eqb 2); Group (lit "trace_id") lower_hex (Nat.eqb 32);
   Group (lit "parent_id") lower_hex (Nat.eqb 16); Group (lit "trace_flags") lower_hex (Nat.eqb 2)].

(** The optional last group; the end of the subject may be a newline away. *)
Definition read_additional (r : list Z) : option (list (list Z * list Z)) :=
  let body := if bool_decide (last r = Some 10) then take (length r - 1) r else r in
  match body with
  | [] => Some []
  | c :: x => if (c =? 45) && bool_decide (10 ∉ x) then Some [(lit "additional", body)] else None
  end.
Definition read_traceparent (s : list Z) : option substrings :=
  '(l, r) ← read_groups traceparent_groups s; l' ← read_additional r; Some (substrings_of (l ++ l')).

Definition positive_length (n : nat) : bool := (1 <=? n)%nat.
Definition any_length (n : nat) : bool := true.
Definition tracestate_groups : list group :=
  [Group (lit "version") nr_isdigit positive_length; Group (lit "parent_type") nr_isdigit positive_length;
   Group (lit "parent_account_id") nr_isalnum positive_length; Group (lit "parent_application_id") nr_isalnum positive_length;
   Group (lit "span_id") nr_isalnum any_length; Group (lit "transaction_id") nr_isalnum any_length;
   Group (lit "sampled") nr_isdigit any_length; Group (lit "priority") (λ c, nr_isdigit c || (c =? 46)) any_length;
   Group (lit "timestamp") nr_isdigit positive_length].
Definition read_tracestate (header_key s : list Z) : option substrings :=
  if bool_decide (take (length header_key) s = header_key)
  then '(l, _) ← read_groups tracestate_groups (drop (length header_key) s); Some (substrings_of l) else None.

Definition alnum (s : list Z) : Prop := Forall (λ c, nr_isalnum c = true) s.

(** The two patterns match what they say; a key of letters and digits stands for itself in a pattern. *)
Record pcre_reads (regex_capture : list Z → list Z → option substrings) (trusted_account_key : list Z) : Prop := {
  pcre_traceparent : ∀ s, is_cstr s → regex_capture traceparent_pattern s = read_traceparent s;
  pcre_tracestate : ∀ s, is_cstr s → alnum trusted_account_key →
    regex_capture (tracestate_pattern (trusted_account_key ++ lit "@nr=")) s = read_tracestate (trusted_account_key ++ lit "@nr=") s;
}.

(** ** Joined strings *)
Fixpoint join (sep : Z) (l : list (list Z)) : list Z :=
  match l with [] => [] | [x] => x | x :: l => x ++ sep :: join sep l end.

Lemma join_cons sep x l : l ≠ [] → join sep (x :: l) = x ++ sep :: join sep l.
Proof. by destruct l. Qed.

Lemma join_tail sep x l : join sep (x :: l) = x ++ flat_map (λ y, sep :: y) l.
Proof. revert x. induction l as [|y l IH]; intros x; [by rewrite app_nil_r|]. rewrite join_cons by done. by rewrite IH. Qed.

Lemma join_snoc sep l x : l ≠ [] → join sep (l ++ [x]) = join sep l ++ sep :: x.
Proof.
  induction l as [|y l IH]; [done|]. intros _. destruct (decide (l = [])) as [->|Hl]; [done|].
  rewrite <-app_comm_cons, join_cons by (by destruct l). rewrite IH, join_cons by done. by rewrite <-app_assoc.
Qed.

Lemma join_forall (P : Z → Prop) sep l : P sep → Forall (Forall P) l → Forall P (join sep l).
Proof.
  intros Hs. induction 1 as [|x l Hx _ IH]; [apply Forall_nil_2|]. destruct (decide (l = [])) as [->|Hl]; [done|].
  rewrite join_cons by done. apply Forall_app. split; [done|by apply Forall_cons_2].
Qed.

(** Values in the classes of the groups are read from between the dashes. *)
Definition fits (g : group) (v : list Z) : Prop :=
  Forall (λ c, group_class g c = true) v ∧ group_length g (length v) = true ∧ group_class g 45 = false.

Lemma read_groups_join gs vs rest : gs ≠ [] → Forall2 fits gs vs →
  (∀ g, last gs = Some g → match rest with [] => True | c :: _ => group_class g c = false end) →
  read_groups gs (join 45 vs ++ rest) = Some (zip (group_name <$> gs) vs, rest).
Proof.
  intros Hne H. revert Hne. induction H as [|g v gs vs (Hc & Hl & Hd) Hgs IH]; [done|]. intros _ Hr. cbn [read_groups].
  destruct Hgs as [|g' v' gs vs Hg' Hgs].
  - simpl. rewrite span_app; [by rewrite Hl|done|]. by apply (Hr g).
  - rewrite join_cons, <-app_assoc by done. cbn [app]. rewrite span_app by done. rewrite Hl. cbn [Z.eqb Pos.eqb].
    rewrite IH; [done|done|]. intros g0 Hg0. apply Hr. by rewrite last_cons_cons.
Qed.

(** ** Splitting what was joined *)
Lemma pieces_plain delim p : Forall (λ c, c ∉ delim) p → pieces delim p = [p].
Proof. induction 1 as [|c p Hc _ IH]; [done|]. simpl. rewrite bool_decide_false by done. by rewrite IH. Qed.

Lemma pieces_app delim p d s : Forall (λ c, c ∉ delim) p → d ∈ delim → pieces delim (p ++ d :: s) = p :: pieces delim s.
Proof.
  intros Hp Hd. induction Hp as [|c p Hc _ IH]; simpl; [by rewrite bool_decide_true|].
  rewrite bool_decide_false by done. by rewrite IH.
Qed.

Lemma pieces_join sep l : l ≠ [] → Forall (λ p, sep ∉ p) l → pieces [sep] (join sep l) = l.
Proof.
  intros Hl H. revert Hl. assert (∀ p : list Z, sep ∉ p → Forall (λ c, c ∉ [sep]) p) as Hp.
  { intros p Hp. apply Forall_forall. intros c Hc ->%list_elem_of_singleton. done. }
  induction H as [|p l Hx Hf IH]; [done|]. intros _. destruct (decide (l = [])) as [->|Hl]; [by apply pieces_plain, Hp|].
  rewrite join_cons by done. rewrite pieces_app, IH; [done..|by apply Hp|by left].
Qed.

Definition clean (p : list Z) : Prop := is_cstr p ∧ p ≠ [] ∧ trim p = p.

Lemma tokens_clean sep l u : l ≠ [] → Forall (λ p, sep ∉ p) l → Forall clean l → tokens [sep] (join sep l) u = l.
Proof.
  intros Hl Hs Hc. unfold tokens. rewrite pieces_join by done.
  assert (trim <$> l = l) as ->.
  { rewrite <-(list_fmap_id l) at 2. apply list_fmap_ext. intros i x Hi. rewrite Forall_forall in Hc.
    by apply Hc, list_elem_of_lookup_2 with i. }
  apply filter_all. eapply Forall_impl; [exact Hc|]. intros p (_ & ? & _). by right.
Qed.

Lemma skip_space_none s : Forall (λ c, nr_isspace c = false) s → skip_space s = s.
Proof. intros H. destruct H as [|c s Hc Hs]; [done|]. simpl. by rewrite Hc. Qed.
Lemma clean_solid s : is_cstr s → s ≠ [] → Forall (λ c, nr_isspace c = false) s → clean s.
Proof.
  intros Hc Hne Hs. split_and!; [done|done|]. unfold trim.
  rewrite (skip_space_none (reverse s)) by by apply Forall_reverse. rewrite reverse_involutive. by apply skip_space_none.
Qed.

Lemma array_string ps o i : array_of ps o → (nro_get_array_string o (Z.of_nat (S i))).1 = ps !! i.
Proof.
  intros [a ->]. unfold nro_get_array_string, nro_get_array_value. rewrite length_fmap.
  replace (Z.to_nat (Z.of_nat (S i) - 1)) with i by lia. rewrite list_lookup_fmap.
  destruct (ps !! i) as [p|] eqn:E.
  - apply lookup_lt_Some in E. destruct (Z.ltb_spec (Z.of_nat (S i)) 1), (Z.leb_spec (Z.of_nat (length ps)) (Z.of_nat (S i) - 1)); try lia; done.
  - by destruct (_ || _).
Qed.

Lemma array_size ps o : array_of ps o → nro_getsize o = Z.of_nat (length ps).
Proof. intros [a ->]. simpl. by rewrite length_fmap. Qed.

Lemma foldl_fmap {A B C} (f : A → B → A) (g : C → B) a l : foldl (λ x y, f x (g y)) a l = foldl f a (g <$> l).
Proof. revert a. induction l; intros; simpl; auto. Qed.

Lemma vendor_loop_spec key ps o : array_of ps o →
  vendor_loop key o = foldl (vendor_step key) (Vendors header_buffer None None) (Some <$> ps).
Proof.
  intros Ho. unfold vendor_loop. rewrite (array_size ps o Ho), Nat2Z.id.
  rewrite (foldl_fmap (vendor_step key) (λ i, (nro_get_array_string o (Z.of_nat i)).1)). f_equal.
  apply list_eq. intros i. rewrite !list_lookup_fmap. destruct (decide (i < length ps)%nat) as [Hi|Hi].
  - rewrite lookup_seq_lt by done. cbn [fmap option_fmap option_map]. change (1 + i)%nat with (S i). rewrite (array_string ps o i Ho).
    by destruct (lookup_lt_is_Some_2 ps i Hi) as [p ->].
  - by rewrite lookup_seq_ge, lookup_ge_None_2 by lia.
Qed.

(** ** Other vendors *)
Definition vendor_entry (v : list Z * list Z) : list Z := v.1 ++ 61 :: v.2.

Record vendor_ok (trusted_account_key : list Z) (v : list Z * list Z) : Prop := {
  vo_name : clean v.1;
  vo_entry : clean (vendor_entry v);
  vo_comma : 44 ∉ vendor_entry v;
  vo_equals : 61 ∉ v.1;
  vo_other : v.1 ≠ trusted_account_key ++ lit "@nr";
}.

Definition joined (l : list (list Z)) : option (list Z) := match l with [] => None | _ => Some (join 44 l) end.

Lemma joined_append l x : Forall is_cstr l → is_cstr x →
  nr_str_append (joined l) (Some x) (Some (lit ",")) = joined (l ++ [x]).
Proof.
  intros Hl Hx. unfold joined. destruct l as [|y l]; [simpl; by rewrite cstr_id|]. cbn [nr_str_append default].
  rewrite (cstr_id x) by done. rewrite cstr_id by (apply join_forall; [lia|done]). rewrite join_snoc by done. by destruct l.
Qed.

Lemma alnum_cstr s : alnum s → is_cstr s.
Proof.
  intros Hs. eapply Forall_impl; [exact Hs|]. unfold nr_isalnum, nr_isdigit, nr_isupper, nr_islower. simpl. lia.
Qed.
Lemma alnum_not c s : alnum s → nr_isalnum c = false → c ∉ s.
Proof. intros Hs Hc Hin. unfold alnum in Hs. rewrite Forall_forall in Hs. specialize (Hs c Hin). simpl in Hs. congruence. Qed.

Lemma split_at_first (c : Z) a b a' b' : c ∉ a → c ∉ a' → a ++ c :: b = a' ++ c :: b' → a = a' ∧ b = b'.
Proof.
  revert a'. induction a as [|x a IH]; intros [|x' a'] Ha Ha' E; simpl in *.
  - by injection E.
  - injection E as -> _. destruct Ha'. by left.
  - injection E as -> _. destruct Ha. by left.
  - injection E as -> E. apply not_elem_of_cons in Ha as [_ Ha], Ha' as [_ Ha'].
    by destruct (IH a' Ha Ha' E) as [-> ->].
Qed.

Section vendors.
Context (key : list Z).
Hypothesis key_alnum : alnum key.
Let header_key := key ++ lit "@nr=".

Lemma header_key_cstr : is_cstr header_key.
Proof. apply Forall_app. split; [by apply alnum_cstr|]. apply (bool_decide_unpack _). by vm_compute. Qed.

Lemma compare_key s : is_cstr s → nr_strncmp (Some s) (Some header_key) (nr_strlen (Some header_key)) = 0 ↔ header_key `prefix_of` s.
Proof.
  intros Hs. pose proof header_key_cstr as Hk. unfold nr_strlen. rewrite cstr_id by done. unfold nr_strncmp.
  destruct (Z.ltb_spec 0 (Z.of_nat (length header_key))) as [|Hl]; [by apply strncmp_prefix|].
  unfold header_key in Hl. rewrite length_app in Hl. simpl in Hl. lia.
Qed.

Lemma other_vendor v : vendor_ok key v → ¬ header_key `prefix_of` vendor_entry v.
Proof.
  intros [_ _ _ He Ho] [x E]. unfold vendor_entry, header_key in E.
  change (lit "@nr=") with (lit "@nr" ++ [61]) in E. rewrite app_assoc, <-app_assoc in E. cbn [app] in E.
  apply split_at_first in E as [E _]; [done|done|]. intros Hin%elem_of_app. destruct Hin as [Hin|Hin].
  - by apply (alnum_not 61 key).
  - revert Hin. apply (bool_decide_unpack _). by vm_compute.
Qed.

Lemma vendor_name_first v : vendor_ok key v →
  (nro_get_array_string (nr_strsplit (Some (vendor_entry v)) (Some (lit "=")) false) 1).1 = Some v.1.
Proof.
  intros [(Hn & Hne & Ht) (Hc & Hne' & _) _ He _].
  assert (is_cstr (lit "=")) as Hd by by apply Forall_singleton.
  pose proof (nr_strsplit_tokens (vendor_entry v) (lit "=") false Hc Hne' Hd ltac:(done)) as Ha.
  apply (array_string _ _ 0) in Ha. change (Z.of_nat 1) with 1 in Ha. rewrite Ha. unfold tokens, vendor_entry.
  change (lit "=") with [61]. rewrite pieces_app; [|apply Forall_forall; intros c Hc' ->%list_elem_of_singleton; done|by left].
  rewrite fmap_cons, Ht. rewrite filter_cons_True by by right. done.
Qed.

Lemma vendors_fold vs : Forall (vendor_ok key) vs → ∀ done buffer, Forall (vendor_ok key) done →
  foldl (vendor_step header_key) (Vendors buffer (joined (vendor_entry <$> done)) (joined done.*1)) (Some <$> (vendor_entry <$> vs)) =
  Vendors buffer (joined (vendor_entry <$> (done ++ vs))) (joined (done ++ vs).*1).
Proof.
  induction 1 as [|v vs Hv _ IH]; intros before buffer Hb; [by rewrite app_nil_r|]. cbn [foldl fmap list_fmap].
  pose proof Hv as [(Hn & _ & _) (Hc & _ & _) _ _ _]. unfold vendor_step at 2.
  destruct (Z.eqb_spec (nr_strncmp (Some (vendor_entry v)) (Some header_key) (nr_strlen (Some header_key))) 0) as [E|_].
  { apply compare_key in E; [|done]. by apply other_vendor in E. }
  cbn [header_value headers_to_be_forwarded vendor_names]. rewrite vendor_name_first by done.
  rewrite !joined_append; [| |done| |done]; [|apply Forall_fmap; eapply Forall_impl; [exact Hb|]; by intros x [(? & _) _ _ _ _]
    |apply Forall_fmap; eapply Forall_impl; [exact Hb|]; by intros x [_ (? & _) _ _ _]].
  rewrite (cons_middle v before vs). rewrite app_assoc, <-IH; [by rewrite !fmap_app|].
  apply Forall_app. split; [done|by apply Forall_singleton].
Qed.
End vendors.

(** The header a sender's entry and other vendors' entries arrive in. *)
Lemma vendor_loop_found key before entry after : alnum key → is_cstr entry → (length entry < 260)%nat →
  key ++ lit "@nr=" `prefix_of` entry → clean entry → 44 ∉ entry →
  Forall (vendor_ok key) before → Forall (vendor_ok key) after →
  let header := join 44 ((vendor_entry <$> before) ++ entry :: (vendor_entry <$> after)) in
  let vendors := nr_strsplit (Some header) (Some (lit ",")) false in
  ∃ buffer, nro_getsize vendors ≠ 0 ∧ cstr buffer = entry ∧
    vendor_loop (key ++ lit "@nr=") vendors =
      Vendors buffer (joined (vendor_entry <$> (before ++ after))) (joined (before ++ after).*1).
Proof.
  intros Hk Hc Hl Hp Hcl Hcomma Hb Ha header vendors.
  set (es := (vendor_entry <$> before) ++ entry :: (vendor_entry <$> after)) in *.
  assert (Forall clean es ∧ Forall (λ p, 44 ∉ p) es) as [Hce Hse].
  { split; (apply Forall_app; split; [|apply Forall_cons_2; [done|]]); apply Forall_fmap;
      (eapply Forall_impl; [done|]); by intros x []. }
  assert (es ≠ []) as Hne by by destruct (vendor_entry <$> before).
  assert (Forall is_cstr es) as Hces by (eapply Forall_impl; [exact Hce|]; by intros x (? & _)).
  assert (is_cstr header) as Hh by by apply join_forall.
  assert (header ≠ []) as Hhn.
  { unfold header. destruct es as [|e es']; [done|]. apply Forall_cons in Hce as [(_ & He & _) _].
    destruct e; [done|]. by destruct es'. }
  pose proof (nr_strsplit_tokens header (lit ",") false Hh Hhn ltac:(by apply Forall_singleton) ltac:(done)) as Hv.
  fold vendors in Hv. change (lit ",") with [44] in Hv. unfold header in Hv. rewrite tokens_clean in Hv by done.
  assert (is_cstr entry) as Hen by done.
  pose proof (strlcpy_writes header_buffer entry 260 Hen ltac:(done)) as Ew. rewrite take_ge in Ew by lia.
  eexists. split; [|split].
  - rewrite (array_size es) by done. by destruct es.
  - pose proof (write_string header_buffer entry 0 Hen (Forall_nil_2 _)) as [E _]; [simpl; lia|exact E].
  - rewrite (vendor_loop_spec _ es) by done. unfold es. rewrite (fmap_app Some), (fmap_cons Some), foldl_app. cbn [foldl].
    change (Vendors header_buffer None None) with (Vendors header_buffer (joined (vendor_entry <$> [])) (joined (@nil (list Z * list Z)).*1)).
    rewrite (vendors_fold key Hk before Hb [] header_buffer (Forall_nil_2 _)), app_nil_l.
    unfold vendor_step at 2. assert (nr_strncmp (Some entry) (Some (key ++ lit "@nr=")) (nr_strlen (Some (key ++ lit "@nr="))) = 0) as ->.
    { by apply compare_key. }
    rewrite Z.eqb_refl. cbn [header_value headers_to_be_forwarded vendor_names]. rewrite Ew. cbn [snd default].
    by apply vendors_fold.
Qed.

(** ** Printed priorities *)
Definition printed_6 (d : double) : option Z :=
  match d with
  | SpecFloat.S754_zero false => Some 0
  | SpecFloat.S754_finite false m e => Some (millionths m e)
  | _ => None
  end.

Lemma printed_6_number d v : SpecFloat.valid_binary prec emax d = true → printed_6 d = Some v →
  ∃ n, number_ok n ∧ negative n = false ∧ exponent n = None ∧ frac_digits n ≠ [] ∧
    number_value n = of_decimal_scientific false v (-6) ∧
    (∀ radix, format_6f radix d = number_text radix n) ∧ plain (int_digits n) ∧ plain (frac_digits n).
Proof.
  intros Hv Hp. set (f := v mod 1000000). assert (0 ≤ v ∧ v / 1000000 < digits_limit) as [H0 Hb].
  { destruct d as [[]|s| |[] m e]; try done; injection Hp as <-; [|by apply (scaled_bound 1000000 false)].
    rewrite Z.div_0_l by done. pose proof digits_limit_big. pose proof double_range. lia. }
  assert (0 ≤ f < 1000000) as Hf by by apply Z.mod_pos_bound.
  destruct (five_digits_ok (f / 10)) as [H5 Ho]; [Z.to_euclidean_division_equations; lia|].
  assert (is_digits (six_digits f)) as H6.
  { apply Forall_app. split; [done|]. apply Forall_singleton. unfold nr_isdigit. Z.to_euclidean_division_equations; lia. }
  assert (∀ ds, of_decimal (ds ++ six_digits f) = of_decimal ds * 1000000 + f) as Ho6.
  { intros ds. unfold six_digits. rewrite app_assoc. unfold of_decimal at 1. rewrite foldl_app. fold (of_decimal (ds ++ five_digits (f / 10))).
    rewrite Ho. simpl. Z.to_euclidean_division_equations; lia. }
  destruct (fixed_number_ok false v 1000000 (six_digits f) ltac:(done) H0 Hb H6 ltac:(done) Ho6) as (Hn & Hval & Ht & _).
  eexists. split; [exact Hn|]. split_and!; [done..|exact Hval| | |].
  - intros radix. rewrite Ht. destruct d as [[]|s| |[] m e]; try done; by injection Hp as <-.
  - apply (plain_sign_digits false). apply Hn.
  - by apply (plain_sign_digits false).
Qed.

Lemma priority_text radix d n : locale_radix radix → number_ok n → exponent n = None → frac_digits n ≠ [] → negative n = false →
  (∀ radix, format_6f radix d = number_text radix n) → plain (int_digits n) → plain (frac_digits n) →
  nr_priority_double_to_str radix d = number_text 46 n.
Proof.
  intros Hx Hn He Hne Hs Ht Hi Hf. unfold nr_priority_double_to_str. rewrite Ht. unfold number_text.
  rewrite He, Hs. cbn [exponent_text sign_text app]. rewrite !app_nil_r.
  destruct (frac_digits n) as [|c fp] eqn:Ef; [done|]. cbn [frac_text].
  pose proof (replace_comma_text radix (int_digits n) (c :: fp) [] Hx Hi Hf) as E. by rewrite !app_nil_r in E.
Qed.

(** ** What is in the objects *)
Abbreviation holds := (holds_with (λ _, True)).

Lemma holds_field o l k v : holds o l → k ∉ l.*1 → key_ok k → is_cstr (default [] v) →
  holds (if v is Some _ then (nro_set_hash_string o (Some k) v).1 else o) (l ++ [(k, string_field v)]).
Proof.
  intros Hh Hni Hk Hv. destruct v as [s|]; [|by apply holds_skip]. unfold nro_set_hash_string, nro_new_string, nr_strdup.
  simpl default in *. rewrite cstr_id by done. apply holds_set; [done..|by constructor].
Qed.

Lemma holds_field_some o l k s : holds o l → k ∉ l.*1 → key_ok k → is_cstr s →
  holds (nro_set_hash_string o (Some k) (Some s)).1 (l ++ [(k, string_field (Some s))]).
Proof. intros. by apply (holds_field o l k (Some s)). Qed.

Lemma holds_field_any o l k s : holds o l → k ∉ l.*1 → key_ok k → is_cstr s →
  holds (set_string_if_any o k (Some s)) (l ++ [(k, string_field (dt_field (Some s)))]).
Proof.
  intros Hh Hni Hk Hs. unfold set_string_if_any, dt_field, nr_strlen, nr_strempty, nr_strdup. simpl default. rewrite cstr_id by done.
  destruct s as [|c s]; [by apply holds_skip|]. pose proof Hs as [Hc _]%Forall_cons.
  destruct (Z.eqb_spec (Z.of_nat (length (c :: s))) 0); [done|]. change (char_at (c :: s) 0) with c.
  destruct (Z.eqb_spec c 0); [lia|]. by apply holds_field_some.
Qed.

(** A hash put in a hash. *)
Lemma holds_set_copy o l k o' l' : holds o l → k ∉ l.*1 → key_ok k → holds o' l' →
  (∀ k v, (k, Some v) ∈ l' → nro_copy v = v) →
  ∃ d, holds (Some d) l' ∧ holds (nro_set_hash o (Some k) o').1 (l ++ [(k, Some d)]).
Proof.
  intros Hh Hni Hk Hh' Hcopy. pose proof (holds_copy _ _ Hh' Hcopy) as Hc. pose proof Hc as [(a & E & Hok) _ _].
  exists (OHash a (elements l')). rewrite <-E. split; [done|]. unfold nro_set_hash. rewrite E. by apply holds_set.
Qed.

Lemma get_named l name s : substrings_of l name = Some s → is_cstr s →
  nr_regex_substrings_get_named (substrings_of l) name = Some s.
Proof.
  intros E Hs. unfold nr_regex_substrings_get_named. rewrite E. simpl. f_equal. unfold nr_strndup.
  destruct (Z.eqb_spec (Z.of_nat (length s)) 0) as [E0|]; [by destruct s|]. rewrite Nat2Z.id, firstn_all. by apply cstr_id.
Qed.

(** ** The headers of a sender *)
Definition hex_text (s : list Z) : Prop := Forall (λ c, lower_hex c = true) s.

Section sender.
Context (m : nr_distributed_trace_t) (tk ac ap tr sp : list Z) (tx : option (list Z)) (now v : Z).

Record sender_ok : Prop := {
  so_trusted : trusted_key m = Some tk;
  so_account : account_id m = Some ac;
  so_app : app_id m = Some ap;
  so_trace : trace_id m = Some tr;
  so_alnum : alnum tk ∧ alnum ac ∧ alnum ap ∧ alnum (NRBLANKSTR tx);
  so_nonempty : ac ≠ [] ∧ ap ≠ [];
  so_trace_id : hex_text (nr_tolower <$> tr) ∧ (length tr ≤ 32)%nat ∧ ¬ Forall (λ c, c = 48) tr;
  so_span : hex_text sp ∧ length sp = 16%nat ∧ ¬ Forall (λ c, c = 48) sp;
  so_priority : SpecFloat.valid_binary prec emax (priority m) = true ∧ printed_6 (priority m) = Some v;
  so_now : 0 ≤ now < 2 ^ 64;
}.

Definition sent_trace_id : list Z := replicate (32 - length tr) 48 ++ (nr_tolower <$> tr).
Definition sent_flags : list Z := if sampled m then lit "01" else lit "00".
Definition sent_sampled : list Z := if sampled m then lit "1" else lit "0".
Definition sent_time : Z := now / NR_TIME_DIVISOR_MS.

Definition traceparent_values : list (list Z) := [lit "00"; sent_trace_id; sp; sent_flags].
Definition tracestate_values (prio : list Z) : list (list Z) :=
  [lit "0"; lit "0"; ac; ap; sp; NRBLANKSTR tx; sent_sampled; prio; decimal sent_time].

Hypothesis ok : sender_ok.

Lemma hex_cstr s : hex_text s → is_cstr s.
Proof. intros Hs. eapply Forall_impl; [exact Hs|]. unfold lower_hex, nr_isdigit. simpl. lia. Qed.
Lemma hex_alnum s : hex_text s → alnum s.
Proof. intros Hs. eapply Forall_impl; [exact Hs|]. unfold lower_hex, nr_isalnum, nr_isdigit, nr_islower. simpl. lia. Qed.

Lemma lower_back c : 0 < nr_tolower c → lower_hex (nr_tolower c) = true → 0 < c < 256.
Proof.
  unfold nr_tolower. destruct (nr_isupper c) eqn:E; [unfold nr_isupper in E; lia|].
  unfold lower_hex, nr_isdigit. lia.
Qed.

Lemma lower_zero c : nr_tolower c = 48 → c = 48.
Proof.
  unfold nr_tolower. destruct (nr_isupper c) eqn:E; [|done]. unfold nr_isupper in E.
  pose proof (byte_cases (λ c, negb (Z.lor c 0x20 =? 48)) 65 90 eq_refl c ltac:(lia)) as Hb. cbv beta in Hb. lia.
Qed.

Lemma trace_id_cstr : is_cstr tr.
Proof.
  destruct ok as [_ _ _ _ _ _ (Ht & _) _ _ _]. unfold hex_text in Ht. rewrite Forall_fmap in Ht.
  eapply Forall_impl; [exact Ht|]. intros c Hc. simpl in Hc. apply lower_back; [|done].
  unfold lower_hex, nr_isdigit in Hc. lia.
Qed.

Lemma sent_trace_id_ok : hex_text sent_trace_id ∧ length sent_trace_id = 32%nat.
Proof.
  destruct ok as [_ _ _ _ _ _ (Ht & Hl & _) _ _ _]. unfold sent_trace_id. split.
  - apply Forall_app. split; [by apply Forall_replicate|done].
  - rewrite length_app, length_replicate, length_fmap. lia.
Qed.

Lemma created_traceparent :
  nr_distributed_trace_create_w3c_traceparent_header (trace_id m) (Some sp) (sampled m) = Some (join 45 traceparent_values).
Proof.
  pose proof trace_id_cstr as Hc. destruct ok as [_ _ _ Et _ _ (_ & Hl & _) (Hs & _) _ _]. rewrite Et.
  unfold nr_distributed_trace_create_w3c_traceparent_header. cbv zeta.
  change (default [] (nr_string_to_lowercase (Some tr))) with (nr_tolower <$> cstr tr).
  rewrite (cstr_id tr) by done. unfold nr_strlen. rewrite (cstr_id (nr_tolower <$> tr)) by by apply lower_is_cstr.
  rewrite (cstr_id sp) by by apply hex_cstr. rewrite length_fmap.
  assert ((if 0 <? 32 - Z.of_nat (length tr)
           then take 32 (replicate (Z.to_nat (32 - Z.of_nat (length tr))) 48 ++ (nr_tolower <$> tr))
           else take 32 (nr_tolower <$> tr)) = sent_trace_id) as ->.
  { unfold sent_trace_id. destruct (Z.ltb_spec 0 (32 - Z.of_nat (length tr))).
    - replace (Z.to_nat (32 - Z.of_nat (length tr))) with (32 - length tr)%nat by lia.
      apply take_ge. rewrite length_app, length_replicate, length_fmap. lia.
    - replace (32 - length tr)%nat with 0%nat by lia. simpl app. apply take_ge. rewrite length_fmap. lia. }
  unfold traceparent_values, sent_flags. by destruct (sampled m).
Qed.

Lemma decimal_time : decimal sent_time ≠ [] ∧ is_digits (decimal sent_time) ∧ of_decimal (decimal sent_time) = sent_time ∧
  long_range sent_time ∧ 0 ≤ sent_time.
Proof.
  destruct ok as [_ _ _ _ _ _ _ _ _ Hn].
  assert (0 ≤ sent_time < 2 ^ 63) as Ht by (unfold sent_time, NR_TIME_DIVISOR_MS; Z.to_euclidean_division_equations; lia).
  destruct (decimal_spec sent_time ltac:(lia)) as (_ & Hd & Ho). split; [apply decimal_loop_nonempty|].
  split; [|split; [done|unfold long_range; lia]]. eapply Forall_impl; [exact Hd|]. unfold nr_isdigit. simpl. lia.
Qed.

(** The number printed for the priority, and the header. *)
Lemma created_tracestate radix : locale_radix radix → ∃ n,
  number_ok n ∧ negative n = false ∧ exponent n = None ∧ frac_digits n ≠ [] ∧
  number_value n = of_decimal_scientific false v (-6) ∧
  nr_distributed_trace_create_w3c_tracestate_header radix now (Some m) (Some sp) tx =
    Some (tk ++ lit "@nr=" ++ join 45 (tracestate_values (number_text 46 n))).
Proof.
  intros Hx. pose proof decimal_time as (_ & _ & _ & Hr & H0).
  destruct ok as [Ek Ea Ep _ (Hk & Ha & Hp & Ht) _ _ (Hs & _) (Hv & Hpr) _].
  destruct (printed_6_number _ _ Hv Hpr) as (n & Hn & Hneg & He & Hf & Hval & Htext & Hpi & Hpf).
  exists n. split_and!; [done..|]. unfold nr_distributed_trace_create_w3c_tracestate_header. cbn [nr_distributed_trace_get_trusted_key
    nr_distributed_trace_get_account_id nr_distributed_trace_get_app_id mbind option_bind]. rewrite Ek, Ea, Ep. cbn [mbind option_bind].
  unfold nr_distributed_trace_get_priority, nr_distributed_trace_is_sampled. cbn [from_option].
  rewrite (priority_text radix _ n) by done. change (NRBLANKSTR (Some sp)) with sp.
  rewrite (cstr_id sp), (cstr_id (NRBLANKSTR tx)), !cstr_id by first [by apply hex_cstr|by apply alnum_cstr].
  fold sent_time. assert (long_of sent_time = sent_time) as ->.
  { unfold long_of. rewrite u64_small by (unfold long_range in Hr; lia). destruct (Z.ltb_spec sent_time (2 ^ 63)); [done|]. unfold long_range in Hr. lia. }
  unfold signed_decimal. destruct (Z.ltb_spec sent_time 0); [lia|].
  unfold tracestate_values, sent_sampled. cbn [join NRBLANKSTR default].
  by destruct (sampled m).
Qed.

(** ** What a receiver parses *)
Lemma strcmp_differs a b : is_cstr a → is_cstr b → a ≠ b → (0 =? nr_strcmp (Some a) (Some b)) = false.
Proof.
  intros Ha Hb Hne. unfold nr_strcmp. pose proof (strcmp_eq a b Ha Hb). destruct (Z.eqb_spec 0 (strcmp a b)); [|done].
  tauto || (exfalso; apply Hne; tauto || (by apply strcmp_eq)).
Qed.

Definition parent_fields : field_list :=
  [(lit "version", string_field (Some (lit "00"))); (lit "trace_id", string_field (Some sent_trace_id));
   (lit "parent_id", string_field (Some sp)); (lit "trace_flags", Some (OInt (if sampled m then 1 else 0) 0))].

Context (radix : Z) (regex_capture : list Z → list Z → option substrings).
Hypothesis radix_ok : locale_radix radix.
Hypothesis regex_ok : pcre_reads regex_capture tk.

Lemma read_sent_parent : read_traceparent (join 45 traceparent_values) =
  Some (substrings_of (zip (group_name <$> traceparent_groups) traceparent_values)).
Proof.
  destruct sent_trace_id_ok as [Ht Hl]. destruct ok as [_ _ _ _ _ _ _ (Hs & Hls & _) _ _].
  unfold read_traceparent. rewrite <-(app_nil_r (join 45 _)), read_groups_join; [|done| |done].
  - done.
  - unfold traceparent_groups, traceparent_values. repeat apply Forall2_cons_2; [..|apply Forall2_nil_2]; split_and!; try done.
    + by repeat constructor.
    + cbn [group_length]. by rewrite Hl.
    + cbn [group_length]. by rewrite Hls.
    + unfold sent_flags. destruct (sampled m); by repeat constructor.
    + unfold sent_flags. by destruct (sampled m).
Qed.

Lemma not_zeros s n : ¬ Forall (λ c, c = 48) s → s ≠ replicate n 48.
Proof. intros Hs ->. apply Hs. by apply Forall_replicate. Qed.

Lemma traceparent_cstr : is_cstr (join 45 traceparent_values).
Proof.
  destruct sent_trace_id_ok as [Ht _]. pose proof ok as [_ _ _ _ _ _ _ (Hs & _) _ _].
  apply join_forall; [lia|]. unfold traceparent_values, sent_flags.
  repeat (apply Forall_cons_2; [first [by apply hex_cstr|destruct (sampled m); by repeat constructor|by repeat constructor]|]).
  apply Forall_nil_2.
Qed.

Lemma parsed_traceparent : ∃ o d,
  nr_distributed_trace_convert_w3c_headers_traceparent regex_capture (Some nro_new_hash) (Some (join 45 traceparent_values)) = (None, o) ∧
  holds o [(lit "traceparent", Some d)] ∧ holds (Some d) parent_fields.
Proof.
  destruct sent_trace_id_ok as [Ht Hl]. pose proof ok as [_ _ _ _ _ _ (_ & Hlt & Hz) (Hs & Hls & Hzs) _ _].
  pose proof traceparent_cstr as Hc.
  unfold nr_distributed_trace_convert_w3c_headers_traceparent. rewrite cstr_id, (pcre_traceparent _ _ regex_ok), read_sent_parent by done.
  unfold traceparent_values. cbn [group_name fmap list_fmap traceparent_groups zip zip_with]. set (l := [(lit "version", _); _; _; _]).
  assert (∀ name s, substrings_of l name = Some s → hex_text s → nr_regex_substrings_get_named (substrings_of l) name = Some s) as Hget.
  { intros name s E Hh. by apply get_named, hex_cstr. }
  rewrite (Hget (lit "version") (lit "00")) by (done || by repeat constructor).
  rewrite (Hget (lit "trace_id") sent_trace_id) by done. rewrite (Hget (lit "parent_id") sp) by done.
  rewrite (Hget (lit "trace_flags") sent_flags) by (done || (unfold sent_flags; destruct (sampled m); by repeat constructor)).
  assert (nr_regex_substrings_get_named (substrings_of l) (lit "additional") = None) as -> by done.
  change (0 =? nr_strcmp (Some (lit "00")) (Some (lit "ff"))) with false.
  rewrite andb_false_r. cbv iota zeta.
  rewrite strcmp_differs; [|by apply hex_cstr|by apply (bool_decide_unpack _)|]; cycle 1.
  { change (lit "00000000000000000000000000000000") with (replicate 32 48). apply not_zeros. unfold sent_trace_id.
    intros [_ H]%Forall_app. apply Hz. rewrite Forall_fmap in H. eapply Forall_impl; [exact H|]. intros c. apply lower_zero. }
  rewrite strcmp_differs; [|by apply hex_cstr|by apply (bool_decide_unpack _)|]; cycle 1.
  { change (lit "0000000000000000") with (replicate 16 48). by apply not_zeros. }
  change (default [] (Some sent_flags)) with sent_flags.
  assert (int_of (strtol_16 sent_flags) = if sampled m then 1 else 0) as -> by (unfold sent_flags; by destruct (sampled m)).
  match goal with |- context [nro_set_hash _ _ ?t] => assert (holds t parent_fields) as Hp end.
  { apply (holds_set _ [_; _; _]); [|by_key|by_key|constructor; destruct (sampled m); unfold int_range; lia].
    apply (holds_field_some _ [_; _]); [|by_key|by_key|by apply hex_cstr].
    apply (holds_field_some _ [_]); [|by_key|by_key|by apply hex_cstr].
    apply (holds_field_some _ []); [apply holds_new|by_key|by_key|by repeat constructor]. }
  destruct (holds_set_copy _ [] (lit "traceparent") _ _ holds_new ltac:(by_key) ltac:(by_key) Hp) as (d & Hd & Ho).
  { intros k v' Hin. repeat (apply elem_of_cons in Hin as [[= _ ->]|Hin]; [simpl; unfold nr_strdup; simpl; by rewrite ?cstr_id by by apply hex_cstr|]).
    by apply elem_of_nil in Hin. }
  eexists _, d. split; [reflexivity|by split].
Qed.

(** The entry of the sender. *)
Definition sent_priority : double := of_decimal_scientific false v (-6).
Definition tracestate_fields : field_list :=
  [(lit "version", Some (OInt 0 0)); (lit "parent_type", Some (OInt 0 0));
   (lit "parent_account_id", string_field (Some ac)); (lit "parent_application_id", string_field (Some ap));
   (lit "span_id", string_field (dt_field (Some sp))); (lit "transaction_id", string_field (dt_field (Some (NRBLANKSTR tx))));
   (lit "sampled", Some (OInt (if sampled m then 1 else 0) 0));
   (lit "priority", if radix =? 46 then Some (ODouble sent_priority) else None);
   (lit "timestamp", Some (OLong sent_time))].

Section entry.
Context (n : number).
Hypothesis n_ok : number_ok n.
Hypothesis n_fixed : negative n = false ∧ exponent n = None ∧ frac_digits n ≠ [].
Hypothesis n_value : number_value n = sent_priority.

Lemma priority_shape : number_text 46 n = int_digits n ++ 46 :: frac_digits n.
Proof.
  destruct n_fixed as (Hs & He & Hf). unfold number_text. rewrite Hs, He. cbn [sign_text exponent_text app].
  rewrite app_nil_r. by destruct (frac_digits n).
Qed.

Lemma priority_read : strtod radix (number_text 46 n) =
  if radix =? 46 then (sent_priority, Z.of_nat (length (number_text 46 n)))
  else (number_value (Number false (int_digits n) [] None), Z.of_nat (length (int_digits n))).
Proof.
  destruct n_fixed as (Hs & He & Hf). pose proof n_ok as (Hi & Hine & Hfr & _). destruct (Z.eqb_spec radix 46) as [->|Hx].
  - rewrite <-n_value. rewrite <-(app_nil_r (number_text 46 n)) at 1. apply strtod_text; [done|by left|done|done].
  - rewrite priority_shape. pose proof (strtod_text radix (Number false (int_digits n) [] None) (46 :: frac_digits n)) as E.
    unfold number_text in E. cbn [sign_text exponent_text frac_text app int_digits frac_digits exponent negative] in E.
    rewrite app_nil_r in E. apply E; [|done|done|by intros]. split_and!; [done|done|apply Forall_nil_2|done].
Qed.

Lemma state_fits : Forall2 fits tracestate_groups (tracestate_values (number_text 46 n)).
Proof.
  destruct ok as [_ _ _ _ (_ & Ha & Hp & Ht) (Hane & Hpne) _ (Hs & Hls & _) _ _]. destruct (decimal_time) as (Hd & Hdd & _).
  assert (∀ s : list Z, s ≠ [] → positive_length (length s) = true) as Hpos by by intros [].
  unfold tracestate_groups, tracestate_values, sent_sampled.
  repeat apply Forall2_cons_2; [..|apply Forall2_nil_2]; split_and!; try done; try by apply Hpos.
  - by repeat constructor.
  - by repeat constructor.
  - by apply hex_alnum.
  - destruct (sampled m); by repeat constructor.
  - cbn [group_class]. rewrite priority_shape. destruct n_ok as (Hi & _ & Hf & _).
    assert (∀ l, is_digits l → Forall (λ c, nr_isdigit c || (c =? 46) = true) l) as H.
    { intros l Hl. eapply Forall_impl; [exact Hl|]. simpl. intros c ->. done. }
    apply Forall_app. split; [by apply H|]. apply Forall_cons_2; [done|by apply H].
Qed.

Definition state_substrings : substrings :=
  substrings_of (zip (group_name <$> tracestate_groups) (tracestate_values (number_text 46 n))).

Lemma sent_entry_chars : Forall (λ c, 32 < c < 128 ∧ c ≠ 44) (tk ++ lit "@nr=" ++ join 45 (tracestate_values (number_text 46 n))).
Proof.
  pose proof ok as [_ _ _ _ (Hk & Ha & Hp & Ht) _ _ (Hs & _) _ _]. destruct decimal_time as (_ & Hdd & _). destruct n_ok as (Hi & _ & Hf & _).
  assert (∀ s, alnum s → Forall (λ c, 32 < c < 128 ∧ c ≠ 44) s) as Hal.
  { intros s H. eapply Forall_impl; [exact H|]. unfold nr_isalnum, nr_isdigit, nr_isupper, nr_islower. simpl. lia. }
  assert (∀ s, is_digits s → alnum s) as Hdal by (intros s H; eapply Forall_impl; [exact H|]; unfold nr_isalnum; simpl; by intros c ->).
  apply Forall_app. split; [by apply Hal|]. apply Forall_app. split; [apply (bool_decide_unpack _); by vm_compute|].
  assert (Forall (λ c, 32 < c < 128 ∧ c ≠ 44) (number_text 46 n)) as Hprio.
  { rewrite priority_shape. apply Forall_app. split; [by apply Hal, Hdal|]. apply Forall_cons_2; [lia|by apply Hal, Hdal]. }
  assert (alnum sent_sampled) as Hsam by (unfold sent_sampled; destruct (sampled m); by repeat constructor).
  assert (alnum (lit "0")) as H0 by by repeat constructor.
  apply join_forall; [lia|]. unfold tracestate_values.
  repeat (apply Forall_cons_2; [first [done|by apply Hal|by apply Hal, Hdal|by apply Hal, hex_alnum]|]). apply Forall_nil_2.
Qed.

Lemma sent_entry_clean entry : entry = tk ++ lit "@nr=" ++ join 45 (tracestate_values (number_text 46 n)) →
  is_cstr entry ∧ clean entry ∧ 44 ∉ entry.
Proof.
  intros Ee. assert (Forall (λ c, 32 < c < 128 ∧ c ≠ 44) entry) as Hent by (rewrite Ee; by apply sent_entry_chars).
  assert (is_cstr entry) as Hc by (eapply Forall_impl; [exact Hent|]; intros c [? ?]; lia).
  split; [done|]. split.
  - apply clean_solid; [done|rewrite Ee; by destruct tk|]. eapply Forall_impl; [exact Hent|]. intros c [? ?]. unfold nr_isspace. lia.
  - intros Hin. rewrite Forall_forall in Hent. by destruct (Hent 44 Hin).
Qed.

Lemma read_sent_state : read_tracestate (tk ++ lit "@nr=") ((tk ++ lit "@nr=") ++ join 45 (tracestate_values (number_text 46 n))) =
  Some state_substrings.
Proof.
  unfold read_tracestate. rewrite take_app_length, drop_app_length, bool_decide_true by done.
  by rewrite <-(app_nil_r (join 45 _)), read_groups_join by (done || apply state_fits).
Qed.

Lemma digit_text_cstr l : is_digits l → is_cstr l.
Proof. intros Hl. eapply Forall_impl; [exact Hl|apply digit_plain]. Qed.

Lemma tracestate_object_fields : holds (tracestate_object radix state_substrings) tracestate_fields.
Proof.
  pose proof ok as [_ _ _ _ (_ & Ha & Hp & Ht) _ _ (Hs & Hls & _) _ _]. destruct decimal_time as (Hd & Hdd & Hdv & Hr & H0).
  assert (is_cstr (number_text 46 n)) as Hprio by by apply number_cstr.
  assert (∀ name s, state_substrings name = Some s → is_cstr s → nr_regex_substrings_get_named state_substrings name = Some s) as Hget.
  { intros. by apply get_named. }
  unfold tracestate_object. cbv zeta.
  rewrite (Hget (lit "version") (lit "0")) by (done || by repeat constructor).
  rewrite (Hget (lit "parent_type") (lit "0")) by (done || by repeat constructor).
  rewrite (Hget (lit "parent_account_id") ac) by (done || by apply alnum_cstr).
  rewrite (Hget (lit "parent_application_id") ap) by (done || by apply alnum_cstr).
  rewrite (Hget (lit "span_id") sp) by (done || by apply hex_cstr).
  rewrite (Hget (lit "transaction_id") (NRBLANKSTR tx)) by (done || by apply alnum_cstr).
  rewrite (Hget (lit "sampled") sent_sampled) by (done || (unfold sent_sampled; destruct (sampled m); by repeat constructor)).
  rewrite (Hget (lit "priority") (number_text 46 n)) by done.
  rewrite (Hget (lit "timestamp") (decimal sent_time)) by (done || by apply digit_text_cstr).
  change (int_of (strtol_10 (default [] (Some (lit "0"))))) with 0.
  assert ((nr_strlen (Some sent_sampled) =? 0) = false) as -> by (unfold sent_sampled; by destruct (sampled m)).
  assert (int_of (strtol_10 (default [] (Some sent_sampled))) = if sampled m then 1 else 0) as -> by (unfold sent_sampled; by destruct (sampled m)).
  assert (long_of (strtoull_10 (default [] (Some (decimal sent_time)))) = sent_time) as ->.
  { simpl default. unfold strtoull_10. rewrite <-(app_nil_r (decimal sent_time)), span_app by done. cbn [fst]. rewrite Hdv.
    unfold long_range in Hr. rewrite Z.min_r by lia. unfold long_of. rewrite u64_small by lia. destruct (Z.ltb_spec sent_time (2 ^ 63)); lia. }
  change (default [] (Some (number_text 46 n))) with (number_text 46 n).
  apply (holds_set _ [_; _; _; _; _; _; _; _]); [|by_key|by_key|by constructor].
  match goal with |- holds (if _ then ?x else _) _ => set (o := x) end.
  assert (holds o (take 7 tracestate_fields)) as Ho.
  { apply (holds_set _ [_; _; _; _; _; _]); [|by_key|by_key|constructor; destruct (sampled m); unfold int_range; lia].
    apply (holds_field_any _ [_; _; _; _; _]); [|by_key|by_key|by apply alnum_cstr].
    apply (holds_field_any _ [_; _; _; _]); [|by_key|by_key|by apply hex_cstr].
    apply (holds_field_some _ [_; _; _]); [|by_key|by_key|by apply alnum_cstr].
    apply (holds_field_some _ [_; _]); [|by_key|by_key|by apply alnum_cstr].
    apply (holds_set _ [_]); [|by_key|by_key|constructor; unfold int_range; lia].
    apply (holds_set _ []); [apply holds_new|by_key|by_key|constructor; unfold int_range; lia]. }
  assert (nr_strlen (Some (number_text 46 n)) = Z.of_nat (length (number_text 46 n))) as ->.
  { unfold nr_strlen. simpl default. by rewrite cstr_id. }
  rewrite priority_read. assert ((Z.of_nat (length (number_text 46 n)) =? 0) = false) as ->.
  { rewrite priority_shape, length_app. simpl. lia. }
  destruct (radix =? 46).
  - assert (char_at (number_text 46 n) (Z.of_nat (length (number_text 46 n))) = 0) as ->.
    { unfold char_at. rewrite Nat2Z.id. by rewrite lookup_ge_None_2. }
    apply (holds_set _ (take 7 tracestate_fields)); [done|by_key|by_key|by constructor].
  - assert (char_at (number_text 46 n) (Z.of_nat (length (int_digits n))) = 46) as ->.
    { unfold char_at. rewrite Nat2Z.id, priority_shape, lookup_app_r, Nat.sub_diag by done. done. }
    apply (holds_skip _ (take 7 tracestate_fields)); [done|by_key|by_key].
Qed.
End entry.

(** ** What a receiver accepts *)
Section headers.
Context (before after : list (list Z * list Z)).
Hypothesis before_ok : Forall (vendor_ok tk) before.
Hypothesis after_ok : Forall (vendor_ok tk) after.
Let others : list (list Z * list Z) := before ++ after.

Definition header_fields (parent state : nrobj_t) : field_list :=
  [(lit "traceparent", Some parent); (lit "tracingVendors", string_field (joined others.*1));
   (lit "rawTracingVendors", string_field (joined (vendor_entry <$> others))); (lit "tracestate", Some state)].

Definition sent_header (entry : list Z) : list Z := join 44 ((vendor_entry <$> before) ++ entry :: (vendor_entry <$> after)).

Lemma others_cstr : is_cstr (default [] (joined others.*1)) ∧ is_cstr (default [] (joined (vendor_entry <$> others))).
Proof.
  assert (Forall (vendor_ok tk) others) as Ho by by apply Forall_app.
  assert (∀ l, Forall is_cstr l → is_cstr (default [] (joined l))) as H.
  { intros l Hl. destruct l as [|x l]; [apply Forall_nil_2|]. by apply (join_forall (λ c, 0 < c < 256)). }
  split; apply H, Forall_fmap; (eapply Forall_impl; [exact Ho|]); [by intros x [(? & _) _ _ _ _]|by intros x [_ (? & _) _ _ _]].
Qed.

Lemma tracestate_fields_copy k w : (k, Some w) ∈ tracestate_fields → nro_copy w = w.
Proof.
  pose proof ok as [_ _ _ _ (_ & Ha & Hp & Ht) _ _ (Hs & _) _ _]. intros Hin.
  assert (∀ s, is_cstr s → Some w = string_field (Some s) → nro_copy w = w) as Hf.
  { intros s Hc [= ->]. simpl. unfold nr_strdup. simpl. by rewrite cstr_id. }
  assert (∀ s, is_cstr s → Some w = string_field (dt_field (Some s)) → nro_copy w = w) as Hf'.
  { intros s Hc. unfold dt_field, nr_strdup. simpl default. rewrite cstr_id by done. destruct (nr_strempty (Some s)); [done|by apply Hf]. }
  repeat (apply elem_of_cons in Hin as [E|Hin]; [apply (f_equal snd) in E; cbn [snd] in E;
    first [by apply (Hf ac); [apply alnum_cstr|]|by apply (Hf ap); [apply alnum_cstr|]|by apply (Hf' sp); [apply hex_cstr|]
      |by apply (Hf' (NRBLANKSTR tx)); [apply alnum_cstr|]|destruct (radix =? 46); [by injection E as ->|done]|by injection E as ->]|]).
  by apply elem_of_nil in Hin.
Qed.

Lemma converted entry n : number_ok n → negative n = false ∧ exponent n = None ∧ frac_digits n ≠ [] → number_value n = sent_priority →
  entry = tk ++ lit "@nr=" ++ join 45 (tracestate_values (number_text 46 n)) → (length entry < 260)%nat →
  ∃ o parent state,
    nr_distributed_trace_convert_w3c_headers_to_object radix regex_capture (Some (join 45 traceparent_values))
      (Some (sent_header entry)) (Some tk) None = (o, None) ∧
    holds o (header_fields parent state) ∧ holds (Some parent) parent_fields ∧ holds (Some state) tracestate_fields.
Proof.
  intros Hn Hfix Hval Ee Hl. destruct parsed_traceparent as (o & parent & Ep & Ho & Hpar).
  pose proof ok as [_ _ _ _ (Hk & _) _ _ _ _ _].
  destruct (sent_entry_clean n Hn Hfix entry Ee) as (Hc & Hcl & Hcomma).
  destruct (vendor_loop_found tk before entry after Hk Hc Hl ltac:(rewrite Ee; exists (join 45 (tracestate_values (number_text 46 n))); by rewrite app_assoc)
    Hcl Hcomma before_ok after_ok) as (buffer & Hsz & Eb & Ev).
  destruct others_cstr as [Hc1 Hc2].
  pose proof (holds_field _ _ (lit "tracingVendors") _ Ho ltac:(by_key) ltac:(by_key) Hc1) as Ho1.
  pose proof (holds_field _ _ (lit "rawTracingVendors") _ Ho1 ltac:(by_key) ltac:(by_key) Hc2) as Ho2.
  destruct (holds_set_copy _ _ (lit "tracestate") _ _ Ho2 ltac:(by_key) ltac:(by_key) (tracestate_object_fields n Hn Hfix Hval)
    tracestate_fields_copy) as (state & Hst & Ho3).
  eexists _, parent, state. split; [|split; [exact Ho3|by split]].
  unfold nr_distributed_trace_convert_w3c_headers_to_object. rewrite Ep. unfold nr_distributed_trace_convert_w3c_headers_tracestate.
  pose proof Ho as [(a & Eo & _) _ _]. rewrite Eo.
  assert (tracestate_key tk = tk ++ lit "@nr=") as ->.
  { unfold tracestate_key, snprintf. rewrite (cstr_id tk) by by apply alnum_cstr. cbn [snd].
    assert (is_cstr (tk ++ lit "@nr=")) as Hkc by by apply header_key_cstr.
    assert (length (tk ++ lit "@nr=") < 260)%nat as Hkl by (rewrite Ee, app_assoc, length_app in Hl; lia).
    rewrite take_ge by lia. by destruct (write_string header_buffer (tk ++ lit "@nr=") 0 Hkc (Forall_nil_2 _) Hkl). }
  fold (sent_header entry) in Hsz, Ev. destruct (Z.eqb_spec (nro_getsize (nr_strsplit (Some (sent_header entry)) (Some (lit ",")) false)) 0) as [E|_]; [done|].
  cbv zeta. rewrite Ev. cbn [header_value headers_to_be_forwarded vendor_names].
  assert ((nr_strlen (Some buffer) =? 0) = false) as ->.
  { unfold nr_strlen. simpl default. rewrite Eb, Ee, length_app, length_app. change (length (lit "@nr=")) with 4%nat. lia. }
  rewrite Eb. rewrite (pcre_tracestate _ _ regex_ok) by done. rewrite Ee, app_assoc, read_sent_state by done.
  fold others. by destruct others.
Qed.

Definition w3c_received (transport : option (list Z)) (t : nr_distributed_trace_t) : nr_distributed_trace_t :=
  Trace (account_id t) (app_id t) (txn_id t)
    (if (radix =? 46) && positive_double sent_priority then sent_priority else priority t)
    (sampled m) (Some sent_trace_id) (trusted_key t)
    (Inbound true (Some (lit "App")) (Some ap) (Some ac)
       (if existsb (λ s, 0 =? nr_strcmp transport (Some s)) supported_types then dt_field transport else Some (lit "Unknown"))
       (sent_time * NR_TIME_DIVISOR_MS) (Some sp)
       (if tx is Some (c :: s) then Some (c :: s) else inbound_txn_id (inbound t))
       (if others is [] then tracing_vendors (inbound t) else joined others.*1)
       (if others is [] then raw_tracing_vendors (inbound t) else joined (vendor_entry <$> others))
       (Some sp)).

Lemma field_string o l k w : holds o l → (k, string_field w) ∈ l → (nro_get_hash_string o (Some k)).1 = w.
Proof. intros Hh Hin. unfold nro_get_hash_string. rewrite (holds_get o l k _ Hh Hin). by destruct w. Qed.

Lemma dt_field_id s : is_cstr s → s ≠ [] → dt_field (Some s) = Some s.
Proof.
  intros Hs Hne. unfold dt_field, nr_strempty, nr_strdup. destruct s as [|c s]; [done|].
  pose proof Hs as [Hc _]%Forall_cons. change (char_at (c :: s) 0) with c. destruct (Z.eqb_spec c 0); [lia|].
  simpl default. by rewrite cstr_id.
Qed.

Lemma accepted_state state t : holds state tracestate_fields →
  nr_distributed_trace_accept_tracestate t state =
    Trace (account_id t) (app_id t) (txn_id t)
      (if (radix =? 46) && positive_double sent_priority then sent_priority else priority t)
      (sampled m) (trace_id t) (trusted_key t)
      (Inbound (set (inbound t)) (Some (lit "App")) (Some ap) (Some ac) (transport_type (inbound t))
         (sent_time * NR_TIME_DIVISOR_MS) (guid (inbound t))
         (if tx is Some (c :: s) then Some (c :: s) else inbound_txn_id (inbound t))
         (tracing_vendors (inbound t)) (raw_tracing_vendors (inbound t)) (Some sp)).
Proof.
  intros Hh. pose proof ok as [_ _ _ _ (_ & Ha & Hp & Ht) (Hane & Hpne) _ (Hs & Hls & _) _ _]. destruct decimal_time as (_ & _ & _ & Hr & H0).
  unfold nr_distributed_trace_accept_tracestate. cbv zeta.
  rewrite (field_string _ _ (lit "span_id") (dt_field (Some sp)) Hh) by (do 4 right; left).
  rewrite (field_string _ _ (lit "parent_account_id") (Some ac) Hh) by (do 2 right; left).
  rewrite (field_string _ _ (lit "parent_application_id") (Some ap) Hh) by (do 3 right; left).
  rewrite (field_string _ _ (lit "transaction_id") (dt_field (Some (NRBLANKSTR tx))) Hh) by (do 5 right; left).
  unfold nro_get_hash_int, nro_get_hash_double, nro_get_hash_long.
  rewrite (holds_get _ _ (lit "sampled") _ Hh) by (do 6 right; left). rewrite (holds_get _ _ (lit "priority") _ Hh) by (do 7 right; left).
  rewrite (holds_get _ _ (lit "timestamp") _ Hh) by (do 8 right; left). rewrite (holds_get _ _ (lit "parent_type") _ Hh) by (right; left).
  cbn [fst]. assert (sp ≠ []) as Hspn by by intros ->. rewrite (dt_field_id sp) by (done || by apply hex_cstr).
  rewrite (dt_field_id ac), (dt_field_id ap) by (done || by apply alnum_cstr).
  assert (copied (Some sp) = Some sp) as -> by (unfold copied, nr_strdup; simpl; by rewrite cstr_id by by apply hex_cstr).
  assert (u64 (u64 (nro_get_long (Some (OLong sent_time))).1 * NR_TIME_DIVISOR_MS) = sent_time * NR_TIME_DIVISOR_MS) as ->.
  { cbn [nro_get_long fst found]. unfold long_range in Hr. pose proof ok as [_ _ _ _ _ _ _ _ _ Hn].
    rewrite (u64_small sent_time) by lia. apply u64_small. unfold sent_time, NR_TIME_DIVISOR_MS in *. Z.to_euclidean_division_equations; lia. }
  assert (dt_field (Some (NRBLANKSTR tx)) = if tx is Some (c :: s) then Some (c :: s) else None) as ->.
  { destruct tx as [[|c s]|]; try done. apply dt_field_id; [by apply alnum_cstr|done]. }
  assert (∀ c s, tx = Some (c :: s) → dt_field (Some (c :: s)) = Some (c :: s)) as Htx.
  { intros c s ->. apply dt_field_id; [by apply alnum_cstr|done]. }
  destruct tx as [[|c s]|]; try rewrite (Htx c s eq_refl); destruct (sampled m), (radix =? 46), (positive_double sent_priority) eqn:E;
    cbn; by rewrite ?E.
Qed.

Lemma accepted_headers o parent state transport t : holds o (header_fields parent state) →
  holds (Some parent) parent_fields → holds (Some state) tracestate_fields →
  nr_distributed_trace_accept_inbound_w3c_payload (Some t) o transport None = (true, Some (w3c_received transport t), None).
Proof.
  intros Ho Hpar Hst. destruct sent_trace_id_ok as [Ht Hl]. pose proof ok as [_ _ _ _ _ _ _ (Hs & Hls & _) _ _].
  unfold nr_distributed_trace_accept_inbound_w3c_payload. pose proof Ho as [(a & Eo & _) _ _]. rewrite Eo, <-Eo.
  cbv zeta. rewrite (holds_get _ _ (lit "traceparent") _ Ho) by left. rewrite (holds_get _ _ (lit "tracestate") _ Ho) by (do 3 right; left).
  cbn [fst]. rewrite (field_string _ _ (lit "parent_id") (Some sp) Hpar) by (do 2 right; left).
  rewrite (field_string _ _ (lit "trace_id") (Some sent_trace_id) Hpar) by (right; left).
  rewrite (field_string _ _ (lit "tracingVendors") _ Ho) by (right; left).
  rewrite (field_string _ _ (lit "rawTracingVendors") _ Ho) by (do 2 right; left).
  assert (sp ≠ []) as Hsp by by intros ->. assert (sent_trace_id ≠ []) as Htr by (intros E; by rewrite E in Hl).
  rewrite accepted_state by done. rewrite (dt_field_id sp), (dt_field_id sent_trace_id) by (done || by apply hex_cstr).
  assert (∀ x, is_cstr (default [] x) → default [] x ≠ [] → dt_field x = x) as Hdt.
  { intros [x|] Hx Hne; [by apply dt_field_id|done]. }
  destruct others_cstr as [Hc1 Hc2]. assert (Forall (vendor_ok tk) others) as Hv by by apply Forall_app.
  unfold w3c_received, nr_distributed_trace_inbound_set_transport_type. destruct others as [|v' l] eqn:Eoth; [by destruct (existsb _ _)|].
  apply Forall_cons in Hv as [[(_ & Hn1 & _) (_ & Hn2 & _) _ _ _] _].
  assert (∀ x l, x ≠ [] → join 44 (x :: l) ≠ []) as Hj by (intros [|c x] [|y l']; done).
  cbn [joined fmap list_fmap] in *. rewrite (Hdt (Some (join 44 (v'.1 :: l.*1)))) by (done || by apply Hj).
  rewrite (Hdt (Some (join 44 (vendor_entry v' :: (vendor_entry <$> l))))) by (done || by apply Hj). by destruct (existsb _ _).
Qed.

(** The upstream decision as the settings have it. *)
Definition upstream_decision (flag : bool) (remote_parent_sampled remote_parent_not_sampled : nr_upstream_parent_sampling_control_t)
    (t : nr_distributed_trace_t) : nr_distributed_trace_t :=
  match if flag then remote_parent_sampled else remote_parent_not_sampled with
  | DEFAULT => t
  | ALWAYS_KEEP => set_priority two (set_sampled true t)
  | ALWAYS_DROP => set_sampled false t
  end.

Lemma flag_decides o parent state ps pn t : holds o (header_fields parent state) → holds (Some parent) parent_fields →
  nr_distributed_trace_handle_inbound_w3c_sampled_flag t o ps pn = upstream_decision (sampled m) ps pn t.
Proof.
  intros Ho Hpar. unfold nr_distributed_trace_handle_inbound_w3c_sampled_flag, nro_get_hash_int, upstream_decision.
  rewrite (holds_get _ _ (lit "traceparent") _ Ho) by left. rewrite (holds_get _ _ (lit "trace_flags") _ Hpar) by (do 3 right; left).
  by destruct (sampled m), ps, pn.
Qed.
End headers.
End sender.

(** What becomes of the headers on the other side. *)
Lemma w3c_accepted (regex_capture : list Z → list Z → option substrings) (radix radix' : Z)
    (m t : nr_distributed_trace_t) (tk ac ap tr sp : list Z) (tx transport : option (list Z)) (now v : Z)
    (before after : list (list Z * list Z)) (ps pn : nr_upstream_parent_sampling_control_t) :
  locale_radix radix → locale_radix radix' → pcre_reads regex_capture tk → sender_ok m tk ac ap tr sp tx now v →
  Forall (vendor_ok tk) before → Forall (vendor_ok tk) after →
  ∃ entry parent,
    nr_distributed_trace_create_w3c_tracestate_header radix now (Some m) (Some sp) tx = Some entry ∧
    nr_distributed_trace_create_w3c_traceparent_header (trace_id m) (Some sp) (sampled m) = Some parent ∧
    is_cstr entry ∧ is_cstr parent ∧
    ((length entry < 260)%nat →
      ∃ o, nr_distributed_trace_convert_w3c_headers_to_object radix' regex_capture (Some parent)
             (Some (sent_header before after entry)) (Some tk) None = (o, None) ∧
        let t' := w3c_received m ac ap tr sp tx now v radix' before after transport t in
        nr_distributed_trace_accept_inbound_w3c_payload (Some t) o transport None = (true, Some t', None) ∧
        nr_distributed_trace_handle_inbound_w3c_sampled_flag t' o ps pn = upstream_decision (sampled m) ps pn t').
Proof.
  intros Hx Hx' Hre Hok Hb Ha.
  destruct (created_tracestate m tk ac ap tr sp tx now v Hok radix Hx) as (n & Hn & Hneg & He & Hf & Hval & Ec).
  exists (tk ++ lit "@nr=" ++ join 45 (tracestate_values m ac ap sp tx now (number_text 46 n))), (join 45 (traceparent_values m tr sp)).
  split; [done|]. split; [by eapply created_traceparent|].
  split; [by eapply (sent_entry_clean m tk ac ap tr sp tx now v Hok regex_capture Hre n Hn (conj Hneg (conj He Hf)))|]. split; [by eapply traceparent_cstr|]. intros Hl.
  destruct (converted m tk ac ap tr sp tx now v Hok radix' regex_capture Hx' Hre before after Hb Ha _ n Hn (conj Hneg (conj He Hf)) Hval eq_refl Hl)
    as (o & parent & state & Eo & Ho & Hpar & Hst).
  exists o. split; [done|]. split; [by eapply accepted_headers|by eapply flag_decides].
Qed.

(** C5: The W3C headers reach the other side. What an agent writes for a
    sampled or unsampled span, parsed by an agent with the same trusted key out of a header with the entries of other
    vendors around it, is accepted: the receiver has the trace id in lower case and filled up to 32 digits, the sender's
    sampling decision, account, application, span and transaction, the time to the millisecond, and the names and the
    entries of the other vendors, in their order.  The priority, to six places, arrives only where a point is the radix
    character.  The upstream flag then decides as the settings for sampled and unsampled parents say. *)
Theorem nr_distributed_trace_w3c_accepted (regex_capture : list Z → list Z → option substrings) (radix radix' : Z)
    (m t : nr_distributed_trace_t) (tk ac ap tr sp : list Z) (tx transport : option (list Z)) (now v : Z)
    (before after : list (list Z * list Z)) (ps pn : nr_upstream_parent_sampling_control_t) :
  locale_radix radix → locale_radix radix' → pcre_reads regex_capture tk → sender_ok m tk ac ap tr sp tx now v →
  Forall (vendor_ok tk) before → Forall (vendor_ok tk) after →
  ∃ entry parent,
    nr_distributed_trace_create_w3c_tracestate_header radix now (Some m) (Some sp) tx = Some entry ∧
    nr_distributed_trace_create_w3c_traceparent_header (trace_id m) (Some sp) (sampled m) = Some parent ∧
    ((length entry < 260)%nat →
      ∃ o, nr_distributed_trace_convert_w3c_headers_to_object radix' regex_capture (Some parent)
             (Some (sent_header before after entry)) (Some tk) None = (o, None) ∧
        let t' := w3c_received m ac ap tr sp tx now v radix' before after transport t in
        nr_distributed_trace_accept_inbound_w3c_payload (Some t) o transport None = (true, Some t', None) ∧
        nr_distributed_trace_handle_inbound_w3c_sampled_flag t' o ps pn = upstream_decision (sampled m) ps pn t').
Proof.
  intros Hx Hx' Hre Hok Hb Ha.
  destruct (w3c_accepted regex_capture radix radix' m t tk ac ap tr sp tx transport now v before after ps pn Hx Hx' Hre Hok Hb Ha)
    as (entry & parent & Ee & Ep & _ & _ & Hrest).
  by exists entry, parent.
Qed.

Lemma nr_distributed_trace_w3c_accepted_witness :
  let m := Trace (Some (lit "1")) (Some (lit "23")) None (SpecFloat.S754_finite false 4503599627370496 (-53)) true
             (Some (lit "AB12")) (Some (lit "9")) (inbound nr_distributed_trace_create) in
  let capture p s := if decide (p = traceparent_pattern) then read_traceparent s else read_tracestate (lit "9@nr=") s in
  ∃ entry parent o t',
    nr_distributed_trace_create_w3c_tracestate_header 44 1563574856827123 (Some m) (Some (lit "00f067aa0ba902b7")) None = Some entry ∧
    nr_distributed_trace_create_w3c_traceparent_header (trace_id m) (Some (lit "00f067aa0ba902b7")) true = Some parent ∧
    parent = lit "00-0000000000000000000000000000ab12-00f067aa0ba902b7-01" ∧
    nr_distributed_trace_convert_w3c_headers_to_object 46 capture (Some parent)
      (Some (lit "a=1," ++ entry ++ lit ",b=2")) (Some (lit "9")) None = (o, None) ∧
    nr_distributed_trace_accept_inbound_w3c_payload (Some nr_distributed_trace_create) o (Some (lit "HTTP")) None = (true, Some t', None) ∧
    priority t' = priority m ∧ raw_tracing_vendors (inbound t') = Some (lit "a=1,b=2").
Proof.
  intros m capture. set (sp := lit "00f067aa0ba902b7").
  destruct (nr_distributed_trace_w3c_accepted capture 44 46 m nr_distributed_trace_create (lit "9") (lit "1") (lit "23") (lit "AB12") sp None
    (Some (lit "HTTP")) 1563574856827123 500000 [(lit "a", lit "1")] [(lit "b", lit "2")] DEFAULT DEFAULT)
    as (entry & parent & Ee & Ep & Hrest).
  - by right.
  - by left.
  - split; [done|]. intros s _ _. unfold capture. by rewrite decide_False by by vm_compute.
  - split; try done.
    + split_and!; try (apply (bool_decide_unpack _); by vm_compute).
    + split_and!; try (apply (bool_decide_unpack _); by vm_compute).
    + split_and!; try (apply (bool_decide_unpack _); by vm_compute).
  - apply Forall_singleton. split; [..|by apply (bool_decide_unpack _)|by apply (bool_decide_unpack _)|done]; (split_and!; [by apply (bool_decide_unpack _)|done|done]).
  - apply Forall_singleton. split; [..|by apply (bool_decide_unpack _)|by apply (bool_decide_unpack _)|done]; (split_and!; [by apply (bool_decide_unpack _)|done|done]).
  - assert (Some entry = Some (lit "9@nr=0-0-1-23-00f067aa0ba902b7--1-0.500000-1563574856827")) as [= Een] by (rewrite <-Ee; by vm_compute).
    rewrite Een in *. destruct Hrest as (o & Eo & Ea & _); [by apply Nat.ltb_lt|].
    eexists _, parent, o, _. split_and!; [exact Ee|exact Ep| |exact Eo|exact Ea| |].
    + assert (Some parent = Some (lit "00-0000000000000000000000000000ab12-00f067aa0ba902b7-01")) as [= E] by (rewrite <-Ep; by vm_compute).
      done.
    + by vm_compute.
    + by vm_compute.
Defined.
