(* ===== verification/SlowSqls.v ===== *)
(** * SlowSqls: the slow SQL statements of a transaction (src/axiom/nr_slowsqls.c)

    A bounded table of statements, each with the times of its occurrences.  The
    array of pointers is the list of the entries used; times are microseconds.
    [None] in front of a table stands for undefined behaviour of the obfuscation. *)

From S2P Require Import Prelude Memory CString Strings Hash Object ObjectJson Sql.
Local Open Scope Z_scope.

Record nr_slowsql_t := Slow {
  metric_name : list Z;
  sql_id : Z;
  count : Z;
  total : Z;
  min_time : Z;
  max_time : Z;
  params_json : list Z;
  sql : list Z;
}.

Record nr_slowsqls_t := SlowSqls {
  max_slowsqls : Z;
  slowsqls : list nr_slowsql_t;
}.

Record nr_datastore_instance_t := Instance {
  host : option (list Z);
  port_path_or_id : option (list Z);
  database_name : option (list Z);
}.

Record nr_slowsqls_params_t := Params {
  input_sql : option (list Z);
  duration : Z;
  stacktrace_json : option (list Z);
  input_metric_name : option (list Z);
  plan_json : option (list Z);
  input_query_json : option (list Z);
  instance : option nr_datastore_instance_t;
  instance_reporting_enabled : bool;
  database_name_reporting_enabled : bool;
}.

Definition nr_sql_id (s : option (list Z)) : option Z :=
  obfuscated ← nr_sql_obfuscate s;
  Some match obfuscated with None => 0 | Some _ => nr_sql_normalized_id obfuscated end.

Definition nr_slowsql_id (slow : option nr_slowsql_t) : Z := from_option sql_id 0 slow.
Definition nr_slowsql_count (slow : option nr_slowsql_t) : Z := from_option count 0 slow.
Definition nr_slowsql_min (slow : option nr_slowsql_t) : Z := from_option min_time 0 slow.
Definition nr_slowsql_max (slow : option nr_slowsql_t) : Z := from_option max_time 0 slow.
Definition nr_slowsql_total (slow : option nr_slowsql_t) : Z := from_option total 0 slow.
Definition nr_slowsql_metric (slow : option nr_slowsql_t) : option (list Z) := metric_name <$> slow.
Definition nr_slowsql_query (slow : option nr_slowsql_t) : option (list Z) := sql <$> slow.
Definition nr_slowsql_params (slow : option nr_slowsql_t) : option (list Z) := params_json <$> slow.

Definition dup (s : list Z) : list Z := nr_strdup (Some s).
Definition nr_slowsql_dup (orig : nr_slowsql_t) : nr_slowsql_t :=
  Slow (dup (metric_name orig)) (sql_id orig) (count orig) (total orig) (min_time orig) (max_time orig)
    (dup (params_json orig)) (dup (sql orig)).

(** The strings are those of the slowest instance. *)
Definition nr_slowsql_merge (dest src : nr_slowsql_t) : nr_slowsql_t :=
  let count' := int_of (count dest + count src) in
  let total' := u64 (total dest + total src) in
  let min_time' := if min_time src <? min_time dest then min_time src else min_time dest in
  if max_time dest <? max_time src
  then Slow (dup (metric_name src)) (sql_id dest) count' total' min_time' (max_time src) (dup (params_json src)) (dup (sql src))
  else Slow (metric_name dest) (sql_id dest) count' total' min_time' (max_time dest) (params_json dest) (sql dest).

Definition nr_slowsqls_create (max : Z) : option nr_slowsqls_t := if max <=? 0 then None else Some (SlowSqls max []).
Definition nr_slowsqls_saved (s : option nr_slowsqls_t) : Z := from_option (λ s, Z.of_nat (length (slowsqls s))) 0 s.
Definition nr_slowsqls_at (s : option nr_slowsqls_t) (i : Z) : option nr_slowsql_t :=
  match s with
  | None => None
  | Some s => if i <? 0 then None else if Z.of_nat (length (slowsqls s)) <=? i then None else slowsqls s !! Z.to_nat i
  end.

(** The loop that looks for a duplicate: the table with it merged. *)
Fixpoint merge_duplicate (es : list nr_slowsql_t) (slow : nr_slowsql_t) : option (list nr_slowsql_t) :=
  match es with
  | [] => None
  | e :: es =>
      if sql_id slow =? sql_id e then Some (nr_slowsql_merge e slow :: es)
      else cons e <$> merge_duplicate es slow
  end.

(** The loop that looks for the smallest maximum, from index [i] on. *)
Fixpoint smallest_loop (es : list nr_slowsql_t) (i : nat) (smallest_max_idx : nat) (smallest_max_time : Z) : nat * Z :=
  match es with
  | [] => (smallest_max_idx, smallest_max_time)
  | e :: es =>
      if max_time e <? smallest_max_time then smallest_loop es (S i) i (max_time e)
      else smallest_loop es (S i) smallest_max_idx smallest_max_time
  end.

Definition nr_slowsqls_add_internal (s : option nr_slowsqls_t) (slow : option nr_slowsql_t) : option nr_slowsqls_t :=
  match s, slow with
  | Some t, Some slow =>
      match merge_duplicate (slowsqls t) slow with
      | Some es => Some (SlowSqls (max_slowsqls t) es)
      | None =>
          if Z.of_nat (length (slowsqls t)) <? max_slowsqls t
          then Some (SlowSqls (max_slowsqls t) (slowsqls t ++ [nr_slowsql_dup slow]))
          else match slowsqls t with
               | [] => s
               | e :: es =>
                   let '(idx, smallest_max_time) := smallest_loop es 1 0 (max_time e) in
                   if max_time slow <? smallest_max_time then s
                   else Some (SlowSqls (max_slowsqls t) (<[idx := nr_slowsql_dup slow]> (slowsqls t)))
               end
      end
  | _, _ => s
  end.

Section adding.
Context `{Allocator Z} (radix : Z).

Definition set_jstring_if (o : obj) (key : list Z) (value : option (list Z)) : obj :=
  match value with Some _ => (nro_set_hash_jstring o (Some key) value).1 | None => o end.

Definition nr_slowsqls_create_params_json (p : nr_slowsqls_params_t) : list Z :=
  let o := Some nro_new_hash in
  let o := if nr_strempty (plan_json p) then o else (nro_set_hash_jstring o (Some (lit "explain_plan")) (plan_json p)).1 in
  let o := set_jstring_if o (lit "backtrace") (stacktrace_json p) in
  let o := set_jstring_if o (lit "input_query") (input_query_json p) in
  let o :=
    match instance p with
    | None => o
    | Some i =>
        let o := if instance_reporting_enabled p
                 then let o := (nro_set_hash_string o (Some (lit "host")) (host i)).1 in
                      (nro_set_hash_string o (Some (lit "port_path_or_id")) (port_path_or_id i)).1
                 else o in
        if database_name_reporting_enabled p
        then (nro_set_hash_string o (Some (lit "database_name")) (database_name i)).1 else o
    end in
  nro_to_json radix o.

(** The statement to add, if it is one. *)
Definition slow_of (params : option nr_slowsqls_params_t) : option (option nr_slowsql_t) :=
  match params with
  | None => Some None
  | Some p =>
      match input_sql p, stacktrace_json p, input_metric_name p with
      | Some q, Some _, Some _ =>
          if duration p =? 0 then Some None
          else
            id ← nr_sql_id (input_sql p);
            if id =? 0 then Some None
            else Some (Some (Slow (nr_strdup (input_metric_name p)) id 1 (duration p) (duration p) (duration p)
                               (nr_slowsqls_create_params_json p) (nr_strdup (input_sql p))))
      | _, _, _ => Some None
      end
  end.

Definition nr_slowsqls_add (s : option nr_slowsqls_t) (params : option nr_slowsqls_params_t) : option (option nr_slowsqls_t) :=
  match s with
  | None => Some s
  | Some _ => slow ← slow_of params; Some (nr_slowsqls_add_internal s slow)
  end.

Fixpoint add_all (s : option nr_slowsqls_t) (l : list (option nr_slowsqls_params_t)) : option (option nr_slowsqls_t) :=
  match l with
  | [] => Some s
  | p :: l => s ← nr_slowsqls_add s p; add_all s l
  end.

(** The statements of a run of additions, in their order. *)
Fixpoint occurrences (l : list (option nr_slowsqls_params_t)) : option (list nr_slowsql_t) :=
  match l with
  | [] => Some []
  | p :: l => slow ← slow_of p; rest ← occurrences l; Some (match slow with Some s => s :: rest | None => rest end)
  end.
End adding.

(** ** What an entry says *)

(** Of the occurrences of one statement: how many, how long together, at least and at most, and the strings of the first
    of the slowest. *)
Record summarizes (e : nr_slowsql_t) (mine : list nr_slowsql_t) : Prop := {
  su_count : count e = Z.of_nat (length mine);
  su_total : total e = u64 (foldr (λ o s, total o + s) 0 mine);
  su_min : (∃ o, o ∈ mine ∧ min_time e = min_time o) ∧ Forall (λ o, min_time e ≤ min_time o) mine;
  su_max : ∃ pre o post, mine = pre ++ o :: post ∧ max_time e = max_time o ∧ Forall (λ o', max_time o' < max_time o) pre ∧
    Forall (λ o', max_time o' ≤ max_time o) post ∧
    metric_name e = dup (metric_name o) ∧ params_json e = dup (params_json o) ∧ sql e = dup (sql o);
}.

Definition of_id (id : Z) (l : list nr_slowsql_t) : list nr_slowsql_t := filter (λ o, sql_id o = id) l.
Definition ids (l : list nr_slowsql_t) : gset Z := list_to_set (sql_id <$> l).

(** One occurrence. *)
Record single (o : nr_slowsql_t) : Prop := {
  si_count : count o = 1;
  si_time : min_time o = total o ∧ max_time o = total o ∧ 0 ≤ total o < 2 ^ 64;
}.

Record entry_ok (max : Z) (h : list nr_slowsql_t) (e : nr_slowsql_t) : Prop := {
  eo_summary : ∃ older recent, h = older ++ recent ∧ summarizes e (of_id (sql_id e) recent) ∧
    (older = [] ∨ max < Z.of_nat (size (ids h)));
  eo_max : Forall (λ o, max_time o ≤ max_time e) (of_id (sql_id e) h);
}.

Record table_holds (t : nr_slowsqls_t) (h : list nr_slowsql_t) : Prop := {
  th_size : 0 < max_slowsqls t ∧ Z.of_nat (length (slowsqls t)) ≤ max_slowsqls t;
  th_ids : NoDup (sql_id <$> slowsqls t);
  th_sub : ids (slowsqls t) ⊆ ids h;
  th_entries : Forall (entry_ok (max_slowsqls t) h) (slowsqls t);
  th_missing : ∀ o, o ∈ h → sql_id o ∉ sql_id <$> slowsqls t →
    Z.of_nat (length (slowsqls t)) = max_slowsqls t ∧ Forall (λ e, max_time o ≤ max_time e) (slowsqls t);
}.

(** ** The lemmas *)
Lemma of_id_app id l l' : of_id id (l ++ l') = of_id id l ++ of_id id l'.
Proof. apply filter_app. Qed.
Lemma of_id_same o : of_id (sql_id o) [o] = [o].
Proof. unfold of_id. by rewrite filter_cons_True. Qed.
Lemma of_id_other id o : sql_id o ≠ id → of_id id [o] = [].
Proof. intros. unfold of_id. by rewrite filter_cons_False. Qed.

Lemma ids_app l l' : ids (l ++ l') = ids l ∪ ids l'.
Proof. unfold ids. by rewrite fmap_app, list_to_set_app_L. Qed.
Lemma ids_cons o l : ids (o :: l) = {[sql_id o]} ∪ ids l.
Proof. done. Qed.
Lemma ids_size_mono l l' : (size (ids l) ≤ size (ids (l ++ l')))%nat.
Proof. apply subseteq_size. rewrite ids_app. set_solver. Qed.
Lemma elem_of_ids l id : id ∈ ids l ↔ id ∈ sql_id <$> l.
Proof. unfold ids. by rewrite elem_of_list_to_set. Qed.

Lemma total_sum_app l o : foldr (λ o s, total o + s) 0 (l ++ [o]) = foldr (λ o s, total o + s) 0 l + total o.
Proof. induction l as [|x l IH]; simpl; lia. Qed.

Lemma int_of_small x : 0 ≤ x < 2 ^ 31 → int_of x = x.
Proof. intros. unfold int_of. rewrite u32_small by lia. by destruct (Z.ltb_spec x (2 ^ 31)); [|lia]. Qed.

(** A merged occurrence is one more. *)
Lemma summarizes_snoc e mine o : summarizes e mine → single o → Z.of_nat (length mine) + 1 < 2 ^ 31 →
  summarizes (nr_slowsql_merge e o) (mine ++ [o]).
Proof.
  intros [Hc Ht [(a & Ha & Ea) Hmin] (pre & m & post & -> & Em & Hpre & Hpost & E1 & E2 & E3)] [Ho (Omin & Omax & Hr)] Hl.
  unfold nr_slowsql_merge. rewrite Hc, Ht, Ho, int_of_small by lia.
  assert (u64 (u64 (foldr (λ o s, total o + s) 0 (pre ++ m :: post)) + total o) = u64 (foldr (λ o s, total o + s) 0 ((pre ++ m :: post) ++ [o]))) as Et.
  { rewrite total_sum_app. unfold u64. by rewrite Zplus_mod_idemp_l. }
  assert ((∃ x, x ∈ (pre ++ m :: post) ++ [o] ∧ (if min_time o <? min_time e then min_time o else min_time e) = min_time x) ∧
    Forall (λ x, (if min_time o <? min_time e then min_time o else min_time e) ≤ min_time x) ((pre ++ m :: post) ++ [o])) as Hmin'.
  { destruct (Z.ltb_spec (min_time o) (min_time e)).
    - split; [exists o; split; [apply elem_of_app; right; by left|done]|]. apply Forall_app. split; [|by apply Forall_singleton].
      eapply Forall_impl; [exact Hmin|]. simpl. lia.
    - split; [exists a; split; [apply elem_of_app; by left|done]|]. apply Forall_app. split; [done|by apply Forall_singleton]. }
  assert (length ((pre ++ m :: post) ++ [o]) = S (length (pre ++ m :: post))) as El by (rewrite length_app; simpl; lia).
  destruct (Z.ltb_spec (max_time e) (max_time o)) as [Hlt|Hge]; (split; cbn [count total min_time max_time metric_name params_json sql]; [rewrite El; lia|done|done|]).
  - exists (pre ++ m :: post), o, []. split; [done|]. split; [done|]. split; [|by split; [apply Forall_nil_2|]].
    apply Forall_app. split; [eapply Forall_impl; [exact Hpre|]; simpl; lia|]. apply Forall_cons_2; [lia|].
    eapply Forall_impl; [exact Hpost|]. simpl. lia.
  - exists pre, m, (post ++ [o]). split; [by rewrite <-app_assoc|]. split_and!; [done|done| |done..].
    apply Forall_app. split; [done|]. apply Forall_singleton. lia.
Qed.

Lemma summarizes_one o : single o → summarizes (nr_slowsql_dup o) [o].
Proof.
  intros [Hc (Hmin & Hmax & Hr)]. split; [done|simpl; by rewrite Z.add_0_r, u64_small| |].
  - split; [exists o; split; [by left|done]|by apply Forall_singleton].
  - exists [], o, []. split_and!; (done || apply Forall_nil_2).
Qed.

(** An occurrence of another statement changes nothing about an entry. *)
Lemma entry_keeps max h e o : sql_id o ≠ sql_id e → entry_ok max h e → entry_ok max (h ++ [o]) e.
Proof.
  intros Hne [(older & recent & -> & Hs & Hold) Hm]. split.
  - exists older, (recent ++ [o]). rewrite app_assoc, (of_id_app _ recent), of_id_other, app_nil_r by done. split_and!; [done|done|].
    destruct Hold as [Hold|Hold]; [by left|right]. pose proof (ids_size_mono (older ++ recent) [o]). lia.
  - by rewrite of_id_app, of_id_other, app_nil_r.
Qed.

Lemma entries_keep max h es o : sql_id o ∉ sql_id <$> es → Forall (entry_ok max h) es → Forall (entry_ok max (h ++ [o])) es.
Proof.
  intros Hni Hes. rewrite Forall_forall in *. intros e He. apply entry_keeps; [|by apply Hes].
  intros E. apply Hni. rewrite E. by apply list_elem_of_fmap_2.
Qed.

Lemma entry_merge max h e o : sql_id o = sql_id e → single o → Z.of_nat (length h) + 1 < 2 ^ 31 →
  entry_ok max h e → entry_ok max (h ++ [o]) (nr_slowsql_merge e o) ∧ max_time e ≤ max_time (nr_slowsql_merge e o) ∧
  sql_id (nr_slowsql_merge e o) = sql_id e.
Proof.
  intros Eid Ho Hl [(older & recent & -> & Hs & Hold) Hm].
  assert (sql_id (nr_slowsql_merge e o) = sql_id e) as E by (unfold nr_slowsql_merge; by destruct (_ <? max_time o)).
  assert (max_time e ≤ max_time (nr_slowsql_merge e o) ∧ max_time o ≤ max_time (nr_slowsql_merge e o)) as [Hge Hgo].
  { unfold nr_slowsql_merge. destruct (Z.ltb_spec (max_time e) (max_time o)); simpl; lia. }
  split; [|done]. split.
  - exists older, (recent ++ [o]). rewrite app_assoc, E, of_id_app, <-Eid, of_id_same. rewrite Eid. split; [done|]. split.
    + apply summarizes_snoc; [done|done|]. rewrite length_app in Hl. unfold of_id. pose proof (length_filter (λ o, sql_id o = sql_id e) recent). lia.
    + destruct Hold as [Hold|Hold]; [by left|right]. pose proof (ids_size_mono (older ++ recent) [o]). lia.
  - rewrite E, of_id_app, <-Eid, of_id_same. apply Forall_app. rewrite Eid. split; [|by apply Forall_singleton].
    eapply Forall_impl; [exact Hm|]. simpl. lia.
Qed.

Lemma merge_duplicate_spec es o :
  ((sql_id o ∉ sql_id <$> es) ∧ merge_duplicate es o = None) ∨
  ∃ pre e post, es = pre ++ e :: post ∧ sql_id o = sql_id e ∧ (sql_id o ∉ sql_id <$> pre) ∧
    merge_duplicate es o = Some (pre ++ nr_slowsql_merge e o :: post).
Proof.
  induction es as [|e es IH]; [left; split; [by apply not_elem_of_nil|done]|]. cbn [merge_duplicate].
  destruct (Z.eqb_spec (sql_id o) (sql_id e)) as [E|Hne].
  - right. exists [], e, es. split_and!; [done|done|by apply not_elem_of_nil|done].
  - destruct IH as [[Hni ->]|(pre & e' & post & -> & E & Hni & ->)]; [left|right].
    + split; [|done]. rewrite fmap_cons. by apply not_elem_of_cons.
    + exists (e :: pre), e', post. split_and!; [done|done| |done]. rewrite fmap_cons. by apply not_elem_of_cons.
Qed.

Lemma smallest_loop_spec es : ∀ i idx m,
  (smallest_loop es i idx m = (idx, m) ∧ Forall (λ e, m ≤ max_time e) es) ∨
  ∃ j e, es !! j = Some e ∧ smallest_loop es i idx m = ((i + j)%nat, max_time e) ∧ max_time e < m ∧ Forall (λ e', max_time e ≤ max_time e') es.
Proof.
  induction es as [|e es IH]; intros i idx m; [by left|]. cbn [smallest_loop].
  destruct (Z.ltb_spec (max_time e) m).
  - right. destruct (IH (S i) i (max_time e)) as [[-> Hall]|(j & e' & Hj & -> & Hlt & Hall)].
    + exists 0%nat, e. split_and!; [done|f_equal; lia|done|by apply Forall_cons_2].
    + exists (S j), e'. split_and!; [done|f_equal; lia|lia|apply Forall_cons_2; [lia|done]].
  - destruct (IH (S i) idx m) as [[-> Hall]|(j & e' & Hj & -> & Hlt & Hall)]; [left|right].
    + split; [done|by apply Forall_cons_2].
    + exists (S j), e'. split_and!; [done|f_equal; lia|done|apply Forall_cons_2; [lia|done]].
Qed.

(** The one with the smallest maximum of a table that is not empty. *)
Lemma smallest_spec e es : ∃ i x, (e :: es) !! i = Some x ∧ smallest_loop es 1 0 (max_time e) = (i, max_time x) ∧
  Forall (λ e', max_time x ≤ max_time e') (e :: es).
Proof.
  destruct (smallest_loop_spec es 1 0 (max_time e)) as [[-> Hall]|(j & x & Hj & -> & Hlt & Hall)].
  - exists 0%nat, e. split_and!; [done|done|by apply Forall_cons_2].
  - exists (S j), x. split_and!; [done|done|apply Forall_cons_2; [lia|done]].
Qed.

Lemma of_id_absent id h : id ∉ ids h → of_id id h = [].
Proof.
  rewrite elem_of_ids. intros Hni. apply filter_none, Forall_forall. intros o Ho <-. apply Hni. by apply list_elem_of_fmap_2.
Qed.

(** A statement that comes into the table: either it is new, or its earlier occurrences were not slower and the table is full. *)
Lemma slow_entry_new max h o : single o → sql_id o ∉ ids h ∨ max < Z.of_nat (size (ids (h ++ [o]))) →
  Forall (λ x, max_time x ≤ max_time o) (of_id (sql_id o) h) → entry_ok max (h ++ [o]) (nr_slowsql_dup o).
Proof.
  intros Ho Hnew Hm. split; cbn [nr_slowsql_dup sql_id max_time].
  - destruct Hnew as [Hni|Hbig].
    + exists [], (h ++ [o]). split; [done|]. split; [|by left]. rewrite of_id_app, of_id_absent, of_id_same by done. by apply summarizes_one.
    + exists h, [o]. split; [done|]. split; [|by right]. rewrite of_id_same. by apply summarizes_one.
  - rewrite of_id_app, of_id_same. apply Forall_app. split; [done|by apply Forall_singleton].
Qed.

Lemma evicted_ids max es h o : NoDup (sql_id <$> es) → ids es ⊆ ids h → Z.of_nat (length es) = max →
  sql_id o ∉ sql_id <$> es → max < Z.of_nat (size (ids (h ++ [o]))).
Proof.
  intros Hn Hsub Hl Hni. assert (size (ids (es ++ [o])) = S (length es)) as E.
  { assert (ids [o] = {[sql_id o]}) as E1 by (unfold ids; set_solver). rewrite ids_app, E1. unfold ids.
    rewrite size_union, (size_list_to_set (sql_id <$> es)), length_fmap, size_singleton by (done || set_solver). lia. }
  assert (ids (es ++ [o]) ⊆ ids (h ++ [o])) as Hs%subseteq_size by (rewrite !ids_app; set_solver). lia.
Qed.

Lemma add_merge max pre e post h o : table_holds (SlowSqls max (pre ++ e :: post)) h → single o → Z.of_nat (length h) + 1 < 2 ^ 31 →
  sql_id o = sql_id e → table_holds (SlowSqls max (pre ++ nr_slowsql_merge e o :: post)) (h ++ [o]).
Proof.
  intros [[Hmx Hl] Hn Hsub He Hmiss] Ho Hlen E. cbn [max_slowsqls slowsqls] in *.
  apply Forall_app in He as [Hpre [He Hpost]%Forall_cons]. destruct (entry_merge max h e o E Ho Hlen He) as (Hok & Hge & Eid).
  assert (sql_id <$> pre ++ nr_slowsql_merge e o :: post = sql_id <$> pre ++ e :: post) as Em by (rewrite !fmap_app, !fmap_cons; by rewrite Eid).
  assert (length (pre ++ nr_slowsql_merge e o :: post) = length (pre ++ e :: post)) as El by by rewrite !length_app.
  assert ((sql_id o ∉ sql_id <$> pre) ∧ (sql_id o ∉ sql_id <$> post)) as [Hni1 Hni2].
  { rewrite E. rewrite fmap_app, fmap_cons in Hn. apply NoDup_app in Hn as (_ & Hd & [Hnp _]%NoDup_cons). split; [|done].
    intros Hin. apply (Hd _ Hin). by left. }
  split; cbn [max_slowsqls slowsqls]; rewrite ?El, ?Em; [done|done|unfold ids at 1; rewrite Em, ids_app; by apply union_subseteq_l'| |].
  - apply Forall_app. split; [by apply entries_keep|]. apply Forall_cons_2; [done|by apply entries_keep].
  - intros y [Hy|Hy%list_elem_of_singleton]%elem_of_app; [|subst y].
    + intros Hni. destruct (Hmiss y Hy Hni) as [El' Hall]. split; [done|]. apply Forall_app in Hall as [? [? ?]%Forall_cons].
      apply Forall_app. split; [done|]. apply Forall_cons_2; [lia|done].
    + intros Hni. destruct Hni. rewrite E. apply list_elem_of_fmap_2, elem_of_app. right. by left.
Qed.

Lemma add_room t h o : table_holds t h → single o → sql_id o ∉ sql_id <$> slowsqls t → Z.of_nat (length (slowsqls t)) < max_slowsqls t →
  table_holds (SlowSqls (max_slowsqls t) (slowsqls t ++ [nr_slowsql_dup o])) (h ++ [o]).
Proof.
  intros [[Hmx Hl] Hn Hsub He Hmiss] Ho Hni Hroom.
  assert (∀ x, x ∈ h → sql_id x ∈ sql_id <$> slowsqls t) as Hall.
  { intros x Hx. destruct (decide (sql_id x ∈ sql_id <$> slowsqls t)) as [|Hnx]; [done|]. destruct (Hmiss x Hx Hnx). lia. }
  assert (sql_id o ∉ ids h) as Hnh.
  { rewrite elem_of_ids. intros (x & Ex & Hx)%list_elem_of_fmap. apply Hni. rewrite Ex. by apply Hall. }
  split; cbn [max_slowsqls slowsqls].
  - rewrite length_app. simpl. lia.
  - rewrite fmap_app. apply NoDup_app. split_and!; [done| |by apply NoDup_singleton]. intros x Hx Hxo.
    apply list_elem_of_singleton in Hxo as ->. done.
  - rewrite !ids_app. set_solver.
  - apply Forall_app. split; [by apply entries_keep|]. apply Forall_singleton. apply slow_entry_new; [done|by left|].
    rewrite of_id_absent by done. apply Forall_nil_2.
  - rewrite fmap_app. intros y [Hy|Hy%list_elem_of_singleton]%elem_of_app; [|subst y]; intros Hny; destruct Hny; apply elem_of_app; [|right; by left].
    left. by apply Hall.
Qed.

Lemma add_evict t h o i x : table_holds t h → single o → sql_id o ∉ sql_id <$> slowsqls t →
  Z.of_nat (length (slowsqls t)) = max_slowsqls t → slowsqls t !! i = Some x →
  Forall (λ e, max_time x ≤ max_time e) (slowsqls t) → max_time x ≤ max_time o →
  table_holds (SlowSqls (max_slowsqls t) (<[i := nr_slowsql_dup o]> (slowsqls t))) (h ++ [o]).
Proof.
  intros [[Hmx Hl] Hn Hsub He Hmiss] Ho Hni Hfull Hi Hmin Hx.
  pose proof (evicted_ids _ _ h o Hn Hsub Hfull Hni) as Hbig.
  assert (slowsqls t = take i (slowsqls t) ++ x :: drop (S i) (slowsqls t)) as Es by by rewrite take_drop_middle.
  assert (<[i:=nr_slowsql_dup o]> (slowsqls t) = take i (slowsqls t) ++ nr_slowsql_dup o :: drop (S i) (slowsqls t)) as Ei.
  { apply insert_take_drop. by eapply lookup_lt_Some. }
  rewrite Ei. remember (take i (slowsqls t)) as pre. remember (drop (S i) (slowsqls t)) as post. clear Heqpre Heqpost.
  assert (length (pre ++ nr_slowsql_dup o :: post) = length (slowsqls t)) as El by (rewrite Es, !length_app; done).
  pose proof (entries_keep _ h _ o Hni He) as Hkeep.
  rewrite Es in Hn, Hni, Hkeep, Hmin, Hsub. rewrite !fmap_app, !fmap_cons in Hn, Hni.
  apply not_elem_of_app in Hni as [Hn1 [Hnx Hn2]%not_elem_of_cons]. apply NoDup_app in Hn as (Hp & Hd & [Hxp Hpo]%NoDup_cons).
  apply Forall_app in Hkeep as [Hk1 [_ Hk2]%Forall_cons]. apply Forall_app in Hmin as [Hm1 [_ Hm2]%Forall_cons].
  split; cbn [max_slowsqls slowsqls]; rewrite ?El.
  - done.
  - rewrite fmap_app, fmap_cons. apply NoDup_app. split; [done|]. split; [|by apply NoDup_cons].
    intros y Hy [->|Hy']%elem_of_cons; [done|]. apply (Hd y Hy). by right.
  - rewrite ids_app in Hsub |- *. rewrite ids_cons in Hsub |- *. rewrite ids_app. unfold ids at 4. set_solver.
  - apply Forall_app. split; [done|]. apply Forall_cons_2; [|done]. apply slow_entry_new; [done|by right|].
    apply Forall_forall. intros y [Ey Hy]%list_elem_of_filter. destruct (Hmiss y Hy) as [_ Hall].
    { rewrite Ey, Es, fmap_app, fmap_cons. rewrite not_elem_of_app, not_elem_of_cons. done. }
    rewrite Forall_forall in Hall. specialize (Hall x). rewrite Es in Hall. specialize (Hall ltac:(apply elem_of_app; right; by left)). lia.
  - rewrite fmap_app, fmap_cons. intros y [Hy|Hy%list_elem_of_singleton]%elem_of_app; [|subst y]; cycle 1.
    { intros Hno. destruct Hno. apply elem_of_app. right. by left. }
    intros [Hny1 [Hny2 Hny3]%not_elem_of_cons]%not_elem_of_app. split; [done|].
    assert (max_time y ≤ max_time x) as Hyx.
    { destruct (decide (sql_id y = sql_id x)) as [E|Hne].
      - rewrite Forall_forall in He. destruct (He x) as [_ Hm]; [by eapply list_elem_of_lookup_2|]. rewrite Forall_forall in Hm.
        apply Hm. by apply list_elem_of_filter.
      - destruct (Hmiss y Hy) as [_ Hall]; [rewrite Es, fmap_app, fmap_cons, not_elem_of_app, not_elem_of_cons; done|].
        rewrite Forall_forall in Hall. apply Hall. by eapply list_elem_of_lookup_2. }
    apply Forall_app. split; [eapply Forall_impl; [exact Hm1|]; simpl; lia|]. apply Forall_cons_2; [simpl; lia|].
    eapply Forall_impl; [exact Hm2|]. simpl. lia.
Qed.

Lemma slow_add_holds t h o : table_holds t h → single o → Z.of_nat (length h) + 1 < 2 ^ 31 →
  ∃ t', nr_slowsqls_add_internal (Some t) (Some o) = Some t' ∧ max_slowsqls t' = max_slowsqls t ∧ table_holds t' (h ++ [o]).
Proof.
  intros Ht Ho Hl. unfold nr_slowsqls_add_internal. pose proof Ht as [[Hmx Hlen] Hn Hsub He Hmiss].
  destruct (merge_duplicate_spec (slowsqls t) o) as [[Hni ->]|(pre & e & post & Es & E & _ & ->)].
  2:{ eexists. split; [done|]. split; [done|]. apply add_merge; [|done..]. rewrite <-Es. by destruct t. }
  destruct (Z.ltb_spec (Z.of_nat (length (slowsqls t))) (max_slowsqls t)) as [Hroom|Hfull].
  { eexists. split; [done|]. split; [done|]. by apply add_room. }
  destruct (slowsqls t) as [|e es] eqn:Es; [simpl in Hfull; lia|].
  destruct (smallest_spec e es) as (i & x & Hi & -> & Hmin). cbn [max_time]. destruct (Z.ltb_spec (max_time o) (max_time x)) as [Hlt|Hge].
  - exists t. split; [done|]. split; [done|]. split; rewrite ?Es; [done|done|rewrite ids_app; by apply union_subseteq_l'|by apply entries_keep|].
    intros y [Hy|Hy%list_elem_of_singleton]%elem_of_app; [by apply Hmiss|subst y]. intros _. split; [lia|].
    eapply Forall_impl; [exact Hmin|]. simpl. lia.
  - eexists. split; [done|]. split; [done|]. rewrite <-Es in *. apply add_evict with x; done || lia.
Qed.

Section run.
Context `{Allocator Z} (radix : Z).

Definition params_ok (p : option nr_slowsqls_params_t) : Prop := from_option (λ p, 0 ≤ duration p < 2 ^ 64) True p.

Lemma slow_of_single p o : params_ok p → slow_of radix p = Some (Some o) → single o.
Proof.
  intros Hp. destruct p as [p|]; [|done]. simpl in *. destruct (input_sql p) as [q|], (stacktrace_json p), (input_metric_name p); try done.
  destruct (Z.eqb_spec (duration p) 0); [done|]. destruct (nr_sql_id (Some q)) as [id|]; [|done]. simpl.
  destruct (id =? 0); [done|]. intros [= <-]. by split.
Qed.

Lemma slow_run_holds l : ∀ t h os, table_holds t h → Forall params_ok l → occurrences radix l = Some os →
  Z.of_nat (length h) + Z.of_nat (length os) < 2 ^ 31 →
  ∃ t', add_all radix (Some t) l = Some (Some t') ∧ max_slowsqls t' = max_slowsqls t ∧ table_holds t' (h ++ os).
Proof.
  induction l as [|p l IH]; intros t h os Ht Hl; cbn [occurrences add_all].
  { intros [= <-] _. exists t. by rewrite app_nil_r. }
  apply Forall_cons in Hl as [Hp Hl]. unfold nr_slowsqls_add. destruct (slow_of radix p) as [slow|] eqn:Ep; [|done].
  destruct (occurrences radix l) as [rest|] eqn:El; [|done]. cbn [mbind option_bind]. intros [= <-] Hlen.
  destruct slow as [o|].
  - destruct (slow_add_holds t h o Ht) as (t' & -> & Em & Ht'); [by eapply slow_of_single|simpl in Hlen; lia|].
    destruct (IH t' (h ++ [o]) rest Ht' Hl eq_refl) as (t'' & E & Em' & Ht''); [rewrite length_app; simpl in *; lia|].
    exists t''. rewrite <-app_assoc in Ht''. split; [done|]. split; [by rewrite Em'|done].
  - by apply IH.
Qed.
End run.

(** C22: The table keeps the slowest statements. After any additions, each a statement
    with its time, the entries are at most as many as allowed and of distinct statements, and a statement that is missing
    was never slower than any that is there, in which case the table is full.  Each entry has the greatest time of all
    occurrences of its statement; its number, total, least time, and the strings of its slowest instance are those of the
    occurrences since it last came in, which are all of them as long as there were no more distinct statements than room. *)
Theorem nr_slowsqls_keep_slowest `{Allocator Z} (radix max : Z) (l : list (option nr_slowsqls_params_t)) (os : list nr_slowsql_t) :
  0 < max → Forall params_ok l → occurrences radix l = Some os → Z.of_nat (length os) < 2 ^ 31 →
  ∃ t, add_all radix (nr_slowsqls_create max) l = Some (Some t) ∧
    Z.of_nat (length (slowsqls t)) ≤ max ∧ NoDup (sql_id <$> slowsqls t) ∧ ids (slowsqls t) ⊆ ids os ∧
    (∀ o, o ∈ os → sql_id o ∉ sql_id <$> slowsqls t →
      Z.of_nat (length (slowsqls t)) = max ∧ Forall (λ e, max_time o ≤ max_time e) (slowsqls t)) ∧
    Forall (λ e, Forall (λ o, max_time o ≤ max_time e) (of_id (sql_id e) os) ∧
      ∃ older recent, os = older ++ recent ∧ summarizes e (of_id (sql_id e) recent) ∧
        (Z.of_nat (size (ids os)) ≤ max → older = [])) (slowsqls t).
Proof.
  intros Hmx Hl Eos Hlen. unfold nr_slowsqls_create. destruct (Z.leb_spec max 0); [lia|].
  destruct (slow_run_holds radix l (SlowSqls max []) [] os) as (t & Et & Em & Ht); [|done|done|simpl; lia|].
  { split; simpl; [lia|apply NoDup_nil_2|done|apply Forall_nil_2|by intros o ?%elem_of_nil]. }
  exists t. destruct Ht as [[_ Hs] Hn Hsub He Hmiss]. rewrite app_nil_l in *. rewrite Em in *. cbn [max_slowsqls] in *.
  split_and!; [done..|]. eapply Forall_impl; [exact He|]. intros e [(older & recent & E & Hsu & Hold) Hm]. split; [done|].
  exists older, recent. split_and!; [done|done|]. destruct Hold as [Hold|Hold]; [done|]. lia.
Qed.

Lemma nr_slowsqls_keep_slowest_witness :
  let _ := GenerousAllocator.allocator Z in
  let p q d := Some (Params (Some q) d (Some (lit "[]")) (Some (lit "m")) None None None false false) in
  let l := [p (lit "a") 5; p (lit "b") 7; p (lit "a") 6; p (lit "c") 3; p (lit "c") 9] in
  ∃ os t, occurrences 46 l = Some os ∧ add_all 46 (nr_slowsqls_create 2) l = Some (Some t) ∧
    (sql <$> slowsqls t) = [lit "c"; lit "b"] ∧ NoDup (sql_id <$> slowsqls t).
Proof.
  intros al p l. assert (is_Some (occurrences 46 l)) as [os Eos] by (eexists; vm_compute; reflexivity).
  assert (os = default [] (occurrences 46 l)) as Hos by by rewrite Eos.
  destruct (nr_slowsqls_keep_slowest (H:=al) 46 2 l os) as (t & Et & _ & Hn & _).
  - lia.
  - by repeat constructor.
  - done.
  - rewrite Hos. by vm_compute.
  - exists os, t. split_and!; [done|done| |done].
    assert (t = default (SlowSqls 0 []) (default None (add_all 46 (nr_slowsqls_create 2) l))) as -> by by rewrite Et. by vm_compute.
Defined.
