(* ===== verification/Regex.v ===== *)
(** * Regex: the wrapper of the PCRE library (src/axiom/util_regex.c)

    PCRE is a parameter: a class of what the wrapper calls, with what its
    documentation says of a successful match as laws.  A subject is the list of
    its bytes. *)

From S2P Require Import Prelude Memory CString Strings Buffer.
Local Open Scope Z_scope.

(** Compiled code; [pcre_exec] gives its return value and the vector of offsets, of the size it was given. *)
Class Pcre := {
  pcre : Type;
  pcre_compile : list Z → Z → option pcre;
  pcre_study_fails : pcre → bool;
  pcre_capture_count : pcre → option Z;
  pcre_exec : pcre → list Z → Z → Z * list Z;
  pcre_get_stringnumber : pcre → list Z → Z;
}.

Definition PCRE_CASELESS : Z := 0x1.
Definition PCRE_MULTILINE : Z := 0x2.
Definition PCRE_DOTALL : Z := 0x4.
Definition PCRE_ANCHORED : Z := 0x10.
Definition PCRE_DOLLAR_ENDONLY : Z := 0x20.
Definition PCRE_ERROR_NOMATCH : Z := -1.
Definition PCRE_ERROR_NOSUBSTRING : Z := -7.

Definition NR_REGEX_ANCHORED : Z := Z.shiftl 1 0.
Definition NR_REGEX_CASELESS : Z := Z.shiftl 1 1.
Definition NR_REGEX_DOLLAR_ENDONLY : Z := Z.shiftl 1 2.
Definition NR_REGEX_DOTALL : Z := Z.shiftl 1 3.
Definition NR_REGEX_MULTILINE : Z := Z.shiftl 1 4.

Definition nr_regex_handle_option (pcre_option_set nr_option_set pcre_option nr_option : Z) : Z :=
  if Z.land nr_option_set nr_option =? 0 then pcre_option_set else Z.lor pcre_option_set pcre_option.

Definition pcre_options (options : Z) : Z :=
  let o := nr_regex_handle_option 0 options PCRE_ANCHORED NR_REGEX_ANCHORED in
  let o := nr_regex_handle_option o options PCRE_CASELESS NR_REGEX_CASELESS in
  let o := nr_regex_handle_option o options PCRE_DOLLAR_ENDONLY NR_REGEX_DOLLAR_ENDONLY in
  let o := nr_regex_handle_option o options PCRE_DOTALL NR_REGEX_DOTALL in
  nr_regex_handle_option o options PCRE_MULTILINE NR_REGEX_MULTILINE.

Section regex.
Context `{Pcre}.

Record nr_regex_t := Regex { code : pcre; capture_count : Z }.

Record nr_regex_substrings_t := Substrings {
  ss_code : pcre;
  subject : list Z;
  ss_capture_count : Z;
  ovector : list Z;
}.

Definition nr_regex_create (pattern : option (list Z)) (options : Z) (do_study : bool) : option nr_regex_t :=
  pattern ← pattern;
  code ← pcre_compile (cstr pattern) (pcre_options options);
  if do_study && pcre_study_fails code then None
  else count ← pcre_capture_count code; Some (Regex code count).

(** Whether there is a match. *)
Definition nr_regex_match (regex : option nr_regex_t) (str : option (list Z)) (str_len : Z) : bool :=
  match regex, str with
  | Some regex, Some str =>
      if str_len <? 0 then false else 0 <=? (pcre_exec (code regex) (take (Z.to_nat str_len) str) 0).1
  | _, _ => false
  end.

Definition nr_regex_substrings_create (code : pcre) (count : Z) : option Z := if count <? 0 then None else Some ((count + 1) * 3).

Definition nr_regex_match_capture (regex : option nr_regex_t) (str : option (list Z)) (str_len : Z) :
    option nr_regex_substrings_t :=
  match regex, str with
  | Some regex, Some str =>
      if str_len <? 0 then None
      else
        ovector_size ← nr_regex_substrings_create (code regex) (capture_count regex);
        let '(rc, ovector) := pcre_exec (code regex) (take (Z.to_nat str_len) str) ovector_size in
        if rc <=? 0 then None
        else Some (Substrings (code regex) (nr_strndup (Some str) str_len) (rc - 1) ovector)
  | _, _ => None
  end.

Definition nr_regex_substrings_count (ss : option nr_regex_substrings_t) : Z := from_option ss_capture_count (-1) ss.

Definition nr_regex_substrings_get_offsets (ss : option nr_regex_substrings_t) (index : Z) : option (Z * Z) :=
  ss ← ss;
  if (index <? 0) || (ss_capture_count ss <? index) then None
  else Some (char_at (ovector ss) (index * 2), char_at (ovector ss) (index * 2 + 1)).

(** The part of the subject between the offsets; a group that took no part has both at -1, and is read as empty. *)
Definition nr_regex_substrings_get (ss : option nr_regex_substrings_t) (index : Z) : option (list Z) :=
  s ← ss;
  '(from, to) ← nr_regex_substrings_get_offsets ss index;
  Some (nr_strndup (Some (drop (Z.to_nat from) (subject s))) (to - from)).

Definition nr_regex_substrings_get_named (ss : option nr_regex_substrings_t) (name : option (list Z)) : option (list Z) :=
  s ← ss; name ← name;
  let offset := pcre_get_stringnumber (ss_code s) name in
  if offset =? PCRE_ERROR_NOSUBSTRING then None else nr_regex_substrings_get ss offset.
End regex.

(** ** Quoting *)

(** The characters that get a backslash. *)
Definition special : list Z := lit ".\+*?[^]$(){}=!><|:-".

Definition quote_char (c : Z) : list Z :=
  if c =? 0 then lit "\000" else if bool_decide (c ∈ special) then [92; c] else [c].

Section quote.
Context `{Allocator Z}.

Fixpoint quote_loop (str : list Z) (buf : option nrbuf_t) : option nrbuf_t :=
  match str with
  | [] => buf
  | c :: str =>
      let buf :=
        if c =? 0 then nr_buffer_add buf (Some (lit "\000")) 4
        else
          let buf := if bool_decide (c ∈ special) then nr_buffer_add buf (Some (lit "\")) 1 else buf in
          nr_buffer_add buf (Some [c]) 1 in
      quote_loop str buf
  end.

Definition nr_regex_add_quoted_to_buffer (buf : option nrbuf_t) (str : option (list Z)) (str_len : Z) : option nrbuf_t :=
  match buf, str with
  | Some _, Some str => quote_loop (take (Z.to_nat str_len) str) buf
  | _, _ => buf
  end.

(** The text, and its length where it is asked for. *)
Definition nr_regex_quote (str : option (list Z)) (str_len : Z) : option (list Z * Z) :=
  match str with
  | None => None
  | Some _ =>
      let buf := nr_regex_add_quoted_to_buffer (Some (nr_buffer_create str_len 0)) str str_len in
      let buf := nr_buffer_add buf (Some [0]) 1 in
      let qlen := nr_buffer_len buf in
      if qlen <? 0 then None else Some (nr_strndup (nr_buffer_cptr buf) qlen, qlen - 1)
  end.

Lemma quote_loop_appends str : appends (quote_loop str) (flat_map quote_char str).
Proof.
  induction str as [|c str IH]; [apply appends_id|]. cbn [quote_loop flat_map].
  refine (appends_then (λ b, if c =? 0 then nr_buffer_add b (Some (lit "\000")) 4
    else nr_buffer_add (if bool_decide (c ∈ special) then nr_buffer_add b (Some (lit "\")) 1 else b) (Some [c]) 1) _ _ _ _ IH).
  unfold quote_char. destruct (c =? 0); [by apply appends_add|]. destruct (bool_decide (c ∈ special)).
  - exact (appends_then _ _ [92] [c] (appends_add (lit "\") 1 eq_refl) (appends_add [c] 1 eq_refl)).
  - by apply appends_add.
Qed.

Lemma quote_cstr s : is_cstr s → is_cstr (flat_map quote_char s).
Proof.
  induction 1 as [|c s Hc _ IH]; [apply Forall_nil_2|]. cbn [flat_map]. apply Forall_app. split; [|done].
  unfold quote_char. destruct (Z.eqb_spec c 0); [lia|]. destruct (bool_decide _); repeat apply Forall_cons_2; (lia || apply Forall_nil_2).
Qed.

(** Quoting a whole string. *)
Lemma nr_regex_quote_text s : is_cstr s → Z.of_nat (length s) ≤ 2 ^ 30 →
  nr_regex_quote (Some s) (Z.of_nat (length s)) = Some (flat_map quote_char s, Z.of_nat (length (flat_map quote_char s))).
Proof.
  intros Hs Hl. pose proof (quote_loop_appends s) as Ha.
  destruct (buffer_create_holds (Z.of_nat (length s)) 0 Hl ltac:(done)) as [[Hb Hc _ _] _].
  destruct (appends_then _ _ _ _ Ha (appends_add [0] 1 eq_refl) _ Hb) as (bp & E & Hb' & Hc').
  unfold nr_regex_quote, nr_regex_add_quoted_to_buffer. rewrite Nat2Z.id, firstn_all, E. cbn [nr_buffer_len nr_buffer_cptr].
  rewrite Hc in Hc'. simpl in Hc'. pose proof (avail_length bp Hb') as Hav. rewrite Hc', length_app in Hav. simpl in Hav.
  destruct (Z.ltb_spec (avail bp) 0), (Z.leb_spec (avail bp) 0); try lia. f_equal. f_equal; [|lia].
  unfold nr_strndup. destruct (Z.eqb_spec (avail bp) 0); [lia|]. unfold contents in Hc'. rewrite Hc'. apply cstr_app. by apply quote_cstr.
Qed.
End quote.
