(* ===== verification/Rules.v ===== *)
(** * Rules: renaming URLs and transactions (src/axiom/nr_rules.c), and reading
    settings of the collector's reply (src/axiom/util_reply.c)

    A rule is a regular expression and a replacement.  The three buffers of
    2048 bytes are strings with that bound; [Undefined] is what would be written
    past one of them, and what would be read behind an empty name, where the
    characters of an earlier one may be.  [OutOfFuel] is a loop that has not ended. *)

From S2P Require Import Prelude Memory CString Strings Double Object ObjectParse StringSplit Regex.
Local Open Scope Z_scope.

(** ** Settings (src/axiom/util_reply.c) *)
Definition no_name (name : option (list Z)) : bool := match name with Some (c :: _) => c =? 0 | _ => true end.

Definition nr_reply_get_int (reply : obj) (name : option (list Z)) (dflt : Z) : Z :=
  match reply with
  | None => dflt
  | Some _ =>
      if no_name name then dflt
      else match (nro_get_hash_value reply name).1 with
           | None => dflt
           | rp => let '(ret, err) := nro_get_ival rp in if decide (err = NR_FAILURE) then dflt else ret
           end
  end.

Definition nr_reply_get_bool (reply : obj) (name : option (list Z)) (dflt : Z) : Z :=
  match reply with
  | None => dflt
  | Some _ =>
      if no_name name then dflt
      else match (nro_get_hash_value reply name).1 with
           | None => dflt
           | rp =>
               let '(ret, err) := nro_get_ival rp in
               if decide (err = NR_SUCCESS) then ret
               else
                 let '(str, err) := nro_get_string rp in
                 if decide (err = NR_FAILURE) then dflt
                 else
                   let c := char_at (default [] str) 0 in
                   if bool_decide (c ∈ lit "1yYtT") || (nr_stricmp str (Some (lit "on")) =? 0) then 1
                   else if bool_decide (c ∈ lit "0nNfF") || (nr_stricmp str (Some (lit "off")) =? 0) then 0
                   else dflt
           end
  end.

(** The double nearest to an integer. *)
Definition double_of (z : Z) : double := of_decimal_scientific (z <? 0) (Z.abs z) 0.
Definition nr_reply_get_double (reply : obj) (name : option (list Z)) (dflt : double) : double :=
  match reply with
  | None => dflt
  | Some _ =>
      if no_name name then dflt
      else match (nro_get_hash_value reply name).1 with
           | Some (OInt _ _) as rp => double_of (nro_get_ival rp).1
           | Some (OLong _) as rp => double_of (nro_get_long rp).1
           | Some (OUlong _) as rp => double_of (nro_get_ulong rp).1
           | Some (ODouble _) as rp => (nro_get_double rp).1
           | _ => dflt
           end
  end.

(** ** Rules *)
Definition NR_RULE_EACH_SEGMENT : Z := 0x01.
Definition NR_RULE_IGNORE : Z := 0x02.
Definition NR_RULE_REPLACE_ALL : Z := 0x04.
Definition NR_RULE_TERMINATE : Z := 0x08.
Definition NR_RULE_HAS_ALTS : Z := 0x10.
Definition NR_RULE_HAS_CAPTURES : Z := 0x20.
Definition NR_RULE_DEFAULT_ORDER : Z := 99999.
Definition NRULE_BUF_SIZE : Z := 2048.
Definition nr_rules_regex_options : Z := Z.lor (Z.lor NR_REGEX_CASELESS NR_REGEX_DOLLAR_ENDONLY) NR_REGEX_DOTALL.

Inductive nr_rules_result_t := NR_RULES_RESULT_IGNORE | NR_RULES_RESULT_UNCHANGED | NR_RULES_RESULT_CHANGED.

Section rules.
Context `{Pcre}.

Record nrrule_t := Rule {
  rflags : Z;
  order : Z;
  match_ : list Z;
  replacement : option (list Z);
  regex : nr_regex_t;
}.

Record nrrules_t := Rules {
  nalloc : Z;
  rules : list nrrule_t;
}.

Definition has (rule : nrrule_t) (flag : Z) : bool := negb (Z.land (rflags rule) flag =? 0).

Definition nr_rules_create (num : Z) : nrrules_t := Rules (if num <=? 0 then 8 else num) [].

Definition nr_rules_add (rs : option nrrules_t) (flags order : Z) (match_ repl : option (list Z)) : nr_status_t * option nrrules_t :=
  match rs, match_ with
  | Some r, Some m =>
      if char_at m 0 =? 0 then (NR_FAILURE, rs)
      else
        match nr_regex_create match_ nr_rules_regex_options true with
        | None => (NR_FAILURE, rs)
        | Some regex =>
            let nalloc' := if nalloc r =? Z.of_nat (length (rules r)) then nalloc r + 8 else nalloc r in
            let replacement := if nr_strempty repl then None else Some (nr_strdup repl) in
            (NR_SUCCESS, Some (Rules nalloc' (rules r ++ [Rule flags order (nr_strdup match_) replacement regex])))
        end
  | _, _ => (NR_FAILURE, rs)
  end.

Definition qsort_comparator_for_rules (r1 r2 : nrrule_t) : Z :=
  if order r1 <? order r2 then -1 else if order r2 <? order r1 then 1 else 0.

Definition nr_rules_sort `{QsortR} (rs : option nrrules_t) : option nrrules_t :=
  match rs with
  | None => None
  | Some r => if Z.of_nat (length (rules r)) =? 0 then rs else Some (Rules (nalloc r) (qsort_r _ qsort_comparator_for_rules (rules r)))
  end.

(** ** Replacements *)

(** The loop over the replacement: what is written, [None] for a failure. *)
Fixpoint replace_loop (ss : option nr_regex_substrings_t) (repl : list Z) (state : bool) (num : Z) (out : list Z) (dest_len : Z) :
    outcome (option (list Z)) :=
  match repl with
  | [] => if dest_len <=? 0 then Undefined else Done (Some out)
  | ch :: rest =>
      if negb state then
        if ch =? 92 then replace_loop ss rest true 0 out dest_len
        else if 0 <? dest_len then replace_loop ss rest false num (out ++ [ch]) (dest_len - 1)
        else replace_loop ss rest false num out dest_len
      else
        let num := if nr_isdigit ch then num * 10 + (ch - 48) else num in
        if 2 ^ 31 <=? num then Undefined
        else if nr_isdigit (char_at rest 0) then replace_loop ss rest true num out dest_len
        else
          let text := if nr_regex_substrings_count ss <? num then Some (92 :: decimal num) else nr_regex_substrings_get ss num in
          match text with
          | None => replace_loop ss rest false num out dest_len
          | Some text =>
              let len := Z.of_nat (length text) in
              if dest_len <=? len then Done None else replace_loop ss rest false num (out ++ text) (dest_len - len)
          end
  end.

Definition nr_rule_replace_string (repl : option (list Z)) (dest_len : Z) (ss : option nr_regex_substrings_t) : outcome (option (list Z)) :=
  match repl with
  | None => Undefined
  | Some repl => if dest_len =? 0 then Done (Some []) else replace_loop ss (cstr repl) false 0 [] dest_len
  end.

(** ** Applying a rule *)

(** More text behind what is in the buffer. *)
Definition put (work s : list Z) : outcome (list Z) :=
  if Z.of_nat (length (work ++ s)) <? NRULE_BUF_SIZE then Done (work ++ s) else Undefined.

Definition literal (rule : nrrule_t) : list Z := default [] (replacement rule).

(** The replacement of a match, [None] for a failure. *)
Definition calculate (rule : nrrule_t) (ss : nr_regex_substrings_t) : outcome (option (list Z)) :=
  if has rule NR_RULE_HAS_CAPTURES then nr_rule_replace_string (replacement rule) NRULE_BUF_SIZE (Some ss)
  else Done (Some (literal rule)).

Definition search (rule : nrrule_t) (s : list Z) : option nr_regex_substrings_t :=
  nr_regex_match_capture (Some (regex rule)) (Some s) (Z.of_nat (length s)).

Definition apply_once (rule : nrrule_t) (str : list Z) : outcome (nr_rules_result_t * list Z) :=
  match search rule str with
  | None => Done (NR_RULES_RESULT_UNCHANGED, str)
  | Some ss =>
      match nr_regex_substrings_get_offsets (Some ss) 0 with
      | None => Done (NR_RULES_RESULT_UNCHANGED, str)
      | Some (mstart, mend) =>
          if has rule NR_RULE_IGNORE then Done (NR_RULES_RESULT_IGNORE, str)
          else
            work ← put [] (take (Z.to_nat mstart) str);
            repl ← calculate rule ss;
            match repl with
            | None => Done (NR_RULES_RESULT_UNCHANGED, str)
            | Some repl =>
                work ← put work (take (Z.to_nat (NRULE_BUF_SIZE - 1)) repl);
                work ← put work (drop (Z.to_nat mend) str);
                Done (NR_RULES_RESULT_CHANGED, work)
            end
      end
  end.

Definition not_slash (c : Z) : bool := negb (c =? 47).

(** One segment per round; [None] for a replacement that failed. *)
Fixpoint segment_loop (fuel : nat) (rule : nrrule_t) (segstart work : list Z) (changed : bool) : outcome (option (bool * list Z)) :=
  match fuel with
  | O => OutOfFuel
  | S fuel =>
      let '(segment, r) := span not_slash segstart in
      work ← put work [47];
      piece ← match search rule segment with
              | Some ss => p ← calculate rule ss; Done match p with Some p => Some (true, p) | None => None end
              | None => Done (Some (changed, segment))
              end;
      match piece with
      | None => Done None
      | Some (changed, piece) =>
          work ← put work piece;
          match r with
          | [] => Done (Some (changed, work))
          | _ :: r => segment_loop fuel rule r work changed
          end
      end
  end.

(** The first character is skipped, whatever it is.  A failure leaves the string cut at the first slash behind it. *)
Definition apply_segments (rule : nrrule_t) (str : list Z) : outcome (nr_rules_result_t * list Z) :=
  match str with
  | [] => Undefined
  | c :: segstart =>
      res ← segment_loop (S (length str)) rule segstart [] false;
      match res with
      | None => Done (NR_RULES_RESULT_UNCHANGED, c :: (span not_slash segstart).1)
      | Some (changed, work) => Done (if changed : bool then NR_RULES_RESULT_CHANGED else NR_RULES_RESULT_UNCHANGED, work)
      end
  end.

(** The replacement, calculated unless it need not be. *)
Definition needed_replacement (rule : nrrule_t) (ss : nr_regex_substrings_t) (repl : option (list Z)) : outcome (option (list Z)) :=
  match repl with
  | Some _ => Done repl
  | None => r ← calculate rule ss; match r with Some r => r ← put [] r; Done (Some r) | None => Done None end
  end.

(** The matches from [startpos] on; [repl] is the replacement when it need not be calculated again. *)
Fixpoint replace_all_loop (fuel : nat) (rule : nrrule_t) (str : list Z) (startpos : Z) (work : list Z) (repl : option (list Z)) (changed : bool) :
    outcome (option (bool * list Z)) :=
  match fuel with
  | O => OutOfFuel
  | S fuel =>
      let subject := drop (Z.to_nat startpos) str in
      match search rule subject with
      | None => work ← put work subject; Done (Some (changed, work))
      | Some ss =>
          match nr_regex_substrings_get_offsets (Some ss) 0 with
          | None => Done None
          | Some (o0, o1) =>
              let mstart := o0 + startpos in
              let mend := o1 + startpos in
              work ← put work (take (Z.to_nat (mstart - startpos)) subject);
              r ← needed_replacement rule ss repl;
              match r with
              | None => Done None
              | Some text =>
                  work ← put work text;
                  replace_all_loop fuel rule str mend work
                    (if has rule (Z.lor NR_RULE_HAS_ALTS NR_RULE_HAS_CAPTURES) then None else Some text) true
              end
          end
      end
  end.

Definition apply_all (fuel : nat) (rule : nrrule_t) (str : list Z) : outcome (nr_rules_result_t * list Z) :=
  res ← replace_all_loop fuel rule str 0 [] None false;
  match res with
  | None => Done (NR_RULES_RESULT_UNCHANGED, str)
  | Some (changed, work) => Done (if changed : bool then NR_RULES_RESULT_CHANGED else NR_RULES_RESULT_UNCHANGED, work)
  end.

(** The result, and the string the buffer then holds. *)
Definition nr_rule_apply (fuel : nat) (str : list Z) (rule : nrrule_t) : outcome (nr_rules_result_t * list Z) :=
  if has rule NR_RULE_IGNORE || (Z.land (rflags rule) (Z.lor NR_RULE_EACH_SEGMENT NR_RULE_REPLACE_ALL) =? 0) then apply_once rule str
  else if has rule NR_RULE_EACH_SEGMENT then apply_segments rule str
  else apply_all fuel rule str.

Fixpoint apply_loop (fuel : nat) (rs : list nrrule_t) (str : list Z) (changed : bool) : outcome (nr_rules_result_t * option (list Z)) :=
  match rs with
  | [] => Done (if changed then (NR_RULES_RESULT_CHANGED, Some str) else (NR_RULES_RESULT_UNCHANGED, None))
  | rule :: rs =>
      '(rv, str) ← nr_rule_apply fuel str rule;
      match rv with
      | NR_RULES_RESULT_IGNORE => Done (NR_RULES_RESULT_IGNORE, None)
      | NR_RULES_RESULT_CHANGED =>
          if has rule NR_RULE_TERMINATE then Done (NR_RULES_RESULT_CHANGED, Some str) else apply_loop fuel rs str true
      | NR_RULES_RESULT_UNCHANGED => apply_loop fuel rs str changed
      end
  end.

(** The result and the new name. *)
Definition nr_rules_apply (fuel : nat) (rs : option nrrules_t) (name : option (list Z)) : outcome (nr_rules_result_t * option (list Z)) :=
  match rs, name with
  | Some rs, Some name => apply_loop fuel (rules rs) (take (Z.to_nat (NRULE_BUF_SIZE - 1)) (cstr name)) false
  | _, _ => Done (NR_RULES_RESULT_UNCHANGED, None)
  end.

(** ** Rules of the collector *)
Definition set_flag (flag : Z) (b : bool) (flags : Z) : Z := if b then Z.lor flags flag else flags.

Definition nr_rules_process_rule (rs : option nrrules_t) (rule : obj) : option nrrules_t :=
  match rs, rule with
  | Some _, Some _ =>
      match (nro_get_hash_string rule (Some (lit "match_expression"))).1 with
      | None => rs
      | Some mstr =>
          let get name := negb (nr_reply_get_bool rule (Some name) 0 =? 0) in
          let flags := set_flag NR_RULE_EACH_SEGMENT (get (lit "each_segment")) 0 in
          let flags := set_flag NR_RULE_REPLACE_ALL (get (lit "replace_all")) flags in
          let flags := set_flag NR_RULE_IGNORE (get (lit "ignore")) flags in
          let flags := set_flag NR_RULE_TERMINATE (get (lit "terminate_chain")) flags in
          let order := nr_reply_get_int rule (Some (lit "eval_order")) NR_RULE_DEFAULT_ORDER in
          let rstr := (nro_get_hash_string rule (Some (lit "replacement"))).1 in
          if (if rstr is None then true else false) && (Z.land flags NR_RULE_IGNORE =? 0) then rs
          else
            let flags := set_flag NR_RULE_HAS_ALTS (if nr_strchr (Some mstr) 124 is Some _ then true else false) flags in
            let captures :=
              match rstr with
              | None => false
              | Some r => match nr_strchr (Some r) 92 with Some i => nr_isdigit (char_at r (i + 1)) | None => false end
              end in
            let flags := set_flag NR_RULE_HAS_CAPTURES captures flags in
            (nr_rules_add rs flags order (Some mstr) rstr).2
      end
  | _, _ => rs
  end.

Definition nr_rules_create_from_obj `{QsortR} (o : obj) : option nrrules_t :=
  match nro_type o with
  | NR_OBJECT_ARRAY =>
      let nrules := nro_getsize o in
      let rs := foldl (λ rs i, nr_rules_process_rule rs (nro_get_array_value o (Z.of_nat i)).1)
                  (Some (nr_rules_create nrules)) (seq 1 (Z.to_nat nrules)) in
      nr_rules_sort rs
  | _ => None
  end.

(** ** What rules are to do *)

(** A captured group in a replacement; a backslash stands for the number that follows, from the character behind it on. *)
Definition captured (ss : nr_regex_substrings_t) (num : Z) : list Z :=
  if nr_regex_substrings_count (Some ss) <? num then 92 :: decimal num else default [] (nr_regex_substrings_get (Some ss) num).

Fixpoint expand_loop (fuel : nat) (ss : nr_regex_substrings_t) (s : list Z) : list Z :=
  match fuel, s with
  | S fuel, c :: r =>
      if c =? 92 then
        match r with
        | [] => []
        | d :: r =>
            let '(ds, rest) := span nr_isdigit r in
            captured ss (of_decimal (if nr_isdigit d then d :: ds else ds)) ++ expand_loop fuel ss rest
        end
      else c :: expand_loop fuel ss r
  | _, _ => []
  end.
Definition expand (ss : nr_regex_substrings_t) (s : list Z) : list Z := expand_loop (length s) ss s.

Definition substitute (rule : nrrule_t) (ss : nr_regex_substrings_t) : list Z :=
  if has rule NR_RULE_HAS_CAPTURES then expand ss (literal rule) else literal rule.

(** The match at the leftmost place: the text before it, its groups, the text behind it. *)
Definition first_match (rule : nrrule_t) (s : list Z) : option (list Z * nr_regex_substrings_t * list Z) :=
  ss ← search rule s;
  '(o0, o1) ← nr_regex_substrings_get_offsets (Some ss) 0;
  Some (take (Z.to_nat o0) s, ss, drop (Z.to_nat o1) s).

Definition replace_first (rule : nrrule_t) (s : list Z) : bool * list Z :=
  match first_match rule s with
  | Some (pre, ss, post) => (true, pre ++ substitute rule ss ++ post)
  | None => (false, s)
  end.

Definition replace_segment (rule : nrrule_t) (segment : list Z) : list Z :=
  match search rule segment with Some ss => substitute rule ss | None => segment end.
Definition matches (rule : nrrule_t) (segment : list Z) : bool := if search rule segment is Some _ then true else false.
Definition replace_segments (rule : nrrule_t) (s : list Z) : bool * list Z :=
  let segments := pieces [47] (drop 1 s) in
  (existsb (matches rule) segments, flat_map (λ x, 47 :: replace_segment rule x) segments).

(** As many rounds as the string has characters, for matches that are not empty. *)
Fixpoint replace_every (fuel : nat) (rule : nrrule_t) (s : list Z) : list Z :=
  match fuel, first_match rule s with
  | S fuel, Some (pre, ss, post) => pre ++ substitute rule ss ++ replace_every fuel rule post
  | _, _ => s
  end.

Inductive action := Ignore | Once | Segments | All.
Definition action_of (rule : nrrule_t) : action :=
  if has rule NR_RULE_IGNORE then Ignore
  else if has rule NR_RULE_EACH_SEGMENT then Segments
  else if has rule NR_RULE_REPLACE_ALL then All
  else Once.

Definition rewrite_name (rule : nrrule_t) (s : list Z) : bool * list Z :=
  match action_of rule with
  | Ignore => (matches rule s, s)
  | Once => replace_first rule s
  | Segments => replace_segments rule s
  | All => (matches rule s, replace_every (length s) rule s)
  end.

(** One rule after the other, up to one that ignores the name or ends the chain. *)
Fixpoint rename (rs : list nrrule_t) (s : list Z) (changed : bool) : nr_rules_result_t * option (list Z) :=
  match rs with
  | [] => if changed then (NR_RULES_RESULT_CHANGED, Some s) else (NR_RULES_RESULT_UNCHANGED, None)
  | rule :: rs =>
      let '(found, s) := rewrite_name rule s in
      if found then
        match action_of rule with
        | Ignore => (NR_RULES_RESULT_IGNORE, None)
        | _ => if has rule NR_RULE_TERMINATE then (NR_RULES_RESULT_CHANGED, Some s) else rename rs s true
        end
      else rename rs s changed
  end.

(** Names that fit the buffers on the way. *)
Fixpoint renames_fit (rs : list nrrule_t) (s : list Z) : Prop :=
  match rs with
  | [] => True
  | rule :: rs =>
      let s' := (rewrite_name rule s).2 in
      Z.of_nat (length s') < NRULE_BUF_SIZE ∧ (action_of rule = Segments → s ≠ []) ∧ renames_fit rs s'
  end.

(** Numbers of few digits in a replacement. *)
Definition short_numbers (s : list Z) : Prop := ∀ k, (length (span nr_isdigit (drop k s)).1 ≤ 9)%nat.

Record rule_ok (rule : nrrule_t) : Prop := {
  ro_literal : is_cstr (literal rule);
  ro_numbers : short_numbers (literal rule);
  ro_captures : has rule NR_RULE_HAS_CAPTURES = true → replacement rule ≠ None;
  ro_offsets : ∀ s ss o0 o1, action_of rule = All → search rule s = Some ss →
    nr_regex_substrings_get_offsets (Some ss) 0 = Some (o0, o1) → 0 ≤ o0 ∧ 0 < o1 ≤ Z.of_nat (length s);
}.

(** ** The replacement *)
Definition digits_from (num : Z) (ds : list Z) : Z := foldl (λ x c, x * 10 + (c - 48)) num ds.

Lemma digits_from_bounds num ds : 0 ≤ num → Forall (λ c, nr_isdigit c = true) ds →
  num ≤ digits_from num ds ∧ digits_from num ds < (num + 1) * 10 ^ Z.of_nat (length ds).
Proof.
  intros Hn Hds. revert num Hn. induction Hds as [|c ds Hc _ IH]; intros num Hn; [simpl; lia|].
  change (digits_from num (c :: ds)) with (digits_from (num * 10 + (c - 48)) ds). unfold nr_isdigit in Hc.
  destruct (IH (num * 10 + (c - 48))) as [H1 H2]; [lia|]. split; [lia|].
  replace (Z.of_nat (length (c :: ds))) with (1 + Z.of_nat (length ds)) by (simpl; lia). rewrite Z.pow_add_r by lia.
  assert (0 < 10 ^ Z.of_nat (length ds)) by (apply Z.pow_pos_nonneg; lia). change (10 ^ 1) with 10. nia.
Qed.

Lemma span_digits s : Forall (λ c, nr_isdigit c = true) (span nr_isdigit s).1.
Proof. induction s as [|c s IH]; simpl; [apply Forall_nil_2|]. destruct (nr_isdigit c) eqn:E; [|apply Forall_nil_2]. destruct (span nr_isdigit s). by apply Forall_cons_2. Qed.

(** One character behind a backslash: inside the number, and at its end. *)
Lemma replace_digit ss d r num out dest_len : let n := digits_from num (if nr_isdigit d then [d] else []) in
  nr_isdigit (char_at r 0) = true → n < 2 ^ 31 →
  replace_loop (Some ss) (d :: r) true num out dest_len = replace_loop (Some ss) r true n out dest_len.
Proof.
  intros n Hr Hn. cbn [replace_loop negb]. assert ((if nr_isdigit d then num * 10 + (d - 48) else num) = n) as -> by (subst n; by destruct (nr_isdigit d)).
  destruct (Z.leb_spec (2 ^ 31) n); [lia|]. by rewrite Hr.
Qed.

Lemma replace_end ss d r num out dest_len : let n := digits_from num (if nr_isdigit d then [d] else []) in
  nr_isdigit (char_at r 0) = false → n < 2 ^ 31 → Z.of_nat (length (captured ss n)) < dest_len →
  replace_loop (Some ss) (d :: r) true num out dest_len =
    replace_loop (Some ss) r false n (out ++ captured ss n) (dest_len - Z.of_nat (length (captured ss n))).
Proof.
  intros n Hr Hn Hl. cbn [replace_loop negb]. assert ((if nr_isdigit d then num * 10 + (d - 48) else num) = n) as -> by (subst n; by destruct (nr_isdigit d)).
  destruct (Z.leb_spec (2 ^ 31) n); [lia|]. rewrite Hr. cbv iota. unfold captured in *.
  destruct (nr_regex_substrings_count (Some ss) <? n).
  - destruct (Z.leb_spec dest_len (Z.of_nat (length (92 :: decimal n)))); [lia|done].
  - destruct (nr_regex_substrings_get (Some ss) n) as [t|]; cbn [default from_option id] in *.
    + unfold id in *. destruct (Z.leb_spec dest_len (Z.of_nat (length t))); [lia|done].
    + by rewrite app_nil_r, Z.sub_0_r.
Qed.

(** From the character behind a backslash to the end of the number. *)
Lemma replace_number ss out dest_len : ∀ r d num, 0 ≤ num →
  let n := digits_from num (if nr_isdigit d then d :: (span nr_isdigit r).1 else (span nr_isdigit r).1) in
  n < 2 ^ 31 → Z.of_nat (length (captured ss n)) < dest_len →
  replace_loop (Some ss) (d :: r) true num out dest_len =
    replace_loop (Some ss) (span nr_isdigit r).2 false n (out ++ captured ss n) (dest_len - Z.of_nat (length (captured ss n))).
Proof.
  induction r as [|d' r IH]; intros d num Hn n Hb Hl; [by apply replace_end|]. subst n. cbn [span] in *.
  destruct (nr_isdigit d') eqn:Ed'; [|by apply replace_end].
  specialize (IH d' (digits_from num (if nr_isdigit d then [d] else []))). rewrite Ed' in IH.
  pose proof (span_digits r) as Hds. destruct (span nr_isdigit r) as [ds rest]. cbn [fst snd] in *.
  assert (0 ≤ digits_from num (if nr_isdigit d then [d] else [])) as H0.
  { apply (Z.le_trans _ num); [done|]. apply digits_from_bounds; [done|]. destruct (nr_isdigit d) eqn:E; [by apply Forall_singleton|apply Forall_nil_2]. }
  assert (digits_from num (if nr_isdigit d then d :: d' :: ds else d' :: ds) =
    digits_from (digits_from num (if nr_isdigit d then [d] else [])) (d' :: ds)) as E by by destruct (nr_isdigit d).
  rewrite E in *. rewrite replace_digit; [by apply IH|done|].
  destruct (digits_from_bounds _ (d' :: ds) H0 ltac:(by apply Forall_cons_2)). lia.
Qed.

Lemma short_numbers_drop n s : short_numbers s → short_numbers (drop n s).
Proof. intros Hs k. rewrite drop_drop. apply Hs. Qed.

Lemma span_split (p : Z → bool) s : (span p s).1 ++ (span p s).2 = s.
Proof. induction s as [|c s IH]; [done|]. simpl. destruct (p c); [|done]. destruct (span p s). simpl in *. by rewrite IH. Qed.

Lemma replace_loop_expand fuel ss : ∀ repl num out dest_len, (length repl ≤ fuel)%nat → short_numbers repl →
  Z.of_nat (length (expand_loop fuel ss repl)) < dest_len →
  replace_loop (Some ss) repl false num out dest_len = Done (Some (out ++ expand_loop fuel ss repl)).
Proof.
  induction fuel as [|fuel IH]; intros repl num out dest_len Hf Hs Hl; destruct repl as [|c r]; try (simpl in Hf; lia).
  - simpl in *. destruct (Z.leb_spec dest_len 0); [lia|]. by rewrite app_nil_r.
  - simpl in *. destruct (Z.leb_spec dest_len 0); [lia|]. by rewrite app_nil_r.
  - cbn [replace_loop negb expand_loop] in *. destruct (c =? 92).
    + destruct r as [|d r].
      { simpl in *. destruct (Z.leb_spec dest_len 0); [lia|]. by rewrite app_nil_r. }
      pose proof (replace_number ss out dest_len r d 0 ltac:(done)) as Hn. pose proof (Hs 1%nat) as Hs1. cbn [drop] in Hs1.
      pose proof (Hs 2%nat) as Hs2. change (drop 2 _) with (drop 0 r) in Hs2. rewrite drop_0 in Hs2. pose proof (span_digits r) as Hds. pose proof (span_split nr_isdigit r) as Esp. cbn [span] in Hs1.
      destruct (span nr_isdigit r) as [ds rest] eqn:Er. cbn [fst snd] in *. cbv zeta in Hn.
      change (digits_from 0 (if nr_isdigit d then d :: ds else ds)) with (of_decimal (if nr_isdigit d then d :: ds else ds)) in Hn.
      set (n := of_decimal _) in *. rewrite length_app in Hl.
      assert (n < 2 ^ 31) as Hn31.
      { destruct (digits_from_bounds 0 (if nr_isdigit d then d :: ds else ds) ltac:(done)) as [_ Hb];
          [destruct (nr_isdigit d) eqn:E; [by apply Forall_cons_2|done]|].
        assert (10 ^ Z.of_nat (length (if nr_isdigit d then d :: ds else ds)) ≤ 10 ^ 9).
        { apply Z.pow_le_mono_r; [done|]. clear -Hs1 Hs2. destruct (nr_isdigit d); cbn [length fst] in *; lia. }
        change (digits_from 0 _) with n in Hb. lia. }
      rewrite Hn by lia.
      assert (rest = drop (length ds) r) as Erest by (rewrite <-Esp; by rewrite drop_app_length).
      rewrite IH; [by rewrite <-app_assoc| | |lia].
      * simpl in Hf. rewrite Erest, length_drop. lia.
      * rewrite Erest. apply short_numbers_drop. intros k. apply (Hs (S (S k))).
    + simpl in Hl. destruct (Z.ltb_spec 0 dest_len); [|lia]. rewrite IH; [by rewrite <-app_assoc|simpl in Hf; lia|intros k; apply (Hs (S k))|lia].
Qed.

Lemma calculate_substitute rule ss : rule_ok rule → Z.of_nat (length (substitute rule ss)) < NRULE_BUF_SIZE →
  calculate rule ss = Done (Some (substitute rule ss)).
Proof.
  intros [Hl Hs Hc _] Hlen. unfold calculate, substitute in *. destruct (has rule NR_RULE_HAS_CAPTURES); [|done].
  unfold nr_rule_replace_string, literal in *. destruct (replacement rule) as [r|]; [|by destruct Hc]. simpl in *.
  rewrite cstr_id by done. by apply (replace_loop_expand (length r) ss r 0 []).
Qed.
(** ** Each way of applying a rule *)
Lemma put_fits work s : Z.of_nat (length (work ++ s)) < NRULE_BUF_SIZE → put work s = Done (work ++ s).
Proof. unfold put. intros. by destruct (Z.ltb_spec (Z.of_nat (length (work ++ s))) NRULE_BUF_SIZE); [|lia]. Qed.

Lemma search_offsets rule s ss : search rule s = Some ss →
  nr_regex_substrings_get_offsets (Some ss) 0 = Some (char_at (ovector ss) 0, char_at (ovector ss) 1).
Proof.
  unfold search, nr_regex_match_capture. destruct (Z.ltb_spec (Z.of_nat (length s)) 0); [lia|].
  destruct (nr_regex_substrings_create _ _) as [size|]; [|done]. cbn [mbind option_bind].
  destruct (pcre_exec _ _ size) as [rc ov]. destruct (Z.leb_spec rc 0); [done|]. intros [= <-].
  unfold nr_regex_substrings_get_offsets. cbn [mbind option_bind ss_capture_count ovector]. by destruct (Z.ltb_spec (rc - 1) 0); [lia|].
Qed.

Lemma first_match_search rule s : first_match rule s =
  match search rule s with
  | Some ss => Some (take (Z.to_nat (char_at (ovector ss) 0)) s, ss, drop (Z.to_nat (char_at (ovector ss) 1)) s)
  | None => None
  end.
Proof. unfold first_match. destruct (search rule s) as [ss|] eqn:E; [|done]. cbn [mbind option_bind]. by rewrite (search_offsets rule s ss E). Qed.

(** What a rule that does not ignore names reports. *)
Definition reported (found : bool) (s : list Z) : outcome (nr_rules_result_t * list Z) :=
  Done (if found then NR_RULES_RESULT_CHANGED else NR_RULES_RESULT_UNCHANGED, s).
Definition fits (s : list Z) : Prop := Z.of_nat (length s) < NRULE_BUF_SIZE.

Lemma apply_once_ignores rule s : has rule NR_RULE_IGNORE = true →
  apply_once rule s = Done (if matches rule s then NR_RULES_RESULT_IGNORE else NR_RULES_RESULT_UNCHANGED, s).
Proof.
  intros Hi. unfold apply_once, matches. destruct (search rule s) as [ss|] eqn:E; [|done]. by rewrite (search_offsets rule s ss E), Hi.
Qed.

Lemma apply_once_replaces rule s : rule_ok rule → has rule NR_RULE_IGNORE = false → fits (replace_first rule s).2 →
  apply_once rule s = reported (replace_first rule s).1 (replace_first rule s).2.
Proof.
  intros Hok Hi. unfold apply_once, replace_first. rewrite first_match_search.
  destruct (search rule s) as [ss|] eqn:E; [|done]. rewrite (search_offsets rule s ss E), Hi. cbn [fst snd]. unfold fits. rewrite !length_app.
  intros Hf. rewrite put_fits by (simpl; lia). cbn [mbind outcome_bind app]. rewrite calculate_substitute by (done || lia).
  cbn [mbind outcome_bind]. rewrite (take_ge (substitute rule ss)) by (unfold NRULE_BUF_SIZE in *; lia). rewrite put_fits by (rewrite length_app; lia).
  cbn [mbind outcome_bind]. rewrite put_fits by (rewrite !length_app; lia). cbn [mbind outcome_bind]. by rewrite <-app_assoc.
Qed.

Lemma pieces_span s : pieces [47] s = (span not_slash s).1 :: match (span not_slash s).2 with [] => [] | _ :: r => pieces [47] r end.
Proof.
  induction s as [|c s IH]; [done|]. cbn [pieces span]. unfold not_slash at 1 3. case_bool_decide as E.
  - apply list_elem_of_singleton in E as ->. done.
  - destruct (Z.eqb_spec c 47) as [->|Hc]; [by destruct E; apply list_elem_of_singleton|]. cbn [negb]. rewrite IH. by destruct (span not_slash s).
Qed.

Lemma segment_loop_replaces rule fuel : rule_ok rule → ∀ segstart work changed, (length segstart < fuel)%nat →
  let segments := pieces [47] segstart in
  let result := work ++ flat_map (λ x, 47 :: replace_segment rule x) segments in
  fits result → segment_loop fuel rule segstart work changed = Done (Some (changed || existsb (matches rule) segments, result)).
Proof.
  intros Hok. induction fuel as [|fuel IH]; intros segstart work changed Hf segments result Hl; [lia|]. subst segments result. unfold fits in Hl.
  pose proof (length_span not_slash segstart) as Hs. cbn [segment_loop]. rewrite pieces_span in *.
  destruct (span not_slash segstart) as [segment r]. cbn [fst snd flat_map existsb] in *. rewrite !length_app in Hl. cbn [length] in Hl.
  rewrite put_fits by (rewrite length_app; simpl; lia). cbn [mbind outcome_bind].
  unfold replace_segment in Hl at 1. unfold replace_segment at 1. unfold matches at 1.
  destruct (search rule segment) as [ss|]; [rewrite calculate_substitute by (done || lia)|]; cbn [mbind outcome_bind].
  1,2: rewrite put_fits by (rewrite !length_app; simpl; lia); cbn [mbind outcome_bind].
  1,2: destruct r as [|c r]; [cbn [flat_map existsb]; rewrite app_nil_r, <-app_assoc; by destruct changed|].
  1,2: cbn [length] in Hs; rewrite IH; [|lia|unfold fits; rewrite !length_app; simpl; lia].
  1,2: rewrite <-!app_assoc; by destruct changed.
Qed.

Lemma apply_segments_replaces rule s : rule_ok rule → s ≠ [] → fits (replace_segments rule s).2 →
  apply_segments rule s = reported (replace_segments rule s).1 (replace_segments rule s).2.
Proof.
  intros Hok Hs Hf. destruct s as [|c s]; [done|]. unfold apply_segments, replace_segments in *. cbn [drop fst snd] in *.
  by rewrite (segment_loop_replaces rule _ Hok s [] false) by (simpl; lia || done).
Qed.

Lemma has_none rule a b : has rule (Z.lor a b) = false → has rule a = false ∧ has rule b = false.
Proof.
  unfold has. rewrite Z.land_lor_distr_r. intros [E1 E2]%negb_false_iff%Z.eqb_eq%Z.lor_eq_0_iff. by rewrite E1, E2.
Qed.

Lemma replace_all_loop_replaces rule str : rule_ok rule → action_of rule = All →
  ∀ n fuel startpos work repl changed, let subject := drop (Z.to_nat startpos) str in
  0 ≤ startpos ≤ Z.of_nat (length str) → (length subject ≤ n)%nat → (n < fuel)%nat →
  (∀ text, repl = Some text → has rule NR_RULE_HAS_CAPTURES = false ∧ text = literal rule) →
  fits (work ++ replace_every n rule subject) →
  replace_all_loop fuel rule str startpos work repl changed =
    Done (Some (changed || matches rule subject, work ++ replace_every n rule subject)).
Proof.
  intros Hok Hall. induction n as [|n IH]; intros fuel startpos work repl changed subject Hp Hn Hf Hr Hl; (destruct fuel as [|fuel]; [lia|]);
    cbn [replace_all_loop]; fold subject; unfold matches; cbn [replace_every] in Hl |- *; unfold fits in Hl.
  { destruct (search rule subject) as [ss|] eqn:E.
    - pose proof (ro_offsets rule Hok subject ss _ _ Hall E (search_offsets _ _ _ E)). lia.
    - rewrite put_fits by done. cbn [mbind outcome_bind]. by rewrite orb_false_r. }
  rewrite first_match_search in Hl |- *. destruct (search rule subject) as [ss|] eqn:E.
  2:{ rewrite put_fits by done. cbn [mbind outcome_bind]. by rewrite orb_false_r. }
  rewrite (search_offsets _ _ _ E). destruct (ro_offsets rule Hok subject ss _ _ Hall E (search_offsets _ _ _ E)) as [Ho0 Ho1].
  set (o0 := char_at _ 0) in *. set (o1 := char_at _ 1) in *.
  replace (o0 + startpos - startpos) with o0 by lia.
  assert (drop (Z.to_nat o1) subject = drop (Z.to_nat (o1 + startpos)) str) as Ed.
  { subst subject. rewrite drop_drop. f_equal. lia. }
  assert (length subject = length str - Z.to_nat startpos)%nat as Hsub by (subst subject; apply length_drop).
  rewrite Ed in *. rewrite !length_app in Hl. rewrite put_fits by (rewrite length_app; lia). cbn [mbind outcome_bind].
  assert (needed_replacement rule ss repl = Done (Some (substitute rule ss))) as ->.
  { destruct repl as [text|].
    - destruct (Hr text eq_refl) as [Hc ->]. unfold substitute. by rewrite Hc.
    - unfold needed_replacement. rewrite calculate_substitute by (done || (unfold NRULE_BUF_SIZE in *; lia)). cbn [mbind outcome_bind]. by rewrite put_fits by (simpl; lia). }
  cbn [mbind outcome_bind]. rewrite put_fits by (rewrite !length_app; lia). cbn [mbind outcome_bind].
  rewrite (IH fuel (o1 + startpos)); [by rewrite orb_true_r, <-!app_assoc|lia|rewrite length_drop; lia|lia| |].
  - intros text. destruct (has rule (Z.lor NR_RULE_HAS_ALTS NR_RULE_HAS_CAPTURES)) eqn:Ec; [done|]. intros [= <-].
    destruct (has_none _ _ _ Ec) as [_ Hc]. split; [done|]. unfold substitute. by rewrite Hc.
  - unfold fits. rewrite !length_app. lia.
Qed.

Lemma nr_rule_apply_rewrites fuel rule s : rule_ok rule → fits s → (2048 ≤ fuel)%nat →
  fits (rewrite_name rule s).2 → (action_of rule = Segments → s ≠ []) →
  nr_rule_apply fuel s rule = 
    match action_of rule with
    | Ignore => Done (if (rewrite_name rule s).1 then NR_RULES_RESULT_IGNORE else NR_RULES_RESULT_UNCHANGED, s)
    | _ => reported (rewrite_name rule s).1 (rewrite_name rule s).2
    end.
Proof.
  intros Hok Hs Hfuel Hf Hseg. unfold nr_rule_apply, rewrite_name in *.
  assert ((Z.land (rflags rule) (Z.lor NR_RULE_EACH_SEGMENT NR_RULE_REPLACE_ALL) =? 0) =
    negb (has rule NR_RULE_EACH_SEGMENT) && negb (has rule NR_RULE_REPLACE_ALL)) as ->.
  { unfold has. rewrite Z.land_lor_distr_r, !negb_involutive. apply eq_true_iff_eq. rewrite andb_true_iff, !Z.eqb_eq. apply Z.lor_eq_0_iff. }
  destruct (action_of rule) eqn:Ea; unfold action_of in Ea; destruct (has rule NR_RULE_IGNORE) eqn:Ei;
    destruct (has rule NR_RULE_EACH_SEGMENT) eqn:Ee; destruct (has rule NR_RULE_REPLACE_ALL) eqn:Er; try discriminate Ea; cbn [orb negb andb fst snd] in *.
  1-4: by apply apply_once_ignores.
  - by apply apply_once_replaces.
  - by apply apply_segments_replaces; [|apply Hseg|].
  - by apply apply_segments_replaces; [|apply Hseg|].
  - unfold apply_all, fits, NRULE_BUF_SIZE in *. rewrite (replace_all_loop_replaces rule s Hok) with (n := length s); 
      [done|unfold action_of; by rewrite Ei, Ee, Er|lia|by rewrite drop_0|lia|done|by rewrite drop_0].
Qed.

Lemma apply_loop_renames fuel : (2048 ≤ fuel)%nat → ∀ rs s changed, Forall rule_ok rs → fits s → renames_fit rs s →
  apply_loop fuel rs s changed = Done (rename rs s changed).
Proof.
  intros Hfuel rs. induction rs as [|rule rs IH]; intros s changed Hrs Hs Hf; [cbn [apply_loop rename]; by destruct changed|].
  apply Forall_cons in Hrs as [Hr Hrs]. cbn [renames_fit] in Hf. destruct Hf as (Hf & Hseg & Hfs). cbn [apply_loop rename].
  rewrite nr_rule_apply_rewrites by done. unfold rewrite_name in *.
  destruct (action_of rule); cbn [fst snd] in *.
  - destruct (matches rule s); cbn [mbind outcome_bind]; [done|by apply IH].
  - destruct (replace_first rule s) as [[] s']; cbn [fst snd reported mbind outcome_bind] in *; [destruct (has rule _); [done|]|]; by apply IH.
  - destruct (replace_segments rule s) as [[] s']; cbn [fst snd reported mbind outcome_bind] in *; [destruct (has rule _); [done|]|]; by apply IH.
  - destruct (matches rule s); cbn [fst snd reported mbind outcome_bind] in *; [destruct (has rule _); [done|]|]; by apply IH.
Qed.

(** An empty match that is replaced by nothing is found over and over. *)
Lemma replace_all_empty_match rule str ss : search rule str = Some ss → char_at (ovector ss) 0 = 0 → char_at (ovector ss) 1 = 0 →
  calculate rule ss = Done (Some []) → ∀ fuel repl changed, default [] repl = [] →
  replace_all_loop fuel rule str 0 [] repl changed = OutOfFuel.
Proof.
  intros Hs H0 H1 Hc. induction fuel as [|fuel IH]; intros repl changed Hr; [done|]. cbn [replace_all_loop]. rewrite drop_0, Hs.
  rewrite (search_offsets _ _ _ Hs), H0, H1. cbn [Z.add Z.sub Z.opp Z.to_nat take]. rewrite put_fits by done. cbn [mbind outcome_bind app].
  assert (needed_replacement rule ss repl = Done (Some [])) as ->.
  { destruct repl as [r|]; [by simpl in Hr; rewrite Hr|]. unfold needed_replacement. by rewrite Hc. }
  cbn [mbind outcome_bind]. rewrite put_fits by done. cbn [mbind outcome_bind app]. apply IH. by destruct (has rule _).
Qed.

(** C23: a name is renamed by the rules in their order, as their description
    says: a rule that ignores names ends the renaming where it matches; one
    without a flag has its leftmost match replaced; one for each segment has
    every segment that matches replaced; one for all has its matches replaced
    from left to right; and a rule that ends the chain is the last that applies.
    Captured groups are put in for their numbers.  This is so for names that fit
    the buffers on the way, for a loop of 2048 rounds. *)
Theorem nr_rules_apply_renames fuel rs name : (2048 ≤ fuel)%nat → Forall rule_ok (rules rs) →
  let s := take 2047 (cstr name) in
  renames_fit (rules rs) s → nr_rules_apply fuel (Some rs) (Some name) = Done (rename (rules rs) s false).
Proof.
  intros Hfuel Hrs s Hf. unfold nr_rules_apply. apply apply_loop_renames; [done|done| |done].
  subst s. unfold fits, NRULE_BUF_SIZE. rewrite length_take. lia.
Qed.
End rules.

(** ** An instance of the library: the expressions that find one character, in a group *)
Definition one_char_exec (c : Z) (s : list Z) : Z * list Z :=
  match list_find (eq c) s with
  | Some (i, _) => let i := Z.of_nat i in (2, [i; i + 1; i; i + 1; 0; 0])
  | None => (PCRE_ERROR_NOMATCH, replicate 6 0)
  end.

#[export] Instance one_char : Pcre := {|
  pcre := Z;
  pcre_compile p _ := match p with [40; c; 41] => Some c | _ => None end;
  pcre_study_fails _ := false;
  pcre_capture_count _ := Some 1;
  pcre_exec c s _ := one_char_exec c s;
  pcre_get_stringnumber _ _ := PCRE_ERROR_NOSUBSTRING;
|}.

Definition example_rule (flags c : Z) (repl : option (list Z)) : nrrule_t := Rule flags 1 (nr_strdup (Some [40; c; 41])) repl (Regex c 1).

Lemma short_numbers_computed (s : list Z) : Forall (λ k, (length (span nr_isdigit (drop k s)).1 ≤ 9)%nat) (seq 0 (length s)) → short_numbers s.
Proof.
  intros Hs k. destruct (decide (k < length s)%nat) as [Hk|Hk]; [|rewrite drop_ge by lia; simpl; lia].
  rewrite Forall_forall in Hs. apply Hs. apply elem_of_seq. lia.
Qed.

Lemma example_rule_ok flags c repl : default [] repl = lit "<\1>" ∨ default [] repl = lit "*" ∨ default [] repl = [] →
  (has (example_rule flags c repl) NR_RULE_HAS_CAPTURES = true → repl ≠ None) → rule_ok (example_rule flags c repl).
Proof.
  intros Hrepl Hc. constructor; [| |done|].
  - unfold literal, is_cstr. cbn [replacement example_rule]. destruct Hrepl as [->|[->| ->]]; by apply (bool_decide_unpack _).
  - apply short_numbers_computed. unfold literal. cbn [replacement example_rule].
    destruct Hrepl as [->|[->| ->]]; by apply (bool_decide_unpack _).
  - intros s ss o0 o1 _ Hss Ho. pose proof (search_offsets _ _ _ Hss) as E. rewrite Ho in E. injection E as -> ->. revert Hss.
    unfold search, nr_regex_match_capture. destruct (Z.ltb_spec (Z.of_nat (length s)) 0); [done|]. cbn [example_rule regex capture_count code].
    change (nr_regex_substrings_create _ 1) with (Some 6). cbn [mbind option_bind pcre_exec one_char]. unfold one_char_exec.
    rewrite Nat2Z.id, firstn_all. destruct (list_find (eq c) s) as [[i x]|] eqn:E; [|done]. intros [= <-].
    apply list_find_Some in E as (E & _ & _). apply lookup_lt_Some in E. cbn [ovector]. unfold char_at. simpl. lia.
Qed.

(** A rule for all matches with captures, one for the segments, one for a match that ends the chain, and one that is then not tried. *)
Definition example_rules : nrrules_t := Rules 8
  [example_rule (Z.lor NR_RULE_REPLACE_ALL NR_RULE_HAS_CAPTURES) 97 (Some (lit "<\1>"));
   example_rule NR_RULE_EACH_SEGMENT 120 (Some (lit "*"));
   example_rule NR_RULE_TERMINATE 98 None;
   example_rule NR_RULE_IGNORE 47 None].

Lemma nr_rules_apply_renames_witness :
  nr_rules_apply 2048 (Some example_rules) (Some (lit "/abba/x1/user")) = Done (NR_RULES_RESULT_CHANGED, Some (lit "/<a>b<a>/*/user")).
Proof.
  rewrite (nr_rules_apply_renames 2048 example_rules (lit "/abba/x1/user")); [vm_compute; reflexivity|lia| |].
  - repeat (apply Forall_cons_2; [apply example_rule_ok; [vm_compute; tauto|vm_compute; congruence]|]). apply Forall_nil_2.
  - vm_compute. repeat split; discriminate.
Defined.
