(* ===== verification/SegmentTerms.v ===== *)
(** * SegmentTerms: the segments of a name that are kept (src/axiom/nr_segment_terms.c)

    A rule has a prefix of two segments and the terms that may stay behind it.
    Every other segment becomes a star, a run of them one star. *)

From S2P Require Import Prelude Memory CString Strings Buffer Object StringSplit TraceContext Regex.
Local Open Scope Z_scope.

(** A prefix and its terms. *)
Abbreviation rule_text := (list Z * list (list Z))%type.

Section terms.
Context `{Pcre} `{Allocator Z}.

Record nr_segment_terms_rule_t := TermsRule {
  prefix : list Z;
  prefix_len : Z;
  re : nr_regex_t;
}.

Record nr_segment_terms_t := SegmentTerms {
  capacity : Z;
  terms_rules : list nr_segment_terms_rule_t;
}.

Definition nr_segment_terms_create (size : Z) : option nr_segment_terms_t := if size <=? 0 then None else Some (SegmentTerms size []).

(** ** The expression *)
Definition add_term (terms : obj) (buf : option nrbuf_t) (i : nat) : option nrbuf_t :=
  match (nro_get_array_string terms (Z.of_nat i + 1)).1 with
  | None => buf
  | Some term =>
      let term_len := nr_strlen (Some term) in
      if term_len =? 0 then buf
      else
        let buf := if (i =? 0)%nat then nr_buffer_add buf (Some (lit "(")) 1 else nr_buffer_add buf (Some (lit "|(")) 2 in
        let buf := nr_regex_add_quoted_to_buffer buf (Some term) term_len in
        nr_buffer_add buf (Some (lit ")")) 1
  end.

Definition nr_segment_terms_rule_build_regex (terms : obj) : option (list Z) :=
  match nro_type terms with
  | NR_OBJECT_ARRAY =>
      let terms_len := nro_getsize terms in
      if terms_len =? 0 then Some (nr_strdup (Some (lit "$.")))
      else
        let buf := foldl (add_term terms) (Some (nr_buffer_create 0 0)) (seq 0 (Z.to_nat terms_len)) in
        let buf := nr_buffer_add buf (Some [0]) 1 in
        Some (nr_buffer_use buf (nr_buffer_len buf)).1.2
  | _ => None
  end.

(** ** A rule *)
Definition nr_segment_terms_rule_create (prefix : option (list Z)) (terms : obj) : option nr_segment_terms_rule_t :=
  match prefix with
  | None => None
  | Some p =>
      if char_at p 0 =? 0 then None
      else
        let prefix_len := nr_strlen prefix in
        let whole := if char_at p (prefix_len - 1) =? 47 then nr_strdup prefix else cstr p ++ [47] in
        let prefix_len := nr_strlen (Some whole) in
        if negb (nr_str_char_count (Some whole) 47 =? 2) then None
        else
          regex ← nr_segment_terms_rule_build_regex terms;
          re ← nr_regex_create (Some regex) (Z.lor NR_REGEX_ANCHORED NR_REGEX_CASELESS) true;
          Some (TermsRule whole prefix_len re)
  end.

(** One segment: the buffer, and whether the last one was replaced. *)
Definition apply_segment (rule : nr_segment_terms_rule_t) (segments : obj) (st : option nrbuf_t * bool) (i : nat) : option nrbuf_t * bool :=
  let '(buf, previous_replaced) := st in
  let s := (nro_get_array_string segments (Z.of_nat i + 1)).1 in
  let segment_len := nr_strlen s in
  let requires_delimiter := (0 <? i)%nat in
  let matched := (0 <? segment_len) && nr_regex_match (Some (re rule)) s segment_len in
  if negb matched then
    (if negb previous_replaced then
       nr_buffer_add (if requires_delimiter then nr_buffer_add buf (Some (lit "/")) 1 else buf) (Some (lit "*")) 1
     else buf, true)
  else (nr_buffer_add (if requires_delimiter then nr_buffer_add buf (Some (lit "/")) 1 else buf) s (nr_strlen s), false).

Definition nr_segment_terms_rule_apply (rule : option nr_segment_terms_rule_t) (name : option (list Z)) : option (list Z) :=
  match rule, name with
  | Some rule, Some n =>
      if char_at n 0 =? 0 then None
      else
        let name_len := nr_strlen name in
        if name_len <? prefix_len rule then None
        else if negb (nr_strnicmp name (Some (prefix rule)) (prefix_len rule) =? 0) then None
        else if char_at n (prefix_len rule) =? 0 then Some (nr_strdup name)
        else
          let segments := nr_strsplit (Some (drop (Z.to_nat (prefix_len rule)) n)) (Some (lit "/")) true in
          let segment_count := nro_getsize segments in
          match segments with
          | None => None
          | Some _ =>
              let buf := nr_buffer_add (Some (nr_buffer_create name_len 0)) name (prefix_len rule) in
              let '(buf, _) := foldl (apply_segment rule segments) (buf, false) (seq 0 (Z.to_nat segment_count)) in
              let buf := nr_buffer_add buf (Some [0]) 1 in
              Some (nr_strdup (nr_buffer_cptr buf))
          end
  | _, _ => None
  end.

(** ** The list of rules *)
Definition nr_segment_terms_add (segment_terms : option nr_segment_terms_t) (prefix : option (list Z)) (terms : obj) :
    nr_status_t * option nr_segment_terms_t :=
  match segment_terms with
  | None => (NR_FAILURE, None)
  | Some st =>
      if capacity st <=? Z.of_nat (length (terms_rules st)) then (NR_FAILURE, segment_terms)
      else
        match nr_segment_terms_rule_create prefix terms with
        | None => (NR_FAILURE, segment_terms)
        | Some rule => (NR_SUCCESS, Some (SegmentTerms (capacity st) (terms_rules st ++ [rule])))
        end
  end.

Definition nr_segment_terms_add_from_obj (segment_terms : option nr_segment_terms_t) (rule : obj) : nr_status_t * option nr_segment_terms_t :=
  match segment_terms, rule with
  | Some _, Some _ =>
      if negb (bool_decide (nro_type rule = NR_OBJECT_HASH)) then (NR_FAILURE, segment_terms)
      else
        let prefix := (nro_get_hash_string rule (Some (lit "prefix"))).1 in
        let terms := (nro_get_hash_array rule (Some (lit "terms"))).1 in
        nr_segment_terms_add segment_terms prefix terms
  | _, _ => (NR_FAILURE, segment_terms)
  end.

(** The first rule that cannot be added ends the loop, without a result. *)
Fixpoint add_rules (o : obj) (terms : option nr_segment_terms_t) (indices : list nat) : option nr_segment_terms_t :=
  match indices with
  | [] => terms
  | i :: indices =>
      let '(st, terms) := nr_segment_terms_add_from_obj terms (nro_get_array_hash o (Z.of_nat i)).1 in
      if decide (st = NR_FAILURE) then None else add_rules o terms indices
  end.

Definition nr_segment_terms_create_from_obj (o : obj) : option nr_segment_terms_t :=
  match nro_type o with
  | NR_OBJECT_ARRAY =>
      let num_terms := nro_getsize o in
      match nr_segment_terms_create num_terms with
      | None => None
      | terms => add_rules o terms (seq 1 (Z.to_nat num_terms))
      end
  | _ => None
  end.

(** From the last rule to the first. *)
Fixpoint apply_rules (rules : list nr_segment_terms_rule_t) (name : option (list Z)) : option (list Z) :=
  match rules with
  | [] => Some (nr_strdup name)
  | rule :: rules => match nr_segment_terms_rule_apply (Some rule) name with Some r => Some r | None => apply_rules rules name end
  end.

Definition nr_segment_terms_apply (segment_terms : option nr_segment_terms_t) (name : option (list Z)) : option (list Z) :=
  match segment_terms, name with
  | Some st, Some n => if char_at n 0 =? 0 then None else apply_rules (reverse (terms_rules st)) name
  | _, _ => None
  end.

(** ** What the rules are to do *)
Definition whole_prefix (p : list Z) : list Z := if decide (last p = Some 47) then p else p ++ [47].
Definition two_segments (p : list Z) : Prop := length (filter (λ c, c = 47) (whole_prefix p)) = 2%nat.

(** Without regard to case. *)
Definition begins_with (p s : list Z) : Prop := (nr_tolower <$> p) `prefix_of` (nr_tolower <$> s).
Definition stays (ts : list (list Z)) (segment : list Z) : Prop := segment ≠ [] ∧ Exists (λ t, begins_with t segment) ts.
#[export] Instance begins_with_dec p s : Decision (begins_with p s).
Proof. unfold begins_with. apply _. Defined.
#[export] Instance stays_dec ts s : Decision (stays ts s).
Proof. unfold stays. apply _. Defined.

(** A star for a run of segments that do not stay. *)
Fixpoint collapse (ts : list (list Z)) (in_run : bool) (segments : list (list Z)) : list (list Z) :=
  match segments with
  | [] => []
  | s :: segments =>
      if decide (stays ts s) then s :: collapse ts false segments
      else if in_run then collapse ts true segments else lit "*" :: collapse ts true segments
  end.

Definition shorten (r : rule_text) (name : list Z) : list Z :=
  let p := length (whole_prefix r.1) in
  match drop p name with
  | [] => name
  | rest => take p name ++ join 47 (collapse r.2 false (tokens [47] rest true))
  end.

(** The last rule for the name. *)
Definition shortened (rs : list rule_text) (name : list Z) : list Z :=
  from_option (λ r, shorten r name) name (last (filter (λ r : rule_text, begins_with (whole_prefix r.1) name) rs)).

Definition quoted_term (t : list Z) : list Z := lit "(" ++ flat_map quote_char t ++ lit ")".
Definition terms_pattern (ts : list (list Z)) : list Z := match ts with [] => lit "$." | _ => join 124 (quoted_term <$> ts) end.

Record term_ok (t : list Z) : Prop := { to_cstr : is_cstr t; to_nonempty : t ≠ [] }.

(** What the library is to do with such an expression: it is compiled, and it
    matches, where the match is anchored and without regard to case, the
    subjects that begin with one of the terms. *)
Class PcreTerms := pcre_terms ts : Forall term_ok ts →
  ∃ c n, pcre_compile (terms_pattern ts) (Z.lor PCRE_ANCHORED PCRE_CASELESS) = Some c ∧ pcre_study_fails c = false ∧ pcre_capture_count c = Some n ∧
    ∀ s, is_cstr s → (0 ≤ (pcre_exec c s 0).1 ↔ Exists (λ t, begins_with t s) ts).

Record rule_text_ok (r : rule_text) : Prop := {
  rto_prefix : is_cstr r.1;
  rto_segments : two_segments r.1;
  rto_terms : Forall term_ok r.2;
}.

(** A rule as the collector sends it. *)
Record describes (o : nrobj_t) (r : rule_text) : Prop := {
  de_hash : nro_type (Some o) = NR_OBJECT_HASH;
  de_prefix : (nro_get_hash_string (Some o) (Some (lit "prefix"))).1 = Some r.1;
  de_terms : array_of r.2 (nro_get_hash_array (Some o) (Some (lit "terms"))).1;
}.

(** ** The expression is the alternatives *)
Lemma add_term_appends ts o i t : array_of ts o → ts !! i = Some t → term_ok t →
  appends (λ b, add_term o b i) ((if (i =? 0)%nat then [] else [124]) ++ quoted_term t).
Proof.
  intros Ho Hi [Ht Hne] bp Hb. unfold add_term. replace (Z.of_nat i + 1) with (Z.of_nat (S i)) by lia.
  rewrite (array_string ts o i Ho), Hi, nr_strlen_cstr by done. destruct (Z.eqb_spec (Z.of_nat (length t)) 0) as [E|_]; [by destruct t|].
  assert (appends (λ b, nr_buffer_add (nr_regex_add_quoted_to_buffer b (Some t) (Z.of_nat (length t))) (Some (lit ")")) 1)
    (flat_map quote_char t ++ lit ")")) as Hq.
  { apply (appends_then (λ b, nr_regex_add_quoted_to_buffer b (Some t) (Z.of_nat (length t))) (λ b, nr_buffer_add b (Some (lit ")")) 1));
      [|by apply appends_add].
    intros b Hb'. destruct (quote_loop_appends t b Hb') as (b' & E & ?). exists b'. unfold nr_regex_add_quoted_to_buffer.
    by rewrite Nat2Z.id, firstn_all. }
  unfold quoted_term. destruct (i =? 0)%nat.
  - exact (appends_then _ _ _ _ (appends_add (lit "(") 1 eq_refl) Hq bp Hb).
  - exact (appends_then _ _ _ _ (appends_add (lit "|(") 2 eq_refl) Hq bp Hb).
Qed.

Lemma add_terms_appends ts o : array_of ts o → Forall term_ok ts → ∀ n k, (k + n)%nat = length ts → (0 < k)%nat →
  appends (λ b, foldl (add_term o) b (seq k n)) (flat_map (λ t, 124 :: quoted_term t) (drop k ts)).
Proof.
  intros Ho Hts. induction n as [|n IH]; intros k Hk Hpos.
  - rewrite drop_ge by lia. apply appends_id.
  - destruct (lookup_lt_is_Some_2 ts k ltac:(lia)) as [t Ht]. rewrite (drop_S _ _ _ Ht). cbn [seq foldl flat_map].
    pose proof (add_term_appends ts o k t Ho Ht (proj1 (Forall_lookup _ _) Hts k t Ht)) as Ha. destruct (Nat.eqb_spec k 0); [lia|].
    exact (appends_then _ _ _ _ Ha (IH (S k) ltac:(lia) ltac:(lia))).
Qed.

Lemma pattern_cstr ts : Forall term_ok ts → is_cstr (terms_pattern ts).
Proof.
  intros Hts. unfold terms_pattern. destruct ts as [|t ts]; [by apply (bool_decide_unpack _)|].
  apply join_forall; [lia|]. apply Forall_fmap. eapply Forall_impl; [exact Hts|]. intros x [Hx _]. unfold quoted_term. simpl.
  apply Forall_cons_2; [lia|]. apply Forall_app. split; [by apply quote_cstr|]. by apply Forall_singleton.
Qed.

(** The text that is compiled, with or without its terminator. *)
Lemma build_regex_text ts o : array_of ts o → Forall term_ok ts →
  ∃ regex, nr_segment_terms_rule_build_regex o = Some regex ∧ cstr regex = terms_pattern ts.
Proof.
  intros Ho Hts. pose proof (array_size ts o Ho) as Hs. pose proof (pattern_cstr ts Hts) as Hp. 
  assert (nro_type o = NR_OBJECT_ARRAY) as Et by (by destruct Ho as [a ->]).
  unfold nr_segment_terms_rule_build_regex. rewrite Hs, Nat2Z.id, Et.
  destruct ts as [|t ts]; [by eexists|]. destruct (Z.eqb_spec (Z.of_nat (length (t :: ts))) 0); [done|].
  assert (appends (λ b, foldl (add_term o) b (seq 0 (length (t :: ts)))) (terms_pattern (t :: ts))) as Ha.
  { unfold terms_pattern. rewrite fmap_cons, join_tail, flat_map_concat_map, map_map, <-flat_map_concat_map. cbn [length seq foldl].
    refine (appends_then _ (λ b, foldl (add_term o) b (seq 1 (length ts))) _ _ (add_term_appends (t :: ts) o 0 t Ho eq_refl _)
      (add_terms_appends (t :: ts) o Ho Hts (length ts) 1 eq_refl ltac:(lia))). by inversion Hts. }
  destruct (buffer_create_holds 0 0 ltac:(done) ltac:(done)) as [[Hb Hc _ _] _].
  destruct (appends_then _ _ _ _ Ha (appends_add [0] 1 eq_refl) _ Hb) as (bp & E & Hb' & Hc'). rewrite E.
  destruct (buffer_use_spec bp (avail bp) Hb' (bi_avail _ Hb')) as (bp' & Eu & _). cbn [nr_buffer_len]. rewrite Eu. eexists. split; [done|].
  cbn [fst snd]. rewrite Z.min_id, <-buffer_length_contents, firstn_all, Hc', Hc by done. by apply cstr_app.
Qed.

(** ** A rule *)

(** A rule that keeps what the text says. *)
Record realizes (rule : nr_segment_terms_rule_t) (r : rule_text) : Prop := {
  re_text : rule_text_ok r;
  re_prefix : prefix rule = whole_prefix r.1;
  re_length : prefix_len rule = Z.of_nat (length (whole_prefix r.1));
  re_match : ∀ s, is_cstr s → s ≠ [] → nr_regex_match (Some (re rule)) (Some s) (Z.of_nat (length s)) = bool_decide (stays r.2 s);
}.

Lemma whole_cstr p : is_cstr p → is_cstr (whole_prefix p).
Proof. intros Hp. unfold whole_prefix. destruct (decide _); [done|]. apply Forall_app. split; [done|by apply Forall_singleton]. Qed.

Lemma rule_create_spec `{PcreTerms} r o : rule_text_ok r → array_of r.2 o →
  ∃ rule, nr_segment_terms_rule_create (Some r.1) o = Some rule ∧ realizes rule r.
Proof.
  intros Hr Ho. pose proof Hr as [Hp H2 Hts]. destruct (build_regex_text r.2 o Ho Hts) as (regex & Er & Ec).
  destruct (pcre_terms r.2 Hts) as (c & n & Ecomp & Est & Ecount & Hexec). unfold nr_segment_terms_rule_create.
  assert ((char_at r.1 0 =? 0) = false) as ->.
  { destruct r.1 as [|x p]; [by unfold two_segments in H2|]. inversion Hp; subst. unfold char_at. simpl. apply Z.eqb_neq. lia. }
  rewrite nr_strlen_cstr by done. unfold nr_strdup. cbn [default from_option id]. unfold id. rewrite (cstr_id r.1) by done.
  assert ((if char_at r.1 (Z.of_nat (length r.1) - 1) =? 47 then r.1 else r.1 ++ [47]) = whole_prefix r.1) as ->.
  { unfold whole_prefix, char_at. rewrite last_lookup. replace (Z.to_nat (Z.of_nat (length r.1) - 1)) with (pred (length r.1)) by lia.
    destruct (r.1 !! pred (length r.1)) as [x|]; cbn [default from_option id]; [|by rewrite decide_False].
    unfold id. destruct (Z.eqb_spec x 47) as [->|Hx]; [by rewrite decide_True|]. rewrite decide_False; [done|]. by intros [= ->]. }
  pose proof (whole_cstr _ Hp) as Hw. unfold nr_str_char_count. rewrite nr_strlen_cstr, cstr_id by done.
  unfold two_segments in H2. rewrite H2. cbn [Z.of_nat Z.eqb negb Pos.eqb Pos.of_succ_nat Pos.succ]. rewrite Er.
  cbn [mbind option_bind]. unfold nr_regex_create. cbn [mbind option_bind]. rewrite Ec.
  change (pcre_options _) with (Z.lor PCRE_ANCHORED PCRE_CASELESS). rewrite Ecomp. cbn [mbind option_bind]. rewrite Est. cbn [andb].
  rewrite Ecount. cbn [mbind option_bind]. eexists. split; [done|]. constructor; [done..|].
  intros s Hs Hne. unfold nr_regex_match. cbn [re code]. destruct (Z.ltb_spec (Z.of_nat (length s)) 0); [lia|].
  rewrite Nat2Z.id, firstn_all. apply eq_true_iff_eq. rewrite Z.leb_le, bool_decide_eq_true, Hexec by done. unfold stays. tauto.
Qed.

(** ** The segments *)
Definition delimiter (i : nat) : list Z := if (0 <? i)%nat then [47] else [].

Lemma apply_segment_step rule r segs o i s prev : realizes rule r → array_of segs o → segs !! i = Some s → is_cstr s →
  let stay := bool_decide (stays r.2 s) in
  appends (λ b, (apply_segment rule o (b, prev) i).1) (if stay then delimiter i ++ s else if prev then [] else delimiter i ++ lit "*") ∧
  ∀ b, (apply_segment rule o (b, prev) i).2 = negb stay.
Proof.
  intros Hr Ho Hi Hs stay. unfold apply_segment. replace (Z.of_nat i + 1) with (Z.of_nat (S i)) by lia.
  rewrite (array_string segs o i Ho), Hi, nr_strlen_cstr by done.
  assert ((0 <? Z.of_nat (length s)) && nr_regex_match (Some (re rule)) (Some s) (Z.of_nat (length s)) = stay) as ->.
  { subst stay. destruct (decide (s = [])) as [->|Hne]; [symmetry; apply bool_decide_eq_false; by intros [? _]|].
    rewrite (re_match _ _ Hr s Hs Hne). destruct (Z.ltb_spec 0 (Z.of_nat (length s))); [done|]. destruct s; [done|simpl in *; lia]. }
  unfold delimiter. destruct stay; cbn [negb]; [|destruct prev; cbn [negb]]; (split; [|done]); cbn [fst].
  - destruct (0 <? i)%nat; [|by apply appends_add]. exact (appends_then _ _ [47] s (appends_add (lit "/") 1 eq_refl) (appends_add s _ eq_refl)).
  - apply appends_id.
  - destruct (0 <? i)%nat; [|by apply appends_add].
    exact (appends_then _ _ [47] (lit "*") (appends_add (lit "/") 1 eq_refl) (appends_add (lit "*") 1 eq_refl)).
Qed.

Lemma apply_segments_appends rule r segs o : realizes rule r → array_of segs o → Forall is_cstr segs → ∀ n k prev,
  (k + n)%nat = length segs → (0 < k)%nat →
  appends (λ b, (foldl (apply_segment rule o) (b, prev) (seq k n)).1) (flat_map (λ s, 47 :: s) (collapse r.2 prev (drop k segs))).
Proof.
  intros Hr Ho Hs. induction n as [|n IH]; intros k prev Hk Hpos.
  - rewrite drop_ge by lia. apply appends_id.
  - destruct (lookup_lt_is_Some_2 segs k ltac:(lia)) as [s E]. rewrite (drop_S _ _ _ E). cbn [seq foldl collapse].
    destruct (apply_segment_step rule r segs o k s prev Hr Ho E (proj1 (Forall_lookup _ _) Hs k s E)) as [Ha Hp].
    assert (delimiter k = [47]) as Ed by (unfold delimiter; destruct (Nat.ltb_spec 0 k); [done|lia]). rewrite Ed in Ha.
    intros bp Hb. destruct (Ha bp Hb) as (b1 & E1 & H1 & C1).
    assert (apply_segment rule o (Some bp, prev) k = (Some b1, negb (bool_decide (stays r.2 s)))) as ->.
    { rewrite (surjective_pairing (apply_segment _ _ _ _)). by rewrite E1, Hp. }
    destruct (IH (S k) (negb (bool_decide (stays r.2 s))) ltac:(lia) ltac:(lia) b1 H1) as (b2 & E2 & H2 & C2).
    exists b2. rewrite E2, C2, C1. split_and!; [done..|]. rewrite <-app_assoc. f_equal. destruct (decide (stays r.2 s)) as [Hst|Hst].
    + by rewrite !bool_decide_true.
    + rewrite !bool_decide_false by done. by destruct prev.
Qed.

Lemma all_segments_append rule r segs o : realizes rule r → array_of segs o → Forall is_cstr segs →
  appends (λ b, (foldl (apply_segment rule o) (b, false) (seq 0 (length segs))).1) (join 47 (collapse r.2 false segs)).
Proof.
  intros Hr Ho Hs. destruct segs as [|s segs]; [apply appends_id|].
  destruct (apply_segment_step rule r (s :: segs) o 0 s false Hr Ho eq_refl ltac:(by inversion Hs)) as [Ha Hp]. cbn [delimiter Nat.ltb Nat.leb app] in Ha.
  intros bp Hb. destruct (Ha bp Hb) as (b1 & E1 & H1 & C1). cbn [length seq foldl collapse].
  assert (apply_segment rule o (Some bp, false) 0 = (Some b1, negb (bool_decide (stays r.2 s)))) as ->.
  { rewrite (surjective_pairing (apply_segment _ _ _ _)). by rewrite E1, Hp. }
  destruct (apply_segments_appends rule r (s :: segs) o Hr Ho Hs (length segs) 1 (negb (bool_decide (stays r.2 s))) eq_refl ltac:(lia) b1 H1) as (b2 & E2 & H2 & C2).
  exists b2. rewrite E2, C2, C1. split_and!; [done..|]. cbn [drop]. rewrite <-app_assoc. f_equal. destruct (decide (stays r.2 s)) as [Hst|Hst].
  - rewrite !bool_decide_true by done. by rewrite join_tail.
  - rewrite !bool_decide_false by done. by rewrite join_tail.
Qed.

Lemma tokens_cstr delim s u : is_cstr s → Forall is_cstr (tokens delim s u).
Proof.
  intros Hs. unfold tokens. 
  assert (Forall is_cstr (pieces delim s)) as Hp.
  2:{ apply Forall_forall. intros x [_ (p & -> & Hin)%list_elem_of_fmap]%list_elem_of_filter. apply trim_cstr. by eapply Forall_forall in Hp. }
  induction Hs as [|c s Hc Hs IH]; [apply Forall_singleton, Forall_nil_2|]. cbn [pieces]. case_bool_decide; [by apply Forall_cons_2; [apply Forall_nil_2|]|].
  destruct (pieces delim s); [apply Forall_singleton; by apply Forall_cons_2; [|apply Forall_nil_2]|]. inversion IH; subst. by apply Forall_cons_2; [apply Forall_cons_2|].
Qed.

Lemma collapse_cstr ts prev segs : Forall is_cstr segs → Forall is_cstr (collapse ts prev segs).
Proof.
  intros Hs. revert prev. induction Hs as [|s segs Hs _ IH]; intros prev; [apply Forall_nil_2|]. cbn [collapse].
  destruct (decide _); [by apply Forall_cons_2|]. destruct prev; [done|]. apply Forall_cons_2; [|done]. by apply Forall_singleton.
Qed.

Lemma rule_apply_spec rule r name : realizes rule r → is_cstr name → name ≠ [] → Z.of_nat (length name) ≤ 2 ^ 30 →
  nr_segment_terms_rule_apply (Some rule) (Some name) = if decide (begins_with (whole_prefix r.1) name) then Some (shorten r name) else None.
Proof.
  intros Hr Hn Hne Hl. unfold nr_segment_terms_rule_apply. pose proof (re_text _ _ Hr) as [Hp H2 _]. pose proof (whole_cstr _ Hp) as Hw.
  assert ((char_at name 0 =? 0) = false) as ->.
  { destruct name as [|x name]; [done|]. inversion Hn; subst. unfold char_at. simpl. apply Z.eqb_neq. lia. }
  rewrite nr_strlen_cstr, (re_length _ _ Hr), (re_prefix _ _ Hr) by done.
  assert (0 < length (whole_prefix r.1))%nat as Hpl by (unfold two_segments in H2; destruct (whole_prefix r.1); [done|simpl; lia]).
  set (p := whole_prefix r.1) in *.
  destruct (Z.ltb_spec (Z.of_nat (length name)) (Z.of_nat (length p))) as [Hlt|Hge].
  { rewrite decide_False; [done|]. intros Hb%prefix_length. rewrite !length_fmap in Hb. lia. }
  unfold nr_strnicmp. destruct (Z.ltb_spec 0 (Z.of_nat (length p))); [|lia].
  pose proof (strncasecmp_prefix p name Hw Hn) as Hcmp. fold (begins_with p name) in Hcmp.
  destruct (decide (begins_with p name)) as [Hb|Hb].
  2:{ destruct (Z.eqb_spec (strncasecmp name p (Z.of_nat (length p))) 0); [tauto|done]. }
  rewrite (proj2 Hcmp Hb). cbn [Z.eqb negb]. unfold shorten. fold p. rewrite Nat2Z.id.
  pose proof (is_cstr_drop (length p) name Hn) as Hd. unfold char_at. rewrite Nat2Z.id, <-(Nat.add_0_r (length p)) at 1. rewrite <-lookup_drop.
  destruct (drop (length p) name) as [|x rest] eqn:Ed; [unfold nr_strdup; cbn [lookup list_lookup default from_option id Z.eqb]; by rewrite (cstr_id name)|].
  cbn [lookup list_lookup default from_option id]. unfold id. inversion Hd as [|? ? Hx Hrest]; subst. destruct (Z.eqb_spec x 0); [lia|].
  pose proof (nr_strsplit_tokens (x :: rest) (lit "/") true Hd ltac:(done) ltac:(by apply Forall_singleton) ltac:(done)) as Ho.
  set (segments := nr_strsplit _ _ _) in *. pose proof (array_size _ _ Ho) as Hs. rewrite Hs, Nat2Z.id.
  assert (∃ so, segments = Some so) as [so Eso] by (destruct Ho as [a ->]; by eexists). rewrite Eso. rewrite <-Eso.
  set (segs := tokens (lit "/") (x :: rest) true) in *. pose proof (tokens_cstr (lit "/") (x :: rest) true Hd) as Hsc. fold segs in Hsc.
  pose proof (all_segments_append rule r segs segments Hr Ho Hsc) as Ha.
  assert (appends (λ b, nr_buffer_add b (Some name) (Z.of_nat (length p))) (take (length p) name)) as Hpre.
  { pose proof (appends_more (take (length p) name) (drop (length p) name) (Z.of_nat (length p)) ltac:(rewrite length_take; lia)) as Hm.
    by rewrite take_drop in Hm. }
  rewrite (surjective_pairing (foldl _ _ _)). cbn [fst]. f_equal.
  apply (terminated_text (λ b, (foldl (apply_segment rule segments) (nr_buffer_add b (Some name) (Z.of_nat (length p)), false) (seq 0 (length segs))).1));
    [exact (appends_then (λ b, nr_buffer_add b (Some name) (Z.of_nat (length p))) (λ b, (foldl (apply_segment rule segments) (b, false) (seq 0 (length segs))).1) _ _ Hpre Ha)| |done|done].
  apply Forall_app. split; [by apply is_cstr_take|]. apply join_forall; [lia|]. by apply collapse_cstr.
Qed.

(** ** The list of rules *)
Lemma apply_rules_spec rules rs name : Forall2 realizes rules rs → is_cstr name → name ≠ [] → Z.of_nat (length name) ≤ 2 ^ 30 →
  apply_rules (reverse rules) (Some name) = Some (shortened rs name).
Proof.
  intros Hr Hn Hne Hl. unfold shortened. revert rules Hr. induction rs as [|r rs IH] using rev_ind; intros rules Hr.
  - apply Forall2_nil_inv_r in Hr as ->. cbn. unfold nr_strdup. cbn [default from_option id]. unfold id. by rewrite cstr_id.
  - apply Forall2_app_inv_r in Hr as (rules' & last' & Hr & Hlast & ->). specialize (IH rules' Hr).
    inversion Hlast as [|rule ? ? ? Hrule Hnil]; subst. inversion Hnil; subst. rewrite reverse_snoc, filter_app, filter_cons, filter_nil. cbn [apply_rules]. rewrite (rule_apply_spec rule r) by done.
    destruct (decide (begins_with (whole_prefix r.1) name)); [by rewrite last_snoc|]. by rewrite app_nil_r.
Qed.

Lemma add_rules_spec `{PcreTerms} a es : ∀ n k st, (k + n)%nat = length es → capacity st = Z.of_nat (length es) → length (terms_rules st) = k →
  ∀ rs done, Forall2 describes (drop k es) rs → Forall rule_text_ok rs → Forall2 realizes (terms_rules st) done →
  ∃ st', add_rules (Some (OArray a es)) (Some st) (seq (S k) n) = Some st' ∧ Forall2 realizes (terms_rules st') (done ++ rs).
Proof.
  induction n as [|n IH]; intros k st Hk Hc Hs rs done Hd Hok Hr.
  - rewrite drop_ge in Hd by lia. inversion Hd; subst. exists st. by rewrite app_nil_r.
  - destruct (lookup_lt_is_Some_2 es k ltac:(lia)) as [o Eo]. rewrite (drop_S _ _ _ Eo) in Hd.
    inversion Hd as [|? r ? rs' Hde Hd']; subst. inversion Hok as [|? ? Hrok Hok']; subst. cbn [seq add_rules].
    assert ((nro_get_array_hash (Some (OArray a es)) (Z.of_nat (S (length (terms_rules st))))).1 = Some o) as ->.
    { unfold nro_get_array_hash, nro_get_array_value. replace (Z.to_nat (Z.of_nat (S (length (terms_rules st))) - 1)) with (length (terms_rules st)) by lia. rewrite Eo.
      destruct (Z.ltb_spec (Z.of_nat (S (length (terms_rules st)))) 1), (Z.leb_spec (Z.of_nat (length es)) (Z.of_nat (S (length (terms_rules st))) - 1)); try lia. cbn.
      pose proof (de_hash _ _ Hde) as Et. cbn in Et. by rewrite Et. }
    unfold nr_segment_terms_add_from_obj. rewrite (de_hash _ _ Hde), bool_decide_true, (de_prefix _ _ Hde) by reflexivity. cbn [negb].
    destruct (rule_create_spec r _ Hrok (de_terms _ _ Hde)) as (rule & Erule & Hreal). unfold nr_segment_terms_add. rewrite Erule, Hc.
    destruct (Z.leb_spec (Z.of_nat (length es)) (Z.of_nat (length (terms_rules st)))); [lia|]. rewrite decide_False by done.
    destruct (IH (S (length (terms_rules st))) (SegmentTerms (Z.of_nat (length es)) (terms_rules st ++ [rule]))) with (rs := rs') (done := done ++ [r]) as (st' & E & Hr');
      [lia|done|cbn [terms_rules]; rewrite length_app; simpl; lia|done|done|cbn [terms_rules]; apply Forall2_app; [done|by apply Forall2_cons]|].
    exists st'. by rewrite <-app_assoc in Hr'.
Qed.

(** C24: what rules of segment terms do to a name, given that the library finds
    the alternatives of the quoted terms: the last rule whose prefix of two
    segments the name begins with keeps the segments that begin with one of its
    terms, and puts one star for each run of others; names for no rule stay. *)
Theorem nr_segment_terms_shorten_names `{PcreTerms} a es rs name :
  es ≠ [] → Forall2 describes es rs → Forall rule_text_ok rs → is_cstr name → name ≠ [] → Z.of_nat (length name) ≤ 2 ^ 30 →
  ∃ terms, nr_segment_terms_create_from_obj (Some (OArray a es)) = Some terms ∧
    nr_segment_terms_apply (Some terms) (Some name) = Some (shortened rs name).
Proof.
  intros Hes Hd Hok Hn Hne Hl. unfold nr_segment_terms_create_from_obj. cbn [nro_type from_option type_of nro_getsize].
  unfold nr_segment_terms_create. destruct (Z.leb_spec (Z.of_nat (length es)) 0); [destruct es; [done|simpl in *; lia]|]. rewrite Nat2Z.id.
  destruct (add_rules_spec a es (length es) 0 (SegmentTerms (Z.of_nat (length es)) []) eq_refl eq_refl eq_refl rs [] Hd Hok (Forall2_nil_2 _ _ _)) as (st & -> & Hr).
  exists st. split; [done|]. unfold nr_segment_terms_apply.
  assert ((char_at name 0 =? 0) = false) as ->; [|by apply apply_rules_spec].
  destruct name as [|x name]; [done|]. inversion Hn; subst. unfold char_at. simpl. apply Z.eqb_neq. lia.
Qed.

Lemma add_rules_fails a es bad j : es !! j = Some bad → (nro_get_hash_array (Some bad) (Some (lit "terms"))).1 = None →
  ∀ n k st, (k ≤ j < k + n)%nat → add_rules (Some (OArray a es)) st (seq (S k) n) = None.
Proof.
  intros Hj Hbad. induction n as [|n IH]; intros k st Hk; [lia|]. cbn [seq add_rules]. destruct (decide (k = j)) as [->|Hne].
  - assert ((nr_segment_terms_add_from_obj st (nro_get_array_hash (Some (OArray a es)) (Z.of_nat (S j))).1).1 = NR_FAILURE) as E.
    { unfold nro_get_array_hash, nro_get_array_value. replace (Z.to_nat (Z.of_nat (S j) - 1)) with j by lia. rewrite Hj.
      pose proof (lookup_lt_Some _ _ _ Hj). destruct (Z.ltb_spec (Z.of_nat (S j)) 1), (Z.leb_spec (Z.of_nat (length es)) (Z.of_nat (S j) - 1)); try lia.
      cbn [orb found nro_cassert fst]. unfold nr_segment_terms_add_from_obj. destruct st as [st|]; [|done]. destruct (decide _); [|done].
      destruct (negb _); [done|]. rewrite Hbad. unfold nr_segment_terms_add. destruct (_ <=? _); [done|].
      unfold nr_segment_terms_rule_create. destruct (nro_get_hash_string _ _).1; [|done]. destruct (char_at _ 0 =? 0); [done|]. by destruct (negb _). }
    destruct (nr_segment_terms_add_from_obj _ _) as [status st']. cbn [fst] in E. by rewrite decide_True.
  - destruct (nr_segment_terms_add_from_obj _ _) as [status st']. destruct (decide _); [done|]. apply IH. lia.
Qed.

(** One rule without terms, and there are none at all. *)
Lemma bad_rule_scraps_all a good bad rest : (nro_get_hash_array (Some bad) (Some (lit "terms"))).1 = None →
  nr_segment_terms_create_from_obj (Some (OArray a (good ++ bad :: rest))) = None.
Proof.
  intros Hbad. unfold nr_segment_terms_create_from_obj. cbn [nro_type from_option type_of nro_getsize]. unfold nr_segment_terms_create.
  destruct (_ <=? 0); [done|]. rewrite Nat2Z.id. apply (add_rules_fails _ _ bad (length good)); [by rewrite lookup_app_r, Nat.sub_diag by done|done|].
  rewrite length_app. simpl. lia.
Qed.
End terms.

(** ** An instance of the library: alternatives of quoted texts *)
Fixpoint read_alternatives (p cur : list Z) : list (list Z) :=
  match p with
  | [] => []
  | c :: p =>
      if c =? 92 then match p with d :: p => read_alternatives p (cur ++ [d]) | [] => [] end
      else if c =? 40 then read_alternatives p []
      else if c =? 41 then cur :: read_alternatives p []
      else read_alternatives p (cur ++ [c])
  end.

#[export] Instance alternatives_only : Pcre := {|
  pcre := list (list Z);
  pcre_compile p _ := Some (read_alternatives p []);
  pcre_study_fails _ := false;
  pcre_capture_count ts := Some (Z.of_nat (length ts));
  pcre_exec ts s _ := if decide (Exists (λ t, begins_with t s) ts) then (0, []) else (PCRE_ERROR_NOMATCH, []);
  pcre_get_stringnumber _ _ := PCRE_ERROR_NOSUBSTRING;
|}.

Lemma read_quoted t : is_cstr t → ∀ r cur, read_alternatives (flat_map quote_char t ++ r) cur = read_alternatives r (cur ++ t).
Proof.
  induction 1 as [|c t Hc _ IH]; intros r cur; [by rewrite app_nil_r|]. cbn [flat_map]. rewrite <-app_assoc. unfold quote_char at 1.
  destruct (Z.eqb_spec c 0); [lia|]. case_bool_decide as Hs; cbn [app read_alternatives]; [by rewrite IH, <-app_assoc|].
  assert (∀ d, d ∈ special → (c =? d) = false) as Hd by (intros d Hd; apply Z.eqb_neq; by intros ->).
  rewrite !Hd by (by apply (bool_decide_unpack _)). by rewrite IH, <-app_assoc.
Qed.

Lemma read_term t r cur : is_cstr t → read_alternatives (quoted_term t ++ r) cur = t :: read_alternatives r [].
Proof. intros Ht. unfold quoted_term. cbn [app lit]. simpl app. cbn. rewrite <-app_assoc, read_quoted by done. done. Qed.

#[export] Instance alternatives_terms : PcreTerms.
Proof.
  intros ts Hts. exists ts, (Z.of_nat (length ts)). split_and!; [|done|done|].
  - cbn [pcre_compile alternatives_only]. f_equal. destruct Hts as [|t ts [Ht _] Hts]; [done|]. cbn [terms_pattern]. rewrite fmap_cons, join_tail, read_term by done.
    f_equal. clear Ht. cut (∀ cur, read_alternatives (flat_map (λ y, 124 :: y) (quoted_term <$> ts)) cur = ts); [done|].
    induction Hts as [|t' ts [Ht' _] _ IH]; intros cur; [done|]. cbn [fmap list_fmap flat_map app read_alternatives]. 
    change (124 =? 92) with false. change (124 =? 40) with false. change (124 =? 41) with false. cbv iota. by rewrite read_term, IH.
  - intros s _. cbn [pcre_exec alternatives_only]. destruct (decide _); cbn [fst]; unfold PCRE_ERROR_NOMATCH; split; try done; lia.
Qed.

Definition example_rule_object (p : list Z) (ts : list (list Z)) : nrobj_t :=
  OHash 8 [(lit "prefix", OString (Some p)); (lit "terms", OArray 8 ((λ t, OString (Some t)) <$> ts))].
Definition example_rule_texts : list rule_text :=
  [(lit "WebTransaction/Custom", [lit "one"; lit "two"; lit "three"]); (lit "WebTransaction/Uri/", [lit "seven"; lit "nine"])].

Lemma nr_segment_terms_shorten_names_witness :
  let es := (λ r : rule_text, example_rule_object r.1 r.2) <$> example_rule_texts in
  ∃ terms, nr_segment_terms_create_from_obj (H0 := GenerousAllocator.allocator Z) (Some (OArray 8 es)) = Some terms ∧
    nr_segment_terms_apply (H0 := GenerousAllocator.allocator Z) (Some terms) (Some (lit "webTransaction/Uri/one/two/seven/user/nineteen/account/")) =
      Some (lit "webTransaction/Uri/*/seven/*/nineteen/*").
Proof.
  intros es.
  destruct (nr_segment_terms_shorten_names (H0 := GenerousAllocator.allocator Z) 8 es example_rule_texts
    (lit "webTransaction/Uri/one/two/seven/user/nineteen/account/")) as (terms & E & A).
  - done.
  - subst es. unfold example_rule_texts. cbn [fmap list_fmap]. repeat (apply Forall2_cons_2; [constructor; [done|done|by exists 8]|]). apply Forall2_nil_2.
  - repeat (apply Forall_cons_2; [constructor; [by apply (bool_decide_unpack _)|done|
      repeat (apply Forall_cons_2; [constructor; [by apply (bool_decide_unpack _)|done]|]); apply Forall_nil_2]|]). apply Forall_nil_2.
  - by apply (bool_decide_unpack _).
  - done.
  - done.
  - exists terms. split; [exact E|]. rewrite A. vm_compute. reflexivity.
Defined.
