(* ===== verification/SpanQueue.v ===== *)
(** * SpanQueue: span events handed over in batches (src/axiom/nr_span_queue.c)

    The encoder (nr_span_encoding.c, which fills structures of generated
    protobuf code and is not modelled) and the handler, the caller's, are
    arguments: what is shown holds for any of them.  The readings of the clock are arguments of the operations. *)

From S2P Require Import Prelude.
Local Open Scope Z_scope.

Section span_queue.
Context {Event W : Type}.

(** The encoding of a batch, and the handler with the data behind its pointer. *)
Variable nr_span_encoding_batch_v1 : list Event → option (list Z).
Variable batch_handler : list Z → W → bool * W.

Record nr_span_batch_t := SpanBatch {
  capacity : Z;
  start_time : Z;
  spans : list Event;
}.
Definition used (b : nr_span_batch_t) : Z := Z.of_nat (length (spans b)).

Record nr_span_queue_t := SpanQueue {
  batch_size : Z;
  batch_timeout : Z;
  current_batch : nr_span_batch_t;
}.

Definition nr_span_batch_create (capacity now : Z) : nr_span_batch_t := SpanBatch capacity now [].

Definition nr_span_queue_create (batch_size batch_timeout now : Z) : option nr_span_queue_t :=
  if (batch_size =? 0) || (batch_timeout =? 0) then None
  else Some (SpanQueue batch_size batch_timeout (nr_span_batch_create batch_size now)).

Definition nr_span_queue_flush (queue : option nr_span_queue_t) (now : Z) (w : W) : bool * option nr_span_queue_t * W :=
  match queue with
  | None => (false, None, w)
  | Some q =>
      let batch := current_batch q in
      let q := SpanQueue (batch_size q) (batch_timeout q) (nr_span_batch_create (batch_size q) now) in
      if used batch =? 0 then (true, Some q, w)
      else
        match nr_span_encoding_batch_v1 (spans batch) with
        | None => (false, Some q, w)
        | Some encoded => let '(rv, w) := batch_handler encoded w in (rv, Some q, w)
        end
  end.

(** The clock as it is read before the flush, and in it. *)
Definition nr_span_queue_push (queue : option nr_span_queue_t) (event : option Event) (now now' : Z) (w : W) : bool * option nr_span_queue_t * W :=
  match queue, event with
  | Some q, Some event =>
      let b := current_batch q in
      let '(q, w) :=
        if (capacity b <=? used b) || (u64 (start_time b + batch_timeout q) <? now) then
          match (nr_span_queue_flush queue now' w) with (_, Some q, w) => (q, w) | (_, None, w) => (q, w) end
        else (q, w) in
      let b := current_batch q in
      (true, Some (SpanQueue (batch_size q) (batch_timeout q) (SpanBatch (capacity b) (start_time b) (spans b ++ [event]))), w)
  | _, _ => (false, queue, w)
  end.

(** ** What has been handed over *)
Inductive op := Push (event : Event) (now now' : Z) | Flush (now : Z).
Definition exec (o : op) (s : option nr_span_queue_t * W) : bool * (option nr_span_queue_t * W) :=
  match o with
  | Push e now now' => let '(r, q, w) := nr_span_queue_push s.1 (Some e) now now' s.2 in (r, (q, w))
  | Flush now => let '(r, q, w) := nr_span_queue_flush s.1 now s.2 in (r, (q, w))
  end.

Definition pushed (ops : list op) : list Event := omap (λ o, match o with Push e _ _ => Some e | Flush _ => None end) ops.

(** What the handler has done with the encodings of batches. *)
Definition handled (batches : list (list Event)) (w : W) : W := foldl (λ w e, (batch_handler e w).2) w (omap nr_span_encoding_batch_v1 batches).

Record delivered (size timeout : Z) (w0 : W) (events : list Event) (s : option nr_span_queue_t * W) : Prop := {
  de_queue : ∃ q batches, s.1 = Some q ∧ batch_size q = size ∧ batch_timeout q = timeout ∧ capacity (current_batch q) = size ∧
    used (current_batch q) ≤ size ∧ events = concat batches ++ spans (current_batch q) ∧
    Forall (λ b, 1 ≤ Z.of_nat (length b) ≤ size) batches ∧ s.2 = handled batches w0;
}.

Lemma handled_snoc batches b w : handled (batches ++ [b]) w =
  match nr_span_encoding_batch_v1 b with Some e => (batch_handler e (handled batches w)).2 | None => handled batches w end.
Proof. unfold handled. rewrite omap_app, foldl_app. simpl. by destruct (nr_span_encoding_batch_v1 b). Qed.

Lemma flush_delivers size timeout w0 events s now : delivered size timeout w0 events s →
  let '(_, q, w) := nr_span_queue_flush s.1 now s.2 in
  delivered size timeout w0 events (q, w) ∧ ∃ q', q = Some q' ∧ spans (current_batch q') = [].
Proof.
  intros [(q & batches & E & Hs & Ht & Hc & Hu & He & Hb & Hw)]. rewrite E. cbn [nr_span_queue_flush].
  destruct (Z.eqb_spec (used (current_batch q)) 0) as [E0|E0]; unfold used in *.
  { assert (spans (current_batch q) = []) as En by (destruct (spans (current_batch q)); [done|simpl in *; lia]). rewrite En, app_nil_r in *.
    split; [constructor; eexists _, batches; split_and!; [done..|unfold used; simpl in *; lia|cbn; by rewrite app_nil_r|done|done]|by eexists]. }
  assert (∀ rv w, w = handled (batches ++ [spans (current_batch q)]) w0 →
    let q' := Some (SpanQueue (batch_size q) (batch_timeout q) (nr_span_batch_create (batch_size q) now)) in
    (match (rv : bool, q', w) with (_, q0, w1) => delivered size timeout w0 events (q0, w1) ∧ ∃ q'', q0 = Some q'' ∧ spans (current_batch q'') = [] end)) as Hall.
  { intros rv w Ew. cbn. split; [|by eexists]. constructor. eexists _, (batches ++ [spans (current_batch q)]).
    split_and!; [done|done|done|done|unfold used; simpl in *; lia|cbn; by rewrite concat_app, app_nil_r; cbn; rewrite app_nil_r|apply Forall_app; split; [done|apply Forall_singleton; lia]|done]. }
  pose proof (handled_snoc batches (spans (current_batch q)) w0) as Hsn. rewrite <-Hw in Hsn.
  destruct (nr_span_encoding_batch_v1 (spans (current_batch q))) as [encoded|].
  - destruct (batch_handler encoded s.2) as [rv w] eqn:Eh. apply (Hall rv w). by rewrite Hsn.
  - apply (Hall false s.2). by rewrite Hsn.
Qed.

Lemma push_delivers size timeout w0 events s e now now' : 0 < size → delivered size timeout w0 events s →
  let '(r, q, w) := nr_span_queue_push s.1 (Some e) now now' s.2 in r = true ∧ delivered size timeout w0 (events ++ [e]) (q, w).
Proof.
  intros Hpos Hd. assert (∀ q w, delivered size timeout w0 events (Some q, w) → used (current_batch q) < size →
    delivered size timeout w0 (events ++ [e])
      (Some (SpanQueue (batch_size q) (batch_timeout q) (SpanBatch (capacity (current_batch q)) (start_time (current_batch q)) (spans (current_batch q) ++ [e]))), w)) as Hput.
  { intros q w [(q' & batches & [= <-] & Hs & Ht & Hc & _ & He & Hb & Hw)] Hu. constructor. eexists _, batches. unfold used in *. cbn in *.
    split_and!; [done|done|done|done|unfold used; cbn [spans current_batch]; rewrite length_app; simpl in *; lia|cbn; by rewrite He, <-app_assoc|done|done]. }
  pose proof (flush_delivers size timeout w0 events s now' Hd) as Hf. pose proof Hd as [(q & batches & E & Hs & Ht & Hc & Hu & _)].
  destruct s as [sq sw]. cbn [fst snd] in *. subst sq. cbn [nr_span_queue_push].
  destruct ((capacity (current_batch q) <=? used (current_batch q)) || (u64 (start_time (current_batch q) + batch_timeout q) <? now)) eqn:Et.
  - destruct (nr_span_queue_flush (Some q) now' sw) as [[rv fq] fw]. destruct Hf as (Hf & q' & -> & Hn). split; [done|]. apply Hput; [done|].
    unfold used. rewrite Hn. done.
  - split; [done|]. apply Hput; [done|]. apply orb_false_iff in Et as [Et%Z.leb_gt _]. lia.
Qed.

(** ** When batches are closed *)

(** The batches that were closed, the events that wait, and when their batch was
    begun.  A batch is closed when it is full or too old for the next
    event, and when the queue is flushed; one without events is not handed over. *)
Record batching := Batching { closed : list (list Event); waiting : list Event; since : Z }.
Definition close (b : batching) (now : Z) : batching :=
  Batching (if waiting b is [] then closed b else closed b ++ [waiting b]) [] now.
Definition gather (size timeout : Z) (b : batching) (o : op) : batching :=
  match o with
  | Flush now => close b now
  | Push e now now' =>
      let b := if decide (size ≤ Z.of_nat (length (waiting b)) ∨ u64 (since b + timeout) < now) then close b now' else b in
      Batching (closed b) (waiting b ++ [e]) (since b)
  end.

Record batched (size timeout : Z) (w0 : W) (b : batching) (s : option nr_span_queue_t * W) : Prop := {
  ba_queue : s.1 = Some (SpanQueue size timeout (SpanBatch size (since b) (waiting b)));
  ba_handled : s.2 = handled (closed b) w0;
}.

Lemma flush_batched size timeout w0 b s now : batched size timeout w0 b s →
  let '(_, q, w) := nr_span_queue_flush s.1 now s.2 in batched size timeout w0 (close b now) (q, w).
Proof.
  intros [-> Hw]. destruct b as [cl wa si]. cbn [closed waiting] in Hw. unfold close. cbn. unfold used. cbn.
  destruct wa as [|e wa]; [by split|]. cbn [length]. destruct (Z.eqb_spec (Z.of_nat (S (length wa))) 0); [lia|].
  pose proof (handled_snoc cl (e :: wa) w0) as Hs. rewrite <-Hw in Hs.
  destruct (nr_span_encoding_batch_v1 (e :: wa)) as [encoded|]; [|by split].
  destruct (batch_handler encoded s.2) as [rv w]. by split.
Qed.

Lemma exec_batched size timeout w0 b s o : batched size timeout w0 b s →
  batched size timeout w0 (gather size timeout b o) (exec o s).2.
Proof.
  intros Hb. destruct o as [e now now'|now]; cbn [exec].
  - pose proof (flush_batched size timeout w0 b s now' Hb) as Hf. destruct Hb as [Hq Hw]. rewrite Hq in *.
    unfold nr_span_queue_push, gather. cbn [current_batch batch_timeout capacity start_time] in *. unfold used. cbn [spans].
    destruct (Z.leb_spec size (Z.of_nat (length (waiting b)))), (Z.ltb_spec (u64 (since b + timeout)) now); cbn [orb];
      [rewrite decide_True by auto..|rewrite decide_False by lia; by split];
      destruct (nr_span_queue_flush _ now' s.2) as [[rv q] w]; destruct Hf as [Hq' Hw']; cbn in Hq', Hw'; subst q; by split.
  - pose proof (flush_batched size timeout w0 b s now Hb) as Hf. by destruct (nr_span_queue_flush s.1 now s.2) as [[rv q] w].
Qed.

Lemma run_batched size timeout now w ops : size ≠ 0 → timeout ≠ 0 →
  batched size timeout w (foldl (gather size timeout) (Batching [] [] now) ops)
    (run exec ops (nr_span_queue_create size timeout now, w)).2.
Proof.
  intros Hs Ht. induction ops as [|o ops IH] using rev_ind.
  - cbn. unfold nr_span_queue_create. by destruct (Z.eqb_spec size 0), (Z.eqb_spec timeout 0).
  - rewrite run_snoc, foldl_app. destruct (run exec ops _) as [rs s]. cbn [snd foldl] in *.
    apply exec_batched with (o := o) in IH. by destruct (exec o s).
Qed.

(** C27: every event that is pushed is handed over exactly once and in order, but
    for those that still wait: they are the events of full or partial batches,
    none of them empty or larger than the size of the queue, and the handler
    has seen the encodings of these batches; a batch that cannot be encoded is
    dropped.  A batch is closed exactly when a push finds it full or older than
    the timeout, and by a flush.  A push never fails. *)
Theorem nr_span_queue_delivers size timeout now w ops :
  0 < size → timeout ≠ 0 →
  let s0 := (nr_span_queue_create size timeout now, w) in
  let '(rs, s) := run exec ops s0 in
  delivered size timeout w (pushed ops) s ∧
  batched size timeout w (foldl (gather size timeout) (Batching [] [] now) ops) s ∧
  Forall2 (λ o r, match o with Push _ _ _ => r = true | Flush _ => True end) ops rs.
Proof.
  intros Hs Ht s0. pose proof (run_batched size timeout now w ops ltac:(lia) Ht) as Hb. fold s0 in Hb.
  cut (let '(rs, s) := run exec ops s0 in delivered size timeout w (pushed ops) s ∧
    Forall2 (λ o r, match o with Push _ _ _ => r = true | Flush _ => True end) ops rs).
  { intros Hc. destruct (run exec ops s0) as [rs s]. by destruct Hc. }
  clear Hb. induction ops as [|o ops IH] using rev_ind.
  - cbn. split; [|apply Forall2_nil_2]. subst s0. unfold nr_span_queue_create. destruct (Z.eqb_spec size 0), (Z.eqb_spec timeout 0); try lia. constructor.
    eexists _, []. split_and!; [done|done|done|done|unfold used; simpl; lia|done|apply Forall_nil_2|done].
  - rewrite run_snoc. destruct (run exec ops s0) as [rs s]. destruct IH as [IH1 IH2]. unfold pushed. rewrite omap_app. fold (pushed ops). destruct o as [e n n'|n]; cbn [exec].
    + pose proof (push_delivers size timeout w (pushed ops) s e n n' Hs IH1) as Hp. destruct (nr_span_queue_push s.1 (Some e) n n' s.2) as [[r q] w'].
      destruct Hp as [-> Hp]. split; [exact Hp|]. apply Forall2_app; [done|]. by apply Forall2_cons_2; [|apply Forall2_nil_2].
    + pose proof (flush_delivers size timeout w (pushed ops) s n IH1) as Hf. destruct (nr_span_queue_flush s.1 n s.2) as [[r q] w'].
      destruct Hf as [Hf _]. cbn [omap list_omap]. rewrite app_nil_r. split; [exact Hf|]. apply Forall2_app; [done|]. by apply Forall2_cons_2; [|apply Forall2_nil_2].
Qed.
End span_queue.

(** Two to a batch, and a handler that keeps what it gets. *)
Lemma nr_span_queue_delivers_witness :
  let keep e w := (true, w ++ [e]) in
  let ops := [Push 1 5 5; Push 2 6 6; Push 3 7 7; Push 4 200 200; Flush 201] in
  let s := (run (exec Some keep) ops (nr_span_queue_create 2 100 0, [])).2 in
  delivered Some keep 2 100 [] [1; 2; 3; 4] s ∧ batched Some keep 2 100 [] (Batching [[1; 2]; [3]; [4]] [] 201) s ∧
  s.2 = [[1; 2]; [3]; [4]].
Proof.
  intros keep ops s. rewrite (assoc (∧)). split; [|done].
  pose proof (nr_span_queue_delivers Some keep 2 100 0 [] ops ltac:(done) ltac:(done)) as H.
  subst s. cbv zeta in H. destruct (run (exec Some keep) ops (nr_span_queue_create 2 100 0, [])) as [rs s]. exact (conj (proj1 H) (proj1 (proj2 H))).
Defined.
