(* ===== verification/PhpPackages.v ===== *)
(** * PhpPackages: the packages a program uses (src/axiom/nr_php_packages.c)

    The map from names holds pointers; the packages are in a heap, since a
    version is changed in place. *)

From S2P Require Import Prelude Memory CString Strings Hash HashMap Buffer TraceContext.
Local Open Scope Z_scope.

Definition PHP_PACKAGE_VERSION_UNKNOWN : list Z := lit " ".

Inductive nr_php_package_source_priority_t :=
| NR_PHP_PACKAGE_SOURCE_SUGGESTION | NR_PHP_PACKAGE_SOURCE_LEGACY | NR_PHP_PACKAGE_SOURCE_COMPOSER.
#[export] Instance source_eq_dec : EqDecision nr_php_package_source_priority_t.
Proof. solve_decision. Defined.
Definition rank (s : nr_php_package_source_priority_t) : Z :=
  match s with NR_PHP_PACKAGE_SOURCE_SUGGESTION => 0 | NR_PHP_PACKAGE_SOURCE_LEGACY => 1 | NR_PHP_PACKAGE_SOURCE_COMPOSER => 2 end.

Record nr_php_package_t := Package {
  package_name : list Z;
  package_version : list Z;
  source_priority : nr_php_package_source_priority_t;
}.

(** The packages, and the map from names to them. *)
Record packages_state := Packages {
  heap : gmap address nr_php_package_t;
  data : nr_hashmap_t (option address);
}.

Definition nr_php_package_create_with_source (name version : option (list Z)) (source : nr_php_package_source_priority_t)
    (h : gmap address nr_php_package_t) : option address * gmap address nr_php_package_t :=
  match name with
  | None => (None, h)
  | Some _ =>
      let p := fresh (dom h) in
      (Some p, <[p := Package (nr_strdup name) (match version with Some _ => nr_strdup version | None => PHP_PACKAGE_VERSION_UNKNOWN end) source]> h)
  end.

Definition nr_php_package_create (name version : option (list Z)) h := nr_php_package_create_with_source name version NR_PHP_PACKAGE_SOURCE_LEGACY h.

Definition nr_php_package_destroy (p : option address) (h : gmap address nr_php_package_t) : gmap address nr_php_package_t :=
  match p with Some p => delete p h | None => h end.

Definition nr_php_packages_create : packages_state := Packages ∅ (nr_hashmap_create true).

(** The package that is in the map afterwards, and the state. *)
Definition nr_php_packages_add_package (s : packages_state) (p : option address) : option address * packages_state :=
  match p ≫= λ a, heap s !! a with
  | None => (None, s)
  | Some pkg =>
      let name := Some (package_name pkg) in
      match nr_hashmap_get (Some (data s)) name with
      | Some a =>
          let h := match heap s !! a with
                   | Some old =>
                       if (rank (source_priority old) <=? rank (source_priority pkg)) && negb (nr_strcmp (Some (package_version old)) (Some (package_version pkg)) =? 0)
                       then <[a := Package (package_name old) (nr_strdup (Some (package_version pkg))) (source_priority old)]> (heap s)
                       else heap s
                   | None => heap s
                   end in
          (Some a, Packages (nr_php_package_destroy p h) (data s))
      | None => (p, Packages (heap s) (default (data s) (nr_hashmap_set (Some (data s)) name p).2))
      end
  end.

Section json.
Context `{Allocator Z}.

Definition nr_php_package_to_json (package : option nr_php_package_t) : option (list Z) :=
  match package with
  | None => None
  | Some p =>
      let buf := Some (nr_buffer_create 0 0) in
      let buf := nr_buffer_add buf (Some [91; 34]) 2 in
      let buf := nr_buffer_add buf (Some (package_name p)) (nr_strlen (Some (package_name p))) in
      let buf := nr_buffer_add buf (Some [34; 44; 34]) 3 in
      let buf := nr_buffer_add buf (Some (package_version p)) (nr_strlen (Some (package_version p))) in
      let buf := nr_buffer_add buf (Some (34 :: lit ",{}]")) 5 in
      let buf := nr_buffer_add buf (Some [0]) 1 in
      Some (nr_strdup (nr_buffer_cptr buf))
  end.

(** The buffer, and whether a package has been added. *)
Definition apply_package_to_json_conversion (h : gmap address nr_php_package_t) (builder : option nrbuf_t * bool) (value : option address) : option nrbuf_t * bool :=
  let '(buf, package_added) := builder in
  match nr_php_package_to_json (value ≫= λ a, h !! a) with
  | None => builder
  | Some json =>
      let buf := if package_added : bool then nr_buffer_add buf (Some (lit ",")) 1 else buf in
      (nr_buffer_add buf (Some json) (nr_strlen (Some json)), true)
  end.

Definition nr_php_packages_to_json_buffer (s : packages_state) (buf : option nrbuf_t) : bool * option nrbuf_t :=
  match buf with
  | None => (false, None)
  | Some _ =>
      let buf := nr_buffer_add buf (Some (lit "[")) 1 in
      let '(buf, _) := foldl (apply_package_to_json_conversion (heap s)) (buf, false) (nr_hashmap_apply (Some (data s))).*2 in
      (true, nr_buffer_add buf (Some (lit "]")) 1)
  end.

Definition nr_php_packages_to_json (s : packages_state) : option (list Z) :=
  let '(ok, buf) := nr_php_packages_to_json_buffer s (Some (nr_buffer_create 0 0)) in
  if ok : bool then Some (nr_strdup (nr_buffer_cptr (nr_buffer_add buf (Some [0]) 1))) else None.
End json.

(** ** What the packages are to be *)
Abbreviation versions := (gmap (list Z) (list Z * nr_php_package_source_priority_t)).
Record addition := Add { name : list Z; version : option (list Z); source : nr_php_package_source_priority_t }.

(** A later version of the same or a higher source replaces the one there is; the source stays that of the first. *)
Definition add_version (m : versions) (a : addition) : versions :=
  let v := default PHP_PACKAGE_VERSION_UNKNOWN (version a) in
  match m !! name a with
  | None => <[name a := (v, source a)]> m
  | Some (_, s) => if decide (rank s ≤ rank (source a)) then <[name a := (v, s)]> m else m
  end.

Record addition_ok (a : addition) : Prop := {
  ao_name : is_cstr (name a);
  ao_nonempty : name a ≠ [];
  ao_version : is_cstr (default [] (version a));
}.

Definition exec (s : packages_state) (a : addition) : packages_state :=
  let '(p, h) := nr_php_package_create_with_source (Some (name a)) (version a) (source a) (heap s) in
  (nr_php_packages_add_package (Packages h (data s)) p).2.

(** The map of the packages, and the strings. *)
Record holds_map (mm : gmap (list Z) (option address)) (s : packages_state) (m : versions) : Prop := {
  ho_represents : represents (data s) mm;
  ho_entries : ∀ k, match mm !! k with
    | Some v => ∃ p pkg, v = Some p ∧ heap s !! p = Some pkg ∧ package_name pkg = k ∧ m !! k = Some (package_version pkg, source_priority pkg)
    | None => m !! k = None
    end;
  ho_strings : ∀ k v, m !! k = Some v → is_cstr k ∧ is_cstr v.1;
}.
Definition holds (s : packages_state) (m : versions) : Prop := ∃ mm, holds_map mm s m.

Lemma packages_create_holds : holds nr_php_packages_create ∅.
Proof.
  exists ∅. constructor; [by apply create_represents|intros k; by rewrite !lookup_empty|intros k v; by rewrite lookup_empty].
Qed.

Lemma get_present (hm : nr_hashmap_t (option address)) mm k : represents hm mm → k ≠ [] → nr_hashmap_get (Some hm) (Some k) = default NULL (mm !! k).
Proof.
  intros Hr Hk. unfold nr_hashmap_get. destruct (get_into_spec hm mm (Some k) Hr) as [-> _]. unfold lookup_key, key_of.
  by destruct k.
Qed.

Lemma set_absent (hm : nr_hashmap_t (option address)) mm k v : represents hm mm → k ≠ [] → mm !! k = None →
  ∃ hm', (nr_hashmap_set (Some hm) (Some k) v).2 = Some hm' ∧ represents hm' (<[k := v]> mm).
Proof.
  intros Hr Hk Hm. unfold nr_hashmap_set, bad_args. destruct k as [|c k]; [done|]. pose proof (fetch_spec hm mm (c :: k) Hr) as Hf.
  destruct (nr_hashmap_fetch _ _ _) as [p|]; [destruct Hf as (b & _ & _ & E); congruence|]. eexists. split; [done|]. by apply add_represents.
Qed.

(** A version changed in place, and a new package. *)
Lemma packages_update_holds mm s m q old v : holds_map mm s m → mm !! package_name old = Some (Some q) → heap s !! q = Some old → is_cstr v →
  holds (Packages (<[q := Package (package_name old) v (source_priority old)]> (heap s)) (data s)) (<[package_name old := (v, source_priority old)]> m).
Proof.
  intros [Hr Hm Hstr] Hq' Hq Hv. exists mm. constructor.
  - done.
  - intros k. specialize (Hm k). cbn [heap]. destruct (decide (k = package_name old)) as [->|Hk].
    + rewrite Hq'. eexists q, _. rewrite !lookup_insert, !decide_True by done. done.
    + rewrite lookup_insert_ne by done. destruct (mm !! k) as [w|]; [|done]. destruct Hm as (p & pkg & -> & Hp & Hn & Hmk). exists p, pkg.
      rewrite lookup_insert_ne; [done|]. intros ->. congruence.
  - intros k w. destruct (decide (k = package_name old)) as [->|Hk].
    + rewrite lookup_insert, decide_True by done. intros [= <-]. specialize (Hm (package_name old)). rewrite Hq' in Hm.
      destruct Hm as (? & ? & _ & _ & _ & Hmo). split; [by eapply Hstr|done].
    + rewrite lookup_insert_ne by done. apply Hstr.
Qed.

Lemma packages_add_holds mm s m p pkg hm : holds_map mm s m → heap s !! p = None → represents hm (<[package_name pkg := Some p]> mm) →
  is_cstr (package_name pkg) → is_cstr (package_version pkg) →
  holds (Packages (<[p := pkg]> (heap s)) hm) (<[package_name pkg := (package_version pkg, source_priority pkg)]> m).
Proof.
  intros [Hr Hm Hstr] Hp Hhm Hn Hv. exists (<[package_name pkg := Some p]> mm). constructor.
  - done.
  - intros k. specialize (Hm k). cbn [heap]. destruct (decide (k = package_name pkg)) as [->|Hk].
    + rewrite lookup_insert, decide_True by done. exists p, pkg. rewrite !lookup_insert, !decide_True by done. done.
    + rewrite !lookup_insert_ne by done. destruct (mm !! k) as [w|]; [|done]. destruct Hm as (q & old & -> & Hq & Ho & Hmk). exists q, old.
      rewrite lookup_insert_ne; [done|]. intros ->. congruence.
  - intros k w. destruct (decide (k = package_name pkg)) as [->|Hk].
    + rewrite lookup_insert, decide_True by done. by intros [= <-].
    + rewrite lookup_insert_ne by done. apply Hstr.
Qed.

Lemma created_package a h : addition_ok a →
  let v := default PHP_PACKAGE_VERSION_UNKNOWN (version a) in let p := fresh (dom h) in
  nr_php_package_create_with_source (Some (name a)) (version a) (source a) h = (Some p, <[p := Package (name a) v (source a)]> h) ∧ is_cstr v.
Proof.
  intros [Hn Hne Hv]. cbn zeta. unfold nr_php_package_create_with_source, nr_strdup. simpl default at 1. rewrite (cstr_id (name a)) by done.
  destruct (version a) as [v|]; simpl in *; [by rewrite cstr_id|]. split; [done|]. by apply (bool_decide_unpack _).
Qed.

Lemma packages_exec_holds s m a : holds s m → addition_ok a → holds (exec s a) (add_version m a).
Proof.
  intros [mm Hs] Ha. destruct (created_package a (heap s) Ha) as [E Hvc]. unfold exec. rewrite E. clear E. destruct Ha as [Hn Hne _].
  set (p := fresh (dom (heap s))) in *. assert (heap s !! p = None) as Hp by apply not_elem_of_dom, is_fresh.
  unfold add_version. set (v := default _ (version a)) in *. destruct s as [h d]. cbn [heap data] in *.
  unfold nr_php_packages_add_package. cbn [mbind option_bind heap data]. rewrite lookup_insert, decide_True by done. cbn [package_name].
  rewrite (get_present _ mm) by (done || apply Hs). pose proof (ho_entries _ _ _ Hs (name a)) as Hma. cbn [heap] in Hma.
  destruct (mm !! name a) as [w|] eqn:Emm; cbn [default from_option id].
  - destruct Hma as (q & old & -> & Hq & Hqn & Hqm). unfold id. assert (p ≠ q) as Hqp by (intros ->; congruence).
    rewrite lookup_insert_ne, Hq, Hqm by done. cbn [snd fst nr_php_package_destroy source_priority package_version nr_strcmp].
    rewrite <-Hqn in Emm, Hqm |- *. destruct (decide (rank (source_priority old) ≤ rank (source a))) as [Hle|Hlt].
    + destruct (Z.leb_spec (rank (source_priority old)) (rank (source a))); [|lia]. cbn [andb].
      pose proof (ho_strings _ _ _ Hs _ _ Hqm) as [_ Hvo]. cbn [fst] in Hvo.
      destruct (Z.eqb_spec (strcmp (package_version old) v) 0) as [E|E]; cbn [negb].
      * apply strcmp_eq in E; [|done..]. rewrite delete_insert_id by done. rewrite <-E, insert_id by done. by exists mm.
      * rewrite delete_insert_ne, delete_insert_id by done. unfold nr_strdup. simpl default. rewrite cstr_id by done.
        by apply (packages_update_holds mm (Packages h d) m q old v).
    + destruct (Z.leb_spec (rank (source_priority old)) (rank (source a))); [lia|]. cbn [andb]. rewrite delete_insert_id by done. by exists mm.
  - rewrite Hma. change (NULL : option address) with (@None address). cbv iota.
    destruct (set_absent d mm (name a) (Some p) (ho_represents _ _ _ Hs) Hne Emm) as (hm' & Eset & Hr'). rewrite Eset. cbn [default from_option id snd].
    by apply (packages_add_holds mm (Packages h d) m p (Package (name a) v (source a)) hm').
Qed.

(** ** The text *)
Definition entry_text (e : list Z * (list Z * nr_php_package_source_priority_t)) : list Z :=
  [91; 34] ++ e.1 ++ [34; 44; 34] ++ e.2.1 ++ 34 :: lit ",{}]".

Section text.
Context `{Allocator Z}.

Lemma package_text pkg : is_cstr (package_name pkg) → is_cstr (package_version pkg) →
  let t := entry_text (package_name pkg, (package_version pkg, source_priority pkg)) in
  nr_php_package_to_json (Some pkg) = Some t ∧ is_cstr t.
Proof.
  intros Hn Hv t. unfold nr_php_package_to_json. rewrite !nr_strlen_cstr by done.
  assert (is_cstr t) as Ht.
  { subst t. unfold entry_text. cbn [fst snd]. repeat (apply Forall_app; split); (done || by apply (bool_decide_unpack _)). }
  split; [|done]. f_equal.
  apply (terminated_text (λ b, nr_buffer_add (nr_buffer_add (nr_buffer_add (nr_buffer_add (nr_buffer_add b (Some [91; 34]) 2)
    (Some (package_name pkg)) (Z.of_nat (length (package_name pkg)))) (Some [34; 44; 34]) 3) (Some (package_version pkg)) (Z.of_nat (length (package_version pkg))))
    (Some (34 :: lit ",{}]")) 5)); [|done..]. subst t. unfold entry_text. cbn [fst snd].
  exact (appends_then _ (λ b, nr_buffer_add (nr_buffer_add (nr_buffer_add (nr_buffer_add b _ _) _ _) _ _) _ _) _ _ (appends_add [91; 34] 2 eq_refl)
    (appends_then _ (λ b, nr_buffer_add (nr_buffer_add (nr_buffer_add b _ _) _ _) _ _) _ _ (appends_add (package_name pkg) _ eq_refl)
      (appends_then _ (λ b, nr_buffer_add (nr_buffer_add b _ _) _ _) _ _ (appends_add [34; 44; 34] 3 eq_refl)
        (appends_then _ _ _ _ (appends_add (package_version pkg) _ eq_refl) (appends_add (34 :: lit ",{}]") 5 eq_refl))))).
Qed.

Abbreviation entry := (list Z * (list Z * nr_php_package_source_priority_t))%type.

(** A value of the map, and what is written for it. *)
Definition written (h : gmap address nr_php_package_t) (v : option address) (e : entry) : Prop :=
  ∃ p pkg, v = Some p ∧ h !! p = Some pkg ∧ e = (package_name pkg, (package_version pkg, source_priority pkg)) ∧
    is_cstr (package_name pkg) ∧ is_cstr (package_version pkg).

Lemma conversion_step h v e added : written h v e →
  (∀ b, (apply_package_to_json_conversion h (b, added) v).2 = true) ∧
  appends (λ b, (apply_package_to_json_conversion h (b, added) v).1) ((if added then [44] else []) ++ entry_text e).
Proof.
  intros (p & pkg & -> & Hp & -> & Hn & Hv). destruct (package_text pkg Hn Hv) as [Et Hc]. unfold apply_package_to_json_conversion.
  cbn [mbind option_bind]. rewrite Hp, Et, nr_strlen_cstr by done. split; [done|]. cbn [fst]. destruct added; [|by apply appends_add].
  exact (appends_then _ _ [44] _ (appends_add (lit ",") 1 eq_refl) (appends_add _ _ eq_refl)).
Qed.

Lemma conversions_append h vs es : Forall2 (written h) vs es →
  ∀ added, appends (λ b, (foldl (apply_package_to_json_conversion h) (b, added) vs).1)
    (if added then flat_map (λ t, 44 :: t) (entry_text <$> es) else join 44 (entry_text <$> es)).
Proof.
  induction 1 as [|v e vs es Hw _ IH]; intros added; [destruct added; apply appends_id|]. cbn [foldl].
  destruct (conversion_step h v e added Hw) as [H2 H1]. intros bp Hb. destruct (H1 bp Hb) as (b1 & E1 & Hb1 & C1).
  assert (apply_package_to_json_conversion h (Some bp, added) v = (Some b1, true)) as ->.
  { rewrite (surjective_pairing (apply_package_to_json_conversion _ _ _)). by rewrite E1, H2. }
  destruct (IH true b1 Hb1) as (b2 & E2 & Hb2 & C2). exists b2. rewrite E2, C2, C1. split_and!; [done|done|]. rewrite <-!app_assoc, fmap_cons, join_tail.
  by destruct added.
Qed.

Lemma to_json_text s vs es : (nr_hashmap_apply (Some (data s))).*2 = vs → Forall2 (written (heap s)) vs es →
  nr_php_packages_to_json s = Some (lit "[" ++ join 44 (entry_text <$> es) ++ lit "]").
Proof.
  intros Ev Hw. unfold nr_php_packages_to_json, nr_php_packages_to_json_buffer. rewrite Ev.
  rewrite (surjective_pairing (foldl _ _ _)). f_equal.
  apply (terminated_text (λ b, nr_buffer_add (foldl (apply_package_to_json_conversion (heap s)) (nr_buffer_add b (Some (lit "[")) 1, false) vs).1 (Some (lit "]")) 1)); [| |done|done].
  - exact (appends_then _ (λ b, nr_buffer_add (foldl (apply_package_to_json_conversion (heap s)) (b, false) vs).1 (Some (lit "]")) 1) _ _ (appends_add (lit "[") 1 eq_refl)
      (appends_then _ _ _ _ (conversions_append (heap s) vs es Hw false) (appends_add (lit "]") 1 eq_refl))).
  - apply Forall_app. split; [by apply (bool_decide_unpack _)|]. apply Forall_app. split; [|by apply (bool_decide_unpack _)].
    apply join_forall; [lia|]. apply Forall_fmap. clear Ev. induction Hw as [|v e vs es (p & pkg & _ & _ & -> & Hn & Hv) _ IH]; [apply Forall_nil_2|].
    apply Forall_cons_2; [|done]. by apply (package_text pkg).
Qed.
End text.

Lemma entries_permutation mm s m : holds_map mm s m →
  ∃ es, es ≡ₚ map_to_list m ∧ Forall2 (written (heap s)) (nr_hashmap_apply (Some (data s))).*2 es.
Proof.
  intros [Hr Hm Hstr]. pose proof (apply_spec (data s) mm Hr) as Hp.
  assert (∀ l, l ≡ₚ map_to_list mm → ∃ es, es.*1 = l.*1 ∧ Forall2 (written (heap s)) l.*2 es ∧ Forall (λ e, m !! e.1 = Some e.2) es) as Hes.
  { intros l Hl. assert (Forall (λ kv, mm !! kv.1 = Some kv.2) l) as Hin.
    { apply Forall_forall. intros [k v] Hkv. rewrite Hl in Hkv. by apply elem_of_map_to_list in Hkv. }
    clear Hl. induction Hin as [|[k v] l Hkv _ (es & E1 & E2 & E3)]; [exists []; split_and!; [done|apply Forall2_nil_2|apply Forall_nil_2]|]. cbn [fst snd] in Hkv.
    specialize (Hm k). rewrite Hkv in Hm. destruct Hm as (p & pkg & -> & Hpk & Hn & Hmk). destruct (Hstr k _ Hmk) as [Hkc Hvc]. cbn [fst] in Hvc.
    exists ((k, (package_version pkg, source_priority pkg)) :: es). cbn [fmap list_fmap]. rewrite E1. split_and!; [done| |by apply Forall_cons_2].
    apply Forall2_cons_2; [|done]. exists p, pkg. rewrite Hn. done. }
  destruct (Hes _ Hp) as (es & E1 & E2 & E3). exists es. split; [|done]. apply NoDup_Permutation.
  - apply (NoDup_fmap_1 fst). rewrite E1, Hp. apply NoDup_fst_map_to_list.
  - apply NoDup_map_to_list.
  - intros [k v]. rewrite elem_of_map_to_list. split; [intros Hin; rewrite Forall_forall in E3; by apply (E3 (k, v))|]. intros Hk.
    assert (k ∈ es.*1) as Hin.
    { rewrite E1, Hp. specialize (Hm k). destruct (mm !! k) as [w|] eqn:E; [|congruence]. apply list_elem_of_fmap. exists (k, w). split; [done|]. by apply elem_of_map_to_list. }
    apply list_elem_of_fmap in Hin as ([k' v'] & -> & Hin). cbn in *. rewrite Forall_forall in E3. specialize (E3 _ Hin). cbn in E3. rewrite Hk in E3. injection E3 as ->. done.
Qed.

(** C29: packages that are added one after the other, each with a name that is
    not empty, are a map from names to versions.  A version replaces the one there
    is when its source is at least as good as the first source of that name, and
    not otherwise: the newer version is not always kept.  Only the first source
    of a name counts, whatever source its present version is from: legacy, then
    composer, then legacy again leaves the last.  The text for the daemon lists
    every package of the map once. *)
Theorem nr_php_packages_refine_map `{Allocator Z} adds : Forall addition_ok adds →
  let m := foldl add_version ∅ adds in
  ∃ es, es ≡ₚ map_to_list m ∧
    nr_php_packages_to_json (foldl exec nr_php_packages_create adds) = Some (lit "[" ++ join 44 (entry_text <$> es) ++ lit "]").
Proof.
  intros Ha m. assert (holds (foldl exec nr_php_packages_create adds) m) as [mm Hh].
  { subst m. generalize packages_create_holds. generalize nr_php_packages_create (∅ : versions). induction Ha as [|a adds Hok _ IH]; intros s m Hs; [done|].
    cbn [foldl]. by apply IH, packages_exec_holds. }
  destruct (entries_permutation mm _ _ Hh) as (es & Hp & Hw). exists es. split; [done|]. by eapply to_json_text.
Qed.

Lemma nr_php_packages_refine_map_witness :
  let adds := [Add (lit "vendor/a") (Some (lit "1.0")) NR_PHP_PACKAGE_SOURCE_LEGACY; Add (lit "vendor/a") (Some (lit "1.1")) NR_PHP_PACKAGE_SOURCE_COMPOSER;
    Add (lit "vendor/a") (Some (lit "0.9")) NR_PHP_PACKAGE_SOURCE_SUGGESTION; Add (lit "b") None NR_PHP_PACKAGE_SOURCE_SUGGESTION] in
  ∃ es, es ≡ₚ map_to_list (foldl add_version ∅ adds) ∧
    nr_php_packages_to_json (H := GenerousAllocator.allocator Z) (foldl exec nr_php_packages_create adds) = Some (lit "[" ++ join 44 (entry_text <$> es) ++ lit "]").
Proof.
  apply (nr_php_packages_refine_map (H := GenerousAllocator.allocator Z)).
  repeat (apply Forall_cons_2; [constructor; [by apply (bool_decide_unpack _)|done|by apply (bool_decide_unpack _)]|]). apply Forall_nil_2.
Defined.
