(* ===== verification/Md5.v ===== *)
(** * Md5: message digests in pieces, and path hashes (src/axiom/util_md5.c and util_hash.c)

    A context takes a message in pieces of any size.  The reference is RFC 1321:
    the message is padded to a multiple of 64 bytes and goes block by block
    through four rounds of sixteen steps. *)

From S2P Require Import Prelude Memory CString Strings Hash Json Double ObjectParse.
Local Open Scope Z_scope.

(** ** The steps *)
Definition F (x y z : Z) : Z := Z.lxor z (Z.land x (Z.lxor y z)).
Definition G (x y z : Z) : Z := Z.lxor y (Z.land z (Z.lxor x y)).
Definition H (x y z : Z) : Z := Z.lxor (Z.lxor x y) z.
Definition H2 (x y z : Z) : Z := Z.lxor x (Z.lxor y z).
Definition I (x y z : Z) : Z := Z.lxor y (Z.lor x (u32 (Z.lnot z))).

(** The registers, in the roles they have in the next step. *)
Record registers := Registers { ra : Z; rb : Z; rc : Z; rd : Z }.

(** One step changes the register [a]; the next one has it in the role of [b]. *)
Definition STEP (f : Z → Z → Z → Z) (x t s : Z) (r : registers) : registers :=
  let a := u32 (ra r + (f (rb r) (rc r) (rd r) + x + t)) in
  let a := u32 (rotl32 a s + rb r) in
  Registers (rd r) a (rb r) (rc r).

(** Function, word of the block, constant and rotation of each step. *)
Definition steps : list ((Z → Z → Z → Z) * Z * Z * Z) :=
  [(F, 0, 0xd76aa478, 7); (F, 1, 0xe8c7b756, 12); (F, 2, 0x242070db, 17); (F, 3, 0xc1bdceee, 22);
   (F, 4, 0xf57c0faf, 7); (F, 5, 0x4787c62a, 12); (F, 6, 0xa8304613, 17); (F, 7, 0xfd469501, 22);
   (F, 8, 0x698098d8, 7); (F, 9, 0x8b44f7af, 12); (F, 10, 0xffff5bb1, 17); (F, 11, 0x895cd7be, 22);
   (F, 12, 0x6b901122, 7); (F, 13, 0xfd987193, 12); (F, 14, 0xa679438e, 17); (F, 15, 0x49b40821, 22);
   (G, 1, 0xf61e2562, 5); (G, 6, 0xc040b340, 9); (G, 11, 0x265e5a51, 14); (G, 0, 0xe9b6c7aa, 20);
   (G, 5, 0xd62f105d, 5); (G, 10, 0x02441453, 9); (G, 15, 0xd8a1e681, 14); (G, 4, 0xe7d3fbc8, 20);
   (G, 9, 0x21e1cde6, 5); (G, 14, 0xc33707d6, 9); (G, 3, 0xf4d50d87, 14); (G, 8, 0x455a14ed, 20);
   (G, 13, 0xa9e3e905, 5); (G, 2, 0xfcefa3f8, 9); (G, 7, 0x676f02d9, 14); (G, 12, 0x8d2a4c8a, 20);
   (H, 5, 0xfffa3942, 4); (H2, 8, 0x8771f681, 11); (H, 11, 0x6d9d6122, 16); (H2, 14, 0xfde5380c, 23);
   (H, 1, 0xa4beea44, 4); (H2, 4, 0x4bdecfa9, 11); (H, 7, 0xf6bb4b60, 16); (H2, 10, 0xbebfbc70, 23);
   (H, 13, 0x289b7ec6, 4); (H2, 0, 0xeaa127fa, 11); (H, 3, 0xd4ef3085, 16); (H2, 6, 0x04881d05, 23);
   (H, 9, 0xd9d4d039, 4); (H2, 12, 0xe6db99e5, 11); (H, 15, 0x1fa27cf8, 16); (H2, 2, 0xc4ac5665, 23);
   (I, 0, 0xf4292244, 6); (I, 7, 0x432aff97, 10); (I, 14, 0xab9423a7, 15); (I, 5, 0xfc93a039, 21);
   (I, 12, 0x655b59c3, 6); (I, 3, 0x8f0ccc92, 10); (I, 10, 0xffeff47d, 15); (I, 1, 0x85845dd1, 21);
   (I, 8, 0x6fa87e4f, 6); (I, 15, 0xfe2ce6e0, 10); (I, 6, 0xa3014314, 15); (I, 13, 0x4e0811a1, 21);
   (I, 4, 0xf7537e82, 6); (I, 11, 0xbd3af235, 10); (I, 2, 0x2ad7d2bb, 15); (I, 9, 0xeb86d391, 21)].

Definition SET (ptr : list Z) (n : Z) : Z := read_uint32 ptr (n * 4).

Definition block_steps (ptr : list Z) (r : registers) : registers :=
  foldl (λ r '(f, n, t, s), STEP f (SET ptr n) t s r) r steps.

Definition add_saved (r saved : registers) : registers :=
  Registers (u32 (ra r + ra saved)) (u32 (rb r + rb saved)) (u32 (rc r + rc saved)) (u32 (rd r + rd saved)).

(** So many blocks of 64 bytes. *)
Fixpoint body (n : nat) (r : registers) (ptr : list Z) : registers :=
  match n with
  | O => r
  | S n => body n (add_saved (block_steps ptr r) r) (drop 64 ptr)
  end.

(** ** Contexts *)
Record nr_MD5_CTX := Context { lo : Z; hi : Z; regs : registers; buffer : list Z }.

Definition init_registers : registers := Registers 0x67452301 0xefcdab89 0x98badcfe 0x10325476.
Definition nr_MD5_Init (ctx : nr_MD5_CTX) : nr_MD5_CTX := Context 0 0 init_registers (buffer ctx).

Definition nr_MD5_Update (ctx : nr_MD5_CTX) (data : list Z) : nr_MD5_CTX :=
  let size := Z.of_nat (length data) in
  let saved_lo := lo ctx in
  let lo := Z.land (saved_lo + size) 0x1fffffff in
  let hi := if lo <? saved_lo then u32 (hi ctx + 1) else hi ctx in
  let hi := u32 (hi + Z.shiftr size 29) in
  let used := Z.land saved_lo 0x3f in
  let rest data size r buffer :=
    let n := Z.to_nat (size / 64) in
    Context lo hi (body n r data) (write buffer 0 (drop (64 * n) data)) in
  if negb (used =? 0) then
    let available := 64 - used in
    if size <? available then Context lo hi (regs ctx) (write (buffer ctx) used data)
    else
      let buffer := write (buffer ctx) used (take (Z.to_nat available) data) in
      rest (drop (Z.to_nat available) data) (size - available) (body 1 (regs ctx) buffer) buffer
  else rest data size (regs ctx) (buffer ctx).

(** The bytes of a word. *)
Definition word_bytes (x : Z) : list Z := [Z.land x 255; Z.land (Z.shiftr x 8) 255; Z.land (Z.shiftr x 16) 255; Z.land (Z.shiftr x 24) 255].
Definition digest (r : registers) : list Z := word_bytes (ra r) ++ word_bytes (rb r) ++ word_bytes (rc r) ++ word_bytes (rd r).
Definition zeros (n : Z) : list Z := replicate (Z.to_nat n) 0.

Definition nr_MD5_Final (ctx : nr_MD5_CTX) : list Z :=
  let used := Z.land (lo ctx) 0x3f in
  let buffer := write (buffer ctx) used [0x80] in
  let used := used + 1 in
  let available := 64 - used in
  let '(r, buffer, used, available) :=
    if available <? 8 then
      let buffer := write buffer used (zeros available) in (body 1 (regs ctx) buffer, buffer, 0, 64)
    else (regs ctx, buffer, used, available) in
  let buffer := write buffer used (zeros (available - 8)) in
  let buffer := write buffer 56 (word_bytes (u32 (Z.shiftl (lo ctx) 3))) in
  let buffer := write buffer 60 (word_bytes (hi ctx)) in
  digest (body 1 r buffer).

(** ** Hashes of strings and of paths of transactions *)
Definition nr_hash_md5 (start : nr_MD5_CTX) (input : option (list Z)) (size : Z) : option (list Z) :=
  match input with
  | None => None
  | Some input => if size <? 0 then None else Some (nr_MD5_Final (nr_MD5_Update (nr_MD5_Init start) (take (Z.to_nat size) input)))
  end.

(** [sscanf] with [%x]: C leaves a number over 32 bits open; here it is cut, as by the usual library. *)
Definition skip_0x (s : list Z) : list Z :=
  match s with 48 :: c :: r => if (c =? 120) || (c =? 88) then r else s | _ => s end.
Definition scan_x (s : list Z) : option Z :=
  let '(neg, s) := scan_sign (span nr_isspace (cstr s)).2 in
  let ds := (span nr_isxdigit (skip_0x s)).1 in
  match ds with
  | [] => None
  | _ => let v := of_hex ds in Some (u32 (if 2 ^ 64 <=? v then 2 ^ 64 - 1 else if neg : bool then - v else v))
  end.
(** [%08x] *)
Definition hex8 (v : Z) : list Z := hex4 (v / 65536) ++ hex4 (v mod 65536).

(** [start] is what the memory of the context holds before. *)
Definition nr_hash_cat_path (start : nr_MD5_CTX) (txn_name primary_app_name referring_path_hash : option (list Z)) : option (list Z) :=
  match txn_name, primary_app_name with
  | Some txn, Some app =>
      let refer := match referring_path_hash with None => 0 | Some s => default 0 (scan_x s) end in
      let refer := Z.lor (u32 (Z.shiftl refer 1)) (Z.shiftr refer 31) in
      let app_txn := cstr app ++ [59] ++ cstr txn in
      match nr_hash_md5 start (Some app_txn) (nr_strlen (Some app_txn)) with
      | None => None
      | Some md5 => Some (hex8 (Z.lxor refer (nr_hash_md5_low32 (Some md5))))
      end
  | _, _ => None
  end.

(** ** RFC 1321 *)
Definition rfc_function (i : Z) (x y z : Z) : Z :=
  if i <? 16 then Z.lor (Z.land x y) (Z.ldiff z x)
  else if i <? 32 then Z.lor (Z.land x z) (Z.ldiff y z)
  else if i <? 48 then Z.lxor x (Z.lxor y z)
  else Z.lxor y (Z.lor x (u32 (Z.lnot z))).
Definition rfc_word (i : Z) : Z :=
  if i <? 16 then i else if i <? 32 then (5 * i + 1) mod 16 else if i <? 48 then (3 * i + 5) mod 16 else (7 * i) mod 16.
Definition rfc_shift (i : Z) : Z :=
  char_at (if i <? 16 then [7; 12; 17; 22] else if i <? 32 then [5; 9; 14; 20] else if i <? 48 then [4; 11; 16; 23] else [6; 10; 15; 21]) (i mod 4).

(** The table of the sine: 2^32 times the magnitude of the sine of i + 1, which is
    summed up to 150 terms of its series, in units of 2^-256. *)
Fixpoint sine_series (fuel : nat) (k x term : Z) : Z :=
  match fuel with O => 0 | S fuel => term + sine_series fuel (k + 2) x (- (term * x * x) / ((k + 1) * (k + 2))) end.
Definition rfc_sine (i : Z) : Z := Z.abs (sine_series 150 1 (i + 1) ((i + 1) * 2 ^ 256)) / 2 ^ 224.

Definition rfc_block (ptr : list Z) (r : registers) : registers :=
  add_saved (foldl (λ r i, STEP (rfc_function i) (SET ptr (rfc_word i)) (rfc_sine i) (rfc_shift i) r) r (seqZ 0 64)) r.
Fixpoint rfc_blocks (n : nat) (r : registers) (m : list Z) : registers :=
  match n with O => r | S n => rfc_blocks n (rfc_block m r) (drop 64 m) end.

(** A one bit, zeros up to 56 bytes of a block, and the number of bits in 64. *)
Definition pad (m : list Z) : list Z :=
  let n := Z.of_nat (length m) in
  m ++ [0x80] ++ zeros ((55 - n) mod 64) ++ word_bytes (u32 (8 * n)) ++ word_bytes (u32 (8 * n / 2 ^ 32)).
Definition md5 (m : list Z) : list Z :=
  let p := pad m in digest (rfc_blocks (length p / 64) init_registers p).

(** ** The steps are those of the standard *)
Lemma F_rfc x y z : F x y z = Z.lor (Z.land x y) (Z.ldiff z x).
Proof.
  apply Z.bits_inj'. intros n Hn. unfold F. rewrite Z.lxor_spec, Z.lor_spec, !Z.land_spec, Z.ldiff_spec, Z.lxor_spec.
  by destruct (Z.testbit x n), (Z.testbit y n), (Z.testbit z n).
Qed.
Lemma G_rfc x y z : G x y z = Z.lor (Z.land x z) (Z.ldiff y z).
Proof.
  apply Z.bits_inj'. intros n Hn. unfold G. rewrite Z.lxor_spec, Z.lor_spec, !Z.land_spec, Z.ldiff_spec, Z.lxor_spec.
  by destruct (Z.testbit x n), (Z.testbit y n), (Z.testbit z n).
Qed.

(** A step of the code, and the number of the step it is. *)
Definition step_is (st : (Z → Z → Z → Z) * Z * Z * Z) (i : Z) : Prop :=
  let '(f, n, t, s) := st in (∀ x y z, f x y z = rfc_function i x y z) ∧ n = rfc_word i ∧ t = rfc_sine i ∧ s = rfc_shift i ∧ 0 ≤ n < 16.

Lemma steps_standard : Forall2 step_is steps (seqZ 0 64).
Proof.
  change (seqZ 0 64) with (Z.of_nat <$> seq 0 64). cbn [seq fmap list_fmap]. unfold steps.
  repeat (apply Forall2_cons_2; [split_and!; [intros x y z; (apply F_rfc || apply G_rfc || apply Z.lxor_assoc || reflexivity)|reflexivity|vm_compute; reflexivity|reflexivity|done|done]|]).
  apply Forall2_nil_2.
Qed.

Lemma block_rfc ptr r : add_saved (block_steps ptr r) r = rfc_block ptr r.
Proof.
  unfold rfc_block, block_steps. f_equal. revert r. pose proof steps_standard as Hs. revert Hs. generalize steps (seqZ 0 64).
  induction 1 as [|[[[f n] t] s] i l li (Hf & -> & -> & -> & _) _ IH]; intros r; [done|]. cbn [foldl]. rewrite IH. f_equal. unfold STEP. by rewrite Hf.
Qed.

Lemma body_rfc n r m : body n r m = rfc_blocks n r m.
Proof. revert r m. induction n as [|n IH]; intros; [done|]. cbn [body rfc_blocks]. by rewrite block_rfc, IH. Qed.

(** ** Blocks of a longer message *)
Lemma char_at_app p q i : 0 ≤ i < Z.of_nat (length p) → char_at (p ++ q) i = char_at p i.
Proof. intros Hi. unfold char_at. by rewrite lookup_app_l by lia. Qed.

Lemma block_steps_prefix p q r : (64 ≤ length p)%nat → block_steps (p ++ q) r = block_steps p r.
Proof.
  intros Hp. unfold block_steps. pose proof steps_standard as Hs. revert r. induction Hs as [|[[[f n] t] s] i l li (_ & _ & _ & _ & Hn) _ IH]; intros r; [done|].
  cbn [foldl]. rewrite <-IH. f_equal. unfold STEP, SET, read_uint32. by rewrite !char_at_app by lia.
Qed.

Lemma body_prefix n r p q : (64 * n ≤ length p)%nat → body n r (p ++ q) = body n r p.
Proof.
  revert r p. induction n as [|n IH]; intros r p Hp; [done|]. cbn [body]. rewrite block_steps_prefix by lia.
  rewrite drop_app_le by lia. apply IH. rewrite length_drop. lia.
Qed.

Lemma body_app n k r p q : length p = (64 * n)%nat → body (n + k) r (p ++ q) = body k (body n r p) q.
Proof.
  revert r p. induction n as [|n IH]; intros r p Hp; [by destruct p|]. cbn [Nat.add body]. rewrite block_steps_prefix by lia.
  rewrite drop_app_le by lia. apply IH. rewrite length_drop. lia.
Qed.

(** The bytes of a buffer that have been filled, and more. *)
Lemma write_prefix (b s p : list Z) u : take (Z.to_nat u) b = p → Z.of_nat (length p) = u → u + Z.of_nat (length s) ≤ Z.of_nat (length b) →
  take (Z.to_nat (u + Z.of_nat (length s))) (write b u s) = p ++ s ∧ length (write b u s) = length b.
Proof.
  intros Hp Hu Hs. rewrite write_at by lia. rewrite Hp. split; [|rewrite !length_app, length_drop; lia].
  rewrite app_assoc. apply take_app_length'. rewrite length_app. lia.
Qed.

(** ** What a context has absorbed *)
Definition full_blocks (m : list Z) : nat := (length m / 64)%nat.
Definition rest_of (m : list Z) : list Z := drop (64 * full_blocks m) m.

Lemma length_rest m : length (rest_of m) = (length m mod 64)%nat.
Proof. unfold rest_of, full_blocks. rewrite length_drop. pose proof (Nat.div_mod (length m) 64). lia. Qed.

Lemma rest_split m : take (64 * full_blocks m) m ++ rest_of m = m.
Proof. apply take_drop. Qed.

(** The block that a piece completes. *)
Lemma body_extend m s : body 1 (body (full_blocks m) init_registers m) (rest_of m ++ s) = body (full_blocks m + 1) init_registers (m ++ s).
Proof.
  assert (length (take (64 * full_blocks m) m) = (64 * full_blocks m)%nat) as Hl.
  { rewrite length_take. unfold full_blocks. pose proof (Nat.div_mod (length m) 64 ltac:(done)). lia. }
  pose proof (body_app (full_blocks m) 1 init_registers _ (rest_of m ++ s) Hl) as Ha. rewrite app_assoc, rest_split in Ha. rewrite Ha.
  f_equal. pose proof (body_prefix (full_blocks m) init_registers (take (64 * full_blocks m) m) (rest_of m)) as Hp. rewrite rest_split in Hp. apply Hp. lia.
Qed.

Record absorbed (ctx : nr_MD5_CTX) (m : list Z) : Prop := {
  ab_lo : lo ctx = Z.of_nat (length m) mod 2 ^ 29;
  ab_hi : hi ctx = u32 (Z.of_nat (length m) / 2 ^ 29);
  ab_regs : regs ctx = body (full_blocks m) init_registers m;
  ab_length : length (buffer ctx) = 64%nat;
  ab_buffer : take (length (rest_of m)) (buffer ctx) = rest_of m;
}.

Lemma init_absorbed ctx : length (buffer ctx) = 64%nat → absorbed (nr_MD5_Init ctx) [].
Proof. by constructor. Qed.

(** The blocks behind a whole number of them. *)
Lemma rest_absorbed m1 k data b : length m1 = (64 * k)%nat → length b = 64%nat →
  let n := (length data / 64)%nat in let m := m1 ++ data in let b' := write b 0 (drop (64 * n) data) in
  body n (body k init_registers m1) data = body (full_blocks m) init_registers m ∧ length b' = 64%nat ∧ take (length (rest_of m)) b' = rest_of m.
Proof.
  intros Hm Hb n m b'. pose proof (Nat.div_mod (length data) 64 ltac:(done)) as Hd. pose proof (Nat.mod_upper_bound (length data) 64 ltac:(done)) as Hu.
  assert (full_blocks m = (k + n)%nat) as Hf.
  { unfold full_blocks. subst m. rewrite length_app, Hm. replace (64 * k + length data)%nat with (length data + k * 64)%nat by lia. rewrite Nat.div_add by done. lia. }
  assert (rest_of m = drop (64 * n) data) as Hr.
  { unfold rest_of. rewrite Hf. subst m. rewrite drop_app_ge by lia. f_equal. lia. }
  rewrite Hf, Hr. subst m. rewrite body_app by done. split; [done|].
  assert (Z.of_nat (length (drop (64 * n) data)) ≤ 64) as Hl by (rewrite length_drop; subst n; lia).
  destruct (write_prefix b (drop (64 * n) data) [] 0) as [Ht Hlen]; [done|done|lia|]. subst b'. split; [lia|].
  rewrite Z.add_0_l, Nat2Z.id in Ht. exact Ht.
Qed.

Lemma land_mask x n : 0 ≤ n → Z.land x (2 ^ n - 1) = x mod 2 ^ n.
Proof. intros Hn. rewrite <-Z.land_ones by done. by rewrite Z.ones_equiv, Z.sub_1_r. Qed.

(** The counter of bytes, in 29 and 32 bits. *)
Lemma count_spec l s : 0 ≤ l → 0 ≤ s →
  let lo := Z.land (l mod 2 ^ 29 + s) 0x1fffffff in
  lo = (l + s) mod 2 ^ 29 ∧
  u32 ((if lo <? l mod 2 ^ 29 then u32 (u32 (l / 2 ^ 29) + 1) else u32 (l / 2 ^ 29)) + Z.shiftr s 29) = u32 ((l + s) / 2 ^ 29).
Proof.
  intros Hl Hs lo. assert (lo = (l + s) mod 2 ^ 29) as Elo by (subst lo; change 0x1fffffff with (2 ^ 29 - 1); rewrite land_mask by done; by rewrite Zplus_mod_idemp_l).
  split; [done|]. rewrite Elo, Z.shiftr_div_pow2 by done. set (b := 2 ^ 29) in *. assert (0 < b) by (subst b; lia).
  assert ((l + s) / b = l / b + s / b + (if (l + s) mod b <? l mod b then 1 else 0)) as ->.
  { pose proof (Z.div_mod l b ltac:(lia)). pose proof (Z.div_mod s b ltac:(lia)). pose proof (Z.mod_pos_bound l b ltac:(lia)). pose proof (Z.mod_pos_bound s b ltac:(lia)).
    destruct (Z.lt_ge_cases (l mod b + s mod b) b).
    - assert ((l + s) mod b = l mod b + s mod b) as E by (symmetry; apply (Z.mod_unique_pos _ _ (l / b + s / b)); lia).
      rewrite E. destruct (Z.ltb_spec (l mod b + s mod b) (l mod b)); [lia|]. symmetry. apply (Z.div_unique_pos _ _ _ (l mod b + s mod b)); lia.
    - assert ((l + s) mod b = l mod b + s mod b - b) as E by (symmetry; apply (Z.mod_unique_pos _ _ (l / b + s / b + 1)); lia).
      rewrite E. destruct (Z.ltb_spec (l mod b + s mod b - b) (l mod b)); [|lia]. symmetry. apply (Z.div_unique_pos _ _ _ (l mod b + s mod b - b)); lia. }
  unfold u32. destruct (_ <? _); rewrite ?Zplus_mod_idemp_l; [|f_equal; lia]. rewrite <-Z.add_assoc, Zplus_mod_idemp_l. f_equal. lia.
Qed.

Lemma mod_blocks l : Z.land (Z.of_nat l mod 2 ^ 29) 0x3f = Z.of_nat (l mod 64).
Proof.
  change 0x3f with (2 ^ 6 - 1). rewrite land_mask by done. rewrite Nat2Z.inj_mod. change (2 ^ 29) with (2 ^ 6 * 2 ^ 23). change (Z.of_nat 64) with (2 ^ 6).
  rewrite Z.rem_mul_r by done. rewrite Z.mul_comm, Z.mod_add by done. by apply Z.mod_mod.
Qed.

Lemma update_absorbed ctx m data : absorbed ctx m → absorbed (nr_MD5_Update ctx data) (m ++ data).
Proof.
  intros [Hlo Hhi Hr Hl Hb]. destruct (count_spec (Z.of_nat (length m)) (Z.of_nat (length data)) ltac:(lia) ltac:(lia)) as [Elo Ehi].
  unfold nr_MD5_Update. rewrite Hlo, mod_blocks, Hhi, <-length_rest. cbn zeta in Elo, Ehi. rewrite Ehi, Elo. clear Elo Ehi.
  replace (Z.of_nat (length m) + Z.of_nat (length data)) with (Z.of_nat (length (m ++ data))) by (rewrite length_app; lia).
  pose proof (length_rest m) as Hu. pose proof (Nat.mod_upper_bound (length m) 64 ltac:(done)) as Hu64. pose proof (Nat.div_mod (length m) 64 ltac:(done)) as Hdm.
  fold (full_blocks m) in Hdm.
  assert (∀ k m1 data1 b, m ++ data = m1 ++ data1 → length m1 = (64 * k)%nat → length b = 64%nat →
    absorbed (Context (Z.of_nat (length (m ++ data)) mod 2 ^ 29) (u32 (Z.of_nat (length (m ++ data)) / 2 ^ 29))
      (body (Z.to_nat (Z.of_nat (length data1) / 64)) (body k init_registers m1) data1)
      (write b 0 (drop (64 * Z.to_nat (Z.of_nat (length data1) / 64)) data1))) (m ++ data)) as Hrest.
  { intros k m1 data1 b E Hm1 Hlb. replace (Z.to_nat (Z.of_nat (length data1) / 64)) with (length data1 / 64)%nat by (rewrite <-(Nat2Z.id (_ / _)), Nat2Z.inj_div; done).
    destruct (rest_absorbed m1 k data1 b Hm1 Hlb) as (H1 & H2 & H3). rewrite E. constructor; [done|done|done|done|done]. }
  destruct (Z.eqb_spec (Z.of_nat (length (rest_of m))) 0) as [E0|E0]; cbn [negb].
  { rewrite Hr. apply (Hrest (full_blocks m) m data); [done|lia|done]. }
  destruct (Z.ltb_spec (Z.of_nat (length data)) (64 - Z.of_nat (length (rest_of m)))) as [Hlt|Hge].
  - assert (full_blocks (m ++ data) = full_blocks m) as Hf.
    { unfold full_blocks at 1. rewrite length_app. symmetry. apply (Nat.div_unique _ _ _ (length m mod 64 + length data)); lia. }
    assert (rest_of (m ++ data) = rest_of m ++ data) as Hra by (unfold rest_of; rewrite Hf, drop_app_le by lia; done).
    destruct (write_prefix (buffer ctx) data (rest_of m) (Z.of_nat (length (rest_of m)))) as [Ht Hlw]; [by rewrite Nat2Z.id|done|lia|].
    constructor; cbn [lo hi regs buffer]; [done|done| |lia|].
    + rewrite Hf, body_prefix by lia. done.
    + rewrite Hra, length_app. rewrite <-Ht. f_equal. lia.
  - set (n := (64 - length (rest_of m))%nat). replace (Z.to_nat (64 - Z.of_nat (length (rest_of m)))) with n by lia.
    assert (length (take n data) = n) as Hn by (rewrite length_take; lia).
    destruct (write_prefix (buffer ctx) (take n data) (rest_of m) (Z.of_nat (length (rest_of m)))) as [Ht Hlw]; [by rewrite Nat2Z.id|done|lia|].
    rewrite take_ge in Ht by lia. rewrite Ht in Hlw |- *.
    assert (body 1 (regs ctx) (rest_of m ++ take n data) = body (full_blocks m + 1) init_registers (m ++ take n data)) as ->.
    { rewrite Hr. by apply body_extend. }
    replace (Z.of_nat (length data) - (64 - Z.of_nat (length (rest_of m)))) with (Z.of_nat (length (drop n data))) by (rewrite length_drop; lia).
    apply (Hrest (full_blocks m + 1)%nat (m ++ take n data)); [by rewrite <-app_assoc, take_drop|rewrite length_app; lia|lia].
Qed.

Lemma updates_absorbed chunks ctx m : absorbed ctx m → absorbed (foldl nr_MD5_Update ctx chunks) (m ++ concat chunks).
Proof.
  revert ctx m. induction chunks as [|c chunks IH]; intros ctx m Hc; cbn [foldl concat]; [by rewrite app_nil_r|].
  rewrite app_assoc. by apply IH, update_absorbed.
Qed.

(** ** The end of a message *)
Definition filled (b p : list Z) : Prop := length b = 64%nat ∧ take (length p) b = p.
Lemma fill b p s u : filled b p → u = Z.of_nat (length p) → (length p + length s ≤ 64)%nat → filled (write b u s) (p ++ s).
Proof.
  intros [Hl Hp] -> Hs. destruct (write_prefix b s p (Z.of_nat (length p))) as [Ht Hw]; [by rewrite Nat2Z.id|done|lia|].
  split; [lia|]. assert (length (p ++ s) = Z.to_nat (Z.of_nat (length p) + Z.of_nat (length s))) as -> by (rewrite length_app; lia). exact Ht.
Qed.
Lemma full_is b p : filled b p → length p = 64%nat → b = p.
Proof. intros [Hl Hb] Hp. rewrite Hp, take_ge in Hb by lia. done. Qed.

Lemma length_zeros n : 0 ≤ n → Z.of_nat (length (zeros n)) = n.
Proof. intros Hn. unfold zeros. rewrite length_replicate. lia. Qed.
Lemma zeros_app a b : 0 ≤ a → 0 ≤ b → zeros a ++ zeros b = zeros (a + b).
Proof. intros Ha Hb. unfold zeros. rewrite <-replicate_add. f_equal. lia. Qed.

(** The number of bits, as the context has it. *)
Lemma count_words ctx m : absorbed ctx m →
  word_bytes (u32 (Z.shiftl (lo ctx) 3)) = word_bytes (u32 (8 * Z.of_nat (length m))) ∧
  word_bytes (hi ctx) = word_bytes (u32 (8 * Z.of_nat (length m) / 2 ^ 32)).
Proof.
  intros Ha. rewrite (ab_lo _ _ Ha), (ab_hi _ _ Ha). set (n := Z.of_nat (length m)).
  replace (8 * n / 2 ^ 32) with (n / 2 ^ 29) by (change (2 ^ 32) with (8 * 2 ^ 29); by rewrite Z.div_mul_cancel_l).
  split; [|done]. f_equal. unfold u32. rewrite Z.shiftl_mul_pow2 by done. change (2 ^ 3) with 8. rewrite (Z.mul_comm _ 8).
  change (2 ^ 32) with (8 * 2 ^ 29). rewrite !Z.mul_mod_distr_l by done. f_equal. by apply Z.mod_mod.
Qed.

Lemma final_absorbed ctx m : absorbed ctx m → nr_MD5_Final ctx = md5 m.
Proof.
  intros Ha. destruct (count_words _ _ Ha) as [El Eh]. destruct Ha as [Hlo Hhi Hr Hl Hb].
  unfold nr_MD5_Final. rewrite El, Eh, Hlo, mod_blocks, <-length_rest. clear El Eh.
  unfold md5, pad. set (n := Z.of_nat (length m)). set (wl := word_bytes (u32 (8 * n))). set (wh := word_bytes (u32 (8 * n / 2 ^ 32))).
  assert (length wl = 4%nat ∧ length wh = 4%nat) as [Hwl Hwh] by done. clearbody wl wh.
  pose proof (length_rest m) as Hu. pose proof (Nat.mod_upper_bound (length m) 64 ltac:(done)) as Hu64.
  pose proof (Nat.div_mod (length m) 64 ltac:(done)) as Hdm. fold (full_blocks m) in Hdm.
  set (u := Z.of_nat (length (rest_of m))).
  assert (filled (write (buffer ctx) u [0x80]) (rest_of m ++ [0x80])) as H1 by (apply fill; [split; done|done|cbn [length]; lia]).
  destruct (Z.ltb_spec (64 - (u + 1)) 8) as [Hlt|Hge]; cbv beta iota zeta.
  - assert ((55 - n) mod 64 = (63 - u) + 56) as -> by (symmetry; apply (Z.mod_unique_pos _ _ (- Z.of_nat (full_blocks m) - 1)); lia).
    replace (64 - (u + 1)) with (63 - u) by lia. rewrite <-zeros_app by lia. change (64 - 8) with 56.
    pose proof (length_zeros (63 - u) ltac:(lia)) as Hz. pose proof (length_zeros 56 ltac:(lia)) as Hz56.
    pose proof (fill _ _ (zeros (63 - u)) (u + 1) H1 ltac:(rewrite length_app; cbn [length]; lia) ltac:(rewrite length_app; cbn [length]; lia)) as H2.
    rewrite (full_is _ _ H2) by (rewrite !length_app; cbn [length]; lia). rewrite <-app_assoc, Hr, body_extend.
    set (b1 := rest_of m ++ [0x80] ++ zeros (63 - u)).
    assert (filled b1 []) as H3 by (split; [subst b1; rewrite !length_app; cbn [length]; lia|done]).
    pose proof (fill _ _ (zeros 56) 0 H3 eq_refl ltac:(cbn [length]; lia)) as H4. cbn [app] in H4.
    pose proof (fill _ _ wl 56 H4 ltac:(lia) ltac:(lia)) as H5. pose proof (fill _ _ wh 60 H5 ltac:(rewrite length_app; lia) ltac:(rewrite length_app; lia)) as H6.
    rewrite (full_is _ _ H6) by (rewrite !length_app; lia). set (p1 := m ++ [0x80] ++ zeros (63 - u)).
    assert (length p1 = (64 * (full_blocks m + 1))%nat) as Hp1 by (subst p1; rewrite !length_app; cbn [length]; lia).
    replace (m ++ [0x80] ++ (zeros (63 - u) ++ zeros 56) ++ wl ++ wh) with (p1 ++ (zeros 56 ++ wl) ++ wh) by (subst p1; by rewrite <-!app_assoc).
    rewrite <-(body_app _ 1 _ _ _ Hp1), <-body_rfc. do 2 f_equal. apply (Nat.div_unique _ _ _ 0); [lia|]. rewrite !length_app, Hp1. lia.
  - assert ((55 - n) mod 64 = 55 - u) as -> by (symmetry; apply (Z.mod_unique_pos _ _ (- Z.of_nat (full_blocks m))); lia).
    replace (64 - (u + 1) - 8) with (55 - u) by lia. pose proof (length_zeros (55 - u) ltac:(lia)) as Hz.
    pose proof (fill _ _ (zeros (55 - u)) (u + 1) H1 ltac:(rewrite length_app; cbn [length]; lia) ltac:(rewrite length_app; cbn [length]; lia)) as H2.
    pose proof (fill _ _ wl 56 H2 ltac:(rewrite !length_app; cbn [length]; lia) ltac:(rewrite !length_app; cbn [length]; lia)) as H5.
    pose proof (fill _ _ wh 60 H5 ltac:(rewrite !length_app; cbn [length]; lia) ltac:(rewrite !length_app; cbn [length]; lia)) as H6.
    rewrite (full_is _ _ H6) by (rewrite !length_app; cbn [length]; lia). rewrite <-!app_assoc, Hr, body_extend, <-body_rfc.
    do 2 f_equal. apply (Nat.div_unique _ _ _ 0); [lia|]. rewrite !length_app. cbn [length]. lia.
Qed.

(** C28: A message that comes in pieces of any number and size has the digest RFC
    1321 gives it as a whole: the message is padded with a one bit, with zeros
    and with its length in 64 bits, and its blocks go through the four rounds,
    with the constants of the sine. *)
Theorem nr_MD5_digests chunks ctx : length (buffer ctx) = 64%nat →
  nr_MD5_Final (foldl nr_MD5_Update (nr_MD5_Init ctx) chunks) = md5 (concat chunks).
Proof. intros Hl. by apply final_absorbed, (updates_absorbed chunks _ []), init_absorbed. Qed.

Lemma nr_MD5_digests_witness : nr_MD5_Final (foldl nr_MD5_Update (nr_MD5_Init (Context 7 7 init_registers (replicate 64 9))) [[97]; [98; 99]]) =
  [0x90; 0x01; 0x50; 0x98; 0x3c; 0xd2; 0x4f; 0xb0; 0xd6; 0x96; 0x3f; 0x7d; 0x28; 0xe1; 0x7f; 0x72].
Proof. rewrite (nr_MD5_digests [[97]; [98; 99]]) by done. vm_compute. done. Defined.

(** ** Paths *)
Lemma nr_hash_md5_digest start m : length (buffer start) = 64%nat → nr_hash_md5 start (Some m) (Z.of_nat (length m)) = Some (md5 m).
Proof.
  intros Hl. unfold nr_hash_md5. destruct (Z.ltb_spec (Z.of_nat (length m)) 0); [lia|]. rewrite Nat2Z.id, take_ge by lia. f_equal.
  by apply final_absorbed, (update_absorbed _ [] m), init_absorbed.
Qed.

Lemma hex_digit_char d : 0 ≤ d < 16 → nr_isxdigit (hex_digit d) = true ∧ hex_digit_value (hex_digit d) = d ∧ 0 < hex_digit d < 128 ∧ hex_digit d ≠ 120 ∧ hex_digit d ≠ 88 ∧ nr_isspace (hex_digit d) = false.
Proof. intros Hd. assert (d ∈ seqZ 0 16) as Hin by (apply elem_of_seqZ; lia). clear Hd. revert d Hin. by apply Forall_forall, (bool_decide_unpack _). Qed.

Lemma hex8_scan v : 0 ≤ v < 2 ^ 32 → scan_x (hex8 v) = Some v.
Proof.
  intros Hv. set (ds := [v / 65536 / 4096; v / 65536 / 256 mod 16; v / 65536 / 16 mod 16; v / 65536 mod 16; v mod 65536 / 4096; v mod 65536 / 256 mod 16; v mod 65536 / 16 mod 16; v mod 65536 mod 16]).
  assert (Forall (λ d, 0 ≤ d < 16) ds) as Hds by (subst ds; repeat (apply Forall_cons_2; [Z.to_euclidean_division_equations; lia|]); apply Forall_nil_2).
  assert (foldl (λ x d, x * 16 + d) 0 ds = v) as Hsum by (subst ds; cbn [foldl]; Z.to_euclidean_division_equations; lia).
  change (hex8 v) with (hex_digit <$> ds). assert (length ds = 8%nat) as Hl by done. clearbody ds.
  assert (cstr (hex_digit <$> ds) = hex_digit <$> ds) as Hc.
  { apply cstr_id, Forall_fmap. eapply Forall_impl; [exact Hds|]. intros d Hd. cbn. pose proof (hex_digit_char d Hd). lia. }
  assert ((span nr_isxdigit (hex_digit <$> ds)).1 = hex_digit <$> ds) as Hspan.
  { clear Hsum Hl Hc. induction Hds as [|d ds Hd _ IH]; [done|]. cbn [fmap list_fmap span]. destruct (hex_digit_char d Hd) as [-> _].
    rewrite <-IH at 2. by destruct (span _ _). }
  assert (of_hex (hex_digit <$> ds) = v) as Hof.
  { rewrite <-Hsum. unfold of_hex. clear Hsum Hl Hc Hspan. generalize 0. induction Hds as [|d ds Hd _ IH]; intros a; [done|].
    cbn [fmap list_fmap foldl]. destruct (hex_digit_char d Hd) as (_ & -> & _). apply IH. }
  unfold scan_x. rewrite Hc. destruct ds as [|a [|b ds]]; [done|done|]. apply Forall_cons in Hds as [Ha Hds]. apply Forall_cons in Hds as [Hb Hds].
  destruct (hex_digit_char a Ha) as (Hx & _ & Hr & _ & _ & Hsp). destruct (hex_digit_char b Hb) as (_ & _ & _ & Hb1 & Hb2 & _).
  assert (hex_digit a ≠ 45 ∧ hex_digit a ≠ 43) as [H45 H43] by (unfold nr_isxdigit, nr_isdigit in Hx; lia).
  cbn [fmap list_fmap span]. rewrite Hsp. cbn [snd scan_sign]. rewrite (proj2 (Z.eqb_neq _ _) H45), (proj2 (Z.eqb_neq _ _) H43).
  assert (skip_0x (hex_digit a :: hex_digit b :: (hex_digit <$> ds)) = hex_digit <$> (a :: b :: ds)) as ->.
  { unfold skip_0x. rewrite (proj2 (Z.eqb_neq _ _) Hb1), (proj2 (Z.eqb_neq _ _) Hb2). cbn [orb fmap list_fmap]. by repeat case_match. }
  rewrite Hspan. cbn [fmap list_fmap] in Hof |- *. rewrite Hof. destruct (Z.leb_spec (2 ^ 64) v); [lia|]. unfold u32. by rewrite Z.mod_small.
Qed.

Lemma lor_range x y n : 0 ≤ n → 0 ≤ x < 2 ^ n → 0 ≤ y < 2 ^ n → 0 ≤ Z.lor x y < 2 ^ n.
Proof.
  intros Hn Hx Hy. assert (Z.lor x y mod 2 ^ n = Z.lor x y) as <-; [|apply Z.mod_pos_bound; lia].
  rewrite <-Z.land_ones, Z.land_lor_distr_l, !Z.land_ones by done. by rewrite !Z.mod_small.
Qed.
Lemma rotl_range x : 0 ≤ x < 2 ^ 32 → 0 ≤ Z.lor (u32 (Z.shiftl x 1)) (Z.shiftr x 31) < 2 ^ 32.
Proof. intros Hx. apply lor_range; [done|apply Z.mod_pos_bound; done|by apply shiftr_range]. Qed.

(** The last four bytes of a digest, as a number. *)
Definition digest_low (m : list Z) : Z := nr_hash_md5_low32 (Some (md5 m)).

Lemma word_bytes_range x : Forall (λ c, 0 ≤ c < 2 ^ 8) (word_bytes x).
Proof. unfold word_bytes. repeat (apply Forall_cons_2; [change 255 with (2 ^ 8 - 1); rewrite land_mask by done; by apply Z.mod_pos_bound|]). apply Forall_nil_2. Qed.


Lemma digest_low_range m : 0 ≤ digest_low m < 2 ^ 32.
Proof.
  unfold digest_low, md5. set (r := rfc_blocks _ _ _). assert (Forall (λ c, 0 ≤ c < 2 ^ 8) (digest r)) as Hr by (unfold digest; rewrite !Forall_app; eauto using word_bytes_range).
  assert (∀ i, 0 ≤ char_at (digest r) i < 2 ^ 8) as Hc.
  { intros i. unfold char_at. destruct (digest r !! Z.to_nat i) eqn:E; [|done]. by apply (Forall_lookup_1 _ _ _ _ Hr E). }
  unfold nr_hash_md5_low32. repeat apply lor_range; try done; try (rewrite Z.shiftl_mul_pow2 by done; pose proof (Hc 12); pose proof (Hc 13); pose proof (Hc 14); lia).
  pose proof (Hc 15). lia.
Qed.

(** One step of a path. *)
Definition path_step (h : Z) '(app, txn) : Z := Z.lxor (h * 2 mod 2 ^ 32 + h / 2 ^ 31) (digest_low (cstr app ++ [59] ++ cstr txn)).
Definition refer_value (ref : option (list Z)) : Z := match ref with None => 0 | Some s => default 0 (scan_x s) end.

Lemma path_step_range h x : 0 ≤ h < 2 ^ 32 → 0 ≤ path_step h x < 2 ^ 32.
Proof.
  intros Hh. destruct x as [app txn]. unfold path_step. apply lxor_range; [done| |apply digest_low_range].
  Z.to_euclidean_division_equations. lia.
Qed.

Lemma cstr_cat a s : cstr s = s → cstr (cstr a ++ s) = cstr a ++ s.
Proof.
  intros Hs. induction a as [|c a IH]; cbn [cstr app]; [done|]. destruct (c =? 0) eqn:E; [done|]. cbn [cstr app]. by rewrite E, IH.
Qed.
Lemma cstr_idem s : cstr (cstr s) = cstr s.
Proof. pose proof (cstr_cat s [] eq_refl) as H. by rewrite app_nil_r in H. Qed.

Lemma nr_hash_cat_path_step start ref app_name txn : length (buffer start) = 64%nat → 0 ≤ refer_value ref < 2 ^ 32 →
  nr_hash_cat_path start (Some txn) (Some app_name) ref = Some (hex8 (path_step (refer_value ref) (app_name, txn))).
Proof.
  intros Hl Hr. unfold nr_hash_cat_path. fold (refer_value ref).
  unfold nr_strlen. rewrite (cstr_cat app_name) by (cbn; by rewrite cstr_idem).
  rewrite nr_hash_md5_digest by done. do 2 f_equal. unfold path_step. f_equal. set (v := refer_value ref) in *.
  unfold u32. rewrite Z.shiftl_mul_pow2, Z.shiftr_div_pow2 by done. symmetry. apply Z.add_nocarry_lor.
  apply Z.bits_inj'. intros n Hn. rewrite Z.land_spec, Z.bits_0. destruct (Z.eq_dec n 0) as [->|].
  - rewrite Z.mod_pow2_bits_low, Z.mul_pow2_bits_low by done. done.
  - destruct (Z.testbit (v / 2 ^ 31) n) eqn:E; [|by rewrite andb_false_r]. rewrite Z.div_pow2_bits, Z.testbit_true in E by lia.
    rewrite Z.div_small in E; [done|]. split; [lia|]. assert (2 ^ 32 ≤ 2 ^ (n + 31)) by (apply Z.pow_le_mono_r; lia). lia.
Qed.

(** The hash of a path of applications and transactions, each of which gets
    the hash of the ones before it, is eight hexadecimal digits, of the exclusive
    or of the digests on the way, each rotated by one bit at every step after
    it. *)
Theorem nr_hash_cat_path_of_path start (path : list (list Z * list Z)) : length (buffer start) = 64%nat → path ≠ [] →
  foldl (λ h '(app, txn), nr_hash_cat_path start (Some txn) (Some app) h) None path =
  Some (hex8 (foldl path_step 0 path)).
Proof.
  intros Hl. assert (∀ ref, 0 ≤ refer_value ref < 2 ^ 32 → path ≠ [] →
    foldl (λ h '(app, txn), nr_hash_cat_path start (Some txn) (Some app) h) ref path = Some (hex8 (foldl path_step (refer_value ref) path))) as Hp; [|by apply Hp].
  induction path as [|[app txn] path IH]; intros ref Hr Hne; [done|]. cbn [foldl]. rewrite nr_hash_cat_path_step by done.
  destruct path as [|x path]; [done|]. pose proof (path_step_range _ (app, txn) Hr) as Hs.
  assert (refer_value (Some (hex8 (path_step (refer_value ref) (app, txn)))) = path_step (refer_value ref) (app, txn)) as E by (cbn [refer_value]; by rewrite hex8_scan).
  rewrite IH by (rewrite ?E; done). by rewrite E.
Qed.

Lemma nr_hash_cat_path_of_path_witness :
  foldl (λ h '(app, txn), nr_hash_cat_path (Context 7 7 init_registers (replicate 64 9)) (Some txn) (Some app) h) None
    [(lit "test", lit "23547"); (lit "app", lit "/one")] = Some (hex8 (foldl path_step 0 [(lit "test", lit "23547"); (lit "app", lit "/one")])) ∧
  hex8 (path_step 0 (lit "test", lit "23547")) = lit "eaaec1df".
Proof. split; [apply nr_hash_cat_path_of_path; done|vm_compute; reflexivity]. Defined.
