(* ===== verification/Synthetics.v ===== *)
(** * Synthetics: what the monitoring service says about its requests (src/axiom/nr_synthetics.c)

    A header is a JSON array, of five fields for version 1; the same array is
    written for the requests that the transaction makes. *)

From S2P Require Import Prelude Memory CString Strings Double Object Json Buffer ObjectJson ObjectParse ObjectRoundtrip ObjectFields.
Local Open Scope Z_scope.

(** ** State *)
Record nr_synthetics_t := Synthetics {
  version : Z;
  account_id : Z;
  resource_id : option (list Z);
  job_id : option (list Z);
  monitor_id : option (list Z);
  outbound_json : option (list Z);
}.

Definition zeroed : nr_synthetics_t := Synthetics 0 0 None None None None.

Definition nr_synthetics_version (s : option nr_synthetics_t) : Z := from_option version 0 s.
Definition nr_synthetics_account_id (s : option nr_synthetics_t) : Z := from_option account_id 0 s.
Definition nr_synthetics_resource_id (s : option nr_synthetics_t) : option (list Z) := s ≫= resource_id.
Definition nr_synthetics_job_id (s : option nr_synthetics_t) : option (list Z) := s ≫= job_id.
Definition nr_synthetics_monitor_id (s : option nr_synthetics_t) : option (list Z) := s ≫= monitor_id.

Definition nr_synthetics_destroy (p : option (option nr_synthetics_t)) : option (option nr_synthetics_t) := (λ _, None) <$> p.

(** ** Parsing *)
Definition PARSE_V1_INT (o : obj) (idx : Z) : option Z :=
  let '(out, result) := nro_get_array_int o idx in if decide (result = NR_FAILURE) then None else Some out.
Definition PARSE_V1_STR (o : obj) (idx : Z) : option (option (list Z)) :=
  let '(out, result) := nro_get_array_string o idx in if decide (result = NR_FAILURE) then None else Some (Some (nr_strdup out)).

(** [None] is a failure: the caller drops what was filled in so far. *)
Definition nr_synthetics_parse_v1 (synth_obj : obj) (out : option nr_synthetics_t) : option nr_synthetics_t :=
  match synth_obj, out with
  | Some _, Some out =>
      if negb (5 =? nro_getsize synth_obj) then None
      else
        v ← PARSE_V1_INT synth_obj 1;
        a ← PARSE_V1_INT synth_obj 2;
        r ← PARSE_V1_STR synth_obj 3;
        j ← PARSE_V1_STR synth_obj 4;
        m ← PARSE_V1_STR synth_obj 5;
        Some (Synthetics v a r j m (outbound_json out))
  | _, _ => None
  end.

Definition nr_synthetics_parsers : list (Z * (obj → option nr_synthetics_t → option nr_synthetics_t)) := [(1, nr_synthetics_parse_v1)].

Section headers.
Context `{Allocator Z} (radix : Z) (address : list Z → Z).

Definition nr_synthetics_create (header : option (list Z)) : outcome (option nr_synthetics_t) :=
  match header with
  | None => Done None
  | Some _ =>
      synth_obj ← nro_create_from_json radix address header;
      match synth_obj with
      | None => Done None
      | Some _ =>
          if negb (bool_decide (nro_type synth_obj = NR_OBJECT_ARRAY)) then Done None
          else
            let version := (nro_get_array_int synth_obj 1).1 in
            match find (λ p, version =? p.1) nr_synthetics_parsers with
            | None => Done None
            | Some p => Done (p.2 synth_obj (Some zeroed))
            end
      end
  end.

(** The text, and the record that keeps it. *)
Definition nr_synthetics_outbound_header (synthetics : option nr_synthetics_t) : option (list Z) * option nr_synthetics_t :=
  match synthetics with
  | None => (None, None)
  | Some s =>
      match outbound_json s with
      | Some _ => (outbound_json s, synthetics)
      | None =>
          let o := Some nro_new_array in
          let o := (nro_set_array_int o 0 (version s)).1 in
          let o := (nro_set_array_int o 0 (account_id s)).1 in
          let o := (nro_set_array_string o 0 (resource_id s)).1 in
          let o := (nro_set_array_string o 0 (job_id s)).1 in
          let o := (nro_set_array_string o 0 (monitor_id s)).1 in
          let json := nro_to_json radix o in
          (Some json, Some (Synthetics (version s) (account_id s) (resource_id s) (job_id s) (monitor_id s) (Some json)))
      end
  end.
End headers.

(** ** What is accepted *)
Inductive version_1 : obj → nr_synthetics_t → Prop :=
| V1 a h1 acct h2 r j m :
    version_1 (Some (OArray a [OInt 1 h1; OInt acct h2; OString r; OString j; OString m]))
      (Synthetics 1 acct (Some (nr_strdup r)) (Some (nr_strdup j)) (Some (nr_strdup m)) None).

Lemma nr_synthetics_create_iff radix address header s :
  nr_synthetics_create radix address (Some header) = Done (Some s) ↔
  ∃ o, nro_create_from_json radix address (Some header) = Done o ∧ version_1 o s.
Proof.
  unfold nr_synthetics_create. split.
  - destruct (nro_create_from_json radix address (Some header)) as [[op|]| | |] eqn:E; cbn [mbind outcome_bind]; try done.
    intros Hs. exists (Some op). split; [done|]. destruct op as [| | | | | | | |?|a es]; try done. cbn [nro_type from_option type_of] in Hs.
    rewrite bool_decide_true in Hs by done. cbn [negb] in Hs. unfold nr_synthetics_parsers in Hs. cbn [find fst snd] in Hs.
    destruct (Z.eqb_spec (nro_get_array_int (Some (OArray a es)) 1).1 1) as [E1|]; [|done].
    assert (nr_synthetics_parse_v1 (Some (OArray a es)) (Some zeroed) = Some s) as Hp by (injection Hs as Hs; exact Hs). clear Hs. rename Hp into Hs.
    unfold nr_synthetics_parse_v1, nro_getsize in Hs.
    destruct (Z.eqb_spec 5 (Z.of_nat (length es))) as [El|]; cbn [negb] in Hs; [|done].
    destruct es as [|e1 [|e2 [|e3 [|e4 [|e5 [|]]]]]]; cbn [length] in El; try lia. clear El.
    unfold PARSE_V1_INT, PARSE_V1_STR, nro_get_array_int, nro_get_array_string, nro_get_array_value in *. cbn in Hs, E1.
    destruct e1; cbn in Hs, E1; try done. destruct e2; cbn in Hs; try done. destruct e3; cbn in Hs; try done.
    destruct e4; cbn in Hs; try done. destruct e5; cbn in Hs; try done. change (ival = 1) in E1. subst. injection Hs as <-. constructor.
  - intros (o & E & Hv). rewrite E. cbn [mbind outcome_bind]. by destruct Hv.
Qed.

Record synthetics_ok (s : nr_synthetics_t) : Prop := {
  so_version : version s = 1;
  so_account : INT_MIN < account_id s < INT_MAX;
  so_resource : ∃ t, resource_id s = Some t ∧ text_ok t;
  so_job : ∃ t, job_id s = Some t ∧ text_ok t;
  so_monitor : ∃ t, monitor_id s = Some t ∧ text_ok t;
  so_fresh : outbound_json s = None;
}.

(** A transaction passes on what it was told: the header it writes for its own
    requests is accepted by their receiver, with the same version, account,
    resource, job and monitor, whatever the locales; it is written once and then
    kept.  And what is accepted at all is a JSON array with those five fields, of
    version 1, and nothing else. *)
Theorem nr_synthetics_passed_on `{Allocator Z} (radix radix' : Z) (address : list Z → Z) (s : nr_synthetics_t) :
  locale_radix radix → locale_radix radix' → synthetics_ok s →
  (∃ text s', nr_synthetics_outbound_header radix (Some s) = (Some text, Some s') ∧
    nr_synthetics_create radix' address (Some text) = Done (Some s) ∧
    nr_synthetics_outbound_header radix (Some s') = (Some text, Some s')) ∧
  (∀ header s', nr_synthetics_create radix' address (Some header) = Done (Some s') →
    ∃ o, nro_create_from_json radix' address (Some header) = Done o ∧ version_1 o s').
Proof.
  intros Hx Hx' [Hv Ha (r & Er & Hr) (j & Ej & Hj) (m & Em & Hm) Ho]. split; [|intros header s'; apply nr_synthetics_create_iff].
  destruct s as [v a rr jj mm oo]. cbn in Hv, Ha, Er, Ej, Em, Ho. subst.
  set (op := OArray 8 [OInt 1 0; OInt a 0; OString (Some r); OString (Some j); OString (Some m)]).
  assert (∀ t, text_ok t → nr_strdup (Some t) = t) as Hdup by (intros t Ht; unfold nr_strdup; simpl; by apply cstr_id, text_cstr).
  assert (jsonable op ∧ obj_ok op) as [Hjs Hok].
  { split; constructor; try done; repeat apply Forall_cons_2; try apply Forall_nil_2; constructor; try done;
      try (unfold int_range, INT_MIN, INT_MAX in *; lia); by apply text_cstr. }
  exists (nro_to_json radix (Some op)). eexists. split; [|split].
  - unfold nr_synthetics_outbound_header. cbn [outbound_json]. cbn. unfold nro_new_string. by rewrite !Hdup.
  - apply nr_synthetics_create_iff. exists (Some (reread address 0 op)). split; [by apply json_reads_back|].
    subst op. cbn [reread fmap list_fmap length]. unfold reread_int.
    assert ((a <=? INT_MIN) || (INT_MAX <=? a) = false) as -> by lia. cbn.
    rewrite <-(Hdup r Hr) at 2. rewrite <-(Hdup j Hj) at 2. rewrite <-(Hdup m Hm) at 2. constructor.
  - done.
Qed.

Lemma nr_synthetics_passed_on_witness :
  let _ := GenerousAllocator.allocator Z in
  ∃ text s', nr_synthetics_outbound_header 46 (Some (Synthetics 1 7 (Some (lit "r")) (Some (lit "j")) (Some (lit "m")) None)) = (Some text, Some s') ∧
    nr_synthetics_create 44 (λ _, 0) (Some text) = Done (Some (Synthetics 1 7 (Some (lit "r")) (Some (lit "j")) (Some (lit "m")) None)) ∧
    text = [91; 49; 44; 55; 44; 34; 114; 34; 44; 34; 106; 34; 44; 34; 109; 34; 93].
Proof.
  intros al. destruct (nr_synthetics_passed_on (H:=al) 46 44 (λ _, 0) (Synthetics 1 7 (Some (lit "r")) (Some (lit "j")) (Some (lit "m")) None))
    as [(text & s' & Ho & Hc & _) _]; [by left|by right|split; try done; eexists; (split; [done|by_text])|].
  exists text, s'. split_and!; [done|done|]. vm_compute in Ho. by injection Ho as <-.
Defined.
