(* ===== verification/Errors.v ===== *)
(** * Errors: the error of a transaction (src/axiom/nr_errors.c)

    Errors reach the daemon as JSON that the library writes itself, with the
    attributes and the stack trace put into it as text. *)

From S2P Require Import Prelude Memory CString Strings Double Object Json Buffer ObjectJson ObjectParse ObjectRoundtrip ObjectFields.
From S2P Require DistributedTrace.
Local Open Scope Z_scope.

(** ** State *)
Record nr_error_t := Error {
  when : Z;
  error_priority : Z;
  message : list Z;
  klass : list Z;
  stacktrace_json : list Z;
  span_id : option (list Z);
}.

Definition nr_error_create (priority : Z) (message klass stacktrace_json span_id : option (list Z)) (when : Z) : option nr_error_t :=
  match message, klass, stacktrace_json with
  | Some _, Some _, Some _ =>
      Some (Error when priority (nr_strdup message) (nr_strdup klass) (nr_strdup stacktrace_json) ((λ s, nr_strdup (Some s)) <$> span_id))
  | _, _, _ => None
  end.

Definition nr_error_get_message (e : option nr_error_t) : option (list Z) := message <$> e.
Definition nr_error_get_klass (e : option nr_error_t) : option (list Z) := klass <$> e.
Definition nr_error_get_time (e : option nr_error_t) : Z := from_option when 0 e.
Definition nr_error_priority (e : option nr_error_t) : Z := from_option error_priority 0 e.
Definition nr_error_get_span_id (e : option nr_error_t) : option (list Z) := e ≫= span_id.
Definition nr_error_destroy (p : option (option nr_error_t)) : option (option nr_error_t) := (λ _, None) <$> p.

(** ** The text for the daemon *)
Section json.
Context `{Allocator Z} (radix : Z).

Definition add_json (hash : obj) (key : list Z) (o : obj) : obj :=
  match o with None => hash | Some _ => (nro_set_hash_jstring hash (Some key) (Some (nro_to_json radix o))).1 end.

Definition nr_error_params_to_object (stacktrace_json : list Z) (agent_attributes user_attributes intrinsics : obj) (request_uri : option (list Z)) : obj :=
  let hash := Some nro_new_hash in
  let hash := (nro_set_hash_jstring hash (Some (lit "stack_trace")) (Some stacktrace_json)).1 in
  let hash := add_json hash (lit "agentAttributes") agent_attributes in
  let hash := add_json hash (lit "userAttributes") user_attributes in
  let hash := add_json hash (lit "intrinsics") intrinsics in
  match request_uri with None => hash | Some _ => (nro_set_hash_string hash (Some (lit "request_uri")) request_uri).1 end.

Definition nr_error_to_daemon_json (error : option nr_error_t) (txn_name txn_guid : option (list Z))
    (agent_attributes user_attributes intrinsics : obj) (request_uri : option (list Z)) : option (list Z) :=
  match error with
  | None => None
  | Some e =>
      let params := nr_error_params_to_object (stacktrace_json e) agent_attributes user_attributes intrinsics request_uri in
      let outer := Some nro_new_array in
      let outer := (nro_set_array_long outer 1 (long_of (when e / DistributedTrace.NR_TIME_DIVISOR_MS))).1 in
      let outer := (nro_set_array_string outer 2 txn_name).1 in
      let outer := (nro_set_array_string outer 3 (Some (message e))).1 in
      let outer := (nro_set_array_string outer 4 (Some (klass e))).1 in
      let outer := (nro_set_array outer 5 params).1 in
      let outer := if negb (nr_strempty txn_guid) then (nro_set_array_string outer 6 txn_guid).1 else outer in
      Some (nro_to_json radix outer)
  end.
End json.

(** ** Text put into text *)

(** The members with their texts. *)
Lemma hash_text a es : json_text (OHash a es) =
  123 :: separated ((λ '(k, t), escaped (Some k) ++ 58 :: t) <$> (prod_map id json_text <$> es)) ++ [125].
Proof. cbn [json_text]. rewrite <-list_fmap_compose. do 3 f_equal. apply list_fmap_ext. by intros i [k v] _. Qed.

Lemma length_elements l : (length (elements l) ≤ length l)%nat.
Proof. induction l as [|[k [v|]] l IH]; cbn; [done|..]; unfold elements in IH; lia. Qed.

(** The same fields, with other values that have the same text. *)
Definition same_texts : field_list → field_list → Prop :=
  Forall2 (λ x y : list Z * option nrobj_t, x.1 = y.1 ∧ json_text <$> x.2 = json_text <$> y.2).

Lemma elements_texts l l' : same_texts l l' → prod_map id json_text <$> elements l = prod_map id json_text <$> elements l'.
Proof.
  induction 1 as [|[k v] [k' v'] l l' [Hk Hv] _ IH]; [done|]. cbn in Hk, Hv. subst k'.
  destruct v as [v|], v' as [v'|]; try done. injection Hv as Hv. cbn. rewrite Hv. f_equal. exact IH.
Qed.

(** What the daemon reads, given the objects whose texts were put in. *)
Definition daemon_params (stack : nrobj_t) (agent user intrinsics : obj) (uri : option (list Z)) : field_list :=
  [(lit "stack_trace", Some stack); (lit "agentAttributes", agent); (lit "userAttributes", user); (lit "intrinsics", intrinsics); (lit "request_uri", string_field uri)].

Definition part_ok (o : obj) : Prop := ∀ op, o = Some op → jsonable op ∧ obj_ok op.

Section texts.
Context `{Allocator Z} (radix : Z) (Hx : locale_radix radix).

Definition as_text (o : obj) : obj := (λ op, OJstring (Some (json_text op))) <$> o.

Lemma add_json_holds hash l k o : holds_fields hash l → k ∉ l.*1 → key_ok k → part_ok o →
  holds_fields (add_json radix hash k o) (l ++ [(k, as_text o)]).
Proof.
  intros Hh Hni Hk Ho. destruct o as [op|]; [|by apply holds_skip]. destruct (Ho op eq_refl) as [_ Hok].
  cbn [add_json as_text fmap option_fmap option_map]. unfold nro_set_hash_jstring. rewrite nro_to_json_text by done.
  unfold nro_new_jstring, nr_strdup. cbn [default from_option id]. pose proof (json_text_cstr op Hok) as Hc. unfold id. rewrite cstr_id by done.
  apply holds_set; [done..|]. by constructor.
Qed.

(** The fields as they are written, the parts as text. *)
Definition written_params (st : list Z) (agent user intrinsics : obj) (uri : option (list Z)) : field_list :=
  [(lit "stack_trace", Some (OJstring (Some st))); (lit "agentAttributes", as_text agent); (lit "userAttributes", as_text user);
   (lit "intrinsics", as_text intrinsics); (lit "request_uri", string_field uri)].

Lemma params_hold st agent user intrinsics uri : is_cstr st → part_ok agent → part_ok user → part_ok intrinsics → (∀ s, uri = Some s → is_cstr s) →
  holds_fields (nr_error_params_to_object radix st agent user intrinsics uri) (written_params st agent user intrinsics uri).
Proof.
  intros Hst Ha Hu Hi Huri. unfold nr_error_params_to_object.
  assert (holds_fields (nro_set_hash_jstring (Some nro_new_hash) (Some (lit "stack_trace")) (Some st)).1 [(lit "stack_trace", Some (OJstring (Some st)))]) as H1.
  { unfold nro_set_hash_jstring, nro_new_jstring, nr_strdup. cbn [default from_option id]. unfold id. rewrite cstr_id by done.
    apply (holds_set _ []); [apply holds_new|by_key|by_key|by constructor]. }
  eapply (add_json_holds _ _ (lit "agentAttributes")) in H1; [|by_key|by_key|exact Ha].
  eapply (add_json_holds _ _ (lit "userAttributes")) in H1; [|by_key|by_key|exact Hu].
  eapply (add_json_holds _ _ (lit "intrinsics")) in H1; [|by_key|by_key|exact Hi]. destruct uri as [s|].
  - unfold nro_set_hash_string, nro_new_string, nr_strdup. cbn [default from_option id]. unfold id. rewrite cstr_id by auto.
    eapply (holds_set _ _ (lit "request_uri")) in H1; [exact H1|by_key|by_key|constructor; cbn; auto].
  - eapply (holds_skip _ _ (lit "request_uri")) in H1; [exact H1|by_key|by_key].
Qed.

Lemma as_text_copy o v : as_text o = Some v → part_ok o → nro_copy v = v.
Proof.
  intros Hv Ho. destruct o as [op|]; [|done]. injection Hv as <-. destruct (Ho op eq_refl) as [_ Hok]. simpl. unfold nr_strdup. simpl.
  by rewrite cstr_id by by apply json_text_cstr.
Qed.

Lemma params_copied st agent user intrinsics uri : is_cstr st → part_ok agent → part_ok user → part_ok intrinsics → (∀ s, uri = Some s → is_cstr s) →
  ∃ a, nro_copy <$> nr_error_params_to_object radix st agent user intrinsics uri = Some (OHash a (elements (written_params st agent user intrinsics uri))) ∧
    obj_ok (OHash a (elements (written_params st agent user intrinsics uri))).
Proof.
  intros Hst Ha Hu Hi Huri. pose proof (params_hold st agent user intrinsics uri Hst Ha Hu Hi Huri) as Hp.
  apply holds_copy in Hp; [apply Hp|]. intros k v Hin. unfold written_params in Hin.
  repeat (apply elem_of_cons in Hin as [[= -> Ev]|Hin]); [..|by apply elem_of_nil in Hin].
  - subst v. simpl. unfold nr_strdup. simpl. by rewrite cstr_id.
  - by eapply as_text_copy.
  - by eapply as_text_copy.
  - by eapply as_text_copy.
  - destruct uri as [s|]; [|done]. injection Ev as ->. simpl. unfold nr_strdup. simpl. by rewrite cstr_id by auto.
Qed.
End texts.

(** Objects in the place of their texts: the same text, which can be read. *)
Lemma params_text a a' stack agent user intrinsics uri :
  json_text (OHash a (elements (written_params (json_text stack) agent user intrinsics uri))) =
  json_text (OHash a' (elements (daemon_params stack agent user intrinsics uri))).
Proof.
  rewrite !hash_text. do 4 f_equal. apply elements_texts. unfold written_params, daemon_params, as_text.
  repeat apply Forall2_cons_2; try apply Forall2_nil_2; split; try done; first [by destruct agent|by destruct user|by destruct intrinsics].
Qed.

Lemma daemon_params_ok a stack agent user intrinsics uri : 5 ≤ a → part_ok (Some stack) → part_ok agent → part_ok user → part_ok intrinsics →
  (∀ s, uri = Some s → text_ok s) →
  jsonable (OHash a (elements (daemon_params stack agent user intrinsics uri))) ∧ obj_ok (OHash a (elements (daemon_params stack agent user intrinsics uri))).
Proof.
  intros Hal Hst Ha Hu Hi Huri. set (l := daemon_params _ _ _ _ _).
  assert (∀ k v, (k, v) ∈ elements l → jsonable v ∧ obj_ok v) as Hv.
  { intros k v Hin%elements_elem. unfold l, daemon_params in Hin.
    repeat (apply elem_of_cons in Hin as [[= -> Ev]|Hin]); [subst v; by apply Hst|by apply Ha|by apply Hu|by apply Hi| |by apply elem_of_nil in Hin].
    destruct uri as [s|]; [|done]. injection Ev as ->. split; constructor; [by apply Huri|by apply text_cstr, Huri]. }
  assert (NoDup l.*1 ∧ Forall (λ k, text_ok k ∧ key_ok k) l.*1) as [Hnd Hk].
  { split; [by apply (bool_decide_unpack _)|]. unfold l, daemon_params. cbn [fmap list_fmap fst].
    repeat (apply Forall_cons_2; [split; [by_text|by_key]|]). apply Forall_nil_2. }
  pose proof (elements_nodup l Hnd) as Hnd'. rewrite Forall_forall in Hk.
  assert (∀ k, k ∈ (elements l).*1 → text_ok k ∧ key_ok k) as Hk' by (intros k Hin; by apply Hk, elements_keys).
  split; constructor; try done; try (apply Forall_forall; intros x Hx).
  - destruct (Hk' x Hx) as [? [_ ?]]. done.
  - apply list_elem_of_fmap in Hx as ([k v] & -> & Hin). by apply (Hv k).
  - unfold l. etrans; [apply inj_le, length_elements|]. cbn. lia.
  - by apply Hk'.
  - apply list_elem_of_fmap in Hx as ([k v] & -> & Hin). by apply (Hv k).
Qed.

Record error_ok (e : nr_error_t) : Prop := {
  eo_time : 0 ≤ when e < 2 ^ 63;
  eo_message : text_ok (message e);
  eo_klass : text_ok (klass e);
}.

(** The array around the parameters. *)
Definition daemon_array (e : nr_error_t) (name : list Z) (guid : option (list Z)) (params : nrobj_t) : nrobj_t :=
  OArray 8 ([OLong (when e / DistributedTrace.NR_TIME_DIVISOR_MS); OString (Some name); OString (Some (message e)); OString (Some (klass e)); params] ++
            match string_field guid with None => [] | Some g => [g] end).

Lemma daemon_array_ok e name guid params : error_ok e → text_ok name → (∀ s, guid = Some s → text_ok s ∧ s ≠ []) → obj_ok params →
  obj_ok (daemon_array e name guid params) ∧ (jsonable params → jsonable (daemon_array e name guid params)).
Proof.
  intros [Ht Hm Hk] Hn Hg Hp. assert (long_range (when e / DistributedTrace.NR_TIME_DIVISOR_MS)) as Hr.
  { unfold long_range, DistributedTrace.NR_TIME_DIVISOR_MS. Z.to_euclidean_division_equations. lia. }
  assert (∀ P : nrobj_t → Prop, (∀ s, text_ok s → P (OString (Some s))) → Forall P match string_field guid with None => [] | Some g => [g] end) as Hguid.
  { intros P HP. destruct guid as [g|]; cbn; [apply Forall_singleton, HP, (Hg g eq_refl)|apply Forall_nil_2]. }
  split; [|intros Hj]; unfold daemon_array; constructor; try (apply Forall_app; split; [repeat (apply Forall_cons_2 || apply Forall_nil_2); try done|]).
  all: try (constructor; try done; by apply text_cstr). all: try (apply Hguid; intros s Hs; constructor; try done; by apply text_cstr).
  rewrite length_app. destruct guid; cbn; lia.
Qed.

Lemma nr_error_to_daemon_array `{Allocator Z} radix e name guid agent user intrinsics uri params :
  error_ok e → text_ok name → (∀ s, guid = Some s → text_ok s ∧ s ≠ []) →
  nro_copy <$> nr_error_params_to_object radix (stacktrace_json e) agent user intrinsics uri = Some params →
  nr_error_to_daemon_json radix (Some e) (Some name) guid agent user intrinsics uri = Some (nro_to_json radix (Some (daemon_array e name guid params))).
Proof.
  intros [Ht Hm Hk] Hn Hg Hp. assert (∀ t, text_ok t → nro_new_string (Some t) = OString (Some t)) as Hs.
  { intros t Htx. unfold nro_new_string, nr_strdup. cbn. by rewrite cstr_id by by apply text_cstr. }
  unfold nr_error_to_daemon_json. cbv zeta. unfold nro_set_array, nro_set_array_string. rewrite Hp, !Hs by done.
  assert (long_of (when e / DistributedTrace.NR_TIME_DIVISOR_MS) = when e / DistributedTrace.NR_TIME_DIVISOR_MS) as ->.
  { unfold long_of. rewrite u64_small by (unfold DistributedTrace.NR_TIME_DIVISOR_MS; Z.to_euclidean_division_equations; lia).
    destruct (Z.ltb_spec (when e / DistributedTrace.NR_TIME_DIVISOR_MS) (2 ^ 63)); [done|].
    unfold DistributedTrace.NR_TIME_DIVISOR_MS in *. Z.to_euclidean_division_equations. lia. }
  destruct guid as [g|]; [|done]. destruct (Hg g eq_refl) as [Htg Hne]. rewrite (Hs g Htg). pose proof (text_cstr g Htg) as Hcg.
  assert (nr_strempty (Some g) = false) as -> by (destruct Hcg as [|c g Hc _]; [done|]; unfold nr_strempty; change (char_at (c :: g) 0) with c; lia). done.
Qed.

(** C18: An error reaches the daemon whole. What the library writes, read as JSON in
    whatever locale, is the array of the time in milliseconds, the name of the
    transaction, the message, the class and the parameters, with the identifier
    of the transaction when there is one; the parameters are the stack trace and
    the attributes themselves, not their texts, each of them only when it is
    there. *)
Theorem nr_error_reaches_daemon `{Allocator Z} (radix radix' : Z) (address : list Z → Z) (e : nr_error_t) (name : list Z)
    (guid uri : option (list Z)) (stack : nrobj_t) (agent user intrinsics : obj) :
  locale_radix radix → locale_radix radix' → error_ok e → text_ok name → (∀ s, guid = Some s → text_ok s ∧ s ≠ []) → (∀ s, uri = Some s → text_ok s) →
  part_ok (Some stack) → stacktrace_json e = nro_to_json radix (Some stack) → part_ok agent → part_ok user → part_ok intrinsics →
  ∃ text, nr_error_to_daemon_json radix (Some e) (Some name) guid agent user intrinsics uri = Some text ∧
    nro_create_from_json radix' address (Some text) =
      Done (Some (reread address 0 (daemon_array e name guid (OHash 8 (elements (daemon_params stack agent user intrinsics uri)))))).
Proof.
  intros Hx Hx' He Hn Hg Hu Hst Est Ha Hus Hi.
  assert (stacktrace_json e = json_text stack) as Est' by (rewrite Est; apply nro_to_json_text, (Hst stack eq_refl); done).
  pose proof (json_text_cstr stack (proj2 (Hst stack eq_refl))) as Hsc.
  destruct (params_copied radix Hx (json_text stack) agent user intrinsics uri) as (a & Ea & Hao); try done; [intros s Es; by apply text_cstr, Hu|].
  destruct (daemon_params_ok 8 stack agent user intrinsics uri) as [Hdj Hdo]; try done. rewrite <-Est' in Ea at 1.
  eexists. split; [by apply nr_error_to_daemon_array|].
  destruct (daemon_array_ok e name guid _ He Hn Hg Hao) as [Hwo _]. destruct (daemon_array_ok e name guid _ He Hn Hg Hdo) as [Ho Hj].
  rewrite nro_to_json_text by done.
  assert (json_text (daemon_array e name guid (OHash a (elements (written_params (json_text stack) agent user intrinsics uri)))) =
    json_text (daemon_array e name guid (OHash 8 (elements (daemon_params stack agent user intrinsics uri))))) as ->.
  { unfold daemon_array. cbn [json_text]. rewrite !fmap_app, !fmap_cons. by rewrite (params_text a 8). }
  rewrite <-(nro_to_json_text radix _ Hx Ho). apply json_reads_back; auto.
Qed.

Lemma nr_error_reaches_daemon_witness :
  let _ := GenerousAllocator.allocator Z in
  let e := Error 1563574856827123 5 (lit "m") (lit "k") (nro_to_json 46 (Some (OArray 8 [OString (Some (lit "f"))]))) None in
  ∃ text, nr_error_to_daemon_json 46 (Some e) (Some (lit "n")) (Some (lit "g")) None (Some (OHash 8 [(lit "u", OBoolean 1)])) None None = Some text ∧
    nro_create_from_json 44 (λ _, 0) (Some text) = Done (Some (OArray 8 [OLong 1563574856827; OString (Some (lit "n")); OString (Some (lit "m")); OString (Some (lit "k"));
      OHash 8 [(lit "stack_trace", OArray 8 [OString (Some (lit "f"))]); (lit "userAttributes", OHash 8 [(lit "u", OBoolean 1)])]; OString (Some (lit "g"))])).
Proof.
  intros al e. destruct (nr_error_reaches_daemon (H:=al) 46 44 (λ _, 0) e (lit "n") (Some (lit "g")) None
    (OArray 8 [OString (Some (lit "f"))]) None (Some (OHash 8 [(lit "u", OBoolean 1)])) None) as (text & Et & Ep).
  - by left.
  - by right.
  - split; [done|by_text..].
  - by_text.
  - intros s [= <-]. split; [by_text|done].
  - done.
  - intros op [= <-]. split; constructor; try done; apply Forall_singleton; constructor; [by_text|by_key].
  - done.
  - done.
  - intros op [= <-]. split; constructor; try done; try (apply NoDup_singleton); apply Forall_singleton; try (by constructor); try by_key. split; [by_text|done].
  - done.
  - exists text. split; [exact Et|exact Ep].
Defined.
