(* ===== verification/Txn.v ===== *)
(** * Txn: transactions and their options (src/axiom/nr_txn.h, nr_txn.c, util_apdex.c)

    The record has the fields that the modelled operations use, in the order of
    the structure.  An [int] used as a flag is a number here too. *)

From S2P Require Import Prelude Memory CString Strings Double Object ObjectParse Rules.
From S2P Require Metrics StringPool Attributes DistributedTrace TraceContext AnalyticsEvents ExclusiveTime SegmentTree Random.
From S2P Require Import Synthetics Errors.
Local Open Scope Z_scope.

(** ** Setters

    [setter make field f] is the function that applies [f] to a field: [make] is
    the record built from its own fields. *)
Ltac setter make field f :=
  let make := eval cbv delta [make] in make in
  lazymatch (eval pattern field in make) with ?g _ => let r := eval cbv beta in (g (λ t, f (field t))) in exact r end.

(** ** Options *)
Inductive nr_tt_recordsql_t := NR_SQL_NONE | NR_SQL_RAW | NR_SQL_OBFUSCATED.
#[export] Instance recordsql_eq_dec : EqDecision nr_tt_recordsql_t.
Proof. solve_decision. Defined.

Record nrtxnopt_t := Options {
  custom_events_enabled : Z;
  custom_events_max_samples_stored : Z;
  synthetics_enabled : Z;
  instance_reporting_enabled : Z;
  database_name_reporting_enabled : Z;
  err_enabled : Z;
  request_params_enabled : Z;
  autorum_enabled : Z;
  analytics_events_enabled : Z;
  error_events_enabled : Z;
  tt_enabled : Z;
  ep_enabled : Z;
  tt_recordsql : nr_tt_recordsql_t;
  tt_slowsql : Z;
  apdex_t : Z;
  tt_threshold : Z;
  tt_is_apdex_f : Z;
  ep_threshold : Z;
  ss_threshold : Z;
  cross_process_enabled : Z;
  allow_raw_exception_messages : Z;
  custom_parameters_enabled : Z;
  distributed_tracing_enabled : Z;
  distributed_tracing_pad_trace_id : bool;
  otel_w3c_trace_id : bool;
  distributed_tracing_exclude_newrelic_header : bool;
  dt_sampler_parent_sampled : TraceContext.nr_upstream_parent_sampling_control_t;
  dt_sampler_parent_not_sampled : TraceContext.nr_upstream_parent_sampling_control_t;
  span_events_enabled : Z;
  span_events_max_samples_stored : Z;
  max_segments : Z;
  discount_main_context_blocking : bool;
  span_queue_batch_size : Z;
  span_queue_batch_timeout : Z;
  logging_enabled : bool;
  log_decorating_enabled : bool;
  log_forwarding_enabled : bool;
  log_forwarding_context_data_enabled : bool;
  log_forwarding_log_level : Z;
  log_events_max_samples_stored : Z;
  log_metrics_enabled : bool;
  log_forwarding_labels_enabled : bool;
  message_tracer_segment_parameters_enabled : bool;
}.

Definition make_options (o : nrtxnopt_t) : nrtxnopt_t :=
  Options (custom_events_enabled o) (custom_events_max_samples_stored o) (synthetics_enabled o) (instance_reporting_enabled o)
    (database_name_reporting_enabled o) (err_enabled o) (request_params_enabled o) (autorum_enabled o) (analytics_events_enabled o)
    (error_events_enabled o) (tt_enabled o) (ep_enabled o) (tt_recordsql o) (tt_slowsql o) (apdex_t o) (tt_threshold o) (tt_is_apdex_f o)
    (ep_threshold o) (ss_threshold o) (cross_process_enabled o) (allow_raw_exception_messages o) (custom_parameters_enabled o)
    (distributed_tracing_enabled o) (distributed_tracing_pad_trace_id o) (otel_w3c_trace_id o) (distributed_tracing_exclude_newrelic_header o)
    (dt_sampler_parent_sampled o) (dt_sampler_parent_not_sampled o) (span_events_enabled o) (span_events_max_samples_stored o) (max_segments o)
    (discount_main_context_blocking o) (span_queue_batch_size o) (span_queue_batch_timeout o) (logging_enabled o) (log_decorating_enabled o)
    (log_forwarding_enabled o) (log_forwarding_context_data_enabled o) (log_forwarding_log_level o) (log_events_max_samples_stored o)
    (log_metrics_enabled o) (log_forwarding_labels_enabled o) (message_tracer_segment_parameters_enabled o).

Definition set_custom_events_enabled (x : Z) : nrtxnopt_t → nrtxnopt_t := ltac:(setter make_options custom_events_enabled (λ _ : Z, x)).
Definition set_err_enabled (x : Z) : nrtxnopt_t → nrtxnopt_t := ltac:(setter make_options err_enabled (λ _ : Z, x)).
Definition set_analytics_events_enabled (x : Z) : nrtxnopt_t → nrtxnopt_t := ltac:(setter make_options analytics_events_enabled (λ _ : Z, x)).
Definition set_error_events_enabled (x : Z) : nrtxnopt_t → nrtxnopt_t := ltac:(setter make_options error_events_enabled (λ _ : Z, x)).
Definition set_tt_enabled (x : Z) : nrtxnopt_t → nrtxnopt_t := ltac:(setter make_options tt_enabled (λ _ : Z, x)).
Definition set_ep_enabled (x : Z) : nrtxnopt_t → nrtxnopt_t := ltac:(setter make_options ep_enabled (λ _ : Z, x)).
Definition set_tt_recordsql (x : nr_tt_recordsql_t) : nrtxnopt_t → nrtxnopt_t := ltac:(setter make_options tt_recordsql (λ _ : nr_tt_recordsql_t, x)).
Definition set_tt_slowsql (x : Z) : nrtxnopt_t → nrtxnopt_t := ltac:(setter make_options tt_slowsql (λ _ : Z, x)).
Definition set_apdex_t (x : Z) : nrtxnopt_t → nrtxnopt_t := ltac:(setter make_options apdex_t (λ _ : Z, x)).
Definition set_tt_threshold (x : Z) : nrtxnopt_t → nrtxnopt_t := ltac:(setter make_options tt_threshold (λ _ : Z, x)).
Definition set_allow_raw_exception_messages (x : Z) : nrtxnopt_t → nrtxnopt_t := ltac:(setter make_options allow_raw_exception_messages (λ _ : Z, x)).
Definition set_custom_parameters_enabled (x : Z) : nrtxnopt_t → nrtxnopt_t := ltac:(setter make_options custom_parameters_enabled (λ _ : Z, x)).
Definition set_span_events_enabled (x : Z) : nrtxnopt_t → nrtxnopt_t := ltac:(setter make_options span_events_enabled (λ _ : Z, x)).
Definition set_span_queue_batch_size (x : Z) : nrtxnopt_t → nrtxnopt_t := ltac:(setter make_options span_queue_batch_size (λ _ : Z, x)).

(** A C flag, as [bool]. *)
Definition flag (x : Z) : bool := negb (x =? 0).

(** A sequence of comparisons that return [false]. *)
Definition nr_txn_cmp_options (o1 o2 : option nrtxnopt_t) : bool :=
  match o1, o2 with
  | None, None => true
  | Some o1, Some o2 =>
      bool_decide (flag (custom_events_enabled o1) = flag (custom_events_enabled o2)) &&
      (synthetics_enabled o1 =? synthetics_enabled o2) && (instance_reporting_enabled o1 =? instance_reporting_enabled o2) &&
      (database_name_reporting_enabled o1 =? database_name_reporting_enabled o2) && (err_enabled o1 =? err_enabled o2) &&
      (request_params_enabled o1 =? request_params_enabled o2) && (autorum_enabled o1 =? autorum_enabled o2) &&
      bool_decide (flag (analytics_events_enabled o1) = flag (analytics_events_enabled o2)) &&
      bool_decide (flag (error_events_enabled o1) = flag (error_events_enabled o2)) &&
      (tt_enabled o1 =? tt_enabled o2) && (ep_enabled o1 =? ep_enabled o2) && bool_decide (tt_recordsql o1 = tt_recordsql o2) &&
      (tt_slowsql o1 =? tt_slowsql o2) && (apdex_t o1 =? apdex_t o2) && (tt_threshold o1 =? tt_threshold o2) &&
      (tt_is_apdex_f o1 =? tt_is_apdex_f o2) && (ep_threshold o1 =? ep_threshold o2) && (ss_threshold o1 =? ss_threshold o2) &&
      (cross_process_enabled o1 =? cross_process_enabled o2) && (distributed_tracing_enabled o1 =? distributed_tracing_enabled o2) &&
      bool_decide (flag (span_events_enabled o1) = flag (span_events_enabled o2)) &&
      bool_decide (flag (max_segments o1) = flag (max_segments o2)) &&
      (span_queue_batch_size o1 =? span_queue_batch_size o2) && (span_queue_batch_timeout o1 =? span_queue_batch_timeout o2)
  | _, _ => false
  end.

(** ** Security settings *)

(** The update when what the daemon said under a key is a number. *)
Definition when_bool (reply : obj) (key : list Z) (dflt value : Z) (f : nrtxnopt_t → nrtxnopt_t) (opts : nrtxnopt_t) : nrtxnopt_t :=
  if value =? nr_reply_get_bool reply (Some key) dflt then f opts else opts.

Definition nr_txn_enforce_security_settings (opts : option nrtxnopt_t) (connect_reply sec_policies : obj) : option nrtxnopt_t :=
  match opts with
  | None => None
  | Some opts =>
      let opts :=
        if 0 =? nr_reply_get_bool sec_policies (Some (lit "record_sql")) 2 then set_tt_recordsql NR_SQL_NONE opts
        else if (1 =? nr_reply_get_bool sec_policies (Some (lit "record_sql")) 2) && bool_decide (NR_SQL_RAW = tt_recordsql opts)
        then set_tt_recordsql NR_SQL_OBFUSCATED opts else opts in
      let opts := when_bool sec_policies (lit "allow_raw_exception_messages") 2 0 (set_allow_raw_exception_messages 0) opts in
      let opts := when_bool sec_policies (lit "custom_events") 2 0 (set_custom_events_enabled 0) opts in
      let opts := when_bool sec_policies (lit "custom_parameters") 2 0 (set_custom_parameters_enabled 0) opts in
      let opts := when_bool connect_reply (lit "collect_analytics_events") 1 0 (set_analytics_events_enabled 0) opts in
      let opts := when_bool connect_reply (lit "collect_span_events") 1 0 (set_span_events_enabled 0) opts in
      let opts := when_bool connect_reply (lit "collect_custom_events") 1 0 (set_custom_events_enabled 0) opts in
      let opts := when_bool connect_reply (lit "collect_traces") 0 0 (λ o, set_tt_slowsql 0 (set_ep_enabled 0 (set_tt_enabled 0 o))) opts in
      let opts := when_bool connect_reply (lit "collect_errors") 0 0 (set_err_enabled 0) opts in
      Some (when_bool connect_reply (lit "collect_error_events") 1 0 (set_error_events_enabled 0) opts)
  end.

(** ** Status, headers and the transaction *)
Inductive nrtxnstatus_cross_process_t :=
| NR_STATUS_CROSS_PROCESS_DISABLED | NR_STATUS_CROSS_PROCESS_START | NR_STATUS_CROSS_PROCESS_RESPONSE_CREATED.

Inductive nr_path_type_t :=
| NR_PATH_TYPE_UNKNOWN | NR_PATH_TYPE_URI | NR_PATH_TYPE_STATUS_CODE | NR_PATH_TYPE_ACTION | NR_PATH_TYPE_FUNCTION | NR_PATH_TYPE_CUSTOM.
#[export] Instance path_type_eq_dec : EqDecision nr_path_type_t.
Proof. solve_decision. Defined.

(** The number of a path type, which is its priority. *)
Definition path_rank (t : nr_path_type_t) : Z :=
  match t with
  | NR_PATH_TYPE_UNKNOWN => 0 | NR_PATH_TYPE_URI => 1 | NR_PATH_TYPE_STATUS_CODE => 2
  | NR_PATH_TYPE_ACTION => 3 | NR_PATH_TYPE_FUNCTION => 4 | NR_PATH_TYPE_CUSTOM => 5
  end.

Record nrtxnstatus_t := Status {
  has_inbound_record_tt : Z;
  has_outbound_record_tt : Z;
  path_is_frozen : Z;
  path_type : nr_path_type_t;
  ignore : Z;
  ignore_apdex : Z;
  background : Z;
  recording : Z;
  http_x_start : Z;
  cross_process : nrtxnstatus_cross_process_t;
}.
Definition make_status (s : nrtxnstatus_t) : nrtxnstatus_t :=
  Status (has_inbound_record_tt s) (has_outbound_record_tt s) (path_is_frozen s) (path_type s) (ignore s) (ignore_apdex s)
    (background s) (recording s) (http_x_start s) (cross_process s).
Definition set_path_is_frozen (x : Z) : nrtxnstatus_t → nrtxnstatus_t := ltac:(setter make_status path_is_frozen (λ _ : Z, x)).
Definition set_path_type (x : nr_path_type_t) : nrtxnstatus_t → nrtxnstatus_t := ltac:(setter make_status path_type (λ _ : nr_path_type_t, x)).
Definition set_ignore (x : Z) : nrtxnstatus_t → nrtxnstatus_t := ltac:(setter make_status ignore (λ _ : Z, x)).
Definition set_background (x : Z) : nrtxnstatus_t → nrtxnstatus_t := ltac:(setter make_status background (λ _ : Z, x)).
Definition set_recording (x : Z) : nrtxnstatus_t → nrtxnstatus_t := ltac:(setter make_status recording (λ _ : Z, x)).
Definition set_http_x_start (x : Z) : nrtxnstatus_t → nrtxnstatus_t := ltac:(setter make_status http_x_start (λ _ : Z, x)).

Record nrtxncat_t := Cat {
  inbound_guid : option (list Z);
  trip_id : option (list Z);
  referring_path_hash : option (list Z);
  alternate_path_hashes : obj;
  client_cross_process_id : option (list Z);
}.
Definition make_cat (c : nrtxncat_t) : nrtxncat_t :=
  Cat (inbound_guid c) (trip_id c) (referring_path_hash c) (alternate_path_hashes c) (client_cross_process_id c).
Definition set_alternate_path_hashes (x : obj) : nrtxncat_t → nrtxncat_t := ltac:(setter make_cat alternate_path_hashes (λ _ : obj, x)).

(** The fields of the root segment that the transaction reads. *)
Record root_segment := Root {
  root_start : Z;
  root_stop : Z;
  root_exclusive : option ExclusiveTime.nr_exclusive_time_t;
}.

(** [txn_span_queue] says whether there is a queue of span events; the CPU times are
    those of the start and of the end. *)
Record nrtxn_t := Txn {
  high_security : Z;
  lasp : Z;
  options : nrtxnopt_t;
  status : nrtxnstatus_t;
  cat : nrtxncat_t;
  segment_count : Z;
  segment_root : option root_segment;
  abs_start_time : Z;
  txn_error : option nr_error_t;
  datastore_products : option StringPool.nrstrpool_t;
  unscoped_metrics : option Metrics.nrmtable_t;
  intrinsics : obj;
  attributes : option Attributes.nr_attributes_t;
  custom_events : option AnalyticsEvents.nr_analytics_events_t;
  user_cpu : Z * Z;
  sys_cpu : Z * Z;
  request_uri : option (list Z);
  path : option (list Z);
  txn_name : option (list Z);
  txn_type : Z;
  app_connect_reply : obj;
  primary_app_name : option (list Z);
  synthetics : option nr_synthetics_t;
  distributed_trace : option DistributedTrace.nr_distributed_trace_t;
  txn_span_queue : bool;
  final_total_time : Z;
}.
Definition make_txn (t : nrtxn_t) : nrtxn_t :=
  Txn (high_security t) (lasp t) (options t) (status t) (cat t) (segment_count t) (segment_root t) (abs_start_time t) (txn_error t)
    (datastore_products t) (unscoped_metrics t) (intrinsics t) (attributes t) (custom_events t) (user_cpu t) (sys_cpu t)
    (request_uri t) (path t) (txn_name t) (txn_type t) (app_connect_reply t) (primary_app_name t) (synthetics t) (distributed_trace t)
    (txn_span_queue t) (final_total_time t).

Definition on_options (f : nrtxnopt_t → nrtxnopt_t) : nrtxn_t → nrtxn_t := ltac:(setter make_txn options f).
Definition on_status (f : nrtxnstatus_t → nrtxnstatus_t) : nrtxn_t → nrtxn_t := ltac:(setter make_txn status f).
Definition on_cat (f : nrtxncat_t → nrtxncat_t) : nrtxn_t → nrtxn_t := ltac:(setter make_txn cat f).
Definition on_metrics (f : option Metrics.nrmtable_t → option Metrics.nrmtable_t) : nrtxn_t → nrtxn_t := ltac:(setter make_txn unscoped_metrics f).
Definition on_intrinsics (f : obj → obj) : nrtxn_t → nrtxn_t := ltac:(setter make_txn intrinsics f).
Definition on_attributes (f : option Attributes.nr_attributes_t → option Attributes.nr_attributes_t) : nrtxn_t → nrtxn_t :=
  ltac:(setter make_txn attributes f).
Definition on_trace (f : option DistributedTrace.nr_distributed_trace_t → option DistributedTrace.nr_distributed_trace_t) : nrtxn_t → nrtxn_t :=
  ltac:(setter make_txn distributed_trace f).
Definition set_txn_error (x : option nr_error_t) : nrtxn_t → nrtxn_t := ltac:(setter make_txn txn_error (λ _ : option nr_error_t, x)).
Definition set_request_uri (x : option (list Z)) : nrtxn_t → nrtxn_t := ltac:(setter make_txn request_uri (λ _ : option (list Z), x)).
Definition set_path (x : option (list Z)) : nrtxn_t → nrtxn_t := ltac:(setter make_txn path (λ _ : option (list Z), x)).
Definition set_txn_name (x : option (list Z)) : nrtxn_t → nrtxn_t := ltac:(setter make_txn txn_name (λ _ : option (list Z), x)).
Definition set_txn_type (x : Z) : nrtxn_t → nrtxn_t := ltac:(setter make_txn txn_type (λ _ : Z, x)).
Definition set_abs_start_time (x : Z) : nrtxn_t → nrtxn_t := ltac:(setter make_txn abs_start_time (λ _ : Z, x)).
Definition set_segment_root (x : option root_segment) : nrtxn_t → nrtxn_t := ltac:(setter make_txn segment_root (λ _ : option root_segment, x)).
Definition set_custom_events (x : option AnalyticsEvents.nr_analytics_events_t) : nrtxn_t → nrtxn_t :=
  ltac:(setter make_txn custom_events (λ _ : option AnalyticsEvents.nr_analytics_events_t, x)).

(** ** Apdex zones *)
Inductive nr_apdex_zone_t := NR_APDEX_SATISFYING | NR_APDEX_TOLERATING | NR_APDEX_FAILING.
#[export] Instance apdex_zone_eq_dec : EqDecision nr_apdex_zone_t.
Proof. solve_decision. Defined.

Definition nr_apdex_zone (apdex_threshold duration : Z) : nr_apdex_zone_t :=
  if duration <=? apdex_threshold then NR_APDEX_SATISFYING
  else if duration <=? u64 (4 * apdex_threshold) then NR_APDEX_TOLERATING
  else NR_APDEX_FAILING.

Definition nr_apdex_zone_label (apdex : nr_apdex_zone_t) : Z :=
  match apdex with NR_APDEX_SATISFYING => 83 | NR_APDEX_TOLERATING => 84 | NR_APDEX_FAILING => 70 end.

(** ** What is asked of a transaction *)
Definition NR_TXN_TYPE_SYNTHETICS : Z := 1.
Definition NR_TXN_TYPE_CAT_INBOUND : Z := 4.
Definition NR_TXN_TYPE_CAT_OUTBOUND : Z := 8.
Definition NR_TXN_TYPE_DT_INBOUND : Z := 16.
Definition NR_TXN_TYPE_DT_OUTBOUND : Z := 32.

Section predicates.
Implicit Types txn : option nrtxn_t.

Definition nr_txn_recording txn : bool := from_option (λ t, flag (recording (status t))) false txn.
Definition has_type (t : nrtxn_t) (x : Z) : bool := flag (Z.land x (txn_type t)).
Definition nr_txn_is_synthetics txn : bool := from_option (λ t, has_type t NR_TXN_TYPE_SYNTHETICS) false txn.
Definition nr_txn_is_cat txn : bool := from_option (λ t, has_type t NR_TXN_TYPE_CAT_INBOUND || has_type t NR_TXN_TYPE_CAT_OUTBOUND) false txn.
Definition nr_txn_is_dt txn : bool := from_option (λ t, has_type t NR_TXN_TYPE_DT_INBOUND || has_type t NR_TXN_TYPE_DT_OUTBOUND) false txn.
Definition nr_txn_is_sampled txn : bool :=
  from_option (λ t, flag (distributed_tracing_enabled (options t)) && DistributedTrace.nr_distributed_trace_is_sampled (distributed_trace t)) false txn.

Definition nr_txn_sql_recording_level txn : nr_tt_recordsql_t :=
  match txn with
  | None => NR_SQL_NONE
  | Some t =>
      match tt_recordsql (options t) with
      | NR_SQL_RAW => if flag (high_security t) then NR_SQL_OBFUSCATED else NR_SQL_RAW
      | NR_SQL_OBFUSCATED => NR_SQL_OBFUSCATED
      | NR_SQL_NONE => NR_SQL_NONE
      end
  end.

Definition nr_txn_should_force_persist txn : bool :=
  from_option (λ t, flag (has_inbound_record_tt (status t)) || flag (has_outbound_record_tt (status t))) false txn.

Definition nr_txn_start_time txn : Z := from_option abs_start_time 0 txn.
Definition nr_txn_duration txn : Z :=
  from_option (λ t, from_option (λ r, DistributedTrace.nr_time_duration (root_start r) (root_stop r)) 0 (segment_root t)) 0 txn.
Definition nr_txn_queue_time txn : Z :=
  from_option (λ t, if http_x_start (status t) =? 0 then 0
                    else DistributedTrace.nr_time_duration (http_x_start (status t)) (nr_txn_start_time txn)) 0 txn.

Definition nr_txn_should_create_apdex_metrics txn : bool :=
  from_option (λ t, if flag (ignore_apdex (status t)) then false else if flag (background (status t)) then false else true) false txn.

Definition nr_txn_apdex_zone txn (duration : Z) : nr_apdex_zone_t :=
  match txn with
  | None => NR_APDEX_FAILING
  | Some t => match txn_error t with Some _ => NR_APDEX_FAILING | None => nr_apdex_zone (apdex_t (options t)) duration end
  end.

Definition nr_txn_should_save_trace txn (duration : Z) : bool :=
  from_option (λ t, if segment_count t <? 1 then false
                    else if nr_txn_is_synthetics txn then true else tt_threshold (options t) <=? duration) false txn.

Definition nr_txn_event_should_add_guid txn : bool :=
  match txn with
  | None => false
  | Some _ => if nr_txn_is_dt txn then false else if nr_txn_is_synthetics txn then true else if nr_txn_is_cat txn then true else false
  end.

Definition nr_txn_should_create_span_events txn : bool :=
  from_option (λ t, (txn_span_queue t || DistributedTrace.nr_distributed_trace_is_sampled (distributed_trace t)) &&
                    flag (distributed_tracing_enabled (options t)) && flag (span_events_enabled (options t))) false txn.

Definition nr_txn_get_guid txn : option (list Z) := txn ≫= λ t, DistributedTrace.nr_distributed_trace_get_txn_id (distributed_trace t).
Definition nr_txn_get_cat_trip_id txn : option (list Z) :=
  txn ≫= λ t, match trip_id (cat t) with Some id => Some id | None => nr_txn_get_guid txn end.

Definition nr_txn_get_current_trace_id txn : option (list Z) :=
  txn ≫= λ t, match DistributedTrace.nr_distributed_trace_get_trace_id (distributed_trace t) with
              | None => None
              | Some id => if flag (distributed_tracing_enabled (options t)) then Some (nr_strdup (Some id)) else None
              end.

Definition nr_txn_is_account_trusted txn (account_id : Z) : bool :=
  from_option (λ t, if account_id <=? 0 then false
                    else 0 <? nro_find_array_int (nro_get_hash_array (app_connect_reply t) (Some (lit "trusted_account_ids"))).1 account_id) false txn.
Definition nr_txn_is_account_trusted_dt txn (trusted_key : option (list Z)) : bool :=
  match txn, trusted_key with
  | Some t, Some _ => 0 =? nr_strcmp trusted_key (nro_get_hash_string (app_connect_reply t) (Some (lit "trusted_account_key"))).1
  | _, _ => false
  end.

Definition nr_txn_record_error_worthy txn (priority : Z) : nr_status_t :=
  match txn with
  | None => NR_FAILURE
  | Some t =>
      if (err_enabled (options t) =? 0) || (recording (status t) =? 0) then NR_FAILURE
      else match txn_error t with
           | None => NR_SUCCESS
           | Some _ => if priority <? nr_error_priority (txn_error t) then NR_FAILURE else NR_SUCCESS
           end
  end.

Definition nr_txn_is_current_path_named txn (p : option (list Z)) : bool :=
  match txn, p with Some t, Some _ => 0 =? nr_strcmp (path t) p | _, _ => false end.

Definition nr_txn_log_forwarding_enabled txn : bool :=
  from_option (λ t, if negb (logging_enabled (options t)) || negb (log_forwarding_enabled (options t)) then false
                    else negb (flag (high_security t))) false txn.
Definition nr_txn_log_forwarding_context_data_enabled txn : bool :=
  if negb (nr_txn_log_forwarding_enabled txn) then false
  else from_option (λ t, log_forwarding_context_data_enabled (options t)) false txn.
Definition nr_txn_log_forwarding_labels_enabled txn : bool :=
  if negb (nr_txn_log_forwarding_enabled txn) then false
  else from_option (λ t, log_forwarding_labels_enabled (options t)) false txn.
Definition nr_txn_log_metrics_enabled txn : bool :=
  from_option (λ t, logging_enabled (options t) && log_metrics_enabled (options t)) false txn.
Definition nr_txn_log_decorating_enabled txn : bool :=
  from_option (λ t, logging_enabled (options t) && log_decorating_enabled (options t)) false txn.

(** Whether the transaction is there, and the transaction. *)
Definition nr_txn_ignore txn : bool * option nrtxn_t :=
  match txn with
  | None => (false, None)
  | Some t => (true, Some (on_status (λ s, set_recording 0 (set_ignore 1 s)) t))
  end.

Definition nr_txn_force_single_count txn (metric_name : option (list Z)) : option nrtxn_t :=
  match txn, metric_name with
  | Some t, Some _ => Some (on_metrics (λ m, Metrics.nrm_force_add m metric_name 0) t)
  | _, _ => txn
  end.

Definition nr_txn_set_timing txn (start duration : Z) : bool * option nrtxn_t :=
  match txn with
  | Some t =>
      match segment_root t with
      | Some r => (true, Some (set_abs_start_time start (set_segment_root (Some (Root (root_start r) duration (root_exclusive r))) t)))
      | None => (false, txn)
      end
  | None => (false, txn)
  end.

Definition nr_txn_set_guid txn (guid : option (list Z)) : option nrtxn_t :=
  on_trace (λ dt, DistributedTrace.nr_distributed_trace_set_txn_id
                    (match dt with None => Some DistributedTrace.nr_distributed_trace_create | Some _ => dt end) guid) <$> txn.
End predicates.

(** ** Security settings only restrict *)

Definition secrecy (l : nr_tt_recordsql_t) : Z := match l with NR_SQL_NONE => 2 | NR_SQL_OBFUSCATED => 1 | NR_SQL_RAW => 0 end.
Definition says_no (reply : obj) (key : list Z) (dflt : Z) : Prop := nr_reply_get_bool reply (Some key) dflt = 0.

#[export] Instance says_no_dec reply key dflt : Decision (says_no reply key dflt).
Proof. unfold says_no. apply _. Defined.

(** The options after, by what the daemon said. *)
Record restricted (connect policies : obj) (o o' : nrtxnopt_t) : Prop := {
  rs_others : set_tt_recordsql (tt_recordsql o) (set_allow_raw_exception_messages (allow_raw_exception_messages o) (set_custom_events_enabled (custom_events_enabled o)
    (set_custom_parameters_enabled (custom_parameters_enabled o) (set_analytics_events_enabled (analytics_events_enabled o)
    (set_span_events_enabled (span_events_enabled o) (set_tt_slowsql (tt_slowsql o) (set_ep_enabled (ep_enabled o) (set_tt_enabled (tt_enabled o)
    (set_err_enabled (err_enabled o) (set_error_events_enabled (error_events_enabled o) o')))))))))) = o;
  rs_sql : secrecy (tt_recordsql o) ≤ secrecy (tt_recordsql o') ∧
    (says_no policies (lit "record_sql") 2 → tt_recordsql o' = NR_SQL_NONE) ∧
    (nr_reply_get_bool policies (Some (lit "record_sql")) 2 = 1 → tt_recordsql o' ≠ NR_SQL_RAW) ∧
    (nr_reply_get_bool policies (Some (lit "record_sql")) 2 ∉ [0; 1] → tt_recordsql o' = tt_recordsql o);
  rs_messages : allow_raw_exception_messages o' = if decide (says_no policies (lit "allow_raw_exception_messages") 2) then 0 else allow_raw_exception_messages o;
  rs_custom_events : custom_events_enabled o' =
    if decide (says_no policies (lit "custom_events") 2 ∨ says_no connect (lit "collect_custom_events") 1) then 0 else custom_events_enabled o;
  rs_parameters : custom_parameters_enabled o' = if decide (says_no policies (lit "custom_parameters") 2) then 0 else custom_parameters_enabled o;
  rs_events : analytics_events_enabled o' = if decide (says_no connect (lit "collect_analytics_events") 1) then 0 else analytics_events_enabled o;
  rs_spans : span_events_enabled o' = if decide (says_no connect (lit "collect_span_events") 1) then 0 else span_events_enabled o;
  rs_traces : (tt_enabled o', ep_enabled o', tt_slowsql o') =
    if decide (says_no connect (lit "collect_traces") 0) then (0, 0, 0) else (tt_enabled o, ep_enabled o, tt_slowsql o);
  rs_errors : err_enabled o' = if decide (says_no connect (lit "collect_errors") 0) then 0 else err_enabled o;
  rs_error_events : error_events_enabled o' = if decide (says_no connect (lit "collect_error_events") 1) then 0 else error_events_enabled o;
}.

(** An update that sets a field of [get] to zero, as an assignment. *)
Lemma when_off reply key dflt (get : nrtxnopt_t → Z) (put : Z → nrtxnopt_t → nrtxnopt_t) o : (∀ o, put (get o) o = o) →
  when_bool reply key dflt 0 (put 0) o = put (if decide (says_no reply key dflt) then 0 else get o) o.
Proof.
  intros Hput. unfold when_bool, says_no. destruct (Z.eqb_spec 0 (nr_reply_get_bool reply (Some key) dflt)); case_decide; try done; lia || by rewrite Hput.
Qed.

Definition off (reply : obj) (key : list Z) (dflt x : Z) : Z := if decide (says_no reply key dflt) then 0 else x.

Definition sql_after (policies : obj) (l : nr_tt_recordsql_t) : nr_tt_recordsql_t :=
  let b := nr_reply_get_bool policies (Some (lit "record_sql")) 2 in
  if 0 =? b then NR_SQL_NONE else if (1 =? b) && bool_decide (NR_SQL_RAW = l) then NR_SQL_OBFUSCATED else l.

Lemma traces_off connect o :
  when_bool connect (lit "collect_traces") 0 0 (λ o, set_tt_slowsql 0 (set_ep_enabled 0 (set_tt_enabled 0 o))) o =
  set_tt_slowsql (off connect (lit "collect_traces") 0 (tt_slowsql o)) (set_ep_enabled (off connect (lit "collect_traces") 0 (ep_enabled o))
    (set_tt_enabled (off connect (lit "collect_traces") 0 (tt_enabled o)) o)).
Proof.
  unfold when_bool, off. destruct (Z.eqb_spec 0 (nr_reply_get_bool connect (Some (lit "collect_traces")) 0)); case_decide as Hn; unfold says_no in Hn; lia || by destruct o.
Qed.

Lemma sql_assigned policies o :
  (if 0 =? nr_reply_get_bool policies (Some (lit "record_sql")) 2 then set_tt_recordsql NR_SQL_NONE o
   else if (1 =? nr_reply_get_bool policies (Some (lit "record_sql")) 2) && bool_decide (NR_SQL_RAW = tt_recordsql o)
   then set_tt_recordsql NR_SQL_OBFUSCATED o else o) = set_tt_recordsql (sql_after policies (tt_recordsql o)) o.
Proof. unfold sql_after. destruct (0 =? _); [done|]. destruct ((1 =? _) && _); [done|]. by destruct o. Qed.

(** All of it, as assignments. *)
Lemma enforce_assigns o connect policies : nr_txn_enforce_security_settings (Some o) connect policies = Some (
  set_error_events_enabled (off connect (lit "collect_error_events") 1 (error_events_enabled o))
  (set_err_enabled (off connect (lit "collect_errors") 0 (err_enabled o))
  (set_tt_slowsql (off connect (lit "collect_traces") 0 (tt_slowsql o))
  (set_ep_enabled (off connect (lit "collect_traces") 0 (ep_enabled o))
  (set_tt_enabled (off connect (lit "collect_traces") 0 (tt_enabled o))
  (set_custom_events_enabled (off connect (lit "collect_custom_events") 1 (off policies (lit "custom_events") 2 (custom_events_enabled o)))
  (set_span_events_enabled (off connect (lit "collect_span_events") 1 (span_events_enabled o))
  (set_analytics_events_enabled (off connect (lit "collect_analytics_events") 1 (analytics_events_enabled o))
  (set_custom_parameters_enabled (off policies (lit "custom_parameters") 2 (custom_parameters_enabled o))
  (set_allow_raw_exception_messages (off policies (lit "allow_raw_exception_messages") 2 (allow_raw_exception_messages o))
  (set_tt_recordsql (sql_after policies (tt_recordsql o)) o))))))))))).
Proof.
  unfold nr_txn_enforce_security_settings. f_equal.
  rewrite !(when_off _ _ _ error_events_enabled set_error_events_enabled), !(when_off _ _ _ err_enabled set_err_enabled), !(when_off _ _ _ custom_events_enabled set_custom_events_enabled),
    !(when_off _ _ _ span_events_enabled set_span_events_enabled), !(when_off _ _ _ analytics_events_enabled set_analytics_events_enabled), !(when_off _ _ _ custom_parameters_enabled set_custom_parameters_enabled),
    !(when_off _ _ _ allow_raw_exception_messages set_allow_raw_exception_messages) by (by intros []).
  rewrite traces_off, sql_assigned. done.
Qed.

(** What [off] and [sql_after] do a second time. *)
Lemma sql_after_spec policies l : let b := nr_reply_get_bool policies (Some (lit "record_sql")) 2 in let l' := sql_after policies l in
  secrecy l ≤ secrecy l' ∧ (b = 0 → l' = NR_SQL_NONE) ∧ (b = 1 → l' ≠ NR_SQL_RAW) ∧ (b ∉ [0; 1] → l' = l).
Proof.
  intros b l'. subst l'. unfold sql_after. fold b. clearbody b. rewrite not_elem_of_cons, list_elem_of_singleton.
  destruct (Z.eqb_spec 0 b); [by destruct l; split_and!; try done; lia|]. destruct (Z.eqb_spec 1 b); destruct l; cbn [andb]; rewrite ?bool_decide_eq_true_2, ?bool_decide_eq_false_2 by done; split_and!; done || lia.
Qed.
Lemma sql_after_twice policies l : sql_after policies (sql_after policies l) = sql_after policies l.
Proof. unfold sql_after. destruct (0 =? _); [done|]. destruct (1 =? _); [|done]. by destruct l. Qed.
Lemma off_twice reply key dflt x : off reply key dflt (off reply key dflt x) = off reply key dflt x.
Proof. unfold off. by case_decide. Qed.
Lemma off_both reply key dflt reply' key' dflt' x :
  off reply key dflt (off reply' key' dflt' (off reply key dflt (off reply' key' dflt' x))) = off reply key dflt (off reply' key' dflt' x).
Proof. unfold off. by repeat case_decide. Qed.

Lemma off_stays reply key dflt (get : nrtxnopt_t → Z) o once : get once = off reply key dflt (get o) → off reply key dflt (get once) = get once.
Proof. intros ->. apply off_twice. Qed.

Lemma enforce_twice o once connect policies : nr_txn_enforce_security_settings (Some o) connect policies = Some once →
  nr_txn_enforce_security_settings (Some once) connect policies = Some once.
Proof.
  rewrite !enforce_assigns. injection 1 as E. f_equal. symmetry in E.
  rewrite (off_stays connect (lit "collect_error_events") 1 error_events_enabled o once) by by subst once.
  rewrite (off_stays connect (lit "collect_errors") 0 err_enabled o once) by by subst once.
  rewrite (off_stays connect (lit "collect_traces") 0 tt_slowsql o once) by by subst once.
  rewrite (off_stays connect (lit "collect_traces") 0 ep_enabled o once) by by subst once.
  rewrite (off_stays connect (lit "collect_traces") 0 tt_enabled o once) by by subst once.
  rewrite (off_stays connect (lit "collect_span_events") 1 span_events_enabled o once) by by subst once.
  rewrite (off_stays connect (lit "collect_analytics_events") 1 analytics_events_enabled o once) by by subst once.
  rewrite (off_stays policies (lit "custom_parameters") 2 custom_parameters_enabled o once) by by subst once.
  rewrite (off_stays policies (lit "allow_raw_exception_messages") 2 allow_raw_exception_messages o once) by by subst once.
  assert (off connect (lit "collect_custom_events") 1 (off policies (lit "custom_events") 2 (custom_events_enabled once)) = custom_events_enabled once) as ->
    by (subst once; exact (off_both _ _ _ _ _ _ (custom_events_enabled o))).
  assert (sql_after policies (tt_recordsql once) = tt_recordsql once) as -> by (subst once; exact (sql_after_twice policies (tt_recordsql o))).
  clear E. by destruct once.
Qed.

(** C17: What the daemon and the security policies say can only switch off: every
    option is off afterwards if something said to be consulted says no, and else
    as it was, SQL is recorded no more openly than before, and nothing else
    changes; saying it twice makes no difference.  SQL is recorded raw only when
    neither the policies nor high security speak against it.  Without a reply
    there are no traces and no errors. *)
Theorem nr_txn_security_restricts (o : nrtxnopt_t) (connect policies : obj) (t : nrtxn_t) :
  ∃ o', nr_txn_enforce_security_settings (Some o) connect policies = Some o' ∧ restricted connect policies o o' ∧
    nr_txn_enforce_security_settings (Some o') connect policies = Some o' ∧
    (options t = o' → nr_txn_sql_recording_level (Some t) = NR_SQL_RAW →
      tt_recordsql o = NR_SQL_RAW ∧ high_security t = 0 ∧ nr_reply_get_bool policies (Some (lit "record_sql")) 2 ∉ [0; 1]) ∧
    (connect = None → tt_enabled o' = 0 ∧ err_enabled o' = 0).
Proof.
  eexists. split; [apply enforce_assigns|]. split_and!.
  - split; try reflexivity.
    + by destruct o.
    + apply (sql_after_spec policies (tt_recordsql o)).
    + change (off connect (lit "collect_custom_events") 1 (off policies (lit "custom_events") 2 (custom_events_enabled o)) =
        if decide (says_no policies (lit "custom_events") 2 ∨ says_no connect (lit "collect_custom_events") 1) then 0 else custom_events_enabled o).
      unfold off. repeat case_decide; tauto.
    + change ((off connect (lit "collect_traces") 0 (tt_enabled o), off connect (lit "collect_traces") 0 (ep_enabled o), off connect (lit "collect_traces") 0 (tt_slowsql o)) =
        if decide (says_no connect (lit "collect_traces") 0) then (0, 0, 0) else (tt_enabled o, ep_enabled o, tt_slowsql o)).
      unfold off. by case_decide.
  - eapply enforce_twice, (enforce_assigns o).
  - intros Ht. unfold nr_txn_sql_recording_level.
    assert (tt_recordsql (options t) = sql_after policies (tt_recordsql o)) as -> by (by rewrite Ht). destruct (sql_after_spec policies (tt_recordsql o)) as (Hs & H0 & H1 & H2).
    unfold says_no in H0. destruct (sql_after policies (tt_recordsql o)) eqn:E; try done. unfold flag. destruct (Z.eqb_spec (high_security t) 0); [|done]. intros _.
    split_and!; [rewrite ?E in Hs; cbn in Hs; by destruct (tt_recordsql o)|done|]. intros Hin. repeat (apply elem_of_cons in Hin as [Hin|Hin]); [by specialize (H0 Hin)|by specialize (H1 Hin)|by apply elem_of_nil in Hin].
  - intros ->. split; [|done]. done.
Qed.
