(* ===== verification/TxnName.v ===== *)
(** * TxnName: the name of a transaction (src/axiom/nr_txn.c)

    A transaction may be named many times, by proposals of several priorities.
    The name is frozen once, when the rules of the application are applied to
    it; afterwards nothing about it changes. *)

From S2P Require Import Prelude Memory CString Strings Double Object ObjectParse Regex Rules SegmentTerms.
From S2P Require Metrics.
From S2P Require Import Txn.
Local Open Scope Z_scope.

Inductive nr_txn_assignment_t := NR_NOT_OK_TO_OVERWRITE | NR_OK_TO_OVERWRITE.
#[export] Instance assignment_eq_dec : EqDecision nr_txn_assignment_t.
Proof. solve_decision. Defined.

(** ** Proposals *)
Definition nr_txn_set_path (txn : option nrtxn_t) (p : option (list Z)) (ptype : nr_path_type_t) (ok_to_override : nr_txn_assignment_t) :
    nr_status_t * option nrtxn_t :=
  match txn with
  | None => (NR_FAILURE, None)
  | Some t =>
      if nr_strempty p then (NR_FAILURE, txn)
      else if negb (path_is_frozen (status t) =? 0) then (NR_FAILURE, txn)
      else if path_rank ptype <? path_rank (path_type (status t)) then (NR_FAILURE, txn)
      else if bool_decide (NR_NOT_OK_TO_OVERWRITE = ok_to_override) && (path_rank ptype =? path_rank (path_type (status t))) then (NR_FAILURE, txn)
      else (NR_SUCCESS, Some (set_path (Some (nr_strdup p)) (on_status (set_path_type ptype) t)))
  end.

Definition nr_txn_name_from_function (txn : option nrtxn_t) (funcname classname : option (list Z)) : option nrtxn_t :=
  match txn, funcname with
  | Some t, Some f =>
      if path_rank NR_PATH_TYPE_FUNCTION <=? path_rank (path_type (status t)) then txn
      else
        let name := match classname with Some c => cstr c ++ lit "::" ++ cstr f | None => f end in
        (nr_txn_set_path txn (Some name) NR_PATH_TYPE_FUNCTION NR_NOT_OK_TO_OVERWRITE).2
  | _, _ => txn
  end.

Definition nr_txn_change_background_status (txn : option nrtxn_t) (is_background : Z) : option nrtxn_t :=
  match txn with
  | None => None
  | Some t =>
      if negb (path_is_frozen (status t) =? 0) then
        Some (on_metrics (λ m, Metrics.nrm_force_add m (Some (lit "Supportability/background_status_change_prevented")) 0) t)
      else Some (on_status (set_background is_background) t)
  end.
Definition nr_txn_set_as_background_job (txn : option nrtxn_t) : option nrtxn_t := nr_txn_change_background_status txn 1.
Definition nr_txn_set_as_web_transaction (txn : option nrtxn_t) : option nrtxn_t := nr_txn_change_background_status txn 0.

(** ** Freezing *)
Definition nr_txn_should_do_url_rules (t : nr_path_type_t) (is_background : bool) : bool :=
  if is_background then false
  else match t with NR_PATH_TYPE_CUSTOM | NR_PATH_TYPE_URI => true | _ => false end.

(** The conversion of a double to an unsigned number; C leaves open what does not fit. *)
Definition nrtime_of_double (d : double) : Z :=
  match d with
  | SpecFloat.S754_finite false m e => u64 (if 0 <=? e then Zpos m * 2 ^ e else Zpos m / 2 ^ (- e))
  | _ => 0
  end.
Definition NR_TIME_DIVISOR : Z := 1000000.

Definition nr_txn_update_apdex_if_key_txn (t : nrtxn_t) : nrtxn_t :=
  match (nro_get_hash_hash (app_connect_reply t) (Some (lit "web_transactions_apdex"))).1 with
  | None => t
  | key_txns =>
      let db := nr_reply_get_double key_txns (txn_name t) minus_one in
      if SpecFloat.SFltb db (SpecFloat.S754_zero false) then t
      else
        let apdex := nrtime_of_double (SpecFloat.SFmul prec emax db (double_of NR_TIME_DIVISOR)) in
        on_options (λ o, let o := set_apdex_t apdex o in
                         if flag (tt_is_apdex_f o) then set_tt_threshold (u64 (4 * apdex)) o else o) t
  end.

(** The first part of a name; [None] when the whole name is fixed. *)
Definition name_prefix (t : nr_path_type_t) (is_background : bool) : option (list Z) * list Z :=
  let choose (web other : list Z) := (Some (if is_background then other else web), []) in
  match t with
  | NR_PATH_TYPE_URI => choose (lit "WebTransaction/Uri/") (lit "OtherTransaction/php/")
  | NR_PATH_TYPE_STATUS_CODE => choose (lit "WebTransaction/StatusCode/") (lit "OtherTransaction/StatusCode/")
  | NR_PATH_TYPE_ACTION => choose (lit "WebTransaction/Action/") (lit "OtherTransaction/Action/")
  | NR_PATH_TYPE_FUNCTION => choose (lit "WebTransaction/Function/") (lit "OtherTransaction/Function/")
  | NR_PATH_TYPE_CUSTOM => choose (lit "WebTransaction/Custom/") (lit "OtherTransaction/Custom/")
  | NR_PATH_TYPE_UNKNOWN => (None, if is_background then lit "OtherTransaction/php/<unknown>" else lit "WebTransaction/Uri/<unknown>")
  end.

Section naming.
Context `{Pcre}.

(** What the naming reads of an application. *)
Record nrapp_t := App {
  url_rules : option nrrules_t;
  txn_rules : option nrrules_t;
  segment_terms : option nr_segment_terms_t;
}.

(** The buffers the functions copy into hold 511 characters. *)
Definition cut_512 (s : list Z) : list Z := take 511 s.

Definition slashed (p : list Z) : list Z := if 47 =? char_at p 0 then p else 47 :: p.

Definition nr_txn_apply_url_rules (fuel : nat) (t : nrtxn_t) (rules : option nrrules_t) : outcome (nr_status_t * nrtxn_t) :=
  match rules, path t with
  | Some _, Some p =>
      let path_before := cut_512 (cstr (slashed p)) in
      '(rv, output) ← nr_rules_apply fuel rules (Some path_before);
      Done match rv with
           | NR_RULES_RESULT_IGNORE => (NR_FAILURE, on_status (set_ignore 1) t)
           | NR_RULES_RESULT_CHANGED => (NR_SUCCESS, set_path (Some (nr_strdup output)) t)
           | NR_RULES_RESULT_UNCHANGED => (NR_SUCCESS, t)
           end
  | _, _ => Done (NR_SUCCESS, t)
  end.

Definition nr_txn_apply_txn_rules (fuel : nat) (t : nrtxn_t) (rules : option nrrules_t) : outcome (nr_status_t * nrtxn_t) :=
  match rules, txn_name t with
  | Some _, Some n =>
      let txnname_before := cut_512 (cstr n) in
      '(rv, output) ← nr_rules_apply fuel rules (Some txnname_before);
      Done match rv with
           | NR_RULES_RESULT_IGNORE => (NR_FAILURE, on_status (set_ignore 1) t)
           | NR_RULES_RESULT_UNCHANGED => (NR_SUCCESS, t)
           | NR_RULES_RESULT_CHANGED => (NR_SUCCESS, set_txn_name (Some (nr_strdup output)) t)
           end
  | _, _ => Done (NR_SUCCESS, t)
  end.

Definition nr_txn_apply_segment_terms `{Allocator Z} (t : nrtxn_t) (terms : option nr_segment_terms_t) : nrtxn_t :=
  match txn_name t with
  | None => t
  | n => match nr_segment_terms_apply terms n with None => t | name => set_txn_name name t end
  end.

Definition strip_slash (t : nrtxn_t) : nrtxn_t :=
  match path t with
  | Some p => if 47 =? char_at p 0 then set_path (Some (nr_strdup (Some (drop 1 p)))) t else t
  | None => t
  end.

(** [app] is the one found for the transaction's run, [None] when there is none. *)
Definition nr_txn_freeze_name_update_apdex `{Allocator Z} (fuel : nat) (txn : option nrtxn_t) (app : option nrapp_t) :
    outcome (nr_status_t * option nrtxn_t) :=
  match txn with
  | None => Done (NR_FAILURE, None)
  | Some t =>
      if negb (ignore (status t) =? 0) then Done (NR_FAILURE, txn)
      else if negb (path_is_frozen (status t) =? 0) then Done (NR_SUCCESS, txn)
      else
        let t := on_status (set_path_is_frozen 1) t in
        let is_background := flag (background (status t)) in
        let '(prefix, name) := name_prefix (path_type (status t)) is_background in
        match app with
        | None => Done (NR_FAILURE, Some t)
        | Some app =>
            '(st, t) ←
              match path t with
              | None => Done (NR_SUCCESS, t)
              | Some _ =>
                  '(st, t) ← (if nr_txn_should_do_url_rules (path_type (status t)) is_background
                              then nr_txn_apply_url_rules fuel t (url_rules app) else Done (NR_SUCCESS, t));
                  Done (if decide (st = NR_FAILURE) then (NR_FAILURE, t) else (NR_SUCCESS, strip_slash t))
              end;
            if decide (st = NR_FAILURE) then Done (NR_FAILURE, Some t)
            else
              let name := match prefix with
                          | Some prefix => prefix ++ cstr (default (lit "unknown") (path t))
                          | None => name
                          end in
              let t := set_txn_name (Some (nr_strdup (Some name))) t in
              '(st, t) ← nr_txn_apply_txn_rules fuel t (txn_rules app);
              if decide (st = NR_FAILURE) then Done (NR_FAILURE, Some t)
              else
                let t := nr_txn_apply_segment_terms t (segment_terms app) in
                Done (NR_SUCCESS, Some (nr_txn_update_apdex_if_key_txn t))
        end
  end.
End naming.

(** ** Which proposal is chosen *)
Inductive naming_op :=
| SetPath (p : option (list Z)) (ptype : nr_path_type_t) (ok : nr_txn_assignment_t)
| NameFromFunction (funcname classname : option (list Z))
| SetBackground
| SetWeb.

Definition name_step (txn : option nrtxn_t) (op : naming_op) : option nrtxn_t :=
  match op with
  | SetPath p ptype ok => (nr_txn_set_path txn p ptype ok).2
  | NameFromFunction f c => nr_txn_name_from_function txn f c
  | SetBackground => nr_txn_set_as_background_job txn
  | SetWeb => nr_txn_set_as_web_transaction txn
  end.

(** A path, its type, and whether it may replace one of its own type. *)
Record proposal := Proposal { pr_path : option (list Z); pr_type : nr_path_type_t; pr_over : bool }.

Definition propose (p : list Z) (ptype : nr_path_type_t) (ok : nr_txn_assignment_t) : list proposal :=
  if nr_strempty (Some p) then [] else [Proposal (Some (nr_strdup (Some p))) ptype (bool_decide (ok = NR_OK_TO_OVERWRITE))].

Definition proposals_of (op : naming_op) : list proposal :=
  match op with
  | SetPath (Some p) ptype ok => propose p ptype ok
  | NameFromFunction (Some f) c =>
      propose (match c with Some c => cstr c ++ lit "::" ++ cstr f | None => f end) NR_PATH_TYPE_FUNCTION NR_NOT_OK_TO_OVERWRITE
  | _ => []
  end.

Definition no_proposal : proposal := Proposal None NR_PATH_TYPE_UNKNOWN false.
Definition rank (p : proposal) : Z := path_rank (pr_type p).
Definition top_rank (ps : list proposal) : Z := foldr (λ p m, Z.max (rank p) m) 0 ps.

(** Of those of the highest type, the last that may replace another, or the first. *)
Definition chosen (ps : list proposal) : proposal :=
  match filter (λ p, rank p = top_rank ps) ps with
  | [] => no_proposal
  | first :: more => default first (last (filter (λ p, pr_over p = true) more))
  end.

Definition background_after (ops : list naming_op) (b : Z) : Z :=
  foldl (λ b op, match op with SetBackground => 1 | SetWeb => 0 | _ => b end) b ops.

(** One proposal after the others. *)
Definition outbids (x best : proposal) : bool := (rank best <? rank x) || ((rank best =? rank x) && pr_over x).

Lemma top_rank_snoc ps x : top_rank (ps ++ [x]) = Z.max (top_rank ps) (Z.max (rank x) 0).
Proof. induction ps as [|p ps IH]; simpl; [lia|]. rewrite IH. lia. Qed.

Lemma rank_bounds p : 0 ≤ rank p.
Proof. unfold rank. destruct (pr_type p); simpl; lia. Qed.

Lemma top_rank_le ps : Forall (λ p, rank p ≤ top_rank ps) ps.
Proof.
  induction ps as [|p ps IH]; [constructor|]. constructor; simpl; [lia|]. eapply Forall_impl; [exact IH|]. simpl. lia.
Qed.

Lemma top_rank_in ps : ps ≠ [] → ∃ p, p ∈ ps ∧ rank p = top_rank ps.
Proof.
  induction ps as [|p ps IH]; [done|]. intros _. pose proof (rank_bounds p). destruct (decide (ps = [])) as [->|Hps].
  - exists p. split; [by left|]. simpl. lia.
  - destruct (IH Hps) as (q & Hq & Hr). simpl. destruct (Z.max_spec (rank p) (top_rank ps)) as [[? ->]|[? ->]].
    + exists q. split; [by right|done].
    + exists p. split; [by left|done].
Qed.


Lemma top_filter ps : ps ≠ [] → ∃ first more, filter (λ p, rank p = top_rank ps) ps = first :: more.
Proof.
  intros Hne. destruct (top_rank_in ps Hne) as (p & Hp & Hr). assert (p ∈ filter (λ p, rank p = top_rank ps) ps) as Hin by by apply list_elem_of_filter.
  destruct (filter _ ps) as [|first more]; [by apply elem_of_nil in Hin|by exists first, more].
Qed.

Lemma chosen_rank ps : ps ≠ [] → rank (chosen ps) = top_rank ps.
Proof.
  intros Hne. destruct (top_filter ps Hne) as (first & more & E). unfold chosen.
  assert (∀ q, q ∈ first :: more → rank q = top_rank ps) as Hall by (intros q; rewrite <-E; intros [? _]%list_elem_of_filter; done).
  rewrite E. destruct (last _) as [q|] eqn:El; simpl; [|apply Hall; by left].
  apply last_Some_elem_of, list_elem_of_filter in El as [_ Hq]. apply Hall. by right.
Qed.

Lemma chosen_snoc ps x : ps ≠ [] → chosen (ps ++ [x]) = if outbids x (chosen ps) then x else chosen ps.
Proof.
  intros Hne. unfold outbids. rewrite (chosen_rank ps Hne). unfold chosen at 1. rewrite top_rank_snoc, filter_app, filter_cons, filter_nil.
  pose proof (rank_bounds x). pose proof (top_rank_le ps) as Hle. rewrite Forall_forall in Hle.
  destruct (top_filter ps Hne) as (first & more & E). destruct (top_rank_in ps Hne) as (p & _ & Hp). pose proof (rank_bounds p).
  destruct (Z.ltb_spec (top_rank ps) (rank x)) as [Hlt|Hge]; cbn [orb].
  - rewrite (Z.max_l (rank x)), Z.max_r, decide_True by lia. rewrite filter_none; [done|]. apply Forall_forall. intros q Hq. pose proof (Hle q Hq). lia.
  - rewrite (Z.max_l (rank x)), Z.max_l, E by lia. unfold chosen. rewrite E.
    destruct (Z.eqb_spec (top_rank ps) (rank x)) as [Eq|]; cbn [andb]; [|rewrite decide_False by lia; by rewrite app_nil_r].
    rewrite decide_True by lia. cbn [app]. rewrite filter_app, filter_cons, filter_nil. destruct (pr_over x) eqn:Eo;
      [by rewrite decide_True, last_snoc by done|by rewrite decide_False, app_nil_r by done].
Qed.

(** The state of the naming. *)
Definition named (best : proposal) (b : Z) (t : nrtxn_t) : nrtxn_t :=
  set_path (pr_path best) (on_status (λ s, set_background b (set_path_type (pr_type best) s)) t).

Lemma set_path_bids t best b p ptype ok : path_is_frozen (status t) = 0 →
  (nr_txn_set_path (Some (named best b t)) (Some p) ptype ok).2 =
  Some (named (foldl (λ best x, if outbids x best then x else best) best (propose p ptype ok)) b t).
Proof.
  intros Hf. unfold nr_txn_set_path, propose. destruct (nr_strempty (Some p)); [done|]. cbn [foldl].
  change (path_is_frozen (status (named best b t))) with (path_is_frozen (status t)). rewrite Hf. cbn [negb Z.eqb].
  change (path_type (status (named best b t))) with (pr_type best). unfold outbids, rank. cbn [pr_type pr_over].
  destruct (Z.ltb_spec (path_rank ptype) (path_rank (pr_type best))), (Z.ltb_spec (path_rank (pr_type best)) (path_rank ptype)),
    (Z.eqb_spec (path_rank ptype) (path_rank (pr_type best))), (Z.eqb_spec (path_rank (pr_type best)) (path_rank ptype)); try lia;
    destruct ok; cbn [andb orb]; rewrite ?bool_decide_eq_true_2, ?bool_decide_eq_false_2 by done; by destruct t.
Qed.

Definition bid (best x : proposal) : proposal := if outbids x best then x else best.

Lemma name_step_bids t best b op : path_is_frozen (status t) = 0 →
  name_step (Some (named best b t)) op = Some (named (foldl bid best (proposals_of op)) (background_after [op] b) t).
Proof.
  intros Hf. destruct op as [p ptype ok|f c| |]; cbn [name_step proposals_of background_after foldl].
  - destruct p as [p|]; [by apply set_path_bids|]. done.
  - destruct f as [f|]; [|done]. cbn [nr_txn_name_from_function]. change (path_type (status (named best b t))) with (pr_type best).
    destruct (Z.leb_spec (path_rank NR_PATH_TYPE_FUNCTION) (path_rank (pr_type best))) as [Hle|]; [|by apply set_path_bids].
    unfold propose. destruct (nr_strempty _); [done|]. cbn [foldl]. unfold bid, outbids, rank. cbn [pr_type pr_over].
    destruct (Z.ltb_spec (path_rank (pr_type best)) (path_rank NR_PATH_TYPE_FUNCTION)); [lia|]. by rewrite bool_decide_eq_false_2, andb_false_r.
  - cbn. change (path_is_frozen (status (named best b t))) with (path_is_frozen (status t)). rewrite Hf. by destruct t.
  - cbn. change (path_is_frozen (status (named best b t))) with (path_is_frozen (status t)). rewrite Hf. by destruct t.
Qed.

Lemma foldl_bid ps : foldl bid no_proposal ps = chosen (no_proposal :: ps).
Proof.
  induction ps as [|x ps IH] using rev_ind; [done|]. rewrite foldl_app, IH. rewrite app_comm_cons, chosen_snoc by done. done.
Qed.

Lemma names_chosen t ops : path_is_frozen (status t) = 0 → path_type (status t) = NR_PATH_TYPE_UNKNOWN → path t = None →
  foldl name_step (Some t) ops = Some (named (chosen (no_proposal :: flat_map proposals_of ops)) (background_after ops (background (status t))) t).
Proof.
  intros Hf Ht Hp. assert (∀ best b, foldl name_step (Some (named best b t)) ops =
    Some (named (foldl bid best (flat_map proposals_of ops)) (background_after ops b) t)) as Hrun.
  { induction ops as [|op ops IH]; intros best b; [done|]. cbn [foldl flat_map]. rewrite name_step_bids by done. by rewrite IH, foldl_app. }
  assert (t = named no_proposal (background (status t)) t) as Et.
  { destruct t as [? ? ? s ? ? ? ? ? ? ? ? ? ? ? ? ? ? ? ? ? ? ? ? ? ?], s. cbn in Ht, Hp. by subst. }
  rewrite Et at 1. by rewrite Hrun, foldl_bid.
Qed.

(** A frozen name. *)
Definition name_fields (t : nrtxn_t) := (path t, txn_name t, status t, options t).

Lemma frozen_step t op : path_is_frozen (status t) ≠ 0 → ∃ t', name_step (Some t) op = Some t' ∧ name_fields t' = name_fields t.
Proof.
  intros Hf. assert (negb (path_is_frozen (status t) =? 0) = true) as E by lia.
  assert (∀ p ptype ok, (nr_txn_set_path (Some t) p ptype ok).2 = Some t) as Hset.
  { intros p ptype ok. unfold nr_txn_set_path. destruct (nr_strempty p); [done|]. by rewrite E. }
  destruct op as [p ptype ok|f c| |]; cbn [name_step].
  - exists t. by rewrite Hset.
  - exists t. unfold nr_txn_name_from_function. destruct f; [|done]. destruct (_ <=? _); [done|]. by rewrite Hset.
  - unfold nr_txn_set_as_background_job, nr_txn_change_background_status. rewrite E. eexists. split; [done|]. by destruct t.
  - unfold nr_txn_set_as_web_transaction, nr_txn_change_background_status. rewrite E. eexists. split; [done|]. by destruct t.
Qed.

Lemma frozen_run t ops : path_is_frozen (status t) ≠ 0 → ∃ t', foldl name_step (Some t) ops = Some t' ∧ name_fields t' = name_fields t.
Proof.
  revert t. induction ops as [|op ops IH]; intros t Hf; [by exists t|]. cbn [foldl]. destruct (frozen_step t op Hf) as (t1 & -> & E1).
  assert (path_is_frozen (status t1) ≠ 0) as Hf1 by (unfold name_fields in E1; congruence).
  destruct (IH t1 Hf1) as (t2 & E2 & E3). exists t2. split; [done|congruence].
Qed.

(** ** The name in the end *)
Section frozen.
Context `{Pcre} `{Allocator Z}.

(** What rules make of a name: nothing when they ignore it, else a new name if they change it. *)
Definition renamed (rs : option nrrules_t) (s : list Z) : option (option (list Z)) :=
  match rs with
  | None => Some None
  | Some rs =>
      match rename (rules rs) (cut_512 s) false with
      | (NR_RULES_RESULT_IGNORE, _) => None
      | (NR_RULES_RESULT_CHANGED, o) => Some (Some (nr_strdup o))
      | (NR_RULES_RESULT_UNCHANGED, _) => Some None
      end
  end.

Definition without_slash (p : list Z) : list Z := if 47 =? char_at p 0 then nr_strdup (Some (drop 1 p)) else p.

(** The path behind the first part of the name. *)
Definition url_path (app : nrapp_t) (ptype : nr_path_type_t) (is_background : bool) (p : option (list Z)) : option (option (list Z)) :=
  match p with
  | None => Some None
  | Some p =>
      r ← (if nr_txn_should_do_url_rules ptype is_background then renamed (url_rules app) (cstr (slashed p)) else Some None);
      Some (Some (without_slash (default p r)))
  end.

Definition full_name (ptype : nr_path_type_t) (is_background : bool) (p : option (list Z)) : list Z :=
  match name_prefix ptype is_background with
  | (Some prefix, _) => prefix ++ cstr (default (lit "unknown") p)
  | (None, name) => name
  end.

Definition ruled_name (app : nrapp_t) (name : list Z) : option (list Z) := r ← renamed (txn_rules app) (cstr name); Some (default name r).

Definition final_name (app : nrapp_t) (terms : list rule_text) (ptype : nr_path_type_t) (is_background : bool) (p : option (list Z)) : option (list Z) :=
  p ← url_path app ptype is_background p;
  n ← ruled_name app (nr_strdup (Some (full_name ptype is_background p)));
  Some (shortened terms n).

(** Rules that can be applied, to names that fit the buffers; and the texts of the segment terms. *)
Definition rules_fit (rs : option nrrules_t) (s : list Z) : Prop :=
  ∀ r, rs = Some r → Forall rule_ok (rules r) ∧ renames_fit (rules r) (cut_512 s).

Record naming_ok (app : nrapp_t) (terms : list rule_text) (ptype : nr_path_type_t) (is_background : bool) (p : option (list Z)) : Prop := {
  no_url : ∀ q, p = Some q → rules_fit (url_rules app) (cstr (slashed q));
  no_txn : ∀ q, url_path app ptype is_background p = Some q → rules_fit (txn_rules app) (cstr (nr_strdup (Some (full_name ptype is_background q))));
  no_terms : match segment_terms app with Some st => Forall2 realizes (terms_rules st) terms | None => terms = [] end;
  no_name : ∀ q n, url_path app ptype is_background p = Some q → ruled_name app (nr_strdup (Some (full_name ptype is_background q))) = Some n →
    is_cstr n ∧ Z.of_nat (length n) ≤ 2 ^ 30;
}.

Lemma cstr_take n s : cstr (take n (cstr s)) = take n (cstr s).
Proof.
  revert n. induction s as [|c s IH]; intros n; [by destruct n|]. cbn [cstr]. destruct (c =? 0) eqn:E; [by destruct n|].
  destruct n as [|n]; [done|]. cbn [take cstr]. by rewrite E, IH.
Qed.

Lemma rules_apply_cut fuel rs s : (2048 ≤ fuel)%nat → rules_fit (Some rs) (cstr s) →
  nr_rules_apply fuel (Some rs) (Some (cut_512 (cstr s))) = Done (rename (rules rs) (cut_512 (cstr s)) false).
Proof.
  intros Hfuel Hr. destruct (Hr rs eq_refl) as [Hok Hf]. unfold nr_rules_apply. unfold cut_512 at 1. rewrite cstr_take. fold (cut_512 (cstr s)).
  assert (length (cut_512 (cstr s)) ≤ 511)%nat as Hl by (unfold cut_512; rewrite length_take; lia).
  rewrite take_ge by (unfold NRULE_BUF_SIZE; lia). apply apply_loop_renames; [done..| |done]. unfold fits, NRULE_BUF_SIZE. lia.
Qed.

(** The parts of the freezing. *)
Lemma url_rules_apply fuel t rs p : (2048 ≤ fuel)%nat → path t = Some p → rules_fit rs (cstr (slashed p)) →
  nr_txn_apply_url_rules fuel t rs = Done match renamed rs (cstr (slashed p)) with
    | None => (NR_FAILURE, on_status (set_ignore 1) t)
    | Some r => (NR_SUCCESS, set_path (Some (default p r)) t)
    end.
Proof.
  intros Hfuel Hp Hr. assert (set_path (Some p) t = t) as Hid by (rewrite <-Hp; by destruct t).
  unfold nr_txn_apply_url_rules, renamed. rewrite Hp. destruct rs as [rs|]; [|cbn [default from_option id]; unfold id; by rewrite Hid].
  rewrite rules_apply_cut by done. cbn [mbind outcome_bind]. destruct (rename _ _ _) as [[] o]; [done| |done].
  cbn [default from_option id]. unfold id. by rewrite Hid.
Qed.

Lemma txn_rules_apply fuel t rs n : (2048 ≤ fuel)%nat → txn_name t = Some n → rules_fit rs (cstr n) →
  nr_txn_apply_txn_rules fuel t rs = Done match renamed rs (cstr n) with
    | None => (NR_FAILURE, on_status (set_ignore 1) t)
    | Some r => (NR_SUCCESS, set_txn_name (Some (default n r)) t)
    end.
Proof.
  intros Hfuel Hn Hr. assert (set_txn_name (Some n) t = t) as Hid by (rewrite <-Hn; by destruct t).
  unfold nr_txn_apply_txn_rules, renamed. rewrite Hn. destruct rs as [rs|]; [|cbn [default from_option id]; unfold id; by rewrite Hid].
  rewrite rules_apply_cut by done. cbn [mbind outcome_bind]. destruct (rename _ _ _) as [[] o]; [done| |done].
  cbn [default from_option id]. unfold id. by rewrite Hid.
Qed.

Lemma shortened_none terms : shortened terms [] = [].
Proof.
  unfold shortened. destruct (last _) as [r|]; [|done]. cbn [from_option]. unfold shorten. by rewrite drop_nil.
Qed.

Lemma terms_apply t n st terms : txn_name t = Some n → is_cstr n → Z.of_nat (length n) ≤ 2 ^ 30 →
  match st with Some st => Forall2 realizes (terms_rules st) terms | None => terms = [] end →
  nr_txn_apply_segment_terms t st = set_txn_name (Some (shortened terms n)) t.
Proof.
  intros Hn Hc Hl Hst. assert (set_txn_name (Some n) t = t) as Hid by (rewrite <-Hn; by destruct t).
  unfold nr_txn_apply_segment_terms. rewrite Hn. destruct st as [st|]; [|subst terms; cbn; by rewrite Hid].
  unfold nr_segment_terms_apply. destruct n as [|c n]; [rewrite shortened_none; cbn; by rewrite Hid|].
  assert ((char_at (c :: n) 0 =? 0) = false) as -> by (inversion Hc; subst; change (char_at (c :: n) 0) with c; lia).
  by rewrite (apply_rules_spec _ terms).
Qed.

Lemma strip_slash_path t p : path t = Some p → strip_slash t = set_path (Some (without_slash p)) t.
Proof.
  intros Hp. unfold strip_slash, without_slash. rewrite Hp. destruct (47 =? char_at p 0); [done|]. rewrite <-Hp. by destruct t.
Qed.

(** The transaction after the freezing, whether ignored or not. *)
Record frozen_as (app : nrapp_t) (terms : list rule_text) (t : nrtxn_t) (st : nr_status_t) (f : nrtxn_t) : Prop := {
  fa_frozen : path_is_frozen (status f) = 1;
  fa_kept : path_type (status f) = path_type (status t) ∧ background (status f) = background (status t) ∧ unscoped_metrics f = unscoped_metrics t;
  fa_name : match final_name app terms (path_type (status t)) (flag (background (status t))) (path t) with
            | Some n => st = NR_SUCCESS ∧ txn_name f = Some n ∧ ignore (status f) = 0
            | None => st = NR_FAILURE ∧ ignore (status f) = 1
            end;
}.

Lemma key_txn_keeps t : let t' := nr_txn_update_apdex_if_key_txn t in status t' = status t ∧ txn_name t' = txn_name t ∧ unscoped_metrics t' = unscoped_metrics t.
Proof.
  unfold nr_txn_update_apdex_if_key_txn. destruct (nro_get_hash_hash _ _).1; [|done]. destruct (SpecFloat.SFltb _ _); [done|]. by destruct t.
Qed.

Lemma freeze_name fuel app terms t : (2048 ≤ fuel)%nat → path_is_frozen (status t) = 0 → ignore (status t) = 0 →
  naming_ok app terms (path_type (status t)) (flag (background (status t))) (path t) →
  ∃ st f, nr_txn_freeze_name_update_apdex fuel (Some t) (Some app) = Done (st, Some f) ∧ frozen_as app terms t st f.
Proof.
  intros Hfuel Hf Hi [Hu Ht Hs Hn]. unfold nr_txn_freeze_name_update_apdex. rewrite Hf, Hi. cbn [negb Z.eqb]. cbv zeta.
  set (t1 := on_status (set_path_is_frozen 1) t).
  change (path t1) with (path t). change (path_type (status t1)) with (path_type (status t)). change (background (status t1)) with (background (status t)).
  set (ty := path_type (status t)) in *. set (bg := flag (background (status t))) in *.
  (* the path *)
  assert (∃ t2, match path t with
      | None => Done (NR_SUCCESS, t1)
      | Some _ => '(st, t2) ← (if nr_txn_should_do_url_rules ty bg then nr_txn_apply_url_rules fuel t1 (url_rules app) else Done (NR_SUCCESS, t1));
                  Done (if decide (st = NR_FAILURE) then (NR_FAILURE, t2) else (NR_SUCCESS, strip_slash t2))
      end = Done (match url_path app ty bg (path t) with Some _ => NR_SUCCESS | None => NR_FAILURE end, t2) ∧
    t2 = match url_path app ty bg (path t) with Some q => set_path q t1 | None => on_status (set_ignore 1) t1 end) as (t2 & -> & ->).
  { unfold url_path. destruct (path t) as [p|] eqn:Ep; [|exists t1; split; [done|]; cbn; rewrite <-Ep; by destruct t].
    destruct (nr_txn_should_do_url_rules ty bg).
    - rewrite (url_rules_apply fuel t1 (url_rules app) p) by (done || by apply Hu). destruct (renamed _ _) as [r|]; cbn [mbind outcome_bind option_bind]; [|by eexists].
      rewrite decide_False by done. eexists. split; [done|]. by erewrite strip_slash_path.
    - cbn [mbind outcome_bind option_bind]. rewrite decide_False by done. eexists. split; [done|]. by erewrite strip_slash_path. }
  cbn [mbind outcome_bind]. destruct (name_prefix ty bg) as [prefix whole] eqn:En.
  destruct (url_path app ty bg (path t)) as [q|] eqn:Eq; cycle 1.
  { rewrite decide_True by done. eexists _, _. split; [done|]. split; [by destruct t|by destruct t|]. fold ty bg. unfold final_name. rewrite Eq. by destruct t. }
  rewrite decide_False by done.
  assert (match prefix with Some pre => pre ++ cstr (default (lit "unknown") (path (set_path q t1))) | None => whole end = full_name ty bg q) as ->
    by (unfold full_name; by rewrite En).
  set (n := nr_strdup (Some (full_name ty bg q))). set (t3 := set_txn_name (Some n) (set_path q t1)).
  rewrite (txn_rules_apply fuel t3 (txn_rules app) n) by (done || by apply Ht). specialize (Hn q). fold n in Hn. unfold ruled_name in Hn.
  assert (final_name app terms ty bg (path t) = (r ← renamed (txn_rules app) (cstr n); Some (shortened terms (default n r)))) as Efin.
  { unfold final_name. rewrite Eq. cbn [mbind option_bind]. fold n. unfold ruled_name. by destruct (renamed _ _). }
  destruct (renamed (txn_rules app) (cstr n)) as [r|]; cbn [mbind outcome_bind option_bind] in *; cycle 1.
  { rewrite decide_True by done. eexists _, _. split; [done|]. split; [by destruct t|by destruct t|]. fold ty bg. rewrite Efin. by destruct t. }
  rewrite decide_False by done. destruct (Hn (default n r) eq_refl eq_refl) as [Hc Hl].
  rewrite (terms_apply _ (default n r) _ terms) by done. set (t4 := set_txn_name _ _).
  destruct (key_txn_keeps t4) as (Es & Ena & Em). eexists _, _. split; [done|].
  split; rewrite ?Es, ?Ena, ?Em; [by destruct t|by destruct t|]. fold ty bg. rewrite Efin. split_and!; [done|done|]. by destruct t.
Qed.

(** A transaction that has no name yet. *)
Record unnamed (t : nrtxn_t) : Prop := {
  un_frozen : path_is_frozen (status t) = 0;
  un_ignore : ignore (status t) = 0;
  un_type : path_type (status t) = NR_PATH_TYPE_UNKNOWN;
  un_path : path t = None;
}.

(** C13: The name of a transaction. Whatever is proposed, in whatever order, it is
    named by a proposal of the highest type there was: the last of them that may
    replace another of its type, or else the first.  Freezing gives it the name
    that the type, the side, and the rules of the application make of that path,
    or has it ignored when a rule says so.  From then on no proposal, change of
    side or second freezing changes its path, name, status or options. *)
Theorem nr_txn_named_once fuel app terms t ops ops' : (2048 ≤ fuel)%nat → unnamed t →
  let best := chosen (no_proposal :: flat_map proposals_of ops) in
  let bg := flag (background_after ops (background (status t))) in
  naming_ok app terms (pr_type best) bg (pr_path best) →
  ∃ t1 st f f', foldl name_step (Some t) ops = Some t1 ∧ path t1 = pr_path best ∧ path_type (status t1) = pr_type best ∧
    nr_txn_freeze_name_update_apdex fuel (Some t1) (Some app) = Done (st, Some f) ∧
    match final_name app terms (pr_type best) bg (pr_path best) with
    | Some n => st = NR_SUCCESS ∧ txn_name f = Some n
    | None => st = NR_FAILURE ∧ ignore (status f) = 1
    end ∧
    foldl name_step (Some f) ops' = Some f' ∧ name_fields f' = name_fields f ∧
    ∀ fuel app, nr_txn_freeze_name_update_apdex fuel (Some f') app = Done (st, Some f').
Proof.
  intros Hfuel [Hf Hi Ht Hp] best bg Hok. pose proof (names_chosen t ops Hf Ht Hp) as Hrun. fold best in Hrun.
  set (b := background_after ops (background (status t))) in *. set (t1 := named best b t) in *.
  destruct (freeze_name fuel app terms t1 Hfuel Hf Hi Hok) as (st & f & Efr & [Hff _ Hname]).
  destruct (frozen_run f ops') as (f' & Erun & Ef); [lia|]. exists t1, st, f, f'. change (flag (background (status t1))) with bg in Hname.
  change (path_type (status t1)) with (pr_type best) in Hname. change (path t1) with (pr_path best) in Hname.
  split_and!; try done; [destruct (final_name _ _ _ _ _); tauto|].
  intros fuel' app'. unfold name_fields in Ef. injection Ef as _ _ Es _. unfold nr_txn_freeze_name_update_apdex. rewrite Es, Hff.
  destruct (final_name _ _ _ _ _) as [n|]; [destruct Hname as (-> & _ & ->)|destruct Hname as (-> & ->)]; done.
Qed.
End frozen.

(** ** An example *)
Definition example_txn : nrtxn_t :=
  Txn 0 0 (Options 0 0 0 0 0 1 0 0 1 1 1 1 NR_SQL_RAW 1 500000 2000000 1 0 0 0 1 1 1 false false false TraceContext.DEFAULT TraceContext.DEFAULT
             1 0 0 false 0 0 true false true false 0 0 true false false)
    (Status 0 0 0 NR_PATH_TYPE_UNKNOWN 0 0 0 1 0 NR_STATUS_CROSS_PROCESS_DISABLED) (Cat None None None None None) 0 (Some (Root 0 1000 None)) 1000 None
    None (Some (Metrics.nrm_table_create 0)) (Some nro_new_hash) None None (0, 0) (0, 0) None None None 0 None (Some (lit "app")) None
    (Some DistributedTrace.nr_distributed_trace_create) false 0.

Definition example_app : nrapp_t (H:=one_char) :=
  App (H:=one_char) None (Some (Rules.Rules (H:=one_char) 8 [Rules.example_rule 0 102 (Some (lit "*"))])) None.

Local Ltac by_vm := vm_compute; done.

Lemma nr_txn_named_once_witness :
  let _ := GenerousAllocator.allocator Z in
  ∃ t1 st f, foldl name_step (Some example_txn) [SetPath (Some (lit "/i")) NR_PATH_TYPE_URI NR_OK_TO_OVERWRITE; NameFromFunction (Some (lit "f")) None; SetBackground;
      NameFromFunction (Some (lit "g")) None; SetPath (Some (lit "a")) NR_PATH_TYPE_ACTION NR_OK_TO_OVERWRITE; SetWeb] = Some t1 ∧
    nr_txn_freeze_name_update_apdex 2048 (Some t1) (Some example_app) = Done (st, Some f) ∧ txn_name f = Some (lit "WebTransaction/Function/*").
Proof.
  intros al. destruct (nr_txn_named_once (H:=one_char) (H0:=al) 2048 example_app [] example_txn [SetPath (Some (lit "/i")) NR_PATH_TYPE_URI NR_OK_TO_OVERWRITE;
    NameFromFunction (Some (lit "f")) None; SetBackground; NameFromFunction (Some (lit "g")) None; SetPath (Some (lit "a")) NR_PATH_TYPE_ACTION NR_OK_TO_OVERWRITE; SetWeb] [])
    as (t1 & st & f & f' & E1 & _ & _ & E2 & Hn & _); [done|by split| |].
  - split; [done| |done|].
    + intros q [= <-] r [= <-]. split; [apply Forall_singleton, example_rule_ok; [right; by left|done]|]. clear al.
      match goal with |- renames_fit _ ?s => replace s with (lit "WebTransaction/Function/f") by by_vm end.
      cbn [renames_fit rules]. split_and!; [by_vm|done|done].
    + intros q n [= <-] Hn. clear al. unfold ruled_name in Hn.
      match type of Hn with context [renamed _ ?s] => replace s with (lit "WebTransaction/Function/f") in Hn by by_vm end.
      unfold renamed in Hn. change (txn_rules example_app) with (Some (Rules.Rules (H:=one_char) 8 [Rules.example_rule 0 102 (Some (lit "*"))])) in Hn.
      cbv iota in Hn.
      match type of Hn with context [rename ?a ?b ?c] =>
        replace (rename a b c) with (NR_RULES_RESULT_CHANGED, Some (lit "WebTransaction/Function/*")) in Hn by by_vm end.
      assert (n = nr_strdup (Some (lit "WebTransaction/Function/*"))) as -> by (injection Hn as Hn; exact (eq_sym Hn)).
      split; [by apply (bool_decide_unpack _)|by_vm].
  - exists t1, st, f. split_and!; [done|done|]. clear - Hn.
    match type of Hn with context [final_name ?a ?b ?c ?d ?e] =>
      replace (final_name a b c d e) with (Some (lit "WebTransaction/Function/*")) in Hn by by_vm end.
    apply Hn.
Defined.
