(* ===== verification/TxnCat.v ===== *)
(** * TxnCat: cross-application tracing of a transaction (src/axiom/nr_txn.c)

    The hashes of the names that a transaction had while it called others, and
    the intrinsic attributes that say where it comes from. *)

From S2P Require Import Prelude Memory CString Strings Double Object ObjectJson ObjectParse Rules Md5.
From S2P Require DistributedTrace StringPool.
From S2P Require Import Synthetics Errors Txn TxnName.
Local Open Scope Z_scope.

(** ** Path hashes *)
Definition NR_TXN_MAX_ALTERNATE_PATH_HASHES : Z := 10.

Definition nr_txn_add_alternate_path_hash (txn : option nrtxn_t) (path_hash : option (list Z)) : option nrtxn_t :=
  match txn, path_hash with
  | Some t, Some h =>
      if char_at h 0 =? 0 then txn
      else if NR_TXN_MAX_ALTERNATE_PATH_HASHES <=? nro_getsize (alternate_path_hashes (cat t)) then txn
      else Some (on_cat (λ c, set_alternate_path_hashes (nro_set_hash_none (alternate_path_hashes c) path_hash).1 c) t)
  | _, _ => txn
  end.

(** The first [used] of the [capacity] places of the array. *)
Record hash_state := HashState {
  hs_length : Z;
  capacity : Z;
  hashes : list (list Z);
  path_hash : option (list Z);
}.
Definition used (hs : hash_state) : Z := Z.of_nat (length (hashes hs)).

Definition nr_txn_iter_path_hash (key : list Z) (val : nrobj_t) (hs : hash_state) : hash_state * nr_status_t :=
  if capacity hs <=? used hs then (hs, NR_FAILURE)
  else if nr_strcmp (Some key) (path_hash hs) =? 0 then (hs, NR_SUCCESS)
  else (HashState (hs_length hs + nr_strlen (Some key)) (capacity hs) (hashes hs ++ [key]) (path_hash hs), NR_SUCCESS).

Definition nr_txn_compare_path_hashes (a b : list Z) : Z := nr_strcmp (Some a) (Some b).

(** The names, joined in a block. *)
Fixpoint cat_loop (hs : list (list Z)) (first : bool) (result : option (list Z)) : option (list Z) :=
  match hs with
  | [] => result
  | h :: hs =>
      let result := if first then result else (nr_strcat result (Some (lit ","))).2 in
      cat_loop hs false (nr_strcat result (Some h)).2
  end.

Section cat.
Context `{QsortR}.
Variable start : nr_MD5_CTX.
Implicit Types txn : option nrtxn_t.

Definition nr_txn_current_path_hash txn : option (list Z) :=
  match txn with
  | None => None
  | Some t =>
      let name := match txn_name t, path t with Some n, _ => n | None, Some p => p | None, None => lit "<unknown>" end in
      nr_hash_cat_path start (Some name) (primary_app_name t) (referring_path_hash (cat t))
  end.

(** [Failed]: the process ends because the array cannot be allocated. *)
Definition nr_txn_get_alternate_path_hashes txn : outcome (option (list Z)) :=
  match txn with
  | None => Done None
  | Some t =>
      let capacity := nro_getsize (alternate_path_hashes (cat t)) in
      if capacity =? 0 then Done None
      else if capacity <? 0 then Failed
      else
        let hs := nro_iteratehash (alternate_path_hashes (cat t)) (Some nr_txn_iter_path_hash)
                    (HashState 0 capacity [] (nr_txn_current_path_hash txn)) in
        if used hs =? 0 then Done None
        else
          let sorted := nr_sort (hashes hs) (Some nr_txn_compare_path_hashes) in
          Done (cat_loop sorted true (Some (replicate (Z.to_nat (hs_length hs + used hs)) 0)))
  end.

Definition nr_txn_get_path_hash txn : option (list Z) * option nrtxn_t :=
  let path_hash := nr_txn_current_path_hash txn in
  (path_hash, nr_txn_add_alternate_path_hash txn path_hash).

(** ** Intrinsic attributes *)
Definition is_hash (o : obj) : bool := bool_decide (nro_type o = NR_OBJECT_HASH).
Definition add_string (key : list Z) (v : option (list Z)) (o : obj) : obj := (nro_set_hash_string o (Some key) v).1.
Definition when_some {A} (v : option A) (f : obj → obj) (o : obj) : obj := match v with Some _ => f o | None => o end.

Definition nr_txn_add_cat_analytics_intrinsics txn (intrinsics : obj) : outcome obj :=
  if negb (nr_txn_is_cat txn) || negb (is_hash intrinsics) then Done intrinsics
  else
    let path_hash := nr_txn_current_path_hash txn in
    alternate ← nr_txn_get_alternate_path_hashes txn;
    let intrinsics := add_string (lit "nr.tripId") (nr_txn_get_cat_trip_id txn) intrinsics in
    let intrinsics := add_string (lit "nr.pathHash") path_hash intrinsics in
    let referring := txn ≫= λ t, referring_path_hash (cat t) in
    let intrinsics := when_some referring (add_string (lit "nr.referringPathHash") referring) intrinsics in
    let guid := txn ≫= λ t, inbound_guid (cat t) in
    let intrinsics := when_some guid (add_string (lit "nr.referringTransactionGuid") guid) intrinsics in
    Done (when_some alternate (add_string (lit "nr.alternatePathHashes") alternate) intrinsics).

Definition nr_txn_add_cat_intrinsics txn (intrinsics : obj) : obj :=
  if negb (nr_txn_is_cat txn) || negb (is_hash intrinsics) then intrinsics
  else
    let path_hash := nr_txn_current_path_hash txn in
    let intrinsics := add_string (lit "trip_id") (nr_txn_get_cat_trip_id txn) intrinsics in
    add_string (lit "path_hash") path_hash intrinsics.
End cat.

Definition add_non_empty (key : list Z) (v : option (list Z)) (o : obj) : obj := if negb (nr_strempty v) then add_string key v o else o.

Definition nr_txn_add_distributed_tracing_intrinsics (txn : option nrtxn_t) (intrinsics : obj) : obj :=
  match txn, intrinsics with
  | Some t, Some _ =>
      let dt := distributed_trace t in
      let o := add_string (lit "guid") (nr_txn_get_guid txn) intrinsics in
      let o := (nro_set_hash_boolean o (Some (lit "sampled")) (if DistributedTrace.nr_distributed_trace_is_sampled dt then 1 else 0)).1 in
      let o := (nro_set_hash_double o (Some (lit "priority")) (DistributedTrace.nr_distributed_trace_get_priority dt)).1 in
      let o := add_string (lit "traceId") (DistributedTrace.nr_distributed_trace_get_trace_id dt) o in
      if has_type t NR_TXN_TYPE_DT_INBOUND then
        let parent_type := DistributedTrace.nr_distributed_trace_inbound_get_type dt in
        let parent_app := DistributedTrace.nr_distributed_trace_inbound_get_app_id dt in
        let parent_account := DistributedTrace.nr_distributed_trace_inbound_get_account_id dt in
        let o := when_some parent_type (add_string (lit "parent.type") parent_type) o in
        let o := when_some parent_app (add_string (lit "parent.app") parent_app) o in
        let o := when_some parent_account (add_string (lit "parent.account") parent_account) o in
        let o := add_string (lit "parent.transportType") (DistributedTrace.nr_distributed_trace_inbound_get_transport_type dt) o in
        let o := if DistributedTrace.nr_distributed_trace_inbound_has_timestamp dt
                 then (nro_set_hash_double o (Some (lit "parent.transportDuration"))
                         (double_of (DistributedTrace.nr_distributed_trace_inbound_get_timestamp_delta dt (nr_txn_start_time txn) / NR_TIME_DIVISOR))).1
                 else o in
        let o := add_non_empty (lit "parentSpanId") (DistributedTrace.nr_distributed_trace_inbound_get_guid dt) o in
        add_non_empty (lit "parentId") (DistributedTrace.nr_distributed_trace_inbound_get_txn_id dt) o
      else o
  | _, _ => intrinsics
  end.

(** ** The hashes of the names a transaction had *)
Lemma refer_value_range ref : 0 ≤ refer_value ref < 2 ^ 32.
Proof.
  unfold refer_value. destruct ref as [s|]; [|done]. unfold scan_x. destruct (scan_sign _) as [neg r]. destruct (span _ _).1; [done|]. apply u32_range.
Qed.

Lemma hex8_cstr v : 0 ≤ v < 2 ^ 32 → is_cstr (hex8 v) ∧ hex8 v ≠ [].
Proof.
  intros Hv. assert (∀ d, 0 ≤ d < 16 → 0 < Json.hex_digit d < 256) as Hd.
  { intros d Hd. apply (byte_cases (λ d, (0 <? Json.hex_digit d) && (Json.hex_digit d <? 256)) 0 16 eq_refl) in Hd. lia. }
  split; [|done]. unfold hex8, Json.hex4. apply Forall_app. split; repeat apply Forall_cons_2; try apply Forall_nil_2; apply Hd; Z.to_euclidean_division_equations; lia.
Qed.

(** The first ten that are not the same. *)
Definition remember (hs : list (list Z)) (h : list Z) : list (list Z) := if decide (10 ≤ length hs)%nat then hs else StringPool.intern hs h.

Lemma intern_length hs h : (length hs ≤ length (StringPool.intern hs h) ≤ S (length hs))%nat.
Proof. unfold StringPool.intern. case_decide; [lia|]. rewrite length_app. simpl. lia. Qed.

Lemma remember_take l hs : take 10 (StringPool.intern l hs) = remember (take 10 l) hs.
Proof.
  unfold remember. case_decide as Hl; rewrite length_take in Hl.
  - unfold StringPool.intern. case_decide; [done|]. rewrite take_app_le by lia. done.
  - rewrite (take_ge l) by lia. rewrite take_ge; [done|]. pose proof (intern_length l hs). lia.
Qed.

Lemma remember_run hs l : foldl remember (take 10 l) hs = take 10 (foldl StringPool.intern l hs).
Proof. revert l. induction hs as [|h hs IH]; intros l; [done|]. cbn [foldl]. by rewrite <-remember_take, IH. Qed.

Lemma take_intern_nodup n hs : NoDup (take n (foldl StringPool.intern [] hs)).
Proof.
  eapply sublist_NoDup; [|apply sublist_take]. assert (∀ l, NoDup l → NoDup (foldl StringPool.intern l hs)) as H; [|by apply H, NoDup_nil_2].
  induction hs as [|h hs IH]; intros l Hl; [done|]. apply IH. unfold StringPool.intern. case_decide; [done|].
  apply NoDup_app. split; [done|]. split; [|apply NoDup_singleton]. by intros x Hx ->%list_elem_of_singleton.
Qed.

(** The hash that keeps them. *)
Definition keeps (o : obj) (hs : list (list Z)) : Prop := ∃ a es, o = Some (OHash a es) ∧ obj_ok (OHash a es) ∧ es.*1 = hs.

Lemma keeps_add t hs h : keeps (alternate_path_hashes (cat t)) hs → is_cstr h → h ≠ [] →
  ∃ o, nr_txn_add_alternate_path_hash (Some t) (Some h) = Some (on_cat (set_alternate_path_hashes o) t) ∧ keeps o (remember hs h).
Proof.
  intros (a & es & Eo & Hok & Ek) Hc Hne. destruct h as [|c h]; [done|]. cbn [nr_txn_add_alternate_path_hash].
  assert ((char_at (c :: h) 0 =? 0) = false) as -> by (inversion Hc; subst; change (char_at (c :: h) 0) with c; lia).
  rewrite Eo. cbn [nro_getsize]. unfold NR_TXN_MAX_ALTERNATE_PATH_HASHES, remember. rewrite <-Ek, length_fmap.
  destruct (Z.leb_spec 10 (Z.of_nat (length es))).
  - exists (Some (OHash a es)). rewrite decide_True by lia. split; [|by exists a, es]. rewrite <-Eo. destruct t as [? ? ? ? [] ]. done.
  - rewrite decide_False by lia. unfold nro_set_hash_none.
    destruct (setvalue_hash_cases _ a es (Some (c :: h)) nro_new_none Hok Hc ltac:(constructor)) as [[E _]|(k & a' & es' & E & Es & Hok' & _ & Ek' & _)]; [done|].
    injection E as <-. exists (Some (OHash a' es')). split; [|by exists a', es'].
    f_equal. destruct t as [? ? ? ? [] ]. cbn in Eo. subst. unfold on_cat, set_alternate_path_hashes. cbn -[nro_internal_setvalue_hash]. by rewrite Es.
Qed.

(** The array: the names that are not the last one. *)
Definition total_length (ks : list (list Z)) : Z := foldr (λ k n, Z.of_nat (length k) + n) 0 ks.

Lemma iterate_hashes (es : list (list Z * nrobj_t)) L n hs p : Forall is_cstr es.*1 → is_cstr p → Z.of_nat (length hs + length es) ≤ n →
  iterate_loop es nr_txn_iter_path_hash (HashState L n hs (Some p)) =
  let ks := filter (λ k, k ≠ p) es.*1 in HashState (L + total_length ks) n (hs ++ ks) (Some p).
Proof.
  revert L hs. induction es as [|[k v] es IH]; intros L hs Hes Hp Hn; [cbn; by rewrite Z.add_0_r, app_nil_r|].
  apply Forall_cons in Hes as [Hk Hes]. cbn [length] in Hn. cbn [iterate_loop]. unfold nr_txn_iter_path_hash at 1, used. cbn [capacity hashes path_hash hs_length].
  destruct (Z.leb_spec n (Z.of_nat (length hs))); [lia|]. cbn [nr_strcmp]. rewrite fmap_cons, filter_cons. cbn [fst].
  destruct (Z.eqb_spec (strcmp k p) 0) as [E|E]; cbv zeta in IH |- *.
  - apply strcmp_eq in E as ->; [|done..]. rewrite decide_False by (intros ?; done). apply IH; [done..|lia].
  - rewrite decide_True by (intros ->; apply E; by apply strcmp_eq). rewrite IH by (rewrite ?length_app; cbn [length]; done || lia).
    cbn [total_length foldr]. fold (total_length (filter (λ k, k ≠ p) es.*1)). rewrite nr_strlen_cstr by done. f_equal; [lia|]. by rewrite <-app_assoc.
Qed.

(** The block: the names with commas between them fill it. *)
Lemma nr_strcat_block d acc s : cstr d = acc → is_cstr acc → is_cstr s → (length acc + length s < length d)%nat →
  ∃ d', (nr_strcat (Some d) (Some s)).2 = Some d' ∧ cstr d' = acc ++ s ∧ length d' = length d.
Proof.
  intros <- Ha Hs Hl. unfold nr_strcat, strlen. rewrite (cstr_id s) by done.
  destruct (write_string d s (length (cstr d)) Hs) as (E & El & _); [by rewrite take_cstr|done|].
  eexists. split; [done|]. by rewrite E, take_cstr.
Qed.

Definition tail_of (ks : list (list Z)) : list Z := mjoin ((λ k, 44 :: k) <$> ks).

Lemma separated_tail k ks : separated (k :: ks) = k ++ tail_of ks.
Proof.
  revert k. induction ks as [|k' ks IH]; intros k; [by rewrite app_nil_r|].
  change (separated (k :: k' :: ks)) with (k ++ 44 :: separated (k' :: ks)). by rewrite IH.
Qed.

Lemma length_tail ks : Z.of_nat (length (tail_of ks)) = total_length ks + Z.of_nat (length ks).
Proof.
  induction ks as [|k ks IH]; [done|]. change (tail_of (k :: ks)) with (44 :: k ++ tail_of ks).
  change (total_length (k :: ks)) with (Z.of_nat (length k) + total_length ks). cbn [length]. rewrite length_app. lia.
Qed.

Lemma cat_loop_tail ks d acc : Forall is_cstr ks → is_cstr acc → cstr d = acc → (length acc + length (tail_of ks) < length d)%nat →
  ∃ d', cat_loop ks false (Some d) = Some d' ∧ cstr d' = acc ++ tail_of ks ∧ length d' = length d.
Proof.
  revert d acc. induction ks as [|k ks IH]; intros d acc Hks Ha Hd Hl; [exists d; by rewrite app_nil_r|].
  apply Forall_cons in Hks as [Hk Hks]. change (tail_of (k :: ks)) with (44 :: k ++ tail_of ks) in Hl. cbn [length] in Hl. rewrite length_app in Hl. cbn [cat_loop].
  destruct (nr_strcat_block d acc (lit ",") Hd Ha) as (d1 & -> & E1 & L1); [by apply (bool_decide_unpack _)|cbn; lia|].
  assert (is_cstr (acc ++ lit ",")) as Ha1 by (apply Forall_app; split; [done|by apply (bool_decide_unpack _)]).
  destruct (nr_strcat_block d1 (acc ++ lit ",") k E1 Ha1 Hk) as (d2 & -> & E2 & L2); [rewrite length_app; cbn; lia|].
  destruct (IH d2 ((acc ++ lit ",") ++ k) Hks) as (d3 & E & E3 & L3); [by apply Forall_app|done|rewrite !length_app; cbn; lia|].
  exists d3. split_and!; [done| |lia]. rewrite E3, <-!app_assoc. done.
Qed.

Lemma cstr_full d s : cstr d = s → length d = S (length s) → d = s ++ [0].
Proof.
  intros <-. induction d as [|c d IH]; intros Hl; [done|]. cbn [cstr] in *. destruct (Z.eqb_spec c 0) as [->|].
  - by destruct d.
  - cbn [length app] in *. f_equal. apply IH. lia.
Qed.

Lemma cat_loop_fills k ks : Forall is_cstr (k :: ks) → let n := total_length (k :: ks) + Z.of_nat (length (k :: ks)) in
  cat_loop (k :: ks) true (Some (replicate (Z.to_nat n) 0)) = Some (separated (k :: ks) ++ [0]).
Proof.
  intros [Hk Hks]%Forall_cons n. pose proof (length_tail ks) as Ht. set (d := replicate (Z.to_nat n) 0).
  assert (length d = S (length k + length (tail_of ks))) as Hd.
  { unfold d, n. rewrite length_replicate. cbn [total_length foldr length]. fold (total_length ks). lia. }
  cbn [cat_loop]. destruct (nr_strcat_block d [] k) as (d1 & -> & E1 & L1); [by destruct (Z.to_nat n)|by apply Forall_nil_2|done|cbn; lia|].
  destruct (cat_loop_tail ks d1 k Hks Hk E1) as (d2 & -> & E2 & L2); [lia|]. f_equal. rewrite separated_tail.
  apply cstr_full; [done|]. rewrite length_app. lia.
Qed.

(** ** The alternate path hashes *)
Section alternate.
Context `{QsortR, !QsortRLaws}.
Variable start : nr_MD5_CTX.
Hypothesis start_length : length (buffer start) = 64%nat.

(** A transaction is named, and calls another, which takes its path hash. *)
Definition rename (t : option nrtxn_t) (n : list Z) : option nrtxn_t := (nr_txn_set_path t (Some n) NR_PATH_TYPE_CUSTOM NR_OK_TO_OVERWRITE).2.
Definition call (t : option nrtxn_t) (n : list Z) : option nrtxn_t := (nr_txn_get_path_hash start (rename t n)).2.

(** The hash of a name. *)
Definition hash_of_name (app : list Z) (ref : option (list Z)) (n : list Z) : list Z := hex8 (path_step (refer_value ref) (app, n)).

Lemma hash_of_name_cstr app ref n : is_cstr (hash_of_name app ref n) ∧ hash_of_name app ref n ≠ [].
Proof. apply hex8_cstr, path_step_range, refer_value_range. Qed.

(** A transaction whose name is not frozen, with the hashes it keeps. *)
Record calling (app : list Z) (ref : option (list Z)) (hs : list (list Z)) (t : nrtxn_t) : Prop := {
  ca_name : txn_name t = None;
  ca_frozen : path_is_frozen (status t) = 0;
  ca_app : primary_app_name t = Some app;
  ca_ref : referring_path_hash (cat t) = ref;
  ca_hashes : keeps (alternate_path_hashes (cat t)) hs;
}.

Lemma rename_calling app ref hs t n : calling app ref hs t → is_cstr n → n ≠ [] →
  ∃ t', rename (Some t) n = Some t' ∧ calling app ref hs t' ∧ nr_txn_current_path_hash start (Some t') = Some (hash_of_name app ref n).
Proof.
  intros [Hn Hf Ha Hr Hk] Hc Hne. unfold rename, nr_txn_set_path. destruct n as [|c n]; [done|].
  assert (nr_strempty (Some (c :: n)) = false) as ->.
  { cbn [nr_strempty]. inversion Hc; subst. change (char_at (c :: n) 0) with c. lia. }
  rewrite Hf. cbn [negb Z.eqb]. destruct (Z.ltb_spec (path_rank NR_PATH_TYPE_CUSTOM) (path_rank (path_type (status t)))) as [Hlt|_].
  { exfalso. destruct (path_type (status t)); cbn in Hlt; lia. }
  rewrite bool_decide_eq_false_2 by done. cbn [andb snd]. eexists. split; [done|]. split.
  - destruct t as [? ? ? ? [] ]. by split.
  - cbn [nr_txn_current_path_hash]. change (txn_name (set_path ?p (on_status ?f t))) with (txn_name t). rewrite Hn.
    change (primary_app_name (set_path ?p (on_status ?f t))) with (primary_app_name t). rewrite Ha.
    change (referring_path_hash (cat (set_path ?p (on_status ?f t)))) with (referring_path_hash (cat t)). rewrite Hr.
    change (path (set_path ?p (on_status ?f t))) with p. unfold nr_strdup. cbn [from_option]. unfold default, id. rewrite (cstr_id (c :: n)) by done.
    apply nr_hash_cat_path_step; [done|apply refer_value_range].
Qed.

Lemma call_calling app ref hs t n : calling app ref hs t → is_cstr n → n ≠ [] →
  ∃ t', call (Some t) n = Some t' ∧ calling app ref (remember hs (hash_of_name app ref n)) t'.
Proof.
  intros Hc Hn Hne. destruct (rename_calling app ref hs t n Hc Hn Hne) as (t1 & E & [Hn1 Hf1 Ha1 Hr1 Hk1] & Eh).
  destruct (hash_of_name_cstr app ref n) as [Hhc Hhn]. destruct (keeps_add t1 hs _ Hk1 Hhc Hhn) as (o & Eo & Hko).
  unfold call, nr_txn_get_path_hash. rewrite E, Eh, Eo. eexists. split; [done|]. by destruct t1 as [? ? ? ? [] ].
Qed.

Lemma calls_calling app ref ns : Forall (λ n, is_cstr n ∧ n ≠ []) ns → ∀ hs t, calling app ref hs t →
  ∃ t', foldl call (Some t) ns = Some t' ∧ calling app ref (foldl remember hs (hash_of_name app ref <$> ns)) t'.
Proof.
  induction 1 as [|n ns [Hn Hne] Hns IH]; intros hs t Hc; [by exists t|]. cbn [foldl fmap list_fmap].
  destruct (call_calling app ref hs t n Hc Hn Hne) as (t1 & -> & Hc1). by apply IH.
Qed.

Lemma alternate_spec app ref hs t p : calling app ref hs t → nr_txn_current_path_hash start (Some t) = Some p → is_cstr p → hs ≠ [] →
  ∃ sorted, sorted ≡ₚ filter (λ k, k ≠ p) hs ∧ StronglySorted (λ a b, strcmp a b ≤ 0) sorted ∧
    nr_txn_get_alternate_path_hashes start (Some t) = Done (match sorted with [] => None | _ => Some (separated sorted ++ [0]) end).
Proof.
  intros [_ _ _ _ (a & es & Eo & Hok & Ek)] Ep Hp Hne. unfold nr_txn_get_alternate_path_hashes. rewrite Ep, Eo. cbn [nro_getsize nro_iteratehash].
  assert (Forall is_cstr es.*1) as Hes.
  { inversion Hok as [| | | | | | | |? ? _ _ Hkeys _|]; subst. eapply Forall_impl; [exact Hkeys|]. by intros k [? _]. }
  rewrite iterate_hashes by (done || cbn [length]; lia). rewrite Ek. set (ks := filter _ hs). cbv zeta. cbn [hashes hs_length]. rewrite ?app_nil_l.
  destruct (Z.eqb_spec (Z.of_nat (length es)) 0) as [E0|_]; [exfalso; apply Hne; rewrite <-Ek; by destruct es|].
  destruct (Z.ltb_spec (Z.of_nat (length es)) 0); [lia|]. unfold used. cbn [hashes].
  exists (nr_sort ks (Some nr_txn_compare_path_hashes)). change nr_txn_compare_path_hashes with strcmp. unfold nr_sort.
  pose proof (qsort_r_perm _ strcmp ks) as Hperm. split_and!; [done|by apply qsort_r_sorted, _|].
  assert (Forall is_cstr (qsort_r _ strcmp ks)) as Hsc.
  { rewrite Hperm. unfold ks. apply Forall_forall. intros k [_ Hk]%list_elem_of_filter. rewrite Forall_forall in Hes. apply Hes. by rewrite Ek. }
  assert (total_length ks = total_length (qsort_r _ strcmp ks)) as ->.
  { clear -Hperm. symmetry. induction Hperm as [| | |? ? ? _ IH1 _ IH2]; cbn [total_length foldr] in *; unfold total_length in *; lia. }
  rewrite <-(Permutation_length Hperm). destruct (qsort_r _ strcmp ks) as [|k l]; [done|]. destruct (Z.eqb_spec (Z.of_nat (length (k :: l))) 0); [by cbn in *|].
  by rewrite Z.add_0_l, cat_loop_fills.
Qed.

(** C16: The alternate path hashes. A transaction that was renamed and called
    others under each of the names remembers the first ten different hashes of the
    names; what it reports under its last name are these without the hash of that
    name, in order, with commas between them, in a block that they fill exactly. *)
Theorem nr_txn_alternate_path_hashes (app : list Z) (t : nrtxn_t) (ns : list (list Z)) (n : list Z) :
  txn_name t = None → path_is_frozen (status t) = 0 → primary_app_name t = Some app →
  alternate_path_hashes (cat t) = Some nro_new_hash → Forall (λ n, is_cstr n ∧ n ≠ []) (ns ++ [n]) →
  let hash := hash_of_name app (referring_path_hash (cat t)) in
  let remembered := take 10 (foldl StringPool.intern [] (hash <$> ns)) in
  ∃ t' sorted, rename (foldl call (Some t) ns) n = Some t' ∧ nr_txn_current_path_hash start (Some t') = Some (hash n) ∧
    sorted ≡ₚ filter (λ h, h ≠ hash n) remembered ∧ NoDup sorted ∧ StronglySorted (λ a b, strcmp a b ≤ 0) sorted ∧
    nr_txn_get_alternate_path_hashes start (Some t') = Done (match sorted with [] => None | _ => Some (separated sorted ++ [0]) end).
Proof.
  intros Htn Hf Ha Ho [Hns [[Hn Hne] _]%Forall_cons]%Forall_app hash remembered.
  assert (calling app (referring_path_hash (cat t)) [] t) as Hc.
  { split; [done..|]. rewrite Ho. eexists _, _. split; [done|]. split; [|done]. by repeat constructor. }
  destruct (calls_calling _ _ ns Hns [] t Hc) as (t1 & E1 & Hc1). change [] with (take 10 ([] : list (list Z))) in Hc1 at 1. rewrite remember_run in Hc1.
  fold hash remembered in Hc1. rewrite E1. destruct (rename_calling _ _ _ t1 n Hc1 Hn Hne) as (t2 & E2 & Hc2 & Ep). fold hash in Ep.
  exists t2. destruct (decide (remembered = [])) as [Er|Er].
  - exists []. rewrite Er. split_and!; [done|done|done|apply NoDup_nil_2|constructor|]. destruct Hc2 as [_ _ _ _ (a & es & Eo & _ & Ek)].
    unfold nr_txn_get_alternate_path_hashes. rewrite Eo. rewrite Er in Ek. by destruct es.
  - destruct (alternate_spec _ _ _ t2 (hash n) Hc2 Ep) as (sorted & Hperm & Hs & E); [by apply hash_of_name_cstr|done|].
    exists sorted. split_and!; [done|done|done| |done|done]. rewrite Hperm. apply NoDup_filter, take_intern_nodup.
Qed.
End alternate.

Lemma nr_txn_alternate_path_hashes_witness :
  let start := Context 7 7 init_registers (replicate 64 9) in let hash := hash_of_name (lit "app") None in
  let t := on_cat (set_alternate_path_hashes (Some nro_new_hash)) example_txn in
  ∃ t', rename (foldl (call start) (Some t) [lit "/one"; lit "/two"; lit "/one"]) (lit "/two") = Some t' ∧
    nr_txn_get_alternate_path_hashes (H0:=MergeSort.qsort_r) start (Some t') = Done (Some (hash (lit "/one") ++ [0])).
Proof.
  intros start hash t. destruct (@nr_txn_alternate_path_hashes MergeSort.qsort_r MergeSort.qsort_r_laws start eq_refl (lit "app") t [lit "/one"; lit "/two"; lit "/one"] (lit "/two"))
    as (t' & sorted & E & _ & Hp & _ & _ & Ea); [done..| |].
  - repeat apply Forall_cons_2; try apply Forall_nil_2; (split; [by apply (bool_decide_unpack _)|done]).
  - exists t'. split; [done|]. rewrite Ea. assert (sorted = [hash (lit "/one")]) as ->; [|done].
    apply Permutation_singleton_r. rewrite Hp.
    match goal with |- ?l ≡ₚ _ => replace l with [hash (lit "/one")] by (vm_compute; reflexivity) end. apply Permutation_refl.
Defined.
