(* ===== verification/TxnAttributes.v ===== *)
(** * TxnAttributes: what a transaction records of its request (src/axiom/nr_txn.c)

    The attributes that the agent gives to a transaction by itself.  Those that
    come from the user of the agent go to segments too, and are not here. *)

From S2P Require Import Prelude Memory CString Strings Double Object ObjectParse AttributeConfig Attributes Urls.
From S2P Require Import Synthetics Errors Txn.
From S2P Require TxnName.
Local Open Scope Z_scope.

Record nr_txn_attribute_t := TxnAttribute { at_name : list Z; at_destinations : Z }.

Definition NR_TXN_ATTRIBUTE_TRACE_ERROR : Z := Z.lor NR_ATTRIBUTE_DESTINATION_TXN_TRACE NR_ATTRIBUTE_DESTINATION_ERROR.
Definition NR_TXN_ATTRIBUTE_TRACE_ERROR_EVENT : Z := Z.lor NR_TXN_ATTRIBUTE_TRACE_ERROR NR_ATTRIBUTE_DESTINATION_TXN_EVENT.
Definition NR_TXN_ATTRIBUTE_SPAN_TRACE_ERROR_EVENT : Z := Z.lor NR_TXN_ATTRIBUTE_TRACE_ERROR_EVENT NR_ATTRIBUTE_DESTINATION_SPAN.
Definition NR_TXN_REQUEST_PARAMETER_ATTRIBUTE_PREFIX : list Z := lit "request.parameters.".

Definition nr_txn_request_uri := TxnAttribute (lit "request.uri") NR_TXN_ATTRIBUTE_TRACE_ERROR_EVENT.
Definition nr_txn_host_display_name := TxnAttribute (lit "host.displayName") NR_TXN_ATTRIBUTE_TRACE_ERROR_EVENT.
Definition nr_txn_request_accept_header := TxnAttribute (lit "request.headers.accept") NR_TXN_ATTRIBUTE_TRACE_ERROR_EVENT.
Definition nr_txn_request_content_type := TxnAttribute (lit "request.headers.contentType") NR_TXN_ATTRIBUTE_TRACE_ERROR_EVENT.
Definition nr_txn_request_content_length := TxnAttribute (lit "request.headers.contentLength") NR_TXN_ATTRIBUTE_TRACE_ERROR_EVENT.
Definition nr_txn_request_host := TxnAttribute (lit "request.headers.host") NR_TXN_ATTRIBUTE_TRACE_ERROR_EVENT.
Definition nr_txn_request_method := TxnAttribute (lit "request.method") NR_TXN_ATTRIBUTE_TRACE_ERROR_EVENT.
Definition nr_txn_request_referer := TxnAttribute (lit "request.headers.referer") NR_ATTRIBUTE_DESTINATION_ERROR.
Definition nr_txn_response_content_type := TxnAttribute (lit "response.headers.contentType") NR_TXN_ATTRIBUTE_TRACE_ERROR_EVENT.
Definition nr_txn_response_content_length := TxnAttribute (lit "response.headers.contentLength") NR_TXN_ATTRIBUTE_TRACE_ERROR_EVENT.
Definition nr_txn_server_name := TxnAttribute (lit "SERVER_NAME") NR_TXN_ATTRIBUTE_TRACE_ERROR.
Definition nr_txn_error_message := TxnAttribute (lit "errorMessage") NR_ATTRIBUTE_DESTINATION_TXN_EVENT.
Definition nr_txn_error_type := TxnAttribute (lit "errorType") NR_ATTRIBUTE_DESTINATION_TXN_EVENT.
Definition nr_txn_http_statuscode := TxnAttribute (lit "http.statusCode") NR_TXN_ATTRIBUTE_TRACE_ERROR_EVENT.
Definition nr_txn_request_user_agent := TxnAttribute (lit "request.headers.userAgent") NR_TXN_ATTRIBUTE_TRACE_ERROR.
Definition nr_txn_response_code_deprecated_int := TxnAttribute (lit "response.statusCode") NR_TXN_ATTRIBUTE_TRACE_ERROR_EVENT.
Definition nr_txn_response_code_deprecated_string := TxnAttribute (lit "httpResponseCode") NR_TXN_ATTRIBUTE_TRACE_ERROR_EVENT.
Definition nr_txn_request_user_agent_deprecated := TxnAttribute (lit "request.headers.User-Agent") NR_TXN_ATTRIBUTE_TRACE_ERROR.

Section attributes.
Implicit Types txn : option nrtxn_t.

Definition nr_txn_set_string_attribute txn (attribute : option nr_txn_attribute_t) (value : option (list Z)) : option nrtxn_t :=
  match txn, attribute, value with
  | Some t, Some a, Some v =>
      if char_at v 0 =? 0 then txn
      else Some (on_attributes (λ ats, (nr_attributes_agent_add_string ats (at_destinations a) (Some (at_name a)) value).2) t)
  | _, _, _ => txn
  end.

Definition nr_txn_set_long_attribute txn (attribute : option nr_txn_attribute_t) (value : Z) : option nrtxn_t :=
  match txn, attribute with
  | Some t, Some a => Some (on_attributes (λ ats, (nr_attributes_agent_add_long ats (at_destinations a) (Some (at_name a)) value).2) t)
  | _, _ => txn
  end.

(** The text up to the first of the characters that end a path. *)
Fixpoint without_params (uri : list Z) : list Z :=
  match uri with
  | [] => []
  | c :: uri => if (c =? 63) || (c =? 35) || (c =? 59) then [] else c :: without_params uri
  end.

Definition nr_txn_set_request_uri txn (uri : option (list Z)) : option nrtxn_t :=
  match txn, uri with
  | Some t, Some u =>
      if char_at u 0 =? 0 then txn
      else
        let without_params := without_params (nr_strdup uri) in
        nr_txn_set_string_attribute (Some (set_request_uri (Some without_params) t)) (Some nr_txn_request_uri) (Some without_params)
  | _, _ => txn
  end.

Definition nr_txn_set_http_status txn (http_code : Z) : option nrtxn_t :=
  match txn with
  | None => None
  | Some t =>
      if http_code =? 0 then txn
      else if flag (background (status t)) then txn
      else
        let txn := nr_txn_set_string_attribute txn (Some nr_txn_response_code_deprecated_string) (Some (int_text http_code)) in
        let txn := nr_txn_set_long_attribute txn (Some nr_txn_response_code_deprecated_int) http_code in
        nr_txn_set_long_attribute txn (Some nr_txn_http_statuscode) http_code
  end.

Definition nr_txn_add_request_parameter txn (key value : option (list Z)) (legacy_enable : Z) : option nrtxn_t :=
  match txn, key with
  | Some t, Some k =>
      if char_at k 0 =? 0 then txn
      else match value with
           | None => txn
           | Some _ =>
               if flag (high_security t) || flag (lasp t) then txn
               else
                 let default_destinations := if flag legacy_enable then NR_TXN_ATTRIBUTE_TRACE_ERROR else 0 in
                 let buf := NR_TXN_REQUEST_PARAMETER_ATTRIBUTE_PREFIX ++ cstr k in
                 Some (on_attributes (λ ats, (nr_attributes_agent_add_string ats default_destinations (Some buf) value).2) t)
           end
  | _, _ => txn
  end.

Definition nr_txn_set_request_referer txn (request_referer : option (list Z)) : outcome (option nrtxn_t) :=
  match txn, request_referer with
  | Some _, Some _ =>
      clean_referer ← nr_url_clean request_referer (nr_strlen request_referer);
      Done (nr_txn_set_string_attribute txn (Some nr_txn_request_referer) clean_referer)
  | _, _ => Done txn
  end.

(** [strtol] with base 10. *)
Definition strtol_10 (num : list Z) : Z :=
  let '(neg, s) := scan_sign (skip_spaces num) in
  let v := of_decimal (span nr_isdigit s).1 in saturate (if neg : bool then - v else v).

Definition nr_txn_set_request_content_length txn (content_length : option (list Z)) : option nrtxn_t :=
  match txn, content_length with
  | Some _, Some s =>
      if char_at s 0 =? 0 then txn
      else
        let content_length_int := int_of (strtol_10 (cstr s)) in
        if content_length_int =? 0 then txn
        else nr_txn_set_long_attribute txn (Some nr_txn_request_content_length) content_length_int
  | _, _ => txn
  end.

Definition nr_txn_add_error_attributes txn : option nrtxn_t :=
  match txn with
  | None => None
  | Some t =>
      match txn_error t with
      | None => txn
      | Some _ =>
          let txn := nr_txn_set_string_attribute txn (Some nr_txn_error_message) (nr_error_get_message (txn_error t)) in
          nr_txn_set_string_attribute txn (Some nr_txn_error_type) (nr_error_get_klass (txn_error t))
      end
  end.
End attributes.

(** ** Requests of a transaction *)
Inductive request_op :=
| Uri (uri : option (list Z))
| HttpStatus (code : Z)
| RequestParameter (key value : option (list Z)) (legacy_enable : Z)
| Referer (request_referer : option (list Z))
| ContentLength (content_length : option (list Z)).

Definition request_step (txn : outcome (option nrtxn_t)) (op : request_op) : outcome (option nrtxn_t) :=
  txn ← txn;
  match op with
  | Uri uri => Done (nr_txn_set_request_uri txn uri)
  | HttpStatus code => Done (nr_txn_set_http_status txn code)
  | RequestParameter key value legacy => Done (nr_txn_add_request_parameter txn key value legacy)
  | Referer r => nr_txn_set_request_referer txn r
  | ContentLength s => Done (nr_txn_set_request_content_length txn s)
  end.

Definition request_op_ok (op : request_op) : Prop :=
  match op with
  | Referer s | Uri s => is_cstr (default [] s)
  | HttpStatus code => int_range code
  | _ => True
  end.

(** A text without what follows the path. *)
Definition plain (s : list Z) : Prop := Forall (λ c, c ∉ lit "?#;") s.

(** An attribute that tells no more than the path and the size of a request. *)
Definition discreet (a : nr_attribute_t) : Prop :=
  key a ∈ [lit "request.uri"; lit "request.headers.referer"; lit "httpResponseCode"; lit "response.statusCode"; lit "http.statusCode";
           lit "request.headers.contentLength"] ∧
  (key a ∈ [lit "request.uri"; lit "request.headers.referer"] → ∃ s, value a = Some (OString (Some s)) ∧ plain s).

Lemma remove_first_subset l k h l' : remove_first l k h = Some l' → l' ⊆ l.
Proof.
  revert l'. induction l as [|a l IH]; intros l' E; [done|]. cbn [remove_first] in E. destruct (_ && _); [injection E as <-; set_solver|].
  destruct (remove_first l k h) as [l1|]; [|done]. injection E as <-. pose proof (IH l1 eq_refl). set_solver.
Qed.

(** The agent's attributes after one is added. *)
Lemma agent_added a d k v : ∃ a', (nr_attributes_add_internal (Some a) d false (Some k) v).2 = Some a' ∧
  ∀ x, x ∈ agent_attribute_list a' → x ∈ agent_attribute_list a ∨ (key x = cstr k ∧ value x = nro_copy <$> v).
Proof.
  cbn [nr_attributes_add_internal]. destruct (_ =? 0); [eexists; split; [done|]; by left|]. destruct (negb _); [eexists; split; [done|]; by left|].
  destruct (_ <? _); [eexists; split; [done|]; by left|]. destruct (0 =? _); [eexists; split; [done|]; by left|]. cbn [andb].
  eexists. split; [done|]. cbn [agent_attribute_list]. intros x [->|Hx]%elem_of_cons; [by right|]. left. revert Hx. cbn [nr_attributes_remove_duplicate].
  destruct (remove_first _ _ _) as [l|] eqn:E; [|done]. apply (remove_first_subset _ _ _ _ E).
Qed.

Lemma string_added a d k s : Forall is_byte s → ∃ a', (nr_attributes_agent_add_string (Some a) d (Some k) (Some s)).2 = Some a' ∧
  ∀ x, x ∈ agent_attribute_list a' → x ∈ agent_attribute_list a ∨ (key x = cstr k ∧ ∃ n, value x = Some (OString (Some (take n (cstr s))))).
Proof.
  intros Hs. unfold nr_attributes_agent_add_string, nro_new_string. cbn [nr_attributes_add nro_get_string found fst default from_option].
  match goal with |- context [nr_attributes_add_internal _ _ _ _ ?v] => destruct (agent_added a d k v) as (a' & E & Ha) end. exists a'. split; [done|]. intros x Hx. destruct (Ha x Hx) as [?|[Ek Ev]]; [by left|].
  right. split; [done|]. exists (Z.to_nat NR_ATTRIBUTE_VALUE_LENGTH_LIMIT). rewrite Ev. cbn [fmap option_fmap option_map nro_copy]. unfold nro_new_string, id.
  cbn [nro_copy]. unfold nr_strdup. cbn [default from_option]. unfold id.
  pose proof (cstr_is_cstr s Hs) as Hc. rewrite (cstr_id (cstr s)) by done. rewrite bounded_buffer by done. do 3 f_equal.
  rewrite cstr_id; [done|]. by apply is_cstr_take.
Qed.

Lemma long_added a d k n : ∃ a', (nr_attributes_agent_add_long (Some a) d (Some k) n).2 = Some a' ∧
  ∀ x, x ∈ agent_attribute_list a' → x ∈ agent_attribute_list a ∨ key x = cstr k.
Proof.
  unfold nr_attributes_agent_add_long. cbn [nr_attributes_add]. destruct (agent_added a d k (Some (nro_new_long n))) as (a' & E & Ha).
  exists a'. split; [done|]. intros x Hx. destruct (Ha x Hx) as [?|[? _]]; tauto.
Qed.

(** ** Nothing of the query is recorded *)
Record quiet (t : nrtxn_t) : Prop := {
  qu_secure : flag (high_security t) || flag (lasp t) = true;
  qu_attributes : ∃ a, attributes t = Some a ∧ Forall discreet (agent_attribute_list a);
  qu_uri : from_option plain True (request_uri t);
}.

Definition names_of_requests : list (list Z) :=
  [lit "request.uri"; lit "request.headers.referer"; lit "httpResponseCode"; lit "response.statusCode"; lit "http.statusCode";
   lit "request.headers.contentLength"].

Lemma plain_cstr n s : plain s → plain (take n (cstr s)).
Proof.
  intros Hs. apply Forall_take. induction Hs as [|c s Hc Hs IH]; [apply Forall_nil_2|]. cbn [cstr]. destruct (c =? 0); [apply Forall_nil_2|by apply Forall_cons_2].
Qed.

Lemma quiet_add t f : quiet t → (∀ a, ∃ a', f (Some a) = Some a' ∧ ∀ x, x ∈ agent_attribute_list a' → x ∈ agent_attribute_list a ∨ discreet x) → quiet (on_attributes f t).
Proof.
  intros [Hs (a & Ea & Ha) Hu] Hf. destruct (Hf a) as (a' & Ef & Hx). split; [by destruct t| |by destruct t].
  exists a'. split; [by destruct t; cbn in *; rewrite Ea|]. apply Forall_forall. intros x [?|?]%Hx; [|done]. rewrite Forall_forall in Ha. by apply Ha.
Qed.

Lemma string_quiet t at_ v : quiet t → Forall is_byte v → at_name at_ ∈ names_of_requests → is_cstr (at_name at_) →
  (at_name at_ ∈ [lit "request.uri"; lit "request.headers.referer"] → plain v) →
  ∃ t', nr_txn_set_string_attribute (Some t) (Some at_) (Some v) = Some t' ∧ quiet t'.
Proof.
  intros Ht Hv Hn Hc Hp. cbn [nr_txn_set_string_attribute]. destruct (_ =? 0); [by exists t|]. eexists. split; [done|]. apply quiet_add; [done|].
  intros a. destruct (string_added a (at_destinations at_) (at_name at_) v Hv) as (a' & E & Ha). exists a'. split; [done|].
  intros x [?|(Ek & n & Ev)]%Ha; [by left|right]. rewrite cstr_id in Ek by done. split; rewrite Ek; [done|].
  intros Hin. eexists. split; [done|]. by apply plain_cstr, Hp.
Qed.

Lemma long_quiet t at_ n : quiet t → at_name at_ ∈ names_of_requests → is_cstr (at_name at_) →
  at_name at_ ∉ [lit "request.uri"; lit "request.headers.referer"] →
  ∃ t', nr_txn_set_long_attribute (Some t) (Some at_) n = Some t' ∧ quiet t'.
Proof.
  intros Ht Hn Hc Hp. cbn [nr_txn_set_long_attribute]. eexists. split; [done|]. apply quiet_add; [done|].
  intros a. destruct (long_added a (at_destinations at_) (at_name at_) n) as (a' & E & Ha). exists a'. split; [done|].
  intros x [?|Ek]%Ha; [by left|right]. rewrite cstr_id in Ek by done. split; rewrite Ek; done.
Qed.

Lemma without_params_plain uri : plain (without_params uri).
Proof.
  induction uri as [|c uri IH]; [apply Forall_nil_2|]. cbn [without_params]. destruct (Z.eqb_spec c 63), (Z.eqb_spec c 35), (Z.eqb_spec c 59); try apply Forall_nil_2.
  apply Forall_cons_2; [|done]. change (lit "?#;") with [63; 35; 59]. rewrite !elem_of_cons, elem_of_nil. tauto.
Qed.

Lemma without_params_bytes uri : Forall is_byte uri → Forall is_byte (without_params uri).
Proof. induction 1 as [|c uri Hc _ IH]; [apply Forall_nil_2|]. cbn [without_params]. destruct (_ || _); [apply Forall_nil_2|by apply Forall_cons_2]. Qed.

Lemma cstr_bytes s : is_cstr s → Forall is_byte s.
Proof. intros Hs. eapply Forall_impl; [exact Hs|]. unfold is_byte. simpl. lia. Qed.

Lemma int_text_bytes x : - 2 ^ 31 ≤ x < 2 ^ 31 → Forall is_byte (int_text x).
Proof.
  intros Hx. unfold int_text. destruct (Z.leb_spec 0 x).
  - destruct (decimal_spec x ltac:(lia)) as (_ & Hd & _). eapply Forall_impl; [exact Hd|]. unfold is_byte. simpl. lia.
  - rewrite u32_small by lia. destruct (decimal_spec (- x) ltac:(lia)) as (_ & Hd & _). apply Forall_cons_2; [done|]. eapply Forall_impl; [exact Hd|]. unfold is_byte. simpl. lia.
Qed.

(** Names of attributes are closed texts. *)
Ltac named := by apply (bool_decide_unpack _).

Lemma request_quiet t op : quiet t → request_op_ok op → ∃ t', request_step (Done (Some t)) op = Done (Some t') ∧ quiet t'.
Proof.
  intros Ht Hop. destruct op as [uri|code|key value legacy|r|s]; cbn [request_step mbind outcome_bind].
  - destruct uri as [u|]; [|by exists t]. cbn [nr_txn_set_request_uri]. destruct (_ =? 0); [by exists t|].
    assert (is_cstr (nr_strdup (Some u))) as Hu by (unfold nr_strdup; apply cstr_is_cstr; by apply cstr_bytes).
    set (w := without_params _). assert (plain w) as Hw by apply without_params_plain.
    destruct (string_quiet (set_request_uri (Some w) t) nr_txn_request_uri w) as (t' & -> & ?); [|by apply without_params_bytes, cstr_bytes|named|named|done|by exists t'].
    destruct Ht as [? ? ?]. destruct t. by split.
  - cbn [nr_txn_set_http_status]. destruct (_ =? 0); [by exists t|]. destruct (flag _); [by exists t|].
    destruct (string_quiet t nr_txn_response_code_deprecated_string (int_text code) Ht) as (t1 & -> & H1); [by apply int_text_bytes|named|named|intros Hin; exfalso; revert Hin; match goal with |- ?P → False => change (¬ P) end; named|].
    destruct (long_quiet t1 nr_txn_response_code_deprecated_int code H1) as (t2 & -> & H2); [named..|].
    destruct (long_quiet t2 nr_txn_http_statuscode code H2) as (t3 & -> & H3); [named..|]. by exists t3.
  - exists t. split; [|done]. destruct key as [k|]; [|done]. cbn [nr_txn_add_request_parameter]. destruct (_ =? 0); [done|].
    destruct value; [|done]. by rewrite (qu_secure t Ht).
  - destruct r as [r|]; [|by exists t]. cbn [nr_txn_set_request_referer request_op_ok default from_option] in *. rewrite nr_strlen_cstr by done.
    destruct (clean_hides r Hop) as (c & -> & Hc). cbn [mbind outcome_bind]. destruct c as [c|]; [|by exists t].
    destruct (string_quiet t nr_txn_request_referer c Ht) as (t' & -> & ?); [|named|named| |by exists t'].
    + eapply Forall_impl; [exact Hc|]. intros x [Hx _]. unfold is_byte. lia.
    + intros _. eapply Forall_impl; [exact Hc|]. intros x [_ Hx]. change (lit "@#?;") with [64; 35; 63; 59] in Hx. change (lit "?#;") with [63; 35; 59].
      rewrite !elem_of_cons in *. tauto.
  - destruct s as [s|]; [|by exists t]. cbn [nr_txn_set_request_content_length]. destruct (_ =? 0); [by exists t|]. destruct (_ =? 0); [by exists t|].
    destruct (long_quiet t nr_txn_request_content_length (int_of (strtol_10 (cstr s))) Ht) as (t' & -> & ?); [named..|by exists t'].
Qed.

(** C15: In high security mode, or with security policies, the attributes that a
    transaction gets from its requests, whatever they are, hold no parameter; no
    address among them, and not the one of the transaction, has a query, a
    fragment or parameters in it. *)
Theorem nr_txn_request_discreet (t : nrtxn_t) (a : nr_attributes_t) (ops : list request_op) :
  flag (high_security t) || flag (lasp t) = true → attributes t = Some a → agent_attribute_list a = [] → request_uri t = None →
  Forall request_op_ok ops →
  ∃ t' a', foldl request_step (Done (Some t)) ops = Done (Some t') ∧ attributes t' = Some a' ∧
    Forall discreet (agent_attribute_list a') ∧ from_option plain True (request_uri t').
Proof.
  intros Hs Ea El Eu Hops. assert (quiet t) as Ht.
  { split; [done| |by rewrite Eu]. exists a. split; [done|]. rewrite El. apply Forall_nil_2. }
  clear Hs Ea El Eu. revert t Ht. induction Hops as [|op ops Hop Hops IH]; intros t Ht.
  - destruct Ht as [_ (a' & ? & ?) ?]. by exists t, a'.
  - cbn [foldl]. destruct (request_quiet t op Ht Hop) as (t1 & -> & H1). by apply IH.
Qed.

(** A transaction of an application in high security mode. *)
Definition secure_txn : nrtxn_t :=
  let secure := ltac:(setter make_txn high_security (λ _ : Z, 1)) in on_attributes (λ _, Some (nr_attributes_create None)) (secure TxnName.example_txn).

Lemma nr_txn_request_discreet_witness :
  let ops := [Uri (Some (lit "/login?user=a#top")); RequestParameter (Some (lit "password")) (Some (lit "secret")) 1;
              Referer (Some (lit "http://me:pw@host/p;q")); HttpStatus 404; ContentLength (Some (lit " 17"))] in
  (∃ t' a', foldl request_step (Done (Some secure_txn)) ops = Done (Some t') ∧ attributes t' = Some a' ∧
    Forall discreet (agent_attribute_list a') ∧ from_option plain True (request_uri t')) ∧
  match foldl request_step (Done (Some secure_txn)) ops with
  | Done (Some t) => (request_uri t, key <$> from_option agent_attribute_list [] (attributes t))
  | _ => (None, [])
  end = (Some (lit "/login"), [lit "request.headers.contentLength"; lit "http.statusCode"; lit "response.statusCode"; lit "httpResponseCode";
          lit "request.headers.referer"; lit "request.uri"]).
Proof.
  intros ops. split; [|vm_compute; reflexivity]. apply (nr_txn_request_discreet secure_txn (nr_attributes_create None) ops); [done..|].
  repeat apply Forall_cons_2; try apply Forall_nil_2; try done; by apply (bool_decide_unpack _).
Defined.
