(* ===== verification/TxnMetrics.v ===== *)
(** * TxnMetrics: the metrics of a finished transaction (src/axiom/nr_txn.c)

    The metrics that [nr_txn_handle_total_time] adds to the table of the
    transaction.  A null pointer printed with [%s] is the text that the usual C
    library writes for it. *)

From S2P Require Import Prelude Memory CString Strings Double Object ObjectParse Rules.
From S2P Require DistributedTrace StringPool ExclusiveTime.
From S2P Require Import Metrics Synthetics Errors Txn TxnName TxnCat TxnAttributes.
Local Open Scope Z_scope.

(** [%s], [%.*s] *)
Definition format_s (s : option (list Z)) : list Z := from_option cstr (lit "(null)") s.
Definition format_ns (n : Z) (s : option (list Z)) : list Z := take (Z.to_nat n) (format_s s).

Section metrics.
Context `{QsortR}.
Implicit Types txn : option nrtxn_t.

Definition force_add (name : list Z) (duration : Z) : nrtxn_t → nrtxn_t := on_metrics (λ m, nrm_force_add m (Some name) duration).
Definition force_add_ex (name : option (list Z)) (duration exclusive : Z) : nrtxn_t → nrtxn_t := on_metrics (λ m, nrm_force_add_ex m name duration exclusive).
Definition duplicate (src dest : list Z) : nrtxn_t → nrtxn_t := on_metrics (λ m, nrm_duplicate_metric m (Some src) (Some dest)).

(** The value is an [int]. *)
Definition nr_txn_create_dt_metrics txn (metric_prefix : option (list Z)) (value : Z) : option nrtxn_t :=
  match txn, metric_prefix with
  | Some t, Some _ =>
      let metric_postfix := if flag (background (status t)) then lit "allOther" else lit "allWeb" in
      let dt := distributed_trace t in
      let metric_name :=
        if DistributedTrace.nr_distributed_trace_inbound_is_set dt then
          let or_unknown s := format_s (match s with Some _ => s | None => Some (lit "Unknown") end) in
          or_unknown (DistributedTrace.nr_distributed_trace_inbound_get_type dt) ++ lit "/" ++
          or_unknown (DistributedTrace.nr_distributed_trace_inbound_get_account_id dt) ++ lit "/" ++
          or_unknown (DistributedTrace.nr_distributed_trace_inbound_get_app_id dt) ++ lit "/" ++
          format_s (DistributedTrace.nr_distributed_trace_inbound_get_transport_type dt)
        else lit "Unknown/Unknown/Unknown/Unknown" in
      let all_metric := format_s metric_prefix ++ lit "/" ++ metric_name ++ lit "/all" in
      let all_web_other_metric := format_s metric_prefix ++ lit "/" ++ metric_name ++ lit "/" ++ metric_postfix in
      Some (force_add all_web_other_metric (u64 value) (force_add all_metric (u64 value) t))
  | _, _ => txn
  end.

Definition nr_txn_replace_first_segment (txnname : option (list Z)) (new_prefix : list Z) : option (list Z) :=
  match txnname, nr_strchr txnname 47 with
  | Some n, Some slash => Some (cstr new_prefix ++ cstr (drop (Z.to_nat slash) n))
  | _, _ => None
  end.

Definition nr_txn_create_apdex_metrics txn (duration : Z) : option nrtxn_t :=
  match txn with
  | None => None
  | Some t =>
      let apdex := apdex_t (options t) in
      let apdex_zone := nr_txn_apdex_zone txn duration in
      let satisfying := if decide (apdex_zone = NR_APDEX_SATISFYING) then 1 else 0 in
      let tolerating := if decide (apdex_zone = NR_APDEX_TOLERATING) then 1 else 0 in
      let failing := if decide (apdex_zone = NR_APDEX_FAILING) then 1 else 0 in
      let t := on_metrics (λ m, nrm_force_add_apdex m (Some (lit "Apdex")) satisfying tolerating failing apdex) t in
      match nr_txn_replace_first_segment (txn_name t) (lit "Apdex") with
      | None => Some t
      | Some apdex_metric => Some (on_metrics (λ m, nrm_add_apdex m (Some apdex_metric) satisfying tolerating failing apdex) t)
      end
  end.

Definition nr_txn_create_error_metrics txn (txnname : option (list Z)) : option nrtxn_t :=
  match txn with
  | None => None
  | Some t =>
      if nr_strempty txnname then txn
      else
        let t := force_add (lit "Errors/all") 0 t in
        let t := if flag (background (status t)) then force_add (lit "Errors/allOther") 0 t else force_add (lit "Errors/allWeb") 0 t in
        let t := if flag (distributed_tracing_enabled (options t)) then default t (nr_txn_create_dt_metrics (Some t) (Some (lit "ErrorsByCaller")) 0) else t in
        Some (force_add (lit "Errors/" ++ cstr (default [] txnname)) 0 t)
  end.

Definition seconds (time : Z) : double := SpecFloat.SFdiv prec emax (double_of time) (double_of NR_TIME_DIVISOR).

(** A transaction without root segment is a null pointer to the code. *)
Definition nr_txn_create_duration_metrics txn (duration total_time : Z) : outcome (option nrtxn_t) :=
  match txn with
  | None => Done None
  | Some t =>
      match segment_root t with
      | None => Undefined
      | Some root =>
          let '(exclusive, et) := ExclusiveTime.nr_exclusive_time_calculate (root_exclusive root) in
          let t := set_segment_root (Some (Root (root_start root) (root_stop root) et)) t in
          let is_background := flag (background (status t)) in
          let rollup_metric := if is_background then lit "OtherTransaction/all" else lit "WebTransaction" in
          let rollup_total_metric := if is_background then lit "OtherTransactionTotalTime" else lit "WebTransactionTotalTime" in
          let t := if is_background then t else force_add_ex (Some (lit "HttpDispatcher")) duration 0 t in
          let t := force_add_ex (txn_name t) duration exclusive t in
          let t := force_add_ex (Some rollup_metric) duration exclusive t in
          let total_metric :=
            match txn_name t, nr_strchr (txn_name t) 47 with
            | Some n, Some slash => format_ns slash (txn_name t) ++ lit "TotalTime" ++ cstr (drop (Z.to_nat slash) n)
            | _, _ => format_s (txn_name t) ++ lit "TotalTime"
            end in
          let t := force_add_ex (Some total_metric) total_time total_time t in
          let t := force_add_ex (Some rollup_total_metric) total_time total_time t in
          let t := if flag (distributed_tracing_enabled (options t))
                   then default t (nr_txn_create_dt_metrics (Some t) (Some (lit "DurationByCaller")) (int_of duration)) else t in
          Done (Some (on_intrinsics (λ o, (nro_set_hash_double o (Some (lit "totalTime")) (seconds total_time)).1) t))
      end
  end.

Definition nr_txn_create_queue_metric txn : option nrtxn_t :=
  match txn with
  | None => None
  | Some t =>
      if flag (background (status t)) then txn
      else if http_x_start (status t) =? 0 then txn
      else Some (force_add (lit "WebFrontend/QueueTime") (nr_txn_queue_time txn) t)
  end.

Definition elapsed_cpu (usage : Z * Z) : Z := if usage.1 <? usage.2 then u64 (usage.2 - usage.1) else 0.

Definition nr_txn_create_cpu_intrinsics txn : option nrtxn_t :=
  match txn with
  | None => None
  | Some t =>
      let user := elapsed_cpu (user_cpu t) in
      let sys := elapsed_cpu (sys_cpu t) in
      let combined := u64 (user + sys) in
      let set key time := on_intrinsics (λ o, (nro_set_hash_double o (Some key) (seconds time)).1) in
      Some (set (lit "cpu_sys_time") sys (set (lit "cpu_user_time") user (set (lit "cpu_time") combined t)))
  end.

Definition nr_txn_add_datastore_rollup_metric (name : option (list Z)) (len : Z) txn : option nrtxn_t :=
  match txn, name with
  | Some t, Some _ =>
      let src := lit "Datastore/" ++ format_ns len name ++ lit "/all" in
      let dest := lit "Datastore/" ++ format_ns len name ++ (if flag (background (status t)) then lit "/allOther" else lit "/allWeb") in
      Some (duplicate src dest t)
  | _, _ => txn
  end.

Definition nr_txn_create_rollup_metrics txn : option nrtxn_t :=
  match txn with
  | None => None
  | Some t =>
      let t :=
        if flag (background (status t)) then
          duplicate (lit "MessageBroker/all") (lit "MessageBroker/allOther")
            (duplicate (lit "External/all") (lit "External/allOther") (duplicate (lit "Datastore/all") (lit "Datastore/allOther") t))
        else
          duplicate (lit "MessageBroker/all") (lit "MessageBroker/allWeb")
            (duplicate (lit "External/all") (lit "External/allWeb") (duplicate (lit "Datastore/all") (lit "Datastore/allWeb") t)) in
      foldl (λ txn '(name, len), nr_txn_add_datastore_rollup_metric name len txn) (Some t) (StringPool.nr_string_pool_apply (datastore_products t))
  end.

(** [start] is the memory in which hashes of paths are computed. *)
Definition nr_txn_handle_total_time (start : Md5.nr_MD5_CTX) txn (total_time : Z) : outcome (option nrtxn_t) :=
  let duration := nr_txn_duration txn in
  let txn := nr_txn_create_rollup_metrics txn in
  txn ← nr_txn_create_duration_metrics txn duration total_time;
  let txn := nr_txn_create_queue_metric txn in
  let txn := nr_txn_create_cpu_intrinsics txn in
  match txn with
  | None => Undefined
  | Some t =>
      let t := on_intrinsics (nr_txn_add_cat_intrinsics start (Some t)) t in
      let t := if flag (distributed_tracing_enabled (options t)) then on_intrinsics (nr_txn_add_distributed_tracing_intrinsics (Some t)) t else t in
      let t :=
        match synthetics t with
        | None => t
        | Some _ =>
            on_intrinsics (λ o, add_string (lit "synthetics_monitor_id") (nr_synthetics_monitor_id (synthetics t))
              (add_string (lit "synthetics_job_id") (nr_synthetics_job_id (synthetics t))
                (add_string (lit "synthetics_resource_id") (nr_synthetics_resource_id (synthetics t)) o))) t
        end in
      let txn := if nr_txn_should_create_apdex_metrics (Some t) then nr_txn_create_apdex_metrics (Some t) duration else Some t in
      Done
        match txn with
        | None => None
        | Some t =>
            match txn_error t with
            | None => txn
            | Some _ => nr_txn_add_error_attributes (nr_txn_create_error_metrics txn (txn_name t))
            end
        end
  end.
End metrics.

(** ** The additions, as a list *)
Definition timing (name : list Z) (duration exclusive : Z) : metric_op :=
  Add true (Some name) 1 duration exclusive duration duration (u64 (duration * duration)).

Definition on_side {A} (t : nrtxn_t) (other web : A) : A := if flag (background (status t)) then other else web.

Definition rollup_ops (t : nrtxn_t) : list metric_op :=
  let dup n := Duplicate (Some (n ++ lit "/all")) (Some (n ++ on_side t (lit "/allOther") (lit "/allWeb"))) in
  dup <$> [lit "Datastore"; lit "External"; lit "MessageBroker"] ++
    omap (λ '(name, len), (λ _, lit "Datastore/" ++ format_ns len name) <$> name) (StringPool.nr_string_pool_apply (datastore_products t)).

Definition caller_of (t : nrtxn_t) : list Z :=
  let dt := distributed_trace t in
  let or_unknown s := format_s (match s with Some _ => s | None => Some (lit "Unknown") end) in
  if DistributedTrace.nr_distributed_trace_inbound_is_set dt then
    or_unknown (DistributedTrace.nr_distributed_trace_inbound_get_type dt) ++ lit "/" ++
    or_unknown (DistributedTrace.nr_distributed_trace_inbound_get_account_id dt) ++ lit "/" ++
    or_unknown (DistributedTrace.nr_distributed_trace_inbound_get_app_id dt) ++ lit "/" ++
    format_s (DistributedTrace.nr_distributed_trace_inbound_get_transport_type dt)
  else lit "Unknown/Unknown/Unknown/Unknown".

Definition caller_ops (t : nrtxn_t) (prefix : list Z) (value : Z) : list metric_op :=
  if flag (distributed_tracing_enabled (options t)) then
    (λ suffix, timing (prefix ++ lit "/" ++ caller_of t ++ suffix) (u64 value) (u64 value)) <$> [lit "/all"; lit "/" ++ on_side t (lit "allOther") (lit "allWeb")]
  else [].

Definition total_name (name : list Z) : list Z :=
  match nr_strchr (Some name) 47 with
  | Some slash => format_ns slash (Some name) ++ lit "TotalTime" ++ cstr (drop (Z.to_nat slash) name)
  | None => cstr name ++ lit "TotalTime"
  end.

Definition duration_ops (t : nrtxn_t) (name : list Z) (duration exclusive total : Z) : list metric_op :=
  on_side t [] [timing (lit "HttpDispatcher") duration 0] ++
  [timing name duration exclusive; timing (on_side t (lit "OtherTransaction/all") (lit "WebTransaction")) duration exclusive;
   timing (total_name name) total total; timing (on_side t (lit "OtherTransactionTotalTime") (lit "WebTransactionTotalTime")) total total] ++
  caller_ops t (lit "DurationByCaller") (int_of duration).

Definition queue_ops (t : nrtxn_t) : list metric_op :=
  if flag (background (status t)) || (http_x_start (status t) =? 0) then []
  else let q := nr_txn_queue_time (Some t) in [timing (lit "WebFrontend/QueueTime") q q].

(** How the zones are counted. *)
Definition zone_counts (z : nr_apdex_zone_t) : Z * Z * Z :=
  match z with NR_APDEX_SATISFYING => (1, 0, 0) | NR_APDEX_TOLERATING => (0, 1, 0) | NR_APDEX_FAILING => (0, 0, 1) end.

Definition apdex_ops (t : nrtxn_t) (name : list Z) (duration : Z) : list metric_op :=
  if nr_txn_should_create_apdex_metrics (Some t) then
    let '(s, o, f) := zone_counts (nr_txn_apdex_zone (Some t) duration) in
    let apdex := apdex_t (options t) in
    AddApdex true (Some (lit "Apdex")) s o f apdex apdex ::
    match nr_txn_replace_first_segment (Some name) (lit "Apdex") with Some n => [AddApdex false (Some n) s o f apdex apdex] | None => [] end
  else [].

Definition error_ops (t : nrtxn_t) (name : list Z) : list metric_op :=
  match txn_error t with
  | Some _ =>
      if nr_strempty (Some name) then []
      else [timing (lit "Errors/all") 0 0; timing (on_side t (lit "Errors/allOther") (lit "Errors/allWeb")) 0 0] ++
           caller_ops t (lit "ErrorsByCaller") 0 ++ [timing (lit "Errors/" ++ cstr name) 0 0]
  | None => []
  end.

Definition end_ops (t : nrtxn_t) (name : list Z) (duration exclusive total : Z) : list metric_op :=
  rollup_ops t ++ duration_ops t name duration exclusive total ++ queue_ops t ++ apdex_ops t name duration ++ error_ops t name.

(** What the metrics depend on. *)
Definition context (t : nrtxn_t) := (status t, options t, txn_name t, txn_error t, abs_start_time t, distributed_trace t).

(** The transaction after some additions to its table. *)
Definition evolves (ops : list metric_op) (t t' : nrtxn_t) : Prop :=
  unscoped_metrics t' = foldl exec (unscoped_metrics t) ops ∧ context t' = context t.

Lemma evolves_refl t : evolves [] t t.
Proof. done. Qed.

Lemma evolves_trans ops ops' t t1 t2 : evolves ops t t1 → evolves ops' t1 t2 → evolves (ops ++ ops') t t2.
Proof. intros [Hm Hc] [Hm' Hc']. split; [by rewrite Hm', Hm, foldl_app|by rewrite Hc']. Qed.

Lemma evolves_op op t : evolves [op] t (on_metrics (λ m, exec m op) t).
Proof. by destruct t. Qed.

Lemma evolves_more ops op t t' : evolves ops t t' → evolves (ops ++ [op]) t (on_metrics (λ m, exec m op) t').
Proof. intros H. eapply evolves_trans; [exact H|apply evolves_op]. Qed.

(** The same additions, whatever was added before. *)
Lemma context_same t t' : context t' = context t →
  status t' = status t ∧ options t' = options t ∧ txn_name t' = txn_name t ∧ txn_error t' = txn_error t ∧
  abs_start_time t' = abs_start_time t ∧ distributed_trace t' = distributed_trace t.
Proof. unfold context. intros E. by injection E as -> -> -> -> -> ->. Qed.

Lemma rollup_evolves t : ∃ t', nr_txn_create_rollup_metrics (Some t) = Some t' ∧ evolves (rollup_ops t) t t' ∧ segment_root t' = segment_root t.
Proof.
  set (dup n := Duplicate (Some (n ++ lit "/all")) (Some (n ++ on_side t (lit "/allOther") (lit "/allWeb")))).
  cbn [nr_txn_create_rollup_metrics]. set (t1 := if flag _ then _ else _).
  assert (evolves (dup <$> [lit "Datastore"; lit "External"; lit "MessageBroker"]) t t1 ∧ segment_root t1 = segment_root t ∧ status t1 = status t) as (H1 & R1 & S1).
  { unfold t1, dup, on_side, duplicate. destruct t as [? ? ? st]. cbn [status]. by destruct (flag (background st)). }
  assert (datastore_products t1 = datastore_products t) as -> by (unfold t1, duplicate; destruct t as [? ? ? st]; cbn [status]; by destruct (flag (background st))).
  unfold rollup_ops. fold dup. rewrite fmap_app. clearbody t1.
  set (products := StringPool.nr_string_pool_apply _). set (names := omap _ products).
  assert (∃ t', foldl (λ txn '(name, len), nr_txn_add_datastore_rollup_metric name len txn) (Some t1) products = Some t' ∧
    evolves (dup <$> names) t1 t' ∧ segment_root t' = segment_root t1) as (t' & -> & H2 & R2); [|exists t'; split_and!; [done|by eapply evolves_trans|congruence]].
  unfold names. clear H1 R1 names. revert t1 S1. induction products as [|[name len] products IH]; intros t1 S1; [by exists t1|]. cbn [foldl].
  destruct name as [n|]; [|cbn [nr_txn_add_datastore_rollup_metric]; by apply IH].
  cbn [nr_txn_add_datastore_rollup_metric]. rewrite S1. fold (on_side t (lit "/allOther") (lit "/allWeb")).
  set (t2 := duplicate _ _ t1). destruct (IH t2) as (t' & E & H & R); [unfold t2, duplicate; by destruct t1|].
  exists t'. split_and!; [done| |rewrite R; unfold t2, duplicate; by destruct t1].
  cbn [omap list_omap fmap option_fmap option_map]. cbn [fmap list_fmap]. 
  eapply (evolves_trans [_]); [|exact H]. unfold t2, duplicate, dup. rewrite <-!app_assoc. apply evolves_op.
Qed.

Lemma caller_evolves t prefix value : is_cstr prefix →
  ∃ t', (if flag (distributed_tracing_enabled (options t)) then default t (nr_txn_create_dt_metrics (Some t) (Some prefix) value) else t) = t' ∧
    evolves (caller_ops t prefix value) t t'.
Proof.
  intros Hp. eexists. split; [done|]. unfold caller_ops. destruct (flag _); [|apply evolves_refl].
  cbn [nr_txn_create_dt_metrics default from_option]. unfold id. fold (caller_of t). change (format_s (Some prefix)) with (cstr prefix). rewrite !(cstr_id prefix) by done.
  change (evolves ([timing (prefix ++ lit "/" ++ caller_of t ++ lit "/all") (u64 value) (u64 value)] ++
    [timing (prefix ++ lit "/" ++ caller_of t ++ lit "/" ++ on_side t (lit "allOther") (lit "allWeb")) (u64 value) (u64 value)]) t
    (force_add (prefix ++ lit "/" ++ caller_of t ++ lit "/" ++ on_side t (lit "allOther") (lit "allWeb")) (u64 value)
      (force_add (prefix ++ lit "/" ++ caller_of t ++ lit "/all") (u64 value) t))).
  apply (evolves_more _ (timing _ _ _)), (evolves_op (timing _ _ _)).
Qed.

Ltac side := unfold on_side; match goal with |- context [flag (background (status ?t))] => destruct (flag (background (status t))) end.

Lemma duration_evolves `{QsortR} t root name duration total : segment_root t = Some root → txn_name t = Some name →
  ∃ t' o, nr_txn_create_duration_metrics (Some t) duration total = Done (Some (on_intrinsics o t')) ∧
    evolves (duration_ops t name duration (ExclusiveTime.nr_exclusive_time_calculate (root_exclusive root)).1 total) t t'.
Proof.
  intros Hr Hn. cbn [nr_txn_create_duration_metrics]. rewrite Hr. destruct (ExclusiveTime.nr_exclusive_time_calculate _) as [exclusive et]. cbn [fst].
  set (t0 := set_segment_root _ t). assert (evolves [] t t0) as H0 by by destruct t.
  assert (status t0 = status t) as S0 by by destruct t. clearbody t0. rewrite !S0.
  set (t1 := if flag _ then t0 else _). assert (evolves (on_side t [] [timing (lit "HttpDispatcher") duration 0]) t t1) as H1.
  { unfold t1. side; [done|]. apply (evolves_more [] (timing _ _ _) t t0 H0). }
  assert (∀ l ta, evolves l t ta → txn_name ta = Some name) as Hname by (intros l ta [_ Hc]; apply context_same in Hc as (_ & _ & -> & _); done).
  rewrite (Hname _ _ H1). set (t2 := force_add_ex (Some name) _ _ t1).
  pose proof (evolves_more _ (timing name duration exclusive) _ _ H1) as H2. change (on_metrics _ t1) with t2 in H2. clearbody t2.
  fold (on_side t (lit "OtherTransaction/all") (lit "WebTransaction")). set (t3 := force_add_ex (Some (on_side t _ _)) _ _ t2).
  pose proof (evolves_more _ (timing (on_side t (lit "OtherTransaction/all") (lit "WebTransaction")) duration exclusive) _ _ H2) as H3.
  change (on_metrics _ t2) with t3 in H3. clearbody t3. rewrite (Hname _ _ H3). cbv zeta.
  assert (match nr_strchr (Some name) 47 with
    | Some slash => format_ns slash (Some name) ++ lit "TotalTime" ++ cstr (drop (Z.to_nat slash) name)
    | None => format_s (Some name) ++ lit "TotalTime"
    end = total_name name) as -> by done.
  set (t4 := force_add_ex (Some (total_name name)) _ _ t3).
  pose proof (evolves_more _ (timing (total_name name) total total) _ _ H3) as H4. change (on_metrics _ t3) with t4 in H4. clearbody t4.
  fold (on_side t (lit "OtherTransactionTotalTime") (lit "WebTransactionTotalTime")). set (t5 := force_add_ex (Some (on_side t _ _)) _ _ t4).
  pose proof (evolves_more _ (timing (on_side t (lit "OtherTransactionTotalTime") (lit "WebTransactionTotalTime")) total total) _ _ H4) as H5.
  change (on_metrics _ t4) with t5 in H5. clearbody t5.
  destruct (caller_evolves t5 (lit "DurationByCaller") (int_of duration)) as (t6 & -> & H6); [by apply (bool_decide_unpack _)|].
  eexists t6, _. split; [done|]. pose proof (evolves_trans _ _ _ _ _ H5 H6) as H7.
  assert (caller_ops t5 (lit "DurationByCaller") (int_of duration) = caller_ops t (lit "DurationByCaller") (int_of duration)) as E.
  { destruct H5 as [_ Hc]. apply context_same in Hc as (Es & Eo & _ & _ & _ & Ed). unfold caller_ops, caller_of, on_side. by rewrite Es, Eo, Ed. }
  rewrite E in H7. unfold duration_ops. rewrite <-!app_assoc in H7. exact H7.
Qed.

Lemma queue_evolves t : ∃ t', nr_txn_create_queue_metric (Some t) = Some t' ∧ evolves (queue_ops t) t t'.
Proof.
  cbn [nr_txn_create_queue_metric]. unfold queue_ops. destruct (flag _); [by exists t|]. destruct (_ =? 0); [by exists t|].
  eexists. split; [done|]. apply (evolves_op (timing _ _ _)).
Qed.

Lemma apdex_evolves t name duration : txn_name t = Some name →
  ∃ t', (if nr_txn_should_create_apdex_metrics (Some t) then nr_txn_create_apdex_metrics (Some t) duration else Some t) = Some t' ∧
    evolves (apdex_ops t name duration) t t'.
Proof.
  intros Hn. unfold apdex_ops. destruct (nr_txn_should_create_apdex_metrics _); [|by exists t]. cbn [nr_txn_create_apdex_metrics].
  set (z := nr_txn_apdex_zone _ _). set (t1 := on_metrics _ t).
  assert (evolves (let '(s, o, f) := zone_counts z in [AddApdex true (Some (lit "Apdex")) s o f (apdex_t (options t)) (apdex_t (options t))]) t t1) as H1.
  { unfold t1. destruct z; apply (evolves_op (AddApdex true _ _ _ _ _ _)). }
  assert (txn_name t1 = Some name) as -> by by destruct H1 as [_ (_ & _ & -> & _)%context_same].
  destruct (nr_txn_replace_first_segment _ _) as [n|]; eexists; (split; [done|]); [|by destruct z].
  destruct z; apply (evolves_more [AddApdex true _ _ _ _ _ _] (AddApdex false (Some n) _ _ _ _ _) t t1 H1).
Qed.

Lemma error_evolves t name : txn_name t = Some name → txn_error t ≠ None →
  ∃ t', nr_txn_create_error_metrics (Some t) (Some name) = Some t' ∧ evolves (error_ops t name) t t'.
Proof.
  intros Hn He. unfold error_ops. destruct (txn_error t); [|done]. cbn [nr_txn_create_error_metrics]. destruct (nr_strempty _); [by exists t|].
  set (t1 := force_add (lit "Errors/all") 0 t). assert (status t1 = status t) as -> by by destruct t.
  pose proof (evolves_op (timing (lit "Errors/all") 0 0) t) as H1. change (on_metrics _ t) with t1 in H1. clearbody t1.
  set (t2 := if flag (background (status t)) then _ else _). assert (evolves ([timing (lit "Errors/all") 0 0] ++ [timing (on_side t (lit "Errors/allOther") (lit "Errors/allWeb")) 0 0]) t t2) as H2.
  { unfold t2. side; apply (evolves_more _ (timing _ _ _) _ _ H1). }
  clearbody t2. destruct (caller_evolves t2 (lit "ErrorsByCaller") 0) as (t3 & -> & H3); [by apply (bool_decide_unpack _)|].
  assert (caller_ops t2 (lit "ErrorsByCaller") 0 = caller_ops t (lit "ErrorsByCaller") 0) as E.
  { destruct H2 as [_ Hc]. apply context_same in Hc as (Es & Eo & _ & _ & _ & Ed). unfold caller_ops, caller_of, on_side. by rewrite Es, Eo, Ed. }
  rewrite E in H3. pose proof (evolves_trans _ _ _ _ _ H2 H3) as H4. eexists. split; [done|].
  cbn [default from_option]. unfold id. pose proof (evolves_more _ (timing (lit "Errors/" ++ cstr name) 0 0) _ _ H4) as H5.
  rewrite <-!app_assoc in H5. exact H5.
Qed.

Lemma evolves_intrinsics ops f t t' : evolves ops t t' → evolves ops t (on_intrinsics f t').
Proof. intros [? ?]. by destruct t'. Qed.

Lemma queue_ops_context t t' : context t' = context t → queue_ops t' = queue_ops t.
Proof. intros (Es & _ & _ & _ & Ea & _)%context_same. unfold queue_ops, nr_txn_queue_time, nr_txn_start_time. cbn [from_option]. by rewrite Es, Ea. Qed.

Lemma apdex_ops_context t t' name d : context t' = context t → apdex_ops t' name d = apdex_ops t name d.
Proof.
  intros (Es & Eo & _ & Ee & _ & _)%context_same. unfold apdex_ops, nr_txn_should_create_apdex_metrics, nr_txn_apdex_zone. cbn [from_option].
  by rewrite Es, Eo, Ee.
Qed.

Lemma error_ops_context t t' name : context t' = context t → error_ops t' name = error_ops t name.
Proof.
  intros (Es & Eo & _ & Ee & _ & Ed)%context_same. unfold error_ops, caller_ops, caller_of, on_side. by rewrite Es, Eo, Ee, Ed.
Qed.

Lemma duration_ops_context t t' name d e total : context t' = context t → duration_ops t' name d e total = duration_ops t name d e total.
Proof. intros (Es & Eo & _ & _ & _ & Ed)%context_same. unfold duration_ops, caller_ops, caller_of, on_side. by rewrite Es, Eo, Ed. Qed.

Lemma error_attributes_evolve ops t t1 : evolves ops t t1 → ∃ t2, nr_txn_add_error_attributes (Some t1) = Some t2 ∧ evolves ops t t2.
Proof.
  intros H. cbn [nr_txn_add_error_attributes]. destruct (txn_error t1) as [e|]; [|by exists t1].
  assert (∀ t a v, ∃ t', nr_txn_set_string_attribute (Some t) (Some a) v = Some t' ∧ (evolves ops t1 t → evolves ops t1 t') ∧
    unscoped_metrics t' = unscoped_metrics t ∧ context t' = context t) as Hs.
  { clear. intros t a v. cbn [nr_txn_set_string_attribute]. destruct v as [v|]; [|by exists t]. destruct (_ =? 0); [by exists t|]. eexists. split; [done|]. by destruct t. }
  destruct (Hs t1 nr_txn_error_message (nr_error_get_message (Some e))) as (t2 & -> & _ & Em & Ec).
  destruct (Hs t2 nr_txn_error_type (nr_error_get_klass (Some e))) as (t3 & -> & _ & Em' & Ec'). exists t3. split; [done|].
  destruct H as [Hm Hc]. split; congruence.
Qed.

Lemma cpu_evolves ops t t1 : evolves ops t t1 → ∃ t2, nr_txn_create_cpu_intrinsics (Some t1) = Some t2 ∧ evolves ops t t2.
Proof. intros H. eexists. split; [done|]. by do 3 apply evolves_intrinsics. Qed.

Lemma end_evolves `{QsortR} start t root name total : segment_root t = Some root → txn_name t = Some name →
  ∃ t', nr_txn_handle_total_time start (Some t) total = Done (Some t') ∧
    evolves (end_ops t name (nr_txn_duration (Some t)) (ExclusiveTime.nr_exclusive_time_calculate (root_exclusive root)).1 total) t t'.
Proof.
  intros Hr Hn. unfold nr_txn_handle_total_time, end_ops. set (d := nr_txn_duration (Some t)).
  destruct (rollup_evolves t) as (t1 & -> & H1 & R1). rewrite Hr in R1. pose proof (context_same _ _ (proj2 H1)) as (_ & _ & N1 & _). rewrite Hn in N1.
  destruct (duration_evolves t1 root name d total R1 N1) as (t2 & o & -> & H2). cbn [mbind outcome_bind].
  rewrite (duration_ops_context t) in H2 by apply H1. pose proof (evolves_intrinsics _ o _ _ (evolves_trans _ _ _ _ _ H1 H2)) as H3.
  destruct (queue_evolves (on_intrinsics o t2)) as (t4 & -> & H4). rewrite (queue_ops_context t) in H4 by apply H3.
  destruct (cpu_evolves _ _ _ (evolves_trans _ _ _ _ _ H3 H4)) as (t5 & -> & H5).
  apply (evolves_intrinsics _ (nr_txn_add_cat_intrinsics start (Some t5))) in H5. set (t6 := on_intrinsics _ t5) in *. clearbody t6.
  set (t7 := if flag _ then _ else t6). assert (evolves ((rollup_ops t ++ duration_ops t name d (ExclusiveTime.nr_exclusive_time_calculate (root_exclusive root)).1 total) ++ queue_ops t) t t7) as H7
    by (unfold t7; destruct (flag _); [by apply evolves_intrinsics|done]).
  clearbody t7. set (t8 := match synthetics t7 with Some _ => _ | None => t7 end).
  assert (evolves ((rollup_ops t ++ duration_ops t name d (ExclusiveTime.nr_exclusive_time_calculate (root_exclusive root)).1 total) ++ queue_ops t) t t8) as H8
    by (unfold t8; destruct (synthetics t7); [by apply evolves_intrinsics|done]).
  clearbody t8. pose proof (context_same _ _ (proj2 H8)) as (_ & _ & N8 & E8 & _). rewrite Hn in N8.
  destruct (apdex_evolves t8 name d N8) as (t9 & -> & H9). rewrite (apdex_ops_context t) in H9 by apply H8. pose proof (evolves_trans _ _ _ _ _ H8 H9) as H10.
  pose proof (context_same _ _ (proj2 H10)) as (_ & _ & N9 & E9 & _). rewrite Hn in N9. rewrite <-!app_assoc in H10.
  destruct (txn_error t9) as [e|] eqn:Ee; cycle 1.
  { exists t9. split; [done|]. unfold error_ops. rewrite <-E9, app_nil_r. exact H10. }
  destruct (error_evolves t9 name N9) as (t10 & E10 & H11); [by rewrite Ee|]. rewrite N9, E10. rewrite (error_ops_context t) in H11 by apply H10.
  destruct (error_attributes_evolve _ _ _ (evolves_trans _ _ _ _ _ H10 H11)) as (t11 & -> & H12). exists t11. split; [done|].
  rewrite <-!app_assoc in H12. exact H12.
Qed.

(** ** What additions do to the statistics of a name *)
Definition target (op : metric_op) : option (list Z) :=
  match op with Add _ n _ _ _ _ _ _ | AddApdex _ n _ _ _ _ _ => n | Duplicate _ n => n end.

Definition effect (op : metric_op) : option (stats → stats) :=
  match op with
  | Add true (Some _) c t e mn mx sq => Some (stats_add true false c t e mn mx sq)
  | AddApdex true (Some _) s t f mn mx => Some (stats_add true true s t f mn mx 0)
  | _ => None
  end.

(** The additions under a name are forced. *)
Definition only_forced (n : list Z) (ops : list metric_op) : Prop := Forall (λ op, target op = Some n → effect op ≠ None) ops.
Definition effects (n : list Z) (ops : list metric_op) : list (stats → stats) := omap (λ op, if decide (target op = Some n) then effect op else None) ops.
Definition affect (s : option stats) (g : stats → stats) : option stats := Some (g (default new_stats s)).

Lemma stats_of_spec_add mx force n n' g l : n ≠ MetricsDropped → n ≠ n' → stats_of (spec_add mx force n' g l) n = stats_of l n.
Proof. intros Hd Hn. unfold spec_add, dropped. destruct (accepts _ _ _ _); rewrite stats_of_put, decide_False; done. Qed.

Lemma stats_of_spec mx l op n : n ≠ MetricsDropped → (target op = Some n → effect op ≠ None) →
  stats_of (spec mx l op) n = foldl affect (stats_of l n) (effects n [op]).
Proof.
  intros Hd Hf. unfold effects. cbn [omap list_omap].
  destruct op as [force [n'|] c t e mn mxv sq|force [n'|] s t f mn mxv|[src|] [n'|]]; cbn [target effect spec] in *;
    try (by destruct force); try (by rewrite decide_False by done).
  - destruct (decide (Some n' = Some n)) as [[= ->]|Hne]; [destruct force; [|by destruct (Hf eq_refl)]|].
    + cbn [foldl]. unfold spec_add, accepts. rewrite orb_true_r, stats_of_put, decide_True by done. done.
    + cbn [foldl]. apply stats_of_spec_add; congruence.
  - destruct (decide (Some n' = Some n)) as [[= ->]|Hne]; [destruct force; [|by destruct (Hf eq_refl)]|].
    + cbn [foldl]. unfold spec_add, accepts. rewrite orb_true_r, stats_of_put, decide_True by done. done.
    + cbn [foldl]. apply stats_of_spec_add; congruence.
  - destruct (decide (Some n' = Some n)) as [[= ->]|Hne]; [by destruct (Hf eq_refl)|]. cbn [foldl].
    destruct (stats_of l src); [|done]. apply stats_of_spec_add; congruence.
  - by destruct (decide _).
Qed.

Lemma stats_of_run mx ops l n : n ≠ MetricsDropped → only_forced n ops →
  stats_of (foldl (spec mx) l ops) n = foldl affect (stats_of l n) (effects n ops).
Proof.
  intros Hd. revert l. induction ops as [|op ops IH]; intros l Hf; [done|]. apply Forall_cons in Hf as [Hop Hf].
  cbn [foldl]. rewrite IH by done. rewrite (stats_of_spec mx l op n Hd Hop). unfold effects. cbn [omap list_omap].
  by destruct (decide _); [destruct (effect op)|].
Qed.

(** The names that transactions share, and those that are of one. *)
Definition shared_names : list (list Z) :=
  [lit "HttpDispatcher"; lit "WebTransaction"; lit "OtherTransaction/all"; lit "WebTransactionTotalTime"; lit "OtherTransactionTotalTime";
   lit "WebFrontend/QueueTime"; lit "Apdex"; lit "Errors/all"; lit "Errors/allWeb"; lit "Errors/allOther"].
Definition own_names (name : list Z) : list (list Z) :=
  [name; total_name name; lit "Errors/" ++ cstr name] ++ option_list (nr_txn_replace_first_segment (Some name) (lit "Apdex")).

Lemma effects_app n ops ops' : effects n (ops ++ ops') = effects n ops ++ effects n ops'.
Proof. apply omap_app. Qed.

Lemma only_forced_app n ops ops' : only_forced n (ops ++ ops') ↔ only_forced n ops ∧ only_forced n ops'.
Proof. apply Forall_app. Qed.

(** Additions elsewhere. *)
Definition elsewhere (n : list Z) (ops : list metric_op) : Prop := Forall (λ op, target op ≠ Some n) ops.

Lemma elsewhere_none n ops : elsewhere n ops → only_forced n ops ∧ effects n ops = [].
Proof.
  induction 1 as [|op ops Hop _ [IH1 IH2]]; [split; [constructor|done]|]. split; [by apply Forall_cons_2|].
  unfold effects in *. cbn [omap list_omap]. by rewrite decide_False by done.
Qed.

(** No shared name starts like this. *)
Definition apart (prefix : list Z) : Prop := Forall (λ n, ∀ s, prefix ++ s ≠ n) shared_names.

Lemma apart_ne prefix s n : apart prefix → n ∈ shared_names → prefix ++ s ≠ n.
Proof. unfold apart. rewrite Forall_forall. intros H Hn. by apply H. Qed.

Lemma apart_prefixes : Forall apart [lit "Datastore"; lit "External"; lit "MessageBroker"; lit "DurationByCaller"; lit "ErrorsByCaller"].
Proof.
  repeat apply Forall_cons_2; try apply Forall_nil_2; (unfold apart, shared_names; repeat apply Forall_cons_2; try apply Forall_nil_2; by intros s; vm_compute).
Qed.

Lemma apart_name prefix : prefix ∈ [lit "Datastore"; lit "External"; lit "MessageBroker"; lit "DurationByCaller"; lit "ErrorsByCaller"] →
  ∀ s n, n ∈ shared_names → prefix ++ s ≠ n.
Proof. intros Hp s n. apply apart_ne. pose proof apart_prefixes as H. rewrite Forall_forall in H. by apply H. Qed.

Lemma elsewhere_rollup n t : n ∈ shared_names → elsewhere n (rollup_ops t).
Proof.
  intros Hn. unfold rollup_ops. rewrite fmap_app. apply Forall_app. split; apply Forall_fmap, Forall_forall; intros m Hm E; injection E as E.
  - revert E. apply apart_name; [|done]. rewrite !elem_of_cons in *. tauto.
  - apply list_elem_of_omap in Hm as ([name len] & _ & Em). destruct name as [name|]; [|done]. injection Em as Em. subst m.
    apply (apart_name (lit "Datastore") ltac:(by left) (47 :: format_ns len (Some name) ++ on_side t (lit "/allOther") (lit "/allWeb")) n Hn). exact E.
Qed.

Lemma elsewhere_caller n t prefix v : prefix ∈ [lit "DurationByCaller"; lit "ErrorsByCaller"] → n ∈ shared_names → elsewhere n (caller_ops t prefix v).
Proof.
  intros Hp Hn. unfold caller_ops. destruct (flag _); [|constructor]. apply Forall_fmap, Forall_forall. intros suffix _ [= E].
  revert E. apply apart_name; [|done]. rewrite !elem_of_cons in *. tauto.
Qed.

(** The operations on a name that is shared, part by part. *)
Definition forced_effects (n : list Z) (ops : list metric_op) (gs : list (stats → stats)) : Prop := only_forced n ops ∧ effects n ops = gs.

Lemma forced_app n ops ops' gs gs' : forced_effects n ops gs → forced_effects n ops' gs' → forced_effects n (ops ++ ops') (gs ++ gs').
Proof. intros [H1 E1] [H2 E2]. split; [by apply only_forced_app|]. by rewrite effects_app, E1, E2. Qed.

Lemma forced_elsewhere n ops : elsewhere n ops → forced_effects n ops [].
Proof. apply elsewhere_none. Qed.

Lemma forced_timing n m d e : forced_effects n [timing m d e] (if decide (m = n) then [stats_add true false 1 d e d d (u64 (d * d))] else []).
Proof.
  split; [by apply Forall_singleton|]. unfold effects, timing. cbn [omap list_omap target effect].
  destruct (decide (Some m = Some n)), (decide (m = n)); congruence.
Qed.

Lemma forced_own n m d e : m ≠ n → forced_effects n [timing m d e] [].
Proof. intros Hne. pose proof (forced_timing n m d e) as H. by rewrite decide_False in H. Qed.

(** The additions under shared names. *)
Definition shared_ops (t : nrtxn_t) (name : list Z) (duration exclusive total : Z) : list metric_op :=
  on_side t [] [timing (lit "HttpDispatcher") duration 0] ++
  [timing (on_side t (lit "OtherTransaction/all") (lit "WebTransaction")) duration exclusive] ++
  [timing (on_side t (lit "OtherTransactionTotalTime") (lit "WebTransactionTotalTime")) total total] ++
  queue_ops t ++
  (if nr_txn_should_create_apdex_metrics (Some t) then
     let '(s, o, f) := zone_counts (nr_txn_apdex_zone (Some t) duration) in [AddApdex true (Some (lit "Apdex")) s o f (apdex_t (options t)) (apdex_t (options t))]
   else []) ++
  (if txn_error t is Some _ then
     if nr_strempty (Some name) then [] else [timing (lit "Errors/all") 0 0; timing (on_side t (lit "Errors/allOther") (lit "Errors/allWeb")) 0 0]
   else []).

Lemma forced_all n ops : Forall (λ op, effect op ≠ None) ops → forced_effects n ops (effects n ops).
Proof. intros H. split; [|done]. eapply Forall_impl; [exact H|]. done. Qed.

Lemma forced_nil n : forced_effects n [] [].
Proof. by split; [constructor|]. Qed.

Lemma forced_skip n ops ops' gs : elsewhere n ops → forced_effects n ops' gs → forced_effects n (ops ++ ops') gs.
Proof. intros H H'. apply (forced_app n ops ops' [] gs); [by apply forced_elsewhere|done]. Qed.

Lemma shared_effects n t name d e total : n ∈ shared_names → Forall (λ m, m ∉ shared_names) (own_names name) →
  forced_effects n (end_ops t name d e total) (effects n (shared_ops t name d e total)).
Proof.
  intros Hn Hown. unfold own_names in Hown. apply Forall_app in Hown as [(Hname & (Htotal & (Herr & _)%Forall_cons)%Forall_cons)%Forall_cons Hap].
  assert (∀ m d e, m ∉ shared_names → elsewhere n [timing m d e]) as Hown by (intros m d' e' Hm; apply Forall_singleton; intros [= ->]; done).
  unfold end_ops, shared_ops, duration_ops. rewrite <-!app_assoc. apply forced_skip; [by apply elsewhere_rollup|].
  rewrite !effects_app. apply forced_app; [by apply forced_all; side; repeat constructor|].
  apply (forced_skip n [_]); [by apply Hown|]. apply (forced_app n [_]); [by apply forced_all; repeat constructor|].
  apply (forced_skip n [_]); [by apply Hown|]. apply (forced_app n [_]); [by apply forced_all; repeat constructor|].
  apply forced_skip; [by apply elsewhere_caller; [left|]|].
  apply forced_app; [apply forced_all; unfold queue_ops; destruct (_ || _); by repeat constructor|].
  apply forced_app.
  - unfold apdex_ops. destruct (nr_txn_should_create_apdex_metrics _); [|apply forced_nil]. destruct (zone_counts _) as [[s o] f].
    rewrite <-(app_nil_r (effects _ _)). apply (forced_app n [_]); [apply forced_all; apply Forall_singleton; discriminate|]. apply forced_elsewhere.
    destruct (nr_txn_replace_first_segment _ _) as [m|]; [|constructor]. apply Forall_singleton. intros E. injection E as E. subst m.
    apply Forall_cons in Hap as [Hap _]. exact (Hap Hn).
  - unfold error_ops. destruct (txn_error t); [|apply forced_nil]. destruct (nr_strempty _); [apply forced_nil|].
    rewrite <-(app_nil_r (effects _ _)). apply forced_app; [by apply forced_all; repeat constructor|]. apply forced_elsewhere, Forall_app.
    split; [by apply elsewhere_caller; [right; left|]|by apply Hown].
Qed.

(** Additions that the table takes: their names are strings. *)
Lemma named_op_ok n op : target op = Some n → is_cstr n → (∀ src n', op = Duplicate src n' → name_ok src) → op_ok op.
Proof. intros Ht Hn Hd. destruct op; simpl in *; rewrite ?Ht; simpl; [done|done|]. split; [by eapply Hd|done]. Qed.

Ltac text := by apply (bool_decide_unpack _).

Lemma cstr_concat a b : is_cstr a → is_cstr b → is_cstr (a ++ b).
Proof. intros. by apply Forall_app. Qed.

Lemma caller_ops_ok t prefix v : is_cstr prefix → is_cstr (caller_of t) → Forall op_ok (caller_ops t prefix v).
Proof.
  intros Hp Hc. unfold caller_ops. destruct (flag _); [|constructor]. apply Forall_fmap, Forall_forall. intros s Hs. change (is_cstr (prefix ++ lit "/" ++ caller_of t ++ s)).
  apply cstr_concat; [done|]. apply cstr_concat; [text|]. apply cstr_concat; [done|].
  apply elem_of_cons in Hs as [->|Hs%list_elem_of_singleton]; [text|]. rewrite Hs. side; text.
Qed.

Lemma total_name_cstr name : is_cstr name → is_cstr (total_name name).
Proof.
  intros Hn. unfold total_name. destruct (nr_strchr _ _) as [i|]; [|rewrite cstr_id by done; apply cstr_concat; [done|text]].
  unfold format_ns, format_s. cbn [from_option]. rewrite (cstr_id name) by done. apply cstr_concat; [by apply is_cstr_take|]. apply cstr_concat; [text|].
  apply cstr_is_cstr, Forall_drop. by apply cstr_bytes.
Qed.

Lemma replaced_cstr name p n : is_cstr name → is_cstr p → nr_txn_replace_first_segment (Some name) p = Some n → is_cstr n.
Proof.
  intros Hn Hp. unfold nr_txn_replace_first_segment. destruct (nr_strchr _ _) as [i|]; [|done]. intros [= <-]. rewrite (cstr_id p) by done.
  apply cstr_concat; [done|]. apply cstr_is_cstr, Forall_drop. by apply cstr_bytes.
Qed.

Lemma end_ops_ok t name d e total : is_cstr name → is_cstr (caller_of t) →
  Forall (λ x, is_cstr (default [] x.1)) (StringPool.nr_string_pool_apply (datastore_products t)) → Forall op_ok (end_ops t name d e total).
Proof.
  intros Hn Hc Hp. unfold end_ops. rewrite !Forall_app; split_and!.
  - unfold rollup_ops. rewrite fmap_app. apply Forall_app.
    assert (∀ m, is_cstr m → op_ok (Duplicate (Some (m ++ lit "/all")) (Some (m ++ on_side t (lit "/allOther") (lit "/allWeb"))))) as H.
    { intros m Hm. split; (apply cstr_concat; [done|]); [text|side; text]. }
    split; [repeat apply Forall_cons_2; try apply Forall_nil_2; apply H; text|]. apply Forall_fmap, Forall_forall. intros m Hm. apply H.
    apply list_elem_of_omap in Hm as ([[x|] len] & Hx & E); [|done]. injection E as E. subst m. rewrite Forall_forall in Hp. apply Hp in Hx. simpl in Hx.
    apply (cstr_concat (lit "Datastore/")); [text|]. unfold format_ns, format_s. cbn [from_option]. rewrite (cstr_id x) by done. by apply is_cstr_take.
  - unfold duration_ops. rewrite !Forall_app; split_and!.
    + side; repeat apply Forall_cons_2; try apply Forall_nil_2; text.
    + repeat apply Forall_cons_2; try apply Forall_nil_2; [done|side; text|by apply total_name_cstr|side; text].
    + apply caller_ops_ok; [text|done].
  - unfold queue_ops. destruct (_ || _); [constructor|]. apply Forall_singleton. text.
  - unfold apdex_ops. destruct (nr_txn_should_create_apdex_metrics _); [|constructor]. destruct (zone_counts _) as [[s o] f].
    apply Forall_cons_2; [text|]. destruct (nr_txn_replace_first_segment _ _) eqn:E; [|constructor]. apply Forall_singleton.
    eapply (replaced_cstr name (lit "Apdex")); [done|text|exact E].
  - unfold error_ops. destruct (txn_error t); [|constructor]. destruct (nr_strempty _); [constructor|]. rewrite !Forall_app; split_and!.
    + apply Forall_cons_2; [text|]. apply Forall_singleton. side; text.
    + apply caller_ops_ok; [text|done].
    + apply Forall_singleton. change (is_cstr (lit "Errors/" ++ cstr name)). rewrite (cstr_id name) by done. apply (cstr_concat (lit "Errors/")); [text|done].
Qed.

(** ** Every transaction is counted once *)

(** Statistics with one more timing, one more request in an apdex zone. *)
Definition timed (duration exclusive : Z) (s : option stats) : option stats :=
  affect s (stats_add true false 1 duration exclusive duration duration (u64 (duration * duration))).
Definition zoned (z : nr_apdex_zone_t) (apdex : Z) (s : option stats) : option stats :=
  let '(satisfying, tolerating, failing) := zone_counts z in affect s (stats_add true true satisfying tolerating failing apdex apdex 0).

Definition shared_after (t : nrtxn_t) (name : list Z) (duration exclusive total : Z) (before : list Z → option stats) : list (list Z * option stats) :=
  let web := negb (flag (background (status t))) in
  let failed := bool_decide (is_Some (txn_error t)) && negb (nr_strempty (Some name)) in
  let when (b : bool) f n := (n, if b then f (before n) else before n) in
  [when web (timed duration exclusive) (lit "WebTransaction"); when (negb web) (timed duration exclusive) (lit "OtherTransaction/all");
   when web (timed total total) (lit "WebTransactionTotalTime"); when (negb web) (timed total total) (lit "OtherTransactionTotalTime");
   when web (timed duration 0) (lit "HttpDispatcher");
   when (web && negb (http_x_start (status t) =? 0)) (let q := nr_txn_queue_time (Some t) in timed q q) (lit "WebFrontend/QueueTime");
   when (nr_txn_should_create_apdex_metrics (Some t)) (zoned (nr_txn_apdex_zone (Some t) duration) (apdex_t (options t))) (lit "Apdex");
   when failed (timed 0 0) (lit "Errors/all"); when (failed && web) (timed 0 0) (lit "Errors/allWeb");
   when (failed && negb web) (timed 0 0) (lit "Errors/allOther")].

Lemma shared_after_spec t name d e total before :
  Forall (λ '(n, after), foldl affect (before n) (effects n (shared_ops t name d e total)) = after) (shared_after t name d e total before).
Proof.
  unfold shared_after, shared_ops, on_side, queue_ops. set (q := nr_txn_queue_time _). clearbody q.
  destruct (flag (background (status t))), (http_x_start (status t) =? 0), (nr_txn_should_create_apdex_metrics (Some t)), (nr_txn_apdex_zone (Some t) d),
    (txn_error t), (nr_strempty (Some name)); cbn [negb andb orb]; repeat (apply Forall_cons_2; [reflexivity|]); apply Forall_nil_2.
Qed.

(** C14: A finished transaction is counted once. Under the names that all
    transactions share, the table of metrics has what it had before with one more
    timing on the side of the transaction, web or other, the time in the queue if
    there was one, one more request in its apdex zone unless it has none, and one
    more error if there was one; and nothing else. *)
Theorem nr_txn_counted_once `{QsortR} start t root name table mx l total :
  segment_root t = Some root → txn_name t = Some name → unscoped_metrics t = Some table → represents table mx l →
  is_cstr name → is_cstr (caller_of t) →
  Forall (λ x, is_cstr (default [] x.1)) (StringPool.nr_string_pool_apply (datastore_products t)) →
  Forall (λ m, m ∉ shared_names) (own_names name) →
  let duration := nr_txn_duration (Some t) in
  let exclusive := (ExclusiveTime.nr_exclusive_time_calculate (root_exclusive root)).1 in
  ∃ t' table' l', nr_txn_handle_total_time start (Some t) total = Done (Some t') ∧ unscoped_metrics t' = Some table' ∧ represents table' mx l' ∧
    (shared_after t name duration exclusive total (stats_of l)).*1 ≡ₚ shared_names ∧
    Forall (λ '(n, after), stats_of l' n = after) (shared_after t name duration exclusive total (stats_of l)).
Proof.
  intros Hr Hn Ht Hrep Hnc Hc Hp Hown duration exclusive. destruct (end_evolves start t root name total Hr Hn) as (t' & E & Em & _).
  fold duration exclusive in Em. rewrite Ht in Em. pose proof (end_ops_ok t name duration exclusive total Hnc Hc Hp) as Hok.
  destruct (run_spec mx _ table l Hrep Hok) as (table' & Et & Hrep'). rewrite Et in Em. exists t', table', (foldl (spec mx) l (end_ops t name duration exclusive total)).
  assert ((shared_after t name duration exclusive total (stats_of l)).*1 ≡ₚ shared_names) as Hnames by (by apply (bool_decide_unpack _)).
  split_and!; [done..|]. pose proof (shared_after_spec t name duration exclusive total (stats_of l)) as Hs. rewrite Forall_forall in Hs |- *.
  intros [n after] Hin. rewrite <-(Hs _ Hin). assert (n ∈ shared_names) as Hsn.
  { rewrite <-Hnames. apply list_elem_of_fmap. by exists (n, after). }
  destruct (shared_effects n t name duration exclusive total Hsn Hown) as [Hf He]. rewrite <-He. apply stats_of_run; [|done].
  intros ->. by apply (bool_decide_unpack (MetricsDropped ∉ shared_names)).
Qed.

(** A request that waited 50 microseconds, and was served in a millisecond. *)
Definition web_txn : nrtxn_t := on_status (set_http_x_start 950) (set_txn_name (Some (lit "WebTransaction/Uri/i")) example_txn).

Lemma nr_txn_counted_once_witness : let _ := MergeSort.qsort_r in
  ∃ t' table' l', nr_txn_handle_total_time (Md5.Context 0 0 Md5.init_registers (replicate 64 0)) (Some web_txn) 1200 = Done (Some t') ∧
    unscoped_metrics t' = Some table' ∧ represents table' 2048 l' ∧
    stats_of l' (lit "WebTransaction") = Some (Stats false true 1 1000 0 1000 1000 1000000) ∧
    stats_of l' (lit "WebFrontend/QueueTime") = Some (Stats false true 1 50 50 50 50 2500) ∧
    stats_of l' (lit "Apdex") = Some (Stats true true 1 0 0 500000 500000 0) ∧ stats_of l' (lit "Errors/all") = None.
Proof.
  intros sort. destruct (nr_txn_counted_once (Md5.Context 0 0 Md5.init_registers (replicate 64 0)) web_txn (Root 0 1000 None) (lit "WebTransaction/Uri/i")
    (nrm_table_create 0) 2048 [] 1200) as (t' & table' & l' & E & Em & Hr & _ & Hs); [done|done|done|apply (create_table_spec 0)|text|text|constructor| |].
  - text.
  - assert (shared_after web_txn (lit "WebTransaction/Uri/i") 1000 0 1200 (stats_of []) =
      zip [lit "WebTransaction"; lit "OtherTransaction/all"; lit "WebTransactionTotalTime"; lit "OtherTransactionTotalTime"; lit "HttpDispatcher";
           lit "WebFrontend/QueueTime"; lit "Apdex"; lit "Errors/all"; lit "Errors/allWeb"; lit "Errors/allOther"]
          [Some (Stats false true 1 1000 0 1000 1000 1000000); None; Some (Stats false true 1 1200 1200 1200 1200 1440000); None;
           Some (Stats false true 1 1000 0 1000 1000 1000000); Some (Stats false true 1 50 50 50 50 2500);
           Some (Stats true true 1 0 0 500000 500000 0); None; None; None]) as Ea by (vm_compute; reflexivity).
    cbv zeta in Hs. change (nr_txn_duration (Some web_txn)) with 1000 in Hs.
    change (ExclusiveTime.nr_exclusive_time_calculate (root_exclusive (Root 0 1000 None))).1 with 0 in Hs. rewrite Ea in Hs. clear Ea.
    cbn [zip zip_with] in Hs. rewrite !Forall_cons in Hs. destruct Hs as (H1 & _ & _ & _ & _ & H2 & H3 & H4 & _).
    exists t', table', l'. split_and!; assumption.
Defined.
