(* ===== verification/Flatbuffers.v ===== *)
(** * Flatbuffers: the encoding for the daemon (src/axiom/util_flatbuffers.c)

    A buffer is built back to front: [bytes] is the block from [front] to
    [back], [pos] the offset of the part in use.  [front] is the address of the
    block, since alignment is that of addresses.  Floats are their bits.  An
    assertion that does not hold is [Failed], an access outside of a block
    [Undefined]. *)

From S2P Require Import Prelude CString Buffer Object ObjectParse.
Local Open Scope Z_scope.

Record nr_flatbuffer_t := FB {
  front : Z;
  bytes : list Z;
  pos : Z;
  min_align : Z;
  inside_object : Z;
  object_end : Z;
  vtable : list Z;  (** [vtable_cap] elements *)
  vtable_len : Z;
  vtables : list Z;  (** [vtables_cap] elements *)
  vtables_len : Z }.

Definition VTABLE_METADATA_FIELDS : Z := 2.

(** Where the allocator puts a block of a size; one buffer asks for a size once. *)
Class BlockAddress := block_address : Z → Z.

Implicit Types fb : nr_flatbuffer_t.

Definition set_block fb (front : Z) (bytes : list Z) (pos : Z) : nr_flatbuffer_t :=
  FB front bytes pos (min_align fb) (inside_object fb) (object_end fb) (vtable fb) (vtable_len fb) (vtables fb) (vtables_len fb).
Definition set_min_align fb (a : Z) : nr_flatbuffer_t :=
  FB (front fb) (bytes fb) (pos fb) a (inside_object fb) (object_end fb) (vtable fb) (vtable_len fb) (vtables fb) (vtables_len fb).
Definition set_object fb (a inside oend : Z) (vt : list Z) (n : Z) : nr_flatbuffer_t :=
  FB (front fb) (bytes fb) (pos fb) a inside oend vt n (vtables fb) (vtables_len fb).
Definition set_vtable fb (vt : list Z) (n : Z) : nr_flatbuffer_t :=
  set_object fb (min_align fb) (inside_object fb) (object_end fb) vt n.
Definition set_vtables fb (vts : list Z) (n : Z) : nr_flatbuffer_t :=
  FB (front fb) (bytes fb) (pos fb) (min_align fb) (inside_object fb) (object_end fb) (vtable fb) (vtable_len fb) vts n.

(** ** Reading *)
Definition byte_at (buf : list Z) (i : Z) : outcome Z :=
  if (0 <=? i) && (i <? Z.of_nat (length buf)) then Done (char_at buf i) else Undefined.

Definition int8_of (x : Z) : Z := let y := x mod 2 ^ 8 in if y <? 2 ^ 7 then y else y - 2 ^ 8.
Definition int16_of (x : Z) : Z := let y := x mod 2 ^ 16 in if y <? 2 ^ 15 then y else y - 2 ^ 16.

Definition nr_flatbuffers_read_i8 (buf : list Z) (offset : Z) : outcome Z :=
  b ← byte_at buf offset; Done (int8_of b).

Definition nr_flatbuffers_read_i16 (buf : list Z) (offset : Z) : outcome Z :=
  b0 ← byte_at buf offset; b1 ← byte_at buf (offset + 1);
  let x := int16_of (Z.lor 0 b0) in
  Done (int16_of (Z.lor x (Z.shiftl b1 8))).

Definition nr_flatbuffers_read_i32 (buf : list Z) (offset : Z) : outcome Z :=
  b0 ← byte_at buf offset; b1 ← byte_at buf (offset + 1);
  b2 ← byte_at buf (offset + 2); b3 ← byte_at buf (offset + 3);
  let x := Z.lor 0 b0 in
  let x := Z.lor x (Z.shiftl b1 8) in
  let x := Z.lor x (Z.shiftl b2 16) in
  let x := Z.lor x (int_of (Z.shiftl b3 24)) in
  Done x.

Definition nr_flatbuffers_read_i64 (buf : list Z) (offset : Z) : outcome Z :=
  b0 ← byte_at buf offset; b1 ← byte_at buf (offset + 1);
  b2 ← byte_at buf (offset + 2); b3 ← byte_at buf (offset + 3);
  b4 ← byte_at buf (offset + 4); b5 ← byte_at buf (offset + 5);
  b6 ← byte_at buf (offset + 6); b7 ← byte_at buf (offset + 7);
  let x := Z.lor 0 b0 in
  let x := Z.lor x (Z.shiftl b1 8) in
  let x := Z.lor x (Z.shiftl b2 16) in
  let x := Z.lor x (Z.shiftl b3 24) in
  let x := Z.lor x (Z.shiftl b4 32) in
  let x := Z.lor x (Z.shiftl b5 40) in
  let x := Z.lor x (Z.shiftl b6 48) in
  let x := Z.lor x (long_of (Z.shiftl b7 56)) in
  Done x.

Definition nr_flatbuffers_read_u8 (buf : list Z) (offset : Z) : outcome Z := byte_at buf offset.

Definition nr_flatbuffers_read_u16 (buf : list Z) (offset : Z) : outcome Z :=
  b0 ← byte_at buf offset; b1 ← byte_at buf (offset + 1);
  let x := Z.lor 0 b0 in
  let x := Z.lor x (Z.shiftl b1 8) in
  Done x.

Definition nr_flatbuffers_read_u32 (buf : list Z) (offset : Z) : outcome Z :=
  b0 ← byte_at buf offset; b1 ← byte_at buf (offset + 1);
  b2 ← byte_at buf (offset + 2); b3 ← byte_at buf (offset + 3);
  let x := Z.lor 0 b0 in
  let x := Z.lor x (Z.shiftl b1 8) in
  let x := Z.lor x (Z.shiftl b2 16) in
  let x := Z.lor x (Z.shiftl b3 24) in
  Done x.

Definition nr_flatbuffers_read_u64 (buf : list Z) (offset : Z) : outcome Z :=
  b0 ← byte_at buf offset; b1 ← byte_at buf (offset + 1);
  b2 ← byte_at buf (offset + 2); b3 ← byte_at buf (offset + 3);
  b4 ← byte_at buf (offset + 4); b5 ← byte_at buf (offset + 5);
  b6 ← byte_at buf (offset + 6); b7 ← byte_at buf (offset + 7);
  let x := Z.lor 0 b0 in
  let x := Z.lor x (Z.shiftl b1 8) in
  let x := Z.lor x (Z.shiftl b2 16) in
  let x := Z.lor x (Z.shiftl b3 24) in
  let x := Z.lor x (Z.shiftl b4 32) in
  let x := Z.lor x (Z.shiftl b5 40) in
  let x := Z.lor x (Z.shiftl b6 48) in
  let x := Z.lor x (Z.shiftl b7 56) in
  Done x.

(** The bits that are copied into the float. *)
Definition nr_flatbuffers_read_f32 (buf : list Z) (offset : Z) : outcome Z := nr_flatbuffers_read_u32 buf offset.
Definition nr_flatbuffers_read_f64 (buf : list Z) (offset : Z) : outcome Z := nr_flatbuffers_read_u64 buf offset.

Definition nr_flatbuffers_read_soffset (buf : list Z) (offset : Z) : outcome Z := nr_flatbuffers_read_i32 buf offset.
Definition nr_flatbuffers_read_uoffset (buf : list Z) (offset : Z) : outcome Z := nr_flatbuffers_read_u32 buf offset.
Definition nr_flatbuffers_read_voffset (buf : list Z) (offset : Z) : outcome Z := nr_flatbuffers_read_u16 buf offset.

Definition nr_flatbuffers_read_indirect (buf : list Z) (pos : Z) : outcome Z :=
  x ← nr_flatbuffers_read_u32 buf pos; Done (u32 (x + pos)).

(** ** Writing *)

Definition nr_flatbuffers_create `{BlockAddress} (initial_size : Z) : nr_flatbuffer_t :=
  let fb := FB 0 [] 0 1 0 0 [] 0 (replicate 16 0) 0 in
  if 0 <? initial_size then set_block fb (block_address initial_size) (replicate (Z.to_nat initial_size) 0) initial_size else fb.

(** The bytes in use, and how many they are. *)
Definition nr_flatbuffers_data (fb : option nr_flatbuffer_t) : option (list Z) :=
  match fb with Some fb => Some (drop (Z.to_nat (pos fb)) (bytes fb)) | None => None end.
Definition len fb : Z := Z.of_nat (length (bytes fb)) - pos fb.
Definition nr_flatbuffers_len (fb : option nr_flatbuffer_t) : Z :=
  match fb with Some fb => len fb | None => 0 end.

(** [fb->pos -= n] and a write of the [n] bytes there. *)
Definition put_bytes fb (bs : list Z) : outcome nr_flatbuffer_t :=
  let p := pos fb - Z.of_nat (length bs) in
  if p <? 0 then Undefined
  else Done (set_block fb (front fb) (take (Z.to_nat p) (bytes fb) ++ bs ++ drop (Z.to_nat (pos fb)) (bytes fb)) p).

Definition nr_flatbuffers_pad fb (n : Z) : outcome nr_flatbuffer_t := put_bytes fb (replicate (Z.to_nat n) 0).

Section growing.
Context `{BlockAddress}.

Definition nr_flatbuffers_grow fb : outcome nr_flatbuffer_t :=
  let old_size := Z.of_nat (length (bytes fb)) in
  if negb (Z.land old_size 3221225472 =? 0) then Failed
  else
    let new_size := if old_size * 2 =? 0 then 1 else old_size * 2 in
    let used := len fb in
    Done (set_block fb (block_address new_size)
            (replicate (Z.to_nat (new_size - used)) 0 ++ take (Z.to_nat used) (drop (Z.to_nat (pos fb)) (bytes fb)))
            (new_size - used)).

(** [while ((size_t)(fb->pos - fb->front) <= (2 * size) + additional_bytes)] *)
Fixpoint prep_loop (fuel : nat) fb (size additional_bytes : Z) : outcome nr_flatbuffer_t :=
  if pos fb <=? u64 (2 * size + additional_bytes) then
    match fuel with
    | O => OutOfFuel
    | S fuel => fb ← nr_flatbuffers_grow fb; prep_loop fuel fb size additional_bytes
    end
  else Done fb.

Definition nr_flatbuffers_prep fb (size additional_bytes : Z) : outcome nr_flatbuffer_t :=
  let fb := if min_align fb <? size then set_min_align fb size else fb in
  fb ← prep_loop 64 fb size additional_bytes;
  if size =? 0 then Undefined
  else nr_flatbuffers_pad fb (u64 (front fb + pos fb - additional_bytes - size) mod size).

Definition nr_flatbuffers_put_u8 fb (x : Z) := put_bytes fb [uint8 x].
Definition nr_flatbuffers_put_u16 fb (x : Z) := put_bytes fb [uint8 x; uint8 (Z.shiftr x 8)].
Definition nr_flatbuffers_put_u32 fb (x : Z) :=
  put_bytes fb [uint8 x; uint8 (Z.shiftr x 8); uint8 (Z.shiftr x 16); uint8 (Z.shiftr x 24)].
Definition nr_flatbuffers_put_u64 fb (x : Z) :=
  put_bytes fb [uint8 x; uint8 (Z.shiftr x 8); uint8 (Z.shiftr x 16); uint8 (Z.shiftr x 24);
                uint8 (Z.shiftr x 32); uint8 (Z.shiftr x 40); uint8 (Z.shiftr x 48); uint8 (Z.shiftr x 56)].
Definition nr_flatbuffers_put_i8 fb (x : Z) := put_bytes fb [uint8 x].
Definition nr_flatbuffers_put_i16 fb (x : Z) := put_bytes fb [uint8 x; uint8 (Z.shiftr x 8)].

(** The bytes that it writes at [p]. *)
Definition nr_flatbuffers_encode_i32 (x : Z) : list Z :=
  [uint8 x; uint8 (Z.shiftr x 8); uint8 (Z.shiftr x 16); uint8 (Z.shiftr x 24)].

Definition nr_flatbuffers_put_i32 fb (x : Z) :=
  put_bytes fb [uint8 x; uint8 (Z.shiftr x 8); uint8 (Z.shiftr x 16); uint8 (Z.shiftr x 24)].
Definition nr_flatbuffers_put_i64 fb (x : Z) :=
  put_bytes fb [uint8 x; uint8 (Z.shiftr x 8); uint8 (Z.shiftr x 16); uint8 (Z.shiftr x 24);
                uint8 (Z.shiftr x 32); uint8 (Z.shiftr x 40); uint8 (Z.shiftr x 48); uint8 (Z.shiftr x 56)].
Definition nr_flatbuffers_put_f32 fb (n : Z) :=
  put_bytes fb [uint8 n; uint8 (Z.shiftr n 8); uint8 (Z.shiftr n 16); uint8 (Z.shiftr n 24)].
Definition nr_flatbuffers_put_f64 fb (n : Z) :=
  put_bytes fb [uint8 n; uint8 (Z.shiftr n 8); uint8 (Z.shiftr n 16); uint8 (Z.shiftr n 24);
                uint8 (Z.shiftr n 32); uint8 (Z.shiftr n 40); uint8 (Z.shiftr n 48); uint8 (Z.shiftr n 56)].

(** The macro: [size] is [sizeof(TYPE)], [put] the function of the suffix. *)
Definition NR_FLATBUFFERS_PREPEND (size : Z) (put : nr_flatbuffer_t → Z → outcome nr_flatbuffer_t) fb (x : Z) :=
  fb ← nr_flatbuffers_prep fb size 0; put fb x.

Definition nr_flatbuffers_prepend_i8 := NR_FLATBUFFERS_PREPEND 1 nr_flatbuffers_put_i8.
Definition nr_flatbuffers_prepend_i16 := NR_FLATBUFFERS_PREPEND 2 nr_flatbuffers_put_i16.
Definition nr_flatbuffers_prepend_i32 := NR_FLATBUFFERS_PREPEND 4 nr_flatbuffers_put_i32.
Definition nr_flatbuffers_prepend_i64 := NR_FLATBUFFERS_PREPEND 8 nr_flatbuffers_put_i64.
Definition nr_flatbuffers_prepend_u8 := NR_FLATBUFFERS_PREPEND 1 nr_flatbuffers_put_u8.
Definition nr_flatbuffers_prepend_u16 := NR_FLATBUFFERS_PREPEND 2 nr_flatbuffers_put_u16.
Definition nr_flatbuffers_prepend_u32 := NR_FLATBUFFERS_PREPEND 4 nr_flatbuffers_put_u32.
Definition nr_flatbuffers_prepend_u64 := NR_FLATBUFFERS_PREPEND 8 nr_flatbuffers_put_u64.
Definition nr_flatbuffers_prepend_f32 := NR_FLATBUFFERS_PREPEND 4 nr_flatbuffers_put_f32.
Definition nr_flatbuffers_prepend_f64 := NR_FLATBUFFERS_PREPEND 8 nr_flatbuffers_put_f64.

Definition nr_flatbuffers_prepend_bool fb (x : Z) : outcome nr_flatbuffer_t :=
  fb ← nr_flatbuffers_prep fb 1 0; nr_flatbuffers_put_u8 fb (if negb (x =? 0) then 1 else 0).

Definition nr_flatbuffers_prepend_uoffset fb (offset : Z) : outcome nr_flatbuffer_t :=
  fb ← nr_flatbuffers_prep fb 4 0;
  if negb (offset <=? len fb) then Failed
  else nr_flatbuffers_put_u32 fb (u32 (len fb - offset + 4)).

Definition nr_flatbuffers_vector_begin fb (elem_size num_elems alignment : Z) : outcome nr_flatbuffer_t :=
  let size := u64 (elem_size * num_elems) in
  fb ← nr_flatbuffers_prep fb 4 size; nr_flatbuffers_prep fb alignment size.

Definition nr_flatbuffers_vector_end fb (num_elems : Z) : outcome (Z * nr_flatbuffer_t) :=
  fb ← nr_flatbuffers_put_u32 fb (u32 num_elems); Done (u32 (len fb), fb).

Definition nr_flatbuffers_prepend_string fb (s : option (list Z)) : outcome (Z * nr_flatbuffer_t) :=
  match s with
  | None => Done (0, fb)
  | Some str =>
      let len := nr_strlen s in
      fb ← nr_flatbuffers_prep fb 4 (len + 1);
      fb ← put_bytes fb (cstr str ++ [0]);
      nr_flatbuffers_vector_end fb len
  end.

(** [src] is the memory at the pointer. *)
Definition nr_flatbuffers_prepend_bytes fb (src : list Z) (len : Z) : outcome (Z * nr_flatbuffer_t) :=
  fb ← nr_flatbuffers_prep fb 4 len;
  if Z.of_nat (length src) <? len then Undefined
  else fb ← put_bytes fb (take (Z.to_nat len) src); nr_flatbuffers_vector_end fb len.

(** ** Objects *)

(** [fb->vtable[i] = x] *)
Definition set_field fb (i x : Z) : outcome nr_flatbuffer_t :=
  if (0 <=? i) && (i <? Z.of_nat (length (vtable fb)))
  then Done (set_vtable fb (<[Z.to_nat i:=x]> (vtable fb)) (vtable_len fb)) else Undefined.

Definition nr_flatbuffers_object_begin (fb : option nr_flatbuffer_t) (num_fields : Z) : option nr_flatbuffer_t * nr_status_t :=
  match fb with
  | None => (None, NR_FAILURE)
  | Some fb =>
      if negb (inside_object fb =? 0) then (Some fb, NR_FAILURE)
      else
        let cap := Z.of_nat (length (vtable fb)) in
        let cap := if cap <? num_fields then num_fields else cap in
        (Some (set_object fb 1 1 (len fb) (replicate (Z.to_nat cap) 0) num_fields), NR_SUCCESS)
  end.

(** The macro: [eq] is [==] of the type. *)
Definition NR_FLATBUFFERS_OBJECT_PREPEND (eq : Z → Z → bool) (prepend : nr_flatbuffer_t → Z → outcome nr_flatbuffer_t)
    fb (i x d : Z) : outcome nr_flatbuffer_t :=
  if negb (eq x d) then fb ← prepend fb x; set_field fb i (u32 (len fb)) else Done fb.

(** [==] of floats, by their bits: the two zeros are equal, not-a-number is not
    equal to itself. *)
Definition float_eqb (ebits mbits : Z) (x y : Z) : bool :=
  let top := 2 ^ (ebits + mbits) in
  let nan v := (2 ^ ebits - 1) * 2 ^ mbits <? v mod top in
  negb (nan x) && negb (nan y) && ((x =? y) || ((x mod top =? 0) && (y mod top =? 0))).

Definition nr_flatbuffers_object_prepend_i8 := NR_FLATBUFFERS_OBJECT_PREPEND Z.eqb nr_flatbuffers_prepend_i8.
Definition nr_flatbuffers_object_prepend_i16 := NR_FLATBUFFERS_OBJECT_PREPEND Z.eqb nr_flatbuffers_prepend_i16.
Definition nr_flatbuffers_object_prepend_i32 := NR_FLATBUFFERS_OBJECT_PREPEND Z.eqb nr_flatbuffers_prepend_i32.
Definition nr_flatbuffers_object_prepend_i64 := NR_FLATBUFFERS_OBJECT_PREPEND Z.eqb nr_flatbuffers_prepend_i64.
Definition nr_flatbuffers_object_prepend_u8 := NR_FLATBUFFERS_OBJECT_PREPEND Z.eqb nr_flatbuffers_prepend_u8.
Definition nr_flatbuffers_object_prepend_u16 := NR_FLATBUFFERS_OBJECT_PREPEND Z.eqb nr_flatbuffers_prepend_u16.
Definition nr_flatbuffers_object_prepend_u32 := NR_FLATBUFFERS_OBJECT_PREPEND Z.eqb nr_flatbuffers_prepend_u32.
Definition nr_flatbuffers_object_prepend_u64 := NR_FLATBUFFERS_OBJECT_PREPEND Z.eqb nr_flatbuffers_prepend_u64.
Definition nr_flatbuffers_object_prepend_f32 := NR_FLATBUFFERS_OBJECT_PREPEND (float_eqb 8 23) nr_flatbuffers_prepend_f32.
Definition nr_flatbuffers_object_prepend_f64 := NR_FLATBUFFERS_OBJECT_PREPEND (float_eqb 11 52) nr_flatbuffers_prepend_f64.
Definition nr_flatbuffers_object_prepend_uoffset := NR_FLATBUFFERS_OBJECT_PREPEND Z.eqb nr_flatbuffers_prepend_uoffset.

Definition nr_flatbuffers_object_prepend_bool fb (i x d : Z) : outcome nr_flatbuffer_t :=
  let x := if negb (x =? 0) then 1 else 0 in
  let d := if negb (d =? 0) then 1 else 0 in
  if negb (x =? d) then fb ← nr_flatbuffers_prepend_u8 fb x; set_field fb i (u32 (len fb)) else Done fb.

Definition nr_flatbuffers_object_prepend_struct fb (i x d : Z) : outcome nr_flatbuffer_t :=
  if negb (x =? d) then set_field fb i (u32 (len fb)) else Done fb.

Definition nr_flatbuffers_save_vtable fb (vtable_offset : Z) : outcome nr_flatbuffer_t :=
  let cap := Z.of_nat (length (vtables fb)) in
  let vts := if vtables_len fb =? cap then vtables fb ++ replicate (Z.to_nat cap) 0 else vtables fb in
  if vtables_len fb <? Z.of_nat (length vts)
  then Done (set_vtables fb (<[Z.to_nat (vtables_len fb):=vtable_offset]> vts) (vtables_len fb + 1))
  else Undefined.

Definition nr_flatbuffers_vtable_num_fields fb (i : Z) : outcome Z :=
  if i <? vtables_len fb then
    let offset := u64 (len fb - char_at (vtables fb) i) in
    size ← nr_flatbuffers_read_u16 (drop (Z.to_nat (pos fb)) (bytes fb)) offset;
    let size := u64 (size - VTABLE_METADATA_FIELDS * 2) in
    Done (int_of (size / 2))
  else Done 0.

Definition nr_flatbuffers_vtable_field fb (i j : Z) : outcome Z :=
  let offset := u64 (len fb - char_at (vtables fb) i) in
  let offset := offset + VTABLE_METADATA_FIELDS * 2 in
  let offset := offset + j * 2 in
  nr_flatbuffers_read_u16 (drop (Z.to_nat (pos fb)) (bytes fb)) offset.

(** The loop over the fields from [i]; [fields] are those of the current object. *)
Fixpoint match_loop fb (vtable_idx i : Z) (fields : list Z) : outcome bool :=
  match fields with
  | [] => Done true
  | x :: fields =>
      existing_field ← nr_flatbuffers_vtable_field fb vtable_idx i;
      if negb (existing_field =? x) then Done false else match_loop fb vtable_idx (i + 1) fields
  end.

Definition nr_flatbuffers_match_vtable fb (vtable_idx : Z) : outcome bool :=
  num_fields ← nr_flatbuffers_vtable_num_fields fb vtable_idx;
  if negb (vtable_len fb =? num_fields) then Done false
  else match_loop fb vtable_idx 0 (take (Z.to_nat num_fields) (vtable fb)).

(** [for (i = n - 1; i >= 0; i--)] *)
Fixpoint find_loop fb (n : nat) : outcome Z :=
  match n with
  | O => Done 0
  | S i =>
      m ← nr_flatbuffers_match_vtable fb (Z.of_nat i);
      if m : bool then Done (char_at (vtables fb) (Z.of_nat i)) else find_loop fb i
  end.

Definition nr_flatbuffers_find_existing_vtable fb : outcome Z := find_loop fb (Z.to_nat (vtables_len fb)).

(** The loop that makes the offsets relative to the object. *)
Fixpoint rebase (object_offset : Z) (fields : list Z) : outcome (list Z) :=
  match fields with
  | [] => Done []
  | x :: fields =>
      y ← (if negb (x =? 0) then
             if negb (x <? object_offset) then Failed
             else if negb (object_offset - x <? 65535) then Failed
             else Done (object_offset - x)
           else Done x);
      ys ← rebase object_offset fields;
      Done (y :: ys)
  end.

(** The loop that writes the fields, the last one first. *)
Fixpoint prepend_fields fb (fields : list Z) : outcome nr_flatbuffer_t :=
  match fields with
  | [] => Done fb
  | x :: fields => fb ← prepend_fields fb fields; nr_flatbuffers_prepend_u16 fb (x mod 2 ^ 16)
  end.

(** [nr_flatbuffers_encode_i32 (fb->back - offset, x)] *)
Definition encode_at fb (offset x : Z) : outcome nr_flatbuffer_t :=
  let p := Z.of_nat (length (bytes fb)) - offset in
  if (p <? 0) || (offset <? 4) then Undefined
  else Done (set_block fb (front fb) (take (Z.to_nat p) (bytes fb) ++ nr_flatbuffers_encode_i32 x ++ drop (Z.to_nat (p + 4)) (bytes fb)) (pos fb)).

Definition nr_flatbuffers_prepend_vtable fb : outcome (Z * nr_flatbuffer_t) :=
  fb ← nr_flatbuffers_prepend_i32 fb 0;
  let object_offset := u32 (len fb) in
  let n := Z.to_nat (vtable_len fb) in
  fields ← rebase object_offset (take n (vtable fb));
  let fb := set_vtable fb (fields ++ drop n (vtable fb)) (vtable_len fb) in
  existing_vtable ← nr_flatbuffers_find_existing_vtable fb;
  fb ← (if existing_vtable =? 0 then
          fb ← prepend_fields fb (take n (vtable fb));
          let object_size := u32 (object_offset - object_end fb) in
          fb ← nr_flatbuffers_prepend_u16 fb (object_size mod 2 ^ 16);
          let vtable_size := u32 ((vtable_len fb + VTABLE_METADATA_FIELDS) * 2) in
          fb ← nr_flatbuffers_prepend_u16 fb (vtable_size mod 2 ^ 16);
          let object_start := u32 (int_of (len fb) - int_of object_offset) in
          fb ← encode_at fb object_offset (int_of object_start);
          nr_flatbuffers_save_vtable fb (u32 (len fb))
        else encode_at fb object_offset (int_of existing_vtable - int_of object_offset));
  Done (object_offset, set_vtable fb (vtable fb) 0).

Definition nr_flatbuffers_object_end (fb : option nr_flatbuffer_t) : outcome (Z * option nr_flatbuffer_t) :=
  match fb with
  | Some fb =>
      if negb (inside_object fb =? 0) then
        r ← nr_flatbuffers_prepend_vtable fb;
        let '(offset, fb) := (r : Z * nr_flatbuffer_t) in
        Done (offset, Some (set_object fb (min_align fb) 0 (object_end fb) (vtable fb) (vtable_len fb)))
      else Done (0, Some fb)
  | None => Done (0, None)
  end.

Definition nr_flatbuffers_finish fb (root_table : Z) : outcome nr_flatbuffer_t :=
  fb ← nr_flatbuffers_prep fb (min_align fb) 4; nr_flatbuffers_prepend_uoffset fb root_table.
End growing.

(** [nr_free] of its blocks, and of the buffer itself. *)
Definition nr_flatbuffers_destroy (fb_ptr : option (option nr_flatbuffer_t)) : option (option nr_flatbuffer_t) :=
  match fb_ptr with
  | Some (Some _) => Some None
  | _ => fb_ptr
  end.

(** ** Tables *)
Record nr_flatbuffers_table_t := Table {
  data : list Z;
  tbl_length : Z;
  offset : Z;
  tbl_vtable : Z;
  vsize : Z }.

Definition nr_flatbuffers_table_init (data : list Z) (len offset : Z) : outcome nr_flatbuffers_table_t :=
  soffset ← nr_flatbuffers_read_soffset data offset;
  let vtable := u64 (offset - soffset) in
  vsize ← nr_flatbuffers_read_u16 data vtable;
  Done (Table data len offset vtable vsize).

Definition nr_flatbuffers_table_init_root (data : list Z) (len : Z) : outcome nr_flatbuffers_table_t :=
  offset ← nr_flatbuffers_read_uoffset data 0; nr_flatbuffers_table_init data len offset.

Definition nr_flatbuffers_table_lookup (tbl : nr_flatbuffers_table_t) (i : Z) : outcome Z :=
  let off := u64 (2 * (VTABLE_METADATA_FIELDS + i)) in
  if vsize tbl <=? off then Done 0
  else
    field ← nr_flatbuffers_read_voffset (data tbl) (tbl_vtable tbl + off);
    if field =? 0 then Done 0
    else Done (u32 (field + offset tbl)).

(** The offset that the field holds, relative to itself, as an absolute one. *)
Definition follow (tbl : nr_flatbuffers_table_t) (absolute : Z) : outcome Z :=
  o ← nr_flatbuffers_read_uoffset (data tbl) absolute; Done (u32 (absolute + o)).

Definition nr_flatbuffers_table_read_vector (tbl : nr_flatbuffers_table_t) (i : Z) : outcome Z :=
  absolute ← nr_flatbuffers_table_lookup tbl i;
  if negb (absolute =? 0) then
    absolute ← follow tbl absolute;
    Done (u32 (absolute + 4))
  else Done absolute.

Definition nr_flatbuffers_table_read_vector_len (tbl : nr_flatbuffers_table_t) (i : Z) : outcome Z :=
  absolute ← nr_flatbuffers_table_lookup tbl i;
  if negb (absolute =? 0) then
    absolute ← follow tbl absolute;
    nr_flatbuffers_read_uoffset (data tbl) absolute
  else Done 0.

(** A pointer into the data as an offset, [None] for [NULL]. *)
Definition nr_flatbuffers_table_read_bytes (tbl : nr_flatbuffers_table_t) (i : Z) : outcome (option Z) :=
  absolute ← nr_flatbuffers_table_lookup tbl i;
  if negb (absolute =? 0) then
    absolute ← follow tbl absolute;
    n ← nr_flatbuffers_read_uoffset (data tbl) absolute;
    if n =? 0 then Done None
    else Done (Some (absolute + 4))
  else Done None.

Definition nr_flatbuffers_table_read_str (tbl : nr_flatbuffers_table_t) (i : Z) : outcome (option Z) :=
  nr_flatbuffers_table_read_bytes tbl i.

(** The table is initialised when the result is 1. *)
Definition nr_flatbuffers_table_read_union (parent : nr_flatbuffers_table_t) (i : Z) : outcome (Z * option nr_flatbuffers_table_t) :=
  absolute ← nr_flatbuffers_table_lookup parent i;
  if negb (absolute =? 0) then
    absolute ← follow parent absolute;
    child ← nr_flatbuffers_table_init (data parent) (tbl_length parent) absolute;
    Done (1, Some child)
  else Done (0, None).

Definition FLATBUFFERS_TABLE_READ (read : list Z → Z → outcome Z) (tbl : nr_flatbuffers_table_t) (i d : Z) : outcome Z :=
  o ← nr_flatbuffers_table_lookup tbl i;
  if negb (o =? 0) then read (data tbl) o
  else Done d.

Definition nr_flatbuffers_table_read_i8 := FLATBUFFERS_TABLE_READ nr_flatbuffers_read_i8.
Definition nr_flatbuffers_table_read_i16 := FLATBUFFERS_TABLE_READ nr_flatbuffers_read_i16.
Definition nr_flatbuffers_table_read_i32 := FLATBUFFERS_TABLE_READ nr_flatbuffers_read_i32.
Definition nr_flatbuffers_table_read_i64 := FLATBUFFERS_TABLE_READ nr_flatbuffers_read_i64.
Definition nr_flatbuffers_table_read_u8 := FLATBUFFERS_TABLE_READ nr_flatbuffers_read_u8.
Definition nr_flatbuffers_table_read_u16 := FLATBUFFERS_TABLE_READ nr_flatbuffers_read_u16.
Definition nr_flatbuffers_table_read_u32 := FLATBUFFERS_TABLE_READ nr_flatbuffers_read_u32.
Definition nr_flatbuffers_table_read_u64 := FLATBUFFERS_TABLE_READ nr_flatbuffers_read_u64.
Definition nr_flatbuffers_table_read_f32 := FLATBUFFERS_TABLE_READ nr_flatbuffers_read_f32.
Definition nr_flatbuffers_table_read_f64 := FLATBUFFERS_TABLE_READ nr_flatbuffers_read_f64.

Definition nr_flatbuffers_table_read_bool (tbl : nr_flatbuffers_table_t) (i d : Z) : outcome Z :=
  x ← nr_flatbuffers_table_read_u8 tbl i (if negb (d =? 0) then 1 else 0); Done (if negb (x =? 0) then 1 else 0).
