(* ===== verification/FlatbuffersSpec.v ===== *)
(** * FlatbuffersSpec: what each operation of a flatbuffer does to its contents

    The bytes in use only ever get more at the front, so a place is named by its
    distance from the end.  A table is described by the places of its fields;
    the description stays true when more is written. *)

From S2P Require Import Prelude CString Buffer Object ObjectParse Flatbuffers.
Local Open Scope Z_scope.

(** ** Little-endian numbers *)
Fixpoint le (n : nat) (x : Z) : list Z :=
  match n with O => [] | S n => x mod 256 :: le n (x / 256) end.
Fixpoint of_le (bs : list Z) : Z :=
  match bs with [] => 0 | b :: bs => b + 256 * of_le bs end.
(** A number of [w] bits as a signed one. *)
Definition signed (w x : Z) : Z := let y := x mod 2 ^ w in if y <? 2 ^ (w - 1) then y else y - 2 ^ w.

Lemma length_le n x : length (le n x) = n.
Proof. revert x. induction n as [|n IH]; intros x; cbn [le length]; [done|]. by rewrite IH. Qed.

Lemma le_is_bytes n x : Forall is_byte (le n x).
Proof.
  revert x. induction n as [|n IH]; intros x; cbn [le]; constructor; [|done]. apply Z.mod_pos_bound. lia.
Qed.

Lemma of_le_le n x : of_le (le n x) = x mod 256 ^ Z.of_nat n.
Proof.
  revert x. induction n as [|n IH]; intros x; cbn [le of_le]; [by rewrite Z.mod_1_r|].
  rewrite IH, Nat2Z.inj_succ, Z.pow_succ_r by lia. rewrite Z.rem_mul_r by lia. lia.
Qed.

Lemma signed_id w x : 0 < w → - 2 ^ (w - 1) ≤ x < 2 ^ (w - 1) → signed w x = x.
Proof.
  intros Hw Hx. assert (2 ^ w = 2 * 2 ^ (w - 1)) as E by (rewrite <-Z.pow_succ_r by lia; f_equal; lia).
  unfold signed. rewrite E. set (h := 2 ^ (w - 1)) in *. destruct (Z.ltb_spec x 0).
  - replace (x mod (2 * h)) with (x + 2 * h); [bool_cases|]. apply Z.mod_unique with (-1); lia.
  - rewrite Z.mod_small by lia. bool_cases.
Qed.

Lemma put_le1 x : [uint8 x] = le 1 x.
Proof. done. Qed.
Lemma put_le2 x : [uint8 x; uint8 (Z.shiftr x 8)] = le 2 x.
Proof. unfold uint8. by rewrite !Z.shiftr_div_pow2. Qed.
Lemma put_le4 x : [uint8 x; uint8 (Z.shiftr x 8); uint8 (Z.shiftr x 16); uint8 (Z.shiftr x 24)] = le 4 x.
Proof. unfold uint8. cbn [le]. rewrite !Z.shiftr_div_pow2, !Z.div_div by lia. done. Qed.
Lemma put_le8 x :
  [uint8 x; uint8 (Z.shiftr x 8); uint8 (Z.shiftr x 16); uint8 (Z.shiftr x 24);
   uint8 (Z.shiftr x 32); uint8 (Z.shiftr x 40); uint8 (Z.shiftr x 48); uint8 (Z.shiftr x 56)] = le 8 x.
Proof. unfold uint8. cbn [le]. rewrite !Z.shiftr_div_pow2, !Z.div_div by lia. done. Qed.

(** ** Places

    [located c o bs]: the bytes are in [c], [o] bytes before its end. *)
Definition located (c : list Z) (o : Z) (bs : list Z) : Prop :=
  ∃ a b, c = a ++ bs ++ b ∧ o = Z.of_nat (length (bs ++ b)).

Lemma located_app p c o bs : located c o bs → located (p ++ c) o bs.
Proof. intros (a & b & -> & ->). exists (p ++ a), b. by rewrite <-app_assoc. Qed.

Lemma located_front bs c : located (bs ++ c) (Z.of_nat (length (bs ++ c))) bs.
Proof. by exists [], c. Qed.

Lemma located_bound c o bs : located c o bs → Z.of_nat (length bs) ≤ o ≤ Z.of_nat (length c).
Proof. intros (a & b & -> & ->). rewrite !length_app. lia. Qed.

Lemma located_prefix c o x y : located c o (x ++ y) → located c o x.
Proof. intros (a & b & -> & ->). exists a, (y ++ b). by rewrite <-!app_assoc. Qed.

Lemma located_suffix c o x y : located c o (x ++ y) → located c (o - Z.of_nat (length x)) y.
Proof.
  intros (a & b & -> & ->). exists (a ++ x), b. split; [by rewrite <-!app_assoc|]. rewrite !length_app. lia.
Qed.

Lemma located_byte c o bs k : located c o bs → 0 ≤ k < Z.of_nat (length bs) →
  byte_at c (Z.of_nat (length c) - o + k) = Done (char_at bs k).
Proof.
  intros (a & b & -> & ->) Hk. unfold byte_at, char_at. rewrite !length_app.
  destruct (_ && _) eqn:E; [|lia]. do 2 f_equal.
  rewrite lookup_app_r by lia. rewrite lookup_app_l by lia. f_equal. lia.
Qed.

(** The bytes of a number at its place are the number. *)
Ltac read_bytes H := 
  repeat match type of H with
  | located ?c ?o ?bs =>
    match goal with
    | |- context [byte_at c (Z.of_nat (length c) - o + ?k)] => rewrite (located_byte c o bs k H) by (cbn; lia)
    | |- context [byte_at c (Z.of_nat (length c) - o)] =>
        replace (byte_at c (Z.of_nat (length c) - o)) with (byte_at c (Z.of_nat (length c) - o + 0)) by (f_equal; lia)
    end
  end; cbn [mbind outcome_bind].

Ltac join_bytes :=
  rewrite Z.lor_0_l, !Z.shiftl_mul_pow2 by lia; unfold is_byte in *;
  do 8 try match goal with |- context [Z.lor ?x (?b * 2 ^ ?k)] =>
    lazymatch x with context [Z.lor] => fail | _ => rewrite (lor_add_shift x b k) by lia end end; cbn [of_le].

Section readers.
Context (c : list Z) (o : Z).
Local Abbreviation at_o := (Z.of_nat (length c) - o).

Lemma bytes_ind2 (P : list Z → Prop) bs : length bs = 2%nat → Forall is_byte bs →
  (∀ b0 b1, is_byte b0 → is_byte b1 → P [b0; b1]) → P bs.
Proof.
  intros Hl Hb HP. destruct bs as [|b0 [|b1 [|]]]; try done. rewrite !Forall_cons in Hb. naive_solver.
Qed.
Lemma bytes_ind4 (P : list Z → Prop) bs : length bs = 4%nat → Forall is_byte bs →
  (∀ b0 b1 b2 b3, is_byte b0 → is_byte b1 → is_byte b2 → is_byte b3 → P [b0; b1; b2; b3]) → P bs.
Proof.
  intros Hl Hb HP. destruct bs as [|b0 [|b1 [|b2 [|b3 [|]]]]]; try done. rewrite !Forall_cons in Hb. naive_solver.
Qed.
Lemma bytes_ind8 (P : list Z → Prop) bs : length bs = 8%nat → Forall is_byte bs →
  (∀ b0 b1 b2 b3 b4 b5 b6 b7, is_byte b0 → is_byte b1 → is_byte b2 → is_byte b3 →
     is_byte b4 → is_byte b5 → is_byte b6 → is_byte b7 → P [b0; b1; b2; b3; b4; b5; b6; b7]) → P bs.
Proof.
  intros Hl Hb HP. destruct bs as [|b0 [|b1 [|b2 [|b3 [|b4 [|b5 [|b6 [|b7 [|]]]]]]]]]; try done.
  rewrite !Forall_cons in Hb. naive_solver.
Qed.

Lemma of_le_range bs : Forall is_byte bs → 0 ≤ of_le bs < 256 ^ Z.of_nat (length bs).
Proof.
  induction 1 as [|b bs Hb _ IH]; cbn [of_le length]; [done|]. unfold is_byte in Hb.
  rewrite Nat2Z.inj_succ, Z.pow_succ_r by lia. lia.
Qed.

(** The C code that joins the bytes of a number. *)
Ltac joined H :=
  read_bytes H; unfold char_at; simpl; f_equal; join_bytes; lia.

Lemma read_u8_at bs : length bs = 1%nat → Forall is_byte bs → located c o bs → nr_flatbuffers_read_u8 c at_o = Done (of_le bs).
Proof.
  intros Hl Hb H. destruct bs as [|b [|]]; try done. unfold nr_flatbuffers_read_u8. read_bytes H. simpl. f_equal. unfold char_at. simpl. lia.
Qed.

Lemma read_u16_at bs : length bs = 2%nat → Forall is_byte bs → located c o bs → nr_flatbuffers_read_u16 c at_o = Done (of_le bs).
Proof.
  intros Hl Hb. pattern bs. apply bytes_ind2; [done|done|]. intros b0 b1 ?? H. unfold nr_flatbuffers_read_u16. joined H.
Qed.

Lemma read_u32_at bs : length bs = 4%nat → Forall is_byte bs → located c o bs → nr_flatbuffers_read_u32 c at_o = Done (of_le bs).
Proof.
  intros Hl Hb. pattern bs. apply bytes_ind4; [done|done|]. intros b0 b1 b2 b3 ???? H. unfold nr_flatbuffers_read_u32. joined H.
Qed.

Lemma read_u64_at bs : length bs = 8%nat → Forall is_byte bs → located c o bs → nr_flatbuffers_read_u64 c at_o = Done (of_le bs).
Proof.
  intros Hl Hb. pattern bs. apply bytes_ind8; [done|done|]. intros b0 b1 b2 b3 b4 b5 b6 b7 ???????? H.
  unfold nr_flatbuffers_read_u64. joined H.
Qed.

Lemma read_i8_at bs : length bs = 1%nat → Forall is_byte bs → located c o bs → nr_flatbuffers_read_i8 c at_o = Done (signed 8 (of_le bs)).
Proof.
  intros Hl Hb H. destruct bs as [|b [|]]; try done. unfold nr_flatbuffers_read_i8. read_bytes H. unfold char_at. simpl.
  change int8_of with (signed 8). do 2 f_equal. lia.
Qed.

Lemma read_i16_at bs : length bs = 2%nat → Forall is_byte bs → located c o bs → nr_flatbuffers_read_i16 c at_o = Done (signed 16 (of_le bs)).
Proof.
  intros Hl Hb. pattern bs. apply bytes_ind2; [done|done|]. intros b0 b1 H0 H1 H. unfold nr_flatbuffers_read_i16. read_bytes H.
  unfold char_at. simpl. change int16_of with (signed 16). rewrite Z.lor_0_l.
  rewrite (signed_id 16 b0) by (unfold is_byte in *; lia). do 2 f_equal. rewrite <-(Z.lor_0_l b0). join_bytes. lia.
Qed.

(** The top byte, shifted into the sign. *)
Lemma signed_top w x b : 0 ≤ w → 0 ≤ x < 2 ^ w → is_byte b →
  x + signed (w + 8) (b * 2 ^ w) = signed (w + 8) (x + b * 2 ^ w) ∧ signed (w + 8) (b * 2 ^ w) = signed 8 b * 2 ^ w.
Proof.
  intros Hw Hx Hb. unfold is_byte in Hb. unfold signed.
  replace (2 ^ (w + 8)) with (256 * 2 ^ w) by (rewrite Z.pow_add_r by lia; lia).
  replace (2 ^ (w + 8 - 1)) with (128 * 2 ^ w) by (replace (w + 8 - 1) with (w + 7) by lia; rewrite Z.pow_add_r by lia; lia).
  set (p := 2 ^ w) in *. rewrite !(Z.mod_small _ (256 * p)) by nia. rewrite (Z.mod_small b) by lia.
  change (2 ^ (8 - 1)) with 128. bool_cases; nia.
Qed.

Lemma read_i32_at bs : length bs = 4%nat → Forall is_byte bs → located c o bs → nr_flatbuffers_read_i32 c at_o = Done (signed 32 (of_le bs)).
Proof.
  intros Hl Hb. pattern bs. apply bytes_ind4; [done|done|]. intros b0 b1 b2 b3 H0 H1 H2 H3 H. unfold nr_flatbuffers_read_i32.
  read_bytes H. unfold char_at. simpl. f_equal.
  destruct (signed_top 24 (b0 + b1 * 2 ^ 8 + b2 * 2 ^ 16) b3) as [E1 E2]; [lia|unfold is_byte in *; lia|done|].
  change int_of with (signed (24 + 8)). rewrite (Z.shiftl_mul_pow2 b3), E2 by lia. join_bytes. rewrite <-E2, E1. f_equal. lia.
Qed.

Lemma read_i64_at bs : length bs = 8%nat → Forall is_byte bs → located c o bs → nr_flatbuffers_read_i64 c at_o = Done (signed 64 (of_le bs)).
Proof.
  intros Hl Hb. pattern bs. apply bytes_ind8; [done|done|]. intros b0 b1 b2 b3 b4 b5 b6 b7 H0 H1 H2 H3 H4 H5 H6 H7 H.
  unfold nr_flatbuffers_read_i64. read_bytes H. unfold char_at. simpl. f_equal.
  destruct (signed_top 56 (b0 + b1 * 2 ^ 8 + b2 * 2 ^ 16 + b3 * 2 ^ 24 + b4 * 2 ^ 32 + b5 * 2 ^ 40 + b6 * 2 ^ 48) b7) as [E1 E2];
    [lia|unfold is_byte in *; lia|done|].
  change long_of with (signed (56 + 8)). rewrite (Z.shiftl_mul_pow2 b7), E2 by lia. join_bytes. rewrite <-E2, E1. f_equal. lia.
Qed.
End readers.

(** ** The buffer *)

(** Blocks are aligned for every type. *)
Class BlockAligned `{BlockAddress} : Prop := block_aligned : ∀ n, block_address n mod 8 = 0.

Definition contents fb : list Z := drop (Z.to_nat (pos fb)) (bytes fb).
(** What the writing of bytes leaves alone. *)
Definition object_state fb := (inside_object fb, object_end fb, vtable fb, vtable_len fb, vtables fb, vtables_len fb).

(** Blocks that can hold more than two bytes end at a multiple of four: the
    distance from the end of an aligned place is then aligned too.  Growth keeps
    [inv_size], but [nr_flatbuffers_create] takes any size: it is an assumption
    on the size a buffer is created with (the agent creates empty ones; see
    [create_ready]), and the format is not kept without it. *)
Record fb_inv fb : Prop := {
  inv_pos : 0 ≤ pos fb ≤ Z.of_nat (length (bytes fb));
  inv_bytes : Forall is_byte (bytes fb);
  inv_front : front fb mod 8 = 0;
  inv_size : Z.of_nat (length (bytes fb)) ≤ 2 ∨ Z.of_nat (length (bytes fb)) mod 4 = 0;
  inv_align : 1 ≤ min_align fb }.

(** [fb'] is [fb] with the bytes [p] written at the front. *)
Record extends fb (p : list Z) fb' : Prop := {
  ex_contents : contents fb' = p ++ contents fb;
  ex_inv : fb_inv fb';
  ex_state : object_state fb' = object_state fb;
  ex_align : min_align fb' ≤ Z.max 8 (min_align fb) }.

Lemma len_contents fb : fb_inv fb → len fb = Z.of_nat (length (contents fb)).
Proof. intros [Hp _ _ _ _]. unfold len, contents. rewrite length_drop. lia. Qed.

Lemma contents_bytes fb : fb_inv fb → Forall is_byte (contents fb).
Proof. intros Hi. apply Forall_drop, Hi. Qed.

Lemma extends_refl fb : fb_inv fb → extends fb [] fb.
Proof. intros Hi. split; [done..|lia]. Qed.

Lemma extends_trans fb p fb' q fb'' : extends fb p fb' → extends fb' q fb'' → extends fb (q ++ p) fb''.
Proof.
  intros [Hc _ Hs Ha] [Hc' Hi' Hs' Ha']. split; [by rewrite Hc', Hc, app_assoc|done|congruence|lia].
Qed.

Lemma extends_len fb p fb' : fb_inv fb → extends fb p fb' → len fb' = len fb + Z.of_nat (length p).
Proof. intros Hi [Hc Hi' _ _]. rewrite !len_contents, Hc, length_app by done. lia. Qed.

Lemma put_bytes_spec fb bs : fb_inv fb → Forall is_byte bs → Z.of_nat (length bs) ≤ pos fb →
  ∃ fb', put_bytes fb bs = Done fb' ∧ extends fb bs fb' ∧ pos fb' = pos fb - Z.of_nat (length bs) ∧
    length (bytes fb') = length (bytes fb) ∧ front fb' = front fb.
Proof.
  intros [Hp Hb Hf Hs Ha] Hbs Hl. unfold put_bytes. bool_cases. eexists. split; [done|].
  set (p := pos fb - _) in *.
  assert (length (take (Z.to_nat p) (bytes fb) ++ bs ++ drop (Z.to_nat (pos fb)) (bytes fb)) = length (bytes fb)) as El.
  { rewrite !length_app, length_take, length_drop. lia. }
  split; [|done]. split; [| |done|cbn; lia].
  - unfold contents. cbn [pos bytes set_block]. rewrite drop_app_length'; [done|]. rewrite length_take. lia.
  - split; cbn [pos bytes set_block front min_align]; rewrite ?El; try done; [lia|].
    rewrite !Forall_app. split_and!; [by apply Forall_take|done|by apply Forall_drop].
Qed.

Lemma land_high x : 0 ≤ x < 2 ^ 30 → Z.land x 3221225472 = 0.
Proof.
  intros Hx. pose proof (Z.add_lor_land x (3 * 2 ^ 30)) as E. rewrite (lor_add_shift x 3 30) in E by lia.
  change 3221225472 with (3 * 2 ^ 30). lia.
Qed.

Section builder.
Context `{BlockAligned}.

Lemma grow_spec fb : fb_inv fb → Z.of_nat (length (bytes fb)) < 2 ^ 30 →
  ∃ fb', nr_flatbuffers_grow fb = Done fb' ∧ extends fb [] fb' ∧
    Z.of_nat (length (bytes fb')) = Z.max 1 (2 * Z.of_nat (length (bytes fb))).
Proof.
  intros Hi Hl. pose proof Hi as [Hp Hb Hf Hs Ha]. unfold nr_flatbuffers_grow. rewrite land_high by lia. cbn [negb Z.eqb].
  set (n := if _ =? 0 then 1 else _). assert (n = Z.max 1 (2 * Z.of_nat (length (bytes fb)))) as En by (unfold n; bool_cases).
  fold (contents fb). rewrite take_ge by (rewrite len_contents by done; lia).
  pose proof (len_contents fb Hi) as El. assert (len fb ≤ Z.of_nat (length (bytes fb))) by (unfold len; lia).
  eexists. split; [done|].
  assert (Z.of_nat (length (replicate (Z.to_nat (n - len fb)) 0 ++ contents fb)) = n) as Eb.
  { rewrite length_app, length_replicate. lia. }
  split; [split; [| |done|cbn; lia]|cbn [bytes set_block]; lia].
  - unfold contents at 1. cbn [pos bytes set_block]. rewrite drop_app_length'; [done|]. by rewrite length_replicate.
  - split; cbn [pos bytes set_block front min_align]; rewrite ?Eb; [lia| |apply block_aligned|lia|done].
    apply Forall_app. split; [|by apply contents_bytes]. apply Forall_replicate. unfold is_byte. lia.
Qed.

(** Doubling ends within the fuel, before the limit of the size. *)
Lemma prep_loop_spec fuel fb size add : fb_inv fb → 0 ≤ size → 0 ≤ add → len fb + 2 * size + add < 2 ^ 30 →
  (2 ^ 30 ≤ 2 ^ Z.of_nat fuel * Z.of_nat (length (bytes fb)) ∨ 2 ^ 31 ≤ 2 ^ Z.of_nat fuel) →
  ∃ fb', prep_loop fuel fb size add = Done fb' ∧ extends fb [] fb' ∧ 2 * size + add < pos fb'.
Proof.
  revert fb. induction fuel as [|fuel IH]; intros fb Hi Hs Ha Hl Hfuel; cbn [prep_loop]; rewrite u64_small by (unfold len in Hl; pose proof (inv_pos fb Hi); lia).
  - destruct (Z.leb_spec (pos fb) (2 * size + add)).
    + unfold len in Hl. lia.
    + exists fb. split; [done|]. split; [by apply extends_refl|lia].
  - destruct (Z.leb_spec (pos fb) (2 * size + add)).
    2: { exists fb. split; [done|]. split; [by apply extends_refl|lia]. }
    destruct (grow_spec fb Hi) as (fb1 & -> & He & El); [unfold len in Hl; lia|]. cbn [mbind outcome_bind].
    pose proof (extends_len _ _ _ Hi He) as El1. cbn [length] in El1.
    destruct (IH fb1) as (fb2 & -> & He2 & Hp); [by apply He|lia|lia|lia| |].
    + rewrite Nat2Z.inj_succ, Z.pow_succ_r in Hfuel by lia. rewrite El. nia.
    + exists fb2. split; [done|]. split; [|done]. by apply (extends_trans fb [] fb1 [] fb2).
Qed.

Lemma prep_spec fb size add : fb_inv fb → 0 < size ≤ Z.max 8 (min_align fb) → 0 ≤ add → len fb + 2 * size + add < 2 ^ 30 →
  ∃ fb' k, nr_flatbuffers_prep fb size add = Done fb' ∧ extends fb (replicate k 0) fb' ∧ Z.of_nat k < size ∧
    size + add < pos fb' ∧ (size = 1 ∨ size = 2 ∨ size = 4 → (len fb' + add) mod size = 0).
Proof.
  intros Hi Hs Ha Hl. unfold nr_flatbuffers_prep. set (fb0 := if _ <? _ then _ else _).
  assert (extends fb [] fb0) as He0.
  { unfold fb0. destruct (Z.ltb_spec (min_align fb) size); [|by apply extends_refl].
    destruct Hi. split; [done| |done|cbn [set_min_align min_align]; lia]. split; cbn; try done. lia. }
  pose proof (extends_len _ _ _ Hi He0) as El0. cbn [length] in El0.
  destruct (prep_loop_spec 64 fb0 size add) as (fb1 & -> & He1 & Hp); [by apply He0|lia|lia|lia|right; by apply Z.leb_le|].
  cbn [mbind outcome_bind]. destruct (Z.eqb_spec size 0); [lia|].
  pose proof (extends_trans _ _ _ _ _ He0 He1) as He. cbn [app] in He. pose proof (extends_len _ _ _ Hi He) as El. cbn [length] in El.
  set (x := u64 _ mod size). assert (0 ≤ x < size) as Hx by (apply Z.mod_pos_bound; lia).
  unfold nr_flatbuffers_pad. set (k := Z.to_nat x).
  destruct (put_bytes_spec fb1 (replicate k 0)) as (fb2 & -> & He2 & Hp2 & Hb2 & Hf2).
  { apply He. } { apply Forall_replicate. unfold is_byte. lia. } { rewrite length_replicate. lia. }
  rewrite length_replicate in Hp2. exists fb2, k. split; [done|]. split; [|split; [lia|split; [lia|]]].
  - pose proof (extends_trans _ _ _ _ _ He He2) as Hex. by rewrite app_nil_r in Hex.
  - destruct He as [_ [? _ Hf Hz _] _ _]. unfold x, u64 in *. unfold len. rewrite Hb2, Hp2. unfold k.
    intros [->|[->| ->]]; Z.to_euclidean_division_equations; lia.
Qed.

(** A number is written behind at most as much padding as its size. *)
Lemma prepend_spec fb w put : fb_inv fb → (w ≤ 8)%nat → (0 < w)%nat → len fb + 16 < 2 ^ 30 →
  (∀ fb x, put fb x = put_bytes fb (le w x)) → ∀ x,
  ∃ fb' k, NR_FLATBUFFERS_PREPEND (Z.of_nat w) put fb x = Done fb' ∧ extends fb (le w x ++ replicate k 0) fb' ∧ (k < w)%nat ∧
    (w = 1%nat ∨ w = 2%nat ∨ w = 4%nat → len fb' mod Z.of_nat w = 0).
Proof.
  intros Hi Hw Hw0 Hl Hput x. unfold NR_FLATBUFFERS_PREPEND.
  destruct (prep_spec fb (Z.of_nat w) 0) as (fb1 & k & -> & He & Hk & Hp & Hal); [done|lia|lia|lia|]. cbn [mbind outcome_bind].
  rewrite Hput. destruct (put_bytes_spec fb1 (le w x)) as (fb2 & -> & He2 & Hrest); [by apply He|apply le_is_bytes|rewrite length_le; lia|].
  exists fb2, k. split; [done|]. split; [by apply extends_trans with fb1|]. split; [lia|].
  intros Hcase. pose proof (extends_len _ _ _ (ex_inv _ _ _ He) He2) as El. rewrite length_le in El. rewrite El.
  rewrite Z.add_0_r in Hal. rewrite Z.add_mod, Hal, Z.mod_same by lia. done.
Qed.

(** Offsets are stored relative to their own place. *)
Lemma prepend_uoffset_spec fb x : fb_inv fb → len fb + 16 < 2 ^ 30 → 0 ≤ x ≤ len fb →
  ∃ fb' k, nr_flatbuffers_prepend_uoffset fb x = Done fb' ∧ extends fb (le 4 (len fb' - x) ++ replicate k 0) fb' ∧ (k < 4)%nat ∧
    len fb' mod 4 = 0.
Proof.
  intros Hi Hl Hx. unfold nr_flatbuffers_prepend_uoffset.
  destruct (prep_spec fb 4 0) as (fb1 & k & -> & He & Hk & Hp & Hal); [done|lia|lia|lia|]. cbn [mbind outcome_bind].
  pose proof (extends_len _ _ _ Hi He) as El. rewrite length_replicate in El.
  destruct (Z.leb_spec x (len fb1)); [|lia]. cbn [negb]. rewrite u32_small by lia. unfold nr_flatbuffers_put_u32. rewrite put_le4.
  destruct (put_bytes_spec fb1 (le 4 (len fb1 - x + 4))) as (fb2 & -> & He2 & Hrest); [by apply He|apply le_is_bytes|rewrite length_le; lia|].
  pose proof (extends_len _ _ _ (ex_inv _ _ _ He) He2) as El2. rewrite length_le in El2.
  exists fb2, k. split; [done|]. replace (len fb2 - x) with (len fb1 - x + 4) by lia.
  split; [by apply extends_trans with fb1|]. split; [lia|]. rewrite El2. specialize (Hal ltac:(auto)). lia.
Qed.

(** A vector that has been written ends with its length. *)
Lemma vector_end_spec fb n : fb_inv fb → 4 ≤ pos fb → len fb + 4 < 2 ^ 30 → 0 ≤ n < 2 ^ 32 →
  ∃ fb', nr_flatbuffers_vector_end fb n = Done (len fb', fb') ∧ extends fb (le 4 n) fb'.
Proof.
  intros Hi Hp Hl Hn. unfold nr_flatbuffers_vector_end, nr_flatbuffers_put_u32. rewrite put_le4, (u32_small n) by lia.
  destruct (put_bytes_spec fb (le 4 n)) as (fb2 & -> & He2 & _); [done|apply le_is_bytes|rewrite length_le; lia|]. cbn [mbind outcome_bind].
  pose proof (extends_len _ _ _ Hi He2) as El2. rewrite length_le in El2. pose proof (len_contents fb Hi).
  rewrite u32_small by lia. by exists fb2.
Qed.

Lemma prepend_data_spec fb bs add n : fb_inv fb → Forall is_byte bs → add = Z.of_nat (length bs) → len fb + add + 16 < 2 ^ 30 → 0 ≤ n < 2 ^ 32 →
  ∃ fb' k, (fb ← nr_flatbuffers_prep fb 4 add; fb ← put_bytes fb bs; nr_flatbuffers_vector_end fb n) = Done (len fb', fb') ∧
    extends fb (le 4 n ++ bs ++ replicate k 0) fb' ∧ (k < 4)%nat ∧ len fb' mod 4 = 0.
Proof.
  intros Hi Hb -> Hl Hn.
  destruct (prep_spec fb 4 (Z.of_nat (length bs))) as (fb1 & k & -> & He & Hk & Hp & Hal); [done|lia|lia|lia|]. cbn [mbind outcome_bind].
  pose proof (extends_len _ _ _ Hi He) as El. rewrite length_replicate in El.
  destruct (put_bytes_spec fb1 bs) as (fb2 & -> & He2 & Hp2 & _); [by apply He|done|lia|]. cbn [mbind outcome_bind].
  pose proof (extends_len _ _ _ (ex_inv _ _ _ He) He2) as El2.
  destruct (vector_end_spec fb2 n) as (fb3 & -> & He3); [by apply He2|lia|lia|done|].
  pose proof (extends_len _ _ _ (ex_inv _ _ _ He2) He3) as El3. rewrite length_le in El3.
  exists fb3, k. split; [done|]. split; [|split; [lia|]].
  - pose proof (extends_trans _ _ _ _ _ He He2) as He12. exact (extends_trans _ _ _ _ _ He12 He3).
  - rewrite El3, El2. specialize (Hal ltac:(auto)). lia.
Qed.

Lemma prepend_string_spec fb s : fb_inv fb → is_cstr s → len fb + Z.of_nat (length s) + 20 < 2 ^ 30 →
  ∃ fb' k, nr_flatbuffers_prepend_string fb (Some s) = Done (len fb', fb') ∧
    extends fb (le 4 (Z.of_nat (length s)) ++ (s ++ [0]) ++ replicate k 0) fb' ∧ (k < 4)%nat.
Proof.
  intros Hi Hs Hl. unfold nr_flatbuffers_prepend_string. rewrite cstr_id, nr_strlen_cstr by done.
  destruct (prepend_data_spec fb (s ++ [0]) (Z.of_nat (length s) + 1) (Z.of_nat (length s))) as (fb' & k & E & He & Hk & _).
  { done. } { apply Forall_app. split; [|by repeat constructor]. eapply Forall_impl; [exact Hs|]. unfold is_byte. cbn. lia. }
  { rewrite length_app. cbn. lia. } { lia. } { pose proof (len_contents fb Hi). lia. }
  by exists fb', k.
Qed.

Lemma prepend_bytes_spec fb src n : fb_inv fb → Forall is_byte src → 0 ≤ n ≤ Z.of_nat (length src) → len fb + n + 16 < 2 ^ 30 →
  ∃ fb' k, nr_flatbuffers_prepend_bytes fb src n = Done (len fb', fb') ∧
    extends fb (le 4 n ++ take (Z.to_nat n) src ++ replicate k 0) fb' ∧ (k < 4)%nat.
Proof.
  intros Hi Hs Hn Hl. unfold nr_flatbuffers_prepend_bytes.
  destruct (prepend_data_spec fb (take (Z.to_nat n) src) n n) as (fb' & k & E & He & Hk & _).
  { done. } { by apply Forall_take. } { rewrite length_take. lia. } { lia. } { pose proof (len_contents fb Hi). lia. }
  exists fb', k. split; [|done]. destruct (Z.ltb_spec (Z.of_nat (length src)) n); [lia|]. exact E.
Qed.

(** The words of a vtable, written one behind the other: at an even place no
    padding is needed. *)
Definition words (es : list Z) : list Z := es ≫= le 2.

Lemma length_words es : length (words es) = (2 * length es)%nat.
Proof. induction es as [|e es IH]; [done|]. unfold words in *. rewrite bind_cons, length_app, IH, length_le. cbn [length]. lia. Qed.

Lemma prepend_u16_spec fb x : fb_inv fb → len fb mod 2 = 0 → len fb + 16 < 2 ^ 30 →
  ∃ fb', nr_flatbuffers_prepend_u16 fb x = Done fb' ∧ extends fb (le 2 x) fb'.
Proof.
  intros Hi Hm Hl. destruct (prepend_spec fb 2 nr_flatbuffers_put_u16 Hi) with (x := x) as (fb' & k & E & He & Hk & Hal); [lia|lia|lia| |].
  { intros fb0 x0. unfold nr_flatbuffers_put_u16. by rewrite put_le2. }
  exists fb'. split; [exact E|]. specialize (Hal ltac:(auto)). pose proof (extends_len _ _ _ Hi He) as El.
  rewrite length_app, length_le, length_replicate in El. change (Z.of_nat 2) with 2 in Hal.
  assert (k = O) as -> by lia. by rewrite app_nil_r in He.
Qed.

Lemma prepend_fields_spec es fb : fb_inv fb → len fb mod 2 = 0 → len fb + 2 * Z.of_nat (length es) + 16 < 2 ^ 30 → Forall (λ e, 0 ≤ e < 2 ^ 16) es →
  ∃ fb', prepend_fields fb es = Done fb' ∧ extends fb (words es) fb'.
Proof.
  intros Hi Hm. induction es as [|e es IH]; intros Hl Hes; cbn [prepend_fields].
  { exists fb. split; [done|]. by apply extends_refl. }
  rewrite Forall_cons in Hes. destruct Hes as [He Hes]. cbn [length] in Hl.
  destruct IH as (fb1 & -> & Hx); [lia|done|]. cbn [mbind outcome_bind].
  pose proof (extends_len _ _ _ Hi Hx) as El. rewrite length_words in El.
  destruct (prepend_u16_spec fb1 (e mod 2 ^ 16)) as (fb2 & -> & Hx2); [by apply Hx|lia|lia|].
  exists fb2. split; [done|]. rewrite Z.mod_small in Hx2 by done. unfold words. rewrite bind_cons. by apply extends_trans with fb1.
Qed.
End builder.
