(* ===== verification/FlatbuffersTable.v ===== *)
(** * FlatbuffersTable: objects and the tables that read them

    An object is a place of the contents, its fields are places, its vtable may
    be shared with objects that were written before. *)

From S2P Require Import Prelude CString Buffer Object ObjectParse Flatbuffers FlatbuffersSpec.
Local Open Scope Z_scope.

(** The words of the vtable of an object at [off]. *)
Definition rel (off : Z) (F : list Z) : list Z := (λ f, if f =? 0 then 0 else off - f) <$> F.
Definition vtable_bytes (size : Z) (es : list Z) : list Z :=
  words ([2 * (Z.of_nat (length es) + 2); size] ++ es).

(** The vtable at [v]. *)
Definition vtable_at (c : list Z) (v : Z) (es : list Z) : Prop :=
  (∃ size, located c v (vtable_bytes size es)) ∧ Z.of_nat (length es) ≤ 32765 ∧ Forall (λ e, 0 ≤ e < 2 ^ 16) es.

(** The object at [off], with its fields at the places [F], 0 for the ones that
    are not written. *)
Definition table_at (c : list Z) (off : Z) (F : list Z) : Prop :=
  Forall (λ f, f = 0 ∨ 0 < f < off) F ∧
  ∃ v, located c off (le 4 (v - off)) ∧ vtable_at c v (rel off F).

Lemma length_rel off F : length (rel off F) = length F.
Proof. apply length_fmap. Qed.

Lemma vtable_at_app p c v es : vtable_at c v es → vtable_at (p ++ c) v es.
Proof. intros [[size Hl] H]. split; [|done]. exists size. by apply located_app. Qed.

Lemma table_at_app p c off F : table_at c off F → table_at (p ++ c) off F.
Proof. intros (HF & v & Hl & Hv). split; [done|]. exists v. split; [by apply located_app|by apply vtable_at_app]. Qed.

(** ** Reading *)
Lemma word_mod e : 0 ≤ e < 2 ^ 16 → of_le (le 2 e) = e.
Proof. intros He. rewrite of_le_le. by apply Z.mod_small. Qed.

Lemma located_words_cons c o e es : located c o (words (e :: es)) →
  located c o (le 2 e) ∧ located c (o - 2) (words es).
Proof.
  unfold words. rewrite bind_cons. intros Hl. split; [by apply located_prefix in Hl|].
  apply located_suffix in Hl. by rewrite length_le in Hl.
Qed.

Lemma located_words_lookup c es : ∀ o j e, located c o (words es) → es !! j = Some e → located c (o - 2 * Z.of_nat j) (le 2 e).
Proof.
  induction es as [|e' es IH]; intros o j e Hl Hj; [done|]. destruct (located_words_cons _ _ _ _ Hl) as [H1 H2].
  destruct j as [|j]; cbn in Hj.
  - simplify_eq. by replace (o - 2 * Z.of_nat 0) with o by lia.
  - specialize (IH _ _ _ H2 Hj). by replace (o - 2 * Z.of_nat (S j)) with (o - 2 - 2 * Z.of_nat j) by lia.
Qed.

Lemma read_word c o e x : located c o (le 2 e) → 0 ≤ e < 2 ^ 16 → x = Z.of_nat (length c) - o → nr_flatbuffers_read_u16 c x = Done e.
Proof.
  intros Hl He ->. rewrite (read_u16_at c o (le 2 e)) by (done || apply length_le || apply le_is_bytes). by rewrite word_mod.
Qed.

Lemma vtable_size_at c v es x : vtable_at c v es → x = Z.of_nat (length c) - v →
  nr_flatbuffers_read_u16 c x = Done (2 * (Z.of_nat (length es) + 2)).
Proof.
  intros [[size Hl] [Hn _]] ->. unfold vtable_bytes in Hl. cbn [app] in Hl.
  apply located_words_cons in Hl as [Hl _]. eapply read_word; [exact Hl|lia|done].
Qed.

Lemma vtable_word_at c v es j e x : vtable_at c v es → es !! j = Some e → x = Z.of_nat (length c) - v + 4 + 2 * Z.of_nat j →
  nr_flatbuffers_read_u16 c x = Done e.
Proof.
  intros [[size Hl] [Hn He]] Hj ->. unfold vtable_bytes in Hl. cbn [app] in Hl.
  apply located_words_cons in Hl as [_ Hl]. apply located_words_cons in Hl as [_ Hl].
  pose proof (located_words_lookup _ _ _ _ _ Hl Hj) as Hw.
  eapply read_word; [exact Hw|by apply (Forall_lookup_1 _ _ _ _ He Hj)|lia].
Qed.

Lemma vtable_bound c v es : vtable_at c v es → 4 ≤ v ≤ Z.of_nat (length c).
Proof.
  intros [[size Hl] _]. apply located_bound in Hl. unfold vtable_bytes in Hl. rewrite length_words in Hl. cbn [length app] in Hl. lia.
Qed.

Lemma table_bound c off F : table_at c off F → 4 ≤ off ≤ Z.of_nat (length c).
Proof. intros (_ & v & Hl & _). apply located_bound in Hl. by rewrite length_le in Hl. Qed.

(** The table at the object finds each field. *)
Lemma table_init_spec c off F len : table_at c off F → Z.of_nat (length c) < 2 ^ 31 →
  ∃ tbl, nr_flatbuffers_table_init c len (Z.of_nat (length c) - off) = Done tbl ∧ data tbl = c ∧
    ∀ i, 0 ≤ i < 2 ^ 32 → nr_flatbuffers_table_lookup tbl i =
      Done (let f := default 0 (F !! Z.to_nat i) in if f =? 0 then 0 else Z.of_nat (length c) - f).
Proof.
  intros Ht Hc. pose proof (table_bound _ _ _ Ht) as Hoff. destruct Ht as (HF & v & Hl & Hv).
  pose proof (vtable_bound _ _ _ Hv) as Hvb.
  unfold nr_flatbuffers_table_init, nr_flatbuffers_read_soffset.
  rewrite (read_i32_at c off (le 4 (v - off))) by (done || apply length_le || apply le_is_bytes). cbn [mbind outcome_bind].
  rewrite of_le_le. change (256 ^ Z.of_nat 4) with (2 ^ 32).
  assert (signed 32 ((v - off) mod 2 ^ 32) = v - off) as ->.
  { rewrite <-(signed_id 32 (v - off)) at 2 by lia. unfold signed. by rewrite Z.mod_mod by lia. }
  rewrite u64_small by lia. rewrite (vtable_size_at c v (rel off F)) by (done || lia). cbn [mbind outcome_bind].
  eexists. split; [done|]. split; [done|]. intros i Hi. unfold nr_flatbuffers_table_lookup. cbn [vsize data tbl_vtable offset].
  unfold VTABLE_METADATA_FIELDS. rewrite u64_small by lia. rewrite length_rel.
  destruct (Z.leb_spec (2 * (Z.of_nat (length F) + 2)) (2 * (2 + i))) as [Hle|Hlt].
  { by rewrite lookup_ge_None_2 by lia. }
  destruct (lookup_lt_is_Some_2 F (Z.to_nat i)) as [f Hf]; [lia|]. rewrite Hf. cbn [default from_option id].
  unfold nr_flatbuffers_read_voffset. rewrite (vtable_word_at c v (rel off F) (Z.to_nat i) (if f =? 0 then 0 else off - f) _ Hv); [|by unfold rel; rewrite list_lookup_fmap, Hf|lia].
  cbn [mbind outcome_bind]. pose proof (Forall_lookup_1 _ _ _ _ HF Hf) as Hfb. cbn in Hfb.
  destruct (Z.eqb_spec f 0); [done|]. destruct (Z.eqb_spec (off - f) 0); [lia|]. rewrite u32_small by lia. do 2 f_equal. lia.
Qed.

(** ** Finding a vtable *)

(** What the saved vtables promise: the contents have them where they say. *)
Record saved_in (c vts : list Z) (n : Z) : Prop := {
  vo_len : 0 ≤ n ≤ Z.of_nat (length vts);
  vo_cap : (0 < length vts)%nat;
  vo_at : ∀ i, (i < Z.to_nat n)%nat → ∃ es, vtable_at c (char_at vts (Z.of_nat i)) es }.
Definition vtables_ok fb : Prop := saved_in (contents fb) (vtables fb) (vtables_len fb).

Lemma saved_in_app p c vts n : saved_in c vts n → saved_in (p ++ c) vts n.
Proof.
  intros [Hl Hc Ha]. split; [done..|]. intros i Hi. destruct (Ha i Hi) as [es Hes]. exists es. by apply vtable_at_app.
Qed.

Lemma match_loop_spec fb i es : fb_inv fb → len fb < 2 ^ 31 → vtable_at (contents fb) (char_at (vtables fb) i) es → ∀ fields j,
  (length fields + j = length es)%nat → match_loop fb i (Z.of_nat j) fields = Done (bool_decide (drop j es = fields)).
Proof.
  intros Hi Hl Hv. pose proof (vtable_bound _ _ _ Hv) as Hb. pose proof (len_contents fb Hi) as El.
  induction fields as [|x fields IH]; intros j Hj; cbn [match_loop].
  - rewrite drop_ge by (cbn in Hj; lia). done.
  - cbn [length] in Hj. destruct (lookup_lt_is_Some_2 es j) as [e He]; [lia|].
    unfold nr_flatbuffers_vtable_field, VTABLE_METADATA_FIELDS. fold (contents fb). rewrite u64_small by lia.
    rewrite (vtable_word_at (contents fb) _ es j e _ Hv He) by lia. cbn [mbind outcome_bind].
    rewrite (drop_S _ _ _ He). destruct (Z.eqb_spec e x) as [->|Hne]; cbn [negb].
    + replace (Z.of_nat j + 1) with (Z.of_nat (S j)) by lia. rewrite IH by lia. f_equal. apply bool_decide_ext. split; congruence.
    + rewrite bool_decide_eq_false_2 by congruence. done.
Qed.

Lemma match_vtable_spec fb i es : fb_inv fb → len fb < 2 ^ 31 → (i < Z.to_nat (vtables_len fb))%nat → 0 ≤ vtable_len fb ≤ Z.of_nat (length (vtable fb)) →
  vtable_at (contents fb) (char_at (vtables fb) (Z.of_nat i)) es →
  nr_flatbuffers_match_vtable fb (Z.of_nat i) = Done (bool_decide (es = take (Z.to_nat (vtable_len fb)) (vtable fb))).
Proof.
  intros Hi Hl Hlt Hn Hv. pose proof (vtable_bound _ _ _ Hv) as Hb. pose proof (len_contents fb Hi) as El.
  unfold nr_flatbuffers_match_vtable, nr_flatbuffers_vtable_num_fields. destruct (Z.ltb_spec (Z.of_nat i) (vtables_len fb)); [|lia].
  fold (contents fb). rewrite u64_small by lia. rewrite (vtable_size_at (contents fb) _ es _ Hv) by lia. cbn [mbind outcome_bind].
  pose proof Hv as [_ [Hes _]]. unfold VTABLE_METADATA_FIELDS. rewrite u64_small by lia.
  replace ((2 * (Z.of_nat (length es) + 2) - 2 * 2) / 2) with (Z.of_nat (length es)) by lia.
  replace (int_of (Z.of_nat (length es))) with (Z.of_nat (length es)).
  2: { change int_of with (signed 32). rewrite signed_id; lia. }
  destruct (Z.eqb_spec (vtable_len fb) (Z.of_nat (length es))) as [E|Hne]; cbn [negb].
  - rewrite Nat2Z.id. rewrite (match_loop_spec fb (Z.of_nat i) es Hi Hl Hv _ O) by (rewrite length_take; lia).
    rewrite E, Nat2Z.id. done.
  - rewrite bool_decide_eq_false_2; [done|]. intros ->. apply Hne. rewrite length_take. lia.
Qed.

Lemma find_existing_vtable_spec fb p c : fb_inv fb → len fb < 2 ^ 31 → contents fb = p ++ c → saved_in c (vtables fb) (vtables_len fb) →
  0 ≤ vtable_len fb ≤ Z.of_nat (length (vtable fb)) →
  ∃ v, nr_flatbuffers_find_existing_vtable fb = Done v ∧
    (v = 0 ∨ vtable_at c v (take (Z.to_nat (vtable_len fb)) (vtable fb))).
Proof.
  intros Hi Hl Hc Hok Hn. unfold nr_flatbuffers_find_existing_vtable.
  assert (Z.to_nat (vtables_len fb) ≤ Z.to_nat (vtables_len fb))%nat as Hk by lia. revert Hk.
  generalize (Z.to_nat (vtables_len fb)) at 1 3 as k. induction k as [|k IH]; intros Hk; cbn [find_loop]; [eauto|].
  destruct (vo_at _ _ _ Hok k) as [es Hes]; [lia|].
  rewrite (match_vtable_spec fb k es) by (done || lia || (rewrite Hc; by apply vtable_at_app)). cbn [mbind outcome_bind].
  case_bool_decide as E; [|apply IH; lia]. eexists. split; [done|]. right. by rewrite <-E.
Qed.

(** ** Writing a vtable *)
Lemma encode_at_spec fb a y b off x : fb_inv fb → contents fb = a ++ y ++ b → length y = 4%nat → off = Z.of_nat (length (y ++ b)) →
  ∃ fb', encode_at fb off x = Done fb' ∧ contents fb' = a ++ le 4 x ++ b ∧ fb_inv fb' ∧
    object_state fb' = object_state fb ∧ min_align fb' = min_align fb.
Proof.
  intros Hi Hc Hy ->. pose proof (len_contents fb Hi) as El. rewrite Hc in El. unfold len in El. rewrite !length_app in El.
  pose proof Hi as [Hp Hb Hf Hs Ha]. rewrite length_app, Hy. unfold encode_at, nr_flatbuffers_encode_i32. rewrite put_le4.
  set (p := Z.of_nat (length (bytes fb)) - _). assert (p = pos fb + Z.of_nat (length a)) as Ep by lia.
  destruct (_ || _) eqn:E; [lia|]. clear E. eexists. split; [done|].
  assert (bytes fb = (take (Z.to_nat (pos fb)) (bytes fb) ++ a) ++ y ++ b) as Eb.
  { rewrite <-app_assoc. rewrite <-Hc. unfold contents. by rewrite take_drop. }
  assert (length (take (Z.to_nat (pos fb)) (bytes fb) ++ a) = Z.to_nat p) as Lp by (rewrite length_app, length_take; lia).
  assert (take (Z.to_nat p) (bytes fb) ++ le 4 x ++ drop (Z.to_nat (p + 4)) (bytes fb) =
    (take (Z.to_nat (pos fb)) (bytes fb) ++ a) ++ le 4 x ++ b) as En.
  { replace (Z.to_nat (p + 4)) with (4 + Z.to_nat p)%nat by lia. rewrite Eb at 1. rewrite take_app_length' by done. do 2 f_equal.
    rewrite Eb. rewrite Nat.add_comm, <-drop_drop, drop_app_length' by done. by rewrite drop_app_length'. }
  split; [|split; [|done]].
  - unfold contents. cbn [pos bytes set_block]. rewrite En, <-app_assoc, drop_app_length'; [done|]. rewrite length_take. lia.
  - pose proof Hb as Hb'. rewrite Eb, !Forall_app in Hb'. destruct Hb' as [[H1 H2] [_ H3]].
    split; cbn [pos bytes set_block front min_align]; rewrite ?En, ?length_app, ?length_le, ?length_take; try done.
    + lia.
    + rewrite !Forall_app. split_and!; [done..|apply le_is_bytes|done].
    + rewrite Eb in Hs. rewrite !length_app, length_take, Hy in Hs. done.
Qed.

Lemma save_vtable_spec fb v es : fb_inv fb → vtables_ok fb → vtable_at (contents fb) v es →
  ∃ fb', nr_flatbuffers_save_vtable fb v = Done fb' ∧ contents fb' = contents fb ∧ fb_inv fb' ∧ vtables_ok fb' ∧
    (inside_object fb', object_end fb', vtable fb', vtable_len fb', min_align fb') =
    (inside_object fb, object_end fb, vtable fb, vtable_len fb, min_align fb).
Proof.
  intros Hi [Hl Hc Ha] Hv. unfold nr_flatbuffers_save_vtable. set (vts := if _ =? _ then _ else _).
  assert (∃ r, vts = vtables fb ++ r) as [r Er].
  { unfold vts. case_match; [eauto|]. exists []. by rewrite app_nil_r. }
  assert (vtables_len fb < Z.of_nat (length vts)) as Hlt.
  { unfold vts. destruct (Z.eqb_spec (vtables_len fb) (Z.of_nat (length (vtables fb)))); [rewrite length_app, length_replicate|]; lia. }
  bool_cases. eexists. split; [done|]. split; [done|]. split; [by destruct Hi|]. split; [|done].
  split; cbn [vtables vtables_len set_vtables]; rewrite ?length_insert; [lia|rewrite Er, length_app; lia|].
  intros i Hlt'. unfold char_at. rewrite Nat2Z.id. destruct (decide (i = Z.to_nat (vtables_len fb))) as [->|Hne].
  - rewrite list_lookup_insert_eq by lia. by exists es.
  - rewrite list_lookup_insert_ne by lia. destruct (Ha i) as [es' Hes]; [lia|]. exists es'. unfold char_at in Hes. rewrite Nat2Z.id in Hes.
    rewrite Er, lookup_app_l by lia. exact Hes.
Qed.

Lemma rebase_spec off F : Forall (λ f, f = 0 ∨ 0 < f < off ∧ off - f < 65535) F → rebase off F = Done (rel off F).
Proof.
  induction 1 as [|f F Hf _ IH]; [done|]. cbn [rebase]. destruct (Z.eqb_spec f 0) as [->|]; cbn [negb].
  - cbn [mbind outcome_bind]. rewrite IH. done.
  - destruct (Z.ltb_spec f off); [|lia]. destruct (Z.ltb_spec (off - f) 65535); [|lia]. cbn [negb mbind outcome_bind].
    rewrite IH. cbn [mbind outcome_bind]. unfold rel. rewrite fmap_cons. destruct (Z.eqb_spec f 0); [done|]. done.
Qed.

Lemma rel_words off F : Forall (λ f, f = 0 ∨ 0 < f < off ∧ off - f < 65535) F → Forall (λ e, 0 ≤ e < 2 ^ 16) (rel off F).
Proof.
  intros HF. apply Forall_fmap. eapply Forall_impl; [exact HF|]. intros f Hf. cbn in Hf |- *. destruct (Z.eqb_spec f 0); lia.
Qed.

Lemma ex_fields fb p fb' : extends fb p fb' →
  inside_object fb' = inside_object fb ∧ object_end fb' = object_end fb ∧ vtable fb' = vtable fb ∧
  vtable_len fb' = vtable_len fb ∧ vtables fb' = vtables fb ∧ vtables_len fb' = vtables_len fb.
Proof. intros [_ _ Hs _]. unfold object_state in Hs. by simplify_eq. Qed.

Lemma vtables_ok_extends fb p fb' : vtables_ok fb → extends fb p fb' → vtables_ok fb'.
Proof.
  intros Hok He. destruct (ex_fields _ _ _ He) as (_ & _ & _ & _ & E1 & E2). unfold vtables_ok.
  rewrite E1, E2, (ex_contents _ _ _ He). by apply saved_in_app.
Qed.

(** The object is complete but for the word at its place, which is zero. *)
Section prepend_vtable.
Context `{BlockAligned}.

(** The branch that writes a vtable. *)
Definition write_vtable fb (object_offset : Z) : outcome nr_flatbuffer_t :=
  fb ← prepend_fields fb (take (Z.to_nat (vtable_len fb)) (vtable fb));
  fb ← nr_flatbuffers_prepend_u16 fb (u32 (object_offset - object_end fb) mod 2 ^ 16);
  fb ← nr_flatbuffers_prepend_u16 fb (u32 ((vtable_len fb + VTABLE_METADATA_FIELDS) * 2) mod 2 ^ 16);
  fb ← encode_at fb object_offset (int_of (u32 (int_of (len fb) - int_of object_offset)));
  nr_flatbuffers_save_vtable fb (u32 (len fb)).

Lemma int_of_id x : - 2 ^ 31 ≤ x < 2 ^ 31 → int_of x = x.
Proof. change int_of with (signed 32). intros. by rewrite signed_id by lia. Qed.

Lemma int_of_u32 x : - 2 ^ 31 ≤ x < 2 ^ 31 → int_of (u32 x) = x.
Proof.
  intros Hx. rewrite <-(int_of_id x) at 2 by done. unfold int_of, u32. by rewrite Z.mod_mod by lia.
Qed.

Lemma write_vtable_spec fb off y b es : fb_inv fb → saved_in b (vtables fb) (vtables_len fb) → contents fb = y ++ b → length y = 4%nat → off = len fb → len fb mod 2 = 0 →
  take (Z.to_nat (vtable_len fb)) (vtable fb) = es → vtable_len fb = Z.of_nat (length es) → Z.of_nat (length es) ≤ 32765 →
  Forall (λ e, 0 ≤ e < 2 ^ 16) es → len fb + 2 ^ 17 < 2 ^ 30 →
  ∃ fb' size, write_vtable fb off = Done fb' ∧ fb_inv fb' ∧ vtables_ok fb' ∧
    contents fb' = vtable_bytes size es ++ le 4 (len fb' - off) ++ b ∧ len fb' = len fb + 2 * (Z.of_nat (length es) + 2) ∧
    inside_object fb' = inside_object fb ∧ object_end fb' = object_end fb ∧ min_align fb' ≤ Z.max 8 (min_align fb).
Proof.
  intros Hi Hok Hc Hy -> Hm Ees En Hn Hes Hl. unfold write_vtable. rewrite Ees. pose proof (len_contents fb Hi) as El.
  destruct (prepend_fields_spec es fb) as (fb1 & -> & He1); [done|done|lia|done|]. cbn [mbind outcome_bind].
  pose proof (extends_len _ _ _ Hi He1) as El1. rewrite length_words in El1.
  destruct (ex_fields _ _ _ He1) as (_ & _ & _ & Evl1 & _).
  destruct (prepend_u16_spec fb1 (u32 (len fb - object_end fb1) mod 2 ^ 16)) as (fb2 & -> & He2); [by apply He1|lia|lia|]. cbn [mbind outcome_bind].
  pose proof (extends_len _ _ _ (ex_inv _ _ _ He1) He2) as El2. rewrite length_le in El2.
  destruct (ex_fields _ _ _ He2) as (_ & _ & _ & Evl2 & _). rewrite Evl2, Evl1, En. unfold VTABLE_METADATA_FIELDS.
  rewrite u32_small by lia. rewrite (Z.mod_small ((Z.of_nat _ + 2) * 2)) by lia.
  destruct (prepend_u16_spec fb2 ((Z.of_nat (length es) + 2) * 2)) as (fb3 & -> & He3); [by apply He2|lia|lia|]. cbn [mbind outcome_bind].
  pose proof (extends_len _ _ _ (ex_inv _ _ _ He2) He3) as El3. rewrite length_le in El3.
  set (size := u32 (len fb - object_end fb1) mod 2 ^ 16) in *.
  assert (extends fb (vtable_bytes size es) fb3) as He.
  { pose proof (extends_trans _ _ _ _ _ (extends_trans _ _ _ _ _ He1 He2) He3) as He. unfold vtable_bytes.
    replace (2 * (Z.of_nat (length es) + 2)) with ((Z.of_nat (length es) + 2) * 2) by lia. exact He. }
  rewrite (int_of_id (len fb3)), (int_of_id (len fb)), int_of_u32 by lia.
  destruct (encode_at_spec fb3 (vtable_bytes size es) y b (len fb) (len fb3 - len fb)) as (fb4 & -> & Hc4 & Hi4 & Hs4 & Ha4); [by apply He| |done|by rewrite El, Hc|].
  { by rewrite (ex_contents _ _ _ He), Hc. }
  cbn [mbind outcome_bind].
  assert (len fb4 = len fb3) as El4.
  { rewrite !len_contents, Hc4, (ex_contents _ _ _ He), Hc by (done || apply He). rewrite !length_app, length_le, Hy. lia. }
  rewrite u32_small by lia. injection Hs4 as Ei Eo Ev Evl Evs Evsl.
  destruct (ex_fields _ _ _ He) as (Ei' & Eo' & _ & _ & Evs' & Evsl').
  destruct (save_vtable_spec fb4 (len fb4) es Hi4) as (fb5 & -> & Hc5 & Hi5 & Hok5 & Hs5).
  - unfold vtables_ok. rewrite Evs, Evsl, Evs', Evsl', Hc4, app_assoc. by apply saved_in_app.
  - split; [|done]. exists size. rewrite len_contents, Hc4 by done. apply located_front.
  - injection Hs5 as Ei5 Eo5 _ _ Ea5. exists fb5, size. split; [done|]. split; [done|]. split; [done|].
    assert (len fb5 = len fb3) as El5 by (rewrite (len_contents fb5), Hc5, <-len_contents by done; done).
    split; [by rewrite Hc5, Hc4, El5|]. split; [lia|]. split; [congruence|]. split; [congruence|].
    rewrite Ea5, Ha4. apply He.
Qed.

(** From the search to the word of the object: [b] is what was there before it. *)
Definition link_vtable fb (object_offset : Z) : outcome nr_flatbuffer_t :=
  existing_vtable ← nr_flatbuffers_find_existing_vtable fb;
  if existing_vtable =? 0 then write_vtable fb object_offset
  else encode_at fb object_offset (int_of existing_vtable - int_of object_offset).

Lemma link_vtable_spec fb off b es : fb_inv fb → saved_in b (vtables fb) (vtables_len fb) → contents fb = le 4 0 ++ b → off = len fb →
  len fb mod 2 = 0 → 0 ≤ vtable_len fb ≤ Z.of_nat (length (vtable fb)) → take (Z.to_nat (vtable_len fb)) (vtable fb) = es →
  Z.of_nat (length es) ≤ 32765 → Forall (λ e, 0 ≤ e < 2 ^ 16) es → len fb + 2 ^ 17 < 2 ^ 30 →
  ∃ fb' q v, link_vtable fb off = Done fb' ∧ fb_inv fb' ∧ vtables_ok fb' ∧ contents fb' = q ++ le 4 (v - off) ++ b ∧
    vtable_at (contents fb') v es ∧ (length q ≤ 2 * (length es + 2))%nat ∧ inside_object fb' = inside_object fb ∧
    min_align fb' ≤ Z.max 8 (min_align fb).
Proof.
  intros Hi Hok Hc -> Hm Hn Ees Hl Hes Hlen. unfold link_vtable. pose proof (len_contents fb Hi) as El.
  destruct (find_existing_vtable_spec fb (le 4 0) b) as (v & -> & Hv); [done|lia|done..|]. cbn [mbind outcome_bind]. rewrite Ees in Hv.
  destruct (Z.eqb_spec v 0) as [->|Hv0].
  - destruct (write_vtable_spec fb (len fb) (le 4 0) b es) as (fb3 & size & -> & Hi3 & Hok3 & Hc3 & El3 & Ei3 & _ & Ea3); try done.
    { rewrite <-Ees, length_take. lia. }
    exists fb3, (vtable_bytes size es), (len fb3). split_and!; try done.
    + split; [|by split]. exists size. replace (len fb3) with (Z.of_nat (length (contents fb3))) at 1 by (by rewrite len_contents).
      rewrite Hc3. apply located_front.
    + unfold vtable_bytes. rewrite length_words. cbn [app length]. lia.
  - destruct Hv as [|Hv]; [done|]. pose proof (vtable_bound _ _ _ Hv) as Hb. rewrite Hc, length_app in El.
    rewrite !int_of_id by lia.
    destruct (encode_at_spec fb [] (le 4 0) b (len fb) (v - len fb) Hi Hc) as (fb3 & -> & Hc3 & Hi3 & Hs3 & Ha3); [done|by rewrite El, <-length_app|].
    injection Hs3 as Ei Eo Ev Evl Evs Evsl. exists fb3, [], v. split_and!; try done.
    + unfold vtables_ok. rewrite Evs, Evsl, Hc3. by do 2 apply saved_in_app.
    + rewrite Hc3. by do 2 apply vtable_at_app.
    + cbn. lia.
    + lia.
Qed.

(** An object that is ended is a table with the fields that were set. *)
Lemma prepend_vtable_spec fb F : fb_inv fb → vtables_ok fb → 0 ≤ vtable_len fb ≤ Z.of_nat (length (vtable fb)) → vtable_len fb ≤ 32765 →
  take (Z.to_nat (vtable_len fb)) (vtable fb) = F → Forall (λ f, f = 0 ∨ 0 < f ≤ len fb ∧ len fb + 8 - f < 65535) F → len fb + 2 ^ 18 < 2 ^ 30 →
  ∃ fb' off p, nr_flatbuffers_prepend_vtable fb = Done (off, fb') ∧ fb_inv fb' ∧ vtables_ok fb' ∧ contents fb' = p ++ contents fb ∧
    table_at (contents fb') off F ∧ Z.of_nat (length p) ≤ 2 ^ 17 ∧ inside_object fb' = inside_object fb ∧ min_align fb' ≤ Z.max 8 (min_align fb).
Proof.
  intros Hi Hok Hn Hn' EF HF Hl. unfold nr_flatbuffers_prepend_vtable.
  destruct (prepend_spec fb 4 nr_flatbuffers_put_i32 Hi) with (x := 0) as (fb1 & k & E & He & Hk & Hal); [lia|lia|lia| |].
  { intros fb0 x0. unfold nr_flatbuffers_put_i32. by rewrite put_le4. }
  change (nr_flatbuffers_prepend_i32 fb 0 = Done fb1) in E. rewrite E. cbn [mbind outcome_bind]. clear E.
  specialize (Hal ltac:(auto)). change (Z.of_nat 4) with 4 in Hal. pose proof (extends_len _ _ _ Hi He) as El.
  rewrite length_app, length_le, length_replicate in El.
  destruct (ex_fields _ _ _ He) as (Ei & Eo & Ev & Evl & Evs & Evsl). pose proof (len_contents fb Hi) as Elc.
  rewrite u32_small by lia. rewrite Ev, Evl, EF.
  assert (Forall (λ f, f = 0 ∨ 0 < f < len fb1 ∧ len fb1 - f < 65535) F) as HF'.
  { eapply Forall_impl; [exact HF|]. intros f Hf. cbn in Hf |- *. lia. }
  rewrite rebase_spec by done. cbn [mbind outcome_bind].
  assert (length F = Z.to_nat (vtable_len fb)) as LF by (rewrite <-EF, length_take; lia).
  set (fb2 := set_vtable fb1 _ _).
  destruct (link_vtable_spec fb2 (len fb1) (replicate k 0 ++ contents fb) (rel (len fb1) F))
    as (fb3 & q & v & E & Hi3 & Hok3 & Hc3 & Hv3 & Hq & Ei3 & Ea3); try (cbn; lia).
  { destruct (ex_inv _ _ _ He). done. } { apply saved_in_app. cbn. by rewrite Evs, Evsl. }
  { change (contents fb2) with (contents fb1). by rewrite (ex_contents _ _ _ He), <-app_assoc. } { done. }
  { change (len fb2) with (len fb1). lia. } { cbn. rewrite length_app, length_rel, length_drop. lia. }
  { cbn. rewrite take_app_length'; [done|]. by rewrite length_rel. } { rewrite length_rel. lia. } { by apply rel_words. }
  { change (len fb2) with (len fb1). lia. }
  unfold link_vtable in E. destruct (nr_flatbuffers_find_existing_vtable fb2) as [v0| | |]; try done. cbn [mbind outcome_bind] in E |- *.
  change (∃ fb' off p, (fb ← (if v0 =? 0 then write_vtable fb2 (len fb1) else encode_at fb2 (len fb1) (int_of v0 - int_of (len fb1))); Done (len fb1, set_vtable fb (vtable fb) 0)) = Done (off, fb') ∧ fb_inv fb' ∧
    vtables_ok fb' ∧ contents fb' = p ++ contents fb ∧ table_at (contents fb') off F ∧ Z.of_nat (length p) ≤ 2 ^ 17 ∧
    inside_object fb' = inside_object fb ∧ min_align fb' ≤ Z.max 8 (min_align fb)).
  rewrite E. cbn [mbind outcome_bind]. rewrite length_rel in Hq.
  eexists _, _, (q ++ le 4 (v - len fb1) ++ replicate k 0). split; [done|]. split_and!.
  - by destruct Hi3.
  - exact Hok3.
  - change (contents fb3 = (q ++ le 4 (v - len fb1) ++ replicate k 0) ++ contents fb). by rewrite Hc3, <-!app_assoc.
  - change (table_at (contents fb3) (len fb1) F). split; [eapply Forall_impl; [exact HF'|]; intros f Hf; cbn in Hf |- *; lia|].
    exists v. split; [|done]. rewrite Hc3. apply located_app.
    exists [], (replicate k 0 ++ contents fb). split; [done|]. rewrite !length_app, length_le, length_replicate. lia.
  - rewrite !length_app, length_le, length_replicate. lia.
  - cbn. rewrite Ei3. exact Ei.
  - cbn. pose proof (ex_align _ _ _ He). cbn in Ea3. lia.
Qed.
End prepend_vtable.
