(* ===== verification/FlatbuffersObject.v ===== *)
(** * FlatbuffersObject: what is written as an object is read back from its table *)

From S2P Require Import Prelude CString Buffer Object ObjectParse Flatbuffers FlatbuffersSpec FlatbuffersTable.
Local Open Scope Z_scope.

(** ** The types of fields *)
Inductive scalar := I8 | I16 | I32 | I64 | U8 | U16 | U32 | U64 | F32 | F64.

Definition width (t : scalar) : nat :=
  match t with I8 | U8 => 1 | I16 | U16 => 2 | I32 | U32 | F32 => 4 | I64 | U64 | F64 => 8 end.
Definition scalar_eqb (t : scalar) : Z → Z → bool :=
  match t with F32 => float_eqb 8 23 | F64 => float_eqb 11 52 | _ => Z.eqb end.
(** Floats are their bits. *)
Definition in_range (t : scalar) (x : Z) : Prop :=
  match t with
  | I8 | I16 | I32 | I64 => - 2 ^ (8 * Z.of_nat (width t) - 1) ≤ x < 2 ^ (8 * Z.of_nat (width t) - 1)
  | _ => 0 ≤ x < 2 ^ (8 * Z.of_nat (width t))
  end.

(** A string is written before the object, as is a nested object. *)
Inductive field :=
  | FScalar (t : scalar) (x d : Z)
  | FBool (x d : Z)
  | FString (o : Z) (s : option (list Z))
  | FTable (o : Z) (F : list Z).

Section fields.
Context `{BlockAddress}.

Definition prepend_scalar (t : scalar) : nr_flatbuffer_t → Z → outcome nr_flatbuffer_t :=
  match t with
  | I8 => nr_flatbuffers_prepend_i8 | I16 => nr_flatbuffers_prepend_i16 | I32 => nr_flatbuffers_prepend_i32
  | I64 => nr_flatbuffers_prepend_i64 | U8 => nr_flatbuffers_prepend_u8 | U16 => nr_flatbuffers_prepend_u16
  | U32 => nr_flatbuffers_prepend_u32 | U64 => nr_flatbuffers_prepend_u64
  | F32 => nr_flatbuffers_prepend_f32 | F64 => nr_flatbuffers_prepend_f64
  end.

Definition object_prepend_scalar (t : scalar) : nr_flatbuffer_t → Z → Z → Z → outcome nr_flatbuffer_t :=
  match t with
  | I8 => nr_flatbuffers_object_prepend_i8 | I16 => nr_flatbuffers_object_prepend_i16 | I32 => nr_flatbuffers_object_prepend_i32
  | I64 => nr_flatbuffers_object_prepend_i64 | U8 => nr_flatbuffers_object_prepend_u8 | U16 => nr_flatbuffers_object_prepend_u16
  | U32 => nr_flatbuffers_object_prepend_u32 | U64 => nr_flatbuffers_object_prepend_u64
  | F32 => nr_flatbuffers_object_prepend_f32 | F64 => nr_flatbuffers_object_prepend_f64
  end.

Definition object_prepend fb (i : Z) (f : field) : outcome nr_flatbuffer_t :=
  match f with
  | FScalar t x d => object_prepend_scalar t fb i x d
  | FBool x d => nr_flatbuffers_object_prepend_bool fb i x d
  | FString o _ | FTable o _ => nr_flatbuffers_object_prepend_uoffset fb i o 0
  end.

Fixpoint object_prepend_all fb (fs : list (Z * field)) : outcome nr_flatbuffer_t :=
  match fs with
  | [] => Done fb
  | (i, f) :: fs => fb ← object_prepend fb i f; object_prepend_all fb fs
  end.

(** An object with its fields. *)
Definition write_object fb (n : Z) (fs : list (Z * field)) : outcome (Z * nr_flatbuffer_t) :=
  match nr_flatbuffers_object_begin (Some fb) n with
  | (Some fb, NR_SUCCESS) =>
      fb ← object_prepend_all fb fs;
      r ← nr_flatbuffers_object_end (Some fb);
      match (r : Z * option nr_flatbuffer_t) with (off, Some fb) => Done (off, fb) | _ => Failed end
  | _ => Failed
  end.

Definition table_read (t : scalar) : nr_flatbuffers_table_t → Z → Z → outcome Z :=
  match t with
  | I8 => nr_flatbuffers_table_read_i8 | I16 => nr_flatbuffers_table_read_i16 | I32 => nr_flatbuffers_table_read_i32
  | I64 => nr_flatbuffers_table_read_i64 | U8 => nr_flatbuffers_table_read_u8 | U16 => nr_flatbuffers_table_read_u16
  | U32 => nr_flatbuffers_table_read_u32 | U64 => nr_flatbuffers_table_read_u64
  | F32 => nr_flatbuffers_table_read_f32 | F64 => nr_flatbuffers_table_read_f64
  end.

Definition truth (x : Z) : Z := if negb (x =? 0) then 1 else 0.

(** The string at its place, with its length and its terminator. *)
Definition string_at (c : list Z) (o : Z) (s : list Z) : Prop :=
  is_cstr s ∧ located c o (le 4 (Z.of_nat (length s)) ++ s ++ [0]).

(** What is asked of a field that is written after the contents [c]. *)
Definition field_ok (c : list Z) (f : field) : Prop :=
  match f with
  | FScalar t x _ => in_range t x
  | FBool _ _ => True
  | FString o None => o = 0
  | FString o (Some s) => string_at c o s
  | FTable o F => table_at c o F
  end.

(** What a reader gets for it. *)
Definition field_read (tbl : nr_flatbuffers_table_t) (i : Z) (f : field) : Prop :=
  match f with
  | FScalar t x d => table_read t tbl i d = Done (if scalar_eqb t x d then d else x)
  | FBool x d => nr_flatbuffers_table_read_bool tbl i d = Done (truth x)
  | FString _ None | FString _ (Some []) => nr_flatbuffers_table_read_str tbl i = Done None
  | FString _ (Some s) => ∃ p, nr_flatbuffers_table_read_str tbl i = Done (Some p) ∧ cstr (drop (Z.to_nat p) (data tbl)) = s ∧
      nr_flatbuffers_table_read_vector_len tbl i = Done (Z.of_nat (length s))
  | FTable o F => ∃ child, nr_flatbuffers_table_read_union tbl i = Done (1, Some child) ∧ data child = data tbl ∧
      ∀ j, 0 ≤ j < 2 ^ 32 → nr_flatbuffers_table_lookup child j =
        Done (let f := default 0 (F !! Z.to_nat j) in if f =? 0 then 0 else Z.of_nat (length (data tbl)) - f)
  end.

(** A field with its default value is not written. *)
Definition skipped (f : field) : bool :=
  match f with
  | FScalar t x d => scalar_eqb t x d
  | FBool x d => truth x =? truth d
  | FString o _ | FTable o _ => o =? 0
  end.
(** The bytes of a field at its place. *)
Definition field_data (f : field) (place : Z) : list Z :=
  match f with
  | FScalar t x _ => le (width t) x
  | FBool x _ => le 1 (truth x)
  | FString o _ | FTable o _ => le 4 (place - o)
  end.
End fields.

(** ** Writing a field *)
Section writing.
Context `{BlockAligned}.

Lemma prepend_scalar_spec t fb x : fb_inv fb → len fb + 16 < 2 ^ 30 →
  ∃ fb' k, prepend_scalar t fb x = Done fb' ∧ extends fb (le (width t) x ++ replicate k 0) fb' ∧ (k < 8)%nat.
Proof.
  intros Hi Hl.
  assert (∀ put, (∀ fb x, put fb x = put_bytes fb (le (width t) x)) →
    ∃ fb' k, NR_FLATBUFFERS_PREPEND (Z.of_nat (width t)) put fb x = Done fb' ∧ extends fb (le (width t) x ++ replicate k 0) fb' ∧ (k < 8)%nat) as Hg.
  { intros put Hp. destruct (prepend_spec fb (width t) put Hi) with (x := x) as (fb' & k & E & He & Hk & _); try done; [by destruct t; cbn; lia..|].
    exists fb', k. split_and!; [done..|]. destruct t; cbn in Hk; lia. }
  assert (∀ fb x, (nr_flatbuffers_put_u8 fb x = put_bytes fb (le 1 x)) ∧ (nr_flatbuffers_put_u16 fb x = put_bytes fb (le 2 x)) ∧
    (nr_flatbuffers_put_u32 fb x = put_bytes fb (le 4 x)) ∧ (nr_flatbuffers_put_u64 fb x = put_bytes fb (le 8 x))) as Hput.
  { intros. unfold nr_flatbuffers_put_u16, nr_flatbuffers_put_u32, nr_flatbuffers_put_u64. by rewrite put_le2, put_le4, put_le8. }
  destruct t; eapply Hg; apply Hput.
Qed.

Lemma set_field_spec fb i x : 0 ≤ i < Z.of_nat (length (vtable fb)) →
  set_field fb i x = Done (set_vtable fb (<[Z.to_nat i:=x]> (vtable fb)) (vtable_len fb)).
Proof. intros Hi. unfold set_field. destruct (_ && _) eqn:E; [done|lia]. Qed.

Lemma object_prepend_scalar_eq t fb i x d :
  object_prepend_scalar t fb i x d = NR_FLATBUFFERS_OBJECT_PREPEND (scalar_eqb t) (prepend_scalar t) fb i x d.
Proof. by destruct t. Qed.

(** What the writing of a field that is not skipped does. *)
Definition field_written fb (i : Z) (f : field) (m : outcome nr_flatbuffer_t) : Prop :=
  ∃ fb1 p, extends fb p fb1 ∧ (length p ≤ 16)%nat ∧ len fb < len fb1 ∧ located (contents fb1) (len fb1) (field_data f (len fb1)) ∧
    m = Done (set_vtable fb1 (<[Z.to_nat i:=len fb1]> (vtable fb)) (vtable_len fb)).

Lemma field_written_intro fb i f m k fb1 : fb_inv fb → len fb + 16 < 2 ^ 30 → 0 ≤ i < Z.of_nat (length (vtable fb)) →
  m = Done fb1 → extends fb (field_data f (len fb1) ++ replicate k 0) fb1 → (0 < length (field_data f (len fb1)) ≤ 8)%nat → (k < 8)%nat →
  field_written fb i f (fb ← m; set_field fb i (u32 (len fb))).
Proof.
  intros Hi Hl Hix -> He Hw Hk. pose proof (len_contents fb Hi) as Elc. pose proof (extends_len _ _ _ Hi He) as El.
  rewrite length_app, length_replicate in El. destruct (ex_fields _ _ _ He) as (_ & _ & Ev & Evl & _).
  exists fb1, (field_data f (len fb1) ++ replicate k 0). split_and!; [done|rewrite length_app, length_replicate; lia|lia| |].
  - rewrite (ex_contents _ _ _ He), <-app_assoc. exists [], (replicate k 0 ++ contents fb). split; [done|].
    rewrite !length_app, length_replicate. lia.
  - cbn [mbind outcome_bind]. rewrite u32_small by lia. rewrite set_field_spec by (rewrite Ev; lia). by rewrite Ev, Evl.
Qed.

Lemma object_prepend_offset fb i f o : fb_inv fb → len fb + 16 < 2 ^ 30 → 0 ≤ i < Z.of_nat (length (vtable fb)) →
  0 ≤ o ≤ len fb → (∀ p, field_data f p = le 4 (p - o)) →
  if o =? 0 then nr_flatbuffers_object_prepend_uoffset fb i o 0 = Done fb
  else field_written fb i f (nr_flatbuffers_object_prepend_uoffset fb i o 0).
Proof.
  intros Hi Hl Hix Ho Hd. unfold nr_flatbuffers_object_prepend_uoffset, NR_FLATBUFFERS_OBJECT_PREPEND.
  destruct (Z.eqb_spec o 0); [done|]. cbn [negb].
  destruct (prepend_uoffset_spec fb o Hi) as (fb1 & k & E & He & Hk & _); [lia|done|].
  eapply field_written_intro; [done..|exact E|by rewrite Hd|rewrite Hd, length_le; lia|lia].
Qed.

Lemma object_prepend_spec fb i f : fb_inv fb → len fb + 16 < 2 ^ 30 → 0 ≤ i < Z.of_nat (length (vtable fb)) → field_ok (contents fb) f →
  if skipped f then object_prepend fb i f = Done fb else field_written fb i f (object_prepend fb i f).
Proof.
  intros Hi Hl Hix Hok. pose proof (len_contents fb Hi) as Elc.
  destruct f as [t x d|x d|o s|o F]; cbn [skipped object_prepend field_ok] in *.
  - rewrite object_prepend_scalar_eq. unfold NR_FLATBUFFERS_OBJECT_PREPEND. destruct (scalar_eqb t x d); [done|]. cbn [negb].
    destruct (prepend_scalar_spec t fb x Hi Hl) as (fb1 & k & E & He & Hk).
    eapply field_written_intro; [done..|exact E|exact He|cbn [field_data]; rewrite length_le; destruct t; cbn; lia|done].
  - unfold nr_flatbuffers_object_prepend_bool. fold (truth x) (truth d). destruct (truth x =? truth d); [done|]. cbn [negb].
    destruct (prepend_scalar_spec U8 fb (truth x) Hi Hl) as (fb1 & k & E & He & Hk).
    eapply field_written_intro; [done..|exact E|exact He|cbn; lia|lia].
  - apply object_prepend_offset; try done. destruct s as [s|]; [|lia]. destruct Hok as [_ Hb]. apply located_bound in Hb. lia.
  - apply object_prepend_offset; try done. apply table_bound in Hok. lia.
Qed.

(** ** Writing an object *)

(** The state while the fields [fs] of an object are written behind [fb0]. *)
Record building (n : Z) fb0 (fs : list (Z * field)) fb : Prop := {
  bd_inv : fb_inv fb;
  bd_ok : vtables_ok fb;
  bd_inside : inside_object fb = 1;
  bd_align : min_align fb ≤ 8;
  bd_vlen : vtable_len fb = n ∧ n ≤ Z.of_nat (length (vtable fb));
  bd_contents : ∃ p, contents fb = p ++ contents fb0 ∧ (length p ≤ 16 * length fs)%nat;
  bd_fields : ∀ i v, vtable fb !! i = Some v →
    (v = 0 ∧ ∀ f, (Z.of_nat i, f) ∈ fs → skipped f = true) ∨
    (∃ f, (Z.of_nat i, f) ∈ fs ∧ skipped f = false ∧ len fb0 < v ≤ len fb ∧ located (contents fb) v (field_data f v)) }.

Lemma field_ok_app p c f : field_ok c f → field_ok (p ++ c) f.
Proof.
  destruct f as [t x d|x d|o [s|]|o F]; cbn; try done; [|by apply table_at_app].
  intros [Hs Hl]. split; [done|]. by apply located_app.
Qed.

Lemma building_len n fb0 fs fb : fb_inv fb0 → building n fb0 fs fb → len fb0 ≤ len fb ≤ len fb0 + 16 * Z.of_nat (length fs).
Proof.
  intros Hi0 [Hi _ _ _ _ (p & Hc & Hp) _]. rewrite !len_contents, Hc, length_app by done. lia.
Qed.

Lemma building_step n fb0 fs fb i f : fb_inv fb0 → building n fb0 fs fb → 0 ≤ i < n → i ∉ fs.*1 → field_ok (contents fb0) f →
  len fb0 + 16 * Z.of_nat (length fs) + 16 < 2 ^ 30 → ∃ fb', object_prepend fb i f = Done fb' ∧ building n fb0 (fs ++ [(i, f)]) fb'.
Proof.
  intros Hi0 Hb Hin Hnew Hok Hl. pose proof (building_len _ _ _ _ Hi0 Hb) as Hlen.
  destruct Hb as [Hi Hvok Hins Hal [Hvl Hvc] (p & Hc & Hp) Hf].
  assert (∀ j g, (j, g) ∈ fs → j ≠ i) as Hne.
  { intros j g Hj ->. apply Hnew. apply list_elem_of_fmap. by exists (i, g). }
  pose proof (object_prepend_spec fb i f Hi) as Hs. destruct (skipped f) eqn:Esk.
  - exists fb. split; [apply Hs; [lia|lia|rewrite Hc; by apply field_ok_app]|]. split; try done.
    { exists p. split; [done|]. rewrite length_app. lia. }
    intros j v Hj. destruct (Hf j v Hj) as [[-> Hsk]|(g & Hg & Hrest)].
    + left. split; [done|]. intros g Hg. rewrite elem_of_app, list_elem_of_singleton in Hg. destruct Hg as [Hg|Hg]; [by apply Hsk|]. by simplify_eq.
    + right. exists g. split; [rewrite elem_of_app; by left|done].
  - destruct Hs as (fb1 & q & He & Hq & Hlt & Hloc & E); [lia|lia|rewrite Hc; by apply field_ok_app|].
    eexists. split; [exact E|]. destruct (ex_fields _ _ _ He) as (Ei1 & Eo1 & Ev1 & Evl1 & Evs1 & Evsl1).
    pose proof (extends_len _ _ _ Hi He) as El1. pose proof (ex_align _ _ _ He) as Ha1.
    split; cbn [set_vtable set_object inside_object min_align vtable vtable_len].
    + by destruct (ex_inv _ _ _ He).
    + exact (vtables_ok_extends _ _ _ Hvok He).
    + congruence.
    + lia.
    + rewrite length_insert. done.
    + exists (q ++ p). change (contents fb1 = (q ++ p) ++ contents fb0 ∧ (length (q ++ p) ≤ 16 * length (fs ++ [(i, f)]))%nat).
      rewrite (ex_contents _ _ _ He), Hc, !length_app, app_assoc. cbn [length]. split; [done|lia].
    + intros j v Hj. change (len (set_vtable fb1 _ _)) with (len fb1). change (contents (set_vtable fb1 _ _)) with (contents fb1).
      apply list_lookup_insert_Some in Hj. destruct Hj as [(<- & <- & _)|[Hji Hj]].
      * right. exists f. rewrite Z2Nat.id by lia. split; [rewrite elem_of_app, list_elem_of_singleton; by right|]. split; [done|]. split; [lia|done].
      * destruct (Hf j v Hj) as [[-> Hsk]|(g & Hg & Hgs & Hgb & Hgl)].
        -- left. split; [done|]. intros g Hg. rewrite elem_of_app, list_elem_of_singleton in Hg. destruct Hg as [Hg|Hg]; [by apply Hsk|].
           simplify_eq. lia.
        -- right. exists g. split; [rewrite elem_of_app; by left|]. split; [done|]. split; [lia|].
           rewrite (ex_contents _ _ _ He). by apply located_app.
Qed.

Lemma building_all n fb0 : fb_inv fb0 → ∀ fs done fb, building n fb0 done fb → NoDup ((done ++ fs).*1) →
  Forall (λ '(i, f), 0 ≤ i < n ∧ field_ok (contents fb0) f) fs → len fb0 + 16 * Z.of_nat (length (done ++ fs)) + 16 < 2 ^ 30 →
  ∃ fb', object_prepend_all fb fs = Done fb' ∧ building n fb0 (done ++ fs) fb'.
Proof.
  intros Hi0. induction fs as [|[i f] fs IH]; intros dn fb Hb Hnd Hfs Hl; cbn [object_prepend_all].
  { rewrite app_nil_r. by exists fb. }
  rewrite Forall_cons in Hfs. destruct Hfs as [[Hin Hok] Hfs]. rewrite length_app in Hl. cbn [length] in Hl.
  rewrite fmap_app, fmap_cons in Hnd. pose proof Hnd as Hnd'. apply NoDup_app in Hnd' as (_ & Hdis & _).
  destruct (building_step n fb0 dn fb i f) as (fb1 & -> & Hb1); try done; [|lia|].
  { intros Hd. apply (Hdis _ Hd). cbn. left. }
  cbn [mbind outcome_bind]. destruct (IH (dn ++ [(i, f)]) fb1 Hb1) as (fb2 & -> & Hb2).
  - rewrite <-app_assoc. cbn [app]. rewrite fmap_app, fmap_cons. exact Hnd.
  - done.
  - rewrite <-app_assoc, length_app. cbn [app length]. lia.
  - exists fb2. split; [done|]. by rewrite <-app_assoc in Hb2.
Qed.

(** A buffer between two objects. *)
Record fb_ready fb : Prop := {
  rd_inv : fb_inv fb;
  rd_ok : vtables_ok fb;
  rd_outside : inside_object fb = 0 }.

Lemma object_begin_spec fb n : fb_ready fb → 0 ≤ n →
  ∃ fb', nr_flatbuffers_object_begin (Some fb) n = (Some fb', NR_SUCCESS) ∧ building n fb [] fb'.
Proof.
  intros [Hi Hok Hout] Hn. unfold nr_flatbuffers_object_begin. rewrite Hout. cbn [Z.eqb negb]. eexists. split; [done|].
  split; cbn [set_object inside_object min_align vtable vtable_len]; try done.
  - by destruct Hi.
  - split; [done|]. rewrite length_replicate. bool_cases.
  - exists []. split; [done|]. cbn. lia.
  - intros i v Hv. apply lookup_replicate in Hv as [-> _]. left. split; [done|]. intros f Hf. by apply not_elem_of_nil in Hf.
Qed.

(** Where the places [F] of a table lead. *)
Definition fields_at (c0 c : list Z) (F : list Z) (fs : list (Z * field)) : Prop :=
  ∀ i, 0 ≤ i → let v := default 0 (F !! Z.to_nat i) in
    (i ∉ fs.*1 → v = 0) ∧
    ∀ f, (i, f) ∈ fs → if skipped f then v = 0 else Z.of_nat (length c0) < v ∧ located c v (field_data f v).

Lemma fields_at_app c0 p c F fs : fields_at c0 c F fs → fields_at c0 (p ++ c) F fs.
Proof.
  intros Hf i Hi. destruct (Hf i Hi) as [H1 H2]. split; [done|]. intros f Hin. specialize (H2 f Hin).
  destruct (skipped f); [done|]. destruct H2. split; [done|]. by apply located_app.
Qed.

Lemma building_fields n fb0 fs fb : fb_inv fb0 → building n fb0 fs fb → NoDup fs.*1 → 0 ≤ n → (∀ i, i ∈ fs.*1 → 0 ≤ i < n) →
  fields_at (contents fb0) (contents fb) (take (Z.to_nat (vtable_len fb)) (vtable fb)) fs.
Proof.
  intros Hi0 [Hi _ _ _ [Hvl Hvc] _ Hf] Hnd Hn Hin i Hi1. cbv zeta. rewrite Hvl.
  assert (∀ f g, (i, f) ∈ fs → (i, g) ∈ fs → f = g) as Huniq.
  { intros f g H1 H2. apply list_elem_of_lookup in H1 as [a Ha]. apply list_elem_of_lookup in H2 as [b Hb].
    assert (a = b) as <-; [|congruence]. eapply (NoDup_lookup _ _ _ i Hnd); by rewrite list_lookup_fmap, ?Ha, ?Hb. }
  assert (∀ f, (i, f) ∈ fs → i ∈ fs.*1) as Hel by (intros f Hf1; apply list_elem_of_fmap; by exists (i, f)).
  destruct (decide (i < n)) as [Hlt|Hge].
  - rewrite lookup_take_lt by lia. destruct (lookup_lt_is_Some_2 (vtable fb) (Z.to_nat i)) as [v Hv]; [lia|]. rewrite Hv.
    cbn [default from_option id]. pose proof (Hf _ _ Hv) as Hcase. rewrite Z2Nat.id in Hcase by done.
    rewrite <-(len_contents fb0) by done. destruct Hcase as [[-> Hsk]|(f & Hfin & Hsk & Hb & Hloc)].
    + split; [done|]. intros f Hf1. by rewrite (Hsk f Hf1).
    + split; [intros Hni; by destruct (Hni (Hel f Hfin))|]. intros g Hg. rewrite (Huniq _ _ Hg Hfin), Hsk. split; [lia|done].
  - rewrite lookup_take_ge by lia. cbn [default from_option]. split; [done|]. intros f Hf1. specialize (Hin i (Hel f Hf1)). lia.
Qed.

Lemma write_object_spec fb n fs : fb_ready fb → 0 ≤ n ≤ 32765 → NoDup fs.*1 → Forall (λ '(i, f), 0 ≤ i < n ∧ field_ok (contents fb) f) fs →
  Z.of_nat (length fs) ≤ 4000 → len fb ≤ 2 ^ 29 →
  ∃ off fb' p F, write_object fb n fs = Done (off, fb') ∧ fb_ready fb' ∧ min_align fb' ≤ 8 ∧ contents fb' = p ++ contents fb ∧
    Z.of_nat (length p) ≤ 2 ^ 18 ∧ table_at (contents fb') off F ∧ fields_at (contents fb) (contents fb') F fs.
Proof.
  intros Hrd Hn Hnd Hfs Hl Hlen. pose proof (rd_inv _ Hrd) as Hi0. unfold write_object.
  destruct (object_begin_spec fb n Hrd) as (fb1 & -> & Hb1); [lia|].
  destruct (building_all n fb Hi0 fs [] fb1 Hb1 Hnd Hfs) as (fb2 & -> & Hb2); [cbn [app]; lia|]. cbn [app mbind outcome_bind] in Hb2 |- *.
  assert (∀ i, i ∈ fs.*1 → 0 ≤ i < n) as Hin.
  { intros i Hi. apply list_elem_of_fmap in Hi as ([j f] & -> & Hj). rewrite Forall_forall in Hfs. by apply (Hfs _ Hj). }
  pose proof (building_fields n fb fs fb2 Hi0 Hb2 Hnd ltac:(lia) Hin) as Hfa.
  pose proof (building_len _ _ _ _ Hi0 Hb2) as Hlen2. destruct Hb2 as [Hi2 Hok2 Hins2 Hal2 [Hvl2 Hvc2] (p & Hc2 & Hp2) Hf2].
  unfold nr_flatbuffers_object_end. rewrite Hins2. cbn [Z.eqb negb].
  destruct (prepend_vtable_spec fb2 (take (Z.to_nat (vtable_len fb2)) (vtable fb2)))
    as (fb3 & off & q & -> & Hi3 & Hok3 & Hc3 & Ht3 & Hq3 & _ & Ha3); try done; try lia.
  { apply Forall_take, Forall_lookup. intros i v Hv. destruct (Hf2 i v Hv) as [[-> _]|(f & _ & _ & Hb & _)]; [by left|].
    right. pose proof (len_contents fb Hi0). lia. }
  cbn [mbind outcome_bind]. eexists off, _, (q ++ p), _. split; [done|]. split; [by split; [destruct Hi3|exact Hok3|]|].
  split; [cbn; lia|]. change (contents (set_object fb3 _ _ _ _ _)) with (contents fb3). split; [by rewrite Hc3, Hc2, app_assoc|].
  split; [rewrite length_app; lia|]. split; [exact Ht3|]. rewrite Hc3. by apply fields_at_app.
Qed.

Lemma finish_spec fb off : fb_inv fb → min_align fb ≤ 8 → len fb + 64 < 2 ^ 30 → 0 ≤ off ≤ len fb →
  ∃ fb' p, nr_flatbuffers_finish fb off = Done fb' ∧ fb_inv fb' ∧ contents fb' = le 4 (len fb' - off) ++ p ++ contents fb ∧
    Z.of_nat (length p) ≤ 16.
Proof.
  intros Hi Ha Hl Ho. unfold nr_flatbuffers_finish. pose proof (inv_align _ Hi) as Ha1.
  destruct (prep_spec fb (min_align fb) 4 Hi) as (fb1 & k & -> & He & Hk & _); [lia..|]. cbn [mbind outcome_bind].
  pose proof (extends_len _ _ _ Hi He) as El. rewrite length_replicate in El.
  destruct (prepend_uoffset_spec fb1 off (ex_inv _ _ _ He)) as (fb2 & k2 & -> & He2 & Hk2 & _); [lia..|].
  exists fb2, (replicate k2 0 ++ replicate k 0). split; [done|]. split; [apply He2|]. split.
  - by rewrite (ex_contents _ _ _ He2), (ex_contents _ _ _ He), <-!app_assoc.
  - rewrite length_app, !length_replicate. lia.
Qed.
End writing.

(** ** Reading a field *)
Definition read_scalar (t : scalar) : list Z → Z → outcome Z :=
  match t with
  | I8 => nr_flatbuffers_read_i8 | I16 => nr_flatbuffers_read_i16 | I32 => nr_flatbuffers_read_i32 | I64 => nr_flatbuffers_read_i64
  | U8 => nr_flatbuffers_read_u8 | U16 => nr_flatbuffers_read_u16 | U32 => nr_flatbuffers_read_u32 | U64 => nr_flatbuffers_read_u64
  | F32 => nr_flatbuffers_read_f32 | F64 => nr_flatbuffers_read_f64
  end.

Lemma table_read_eq t : table_read t = FLATBUFFERS_TABLE_READ (read_scalar t).
Proof. by destruct t. Qed.

Lemma signed_mod w x : 0 < w → - 2 ^ (w - 1) ≤ x < 2 ^ (w - 1) → signed w (x mod 2 ^ w) = x.
Proof. intros Hw Hx. rewrite <-(signed_id w x) at 2 by done. unfold signed. rewrite Z.mod_mod; [done|]. apply Z.pow_nonzero; lia. Qed.

Lemma read_scalar_at c o t x : located c o (le (width t) x) → in_range t x → read_scalar t c (Z.of_nat (length c) - o) = Done x.
Proof.
  intros Hl Hx. destruct t; cbn [read_scalar width in_range] in *; unfold nr_flatbuffers_read_f32, nr_flatbuffers_read_f64;
    (erewrite read_i8_at || erewrite read_i16_at || erewrite read_i32_at || erewrite read_i64_at ||
     erewrite read_u8_at || erewrite read_u16_at || erewrite read_u32_at || erewrite read_u64_at);
    try exact Hl; try apply length_le; try apply le_is_bytes; rewrite of_le_le; f_equal;
    (apply Z.mod_small; exact Hx) || (apply signed_mod; [done|exact Hx]).
Qed.

(** A reference leads to the place that it was given. *)
Lemma follow_spec tbl v o : located (data tbl) v (le 4 (v - o)) → 0 ≤ o ≤ v → Z.of_nat (length (data tbl)) < 2 ^ 31 →
  follow tbl (Z.of_nat (length (data tbl)) - v) = Done (Z.of_nat (length (data tbl)) - o).
Proof.
  intros Hl Ho Hc. pose proof (located_bound _ _ _ Hl) as Hb. unfold follow, nr_flatbuffers_read_uoffset.
  rewrite (read_u32_at _ v (le 4 (v - o))) by (done || apply length_le || apply le_is_bytes). cbn [mbind outcome_bind].
  rewrite of_le_le. change (256 ^ Z.of_nat 4) with (2 ^ 32). rewrite Z.mod_small by lia. rewrite u32_small by lia. f_equal. lia.
Qed.

Lemma string_read c o s : string_at c o s → Z.of_nat (length c) < 2 ^ 31 →
  nr_flatbuffers_read_uoffset c (Z.of_nat (length c) - o) = Done (Z.of_nat (length s)) ∧
  cstr (drop (Z.to_nat (Z.of_nat (length c) - o + 4)) c) = s.
Proof.
  intros [Hs Hl] Hc. pose proof (located_bound _ _ _ Hl) as Hb. rewrite !length_app, length_le in Hb. split.
  - unfold nr_flatbuffers_read_uoffset. rewrite (read_u32_at _ o (le 4 (Z.of_nat (length s))));
      [|apply length_le|apply le_is_bytes|by apply located_prefix in Hl]. rewrite of_le_le. f_equal. apply Z.mod_small. cbn. lia.
  - destruct (located_suffix _ _ _ _ Hl) as (a & b & E & Eo). rewrite length_le in Eo. rewrite E at 2.
    rewrite drop_app_length'; [rewrite <-app_assoc; by apply cstr_app|]. apply (f_equal length) in E. rewrite length_app in E. lia.
Qed.

Lemma field_read_spec c0 tbl i f v : field_ok c0 f → (∃ p, data tbl = p ++ c0) → Z.of_nat (length (data tbl)) < 2 ^ 31 →
  nr_flatbuffers_table_lookup tbl i = Done (if v =? 0 then 0 else Z.of_nat (length (data tbl)) - v) →
  (if skipped f then v = 0 else Z.of_nat (length c0) < v < Z.of_nat (length (data tbl)) ∧ located (data tbl) v (field_data f v)) →
  field_read tbl i f.
Proof.
  intros Hok [p Hp] Hc Hl Hv.
  assert (∀ o, 0 < o ≤ Z.of_nat (length c0) → field_data f v = le 4 (v - o) → skipped f = false →
    nr_flatbuffers_table_lookup tbl i = Done (Z.of_nat (length (data tbl)) - v) ∧ 
    (Z.of_nat (length (data tbl)) - v =? 0) = false ∧
    follow tbl (Z.of_nat (length (data tbl)) - v) = Done (Z.of_nat (length (data tbl)) - o)) as Href.
  { intros o Ho Hd Hs. rewrite Hs in Hv. destruct Hv as [Hb Hloc]. rewrite Hd in Hloc. split; [|split].
    - rewrite Hl. destruct (Z.eqb_spec v 0); [lia|done].
    - destruct (Z.eqb_spec (Z.of_nat (length (data tbl)) - v) 0); [lia|done].
    - apply follow_spec; [done|lia|done]. }
  destruct f as [t x d|x d|o s|o F]; cbn [skipped field_data field_ok field_read] in *.
  - rewrite table_read_eq. unfold FLATBUFFERS_TABLE_READ. rewrite Hl. cbn [mbind outcome_bind].
    destruct (scalar_eqb t x d); [by subst v|]. destruct Hv as [Hb Hloc]. destruct (Z.eqb_spec v 0); [lia|].
    destruct (Z.eqb_spec (Z.of_nat (length (data tbl)) - v) 0); [lia|]. by apply read_scalar_at.
  - unfold nr_flatbuffers_table_read_bool, nr_flatbuffers_table_read_u8, FLATBUFFERS_TABLE_READ. rewrite Hl. cbn [mbind outcome_bind].
    fold (truth d). destruct (Z.eqb_spec (truth x) (truth d)) as [->|Hne].
    { subst v. cbn. unfold truth. by destruct (d =? 0). }
    destruct Hv as [Hb Hloc]. destruct (Z.eqb_spec v 0); [lia|]. destruct (Z.eqb_spec (Z.of_nat (length (data tbl)) - v) 0); [lia|]. cbn [negb].
    change nr_flatbuffers_read_u8 with (read_scalar U8).
    rewrite (read_scalar_at _ _ U8 (truth x) Hloc) by (unfold truth; cbn; destruct (x =? 0); cbn; lia).
    cbn [mbind outcome_bind]. unfold truth. by destruct (x =? 0).
  - destruct s as [s|].
    + destruct Hok as [Hs Hloc]. pose proof (located_bound _ _ _ Hloc) as Hb. rewrite !length_app, length_le in Hb. cbn [length] in Hb.
      assert (string_at (data tbl) o s) as Hst by (rewrite Hp; split; [done|by apply located_app]).
      destruct (Href o ltac:(lia) eq_refl) as (E1 & E2 & E3); [destruct (Z.eqb_spec o 0); [lia|done]|].
      destruct (string_read _ _ _ Hst Hc) as [Er Es].
      unfold nr_flatbuffers_table_read_str, nr_flatbuffers_table_read_bytes, nr_flatbuffers_table_read_vector_len.
      rewrite E1. cbn [mbind outcome_bind]. rewrite E2. cbn [negb]. rewrite E3. cbn [mbind outcome_bind]. rewrite Er. cbn [mbind outcome_bind].
      destruct s as [|b s]; [done|]. exists (Z.of_nat (length (data tbl)) - o + 4). by rewrite Es.
    + rewrite Hok in Hv. cbn in Hv. subst v. unfold nr_flatbuffers_table_read_str, nr_flatbuffers_table_read_bytes. by rewrite Hl.
  - pose proof (table_bound _ _ _ Hok) as Hb.
    destruct (Href o ltac:(lia) eq_refl) as (E1 & E2 & E3); [destruct (Z.eqb_spec o 0); [lia|done]|].
    assert (table_at (data tbl) o F) as Ht by (rewrite Hp; by apply table_at_app).
    destruct (table_init_spec _ _ _ (tbl_length tbl) Ht Hc) as (child & Ec & Ed & Hlk).
    exists child. unfold nr_flatbuffers_table_read_union. rewrite E1. cbn [mbind outcome_bind]. rewrite E2. cbn [negb]. rewrite E3.
    cbn [mbind outcome_bind]. rewrite Ec. done.
Qed.

(** ** A message *)
Section message.
Context `{BlockAligned}.

Lemma create_ready size : 0 ≤ size < 2 ^ 30 → size mod 4 = 0 → fb_ready (nr_flatbuffers_create size) ∧ contents (nr_flatbuffers_create size) = [].
Proof.
  intros Hs Hm. unfold nr_flatbuffers_create. destruct (Z.ltb_spec 0 size).
  - split.
    + split; [split| |done]; cbn -[replicate]; rewrite ?length_replicate; try lia; [|apply block_aligned|].
      * apply Forall_replicate. unfold is_byte. lia.
      * split; cbn; try lia.
    + unfold contents. cbn -[replicate]. rewrite drop_ge; [done|]. rewrite length_replicate. lia.
  - split; [|done]. split; [split|split|done]; cbn; try done; lia.
Qed.

Lemma prepend_string_ready fb s : fb_ready fb → is_cstr s → len fb + Z.of_nat (length s) + 20 < 2 ^ 30 →
  ∃ fb' p, nr_flatbuffers_prepend_string fb (Some s) = Done (len fb', fb') ∧ fb_ready fb' ∧ contents fb' = p ++ contents fb ∧
    Z.of_nat (length p) ≤ Z.of_nat (length s) + 8 ∧ string_at (contents fb') (len fb') s.
Proof.
  intros [Hi Hok Hout] Hs Hl. destruct (prepend_string_spec fb s Hi Hs Hl) as (fb' & k & E & He & Hk).
  exists fb', (le 4 (Z.of_nat (length s)) ++ (s ++ [0]) ++ replicate k 0). split; [done|].
  destruct (ex_fields _ _ _ He) as (Ei & _). pose proof (ex_inv _ _ _ He) as Hi'.
  split; [split; [done|exact (vtables_ok_extends _ _ _ Hok He)|congruence]|]. split; [apply He|]. split.
  { rewrite !length_app, length_le, length_replicate. cbn [length]. lia. }
  split; [done|]. rewrite len_contents, (ex_contents _ _ _ He) by done. 
  exists [], (replicate k 0 ++ contents fb). by rewrite <-!app_assoc.
Qed.

(** C10: What is written as the root object of a message is read back from it:
    every number, truth value, string and nested object of its fields, and the
    default for a field that has it or is not written.  Strings without
    characters are read as [NULL].  Nothing fails on the way, however often the
    buffer grows, and a vtable shared with an earlier object does no harm.  The
    buffer may hold other objects and strings already, but no object may be
    open in it and its block must be of at most two bytes or a multiple of four
    ([fb_ready]): created with a size of 0, as the agent does, or with another
    multiple of four.  With an odd size the builder can damage a vtable. *)
Theorem nr_flatbuffers_read_back fb n fs : fb_ready fb → 0 ≤ n ≤ 32765 → NoDup fs.*1 →
  Forall (λ '(i, f), 0 ≤ i < n ∧ field_ok (contents fb) f) fs → Z.of_nat (length fs) ≤ 4000 → len fb ≤ 2 ^ 29 →
  ∃ off fb1 fb2 msg tbl, write_object fb n fs = Done (off, fb1) ∧ nr_flatbuffers_finish fb1 off = Done fb2 ∧
    nr_flatbuffers_data (Some fb2) = Some msg ∧ nr_flatbuffers_len (Some fb2) = Z.of_nat (length msg) ∧
    nr_flatbuffers_table_init_root msg (Z.of_nat (length msg)) = Done tbl ∧
    Forall (λ '(i, f), field_read tbl i f) fs ∧
    ∀ i, 0 ≤ i < 2 ^ 32 → i ∉ fs.*1 → nr_flatbuffers_table_lookup tbl i = Done 0.
Proof.
  intros Hrd Hn Hnd Hfs Hl Hlen. pose proof (rd_inv _ Hrd) as Hi0. pose proof (len_contents fb Hi0) as El0.
  destruct (write_object_spec fb n fs) as (off & fb1 & p & F & E1 & Hrd1 & Ha1 & Hc1 & Hp & Ht & Hfa); try done.
  pose proof (len_contents fb1 (rd_inv _ Hrd1)) as El1. pose proof Hc1 as Ll. apply (f_equal length) in Ll. rewrite length_app in Ll.
  pose proof (table_bound _ _ _ Ht) as Hoff.
  destruct (finish_spec fb1 off (rd_inv _ Hrd1)) as (fb2 & q & E2 & Hi2 & Hc2 & Hq); [done|lia|lia|].
  pose proof (len_contents fb2 Hi2) as El2. pose proof Hc2 as Ll2. apply (f_equal length) in Ll2. rewrite !length_app, length_le in Ll2.
  assert (table_at (contents fb2) off F) as Ht2 by (rewrite Hc2, app_assoc; by apply table_at_app).
  destruct (table_init_spec (contents fb2) off F (Z.of_nat (length (contents fb2))) Ht2) as (tbl & Et & Ed & Hlk); [lia|].
  exists off, fb1, fb2, (contents fb2), tbl. split; [done|]. split; [done|]. split; [done|]. split; [exact El2|].
  assert (fields_at (contents fb) (contents fb2) F fs) as Hfa2 by (rewrite Hc2, app_assoc; by apply fields_at_app).
  assert (∀ i, default 0 (F !! i) = 0 ∨ default 0 (F !! i) < Z.of_nat (length (contents fb2))) as HF.
  { intros i. destruct (F !! i) as [v|] eqn:Ev; [|by left]. destruct Ht2 as [HF _]. pose proof (Forall_lookup_1 _ _ _ _ HF Ev). cbn in *. lia. }
  split; [|split].
  - unfold nr_flatbuffers_table_init_root, nr_flatbuffers_read_uoffset.
    replace 0 with (Z.of_nat (length (contents fb2)) - len fb2) at 1 by lia.
    rewrite (read_u32_at (contents fb2) (len fb2) (le 4 (len fb2 - off))); [|apply length_le|apply le_is_bytes|].
    + rewrite of_le_le. change (256 ^ Z.of_nat 4) with (2 ^ 32). rewrite Z.mod_small by lia. cbn [mbind outcome_bind]. by rewrite El2.
    + rewrite El2, Hc2 at 1. rewrite Hc2 at 1. apply located_front.
  - apply Forall_forall. intros [i f] Hin. rewrite Forall_forall in Hfs. destruct (Hfs _ Hin) as [Hix Hok].
    destruct (Hfa2 i) as [_ Hf]; [lia|]. specialize (Hf f Hin). specialize (HF (Z.to_nat i)).
    apply (field_read_spec (contents fb) tbl i f (default 0 (F !! Z.to_nat i))); rewrite ?Ed; try done.
    + exists (le 4 (len fb2 - off) ++ q ++ p). by rewrite Hc2, Hc1, <-!app_assoc.
    + lia.
    + rewrite Hlk by lia. done.
    + destruct (skipped f); [done|]. destruct Hf. split; [lia|done].
  - intros i Hi Hni. rewrite Hlk by done. destruct (Hfa2 i) as [Hz _]; [lia|]. by rewrite Hz.
Qed.
End message.

#[local] Instance page_address : BlockAddress := λ _, 4096.
#[local] Instance page_aligned : BlockAligned.
Proof. intros n. reflexivity. Qed.

Definition sample_fields (o : Z) : list (Z * field) :=
  [(0, FScalar I64 (-5) 0); (1, FScalar U16 7 7); (2, FString o (Some (lit "hello"))); (4, FBool 2 0)].

Lemma sample_string : ∃ fb, nr_flatbuffers_prepend_string (nr_flatbuffers_create 0) (Some (lit "hello")) = Done (len fb, fb) ∧
  fb_ready fb ∧ len fb ≤ 2 ^ 29 ∧ NoDup (sample_fields (len fb)).*1 ∧
  Forall (λ '(i, f), 0 ≤ i < 5 ∧ field_ok (contents fb) f) (sample_fields (len fb)).
Proof.
  destruct (create_ready 0) as [Hr Hc]; [lia|done|].
  assert (is_cstr (lit "hello")) as Hs by (apply (bool_decide_unpack _); vm_compute; exact I).
  destruct (prepend_string_ready _ _ Hr Hs) as (fb & p & E & Hr' & Hc' & Hp & Hst); [vm_compute; reflexivity|].
  exists fb. split; [exact E|]. split; [exact Hr'|]. split; [|split].
  - rewrite len_contents, Hc', Hc, app_nil_r by apply Hr'. assert (Z.of_nat (length (lit "hello")) = 5) as El by reflexivity. lia.
  - apply (bool_decide_unpack _). vm_compute. exact I.
  - apply Forall_cons_2; [cbn; lia|]. apply Forall_cons_2; [cbn; lia|]. apply Forall_cons_2; [split; [lia|exact Hst]|].
    apply Forall_cons_2; [split; [lia|exact I]|]. apply Forall_nil_2.
Qed.

Lemma sample_absent o : 3 ∉ (sample_fields o).*1.
Proof. apply (bool_decide_unpack _). vm_compute. exact I. Qed.

Lemma nr_flatbuffers_read_back_witness :
  ∃ o fb fb1 fb2 off msg tbl, nr_flatbuffers_prepend_string (nr_flatbuffers_create 0) (Some (lit "hello")) = Done (o, fb) ∧
    write_object fb 5 (sample_fields o) = Done (off, fb1) ∧ nr_flatbuffers_finish fb1 off = Done fb2 ∧ nr_flatbuffers_data (Some fb2) = Some msg ∧
    nr_flatbuffers_table_init_root msg (Z.of_nat (length msg)) = Done tbl ∧ Forall (λ '(i, f), field_read tbl i f) (sample_fields o) ∧
    nr_flatbuffers_table_lookup tbl 3 = Done 0.
Proof.
  destruct sample_string as (fb & E & Hr & Hl & Hnd & Hok).
  destruct (nr_flatbuffers_read_back fb 5 (sample_fields (len fb)))
    as (off & fb1 & fb2 & msg & tbl & E1 & E2 & E3 & _ & E4 & E5 & E6); [exact Hr|lia|exact Hnd|exact Hok|cbn; lia|exact Hl|].
  exists (len fb), fb, fb1, fb2, off, msg, tbl. split_and!; [exact E|exact E1|exact E2|exact E3|exact E4|exact E5|].
  apply E6; [lia|apply sample_absent].
Defined.
