(* ===== verification/TxnEvents.v ===== *)
(** * TxnEvents: the events of transactions (src/axiom/nr_txn.c, nr_custom_events.c, nr_analytics_events.c)

    A finished transaction becomes an event with its intrinsics and attributes,
    its error another one; the user's own events pass the checks of attributes. *)

From S2P Require Import Prelude Memory CString Strings Double Object ObjectJson ObjectParse ObjectRoundtrip ObjectFields Rules.
From S2P Require DistributedTrace Attributes AttributeConfig AnalyticsEvents Random.
From S2P Require Import Metrics Synthetics Errors Txn TxnName TxnCat TxnMetrics.
Local Open Scope Z_scope.

(** ** Events (nr_analytics_events.c) *)
Section event.
Context `{Allocator Z} (radix : Z).

Definition hash_or_null (o : obj) : bool := match o with None => true | Some _ => is_hash o end.

Definition nr_analytics_event_create (builtin_fields agent_attributes user_attributes : obj) : option AnalyticsEvents.nr_analytics_event_t :=
  if negb (hash_or_null builtin_fields) then None
  else if negb (hash_or_null agent_attributes) then None
  else if negb (hash_or_null user_attributes) then None
  else
    let empty_hash := Some nro_new_hash in
    let or_empty (o : obj) := match o with Some _ => o | None => empty_hash end in
    let arr := Some nro_new_array in
    let arr := (nro_set_array arr 1 (or_empty builtin_fields)).1 in
    let arr := (nro_set_array arr 2 (or_empty user_attributes)).1 in
    let arr := (nro_set_array arr 3 (or_empty agent_attributes)).1 in
    let json := nro_to_json radix arr in
    Some (AnalyticsEvents.nr_analytics_event_create_from_string (Some json)).
End event.

(** ** Numbers from metrics *)

(** The metric that [nrm_find] points to. *)
Definition found_metric (metrics : option nrmtable_t) (name : list Z) : option nrmetric_t :=
  let i := nrm_find metrics (Some name) in if i =? -1 then None else metrics ≫= λ t, metric_at t i.

Definition nr_txn_add_metric_total_as_attribute (attributes : obj) (metrics : option nrmtable_t) (metric_name attribute_name : list Z) : obj :=
  match found_metric metrics metric_name with
  | Some m =>
      let total := long_of (nrm_total (Some m)) in
      (nro_set_hash_double attributes (Some attribute_name) (seconds total)).1
  | None => attributes
  end.

Definition nr_txn_add_metric_count_as_attribute (attributes : obj) (metrics : option nrmtable_t) (metric_name attribute_name : list Z) : obj :=
  match found_metric metrics metric_name with
  | Some m =>
      let count := long_of (nrm_count (Some m)) in
      (nro_set_hash_int attributes (Some attribute_name) (int_of count)).1
  | None => attributes
  end.

Definition add_double (key : list Z) (d : double) (o : obj) : obj := (nro_set_hash_double o (Some key) d).1.
Definition add_synthetics (s : option nr_synthetics_t) (o : obj) : obj :=
  match s with
  | Some _ =>
      add_string (lit "nr.syntheticsMonitorId") (nr_synthetics_monitor_id s)
        (add_string (lit "nr.syntheticsJobId") (nr_synthetics_job_id s)
          (add_string (lit "nr.syntheticsResourceId") (nr_synthetics_resource_id s) o))
  | None => o
  end.

Definition nr_txn_start_time_secs (txn : option nrtxn_t) : double := seconds (nr_txn_start_time txn).

(** ** The events of a transaction *)
Section txn_events.
Context `{Allocator Z} `{QsortR} (radix : Z) (start : Md5.nr_MD5_CTX).

Definition nr_error_to_event (txn : option nrtxn_t) : option AnalyticsEvents.nr_analytics_event_t :=
  match txn with
  | None => None
  | Some t =>
      if error_events_enabled (options t) =? 0 then None
      else match txn_error t with
      | None => None
      | Some _ =>
          let e := txn_error t in
          let duration := nr_txn_duration txn in
          let when := nr_error_get_time e in
          let o := Some nro_new_hash in
          let o := add_string (lit "type") (Some (lit "TransactionError")) o in
          let o := add_double (lit "timestamp") (seconds when) o in
          let o := add_string (lit "error.class") (nr_error_get_klass e) o in
          let o := add_string (lit "error.message") (nr_error_get_message e) o in
          let o := add_string (lit "transactionName") (txn_name t) o in
          let o := add_double (lit "duration") (seconds duration) o in
          let m := unscoped_metrics t in
          let o := nr_txn_add_metric_total_as_attribute o m (lit "WebFrontend/QueueTime") (lit "queueDuration") in
          let o := nr_txn_add_metric_total_as_attribute o m (lit "External/all") (lit "externalDuration") in
          let o := nr_txn_add_metric_total_as_attribute o m (lit "Datastore/all") (lit "databaseDuration") in
          let o := nr_txn_add_metric_total_as_attribute o m (lit "MessageBroker/all") (lit "messageDuration") in
          let o := nr_txn_add_metric_count_as_attribute o m (lit "Datastore/all") (lit "databaseCallCount") in
          let o := nr_txn_add_metric_count_as_attribute o m (lit "External/all") (lit "externalCallCount") in
          let o := nr_txn_add_metric_count_as_attribute o m (lit "MessageBroker/all") (lit "messageCallCount") in
          let o := add_string (lit "nr.transactionGuid") (nr_txn_get_guid txn) o in
          let o := add_string (lit "guid") (nr_txn_get_guid txn) o in
          let referring := inbound_guid (cat t) in
          let o := when_some referring (add_string (lit "nr.referringTransactionGuid") referring) o in
          let o := add_synthetics (synthetics t) o in
          let o :=
            if flag (distributed_tracing_enabled (options t)) then
              let o := nr_txn_add_distributed_tracing_intrinsics txn o in
              let span := nr_error_get_span_id e in
              when_some span (add_string (lit "spanId") span) o
            else o in
          let agent_attributes := Attributes.nr_attributes_agent_to_obj (attributes t) AttributeConfig.NR_ATTRIBUTE_DESTINATION_ERROR in
          let user_attributes := Attributes.nr_attributes_user_to_obj (attributes t) AttributeConfig.NR_ATTRIBUTE_DESTINATION_ERROR in
          nr_analytics_event_create radix o agent_attributes user_attributes
      end
  end.

Definition nr_txn_event_intrinsics (txn : nrtxn_t) : outcome obj :=
  let duration := nr_txn_duration (Some txn) in
  let o := Some nro_new_hash in
  let o := add_string (lit "type") (Some (lit "Transaction")) o in
  let o := add_string (lit "name") (txn_name txn) o in
  let o := add_double (lit "timestamp") (nr_txn_start_time_secs (Some txn)) o in
  let o := add_double (lit "duration") (seconds duration) o in
  let o := add_double (lit "totalTime") (seconds (final_total_time txn)) o in
  let o := if nr_txn_event_should_add_guid (Some txn) then add_string (lit "nr.guid") (nr_txn_get_guid (Some txn)) o else o in
  let o :=
    if nr_txn_should_create_apdex_metrics (Some txn) then
      let apdex := nr_apdex_zone_label (nr_txn_apdex_zone (Some txn) duration) in
      add_string (lit "nr.apdexPerfZone") (Some [apdex]) o
    else o in
  let o := add_synthetics (synthetics txn) o in
  o ← nr_txn_add_cat_analytics_intrinsics start (Some txn) o;
  let m := unscoped_metrics txn in
  let o := nr_txn_add_metric_total_as_attribute o m (lit "WebFrontend/QueueTime") (lit "queueDuration") in
  let o := nr_txn_add_metric_total_as_attribute o m (lit "External/all") (lit "externalDuration") in
  let o := nr_txn_add_metric_count_as_attribute o m (lit "External/all") (lit "externalCallCount") in
  let o := nr_txn_add_metric_total_as_attribute o m (lit "Datastore/all") (lit "databaseDuration") in
  let o := nr_txn_add_metric_count_as_attribute o m (lit "Datastore/all") (lit "databaseCallCount") in
  let o := nr_txn_add_metric_total_as_attribute o m (lit "MessageBroker/all") (lit "messageDuration") in
  let o := nr_txn_add_metric_count_as_attribute o m (lit "MessageBroker/all") (lit "messageCallCount") in
  let o := if flag (distributed_tracing_enabled (options txn)) then nr_txn_add_distributed_tracing_intrinsics (Some txn) o else o in
  Done (nro_set_hash_boolean o (Some (lit "error")) (match txn_error txn with Some _ => 1 | None => 0 end)).1.

Definition nr_txn_to_event (txn : option nrtxn_t) : outcome (option AnalyticsEvents.nr_analytics_event_t) :=
  match txn with
  | None => Done None
  | Some t =>
      if analytics_events_enabled (options t) =? 0 then Done None
      else
        params ← nr_txn_event_intrinsics t;
        let agent_attributes := Attributes.nr_attributes_agent_to_obj (attributes t) AttributeConfig.NR_ATTRIBUTE_DESTINATION_TXN_EVENT in
        let user_attributes := Attributes.nr_attributes_user_to_obj (attributes t) AttributeConfig.NR_ATTRIBUTE_DESTINATION_TXN_EVENT in
        Done (nr_analytics_event_create radix params agent_attributes user_attributes)
  end.

(** ** The user's events (nr_custom_events.c) *)
Definition nr_custom_events_iter (key : list Z) (val : nrobj_t) (atts : option Attributes.nr_attributes_t) :
    option Attributes.nr_attributes_t * nr_status_t :=
  ((Attributes.nr_attributes_user_add atts AttributeConfig.NR_ATTRIBUTE_DESTINATION_TXN_EVENT (Some key) (Some val)).2, NR_SUCCESS).

Definition nr_custom_event_valid_event_type_chars : list Z :=
  lit "abcdefghijklmnopqrstuvwxyzABCDEFGHIJKLMNOPQRSTUVWXYZ0123456789:_ ".

Definition nr_custom_events_valid_event_type (type : option (list Z)) : bool :=
  match type with
  | None => false
  | Some s =>
      if Attributes.NR_ATTRIBUTE_KEY_LENGTH_LIMIT <? nr_strlen type then false
      else
        let idx := nr_strspn type (Some nr_custom_event_valid_event_type_chars) in
        if (idx <=? 0) || negb (char_at s idx =? 0) then false else true
  end.

(** The event that is offered to the reservoir. *)
Definition custom_event (type : option (list Z)) (params : obj) (now : Z) : option AnalyticsEvents.nr_analytics_event_t :=
  let intrinsics := Some nro_new_hash in
  let intrinsics := add_string (lit "type") type intrinsics in
  let intrinsics := add_double (lit "timestamp") (seconds now) intrinsics in
  let atts := nro_iteratehash params (Some nr_custom_events_iter) (Some (Attributes.nr_attributes_create None)) in
  let validated := Attributes.nr_attributes_user_to_obj atts AttributeConfig.NR_ATTRIBUTE_DESTINATION_TXN_EVENT in
  nr_analytics_event_create radix intrinsics None validated.

(** The reservoir and the generator, as [nr_analytics_events_add_event] has them. *)
Definition nr_custom_events_add_event (custom_events : option AnalyticsEvents.nr_analytics_events_t) (type : option (list Z)) (params : obj)
    (now : Z) (rnd : option Random.nr_random_t) : option (option AnalyticsEvents.nr_analytics_events_t * option Random.nr_random_t) :=
  match params with
  | None => Some (custom_events, rnd)
  | Some _ =>
      if negb (nr_custom_events_valid_event_type type) then Some (custom_events, rnd)
      else AnalyticsEvents.nr_analytics_events_add_event custom_events (custom_event type params now) rnd
  end.

Definition nr_txn_record_custom_event_internal (txn : option nrtxn_t) (type : option (list Z)) (params : obj) (now : Z) : option (option nrtxn_t) :=
  match txn with
  | None => Some txn
  | Some t =>
      if recording (status t) =? 0 then Some txn
      else if flag (high_security t) then Some txn
      else if custom_events_enabled (options t) =? 0 then Some txn
      else
        let rnd := Random.nr_random_seed (Some Random.nr_random_create) now in
        '(events, rnd) ← nr_custom_events_add_event (custom_events t) type params now rnd;
        Some (Some (set_custom_events events t))
  end.
End txn_events.

(** [(nrtime_t)d] *)
Definition nrtime_of_double (d : double) : outcome Z :=
  match d with
  | SpecFloat.S754_zero _ => Done 0
  | SpecFloat.S754_finite s m e =>
      let a := Z.shiftl (Z.pos m) e in
      if (if s then a =? 0 else a <? 2 ^ 64) then Done a else Undefined
  | _ => Undefined
  end.

Definition isnan (d : double) : bool := match d with SpecFloat.S754_nan => true | _ => false end.
Definition isinf (d : double) : bool := match d with SpecFloat.S754_infinity _ => true | _ => false end.

Definition nr_txn_add_custom_metric (txn : option nrtxn_t) (name : option (list Z)) (value_ms : double) : outcome (nr_status_t * option nrtxn_t) :=
  match txn, name with
  | Some t, Some _ =>
      if recording (status t) =? 0 then Done (NR_FAILURE, txn)
      else if isnan value_ms || isinf value_ms then Done (NR_FAILURE, txn)
      else
        value ← nrtime_of_double (SpecFloat.SFmul prec emax (double_of 1000) value_ms);
        Done (NR_SUCCESS, Some (on_metrics (λ m, nrm_add m name value) t))
  | _, _ => Done (NR_FAILURE, txn)
  end.

(** ** What an event holds *)
Definition put_field (o : obj) (f : list Z * option nrobj_t) : obj :=
  match f.2 with Some v => (nro_internal_setvalue_hash o (Some f.1) (Some v)).1 | None => o end.

Lemma holds_fields_put {D} (l : field_list) : ∀ o l0, holds_with D o l0 → NoDup (l0 ++ l).*1 →
  Forall (λ f, key_ok f.1 ∧ from_option (obj_well D) True f.2) l → holds_with D (foldl put_field o l) (l0 ++ l).
Proof.
  induction l as [|[k v] l IH]; intros o l0 Ho Hn Hl; [by rewrite app_nil_r|]. cbn [foldl].
  apply Forall_cons in Hl as [[Hk Hv] Hl]. cbn [fst snd] in Hk, Hv.
  replace (l0 ++ (k, v) :: l) with ((l0 ++ [(k, v)]) ++ l) in Hn |- * by by rewrite <-app_assoc.
  assert (k ∉ l0.*1) as Hni.
  { rewrite !fmap_app in Hn. apply NoDup_app in Hn as (Hn & _ & _). apply NoDup_app in Hn as (_ & Hd & _).
    intros Hin. apply (Hd k Hin). cbn. left. }
  apply IH; [|done..]. unfold put_field. cbn [fst snd]. destruct v as [v|]; [by apply holds_set|by apply holds_skip].
Qed.

(** A double of a time, in seconds. *)
Definition seconds_field (time : Z) : option nrobj_t := Some (ODouble (seconds time)).
Definition text_field (v : option (list Z)) : option nrobj_t := Some (nro_new_string v).
Definition text_when (v : option (list Z)) : option nrobj_t := match v with Some _ => text_field v | None => None end.
Definition field_when (b : bool) (v : option nrobj_t) : option nrobj_t := if b then v else None.

Section fields.
Context (l : list (list Z * stats)).
Definition total_field (metric key : list Z) : list Z * option nrobj_t :=
  (key, (λ s, ODouble (seconds (long_of (s_total s)))) <$> stats_of l metric).
Definition count_field (metric key : list Z) : list Z * option nrobj_t :=
  (key, (λ s, nro_new_int (int_of (long_of (s_count s)))) <$> stats_of l metric).

Definition synthetics_fields (s : option nr_synthetics_t) : field_list :=
  let id get := match s with Some _ => text_field (get s) | None => None end in
  [(lit "nr.syntheticsResourceId", id nr_synthetics_resource_id); (lit "nr.syntheticsJobId", id nr_synthetics_job_id);
   (lit "nr.syntheticsMonitorId", id nr_synthetics_monitor_id)].

Definition trace_fields (t : nrtxn_t) : field_list :=
  let dt := distributed_trace t in
  let on := flag (distributed_tracing_enabled (options t)) in
  let inbound := on && has_type t NR_TXN_TYPE_DT_INBOUND in
  let non_empty v := field_when (inbound && negb (nr_strempty v)) (text_field v) in
  [(lit "guid", field_when on (text_field (nr_txn_get_guid (Some t))));
   (lit "sampled", field_when on (Some (nro_new_boolean (if DistributedTrace.nr_distributed_trace_is_sampled dt then 1 else 0))));
   (lit "priority", field_when on (Some (ODouble (DistributedTrace.nr_distributed_trace_get_priority dt))));
   (lit "traceId", field_when on (text_field (DistributedTrace.nr_distributed_trace_get_trace_id dt)));
   (lit "parent.type", field_when inbound (text_when (DistributedTrace.nr_distributed_trace_inbound_get_type dt)));
   (lit "parent.app", field_when inbound (text_when (DistributedTrace.nr_distributed_trace_inbound_get_app_id dt)));
   (lit "parent.account", field_when inbound (text_when (DistributedTrace.nr_distributed_trace_inbound_get_account_id dt)));
   (lit "parent.transportType", field_when inbound (text_field (DistributedTrace.nr_distributed_trace_inbound_get_transport_type dt)));
   (lit "parent.transportDuration", field_when (inbound && DistributedTrace.nr_distributed_trace_inbound_has_timestamp dt)
      (Some (ODouble (double_of (DistributedTrace.nr_distributed_trace_inbound_get_timestamp_delta dt (nr_txn_start_time (Some t)) / NR_TIME_DIVISOR)))));
   (lit "parentSpanId", non_empty (DistributedTrace.nr_distributed_trace_inbound_get_guid dt));
   (lit "parentId", non_empty (DistributedTrace.nr_distributed_trace_inbound_get_txn_id dt))].

(** The event of a transaction, given the hashes of its path. *)
Definition event_fields (t : nrtxn_t) (path_hash alternate : option (list Z)) : field_list :=
  let duration := nr_txn_duration (Some t) in
  let is_cat := nr_txn_is_cat (Some t) in
  [(lit "type", text_field (Some (lit "Transaction"))); (lit "name", text_field (txn_name t));
   (lit "timestamp", seconds_field (nr_txn_start_time (Some t))); (lit "duration", seconds_field duration); (lit "totalTime", seconds_field (final_total_time t));
   (lit "nr.guid", field_when (nr_txn_event_should_add_guid (Some t)) (text_field (nr_txn_get_guid (Some t))));
   (lit "nr.apdexPerfZone", field_when (nr_txn_should_create_apdex_metrics (Some t)) (text_field (Some [nr_apdex_zone_label (nr_txn_apdex_zone (Some t) duration)])))] ++
  synthetics_fields (synthetics t) ++
  [(lit "nr.tripId", field_when is_cat (text_field (nr_txn_get_cat_trip_id (Some t)))); (lit "nr.pathHash", field_when is_cat (text_field path_hash));
   (lit "nr.referringPathHash", field_when is_cat (text_when (referring_path_hash (cat t))));
   (lit "nr.referringTransactionGuid", field_when is_cat (text_when (inbound_guid (cat t))));
   (lit "nr.alternatePathHashes", field_when is_cat (text_when alternate));
   total_field (lit "WebFrontend/QueueTime") (lit "queueDuration"); total_field (lit "External/all") (lit "externalDuration");
   count_field (lit "External/all") (lit "externalCallCount"); total_field (lit "Datastore/all") (lit "databaseDuration");
   count_field (lit "Datastore/all") (lit "databaseCallCount"); total_field (lit "MessageBroker/all") (lit "messageDuration");
   count_field (lit "MessageBroker/all") (lit "messageCallCount")] ++
  trace_fields t ++
  [(lit "error", Some (nro_new_boolean (match txn_error t with Some _ => 1 | None => 0 end)))].
End fields.

Lemma found_metric_stats table mx l n : represents table mx l → is_cstr n → read_metric <$> found_metric (Some table) n = stats_of l n.
Proof.
  intros Hr Hn. rewrite <-(find_stats table mx l n Hr Hn). unfold found_metric, read_index. by destruct (_ =? -1).
Qed.

Lemma put_total o table mx l metric key : represents table mx l → is_cstr metric →
  nr_txn_add_metric_total_as_attribute o (Some table) metric key = put_field o (total_field l metric key).
Proof.
  intros Hr Hn. unfold nr_txn_add_metric_total_as_attribute, put_field, total_field. cbn [fst snd].
  rewrite <-(found_metric_stats table mx l metric Hr Hn). by destruct (found_metric _ _).
Qed.

Lemma put_count o table mx l metric key : represents table mx l → is_cstr metric →
  nr_txn_add_metric_count_as_attribute o (Some table) metric key = put_field o (count_field l metric key).
Proof.
  intros Hr Hn. unfold nr_txn_add_metric_count_as_attribute, put_field, count_field. cbn [fst snd].
  rewrite <-(found_metric_stats table mx l metric Hr Hn). by destruct (found_metric _ _).
Qed.

Lemma put_synthetics o s : add_synthetics s o = foldl put_field o (synthetics_fields s).
Proof. by destruct s. Qed.

Lemma put_string k v o : add_string k v o = put_field o (k, text_field v).
Proof. done. Qed.
Lemma put_double k d o : add_double k d o = put_field o (k, Some (ODouble d)).
Proof. done. Qed.
Lemma put_string_if (b : bool) k v o : (if b then add_string k v o else o) = put_field o (k, field_when b (text_field v)).
Proof. by destruct b. Qed.
Lemma put_when k v o : when_some v (add_string k v) o = put_field o (k, text_when v).
Proof. by destruct v. Qed.
Lemma put_non_empty k v o : add_non_empty k v o = put_field o (k, field_when (negb (nr_strempty v)) (text_field v)).
Proof. unfold add_non_empty. by destruct (negb _). Qed.

Lemma put_trace t op o : o = Some op →
  (if flag (distributed_tracing_enabled (options t)) then nr_txn_add_distributed_tracing_intrinsics (Some t) o else o) = foldl put_field o (trace_fields t).
Proof.
  intros ->. unfold trace_fields. destruct (flag _); [|done]. cbn [nr_txn_add_distributed_tracing_intrinsics].
  destruct (has_type t NR_TXN_TYPE_DT_INBOUND); [|done]. rewrite !put_when, !put_non_empty, !put_string. cbn [andb foldl].
  destruct (DistributedTrace.nr_distributed_trace_inbound_has_timestamp _); reflexivity.
Qed.

Lemma put_is_some o f : is_Some o → is_Some (put_field o f).
Proof.
  intros [op ->]. unfold put_field. destruct f as [k [v|]]; [|by eexists]. cbn [fst snd].
  unfold nro_internal_setvalue_hash. repeat case_match; simplify_eq; by eexists.
Qed.

Lemma put_all_some l o : is_Some o → is_Some (foldl put_field o l).
Proof. revert o. induction l as [|f l IH]; intros o Ho; [done|]. cbn [foldl]. by apply IH, put_is_some. Qed.

(** The strings of an event. *)
Definition is_text (v : option (list Z)) : Prop := Forall is_byte (default [] v).
Record texts_ok (t : nrtxn_t) (path_hash alternate : option (list Z)) : Prop := {
  tx_name : is_text (txn_name t);
  tx_guid : is_text (nr_txn_get_guid (Some t));
  tx_trip : is_text (nr_txn_get_cat_trip_id (Some t));
  tx_path : is_text path_hash;
  tx_alternate : is_text alternate;
  tx_referring : is_text (referring_path_hash (cat t));
  tx_inbound : is_text (inbound_guid (cat t));
  tx_resource : is_text (nr_synthetics_resource_id (synthetics t));
  tx_job : is_text (nr_synthetics_job_id (synthetics t));
  tx_monitor : is_text (nr_synthetics_monitor_id (synthetics t));
  tx_trace : is_text (DistributedTrace.nr_distributed_trace_get_trace_id (distributed_trace t));
  tx_type : is_text (DistributedTrace.nr_distributed_trace_inbound_get_type (distributed_trace t));
  tx_app : is_text (DistributedTrace.nr_distributed_trace_inbound_get_app_id (distributed_trace t));
  tx_account : is_text (DistributedTrace.nr_distributed_trace_inbound_get_account_id (distributed_trace t));
  tx_transport : is_text (DistributedTrace.nr_distributed_trace_inbound_get_transport_type (distributed_trace t));
  tx_span : is_text (DistributedTrace.nr_distributed_trace_inbound_get_guid (distributed_trace t));
  tx_txn : is_text (DistributedTrace.nr_distributed_trace_inbound_get_txn_id (distributed_trace t)) }.

Definition field_well (v : option nrobj_t) : Prop := from_option (obj_well (λ _, True)) True v.

Lemma text_well v : is_text v → field_well (text_field v).
Proof. intros Hv. cbn. constructor. cbn. destruct v as [s|]; [|constructor]. unfold nr_strdup. by apply cstr_is_cstr. Qed.
Lemma text_when_well v : is_text v → field_well (text_when v).
Proof. destruct v; [apply text_well|done]. Qed.
Lemma when_well b v : field_well v → field_well (field_when b v).
Proof. by destruct b. Qed.
Lemma double_well d : field_well (Some (ODouble d)).
Proof. by constructor. Qed.
Lemma seconds_well x : field_well (seconds_field x).
Proof. by constructor. Qed.
Lemma boolean_well (b : Z) : field_well (Some (nro_new_boolean b)).
Proof. cbn. unfold nro_new_boolean. constructor. unfold int_range. destruct (b =? 0); lia. Qed.
Lemma total_well l metric key : field_well (total_field l metric key).2.
Proof. cbn. destruct (stats_of l metric); [|done]. by constructor. Qed.
Lemma count_well l metric key : field_well (count_field l metric key).2.
Proof.
  cbn. destruct (stats_of l metric); [|done]. constructor; [|lia]. unfold int_range, int_of.
  pose proof (u32_range (long_of (s_count s))). destruct (Z.ltb_spec (u32 (long_of (s_count s))) (2 ^ 31)); lia.
Qed.
Lemma if_well {A} (s : option A) v : field_well v → field_well (match s with Some _ => v | None => None end).
Proof. by destruct s. Qed.

Lemma letter_text zone : is_text (Some [nr_apdex_zone_label zone]).
Proof. apply Forall_singleton. unfold is_byte. destruct zone; cbn; lia. Qed.
Lemma closed_text s : bool_decide (Forall is_byte s) = true → is_text (Some s).
Proof. intros H. by apply bool_decide_eq_true in H. Qed.

Create HintDb fields discriminated.
#[local] Hint Resolve text_well text_when_well when_well double_well seconds_well boolean_well total_well count_well if_well letter_text : fields.

Ltac field_ok := split; [by_key|cbn [snd]; solve [auto with fields]].

Lemma synthetics_fields_well s : is_text (nr_synthetics_resource_id s) → is_text (nr_synthetics_job_id s) → is_text (nr_synthetics_monitor_id s) →
  Forall (λ f, key_ok f.1 ∧ field_well f.2) (synthetics_fields s).
Proof. intros. unfold synthetics_fields. repeat (apply Forall_cons_2; [field_ok|]). apply Forall_nil_2. Qed.

Lemma trace_fields_well t path_hash alternate : texts_ok t path_hash alternate →
  Forall (λ f, key_ok f.1 ∧ field_well f.2) (trace_fields t).
Proof. intros []. unfold trace_fields. repeat (apply Forall_cons_2; [field_ok|]). apply Forall_nil_2. Qed.

Lemma event_fields_well l t path_hash alternate : texts_ok t path_hash alternate →
  Forall (λ f, key_ok f.1 ∧ field_well f.2) (event_fields l t path_hash alternate).
Proof.
  intros Hok. pose proof Hok as []. unfold event_fields. rewrite !Forall_app. split_and!.
  - apply Forall_cons_2; [split; [by_key|apply text_well, closed_text; vm_compute; reflexivity]|].
    repeat (apply Forall_cons_2; [field_ok|]). apply Forall_nil_2.
  - by apply synthetics_fields_well.
  - repeat (apply Forall_cons_2; [field_ok|]). apply Forall_nil_2.
  - by eapply trace_fields_well.
  - repeat (apply Forall_cons_2; [field_ok|]). apply Forall_nil_2.
Qed.

Lemma event_fields_keys l t path_hash alternate : NoDup (event_fields l t path_hash alternate).*1.
Proof. apply (bool_decide_unpack _). vm_compute. exact I. Qed.

(** The intrinsics as one sequence of fields. *)
Lemma intrinsics_put `{QsortR} start t table mx l alternate : unscoped_metrics t = Some table → represents table mx l →
  (nr_txn_is_cat (Some t) = true → nr_txn_get_alternate_path_hashes start (Some t) = Done alternate) →
  (∀ o, o = foldl put_field (Some nro_new_hash) (take 10 (event_fields l t None None)) → is_hash o = true) →
  nr_txn_event_intrinsics start t =
    Done (foldl put_field (Some nro_new_hash) (event_fields l t (nr_txn_current_path_hash start (Some t)) alternate)).
Proof.
  intros Ht Hr Halt Hhash. unfold nr_txn_event_intrinsics. cbv zeta. rewrite Ht. unfold nr_txn_start_time_secs.
  rewrite !put_string_if, put_synthetics, !put_string, !put_double.
  set (o1 := foldl put_field _ (synthetics_fields _)).
  assert (is_hash o1 = true) as Hh1 by by apply Hhash.
  assert (is_Some o1) as Ho1 by (apply put_all_some; repeat apply put_is_some; by eexists).
  set (path_hash := nr_txn_current_path_hash start (Some t)).
  set (cat_fields := [(lit "nr.tripId", field_when (nr_txn_is_cat (Some t)) (text_field (nr_txn_get_cat_trip_id (Some t))));
   (lit "nr.pathHash", field_when (nr_txn_is_cat (Some t)) (text_field path_hash));
   (lit "nr.referringPathHash", field_when (nr_txn_is_cat (Some t)) (text_when (referring_path_hash (cat t))));
   (lit "nr.referringTransactionGuid", field_when (nr_txn_is_cat (Some t)) (text_when (inbound_guid (cat t))));
   (lit "nr.alternatePathHashes", field_when (nr_txn_is_cat (Some t)) (text_when alternate))]).
  assert (nr_txn_add_cat_analytics_intrinsics start (Some t) o1 = Done (foldl put_field o1 cat_fields)) as ->.
  { unfold nr_txn_add_cat_analytics_intrinsics, cat_fields. rewrite Hh1. destruct (nr_txn_is_cat (Some t)); [|done].
    cbn [negb orb]. rewrite Halt by done. cbn [mbind option_bind]. cbn [mbind outcome_bind]. by rewrite !put_when, !put_string. }
  cbn [mbind outcome_bind]. set (o2 := foldl put_field o1 cat_fields).
  rewrite !(put_total _ table mx l), !(put_count _ table mx l) by (done || text).
  set (o3 := put_field _ (count_field l (lit "MessageBroker/all") _)).
  assert (is_Some o3) as [op3 E3] by (repeat apply put_is_some; first [by eexists|by apply put_all_some]).
  by rewrite (put_trace t op3).
Qed.

(** C19: The intrinsics of a finished transaction are exactly these fields, each
    under its own key: its name and times, its apdex zone and identifiers, the
    hashes of its path, the number and total time of its external, database and
    message calls as its metrics have them, and its place in a distributed
    trace; nothing else is there. *)
Theorem nr_txn_event_has_fields `{QsortR} start t table mx l alternate : unscoped_metrics t = Some table → represents table mx l →
  (nr_txn_is_cat (Some t) = true → nr_txn_get_alternate_path_hashes start (Some t) = Done alternate) →
  texts_ok t (nr_txn_current_path_hash start (Some t)) alternate →
  ∃ o, let fields := event_fields l t (nr_txn_current_path_hash start (Some t)) alternate in
    nr_txn_event_intrinsics start t = Done o ∧ NoDup fields.*1 ∧
    Forall (λ '(k, v), nro_get_hash_value o (Some k) = (v, NR_SUCCESS)) fields ∧
    ∀ k, key_ok k → k ∉ fields.*1 → nro_get_hash_value o (Some k) = (None, NR_SUCCESS).
Proof.
  intros Ht Hr Halt Htx. set (path_hash := nr_txn_current_path_hash start (Some t)) in *.
  assert (∀ fs, NoDup fs.*1 → Forall (λ f, key_ok f.1 ∧ field_well f.2) fs → holds_with (λ _, True) (foldl put_field (Some nro_new_hash) fs) fs) as Hput.
  { intros fs Hn Hf. apply (holds_fields_put fs _ []); [apply holds_new|done|done]. }
  pose proof (Hput _ (event_fields_keys l t path_hash alternate) (event_fields_well l t _ _ Htx)) as Hh.
  eexists. cbv zeta. split; [|split; [apply event_fields_keys|split]].
  - apply (intrinsics_put start t table mx l alternate Ht Hr Halt). intros o ->.
    assert (take 10 (event_fields l t None None) = take 10 (event_fields l t path_hash alternate)) as -> by reflexivity.
    destruct (Hput (take 10 (event_fields l t path_hash alternate))) as [(a & -> & _) _ _]; [| |done].
    + rewrite fmap_take. eapply sublist_NoDup; [apply event_fields_keys|apply sublist_take].
    + by apply Forall_take, event_fields_well.
  - apply Forall_forall. intros [k v] Hin. by apply (holds_get _ _ k v Hh).
  - intros k Hk Hni. by apply (absent_get _ _ k Hh).
Qed.

#[local] Instance sorting : QsortR := MergeSort.qsort_r.
Definition context0 : Md5.nr_MD5_CTX := Md5.Context 0 0 Md5.init_registers (replicate 64 0).
Definition calling_table : nrmtable_t := default (nrm_table_create 0) (nrm_add (Some (nrm_table_create 0)) (Some (lit "Datastore/all")) 2500).
Definition calling_txn : nrtxn_t := on_metrics (λ _, Some calling_table) web_txn.

Lemma calling_texts : texts_ok calling_txn (nr_txn_current_path_hash context0 (Some calling_txn)) None.
Proof. split; apply (bool_decide_unpack _); vm_compute; exact I. Qed.

Lemma calling_stats : ∃ l, represents calling_table 2048 l ∧
  stats_of l (lit "Datastore/all") = Some (Stats false false 1 2500 2500 2500 2500 6250000) ∧ stats_of l (lit "External/all") = None.
Proof.
  destruct (run_spec 2048 [Add false (Some (lit "Datastore/all")) 1 2500 2500 2500 2500 6250000] (nrm_table_create 0) [] (create_table_spec 0)) as (t' & E & Hr);
    [apply Forall_singleton; text|].
  eexists. split; [replace calling_table with t'; [exact Hr|]|split; vm_compute; reflexivity].
  unfold calling_table. change (foldl exec (Some (nrm_table_create 0)) _) with (nrm_add (Some (nrm_table_create 0)) (Some (lit "Datastore/all")) 2500) in E.
  by rewrite E.
Qed.

Lemma nr_txn_event_has_fields_witness : ∃ o, nr_txn_event_intrinsics context0 calling_txn = Done o ∧
  nro_get_hash_value o (Some (lit "name")) = (Some (OString (Some (lit "WebTransaction/Uri/i"))), NR_SUCCESS) ∧
  nro_get_hash_value o (Some (lit "databaseCallCount")) = (Some (OInt 1 0), NR_SUCCESS) ∧
  nro_get_hash_value o (Some (lit "externalCallCount")) = (None, NR_SUCCESS) ∧
  nro_get_hash_value o (Some (lit "nr.apdexPerfZone")) = (Some (OString (Some (lit "S"))), NR_SUCCESS).
Proof.
  destruct calling_stats as (l & Hr & Hd & He).
  destruct (nr_txn_event_has_fields context0 calling_txn calling_table 2048 l None) as (o & E & _ & Hf & _);
    [reflexivity|exact Hr|intros Hc; vm_compute in Hc; discriminate|exact calling_texts|].
  exists o. split; [exact E|].
  split; [exact (Forall_lookup_1 _ _ 1 _ Hf eq_refl)|].
  split; [change (Some (OInt 1 0)) with ((λ s, nro_new_int (int_of (long_of (s_count s)))) <$> Some (Stats false false 1 2500 2500 2500 2500 6250000)); rewrite <-Hd;
    exact (Forall_lookup_1 _ _ 19 _ Hf eq_refl)|].
  split; [change (@None nrobj_t) with ((λ s, nro_new_int (int_of (long_of (s_count s)))) <$> None); rewrite <-He; exact (Forall_lookup_1 _ _ 17 _ Hf eq_refl)|].
  exact (Forall_lookup_1 _ _ 6 _ Hf eq_refl).
Defined.
