(* ===== verification/Guid.v ===== *)
(** * Guid: random identifiers (src/axiom/nr_guid.c)

    Identifiers of transactions and spans, and trace ids, are hexadecimal digits
    drawn one by one. *)

From S2P Require Import Prelude CString Strings.
From S2P Require Import Random.
Local Open Scope Z_scope.

Definition NR_GUID_SIZE : Z := 16.
Definition NR_TRACE_ID_SIZE : Z := 32.
Definition hex_digits : list Z := lit "0123456789abcdef".

(** The loop of [nr_guid_create]; [None] when a draw would not return. *)
Fixpoint guid_loop (n : nat) (rnd : option nr_random_t) : option (list Z * option nr_random_t) :=
  match n with
  | O => Some ([], rnd)
  | S n =>
      '(r, rnd) ← nr_random_range rnd 0xf;
      '(guid, rnd) ← guid_loop n rnd;
      Some (char_at hex_digits r :: guid, rnd)
  end.

Definition nr_guid_create (rnd : option nr_random_t) : option (list Z * option nr_random_t) :=
  guid_loop (Z.to_nat NR_GUID_SIZE) rnd.

(** The loop of [nr_trace_id_create] also remembers whether a digit was not zero. *)
Fixpoint trace_id_loop (n : nat) (rnd : option nr_random_t) (any_nonzero : bool) : option (list Z * option nr_random_t * bool) :=
  match n with
  | O => Some ([], rnd, any_nonzero)
  | S n =>
      '(r, rnd) ← nr_random_range rnd 0xf;
      '(tid, rnd, any_nonzero) ← trace_id_loop n rnd (if negb (r =? 0) then true else any_nonzero);
      Some (char_at hex_digits r :: tid, rnd, any_nonzero)
  end.

Definition nr_trace_id_create (rnd : option nr_random_t) : option (list Z * option nr_random_t) :=
  '(tid, rnd, any_nonzero) ← trace_id_loop (Z.to_nat NR_TRACE_ID_SIZE) rnd false;
  let tid := if negb any_nonzero then <[Z.to_nat (NR_TRACE_ID_SIZE - 1):=49]> tid else tid in
  if existsb (λ c, negb (c =? 48)) (take (Z.to_nat NR_GUID_SIZE) tid) then Some (tid, rnd)
  else
    '(r, rnd) ← nr_random_range rnd 0xf;
    Some (<[0%nat:=char_at hex_digits (r + 1)]> tid, rnd).

(** ** What is drawn *)
Definition hex_digit (c : Z) : Prop := c ∈ hex_digits.
Definition hex (s : list Z) : Prop := Forall hex_digit s.

Lemma draw_digit rnd : ∃ r rnd', nr_random_range rnd 0xf = Some (r, rnd') ∧ 0 ≤ r < 15.
Proof.
  destruct rnd as [r|]; [|by exists 0, None].
  destruct (range_returns r 0xf) as (x & r' & E & Hx & _); [unfold NR_RANDOM_MAX_EXCLUSIVE_LIMIT; lia|]. by exists x, (Some r').
Qed.

Lemma digit_hex r : 0 ≤ r < 16 → hex_digit (char_at hex_digits r) ∧ (char_at hex_digits r = 48 ↔ r = 0).
Proof.
  intros Hr. assert (Forall (λ r, hex_digit (char_at hex_digits r) ∧ (char_at hex_digits r = 48 ↔ r = 0)) (seqZ 0 16)) as H.
  { unfold hex_digit. apply (bool_decide_unpack _). vm_compute. exact I. }
  rewrite Forall_forall in H. apply H, elem_of_seqZ. lia.
Qed.

Lemma guid_loop_returns n : ∀ rnd, ∃ s rnd', guid_loop n rnd = Some (s, rnd') ∧ length s = n ∧ hex s.
Proof.
  induction n as [|n IH]; intros rnd; [exists [], rnd; repeat split; constructor|]. cbn [guid_loop].
  destruct (draw_digit rnd) as (r & rnd1 & -> & Hr). cbn [mbind option_bind]. destruct (IH rnd1) as (s & rnd2 & -> & Hl & Hs). cbn [mbind option_bind].
  eexists _, _. split; [done|]. split; [simpl; lia|]. constructor; [|done]. apply digit_hex. lia.
Qed.

Lemma trace_id_loop_returns n : ∀ rnd any, ∃ s rnd', trace_id_loop n rnd any = Some (s, rnd', any || existsb (λ c, negb (c =? 48)) s) ∧ length s = n ∧ hex s.
Proof.
  induction n as [|n IH]; intros rnd any; [exists [], rnd; cbn; rewrite orb_false_r; repeat split; constructor|]. cbn [trace_id_loop].
  destruct (draw_digit rnd) as (r & rnd1 & -> & Hr). cbn [mbind option_bind].
  destruct (IH rnd1 (if negb (r =? 0) then true else any)) as (s & rnd2 & -> & Hl & Hs). cbn [mbind option_bind].
  destruct (digit_hex r ltac:(lia)) as [Hd H0]. exists (char_at hex_digits r :: s), rnd2. split; [|split; [simpl; lia|by constructor]]. f_equal. f_equal. cbn [existsb].
  assert ((char_at hex_digits r =? 48) = (r =? 0)) as -> by (apply Bool.eq_iff_eq_true; rewrite !Z.eqb_eq; exact H0).
  destruct (r =? 0); cbn [negb orb]; [done|]. by destruct any.
Qed.

(** An identifier is sixteen hexadecimal digits, whatever the generator. *)
Lemma nr_guid_create_returns rnd : ∃ guid rnd', nr_guid_create rnd = Some (guid, rnd') ∧ length guid = 16%nat ∧ hex guid.
Proof. apply guid_loop_returns. Qed.

(** A trace id is made whatever the generator, and it is one that both trace
    contexts and older agents take: thirty-two hexadecimal digits, of which the
    first sixteen are not all zero. *)
Theorem nr_trace_id_create_valid rnd : ∃ tid rnd', nr_trace_id_create rnd = Some (tid, rnd') ∧ length tid = Z.to_nat NR_TRACE_ID_SIZE ∧ hex tid ∧
  ∃ c, c ∈ take (Z.to_nat NR_GUID_SIZE) tid ∧ c ≠ 48.
Proof.
  unfold nr_trace_id_create. destruct (trace_id_loop_returns (Z.to_nat NR_TRACE_ID_SIZE) rnd false) as (s & rnd' & -> & Hl & Hs). cbn [mbind option_bind].
  set (tid := if negb _ then _ else s).
  assert (length tid = Z.to_nat NR_TRACE_ID_SIZE ∧ hex tid) as [Hl' Hs'].
  { unfold tid. destruct (negb _); [|done]. rewrite length_insert. split; [done|]. apply Forall_insert; [done|]. apply (bool_decide_unpack _). vm_compute. exact I. }
  destruct (existsb _ (take _ tid)) eqn:E.
  - exists tid, rnd'. split_and!; [done..|]. apply existsb_exists in E as (c & Hc & Hne). exists c. split; [by apply list_elem_of_In|]. by destruct (Z.eqb_spec c 48).
  - destruct (draw_digit rnd') as (r & rnd2 & -> & Hr). cbn [mbind option_bind]. destruct (digit_hex (r + 1) ltac:(lia)) as [Hd H0].
    eexists _, _. split; [done|]. rewrite length_insert. split; [done|]. split; [by apply Forall_insert|].
    exists (char_at hex_digits (r + 1)). split; [|intros H; apply H0 in H; lia].
    destruct tid as [|c tid]; [done|]. by left.
Qed.
