(* ===== verification/TxnDt.v ===== *)
(** * TxnDt: distributed tracing headers of transactions (src/axiom/nr_txn.c, nr_segment.c)

    A transaction makes a payload or W3C headers for a request that it sends,
    with the identifier of the segment of the request; at its start it accepts
    those of the request that it serves.  Each step is counted in a
    supportability metric. *)

From S2P Require Import Prelude Memory CString Strings Double Object ObjectJson ObjectParse ObjectRoundtrip ObjectFields Rules.
From S2P Require DistributedTrace TraceContext HashMap Base64 Random Guid.
From S2P Require Import Metrics Synthetics Errors Txn TxnName TxnCat TxnMetrics TxnEvents.
Local Open Scope Z_scope.

Definition NR_DISTRIBUTED_TRACE_ACCEPT_SUCCESS := lit "Supportability/DistributedTrace/AcceptPayload/Success".
Definition NR_DISTRIBUTED_TRACE_ACCEPT_CREATE_BEFORE_ACCEPT := lit "Supportability/DistributedTrace/AcceptPayload/Ignored/CreateBeforeAccept".
Definition NR_DISTRIBUTED_TRACE_ACCEPT_MULTIPLE := lit "Supportability/DistributedTrace/AcceptPayload/Ignored/Multiple".
Definition NR_DISTRIBUTED_TRACE_ACCEPT_UNTRUSTED_ACCOUNT := lit "Supportability/DistributedTrace/AcceptPayload/Ignored/UntrustedAccount".
Definition NR_DISTRIBUTED_TRACE_CREATE_SUCCESS := lit "Supportability/DistributedTrace/CreatePayload/Success".
Definition NR_DISTRIBUTED_TRACE_CREATE_EXCEPTION := lit "Supportability/DistributedTrace/CreatePayload/Exception".
Definition NR_DISTRIBUTED_TRACE_W3C_CREATE_SUCCESS := lit "Supportability/TraceContext/Create/Success".
Definition NR_DISTRIBUTED_TRACE_W3C_CREATE_EXCEPTION := lit "Supportability/TraceContext/Create/Exception".
Definition NR_DISTRIBUTED_TRACE_W3C_ACCEPT_SUCCESS := lit "Supportability/TraceContext/Accept/Success".

Definition NEWRELIC : list Z := lit "newrelic".
Definition W3C_TRACESTATE : list Z := lit "tracestate".
Definition W3C_TRACEPARENT : list Z := lit "traceparent".

(** ** The segment of a request *)

(** What of a segment matters here; [own_txn] says whether it points to the
    transaction at hand. *)
Record nr_segment_t := Segment { segment_id : option (list Z); segment_priority : Z; own_txn : bool }.

Definition NR_SEGMENT_PRIORITY_DT : Z := Z.shiftl 1 15.
Definition NR_SEGMENT_PRIORITY_LOG : Z := Z.shiftl 1 14.

Definition nr_segment_set_priority_flag (segment : option nr_segment_t) (flag : Z) : option nr_segment_t :=
  (λ s, Segment (segment_id s) (Z.lor (segment_priority s) flag) (own_txn s)) <$> segment.

(** A random number is always drawn, [nr_random_range_returns]; its [None] is carried along. *)
Definition drawn {A} (x : option A) : outcome A := match x with Some a => Done a | None => OutOfFuel end.

(** The identifier, the segment and the generator of the transaction. *)
Definition nr_segment_ensure_id (segment : option nr_segment_t) (txn : option nrtxn_t) (rnd : option Random.nr_random_t) :
    outcome (option (list Z) * option nr_segment_t * option Random.nr_random_t) :=
  match segment, txn with
  | Some s, Some _ =>
      match segment_id s with
      | None =>
          if nr_txn_should_create_span_events txn then
            '(id, rnd) ← drawn (Guid.nr_guid_create rnd);
            Done (Some id, Some (Segment (Some id) (segment_priority s) (own_txn s)), rnd)
          else Done (None, segment, rnd)
      | Some id => Done (Some id, segment, rnd)
      end
  | _, _ => Done (None, segment, rnd)
  end.

(** ** Headers for a request

    Every function returns its text, the transaction, the segment and the
    generator; [now] is the time on the clock. *)
Section create.
Context `{Allocator Z} (radix : Z) (now : Z).

Definition nr_txn_create_w3c_traceparent_header (txn : option nrtxn_t) (segment : option nr_segment_t) (rnd : option Random.nr_random_t) :
    outcome (option (list Z) * option nrtxn_t * option nr_segment_t * option Random.nr_random_t) :=
  let ended header segment rnd :=
    let txn := nr_txn_force_single_count txn (Some
      (match header with Some _ => NR_DISTRIBUTED_TRACE_W3C_CREATE_SUCCESS | None => NR_DISTRIBUTED_TRACE_W3C_CREATE_EXCEPTION end)) in
    Done (header, txn, segment, rnd) in
  match txn ≫= distributed_trace with
  | None => ended None segment rnd
  | Some dt =>
      match DistributedTrace.nr_distributed_trace_get_trace_id (Some dt) with
      | None => ended None segment rnd
      | Some trace_id =>
          let header span_id := TraceContext.nr_distributed_trace_create_w3c_traceparent_header (Some trace_id) span_id
                                  (DistributedTrace.nr_distributed_trace_is_sampled (Some dt)) in
          '(span_id, segment, rnd) ← nr_segment_ensure_id segment txn rnd;
          match span_id with
          | None => '(span_id, rnd) ← drawn (Guid.nr_guid_create rnd); ended (header (Some span_id)) segment rnd
          | Some _ => ended (header span_id) segment rnd
          end
      end
  end.

Definition nr_txn_create_w3c_tracestate_header (txn : option nrtxn_t) (segment : option nr_segment_t) (rnd : option Random.nr_random_t) :
    outcome (option (list Z) * option nr_segment_t * option Random.nr_random_t) :=
  match txn ≫= λ t, pair t <$> distributed_trace t with
  | None => Done (None, segment, rnd)
  | Some (t, dt) =>
      '(span_id, segment, rnd) ← (if flag (span_events_enabled (options t)) then nr_segment_ensure_id segment txn rnd else Done (None, segment, rnd));
      let txn_id := if flag (analytics_events_enabled (options t))
                    then Some (nr_strdup (DistributedTrace.nr_distributed_trace_get_txn_id (Some dt))) else None in
      Done (TraceContext.nr_distributed_trace_create_w3c_tracestate_header radix now (Some dt) span_id txn_id, segment, rnd)
  end.

Definition nr_txn_create_distributed_trace_payload (txn : option nrtxn_t) (segment : option nr_segment_t) (rnd : option Random.nr_random_t) :
    outcome (option (list Z) * option nrtxn_t * option nr_segment_t * option Random.nr_random_t) :=
  let ended text segment rnd :=
    let txn := nr_txn_force_single_count txn (Some
      (match text with Some _ => NR_DISTRIBUTED_TRACE_CREATE_SUCCESS | None => NR_DISTRIBUTED_TRACE_CREATE_EXCEPTION end)) in
    Done (text, txn, segment, rnd) in
  match txn, segment with
  | Some t, Some s =>
      if negb (flag (distributed_tracing_enabled (options t))) then ended None segment rnd
      else if distributed_tracing_exclude_newrelic_header (options t) then ended None segment rnd
      else if negb (flag (span_events_enabled (options t))) && negb (flag (analytics_events_enabled (options t))) then ended None segment rnd
      else if negb (own_txn s) then ended None segment rnd
      else
        '(id, segment, rnd) ← nr_segment_ensure_id segment txn rnd;
        let payload := DistributedTrace.nr_distributed_trace_payload_create now (distributed_trace t) id in
        let text := DistributedTrace.nr_distributed_trace_payload_as_text radix (Some payload) in
        ended text (nr_segment_set_priority_flag segment NR_SEGMENT_PRIORITY_DT) rnd
  | _, _ => ended None segment rnd
  end.
End create.

(** ** Headers of the request that is served *)
Abbreviation header_map_t := (HashMap.nr_hashmap_t (option (list Z))).

Section accept.
Context `{Allocator Z} (radix : Z) (address : list Z → Z) (regex_capture : list Z → list Z → option TraceContext.substrings).

Definition nr_txn_accept_new_relic_header (txn : option nrtxn_t) (nr_header transport_type : option (list Z)) : outcome (bool * option nrtxn_t) :=
  match txn ≫= λ t, pair t <$> distributed_trace t with
  | None => Done (false, txn)
  | Some (t, dt) =>
      '(obj_payload, error) ← DistributedTrace.nr_distributed_trace_convert_payload_to_object radix address nr_header None;
      match obj_payload with
      | None => Done (false, nr_txn_force_single_count txn error)
      | Some _ =>
          let trusted_key := match DistributedTrace.nr_distributed_trace_object_get_trusted_key obj_payload with
                             | Some k => Some k
                             | None => DistributedTrace.nr_distributed_trace_object_get_account_id obj_payload
                             end in
          if negb (nr_txn_is_account_trusted_dt txn trusted_key)
          then Done (false, nr_txn_force_single_count txn (Some NR_DISTRIBUTED_TRACE_ACCEPT_UNTRUSTED_ACCOUNT))
          else
            let '(accepted, dt, error) := DistributedTrace.nr_distributed_trace_accept_inbound_payload (Some dt) obj_payload transport_type error in
            let txn := Some (on_trace (λ _, dt) t) in
            if negb accepted then Done (false, nr_txn_force_single_count txn error) else Done (true, txn)
      end
  end.

(** The status is asked of a null pointer: what it is compared with is always there. *)
Definition nr_txn_accept_w3c_trace_context_headers (txn : option nrtxn_t) (traceparent tracestate transport_type : option (list Z)) : bool * option nrtxn_t :=
  match txn ≫= λ t, pair t <$> distributed_trace t with
  | None => (false, txn)
  | Some (t, dt) =>
      if negb (flag (distributed_tracing_enabled (options t))) then (false, txn)
      else
        let err := 0 in
        let trusted_account_key := (nro_get_hash_string (app_connect_reply t) (Some (lit "trusted_account_key"))).1 in
        let '(trace_headers, error_metrics) :=
          TraceContext.nr_distributed_trace_convert_w3c_headers_to_object radix regex_capture traceparent tracestate trusted_account_key None in
        let txn := nr_txn_force_single_count txn error_metrics in
        match trace_headers with
        | None => (false, txn)
        | Some _ =>
            let '(_, dt, error_metrics) := TraceContext.nr_distributed_trace_accept_inbound_w3c_payload (Some dt) trace_headers transport_type None in
            let dt := (λ dt, TraceContext.nr_distributed_trace_handle_inbound_w3c_sampled_flag dt trace_headers
                               (dt_sampler_parent_sampled (options t)) (dt_sampler_parent_not_sampled (options t))) <$> dt in
            let txn := on_trace (λ _, dt) <$> txn in
            let txn := nr_txn_force_single_count txn error_metrics in
            if negb (0 =? err) then (false, txn)
            else (true, nr_txn_force_single_count txn (Some NR_DISTRIBUTED_TRACE_W3C_ACCEPT_SUCCESS))
        end
  end.

Definition metric_found (m : option nrmtable_t) (name : list Z) : bool := negb (nrm_find m (Some name) =? -1).

Definition nr_txn_accept_distributed_trace_payload (txn : option nrtxn_t) (header_map : option header_map_t) (transport_type : option (list Z)) :
    outcome (bool * option nrtxn_t) :=
  let traceparent := HashMap.nr_hashmap_get header_map (Some W3C_TRACEPARENT) in
  let tracestate := HashMap.nr_hashmap_get header_map (Some W3C_TRACESTATE) in
  let nr_header := HashMap.nr_hashmap_get header_map (Some NEWRELIC) in
  match txn ≫= λ t, pair t <$> distributed_trace t with
  | None => Done (false, txn)
  | Some (t, dt) =>
      if negb (flag (distributed_tracing_enabled (options t)))
      then Done (false, nr_txn_force_single_count txn (Some DistributedTrace.NR_DISTRIBUTED_TRACE_ACCEPT_EXCEPTION))
      else
        let create_successful := metric_found (unscoped_metrics t) NR_DISTRIBUTED_TRACE_CREATE_SUCCESS
                                 || metric_found (unscoped_metrics t) NR_DISTRIBUTED_TRACE_W3C_CREATE_SUCCESS in
        if DistributedTrace.nr_distributed_trace_inbound_is_set (Some dt)
        then Done (false, nr_txn_force_single_count txn (Some NR_DISTRIBUTED_TRACE_ACCEPT_MULTIPLE))
        else if create_successful
        then Done (false, nr_txn_force_single_count txn (Some NR_DISTRIBUTED_TRACE_ACCEPT_CREATE_BEFORE_ACCEPT))
        else
          '(status_, txn) ← match traceparent with
                            | Some _ => Done (nr_txn_accept_w3c_trace_context_headers txn traceparent tracestate transport_type)
                            | None => nr_txn_accept_new_relic_header txn nr_header transport_type
                            end;
          if negb status_ then Done (false, txn)
          else
            let transport_type :=
              match transport_type with
              | None => if flag (background (status t)) then Some (lit "Unknown") else Some (lit "HTTP")
              | Some _ => transport_type
              end in
            let txn := on_trace (λ dt, DistributedTrace.nr_distributed_trace_inbound_set_transport_type dt transport_type) <$> txn in
            let txn := nr_txn_force_single_count txn (Some NR_DISTRIBUTED_TRACE_ACCEPT_SUCCESS) in
            let delta := DistributedTrace.nr_distributed_trace_inbound_get_timestamp_delta (txn ≫= distributed_trace) (nr_txn_start_time txn) in
            let txn := nr_txn_create_dt_metrics txn (Some (lit "TransportDuration")) (int_of (delta / NR_TIME_DIVISOR)) in
            Done (true, (λ t, set_txn_type (Z.lor (txn_type t) NR_TXN_TYPE_DT_INBOUND) t) <$> txn)
  end.

Definition headers_to_copy : list (list Z) := [W3C_TRACEPARENT; W3C_TRACESTATE].

(** One header that is copied when it is there. *)
Definition copy_header (header_map decoded : option header_map_t) (header : list Z) : option header_map_t :=
  match HashMap.nr_hashmap_get_into header_map (Some header) true with
  | (true, Some value) => (HashMap.nr_hashmap_set decoded (Some header) (Some (nr_strdup value))).2
  | _ => decoded
  end.

(** The decoded header is the string that its bytes are. *)
Definition nr_txn_accept_distributed_trace_payload_httpsafe (txn : option nrtxn_t) (header_map : option header_map_t) (transport_type : option (list Z)) :
    outcome (bool * option nrtxn_t) :=
  match header_map with
  | None => Done (false, txn)
  | Some _ =>
      let decoded := Some (HashMap.nr_hashmap_create true) in
      let forward decoded := nr_txn_accept_distributed_trace_payload txn (foldl (copy_header header_map) decoded headers_to_copy) transport_type in
      match HashMap.nr_hashmap_get_into header_map (Some NEWRELIC) true with
      | (true, Some value) =>
          match (Base64.nr_b64_decode value).1 with
          | None => Done (false, nr_txn_force_single_count txn (Some DistributedTrace.NR_DISTRIBUTED_TRACE_ACCEPT_PARSE_EXCEPTION))
          | Some decoded_value => forward (HashMap.nr_hashmap_set decoded (Some NEWRELIC) (Some (cstr decoded_value))).2
          end
      | _ => forward decoded
      end
  end.
End accept.

(** ** Maps of headers *)
Section header_maps.
Implicit Types (hm d : header_map_t) (m md : gmap (list Z) (option (list Z))).

Lemma get_into_map hm m k : HashMap.represents hm m → k ≠ [] →
  HashMap.nr_hashmap_get_into (Some hm) (Some k) true = (match m !! k with Some v => (true, Some v) | None => (false, None) end).
Proof.
  intros Hr Hk. destruct (HashMap.get_into_spec hm m (Some k) Hr) as [E _]. destruct k as [|c k]; [done|].
  change (HashMap.lookup_key m (Some (c :: k))) with (m !! (c :: k)) in E. unfold HashMap.nr_hashmap_get_into in *. cbn [HashMap.bad_args orb negb] in *. destruct (HashMap.nr_hashmap_fetch _ _ _); cbn [snd] in E; by rewrite <-E.
Qed.

Lemma get_map hm m k : HashMap.represents hm m → k ≠ [] → HashMap.nr_hashmap_get (Some hm) (Some k) = default None (m !! k).
Proof. intros Hr Hk. unfold HashMap.nr_hashmap_get. rewrite (get_into_map hm m k) by done. by destruct (m !! k). Qed.

Lemma set_map hm m k v : HashMap.represents hm m → k ≠ [] → m !! k = None →
  ∃ hm', HashMap.nr_hashmap_set (Some hm) (Some k) v = (true, Some hm') ∧ HashMap.represents hm' (<[k:=v]> m).
Proof.
  intros Hr Hk Hm. destruct (HashMap.map_exec_refines (HashMap.OSet (Some k) v) hm m Hr) as (r & d & hm' & E & _ & m' & Es & Hr').
  exists hm'. destruct k as [|c k]; [done|]. cbn in Es. unfold HashMap.lookup_key in Es. cbn in Es. rewrite Hm in Es. injection Es as <- <- <-.
  split; [|done]. cbn [HashMap.exec] in E. destruct (HashMap.nr_hashmap_set _ _ _) as [b o]. by injection E as -> ->.
Qed.

Lemma update_map hm m k v : HashMap.represents hm m → k ≠ [] →
  ∃ dead hm', HashMap.nr_hashmap_update (Some hm) (Some k) v = (dead, Some hm') ∧ HashMap.represents hm' (<[k:=v]> m).
Proof.
  intros Hr Hk. destruct (HashMap.map_exec_refines (HashMap.OUpdate (Some k) v) hm m Hr) as (r & d & hm' & E & _ & m' & Es & Hr').
  destruct k as [|c k]; [done|]. cbn in Es. injection Es as <- <- <-. cbn [HashMap.exec] in E.
  destruct (HashMap.nr_hashmap_update _ _ _) as [b o]. injection E as -> ->. by eexists _, hm'.
Qed.

Lemma create_map b : HashMap.represents (HashMap.nr_hashmap_create (V:=option (list Z)) b) ∅.
Proof. by apply HashMap.create_represents. Qed.

Lemma copy_map hm m d md (h : list Z) : HashMap.represents hm m → HashMap.represents d md → h ≠ [] → md !! h = None →
  ∃ d', copy_header (Some hm) (Some d) h = Some d' ∧
    HashMap.represents d' (match m !! h with Some v => <[h:=Some (nr_strdup v)]> md | None => md end).
Proof.
  intros Hr Hd Hh Hm. unfold copy_header. rewrite (get_into_map hm m h) by done. destruct (m !! h) as [v|]; [|by exists d].
  destruct (set_map d md h (Some (nr_strdup v)) Hd Hh Hm) as (d' & -> & Hd'). by exists d'.
Qed.

Definition copied_header m (h : list Z) md : gmap (list Z) (option (list Z)) :=
  match m !! h with Some v => <[h:=Some (nr_strdup v)]> md | None => md end.

Lemma copy_headers hm m d md : HashMap.represents hm m → HashMap.represents d md → md !! W3C_TRACEPARENT = None → md !! W3C_TRACESTATE = None →
  ∃ d', foldl (copy_header (Some hm)) (Some d) headers_to_copy = Some d' ∧
    HashMap.represents d' (copied_header m W3C_TRACESTATE (copied_header m W3C_TRACEPARENT md)).
Proof.
  intros Hr Hd H1 H2. destruct (copy_map hm m d md W3C_TRACEPARENT Hr Hd ltac:(done) H1) as (d1 & E1 & Hd1).
  destruct (copy_map hm m d1 _ W3C_TRACESTATE Hr Hd1) as (d2 & E2 & Hd2); [done| |].
  - destruct (m !! W3C_TRACEPARENT); [|done]. by rewrite lookup_insert_ne.
  - exists d2. unfold headers_to_copy. cbn [foldl]. by rewrite E1, E2.
Qed.
End header_maps.

(** ** What a transaction sends and accepts *)

(** The transport that is recorded when the caller names none. *)
Definition transport_of (t : nrtxn_t) (transport : option (list Z)) : option (list Z) :=
  match transport with
  | Some _ => transport
  | None => if flag (background (status t)) then Some (lit "Unknown") else Some (lit "HTTP")
  end.

(** A transaction that can accept a header: it traces, and has neither accepted nor sent one. *)
Record listens (t : nrtxn_t) (dt : DistributedTrace.nr_distributed_trace_t) : Prop := {
  li_trace : distributed_trace t = Some dt;
  li_enabled : flag (distributed_tracing_enabled (options t)) = true;
  li_fresh : DistributedTrace.set (DistributedTrace.inbound dt) = false;
  li_silent : metric_found (unscoped_metrics t) NR_DISTRIBUTED_TRACE_CREATE_SUCCESS = false ∧
              metric_found (unscoped_metrics t) NR_DISTRIBUTED_TRACE_W3C_CREATE_SUCCESS = false;
}.

(** The transaction has accepted: its trace, but for the transport, is [dt]. *)
Definition has_accepted (t : nrtxn_t) (dt : DistributedTrace.nr_distributed_trace_t) (transport : option (list Z)) (t' : nrtxn_t) : Prop :=
  distributed_trace t' = DistributedTrace.nr_distributed_trace_inbound_set_transport_type (Some dt) (transport_of t transport) ∧
  txn_type t' = Z.lor (txn_type t) NR_TXN_TYPE_DT_INBOUND ∧ options t' = options t ∧ app_connect_reply t' = app_connect_reply t.

Lemma single_count_trace t name : ∃ t', nr_txn_force_single_count (Some t) name = Some t' ∧ distributed_trace t' = distributed_trace t ∧
  options t' = options t ∧ status t' = status t ∧ txn_type t' = txn_type t ∧ app_connect_reply t' = app_connect_reply t.
Proof. destruct name; by eexists. Qed.

Lemma dt_metrics_trace `{QsortR} t name value : ∃ t', nr_txn_create_dt_metrics (Some t) (Some name) value = Some t' ∧ distributed_trace t' = distributed_trace t ∧
  options t' = options t ∧ txn_type t' = txn_type t ∧ app_connect_reply t' = app_connect_reply t.
Proof. by eexists. Qed.

Section accepting.
Context (radix : Z) (address : list Z → Z) (regex_capture : list Z → list Z → option TraceContext.substrings).

(** A request is served with a map of headers. *)
Lemma accept_served t dt hm m transport : listens t dt → HashMap.represents hm m →
  let accept := match default None (m !! W3C_TRACEPARENT) with
                | Some p => Done (nr_txn_accept_w3c_trace_context_headers radix regex_capture (Some t) (Some p) (default None (m !! W3C_TRACESTATE)) transport)
                | None => nr_txn_accept_new_relic_header radix address (Some t) (default None (m !! NEWRELIC)) transport
                end in
  ∀ b t1, accept = Done (b, Some t1) → status t1 = status t → txn_type t1 = txn_type t → options t1 = options t → app_connect_reply t1 = app_connect_reply t →
    if b then ∀ dt1, distributed_trace t1 = Some dt1 → ∃ t', nr_txn_accept_distributed_trace_payload radix address regex_capture (Some t) (Some hm) transport = Done (true, Some t') ∧
      has_accepted t dt1 transport t'
    else nr_txn_accept_distributed_trace_payload radix address regex_capture (Some t) (Some hm) transport = Done (false, Some t1).
Proof.
  intros [Ht He Hf [H1 H2]] Hr accept b t1 Ha Hs Hty Ho Hrep. unfold nr_txn_accept_distributed_trace_payload.
  rewrite !(get_map hm m) by done. cbn [mbind option_bind]. rewrite Ht. cbn [fmap option_fmap option_map]. rewrite He. cbn [negb].
  unfold DistributedTrace.nr_distributed_trace_inbound_is_set. cbn [from_option]. rewrite Hf, H1, H2. cbn [orb].
  subst accept. 
  assert (∀ k : bool * option nrtxn_t → outcome (bool * option nrtxn_t),
    (match default None (m !! W3C_TRACEPARENT) with
     | Some _ => Done (nr_txn_accept_w3c_trace_context_headers radix regex_capture (Some t) (default None (m !! W3C_TRACEPARENT)) (default None (m !! W3C_TRACESTATE)) transport)
     | None => nr_txn_accept_new_relic_header radix address (Some t) (default None (m !! NEWRELIC)) transport
     end ≫= k) = k (b, Some t1)) as Hk.
  { intros k. destruct (default None (m !! W3C_TRACEPARENT)); by rewrite Ha. }
  rewrite Hk. destruct b; [|done]. intros dt1 Hdt1. cbn [negb fmap option_fmap option_map nr_txn_force_single_count nr_txn_create_dt_metrics].
  eexists. split; [reflexivity|]. split_and!.
  - cbn. by rewrite Hdt1.
  - cbn. by rewrite Hty.
  - cbn. done.
  - cbn. done.
Qed.
End accepting.

(** The identifier of a segment: the one it has, or a new one where spans are made. *)
Lemma ensure_id_spec s t rnd : ∃ parent s' rnd', nr_segment_ensure_id (Some s) (Some t) rnd = Done (parent, Some s', rnd') ∧
  segment_id s' = parent ∧ own_txn s' = own_txn s ∧ segment_priority s' = segment_priority s ∧
  match segment_id s with
  | Some id => parent = Some id
  | None => if nr_txn_should_create_span_events (Some t) then ∃ id, parent = Some id ∧ length id = 16%nat ∧ Guid.hex id else parent = None
  end ∧ nr_segment_ensure_id (Some s') (Some t) rnd' = Done (parent, Some s', rnd').
Proof.
  unfold nr_segment_ensure_id. destruct (segment_id s) as [id|] eqn:E; [exists (Some id), s, rnd; by rewrite E|].
  destruct (nr_txn_should_create_span_events (Some t)) eqn:Es.
  - destruct (Guid.nr_guid_create_returns rnd) as (guid & rnd' & -> & Hl & Hh). cbn [drawn mbind outcome_bind].
    exists (Some guid), (Segment (Some guid) (segment_priority s) (own_txn s)), rnd'. split_and!; try done. by exists guid.
  - exists None, s, rnd. rewrite E. by split_and!.
Qed.

Lemma hex_text_ok s : Guid.hex s → text_ok s.
Proof.
  intros Hs. apply ascii_text. eapply Forall_impl; [exact Hs|]. intros c Hc. unfold Guid.hex_digit in Hc.
  assert (Forall (λ c, 0 < c < 128) Guid.hex_digits) as H by (by apply (bool_decide_unpack _)). rewrite Forall_forall in H. by apply H.
Qed.

Lemma ensure_id_text s t parent : DistributedTrace.text_field (segment_id s) →
  match segment_id s with
  | Some id => parent = Some id
  | None => if nr_txn_should_create_span_events (Some t) then ∃ id, parent = Some id ∧ length id = 16%nat ∧ Guid.hex id else parent = None
  end → DistributedTrace.text_field parent.
Proof.
  intros Hs Hp. destruct (segment_id s) as [id|]; [by subst|]. destruct (nr_txn_should_create_span_events (Some t)).
  - destruct Hp as (id & -> & _ & Hh). intros ? [= <-]. by apply hex_text_ok.
  - subst. by intros ? [=].
Qed.

(** The key that a payload is trusted by. *)
Definition sent_key (m : DistributedTrace.nr_distributed_trace_t) : option (list Z) :=
  match (if DistributedTrace.separate_key m then DistributedTrace.trusted_key m else None) with
  | Some k => Some k
  | None => DistributedTrace.account_id m
  end.

(** A transaction whose payload other agents can use. *)
Record sends (t : nrtxn_t) (m : DistributedTrace.nr_distributed_trace_t) : Prop := {
  se_trace : distributed_trace t = Some m;
  se_enabled : flag (distributed_tracing_enabled (options t)) = true;
  se_header : distributed_tracing_exclude_newrelic_header (options t) = false;
  se_events : flag (span_events_enabled (options t)) || flag (analytics_events_enabled (options t)) = true;
  se_metadata : DistributedTrace.metadata_ok m;
  se_complete : is_Some (DistributedTrace.account_id m) ∧ is_Some (DistributedTrace.app_id m) ∧ is_Some (DistributedTrace.trace_id m) ∧
                is_Some (DistributedTrace.txn_id m);
}.

(** How the payload of a request is carried in its headers. *)
Definition carries (text : list Z) (m : gmap (list Z) (option (list Z))) : Prop :=
  m !! NEWRELIC = Some (fst <$> Base64.nr_b64_encode (Some text) (nr_strlen (Some text))) ∧ m !! W3C_TRACEPARENT = None.

Lemma cstr_is_bytes s : is_cstr s → Forall is_byte s.
Proof. intros Hs. eapply Forall_impl; [exact Hs|]. unfold is_byte. cbn. lia. Qed.

Lemma encoded_text text : is_cstr text → text ≠ [] →
  ∃ value, fst <$> Base64.nr_b64_encode (Some text) (nr_strlen (Some text)) = Some value ∧ (Base64.nr_b64_decode (Some value)).1 = Some text.
Proof.
  intros Hc Hne. exists (Base64.encode_loop text). split.
  - unfold Base64.nr_b64_encode. rewrite nr_strlen_cstr by done. destruct (Z.leb_spec (Z.of_nat (length text)) 0); [by destruct text|].
    by rewrite Nat2Z.id, take_ge.
  - rewrite Base64.decode_of_encode; [done|by apply cstr_is_bytes|done].
Qed.

Lemma header_names_ne : W3C_TRACESTATE ≠ NEWRELIC ∧ W3C_TRACESTATE ≠ W3C_TRACEPARENT ∧ NEWRELIC ≠ W3C_TRACEPARENT.
Proof. by apply (bool_decide_unpack _). Qed.

(** Headers that carry a payload reach the reader of payloads. *)
Lemma decoded_served radix address regex_capture t dt hm headers text transport b t1 : listens t dt → HashMap.represents hm headers → carries text headers →
  is_cstr text → text ≠ [] →
  nr_txn_accept_new_relic_header radix address (Some t) (Some text) transport = Done (b, Some t1) →
  status t1 = status t → txn_type t1 = txn_type t → options t1 = options t → app_connect_reply t1 = app_connect_reply t →
  let accept := nr_txn_accept_distributed_trace_payload_httpsafe radix address regex_capture (Some t) (Some hm) transport in
  if b then ∀ dt1, distributed_trace t1 = Some dt1 → ∃ t', accept = Done (true, Some t') ∧ has_accepted t dt1 transport t' else accept = Done (false, Some t1).
Proof.
  intros Hl Hr [Hnr Htp] Hc Hne Ha Hs Hty Ho Hrep accept. subst accept. unfold nr_txn_accept_distributed_trace_payload_httpsafe.
  destruct (encoded_text text Hc Hne) as (value & Ev & Ed). rewrite Ev in Hnr.
  rewrite (get_into_map hm headers NEWRELIC) by done. rewrite Hnr, Ed. cbv iota beta.
  destruct (set_map (HashMap.nr_hashmap_create true) ∅ NEWRELIC (Some (cstr text)) (create_map true)) as (d1 & E1 & Hd1); [done..|].
  rewrite E1. cbn [snd]. rewrite (cstr_id text) in Hd1 by done.
  destruct (copy_headers hm headers d1 _ Hr Hd1) as (d2 & -> & Hd2); [by rewrite lookup_insert_ne..|].
  unfold copied_header at 2 in Hd2. rewrite Htp in Hd2. set (m2 := copied_header _ _ _) in Hd2.
  assert (m2 !! NEWRELIC = Some (Some text) ∧ m2 !! W3C_TRACEPARENT = None) as [H1 H2].
  { unfold m2, copied_header. destruct header_names_ne as (H12 & H13 & H23).
    destruct (headers !! W3C_TRACESTATE); split.
    - rewrite lookup_insert_ne by done. apply lookup_insert_eq.
    - rewrite !lookup_insert_ne by done. apply lookup_empty.
    - apply lookup_insert_eq.
    - rewrite lookup_insert_ne by done. apply lookup_empty. }
  pose proof (accept_served radix address regex_capture t dt d2 m2 transport Hl Hd2) as H. rewrite H1, H2 in H. cbn [default from_option id] in H.
  exact (H b t1 Ha Hs Hty Ho Hrep).
Qed.

(** Headers of the W3C, beside which there may be a payload that can be decoded. *)
Definition carries_w3c (parent state : list Z) (m : gmap (list Z) (option (list Z))) : Prop :=
  m !! W3C_TRACEPARENT = Some (Some parent) ∧ m !! W3C_TRACESTATE = Some (Some state) ∧
  ∀ v, m !! NEWRELIC = Some v → is_Some (Base64.nr_b64_decode v).1.

Lemma copied_served radix address regex_capture t dt hm headers parent state transport t1 : listens t dt → HashMap.represents hm headers →
  carries_w3c parent state headers → is_cstr parent → is_cstr state →
  nr_txn_accept_w3c_trace_context_headers radix regex_capture (Some t) (Some parent) (Some state) transport = (true, Some t1) →
  status t1 = status t → txn_type t1 = txn_type t → options t1 = options t → app_connect_reply t1 = app_connect_reply t →
  ∀ dt1, distributed_trace t1 = Some dt1 → ∃ t',
    nr_txn_accept_distributed_trace_payload_httpsafe radix address regex_capture (Some t) (Some hm) transport = Done (true, Some t') ∧ has_accepted t dt1 transport t'.
Proof.
  intros Hl Hr (Hp & Hst & Hnr) Hcp Hcs Ha Hs Hty Ho Hrep dt1 Hdt1. destruct header_names_ne as (H12 & H13 & H23).
  assert (∀ d md, HashMap.represents d md → md !! W3C_TRACEPARENT = None → md !! W3C_TRACESTATE = None → ∃ t',
    nr_txn_accept_distributed_trace_payload radix address regex_capture (Some t) (foldl (copy_header (Some hm)) (Some d) headers_to_copy) transport = Done (true, Some t') ∧
    has_accepted t dt1 transport t') as Hforward.
  { intros d md Hd H1 H2. destruct (copy_headers hm headers d md Hr Hd H1 H2) as (d2 & -> & Hd2). unfold copied_header in Hd2. rewrite Hp, Hst in Hd2.
    set (m2 := <[_:=_]> _) in Hd2. assert (m2 !! W3C_TRACEPARENT = Some (Some parent) ∧ m2 !! W3C_TRACESTATE = Some (Some state)) as [E1 E2].
    { unfold m2, nr_strdup. cbn [default from_option id]. rewrite (cstr_id parent), (cstr_id state) by done. split; [|apply lookup_insert_eq].
      rewrite lookup_insert_ne by done. apply lookup_insert_eq. }
    pose proof (accept_served radix address regex_capture t dt d2 m2 transport Hl Hd2) as H. rewrite E1, E2 in H. cbn [default from_option id] in H.
    exact (H true t1 (f_equal Done Ha) Hs Hty Ho Hrep dt1 Hdt1). }
  unfold nr_txn_accept_distributed_trace_payload_httpsafe. rewrite (get_into_map hm headers NEWRELIC) by done.
  destruct (headers !! NEWRELIC) as [v|] eqn:E.
  - destruct (Hnr v eq_refl) as [text ->]. cbv iota beta.
    destruct (set_map (HashMap.nr_hashmap_create true) ∅ NEWRELIC (Some (cstr text)) (create_map true)) as (d1 & -> & Hd1); [done..|].
    cbn [snd]. apply (Hforward _ _ Hd1); rewrite lookup_insert_ne by done; apply lookup_empty.
  - exact (Hforward _ _ (create_map true) (lookup_empty _) (lookup_empty _)).
Qed.

Lemma w3c_request_served radix address regex_capture receiver t hm headers parent state tk o t1 transport :
  listens receiver t → HashMap.represents hm headers → carries_w3c parent state headers → is_cstr parent → is_cstr state →
  (nro_get_hash_string (app_connect_reply receiver) (Some (lit "trusted_account_key"))).1 = Some tk →
  TraceContext.nr_distributed_trace_convert_w3c_headers_to_object radix regex_capture (Some parent) (Some state) (Some tk) None = (o, None) →
  TraceContext.nr_distributed_trace_accept_inbound_w3c_payload (Some t) o transport None = (true, Some t1, None) →
  ∃ receiver', nr_txn_accept_distributed_trace_payload_httpsafe radix address regex_capture (Some receiver) (Some hm) transport = Done (true, Some receiver') ∧
    has_accepted receiver (TraceContext.nr_distributed_trace_handle_inbound_w3c_sampled_flag t1 o
      (dt_sampler_parent_sampled (options receiver)) (dt_sampler_parent_not_sampled (options receiver))) transport receiver'.
Proof.
  intros Hl Hr Hcar Hcp Hcs Htk Econv Eacc. pose proof Hl as [Ht He _ _]. destruct o as [op|]; [|done].
  eapply copied_served; [done..| | | | | |].
  - unfold nr_txn_accept_w3c_trace_context_headers. cbn [mbind option_bind]. rewrite Ht. cbn [fmap option_fmap option_map]. rewrite He, Htk, Econv. cbn [negb].
    cbv iota beta zeta. rewrite Eacc. cbn [nr_txn_force_single_count fmap option_fmap option_map]. reflexivity.
  - done.
  - done.
  - done.
  - done.
  - done.
Qed.

(** What a transaction sends, another one accepts: the payload made for a
    segment of a request carries the identifier of that segment, a new one where
    spans are made and it has none, and is made in one piece; a transaction that
    has neither accepted nor sent a header takes it, decoded, if and only if it
    trusts the account, and then knows the sender as
    [DistributedTrace.received] says, with the transport that it was told or that
    fits it; a payload from an account that is not trusted is counted, and
    changes nothing else. *)
Theorem nr_txn_payload_accepted `{Allocator Z} radix radix' address regex_capture sender m s rnd now receiver t :
  locale_radix radix → locale_radix radix' → sends sender m → own_txn s = true → DistributedTrace.text_field (segment_id s) →
  2 ^ 31 * DistributedTrace.NR_TIME_DIVISOR_MS ≤ now < 2 ^ 63 → listens receiver t →
  ∃ text sender' s' rnd', nr_txn_create_distributed_trace_payload radix now (Some sender) (Some s) rnd = Done (Some text, Some sender', Some s', rnd') ∧
    Z.testbit (segment_priority s') 15 = true ∧
    match segment_id s with
    | Some id => segment_id s' = Some id
    | None => if nr_txn_should_create_span_events (Some sender) then ∃ id, segment_id s' = Some id ∧ length id = 16%nat ∧ Guid.hex id else segment_id s' = None
    end ∧
    (∀ transport hm headers, HashMap.represents hm headers → carries text headers →
      let accept := nr_txn_accept_distributed_trace_payload_httpsafe radix' address regex_capture (Some receiver) (Some hm) transport in
      if nr_txn_is_account_trusted_dt (Some receiver) (sent_key m)
      then ∃ t' receiver', accept = Done (true, Some receiver') ∧ DistributedTrace.received m (segment_id s') now transport t t' ∧
             has_accepted receiver t' transport receiver'
      else accept = Done (false, nr_txn_force_single_count (Some receiver) (Some NR_DISTRIBUTED_TRACE_ACCEPT_UNTRUSTED_ACCOUNT))).
Proof.
  intros Hx Hx' [Hm He Hh Hev Hok (Hac & Hap & Htr & Htx)] Hown Hsid Hnow Hl.
  destruct (ensure_id_spec s sender rnd) as (parent & s' & rnd' & Eid & Es' & Hown' & _ & Hparent & _).
  pose proof (ensure_id_text s sender parent Hsid Hparent) as Hptext.
  assert (∀ transport, _) as Hacc by exact (λ transport, DistributedTrace.payload_accepted radix radix' address m t parent transport now Hx Hx' Hok Hptext Hnow (or_intror (proj2 (not_eq_None_Some _) Htx))).
  destruct (Hacc None) as (text & Etext & Hct & Hne & _).
  exists text. eexists _, _, rnd'. split.
  { unfold nr_txn_create_distributed_trace_payload. rewrite He, Hh. cbn [negb].
    assert (negb (flag (span_events_enabled (options sender))) && negb (flag (analytics_events_enabled (options sender))) = false) as ->.
    { by rewrite <-negb_orb, Hev. }
    rewrite Hown. cbn [negb]. rewrite Eid. cbn [mbind outcome_bind]. rewrite Hm, Etext. reflexivity. }
  cbn [nr_segment_set_priority_flag fmap option_fmap option_map segment_priority segment_id]. split.
  { rewrite Z.lor_spec. by rewrite orb_true_r. }
  rewrite Es'. split; [destruct (segment_id s); [done|]; by destruct (nr_txn_should_create_span_events _)|].
  intros transport hm headers Hr Hcar. cbv zeta. destruct (Hacc transport) as (text' & Etext' & _ & _ & Hacc'). rewrite Etext in Etext'. injection Etext' as <-.
  assert (DistributedTrace.complete m parent = true) as Hcomp.
  { unfold DistributedTrace.complete. destruct Hac as [? ->], Hap as [? ->], Htr as [? ->], Htx as [? ->]. cbn. by rewrite orb_true_r. }
  rewrite Hcomp in Hacc'. destruct Hacc' as (o & t' & Econv & Etk & Eac & Eacc & Hrec).
  assert (nr_txn_accept_new_relic_header radix' address (Some receiver) (Some text) transport =
    if nr_txn_is_account_trusted_dt (Some receiver) (sent_key m) then Done (true, Some (on_trace (λ _, Some t') receiver))
    else Done (false, nr_txn_force_single_count (Some receiver) (Some NR_DISTRIBUTED_TRACE_ACCEPT_UNTRUSTED_ACCOUNT))) as Eaccept.
  { unfold nr_txn_accept_new_relic_header. cbn [mbind option_bind]. rewrite (li_trace _ _ Hl). cbn [fmap option_fmap option_map]. rewrite Econv.
    cbn [mbind outcome_bind]. rewrite Etk, Eac. fold (sent_key m). destruct (nr_txn_is_account_trusted_dt _ _); cbn [negb]; [|done]. by rewrite Eacc. }
  destruct (nr_txn_is_account_trusted_dt _ _).
  - destruct (decoded_served radix' address regex_capture receiver t hm headers text transport true _ Hl Hr Hcar Hct Hne Eaccept) with (dt1 := t') as (r' & E & Hh'); [done..|].
    exists t', r'. by split_and!.
  - exact (decoded_served radix' address regex_capture receiver t hm headers text transport false _ Hl Hr Hcar Hct Hne Eaccept eq_refl eq_refl eq_refl eq_refl).
Qed.

(** ** An example *)
Definition tracing_metadata : DistributedTrace.nr_distributed_trace_t :=
  DistributedTrace.Trace (Some (lit "1")) (Some (lit "2")) (Some (lit "guid")) (SpecFloat.S754_finite false 4503599627370496 (-53)) true
    (Some (lit "ab")) (Some (lit "9")) (DistributedTrace.inbound DistributedTrace.nr_distributed_trace_create).
Definition tracing_sender : nrtxn_t := on_trace (λ _, Some tracing_metadata) example_txn.
Definition trusting (t : nrtxn_t) : nrtxn_t :=
  ltac:(setter make_txn app_connect_reply (λ _ : obj, Some (OHash 1 [(lit "trusted_account_key", OString (Some (lit "9")))]))) t.

Lemma tracing_metadata_ok : DistributedTrace.metadata_ok tracing_metadata.
Proof.
  split; try (intros s [= <-]; by_text). split; [|by constructor].
  eapply js_double; [done|vm_compute; reflexivity|intros s'; vm_compute; done].
Qed.
Lemma trusting_listens : listens (trusting example_txn) DistributedTrace.nr_distributed_trace_create.
Proof. split; [done|done|done|by vm_compute]. Qed.

Lemma payload_headers text : ∃ (hm : header_map_t) headers, HashMap.represents hm headers ∧ carries text headers ∧
  HashMap.nr_hashmap_get (Some hm) (Some NEWRELIC) = fst <$> Base64.nr_b64_encode (Some text) (nr_strlen (Some text)).
Proof.
  destruct (set_map (HashMap.nr_hashmap_create true) ∅ NEWRELIC (fst <$> Base64.nr_b64_encode (Some text) (nr_strlen (Some text))) (create_map true)) as (hm & _ & Hr); [done..|].
  eexists hm, _. split; [exact Hr|]. split; [split; [apply lookup_insert_eq|]|].
  - destruct header_names_ne as (_ & _ & H23). rewrite lookup_insert_ne by done. apply lookup_empty.
  - rewrite (get_map hm _ NEWRELIC Hr) by done. by rewrite lookup_insert_eq.
Qed.

Lemma nr_txn_payload_accepted_witness : let _ := GenerousAllocator.allocator Z in ∃ text hm t' receiver',
  HashMap.nr_hashmap_get (Some hm) (Some NEWRELIC) = fst <$> Base64.nr_b64_encode (Some text) (nr_strlen (Some text)) ∧
  nr_txn_accept_distributed_trace_payload_httpsafe 46 (λ _, 0) (λ _ _, None) (Some (trusting example_txn)) (Some hm) None = Done (true, Some receiver') ∧
  has_accepted (trusting example_txn) t' None receiver' ∧ DistributedTrace.guid (DistributedTrace.inbound t') = Some (lit "span").
Proof.
  intros al.
  destruct (nr_txn_payload_accepted (H:=al) 44 46 (λ _, 0) (λ _ _, None) tracing_sender tracing_metadata (Segment (Some (lit "span")) 0 true) None 1563574856827123
    (trusting example_txn) DistributedTrace.nr_distributed_trace_create) as (text & sender' & s' & rnd' & E & _ & Hid & Hacc).
  - by right.
  - by left.
  - split; [done..|exact tracing_metadata_ok|by repeat split].
  - done.
  - intros s [= <-]. by_text.
  - unfold DistributedTrace.NR_TIME_DIVISOR_MS. lia.
  - exact trusting_listens.
  - destruct (payload_headers text) as (hm & headers & Hr & Hc & Hg).
    destruct (Hacc None hm headers Hr Hc) as (t' & receiver' & E' & Hrec & Hh). exists text, hm, t', receiver'.
    split; [exact Hg|]. split; [exact E'|]. split; [exact Hh|]. destruct Hrec as (_ & _ & _ & _ & _ & _ & _ & ->). cbn. by rewrite Hid.
Defined.
