(* ===== verification/Headers.v ===== *)
(** * Headers: the headers of requests between applications (src/axiom/nr_header.c)

    Cross application tracing sends an identifier and a transaction with each
    request and gets the application data of the other side back, obfuscated
    with a key of the account; distributed tracing and the monitors of
    synthetics have headers of their own. *)

From S2P Require Import Prelude Memory CString Strings Double Object ObjectJson ObjectParse ObjectRoundtrip ObjectFields Regex Rules SegmentTerms.
From S2P Require DistributedTrace TraceContext HashMap Base64 Random Guid Md5.
From S2P Require Import Metrics Synthetics Errors Txn TxnName TxnCat TxnMetrics TxnEvents TxnDt.
Local Open Scope Z_scope.

Definition X_NEWRELIC_ID : list Z := lit "X-NewRelic-ID".
Definition X_NEWRELIC_TRANSACTION : list Z := lit "X-NewRelic-Transaction".
Definition X_NEWRELIC_SYNTHETICS : list Z := lit "X-NewRelic-Synthetics".

Definition NR_RESPONSE_HDR_FIELD_INDEX_CROSS_PROCESS_ID : Z := 1.
Definition NR_RESPONSE_HDR_FIELD_INDEX_TXN_NAME : Z := 2.
Definition NR_RESPONSE_HDR_FIELD_INDEX_QUEUE_TIME : Z := 3.
Definition NR_RESPONSE_HDR_FIELD_INDEX_RESPONSE_TIME : Z := 4.
Definition NR_RESPONSE_HDR_FIELD_INDEX_CONTENT_LENGTH : Z := 5.
Definition NR_RESPONSE_HDR_FIELD_INDEX_GUID : Z := 6.
Definition NR_RESPONSE_HDR_FIELD_INDEX_RECORD_TT : Z := 7.
Definition NR_RESPONSE_HDR_MIN_FIELDS : Z := 5.
Definition NR_CROSS_PROCESS_ID_LENGTH_MAX : Z := 64.

(** ** Encoding *)
Definition nr_header_validate_encoded_string (encoded_string : option (list Z)) : nr_status_t :=
  match encoded_string with
  | None => NR_FAILURE
  | Some s =>
      if char_at s 0 =? 0 then NR_FAILURE
      else if forallb Base64.nr_b64_is_valid_character (cstr s) then NR_SUCCESS else NR_FAILURE
  end.

Definition encoding_key (txn : nrtxn_t) : option (list Z) := (nro_get_hash_string (app_connect_reply txn) (Some (lit "encoding_key"))).1.

Definition nr_header_encode (txn : option nrtxn_t) (string : option (list Z)) : option (list Z) :=
  txn ≫= λ t, Base64.nr_obfuscate string (encoding_key t) 0.

(** The string that the decoded bytes are. *)
Definition nr_header_decode (txn : option nrtxn_t) (encoded_string : option (list Z)) : option (list Z) :=
  match txn with
  | None => None
  | Some t =>
      if decide (nr_header_validate_encoded_string encoded_string = NR_SUCCESS)
      then cstr <$> Base64.nr_deobfuscate encoded_string (encoding_key t) 0
      else None
  end.

Definition nr_header_create_distributed_trace_map (nr_header traceparent tracestate : option (list Z)) : option header_map_t :=
  match nr_header, traceparent with
  | None, None => None
  | _, _ =>
      let set_if (key : list Z) (value : option (list Z)) (header_map : option header_map_t) :=
        match value with
        | Some _ => (HashMap.nr_hashmap_set header_map (Some key) (Some (nr_strdup value))).2
        | None => header_map
        end in
      set_if W3C_TRACESTATE tracestate (set_if W3C_TRACEPARENT traceparent (set_if NEWRELIC nr_header (Some (HashMap.nr_hashmap_create true))))
  end.

(** ** Account identifiers *)

(** [strtoll] with base 10: the number, saturated, and the text after it, the
    whole text when there is none. *)
Definition strtoll_10 (s : list Z) : Z * list Z :=
  let '(neg, r) := scan_sign (skip_spaces s) in
  let '(ds, rest) := span nr_isdigit r in
  match ds with [] => (0, s) | _ => (saturate (if neg then - of_decimal ds else of_decimal ds), rest) end.

Definition INT_MAX : Z := 2 ^ 31 - 1.

Definition nr_header_account_id_from_cross_process_id (cross_process_id : option (list Z)) : Z :=
  match cross_process_id with
  | None => -1
  | Some s =>
      let '(account_id, end_) := strtoll_10 (cstr s) in
      if negb (char_at end_ 0 =? 35) then -1
      else if INT_MAX <=? account_id then -1
      else account_id
  end.

Definition nr_header_validate_decoded_id (txn : option nrtxn_t) (decoded_id : option (list Z)) : nr_status_t :=
  match txn, decoded_id with
  | Some _, Some _ =>
      if NR_CROSS_PROCESS_ID_LENGTH_MAX <=? nr_strlen decoded_id then NR_FAILURE
      else
        let account_id := nr_header_account_id_from_cross_process_id decoded_id in
        if account_id =? -1 then NR_FAILURE
        else if nr_txn_is_account_trusted txn (int_of account_id) then NR_SUCCESS else NR_FAILURE
  | _, _ => NR_FAILURE
  end.

(** ** Fields of a transaction *)
Definition set_cross_process (x : nrtxnstatus_cross_process_t) : nrtxnstatus_t → nrtxnstatus_t :=
  ltac:(setter make_status cross_process (λ _ : nrtxnstatus_cross_process_t, x)).
Definition set_has_inbound_record_tt (x : Z) : nrtxnstatus_t → nrtxnstatus_t := ltac:(setter make_status has_inbound_record_tt (λ _ : Z, x)).
Definition set_has_outbound_record_tt (x : Z) : nrtxnstatus_t → nrtxnstatus_t := ltac:(setter make_status has_outbound_record_tt (λ _ : Z, x)).
Definition set_inbound_guid (x : option (list Z)) : nrtxncat_t → nrtxncat_t := ltac:(setter make_cat inbound_guid (λ _ : option (list Z), x)).
Definition set_trip_id (x : option (list Z)) : nrtxncat_t → nrtxncat_t := ltac:(setter make_cat trip_id (λ _ : option (list Z), x)).
Definition set_referring_path_hash (x : option (list Z)) : nrtxncat_t → nrtxncat_t := ltac:(setter make_cat referring_path_hash (λ _ : option (list Z), x)).
Definition set_client_cross_process_id (x : option (list Z)) : nrtxncat_t → nrtxncat_t :=
  ltac:(setter make_cat client_cross_process_id (λ _ : option (list Z), x)).
Definition set_synthetics (x : option nr_synthetics_t) : nrtxn_t → nrtxn_t := ltac:(setter make_txn synthetics (λ _ : option nr_synthetics_t, x)).

Definition cross_process_id (txn : nrtxn_t) : option (list Z) := (nro_get_hash_string (app_connect_reply txn) (Some (lit "cross_process_id"))).1.

(** ** The response to a request *)
Section response.
Context `{Allocator Z} `{QsortR} (radix : Z).

Definition nr_txn_unfinished_duration (txn : option nrtxn_t) (now : Z) : Z :=
  match txn with None => 0 | Some _ => DistributedTrace.nr_time_duration (nr_txn_start_time txn) now end.

Definition response_array (cross_process_id name : option (list Z)) (qtime_seconds apptime_seconds : double) (content_length : Z) (guid : option (list Z)) : obj :=
  let o := Some nro_new_array in
  let o := (nro_set_array_string o NR_RESPONSE_HDR_FIELD_INDEX_CROSS_PROCESS_ID cross_process_id).1 in
  let o := (nro_set_array_string o NR_RESPONSE_HDR_FIELD_INDEX_TXN_NAME name).1 in
  let o := (nro_set_array_double o NR_RESPONSE_HDR_FIELD_INDEX_QUEUE_TIME qtime_seconds).1 in
  let o := (nro_set_array_double o NR_RESPONSE_HDR_FIELD_INDEX_RESPONSE_TIME apptime_seconds).1 in
  let o := (nro_set_array_int o NR_RESPONSE_HDR_FIELD_INDEX_CONTENT_LENGTH content_length).1 in
  let o := (nro_set_array_string o NR_RESPONSE_HDR_FIELD_INDEX_GUID guid).1 in
  (nro_set_array_boolean o NR_RESPONSE_HDR_FIELD_INDEX_RECORD_TT 0).1.

(** [fuel] and [app] are those of [nr_txn_freeze_name_update_apdex]. *)
Definition nr_header_inbound_response_internal `{Pcre} (fuel : nat) (app : option nrapp_t) (txn : option nrtxn_t) (content_length now : Z) :
    outcome (option (list Z) * option nrtxn_t) :=
  match txn with
  | None => Done (None, txn)
  | Some t =>
      if (recording (status t) =? 0) || (cross_process_enabled (options t) =? 0) then Done (None, txn)
      else
        match client_cross_process_id (cat t) with
        | None => Done (None, txn)
        | Some client =>
            let apptime := nr_txn_unfinished_duration txn now in
            match cross_process_id t, nr_txn_get_guid txn with
            | Some id, Some guid =>
                match cross_process (status t) with
                | NR_STATUS_CROSS_PROCESS_START =>
                  '(frozen, txn) ← nr_txn_freeze_name_update_apdex fuel txn app;
                  if negb (bool_decide (frozen = NR_SUCCESS)) then Done (None, txn)
                  else
                    let qtime := nr_txn_queue_time txn in
                    let buf := take (Z.to_nat (32 + NR_CROSS_PROCESS_ID_LENGTH_MAX - 1)) (lit "ClientApplication/" ++ cstr client ++ lit "/all") in
                    let txn := (λ t, on_metrics (λ m, nrm_add m (Some buf) apptime)
                                       (on_intrinsics (add_string (lit "client_cross_process_id") (Some client)) t)) <$> txn in
                    let json := nro_to_json radix (response_array (Some id) (txn ≫= txn_name) (seconds qtime) (seconds apptime) content_length (Some guid)) in
                    Done (Some json, on_status (set_cross_process NR_STATUS_CROSS_PROCESS_RESPONSE_CREATED) <$> txn)
                | _ => Done (None, txn)
                end
            | _, _ => Done (None, txn)
            end
        end
  end.

Definition nr_header_inbound_response `{Pcre} (fuel : nat) (app : option nrapp_t) (txn : option nrtxn_t) (content_length now : Z) :
    outcome (option (list Z) * option nrtxn_t) :=
  '(response, txn) ← nr_header_inbound_response_internal fuel app txn content_length now;
  Done (nr_header_encode txn response, txn).

Definition nr_header_inbound_synthetics (txn : option nrtxn_t) (x_newrelic_synthetics : option (list Z)) : option (list Z) :=
  nr_header_decode txn x_newrelic_synthetics.
End response.

(** ** The headers of a request that is sent *)
Section outbound.
Context `{Allocator Z} `{QsortR} (radix : Z) (start : Md5.nr_MD5_CTX) (now : Z).

(** The text, and the transaction whose synthetics keep it. *)
Definition nr_header_outbound_request_synthetics_encoded (txn : option nrtxn_t) : option (list Z) * option nrtxn_t :=
  match txn with
  | None => (None, None)
  | Some t =>
      if synthetics_enabled (options t) =? 0 then (None, txn)
      else
        let '(decoded, s) := nr_synthetics_outbound_header radix (synthetics t) in
        let txn := Some (set_synthetics s t) in
        (nr_header_encode txn decoded, txn)
  end.

Definition transaction_array (guid trip_id path_hash : option (list Z)) : obj :=
  let array := Some nro_new_array in
  let array := (nro_set_array_string array 1 guid).1 in
  let array := (nro_set_array_boolean array 2 0).1 in
  let array := (nro_set_array_string array 3 trip_id).1 in
  (nro_set_array_string array 4 path_hash).1.

(** What is written through the two pointers, and the transaction. *)
Definition nr_header_outbound_request_decoded (txn : option nrtxn_t) : option (list Z) * option (list Z) * option nrtxn_t :=
  match txn with
  | None => (None, None, None)
  | Some t =>
      if cross_process_enabled (options t) =? 0 then (None, None, txn)
      else
        match cross_process_id t, nr_txn_get_guid txn with
        | Some id, Some guid =>
            let decoded_id := nr_strdup (Some id) in
            let trip_id := nr_txn_get_cat_trip_id txn in
            let '(path_hash, txn) := nr_txn_get_path_hash start txn in
            let decoded_transaction := nro_to_json radix (transaction_array (Some guid) trip_id path_hash) in
            (Some decoded_id, Some decoded_transaction, (λ t, set_txn_type (Z.lor (txn_type t) NR_TXN_TYPE_CAT_OUTBOUND) t) <$> txn)
        | _, _ => (None, None, txn)
        end
  end.

Definition nr_header_outbound_save (outbound_headers : option header_map_t) (key : list Z) (header : option (list Z)) : option header_map_t :=
  match header with
  | None => outbound_headers
  | Some _ => (HashMap.nr_hashmap_update outbound_headers (Some key) header).2
  end.

(** The headers, the transaction, the segment and the generator. *)
Definition nr_header_outbound_request_create (txn : option nrtxn_t) (segment : option nr_segment_t) (rnd : option Random.nr_random_t) :
    outcome (option header_map_t * option nrtxn_t * option nr_segment_t * option Random.nr_random_t) :=
  match txn, segment with
  | Some t, Some _ =>
      let outbound_headers := Some (HashMap.nr_hashmap_create true) in
      '(outbound_headers, txn, segment, rnd) ←
        (if flag (distributed_tracing_enabled (options t)) then
           '(outbound_headers, txn, segment, rnd) ←
             (if negb (distributed_tracing_exclude_newrelic_header (options t)) then
                '(newrelic_payload, txn, segment, rnd) ← nr_txn_create_distributed_trace_payload radix now txn segment rnd;
                Done (match newrelic_payload with
                      | Some _ => nr_header_outbound_save outbound_headers NEWRELIC (fst <$> Base64.nr_b64_encode newrelic_payload (nr_strlen newrelic_payload))
                      | None => outbound_headers
                      end, txn, segment, rnd)
              else Done (outbound_headers, txn, segment, rnd));
           '(traceparent_ptr, txn, segment, rnd) ← nr_txn_create_w3c_traceparent_header txn segment rnd;
           let outbound_headers := nr_header_outbound_save outbound_headers W3C_TRACEPARENT traceparent_ptr in
           '(tracestate_ptr, segment, rnd) ← nr_txn_create_w3c_tracestate_header radix now txn segment rnd;
           let tracing_vendors := DistributedTrace.nr_distributed_trace_inbound_get_raw_tracing_vendors (txn ≫= distributed_trace) in
           let tracestate_ptr := match tracing_vendors, tracestate_ptr with
                                 | Some _, Some _ => nr_str_append tracestate_ptr tracing_vendors (Some (lit ","))
                                 | _, _ => tracestate_ptr
                                 end in
           let outbound_headers := nr_header_outbound_save outbound_headers W3C_TRACESTATE tracestate_ptr in
           Done (outbound_headers, (λ t, set_txn_type (Z.lor (txn_type t) NR_TXN_TYPE_DT_OUTBOUND) t) <$> txn, segment, rnd)
         else if flag (cross_process_enabled (options t)) then
           let '(decoded_id, decoded_transaction, txn) := nr_header_outbound_request_decoded txn in
           let outbound_headers := nr_header_outbound_save outbound_headers X_NEWRELIC_ID (nr_header_encode txn decoded_id) in
           let outbound_headers := nr_header_outbound_save outbound_headers X_NEWRELIC_TRANSACTION (nr_header_encode txn decoded_transaction) in
           Done (outbound_headers, txn, segment, rnd)
         else Done (outbound_headers, txn, segment, rnd));
      let '(x_newrelic_synthetics_ptr, txn) := nr_header_outbound_request_synthetics_encoded txn in
      Done (nr_header_outbound_save outbound_headers X_NEWRELIC_SYNTHETICS x_newrelic_synthetics_ptr, txn, segment, rnd)
  | _, _ => Done (None, txn, segment, rnd)
  end.
End outbound.

(** ** The response that comes back *)

(** What is written through the three pointers. *)
Record external_t := External { external_id : option (list Z); external_txnname : option (list Z); external_guid : option (list Z) }.
Definition no_external : external_t := External None None None.

Section inbound.
Context (radix : Z) (address : list Z → Z).

Definition nr_header_outbound_response_object (txn : option nrtxn_t) (response_obj : obj) (ptrs : external_t) : external_t * option nrtxn_t :=
  match txn, response_obj with
  | Some t, Some _ =>
      if cross_process_enabled (options t) =? 0 then (ptrs, txn)
      else if negb (bool_decide (nro_type response_obj = NR_OBJECT_ARRAY)) then (ptrs, txn)
      else
        let response_size := nro_getsize response_obj in
        if response_size <? NR_RESPONSE_HDR_MIN_FIELDS then (ptrs, txn)
        else
          match (nro_get_array_string response_obj NR_RESPONSE_HDR_FIELD_INDEX_CROSS_PROCESS_ID).1 with
          | None => (ptrs, txn)
          | Some id =>
              if negb (bool_decide (nr_header_validate_decoded_id txn (Some id) = NR_SUCCESS)) then (ptrs, txn)
              else
                match (nro_get_array_string response_obj NR_RESPONSE_HDR_FIELD_INDEX_TXN_NAME).1 with
                | None => (ptrs, txn)
                | Some txnname =>
                    let has_guid := NR_RESPONSE_HDR_FIELD_INDEX_GUID <=? response_size in
                    let guid := if has_guid then (nro_get_array_string response_obj NR_RESPONSE_HDR_FIELD_INDEX_GUID).1 else None in
                    if has_guid && bool_decide (guid = None) then (ptrs, txn)
                    else
                      let has_record_tt := NR_RESPONSE_HDR_FIELD_INDEX_RECORD_TT <=? response_size in
                      let '(external_record_tt, err) :=
                        if has_record_tt then nro_get_array_boolean response_obj NR_RESPONSE_HDR_FIELD_INDEX_RECORD_TT else (0, NR_SUCCESS) in
                      if negb (bool_decide (err = NR_SUCCESS)) then (ptrs, txn)
                      else
                        (External (Some (nr_strdup (Some id))) (Some (nr_strdup (Some txnname)))
                           (match guid with Some _ => Some (nr_strdup guid) | None => external_guid ptrs end),
                         if negb (external_record_tt =? 0) then on_status (set_has_outbound_record_tt 1) <$> txn else txn)
                end
          end
  | _, _ => (ptrs, txn)
  end.

Definition nr_header_outbound_response_decoded (txn : option nrtxn_t) (decoded_response : option (list Z)) (ptrs : external_t) :
    outcome (external_t * option nrtxn_t) :=
  response_obj ← nro_create_from_json radix address decoded_response;
  Done (nr_header_outbound_response_object txn response_obj ptrs).

(** The three pointers are reset first. *)
Definition nr_header_outbound_response (txn : option nrtxn_t) (x_newrelic_app_data : option (list Z)) : outcome (external_t * option nrtxn_t) :=
  let decoded_response := nr_header_decode txn x_newrelic_app_data in
  nr_header_outbound_response_decoded txn decoded_response no_external.

(** ** The request that is served *)
Definition nr_header_obj_is_null_or_string (o : obj) : bool :=
  bool_decide (o = None) || bool_decide (nro_type o = NR_OBJECT_NONE) || bool_decide (nro_type o = NR_OBJECT_STRING).

Definition nr_header_process_x_newrelic_transaction (t : nrtxn_t) (x_newrelic_txn : obj) : nr_status_t * nrtxn_t :=
  let guid := (nro_get_array_string x_newrelic_txn 1).1 in
  let inbound_record_tt := (nro_get_array_boolean x_newrelic_txn 2).1 in
  match guid with
  | None => (NR_FAILURE, t)
  | Some _ =>
      if inbound_record_tt =? -1 then (NR_FAILURE, t)
      else
        let trip_id_val := (nro_get_array_value x_newrelic_txn 3).1 in
        let referring_path_hash_val := (nro_get_array_value x_newrelic_txn 4).1 in
        if negb (nr_header_obj_is_null_or_string trip_id_val) then (NR_FAILURE, t)
        else if negb (nr_header_obj_is_null_or_string referring_path_hash_val) then (NR_FAILURE, t)
        else
          let t := set_txn_type (Z.lor (txn_type t) NR_TXN_TYPE_CAT_INBOUND) t in
          let t := on_cat (set_inbound_guid (Some (nr_strdup guid))) t in
          let t := on_status (set_has_inbound_record_tt (if inbound_record_tt =? 0 then 0 else 1)) t in
          let t := on_intrinsics (add_string (lit "referring_transaction_guid") guid) t in
          let trip := (nro_get_string trip_id_val).1 in
          let t := match trip with Some _ => on_cat (set_trip_id (Some (nr_strdup trip))) t | None => t end in
          let hash := (nro_get_string referring_path_hash_val).1 in
          let t := match hash with Some _ => on_cat (set_referring_path_hash (Some (nr_strdup hash))) t | None => t end in
          (NR_SUCCESS, t)
  end.

Definition nr_header_set_cat_txn (txn : option nrtxn_t) (x_newrelic_id x_newrelic_transaction : option (list Z)) : outcome (nr_status_t * option nrtxn_t) :=
  match txn with
  | None => Done (NR_FAILURE, txn)
  | Some t =>
      let decoded_id := nr_header_decode txn x_newrelic_id in
      if decide (nr_header_validate_decoded_id txn decoded_id = NR_FAILURE) then Done (NR_FAILURE, txn)
      else
        let t := on_cat (set_client_cross_process_id (Some (nr_strdup decoded_id))) t in
        match nr_header_decode (Some t) x_newrelic_transaction with
        | None => Done (NR_FAILURE, Some t)
        | Some decoded_txn =>
            fields ← nro_create_from_json radix address (Some decoded_txn);
            match fields with
            | None => Done (NR_FAILURE, Some t)
            | Some _ => let '(rv, t) := nr_header_process_x_newrelic_transaction t fields in Done (rv, Some t)
            end
        end
  end.

Definition nr_header_set_synthetics_txn (txn : option nrtxn_t) (header : option (list Z)) : outcome (nr_status_t * option nrtxn_t) :=
  match txn, header with
  | Some t, Some _ =>
      match synthetics t with
      | Some _ => Done (NR_FAILURE, txn)
      | None =>
          let decoded := nr_header_inbound_synthetics txn header in
          s ← nr_synthetics_create radix address decoded;
          match s with
          | None => Done (NR_FAILURE, txn)
          | Some _ =>
              let account := nr_synthetics_account_id s in
              if negb (nr_txn_is_account_trusted txn account) then Done (NR_FAILURE, txn)
              else Done (NR_SUCCESS, Some (set_txn_type (Z.lor (txn_type t) NR_TXN_TYPE_SYNTHETICS) (set_synthetics s t)))
          end
      end
  | _, _ => Done (NR_FAILURE, txn)
  end.
End inbound.

(** ** Text of headers *)

(** The two loops are the characters that they pass over. *)
Definition nr_header_extract_encoded_value (header_name string : option (list Z)) : option (list Z) :=
  match string, header_name with
  | Some s, Some _ =>
      let name_start := nr_strcaseidx string header_name in
      if name_start <? 0 then None
      else
        let value_start := name_start + nr_strlen header_name in
        let behind := (span (λ c, (58 =? c) || (32 =? c)) (drop (Z.to_nat value_start) (cstr s))).2 in
        let value := (span Base64.nr_b64_is_valid_character behind).1 in
        match value with [] => None | _ => Some (nr_strndup (Some behind) (Z.of_nat (length value))) end
  | _, _ => None
  end.

Definition nr_header_format_name_value (name value : option (list Z)) (include_return_newline : Z) : option (list Z) :=
  match name, value with
  | Some n, Some v =>
      let suffix := if negb (include_return_newline =? 0) then [13; 10] else [] in
      let len := nr_strlen name + nr_strlen value + 8 in
      Some (cstr (snprintf (replicate (Z.to_nat len) 0) len (cstr n ++ lit ": " ++ cstr v ++ suffix)).2)
  | _, _ => None
  end.

Definition nr_header_is_valid_token_char (ch : Z) : bool :=
  if (97 <=? ch) && (ch <=? 122) then true
  else if (65 <=? ch) && (ch <=? 90) then true
  else if (48 <=? ch) && (ch <=? 57) then true
  else bool_decide (ch ∈ lit "!#$%&'*+-.^_`|~").

Definition nr_header_parse_content_type (header : option (list Z)) : option (list Z) :=
  match header with
  | None => None
  | Some s =>
      let s := cstr s in
      let colon := nr_strchr (Some s) 58 in
      if bool_decide (colon = Some 0) then None
      else
        let start := match colon with Some i => drop (Z.to_nat (i + 1)) s | None => s end in
        let start := (span (λ c, (32 =? c) || (9 =? c)) start).2 in
        if (char_at start 0 =? 0) && bool_decide (colon ≠ None) then Some (nr_strdup (Some []))
        else
          let len := Z.of_nat (length (span nr_header_is_valid_token_char start).1) in
          if len =? 0 then None
          else if negb (char_at start len =? 47) then None
          else
            let len := len + 1 in
            let len := len + Z.of_nat (length (span nr_header_is_valid_token_char (drop (Z.to_nat len) start)).1) in
            let c := char_at start len in
            if negb ((c =? 0) || (c =? 32) || (c =? 9) || (c =? 59)) then None
            else if char_at start (len - 1) =? 47 then None
            else Some (nr_strndup (Some start) len)
  end.

(** ** A conversation *)
Lemma char_first (s : list Z) : is_cstr s → s ≠ [] → (char_at s 0 =? 0) = false.
Proof. intros Hs Hne. destruct s as [|c s]; [done|]. apply Forall_inv in Hs. change (char_at (c :: s) 0) with c. cbn in Hs. lia. Qed.

Lemma encoded_valid data : Forall is_byte data → data ≠ [] →
  nr_header_validate_encoded_string (Some (Base64.encode_loop data)) = NR_SUCCESS ∧ is_cstr (Base64.encode_loop data).
Proof.
  intros Hd Hne. destruct (Base64.encode_loop_shape data Hd) as (pre & E & Hpre & Hl).
  assert (is_cstr (Base64.encode_loop data)) as Hc.
  { rewrite E. apply Forall_app. split; [|apply Forall_replicate; lia]. eapply Forall_impl; [exact Hpre|]. by intros c (? & _). }
  split; [|done]. unfold nr_header_validate_encoded_string. rewrite char_first; [|done|].
  - rewrite cstr_id by done. rewrite (proj2 (forallb_forall _ _)); [done|]. intros c Hin%list_elem_of_In. rewrite E in Hin.
    apply elem_of_app in Hin as [Hin|Hin]; [|by apply elem_of_replicate in Hin as [-> _]].
    rewrite Forall_forall in Hpre. by destruct (Hpre c Hin) as (_ & _ & ?).
  - rewrite E. intros Habs%(f_equal length). rewrite length_app, length_replicate in Habs. change (length (@nil Z)) with 0%nat in Habs.
    pose proof (Base64.quanta_bounds data). assert (length data ≠ 0)%nat by (by destruct data). lia.
Qed.

(** What one side encodes, the other decodes. *)
Lemma encoded_reads_back a b str key : encoding_key a = Some key → encoding_key b = Some key → Forall is_byte key → key ≠ [] → char_at key 0 ≠ 0 →
  is_cstr str → str ≠ [] → ∃ x, nr_header_encode (Some a) (Some str) = Some x ∧ nr_header_decode (Some b) (Some x) = Some str.
Proof.
  intros Ha Hb Hk Hkne Hk0 Hs Hne.
  set (d := Base64.xor_loop key (Base64.key_length key 0) str 0).
  assert (length d = length str) as Hl by apply Base64.xor_loop_length.
  assert (Forall is_byte d) as Hd by (apply Base64.xor_loop_bytes; [done|by apply cstr_is_bytes]).
  assert (d ≠ []) as Hdne by (intros E; rewrite E in Hl; by destruct str).
  assert (Base64.nr_obfuscate (Some str) (Some key) 0 = Some (Base64.encode_loop d)) as E.
  { unfold Base64.nr_obfuscate. rewrite (char_first str) by done. destruct (Z.eqb_spec (char_at key 0) 0); [done|]. cbn [orb]. change (0 <? 0) with false.
    rewrite cstr_id by done. unfold Base64.nr_b64_encode. fold d. destruct (Z.leb_spec (Z.of_nat (length str)) 0); [by destruct str|].
    rewrite Nat2Z.id, take_ge by lia. done. }
  exists (Base64.encode_loop d). unfold nr_header_encode, nr_header_decode. cbn [mbind option_bind]. rewrite Ha, Hb. split; [done|].
  destruct (encoded_valid d Hd Hdne) as [-> _]. rewrite decide_True by done. rewrite (Base64.nr_deobfuscate_roundtrip str key 0) by done.
  cbn [fmap option_fmap option_map]. by rewrite cstr_id.
Qed.

(** An identifier names an account before its hash sign. *)
Lemma account_id_read n rest : 0 < n < INT_MAX → is_cstr rest →
  nr_header_account_id_from_cross_process_id (Some (decimal n ++ 35 :: rest)) = n ∧ is_cstr (decimal n ++ 35 :: rest).
Proof.
  unfold INT_MAX. intros Hn Hr. destruct (decimal_spec n ltac:(lia)) as (_ & Hd & Ho).
  assert (is_cstr (decimal n ++ 35 :: rest)) as Hc.
  { apply Forall_app. split; [|by apply Forall_cons_2]. eapply Forall_impl; [exact Hd|]. cbn. lia. }
  split; [|done]. unfold nr_header_account_id_from_cross_process_id, strtoll_10. rewrite cstr_id by done.
  assert (Forall (λ c, nr_isdigit c = true) (decimal n)) as Hdig by (eapply Forall_impl; [exact Hd|]; cbn; unfold nr_isdigit; lia).
  assert (decimal n ≠ []) as Hne by (intros E; rewrite E in Ho; cbn in Ho; lia).
  assert (skip_spaces (decimal n ++ 35 :: rest) = decimal n ++ 35 :: rest ∧ scan_sign (decimal n ++ 35 :: rest) = (false, decimal n ++ 35 :: rest)) as [-> ->].
  { destruct (decimal n) as [|c ds]; [done|]. apply Forall_inv in Hd. cbn in Hd. split.
    - apply skip_spaces_none. cbn. unfold nr_isspace. lia.
    - cbn. destruct (Z.eqb_spec c 45), (Z.eqb_spec c 43); try lia. done. }
  rewrite span_app by done.
  assert (match decimal n with [] => (0, decimal n ++ 35 :: rest) | _ => (saturate (of_decimal (decimal n)), 35 :: rest) end = (n, 35 :: rest)) as E.
  { rewrite Ho. unfold saturate. destruct (decimal n); [done|]. f_equal. lia. }
  cbn [span]. rewrite E. change (char_at (35 :: rest) 0) with 35. cbn [negb Z.eqb Pos.eqb]. destruct (Z.leb_spec INT_MAX n); [unfold INT_MAX in *; lia|done].
Qed.

(** One side of a conversation: what its account, its name and its policies are. *)
Record speaks (t : nrtxn_t) (key : list Z) (account : Z) (rest guid : list Z) : Prop := {
  sp_enabled : flag (cross_process_enabled (options t)) = true;
  sp_key : encoding_key t = Some key;
  sp_id : cross_process_id t = Some (decimal account ++ 35 :: rest);
  sp_account : 0 < account < INT_MAX;
  sp_length : Z.of_nat (length (decimal account ++ 35 :: rest)) < NR_CROSS_PROCESS_ID_LENGTH_MAX;
  sp_rest : text_ok rest;
  sp_guid : nr_txn_get_guid (Some t) = Some guid ∧ text_ok guid;
}.

Definition key_ok_for (key : list Z) : Prop := Forall is_byte key ∧ char_at key 0 ≠ 0.

Lemma text_append a b : text_ok a → text_ok b → text_ok (a ++ b).
Proof.
  intros (x & -> & Hx) (y & -> & Hy). exists (x ++ y). split; [by rewrite flat_map_app|]. apply Forall_app. by split.
Qed.

Lemma id_text account rest : 0 < account < INT_MAX → text_ok rest → text_ok (decimal account ++ 35 :: rest).
Proof.
  unfold INT_MAX. intros Hn Hr. destruct (decimal_spec account ltac:(lia)) as (_ & Hd & _). change (35 :: rest) with ([35] ++ rest).
  apply text_append; [|apply text_append; [by_text|done]]. apply ascii_text. eapply Forall_impl; [exact Hd|]. cbn. lia.
Qed.

(** The text of an array of texts and a zero, read back on the other side. *)
Lemma transaction_reads_back `{Allocator Z} radix radix' address guid trip hash : locale_radix radix → locale_radix radix' →
  text_ok guid → text_ok trip → text_ok (nr_strdup hash) →
  let text := nro_to_json radix (transaction_array (Some guid) (Some trip) hash) in
  is_cstr text ∧ text ≠ [] ∧
  ∃ es, nro_create_from_json radix' address (Some text) = Done (Some (OArray 8 es)) ∧
    es = [OString (Some guid); OBoolean 0; OString (Some trip); OString (Some (nr_strdup hash))].
Proof.
  intros Hx Hx' Hg Ht Hh. cbv zeta.
  set (op := OArray 8 [OString (Some guid); OBoolean 0; OString (Some trip); OString (Some (nr_strdup hash))]).
  assert (transaction_array (Some guid) (Some trip) hash = Some op) as ->.
  { unfold transaction_array, nro_set_array_string, nro_new_string. 
    assert (∀ s, text_ok s → nr_strdup (Some s) = s) as Hdup by (intros s Hs; unfold nr_strdup; cbn; by apply cstr_id, text_cstr).
    rewrite (Hdup guid), (Hdup trip) by done. reflexivity. }
  assert (jsonable op ∧ obj_ok op) as [Hj Hok].
  { split; constructor; try done; repeat apply Forall_cons_2; try apply Forall_nil_2; constructor; try done; by apply text_cstr. }
  split; [|split].
  - rewrite nro_to_json_text by done. by apply json_text_cstr.
  - rewrite nro_to_json_text by done. destruct (json_text_head address op Hj Hok) as (c & l & -> & _). done.
  - eexists. split; [by rewrite json_reads_back by done|]. reflexivity.
Qed.

Lemma save_map hm m key header : HashMap.represents hm m → key ≠ [] →
  ∃ hm', nr_header_outbound_save (Some hm) key header = Some hm' ∧ HashMap.represents hm' (match header with Some _ => <[key:=header]> m | None => m end).
Proof.
  intros Hr Hk. destruct header as [h|]; [|by exists hm]. destruct (update_map hm m key (Some h) Hr Hk) as (dead & hm' & E & Hr').
  exists hm'. cbn [nr_header_outbound_save]. by rewrite E.
Qed.

Lemma cat_names_ne : X_NEWRELIC_ID ≠ X_NEWRELIC_TRANSACTION ∧ X_NEWRELIC_ID ≠ X_NEWRELIC_SYNTHETICS ∧ X_NEWRELIC_TRANSACTION ≠ X_NEWRELIC_SYNTHETICS.
Proof. by apply (bool_decide_unpack _). Qed.

(** The synthetics header leaves the other headers alone. *)
Lemma synthetics_saved `{Allocator Z} radix t hm m : HashMap.represents hm m → ∃ hm' m' s',
  (let '(x_newrelic_synthetics_ptr, txn) := nr_header_outbound_request_synthetics_encoded radix (Some t) in
   (nr_header_outbound_save (Some hm) X_NEWRELIC_SYNTHETICS x_newrelic_synthetics_ptr, txn)) = (Some hm', Some (set_synthetics s' t)) ∧
  HashMap.represents hm' m' ∧ ∀ k, k ≠ X_NEWRELIC_SYNTHETICS → m' !! k = m !! k.
Proof.
  intros Hr. unfold nr_header_outbound_request_synthetics_encoded. destruct (synthetics_enabled (options t) =? 0).
  - exists hm, m, (synthetics t). split; [|done]. f_equal. by destruct t.
  - destruct (nr_synthetics_outbound_header radix (synthetics t)) as [decoded s]. 
    destruct (save_map hm m X_NEWRELIC_SYNTHETICS (nr_header_encode (Some (set_synthetics s t)) decoded) Hr) as (hm' & -> & Hr'); [done|].
    eexists hm', _, s. split; [done|]. split; [exact Hr'|]. intros k Hk. destruct (nr_header_encode _ _); [|done]. by rewrite lookup_insert_ne.
Qed.

(** What the other side knows of a request. *)
Definition knows_caller (t : nrtxn_t) (id guid trip hash : list Z) (t' : nrtxn_t) : Prop :=
  cat t' = Cat (Some guid) (Some trip) (Some hash) (alternate_path_hashes (cat t)) (Some id) ∧
  txn_type t' = Z.lor (txn_type t) NR_TXN_TYPE_CAT_INBOUND ∧ has_inbound_record_tt (status t') = 0 ∧
  intrinsics t' = add_string (lit "referring_transaction_guid") (Some guid) (intrinsics t) ∧
  options t' = options t ∧ app_connect_reply t' = app_connect_reply t.

Lemma transaction_processed t guid trip hash :
  nr_header_process_x_newrelic_transaction t (Some (OArray 8 [OString (Some guid); OBoolean 0; OString (Some trip); OString (Some hash)])) =
  (NR_SUCCESS,
   on_cat (set_referring_path_hash (Some (nr_strdup (Some hash)))) (on_cat (set_trip_id (Some (nr_strdup (Some trip))))
     (on_intrinsics (add_string (lit "referring_transaction_guid") (Some guid)) (on_status (set_has_inbound_record_tt 0)
       (on_cat (set_inbound_guid (Some (nr_strdup (Some guid)))) (set_txn_type (Z.lor (txn_type t) NR_TXN_TYPE_CAT_INBOUND) t)))))).
Proof. reflexivity. Qed.

Lemma id_validated b id account : is_cstr id → Z.of_nat (length id) < NR_CROSS_PROCESS_ID_LENGTH_MAX →
  nr_header_account_id_from_cross_process_id (Some id) = account → 0 < account < INT_MAX →
  nr_header_validate_decoded_id (Some b) (Some id) = if nr_txn_is_account_trusted (Some b) account then NR_SUCCESS else NR_FAILURE.
Proof.
  intros Hid Hlen Hacc Ha. unfold nr_header_validate_decoded_id. rewrite nr_strlen_cstr, Hacc by done. destruct (Z.leb_spec NR_CROSS_PROCESS_ID_LENGTH_MAX (Z.of_nat (length id))); [lia|].
  destruct (Z.eqb_spec account (-1)); [lia|].
  assert (int_of account = account) as -> by (unfold int_of, INT_MAX in *; rewrite u32_small by lia; destruct (Z.ltb_spec account (2 ^ 31)); lia). done.
Qed.

Lemma request_served `{Allocator Z} radix radix' address b key id account guid trip hash x y : locale_radix radix → locale_radix radix' →
  text_ok guid → text_ok trip → text_ok (nr_strdup hash) → is_cstr id → Z.of_nat (length id) < NR_CROSS_PROCESS_ID_LENGTH_MAX →
  nr_header_account_id_from_cross_process_id (Some id) = account → 0 < account < INT_MAX →
  nr_header_decode (Some b) (Some x) = Some id →
  nr_header_decode (Some b) (Some y) = Some (nro_to_json radix (transaction_array (Some guid) (Some trip) hash)) →
  encoding_key b = Some key →
  if nr_txn_is_account_trusted (Some b) account
  then ∃ b', nr_header_set_cat_txn radix' address (Some b) (Some x) (Some y) = Done (NR_SUCCESS, Some b') ∧ knows_caller b id guid trip (nr_strdup hash) b'
  else nr_header_set_cat_txn radix' address (Some b) (Some x) (Some y) = Done (NR_FAILURE, Some b).
Proof.
  intros Hx Hx' Hg Ht Hh Hid Hlen Hacc Ha Ex Ey Hkey. unfold nr_header_set_cat_txn. rewrite Ex.
  rewrite (id_validated b id account) by done.
  destruct (nr_txn_is_account_trusted (Some b) account); [|by rewrite decide_True]. rewrite decide_False by done.
  assert (∀ t, app_connect_reply t = app_connect_reply b → nr_header_decode (Some t) (Some y) = nr_header_decode (Some b) (Some y)) as Hdec.
  { intros t E. unfold nr_header_decode, encoding_key. by rewrite E. }
  rewrite Hdec, Ey by done.
  destruct (transaction_reads_back radix radix' address guid trip hash Hx Hx' Hg Ht Hh) as (_ & _ & es & -> & ->). cbn [mbind outcome_bind].
  rewrite transaction_processed.
  assert (∀ s, text_ok s → nr_strdup (Some s) = s) as Hdup by (intros s Hs; unfold nr_strdup; cbn; by apply cstr_id, text_cstr).
  assert (nr_strdup (Some id) = id) as Eid by (unfold nr_strdup; cbn; by apply cstr_id).
  rewrite Eid, (Hdup guid), (Hdup trip), (Hdup (nr_strdup hash)) by done. eexists. split; [reflexivity|]. by split_and!.
Qed.

(** Freezing a name leaves the reply of the daemon alone. *)
Section freezing.
Context `{Pcre} `{Allocator Z}.

Lemma url_rules_reply fuel t rules st t' : nr_txn_apply_url_rules fuel t rules = Done (st, t') → app_connect_reply t' = app_connect_reply t.
Proof.
  unfold nr_txn_apply_url_rules. destruct rules, (path t); try (by intros [= <- <-]).
  destruct (nr_rules_apply _ _ _) as [[[] output]| | |]; cbn [mbind outcome_bind]; by intros [= <- <-].
Qed.
Lemma txn_rules_reply fuel t rules st t' : nr_txn_apply_txn_rules fuel t rules = Done (st, t') → app_connect_reply t' = app_connect_reply t.
Proof.
  unfold nr_txn_apply_txn_rules. destruct rules, (txn_name t); try (by intros [= <- <-]).
  destruct (nr_rules_apply _ _ _) as [[[] output]| | |]; cbn [mbind outcome_bind]; by intros [= <- <-].
Qed.
Lemma strip_slash_reply t : app_connect_reply (strip_slash t) = app_connect_reply t.
Proof. unfold strip_slash. destruct (path t); [|done]. by destruct (_ =? _). Qed.
Lemma segment_terms_reply t terms : app_connect_reply (nr_txn_apply_segment_terms t terms) = app_connect_reply t.
Proof. unfold nr_txn_apply_segment_terms. destruct (txn_name t); [|done]. by destruct (nr_segment_terms_apply _ _). Qed.

Lemma freeze_reply fuel t app st t' : nr_txn_freeze_name_update_apdex fuel (Some t) app = Done (st, Some t') → app_connect_reply t' = app_connect_reply t.
Proof.
  unfold nr_txn_freeze_name_update_apdex. destruct (negb _); [by intros [= <- <-]|]. destruct (negb _); [by intros [= <- <-]|].
  cbv zeta. destruct (name_prefix _ _) as [prefix name]. destruct app as [app|]; [|by intros [= <- <-]].
  set (t0 := on_status (set_path_is_frozen 1) t). assert (app_connect_reply t0 = app_connect_reply t) as E0 by done.
  assert (∀ o, (∀ st1 t1, o = Done (st1, t1) → app_connect_reply t1 = app_connect_reply t) →
    ∀ k : nr_status_t * nrtxn_t → outcome (nr_status_t * option nrtxn_t), (o ≫= k) = Done (st, Some t') →
    ∃ st1 t1, app_connect_reply t1 = app_connect_reply t ∧ k (st1, t1) = Done (st, Some t')) as Hbind.
  { intros o Ho k. destruct o as [[st1 t1]| | |]; cbn [mbind outcome_bind]; [|done..]. intros E. exists st1, t1. split; [by eapply Ho|done]. }
  intros E. apply Hbind in E as (st1 & t1 & E1 & E).
  2:{ intros st1 t1. destruct (path t0); [|by intros [= <- <-]].
      intros Eo. destruct (if nr_txn_should_do_url_rules _ _ then _ else _) as [[st2 t2]| | |] eqn:E2; cbn [mbind outcome_bind] in Eo; [|done..].
      assert (app_connect_reply t2 = app_connect_reply t) as Et2.
      { destruct (nr_txn_should_do_url_rules _ _); [by apply url_rules_reply in E2|by injection E2 as <- <-]. }
      destruct (decide _); injection Eo as <- <-; [done|]. by rewrite strip_slash_reply. }
  destruct (decide _); [by injection E as <- <-|]. apply Hbind in E as (st2 & t2 & E2 & E).
  2:{ intros st2 t2 Eo. apply txn_rules_reply in Eo. rewrite Eo. done. }
  destruct (decide _); [by injection E as <- <-|]. injection E as <- <-. 
  unfold nr_txn_update_apdex_if_key_txn. set (t3 := nr_txn_apply_segment_terms _ _).
  assert (app_connect_reply t3 = app_connect_reply t) as E3 by (unfold t3; rewrite segment_terms_reply; exact E2).
  destruct (_.1); [|done]. cbv zeta. by destruct (SpecFloat.SFltb _ _).
Qed.
End freezing.

Section conversation.
Context `{Allocator Z} (radix radix' : Z) (address : list Z → Z) (start : Md5.nr_MD5_CTX).
Hypothesis radix_ok : locale_radix radix.
Hypothesis radix_ok' : locale_radix radix'.

Definition sent_trip (t : nrtxn_t) (guid : list Z) : list Z := default guid (trip_id (cat t)).

Lemma request_decoded t key account rest guid : speaks t key account rest guid →
  ∃ t', nr_header_outbound_request_decoded radix start (Some t) =
    (Some (decimal account ++ 35 :: rest),
     Some (nro_to_json radix (transaction_array (Some guid) (Some (sent_trip t guid)) (nr_txn_current_path_hash start (Some t)))), Some t') ∧
    txn_type t' = Z.lor (txn_type t) NR_TXN_TYPE_CAT_OUTBOUND ∧ app_connect_reply t' = app_connect_reply t.
Proof.
  intros [He Hk Hid Ha _ Hr [Hg _]]. unfold nr_header_outbound_request_decoded. unfold flag in He. destruct (cross_process_enabled (options t) =? 0); [done|].
  rewrite Hid, Hg. assert (nr_txn_get_cat_trip_id (Some t) = Some (sent_trip t guid)) as ->.
  { unfold nr_txn_get_cat_trip_id, sent_trip. cbn [mbind option_bind]. rewrite Hg. by destruct (trip_id (cat t)). }
  destruct (account_id_read account rest Ha (text_cstr _ Hr)) as [_ Hc].
  assert (nr_strdup (Some (decimal account ++ 35 :: rest)) = decimal account ++ 35 :: rest) as -> by (unfold nr_strdup; cbn; by apply cstr_id).
  assert (∃ t1, nr_txn_get_path_hash start (Some t) = (nr_txn_current_path_hash start (Some t), Some t1) ∧ txn_type t1 = txn_type t ∧ app_connect_reply t1 = app_connect_reply t)
    as (t1 & -> & Ety & Erep).
  { unfold nr_txn_get_path_hash, nr_txn_add_alternate_path_hash. destruct (nr_txn_current_path_hash start (Some t)) as [h|]; [|by eexists].
    destruct (char_at h 0 =? 0); [by eexists|]. by destruct (_ <=? _); eexists. }
  eexists. split; [reflexivity|]. cbn. by rewrite Ety.
Qed.

(** The other side knows who calls. A request that one application sends with
    cross application tracing carries its identifier and the transaction's
    identifier, trip and path hash, obfuscated with the key of the account; an
    application with the same key that serves it takes them over, whatever the
    locales, exactly when it trusts the account that the identifier names, and is
    left as it was otherwise.  A synthetics header may travel beside them. *)
Theorem nr_header_cat_request_known a b seg rnd now key account rest guid : speaks a key account rest guid → key_ok_for key →
  flag (distributed_tracing_enabled (options a)) = false → text_ok (sent_trip a guid) → text_ok (nr_strdup (nr_txn_current_path_hash start (Some a))) →
  encoding_key b = Some key →
  ∃ hm a' headers x y, nr_header_outbound_request_create radix start now (Some a) (Some seg) rnd = Done (Some hm, Some a', Some seg, rnd) ∧
    HashMap.represents hm headers ∧ headers !! X_NEWRELIC_ID = Some (Some x) ∧ headers !! X_NEWRELIC_TRANSACTION = Some (Some y) ∧
    txn_type a' = Z.lor (txn_type a) NR_TXN_TYPE_CAT_OUTBOUND ∧
    if nr_txn_is_account_trusted (Some b) account
    then ∃ b', nr_header_set_cat_txn radix' address (Some b) (Some x) (Some y) = Done (NR_SUCCESS, Some b') ∧
           knows_caller b (decimal account ++ 35 :: rest) guid (sent_trip a guid) (nr_strdup (nr_txn_current_path_hash start (Some a))) b'
    else nr_header_set_cat_txn radix' address (Some b) (Some x) (Some y) = Done (NR_FAILURE, Some b).
Proof.
  intros Hs [Hkb Hk0] Hdt Htrip Hhash Hb. pose proof Hs as [He Hk _ Hacc Hlen Hrest [_ Hg]].
  destruct (request_decoded a key account rest guid Hs) as (a1 & Ed & Ety & Erep).
  destruct (account_id_read account rest Hacc (text_cstr _ Hrest)) as [Eid Hidc].
  set (id := decimal account ++ 35 :: rest) in *. set (hash := nr_txn_current_path_hash start (Some a)) in *.
  assert (key ≠ []) as Hkne by (intros ->; done). assert (id ≠ []) as Hidne by (unfold id; by destruct (decimal account)).
  assert (encoding_key a1 = Some key) as Hk1 by (unfold encoding_key; by rewrite Erep).
  destruct (encoded_reads_back a1 b id key Hk1 Hb Hkb Hkne Hk0 Hidc Hidne) as (x & Ex & Dx).
  destruct (transaction_reads_back radix radix' address guid (sent_trip a guid) hash radix_ok radix_ok' Hg Htrip Hhash) as (Htc & Htne & _).
  destruct (encoded_reads_back a1 b _ key Hk1 Hb Hkb Hkne Hk0 Htc Htne) as (y & Ey & Dy).
  destruct (save_map (HashMap.nr_hashmap_create true) ∅ X_NEWRELIC_ID (Some x) (create_map true)) as (h1 & E1 & Hr1); [done|].
  destruct (save_map h1 _ X_NEWRELIC_TRANSACTION (Some y) Hr1) as (h2 & E2 & Hr2); [done|]. cbv iota in Hr1, Hr2.
  destruct (synthetics_saved radix a1 h2 _ Hr2) as (h3 & m3 & s' & E3 & Hr3 & Hm3). destruct cat_names_ne as (N1 & N2 & N3).
  exists h3, (set_synthetics s' a1), m3, x, y. split_and!.
  - unfold nr_header_outbound_request_create. rewrite Hdt, He. cbv zeta. rewrite Ed, Ex, Ey, E1, E2. cbn [mbind outcome_bind].
    destruct (nr_header_outbound_request_synthetics_encoded radix (Some a1)) as [p t]. by injection E3 as -> ->.
  - done.
  - rewrite Hm3 by done. rewrite lookup_insert_ne by done. apply lookup_insert_eq.
  - rewrite Hm3 by done. apply lookup_insert_eq.
  - done.
  - by apply (request_served radix radix' address b key id account guid (sent_trip a guid) hash x y).
Qed.

(** The text of a response, read back on the other side. *)
Definition response_fields (id name guid : list Z) (queue app : double) (length : Z) : list nrobj_t :=
  [OString (Some id); OString (Some name); ODouble queue; ODouble app; OInt length 0; OString (Some guid); OBoolean 0].

Lemma response_reads_back id name guid queue app len : text_ok id → text_ok name → text_ok guid → int_range len →
  jsonable (ODouble queue) → jsonable (ODouble app) →
  let text := nro_to_json radix (response_array (Some id) (Some name) queue app len (Some guid)) in
  is_cstr text ∧ text ≠ [] ∧ nro_create_from_json radix' address (Some text) = Done (Some (OArray 8 (reread address 0 <$> response_fields id name guid queue app len))).
Proof.
  intros Hid Hn Hg Hl Hq Ha. cbv zeta. set (op := OArray 8 (response_fields id name guid queue app len)).
  assert (response_array (Some id) (Some name) queue app len (Some guid) = Some op) as ->.
  { unfold response_array, nro_set_array_string, nro_new_string.
    assert (∀ s, text_ok s → nr_strdup (Some s) = s) as Hdup by (intros s Hs; unfold nr_strdup; cbn; by apply cstr_id, text_cstr).
    rewrite (Hdup id), (Hdup name), (Hdup guid) by done. reflexivity. }
  assert (∀ d, jsonable (ODouble d) → obj_ok (ODouble d)) as Hd by (intros d Hj; inversion Hj; by constructor).
  assert (jsonable op ∧ obj_ok op) as [Hj Hok].
  { unfold op, response_fields. split; constructor; try done; repeat apply Forall_cons_2; try apply Forall_nil_2; try (by apply Hd); try done; constructor; try done; by apply text_cstr. }
  split; [|split].
  - rewrite nro_to_json_text by done. by apply json_text_cstr.
  - rewrite nro_to_json_text by done. destruct (json_text_head address op Hj Hok) as (c & l & -> & _). done.
  - by rewrite json_reads_back by done.
Qed.

Lemma response_object_spec a id account name guid queue app len ptrs : flag (cross_process_enabled (options a)) = true →
  is_cstr id → Z.of_nat (length id) < NR_CROSS_PROCESS_ID_LENGTH_MAX → text_ok name → text_ok guid →
  nr_header_account_id_from_cross_process_id (Some id) = account → 0 < account < INT_MAX →
  nr_header_outbound_response_object (Some a) (Some (OArray 8 [OString (Some id); OString (Some name); queue; app; len; OString (Some guid); OBoolean 0])) ptrs =
    (if nr_txn_is_account_trusted (Some a) account then External (Some id) (Some name) (Some guid) else ptrs, Some a).
Proof.
  intros He Hid Hlen Hn Hg Hacc Ha. unfold nr_header_outbound_response_object. unfold flag in He. destruct (cross_process_enabled (options a) =? 0); [done|].
  set (o := Some (OArray _ _)).
  change (nro_type o) with NR_OBJECT_ARRAY. change (nro_getsize o) with 7.
  change (nro_get_array_string o NR_RESPONSE_HDR_FIELD_INDEX_CROSS_PROCESS_ID) with (Some id, NR_SUCCESS).
  change (nro_get_array_string o NR_RESPONSE_HDR_FIELD_INDEX_TXN_NAME) with (Some name, NR_SUCCESS).
  change (nro_get_array_string o NR_RESPONSE_HDR_FIELD_INDEX_GUID) with (Some guid, NR_SUCCESS).
  change (nro_get_array_boolean o NR_RESPONSE_HDR_FIELD_INDEX_RECORD_TT) with (0, NR_SUCCESS).
  rewrite bool_decide_true by done. cbn [negb fst]. change (7 <? NR_RESPONSE_HDR_MIN_FIELDS) with false. cbv iota.
  rewrite (id_validated a id account) by done.
  assert (∀ s, is_cstr s → nr_strdup (Some s) = s) as Hdup by (intros s Hs; unfold nr_strdup; cbn; by apply cstr_id).
  destruct (nr_txn_is_account_trusted (Some a) account); [|done]. rewrite bool_decide_true by done. cbn [negb].
  change (NR_RESPONSE_HDR_FIELD_INDEX_GUID <=? 7) with true. change (NR_RESPONSE_HDR_FIELD_INDEX_RECORD_TT <=? 7) with true. cbv zeta iota.
  rewrite bool_decide_false by done. cbn [andb]. rewrite bool_decide_true by done. cbn [negb Z.eqb].
  by rewrite (Hdup id), (Hdup name), (Hdup guid) by (done || by apply text_cstr).
Qed.

(** The caller knows who answered. The first response that an application
    makes for such a request, with its name frozen, carries its identifier, its
    name and its identifier, and reads the same on the side of the caller, when it trusts
    the account, whatever the locales; a caller that does not trust it learns
    nothing.  No second response is made. *)
Theorem nr_header_cat_response_known `{Pcre} fuel app a b b1 client name len now key account rest guid :
  speaks b key account rest guid → key_ok_for key → recording (status b) ≠ 0 → client_cross_process_id (cat b) = Some client →
  cross_process (status b) = NR_STATUS_CROSS_PROCESS_START →
  nr_txn_freeze_name_update_apdex fuel (Some b) app = Done (NR_SUCCESS, Some b1) → txn_name b1 = Some name → text_ok name → int_range len →
  jsonable (ODouble (seconds (nr_txn_queue_time (Some b1)))) → jsonable (ODouble (seconds (nr_txn_unfinished_duration (Some b) now))) →
  encoding_key a = Some key → flag (cross_process_enabled (options a)) = true →
  ∃ z b2, nr_header_inbound_response radix fuel app (Some b) len now = Done (Some z, Some b2) ∧
    (∀ len' now', nr_header_inbound_response radix fuel app (Some b2) len' now' = Done (None, Some b2)) ∧
    nr_header_outbound_response radix' address (Some a) (Some z) =
      Done (if nr_txn_is_account_trusted (Some a) account then External (Some (decimal account ++ 35 :: rest)) (Some name) (Some guid) else no_external, Some a).
Proof.
  intros [He Hk Hid Hacc Hlen Hrest [Hg Hgt]] [Hkb Hk0] Hrec Hcl Hcp Hfr Hname Hnt Hl Hq Hd Ha Hea.
  destruct (account_id_read account rest Hacc (text_cstr _ Hrest)) as [Eid Hidc]. pose proof (id_text account rest Hacc Hrest) as Hidt.
  set (id := decimal account ++ 35 :: rest) in *. pose proof (freeze_reply fuel b app _ b1 Hfr) as Erep.
  set (queue := seconds (nr_txn_queue_time (Some b1))) in *. set (duration := seconds (nr_txn_unfinished_duration (Some b) now)) in *.
  destruct (response_reads_back id name guid queue duration len Hidt Hnt Hgt Hl Hq Hd) as (Htc & Htne & Eread).
  set (text := nro_to_json radix _) in *.
  assert (∃ b2, nr_header_inbound_response_internal radix fuel app (Some b) len now = Done (Some text, Some b2) ∧
    app_connect_reply b2 = app_connect_reply b ∧ cross_process (status b2) = NR_STATUS_CROSS_PROCESS_RESPONSE_CREATED) as (b2 & Eint & Erep2 & Ecp).
  { unfold nr_header_inbound_response_internal. apply negb_true_iff in He. rewrite He. destruct (Z.eqb_spec (recording (status b)) 0); [done|]. cbn [orb].
    rewrite Hcl, Hid, Hg, Hcp, Hfr. cbn [mbind outcome_bind]. rewrite bool_decide_true by done.
    cbn [negb]. cbv zeta. cbn [fmap option_fmap option_map mbind option_bind]. fold queue. fold duration.
    match goal with |- context [on_status _ ?t] => exists (on_status (set_cross_process NR_STATUS_CROSS_PROCESS_RESPONSE_CREATED) t) end.
    split; [|split; [exact Erep|done]]. match goal with |- context [txn_name ?t] => change (txn_name t) with (txn_name b1) end. by rewrite Hname. }
  assert (encoding_key b2 = Some key) as Hk2 by (unfold encoding_key; by rewrite Erep2).
  assert (key ≠ []) as Hkne by (by intros ->).
  destruct (encoded_reads_back b2 a text key Hk2 Ha Hkb Hkne Hk0 Htc Htne) as (z & Ez & Dz).
  exists z, b2. split_and!.
  - unfold nr_header_inbound_response. rewrite Eint. cbn [mbind outcome_bind]. by rewrite Ez.
  - intros len' now'. unfold nr_header_inbound_response, nr_header_inbound_response_internal. destruct (_ || _); [done|].
    destruct (client_cross_process_id (cat b2)); [|done]. destruct (cross_process_id b2), (nr_txn_get_guid (Some b2)); try done. by rewrite Ecp.
  - unfold nr_header_outbound_response, nr_header_outbound_response_decoded. rewrite Dz, Eread. cbn [mbind outcome_bind].
    unfold response_fields. cbn [fmap list_fmap]. change (reread address 0 (OString ?s)) with (OString s). change (reread address 0 (OBoolean 0)) with (OBoolean 0).
    by rewrite (response_object_spec a id account).
Qed.
End conversation.

(** ** Distributed tracing *)

(** A segment whose identifier is, or will be, [sp]. *)
Definition identified (t : nrtxn_t) (segment : option nr_segment_t) (rnd : option Random.nr_random_t) (sp : list Z) : Prop :=
  ∃ s' rnd', nr_segment_ensure_id segment (Some t) rnd = Done (Some sp, Some s', rnd').

Lemma identified_settles t s rnd sp : identified t (Some s) rnd sp → ∃ s' rnd', nr_segment_ensure_id (Some s) (Some t) rnd = Done (Some sp, Some s', rnd') ∧
  own_txn s' = own_txn s ∧ segment_id s' = Some sp.
Proof.
  intros (s' & rnd' & E). destruct (ensure_id_spec s t rnd) as (p & s1 & rnd1 & E1 & Hp & Ho & _). rewrite E in E1. injection E1 as <- <- <-.
  by exists s', rnd'.
Qed.

Lemma settled_ensures s t rnd sp : segment_id s = Some sp → nr_segment_ensure_id (Some s) (Some t) rnd = Done (Some sp, Some s, rnd).
Proof. intros E. unfold nr_segment_ensure_id. by rewrite E. Qed.

(** What a transaction needs to send the headers of the W3C. *)
Record traces (t : nrtxn_t) (m : DistributedTrace.nr_distributed_trace_t) : Prop := {
  tr_trace : distributed_trace t = Some m;
  tr_enabled : flag (distributed_tracing_enabled (options t)) = true;
  tr_spans : flag (span_events_enabled (options t)) = true;
}.

Definition decodable (m : gmap (list Z) (option (list Z))) : Prop := ∀ v, m !! NEWRELIC = Some v → is_Some (Base64.nr_b64_decode v).1.

(** The payload is there or not; the rest of the request is not affected. *)
Lemma payload_saved `{Allocator Z} radix now t m s rnd sp : locale_radix radix → traces t m → DistributedTrace.metadata_ok m → identified t (Some s) rnd sp → text_ok sp →
  long_range (now / DistributedTrace.NR_TIME_DIVISOR_MS) →
  ∃ hm m1 t1 s1 rnd1,
    (if negb (distributed_tracing_exclude_newrelic_header (options t)) then
       '(newrelic_payload, txn, segment, rnd) ← nr_txn_create_distributed_trace_payload radix now (Some t) (Some s) rnd;
       Done (match newrelic_payload with
             | Some _ => nr_header_outbound_save (Some (HashMap.nr_hashmap_create true)) NEWRELIC (fst <$> Base64.nr_b64_encode newrelic_payload (nr_strlen newrelic_payload))
             | None => Some (HashMap.nr_hashmap_create true)
             end, txn, segment, rnd)
     else Done (Some (HashMap.nr_hashmap_create true), Some t, Some s, rnd)) = Done (Some hm, Some t1, Some s1, rnd1) ∧
    HashMap.represents hm m1 ∧ decodable m1 ∧ traces t1 m ∧ identified t1 (Some s1) rnd1 sp ∧ options t1 = options t ∧ txn_type t1 = txn_type t ∧ synthetics t1 = synthetics t.
Proof.
  intros Hx Ht Hm Hid Hsp Hnow.
  assert (∀ segment rnd', identified t (Some segment) rnd' sp → ∀ name, identified (on_metrics (λ mt, Metrics.nrm_force_add mt (Some name) 0) t) (Some segment) rnd' sp) as Hcount by done.
  assert (∀ name, traces (on_metrics (λ mt, Metrics.nrm_force_add mt (Some name) 0) t) m) as Htr by (intros name; by destruct Ht).
  assert (decodable ∅) as Hempty by (intros v; by rewrite lookup_empty).
  destruct (distributed_tracing_exclude_newrelic_header (options t)) eqn:Eex; cbn [negb].
  { eexists _, _, t, s, rnd. split; [reflexivity|]. split; [apply create_map|]. by split_and!. }
  unfold nr_txn_create_distributed_trace_payload. pose proof Ht as [Htrace Hen Hspans]. rewrite Hen, Hspans, Eex. cbn [negb andb].
  destruct (own_txn s); cbn [negb]; cbn [mbind outcome_bind nr_txn_force_single_count].
  2:{ eexists _, _, _, s, rnd. split; [reflexivity|]. split; [apply create_map|]. split; [done|]. split; [apply Htr|]. split; [by apply Hcount|]. done. }
  destruct (identified_settles t s rnd sp Hid) as (s' & rnd' & E & _ & Es'). rewrite E. cbn [mbind outcome_bind]. rewrite Htrace.
  destruct (DistributedTrace.payload_written radix m (Some sp) now Hx Hm) as (op & d & -> & Hj & Hok & _); [by intros ? [= <-]|done|by left|].
  set (text := nro_to_json radix (Some op)).
  assert (is_cstr text ∧ text ≠ []) as [Hc Hne].
  { unfold text. rewrite nro_to_json_text by done. split; [by apply json_text_cstr|]. destruct (json_text_head (λ _, 0) op Hj Hok) as (c & l & -> & _). done. }
  destruct (encoded_text text Hc Hne) as (value & -> & Ed).
  destruct (save_map (HashMap.nr_hashmap_create true) ∅ NEWRELIC (Some value) (create_map true)) as (hm & -> & Hr); [done|].
  eexists hm, _, _, _, rnd'. split; [reflexivity|]. split; [exact Hr|]. split; [|split; [apply Htr|split; [|done]]].
  - intros v Hv. rewrite lookup_insert_eq in Hv. injection Hv as <-. by rewrite Ed.
  - eexists _, _. apply settled_ensures. exact Es'.
Qed.

(** ** An example *)
Definition cat_reply : obj :=
  Some (OHash 3 [(lit "encoding_key", OString (Some (lit "key"))); (lit "cross_process_id", OString (Some (lit "12#3")));
                 (lit "trusted_account_ids", OArray 1 [OInt 12 0])]).
Definition cat_options (o : nrtxnopt_t) : nrtxnopt_t :=
  let off : nrtxnopt_t → nrtxnopt_t := ltac:(setter make_options distributed_tracing_enabled (λ _ : Z, 0)) in
  let on : nrtxnopt_t → nrtxnopt_t := ltac:(setter make_options cross_process_enabled (λ _ : Z, 1)) in off (on o).
Definition cat_txn : nrtxn_t :=
  let reply : nrtxn_t → nrtxn_t := ltac:(setter make_txn app_connect_reply (λ _ : obj, cat_reply)) in
  on_trace (λ _, Some tracing_metadata) (on_options cat_options (reply example_txn)).

Lemma cat_txn_speaks : speaks cat_txn (lit "key") 12 (lit "3") (lit "guid").
Proof. split; [done|done|done|done|by vm_compute|by_text|split; [done|by_text]]. Qed.
Lemma cat_key_ok : key_ok_for (lit "key").
Proof. split; [by apply (bool_decide_unpack _)|done]. Qed.

Lemma nr_header_cat_request_known_witness : let _ := GenerousAllocator.allocator Z in
  ∃ hm a' x y b', nr_header_outbound_request_create 46 context0 5 (Some cat_txn) (Some (Segment None 0 true)) None = Done (Some hm, Some a', Some (Segment None 0 true), None) ∧
    HashMap.nr_hashmap_get (Some hm) (Some X_NEWRELIC_ID) = Some x ∧
    nr_header_set_cat_txn 44 (λ _, 0) (Some cat_txn) (Some x) (Some y) = Done (NR_SUCCESS, Some b') ∧
    client_cross_process_id (cat b') = Some (lit "12#3") ∧ trip_id (cat b') = Some (lit "guid").
Proof.
  intros al. destruct (nr_header_cat_request_known (H:=al) 46 44 (λ _, 0) context0) with (a := cat_txn) (b := cat_txn) (seg := Segment None 0 true) (rnd := @None Random.nr_random_t)
    (now := 5) (key := lit "key") (account := 12) (rest := lit "3") (guid := lit "guid") as (hm & a' & headers & x & y & E & Hr & Hx & Hy & _ & Hb).
  - by left.
  - by right.
  - exact cat_txn_speaks.
  - exact cat_key_ok.
  - done.
  - by_text.
  - by_text.
  - done.
  - assert (nr_txn_is_account_trusted (Some cat_txn) 12 = true) as Et by by vm_compute. rewrite Et in Hb. destruct Hb as (b' & Eb & Hk & _).
    exists hm, a', x, y, b'. split; [exact E|]. split; [|split; [exact Eb|]].
    + rewrite (get_map hm headers) by done. rewrite Hx. reflexivity.
    + rewrite Hk. split; reflexivity.
Defined.

(** A transaction that was called, with its name frozen. *)
Definition answering_txn : nrtxn_t :=
  on_status (λ s, set_cross_process NR_STATUS_CROSS_PROCESS_START (set_path_is_frozen 1 s))
    (set_txn_name (Some (lit "WebTransaction/Uri/i")) (on_cat (set_client_cross_process_id (Some (lit "12#3"))) cat_txn)).

Lemma answering_speaks : speaks answering_txn (lit "key") 12 (lit "3") (lit "guid").
Proof. split; [done|done|done|done|by vm_compute|by_text|split; [done|by_text]]. Qed.

Lemma answering_times : jsonable (ODouble (seconds (nr_txn_queue_time (Some answering_txn)))) ∧
  jsonable (ODouble (seconds (nr_txn_unfinished_duration (Some answering_txn) 501000))).
Proof. split; (eapply js_double; [by vm_compute|vm_compute; reflexivity|intros s'; vm_compute; done]). Qed.

Lemma nr_header_cat_response_known_witness : let _ := GenerousAllocator.allocator Z in
  ∃ z b2, nr_header_inbound_response 46 (H1:=one_char) 0 None (Some answering_txn) 100 501000 = Done (Some z, Some b2) ∧
    nr_header_outbound_response 44 (λ _, 0) (Some cat_txn) (Some z) =
      Done (External (Some (lit "12#3")) (Some (lit "WebTransaction/Uri/i")) (Some (lit "guid")), Some cat_txn).
Proof.
  intros al. destruct (nr_header_cat_response_known (H:=al) 46 44 (λ _, 0)) with (H0 := one_char) (fuel := 0%nat) (app := @None (nrapp_t (H:=one_char)))
    (a := cat_txn) (b := answering_txn) (b1 := answering_txn) (client := lit "12#3") (name := lit "WebTransaction/Uri/i") (len := 100) (now := 501000)
    (key := lit "key") (account := 12) (rest := lit "3") (guid := lit "guid") as (z & b2 & E & _ & Ea).
  - by left.
  - by right.
  - exact answering_speaks.
  - exact cat_key_ok.
  - done.
  - done.
  - done.
  - reflexivity.
  - reflexivity.
  - by_text.
  - unfold int_range. lia.
  - apply answering_times.
  - apply answering_times.
  - done.
  - done.
  - assert (nr_txn_is_account_trusted (Some cat_txn) 12 = true) as Et by by vm_compute. rewrite Et in Ea.
    exists z, b2. split; [exact E|exact Ea].
Defined.
