(* ===== verification/SpanEvent.v ===== *)
(** * SpanEvent: span events (src/axiom/nr_span_event.c)

    A span event is three hash objects: what the agent knows of the span, and
    the attributes of the agent and of the user.  Each setter sets a member of
    one of them. *)

From S2P Require Import Prelude Memory CString Strings Double Buffer Json Object ObjectJson ObjectParse ObjectRoundtrip ObjectFields ObjectMaps Rules Synthetics Errors Txn TxnName TxnCat TxnMetrics.
Local Open Scope Z_scope.

Record nr_span_event_t := SpanEvent {
  span_trace_id : option (list Z);
  span_intrinsics : obj;
  agent_attributes : obj;
  user_attributes : obj }.

Inductive nr_span_category_t := NR_SPAN_GENERIC | NR_SPAN_HTTP | NR_SPAN_DATASTORE | NR_SPAN_MESSAGE.
Inductive nr_span_spankind_t := NR_SPANKIND_PRODUCER | NR_SPANKIND_CLIENT | NR_SPANKIND_CONSUMER | NR_SPANKIND_NO_SPANKIND.
Inductive nr_span_event_datastore_member_t :=
| NR_SPAN_DATASTORE_COMPONENT | NR_SPAN_DATASTORE_DB_STATEMENT | NR_SPAN_DATASTORE_DB_INSTANCE
| NR_SPAN_DATASTORE_PEER_ADDRESS | NR_SPAN_DATASTORE_PEER_HOSTNAME | NR_SPAN_DATASTORE_DB_SYSTEM.
Inductive nr_span_event_external_member_t := NR_SPAN_EXTERNAL_COMPONENT | NR_SPAN_EXTERNAL_URL | NR_SPAN_EXTERNAL_METHOD.
Inductive nr_span_event_message_member_t :=
| NR_SPAN_MESSAGE_DESTINATION_NAME | NR_SPAN_MESSAGE_MESSAGING_SYSTEM | NR_SPAN_MESSAGE_SERVER_ADDRESS | NR_SPAN_MESSAGE_SERVER_PORT
| NR_SPAN_MESSAGE_MESSAGING_DESTINATION_ROUTING_KEY | NR_SPAN_MESSAGE_MESSAGING_DESTINATION_PUBLISH_NAME.
Inductive nr_span_event_parent_attributes_t :=
| NR_SPAN_PARENT_TYPE | NR_SPAN_PARENT_APP | NR_SPAN_PARENT_ACCOUNT | NR_SPAN_PARENT_TRANSPORT_TYPE.

Definition NR_ATTR_MESSAGING_DESTINATION_NAME : list Z := lit "messaging.destination.name".
Definition NR_ATTR_MESSAGING_SYSTEM : list Z := lit "messaging.system".
Definition NR_ATTR_MESSAGING_DESTINATION_ROUTING_KEY : list Z := lit "messaging.rabbitmq.destination.routing_key".
Definition NR_ATTR_MESSAGING_DESTINATION_PUBLISH_NAME : list Z := lit "messaging.destination_publish.name".
Definition NR_ATTR_SERVER_ADDRESS : list Z := lit "server.address".
Definition NR_ATTR_SERVER_PORT : list Z := lit "server.port".

Implicit Types event : option nr_span_event_t.

Definition on_intrinsics (f : obj → obj) (e : nr_span_event_t) : nr_span_event_t :=
  SpanEvent (span_trace_id e) (f (span_intrinsics e)) (agent_attributes e) (user_attributes e).
Definition on_agent (f : obj → obj) (e : nr_span_event_t) : nr_span_event_t :=
  SpanEvent (span_trace_id e) (span_intrinsics e) (f (agent_attributes e)) (user_attributes e).
Definition on_user (f : obj → obj) (e : nr_span_event_t) : nr_span_event_t :=
  SpanEvent (span_trace_id e) (span_intrinsics e) (agent_attributes e) (f (user_attributes e)).

Definition set_string (key : list Z) (v : option (list Z)) (o : obj) : obj := (nro_set_hash_string o (Some key) v).1.
Definition set_double (key : list Z) (v : double) (o : obj) : obj := (nro_set_hash_double o (Some key) v).1.
Definition set_ulong (key : list Z) (v : Z) (o : obj) : obj := (nro_set_hash_ulong o (Some key) v).1.
Definition set_boolean (key : list Z) (v : bool) (o : obj) : obj := (nro_set_hash_boolean o (Some key) (if v then 1 else 0)).1.

Definition nr_span_event_create : nr_span_event_t :=
  on_intrinsics (λ o, set_string (lit "type") (Some (lit "Span")) (set_string (lit "category") (Some (lit "generic")) o))
    (SpanEvent None (Some nro_new_hash) (Some nro_new_hash) (Some nro_new_hash)).

Definition nr_span_event_destroy (ptr : option (option nr_span_event_t)) : option (option nr_span_event_t) := (λ _, None) <$> ptr.

(** ** Setters *)

(** [if (NULL == event || NULL == value) return;] *)
Definition unless_null event (v : option (list Z)) (f : nr_span_event_t → nr_span_event_t) : option nr_span_event_t :=
  match event, v with Some e, Some _ => Some (f e) | _, _ => event end.

Definition nr_span_event_set_guid event (guid : option (list Z)) := unless_null event guid (on_intrinsics (set_string (lit "guid") guid)).
Definition nr_span_event_set_parent_id event (parent_id : option (list Z)) := unless_null event parent_id (on_intrinsics (set_string (lit "parentId") parent_id)).
Definition nr_span_event_set_transaction_id event (transaction_id : option (list Z)) := unless_null event transaction_id (on_intrinsics (set_string (lit "transactionId") transaction_id)).
Definition nr_span_event_set_name event (name : option (list Z)) := unless_null event name (on_intrinsics (set_string (lit "name") name)).
Definition nr_span_event_set_transaction_name event (transaction_name : option (list Z)) := unless_null event transaction_name (on_intrinsics (set_string (lit "transaction.name") transaction_name)).
Definition nr_span_event_set_tracing_vendors event (tracing_vendors : option (list Z)) := unless_null event tracing_vendors (on_intrinsics (set_string (lit "tracingVendors") tracing_vendors)).
Definition nr_span_event_set_trusted_parent_id event (trusted_parent_id : option (list Z)) := unless_null event trusted_parent_id (on_intrinsics (set_string (lit "trustedParentId") trusted_parent_id)).
Definition nr_span_event_set_error_message event (error_message : option (list Z)) := unless_null event error_message (on_agent (set_string (lit "error.message") error_message)).
Definition nr_span_event_set_error_class event (error_class : option (list Z)) := unless_null event error_class (on_agent (set_string (lit "error.class") error_class)).

Definition nr_span_event_set_trace_id event (trace_id : option (list Z)) : option nr_span_event_t :=
  match event with
  | None => None
  | Some e =>
      match trace_id with
      | None => Some (SpanEvent None (span_intrinsics e) (agent_attributes e) (user_attributes e))
      | Some _ => Some (SpanEvent (Some (nr_strdup trace_id)) (set_string (lit "traceId") trace_id (span_intrinsics e)) (agent_attributes e) (user_attributes e))
      end
  end.

Definition nr_span_event_set_spankind event (spankind : nr_span_spankind_t) : option nr_span_event_t :=
  (λ e,
    match spankind with
    | NR_SPANKIND_PRODUCER => on_intrinsics (set_string (lit "span.kind") (Some (lit "producer"))) e
    | NR_SPANKIND_CLIENT => on_intrinsics (set_string (lit "span.kind") (Some (lit "client"))) e
    | NR_SPANKIND_CONSUMER => on_intrinsics (set_string (lit "span.kind") (Some (lit "consumer"))) e
    | NR_SPANKIND_NO_SPANKIND =>
        match (nro_get_hash_value (span_intrinsics e) (Some (lit "span.kind"))).1 with
        | Some _ => on_intrinsics (λ o, (nro_set_hash_none o (Some (lit "span.kind"))).1) e
        | None => e
        end
    end) <$> event.

Definition nr_span_event_set_category event (category : nr_span_category_t) : option nr_span_event_t :=
  match event with
  | None => None
  | Some e =>
      match category with
      | NR_SPAN_DATASTORE =>
          nr_span_event_set_spankind (Some (on_intrinsics (set_string (lit "category") (Some (lit "datastore"))) e)) NR_SPANKIND_CLIENT
      | NR_SPAN_GENERIC =>
          nr_span_event_set_spankind (Some (on_intrinsics (set_string (lit "category") (Some (lit "generic"))) e)) NR_SPANKIND_NO_SPANKIND
      | NR_SPAN_HTTP =>
          nr_span_event_set_spankind (Some (on_intrinsics (set_string (lit "category") (Some (lit "http"))) e)) NR_SPANKIND_CLIENT
      | NR_SPAN_MESSAGE =>
          nr_span_event_set_spankind (Some (on_intrinsics (set_string (lit "category") (Some (lit "message"))) e)) NR_SPANKIND_NO_SPANKIND
      end
  end.

Definition nr_span_event_set_timestamp event (time : Z) := on_intrinsics (set_ulong (lit "timestamp") (time / DistributedTrace.NR_TIME_DIVISOR_MS)) <$> event.
Definition nr_span_event_set_duration event (duration : Z) := on_intrinsics (set_double (lit "duration") (seconds duration)) <$> event.
Definition nr_span_event_set_priority event (priority : double) := on_intrinsics (set_double (lit "priority") priority) <$> event.
Definition nr_span_event_set_sampled event (sampled : bool) := on_intrinsics (set_boolean (lit "sampled") sampled) <$> event.
Definition nr_span_event_set_entry_point event (entry_point : bool) :=
  (λ e, if entry_point then on_intrinsics (set_boolean (lit "nr.entryPoint") entry_point) e else e) <$> event.

Definition parent_key (member : nr_span_event_parent_attributes_t) : list Z :=
  match member with
  | NR_SPAN_PARENT_TYPE => lit "parent.type"
  | NR_SPAN_PARENT_APP => lit "parent.app"
  | NR_SPAN_PARENT_ACCOUNT => lit "parent.account"
  | NR_SPAN_PARENT_TRANSPORT_TYPE => lit "parent.transportType"
  end.
Definition nr_span_event_set_parent_attribute event (member : nr_span_event_parent_attributes_t) (value : option (list Z)) :=
  unless_null event value (on_agent (set_string (parent_key member) value)).

(** The quotient of integers. *)
Definition nr_span_event_set_parent_transport_duration event (transport_duration : Z) :=
  on_agent (set_double (lit "parent.transportDuration") (double_of (transport_duration / NR_TIME_DIVISOR))) <$> event.

Definition nr_span_event_set_datastore event (member : nr_span_event_datastore_member_t) (new_value : option (list Z)) :=
  unless_null event new_value
    match member with
    | NR_SPAN_DATASTORE_COMPONENT => on_intrinsics (set_string (lit "component") new_value)
    | NR_SPAN_DATASTORE_DB_SYSTEM => on_agent (set_string (lit "db.system") new_value)
    | NR_SPAN_DATASTORE_DB_STATEMENT => on_agent (set_string (lit "db.statement") new_value)
    | NR_SPAN_DATASTORE_DB_INSTANCE => on_agent (set_string (lit "db.instance") new_value)
    | NR_SPAN_DATASTORE_PEER_ADDRESS => on_agent (set_string (lit "peer.address") new_value)
    | NR_SPAN_DATASTORE_PEER_HOSTNAME => on_agent (set_string (lit "peer.hostname") new_value)
    end.

Definition nr_span_event_set_external event (member : nr_span_event_external_member_t) (new_value : option (list Z)) :=
  unless_null event new_value
    match member with
    | NR_SPAN_EXTERNAL_URL => on_agent (set_string (lit "http.url") new_value)
    | NR_SPAN_EXTERNAL_METHOD => on_agent (set_string (lit "http.method") new_value)
    | NR_SPAN_EXTERNAL_COMPONENT => on_intrinsics (set_string (lit "component") new_value)
    end.

Definition nr_span_event_set_external_status event (status : Z) := on_agent (set_ulong (lit "http.statusCode") status) <$> event.

Definition nr_span_event_set_message event (member : nr_span_event_message_member_t) (new_value : option (list Z)) :=
  unless_null event new_value
    match member with
    | NR_SPAN_MESSAGE_DESTINATION_NAME => on_agent (set_string NR_ATTR_MESSAGING_DESTINATION_NAME new_value)
    | NR_SPAN_MESSAGE_MESSAGING_SYSTEM => on_agent (set_string NR_ATTR_MESSAGING_SYSTEM new_value)
    | NR_SPAN_MESSAGE_SERVER_ADDRESS => on_agent (set_string NR_ATTR_SERVER_ADDRESS new_value)
    | NR_SPAN_MESSAGE_MESSAGING_DESTINATION_ROUTING_KEY => on_agent (set_string NR_ATTR_MESSAGING_DESTINATION_ROUTING_KEY new_value)
    | NR_SPAN_MESSAGE_MESSAGING_DESTINATION_PUBLISH_NAME => on_agent (set_string NR_ATTR_MESSAGING_DESTINATION_PUBLISH_NAME new_value)
    | NR_SPAN_MESSAGE_SERVER_PORT => id
    end.

Definition nr_span_event_set_message_ulong event (member : nr_span_event_message_member_t) (new_value : Z) :=
  if new_value =? 0 then event
  else (λ e, match member with NR_SPAN_MESSAGE_SERVER_PORT => on_agent (set_ulong NR_ATTR_SERVER_PORT new_value) e | _ => e end) <$> event.

Definition nr_span_event_set_attribute_user event (name : option (list Z)) (value : obj) : option nr_span_event_t :=
  match event, name, value with Some e, Some _, Some _ => Some (on_user (λ o, (nro_set_hash o name value).1) e) | _, _, _ => event end.
Definition nr_span_event_set_attribute_agent event (name : option (list Z)) (value : obj) : option nr_span_event_t :=
  match event, name, value with Some e, Some _, Some _ => Some (on_agent (λ o, (nro_set_hash o name value).1) e) | _, _, _ => event end.

(** ** Getters *)

(** The macro: [part] is the member of the structure, [getter] reads a field of an object. *)
Definition SPAN_EVENT_GETTER {A} (part : nr_span_event_t → obj) (getter : obj → option (list Z) → A * nr_status_t) (field : list Z) (default_value : A) event : A :=
  match event with
  | None => default_value
  | Some e => match getter (part e) (Some field) with (rv, NR_SUCCESS) => rv | (_, NR_FAILURE) => default_value end
  end.
Definition zero : double := SpecFloat.S754_zero false.
Definition SPAN_EVENT_GETTER_BOOL part field event : bool := negb (SPAN_EVENT_GETTER part nro_get_hash_boolean field 0 event =? 0).
Definition SPAN_EVENT_GETTER_DOUBLE part field := SPAN_EVENT_GETTER part nro_get_hash_double field zero.
Definition SPAN_EVENT_GETTER_STRING part field := SPAN_EVENT_GETTER part nro_get_hash_string field None.
Definition SPAN_EVENT_GETTER_TIME part field := SPAN_EVENT_GETTER part nro_get_hash_ulong field 0.
Definition SPAN_EVENT_GETTER_UINT part field := SPAN_EVENT_GETTER part nro_get_hash_ulong field 0.

Definition nr_span_event_get_guid := SPAN_EVENT_GETTER_STRING span_intrinsics (lit "guid").
Definition nr_span_event_get_parent_id := SPAN_EVENT_GETTER_STRING span_intrinsics (lit "parentId").
Definition nr_span_event_get_trace_id := SPAN_EVENT_GETTER_STRING span_intrinsics (lit "traceId").
Definition nr_span_event_get_transaction_id := SPAN_EVENT_GETTER_STRING span_intrinsics (lit "transactionId").
Definition nr_span_event_get_name := SPAN_EVENT_GETTER_STRING span_intrinsics (lit "name").
Definition nr_span_event_get_transaction_name := SPAN_EVENT_GETTER_STRING span_intrinsics (lit "transaction.name").
Definition nr_span_event_get_category := SPAN_EVENT_GETTER_STRING span_intrinsics (lit "category").
Definition nr_span_event_get_spankind := SPAN_EVENT_GETTER_STRING span_intrinsics (lit "span.kind").
Definition nr_span_event_get_timestamp := SPAN_EVENT_GETTER_TIME span_intrinsics (lit "timestamp").
Definition nr_span_event_get_duration := SPAN_EVENT_GETTER_DOUBLE span_intrinsics (lit "duration").
Definition nr_span_event_get_priority := SPAN_EVENT_GETTER_DOUBLE span_intrinsics (lit "priority").
Definition nr_span_event_is_sampled := SPAN_EVENT_GETTER_BOOL span_intrinsics (lit "sampled").
Definition nr_span_event_is_entry_point := SPAN_EVENT_GETTER_BOOL span_intrinsics (lit "nr.entryPoint").
Definition nr_span_event_get_tracing_vendors := SPAN_EVENT_GETTER_STRING span_intrinsics (lit "tracingVendors").
Definition nr_span_event_get_trusted_parent_id := SPAN_EVENT_GETTER_STRING span_intrinsics (lit "trustedParentId").
Definition nr_span_event_get_parent_transport_duration := SPAN_EVENT_GETTER_DOUBLE agent_attributes (lit "parent.transportDuration").
Definition nr_span_event_get_external_status := SPAN_EVENT_GETTER_UINT agent_attributes (lit "http.statusCode").
Definition nr_span_event_get_error_message := SPAN_EVENT_GETTER_STRING agent_attributes (lit "error.message").
Definition nr_span_event_get_error_class := SPAN_EVENT_GETTER_STRING agent_attributes (lit "error.class").

Definition get_string (part : nr_span_event_t → obj) (key : list Z) event : option (list Z) := event ≫= λ e, (nro_get_hash_string (part e) (Some key)).1.

Definition nr_span_event_get_parent_attribute event (member : nr_span_event_parent_attributes_t) : option (list Z) :=
  get_string agent_attributes (parent_key member) event.
Definition nr_span_event_get_datastore event (member : nr_span_event_datastore_member_t) : option (list Z) :=
  match member with
  | NR_SPAN_DATASTORE_COMPONENT => get_string span_intrinsics (lit "component") event
  | NR_SPAN_DATASTORE_DB_SYSTEM => get_string agent_attributes (lit "db.system") event
  | NR_SPAN_DATASTORE_DB_STATEMENT => get_string agent_attributes (lit "db.statement") event
  | NR_SPAN_DATASTORE_DB_INSTANCE => get_string agent_attributes (lit "db.instance") event
  | NR_SPAN_DATASTORE_PEER_ADDRESS => get_string agent_attributes (lit "peer.address") event
  | NR_SPAN_DATASTORE_PEER_HOSTNAME => get_string agent_attributes (lit "peer.hostname") event
  end.
Definition nr_span_event_get_external event (member : nr_span_event_external_member_t) : option (list Z) :=
  match member with
  | NR_SPAN_EXTERNAL_URL => get_string agent_attributes (lit "http.url") event
  | NR_SPAN_EXTERNAL_METHOD => get_string agent_attributes (lit "http.method") event
  | NR_SPAN_EXTERNAL_COMPONENT => get_string span_intrinsics (lit "component") event
  end.
Definition nr_span_event_get_message event (member : nr_span_event_message_member_t) : option (list Z) :=
  match member with
  | NR_SPAN_MESSAGE_DESTINATION_NAME => get_string agent_attributes NR_ATTR_MESSAGING_DESTINATION_NAME event
  | NR_SPAN_MESSAGE_MESSAGING_SYSTEM => get_string agent_attributes NR_ATTR_MESSAGING_SYSTEM event
  | NR_SPAN_MESSAGE_SERVER_ADDRESS => get_string agent_attributes NR_ATTR_SERVER_ADDRESS event
  | NR_SPAN_MESSAGE_MESSAGING_DESTINATION_ROUTING_KEY => get_string agent_attributes NR_ATTR_MESSAGING_DESTINATION_ROUTING_KEY event
  | NR_SPAN_MESSAGE_MESSAGING_DESTINATION_PUBLISH_NAME => get_string agent_attributes NR_ATTR_MESSAGING_DESTINATION_PUBLISH_NAME event
  | NR_SPAN_MESSAGE_SERVER_PORT => None
  end.
Definition nr_span_event_get_message_ulong event (member : nr_span_event_message_member_t) : Z :=
  match member with
  | NR_SPAN_MESSAGE_SERVER_PORT => from_option (λ e, (nro_get_hash_ulong (agent_attributes e) (Some NR_ATTR_SERVER_PORT)).1) 0 event
  | _ => 0
  end.

(** ** JSON *)
Section json.
Context `{Allocator Z} (radix : Z).
Implicit Types buf : option nrbuf_t.

Definition nr_span_event_to_json_buffer event buf : bool * option nrbuf_t :=
  match event, buf with
  | Some e, Some _ =>
      let buf := nr_buffer_add buf (Some (lit "[")) 1 in
      let buf := (nro_to_json_buffer radix (span_intrinsics e) buf).2 in
      let buf := nr_buffer_add buf (Some (lit ",")) 1 in
      let buf := (nro_to_json_buffer radix (user_attributes e) buf).2 in
      let buf := nr_buffer_add buf (Some (lit ",")) 1 in
      let buf := (nro_to_json_buffer radix (agent_attributes e) buf).2 in
      (true, nr_buffer_add buf (Some (lit "]")) 1)
  | _, _ => (false, buf)
  end.

Definition nr_span_event_to_json event : option (list Z) :=
  let buf := Some (nr_buffer_create 0 0) in
  match nr_span_event_to_json_buffer event buf with
  | (false, _) => None
  | (true, buf) =>
      let buf := nr_buffer_add buf (Some [0]) 1 in
      Some (nr_strdup (nr_buffer_cptr buf))
  end.
End json.

(** ** The event as three maps *)

Record span_maps := Maps {
  of_span : gmap (list Z) nrobj_t;
  of_agent : gmap (list Z) nrobj_t;
  of_user : gmap (list Z) nrobj_t }.
Definition in_span (k : list Z) (v : nrobj_t) (m : span_maps) : span_maps := Maps (<[k:=v]> (of_span m)) (of_agent m) (of_user m).
Definition in_agent (k : list Z) (v : nrobj_t) (m : span_maps) : span_maps := Maps (of_span m) (<[k:=v]> (of_agent m)) (of_user m).
Definition in_user (k : list Z) (v : nrobj_t) (m : span_maps) : span_maps := Maps (of_span m) (of_agent m) (<[k:=v]> (of_user m)).

Record represents (e : nr_span_event_t) (m : span_maps) : Prop := {
  rp_span : holds_map (span_intrinsics e) (of_span m);
  rp_agent : holds_map (agent_attributes e) (of_agent m);
  rp_user : holds_map (user_attributes e) (of_user m) }.

(** ** What each setter does *)
Inductive text_member :=
| Guid | ParentId | TransactionId | Name | TransactionName | TracingVendors | TrustedParentId | TraceId | ErrorMessage | ErrorClass
| ParentAttribute (member : nr_span_event_parent_attributes_t) | DatastoreMember (member : nr_span_event_datastore_member_t)
| ExternalMember (member : nr_span_event_external_member_t) | MessageMember (member : nr_span_event_message_member_t).

Inductive span_op :=
| SetText (member : text_member) (v : option (list Z))
| SetSpankind (k : nr_span_spankind_t) | SetCategory (c : nr_span_category_t)
| SetTimestamp (time : Z) | SetDuration (duration : Z) | SetPriority (d : double) | SetSampled (b : bool) | SetEntryPoint (b : bool)
| SetTransportDuration (duration : Z) | SetExternalStatus (status : Z) | SetMessageUlong (member : nr_span_event_message_member_t) (v : Z)
| SetUser (name : option (list Z)) (v : obj) | SetAgent (name : option (list Z)) (v : obj).

Definition exec event (op : span_op) : option nr_span_event_t :=
  match op with
  | SetText Guid v => nr_span_event_set_guid event v
  | SetText ParentId v => nr_span_event_set_parent_id event v
  | SetText TransactionId v => nr_span_event_set_transaction_id event v
  | SetText Name v => nr_span_event_set_name event v
  | SetText TransactionName v => nr_span_event_set_transaction_name event v
  | SetText TracingVendors v => nr_span_event_set_tracing_vendors event v
  | SetText TrustedParentId v => nr_span_event_set_trusted_parent_id event v
  | SetText TraceId v => nr_span_event_set_trace_id event v
  | SetText ErrorMessage v => nr_span_event_set_error_message event v
  | SetText ErrorClass v => nr_span_event_set_error_class event v
  | SetText (ParentAttribute m) v => nr_span_event_set_parent_attribute event m v
  | SetText (DatastoreMember m) v => nr_span_event_set_datastore event m v
  | SetText (ExternalMember m) v => nr_span_event_set_external event m v
  | SetText (MessageMember m) v => nr_span_event_set_message event m v
  | SetSpankind k => nr_span_event_set_spankind event k
  | SetCategory c => nr_span_event_set_category event c
  | SetTimestamp t => nr_span_event_set_timestamp event t
  | SetDuration d => nr_span_event_set_duration event d
  | SetPriority d => nr_span_event_set_priority event d
  | SetSampled b => nr_span_event_set_sampled event b
  | SetEntryPoint b => nr_span_event_set_entry_point event b
  | SetTransportDuration d => nr_span_event_set_parent_transport_duration event d
  | SetExternalStatus s => nr_span_event_set_external_status event s
  | SetMessageUlong m v => nr_span_event_set_message_ulong event m v
  | SetUser n v => nr_span_event_set_attribute_user event n v
  | SetAgent n v => nr_span_event_set_attribute_agent event n v
  end.

(** Where a text goes: in the event's own fields or in the agent's attributes. *)
Definition text_place (member : text_member) : option (bool * list Z) :=
  match member with
  | Guid => Some (true, lit "guid") | ParentId => Some (true, lit "parentId") | TransactionId => Some (true, lit "transactionId")
  | Name => Some (true, lit "name") | TransactionName => Some (true, lit "transaction.name") | TracingVendors => Some (true, lit "tracingVendors")
  | TrustedParentId => Some (true, lit "trustedParentId") | TraceId => Some (true, lit "traceId")
  | ErrorMessage => Some (false, lit "error.message") | ErrorClass => Some (false, lit "error.class")
  | ParentAttribute NR_SPAN_PARENT_TYPE => Some (false, lit "parent.type")
  | ParentAttribute NR_SPAN_PARENT_APP => Some (false, lit "parent.app")
  | ParentAttribute NR_SPAN_PARENT_ACCOUNT => Some (false, lit "parent.account")
  | ParentAttribute NR_SPAN_PARENT_TRANSPORT_TYPE => Some (false, lit "parent.transportType")
  | DatastoreMember NR_SPAN_DATASTORE_COMPONENT => Some (true, lit "component")
  | DatastoreMember NR_SPAN_DATASTORE_DB_SYSTEM => Some (false, lit "db.system")
  | DatastoreMember NR_SPAN_DATASTORE_DB_STATEMENT => Some (false, lit "db.statement")
  | DatastoreMember NR_SPAN_DATASTORE_DB_INSTANCE => Some (false, lit "db.instance")
  | DatastoreMember NR_SPAN_DATASTORE_PEER_ADDRESS => Some (false, lit "peer.address")
  | DatastoreMember NR_SPAN_DATASTORE_PEER_HOSTNAME => Some (false, lit "peer.hostname")
  | ExternalMember NR_SPAN_EXTERNAL_URL => Some (false, lit "http.url")
  | ExternalMember NR_SPAN_EXTERNAL_METHOD => Some (false, lit "http.method")
  | ExternalMember NR_SPAN_EXTERNAL_COMPONENT => Some (true, lit "component")
  | MessageMember NR_SPAN_MESSAGE_DESTINATION_NAME => Some (false, lit "messaging.destination.name")
  | MessageMember NR_SPAN_MESSAGE_MESSAGING_SYSTEM => Some (false, lit "messaging.system")
  | MessageMember NR_SPAN_MESSAGE_SERVER_ADDRESS => Some (false, lit "server.address")
  | MessageMember NR_SPAN_MESSAGE_MESSAGING_DESTINATION_ROUTING_KEY => Some (false, lit "messaging.rabbitmq.destination.routing_key")
  | MessageMember NR_SPAN_MESSAGE_MESSAGING_DESTINATION_PUBLISH_NAME => Some (false, lit "messaging.destination_publish.name")
  | MessageMember NR_SPAN_MESSAGE_SERVER_PORT => None
  end.

Definition text (s : list Z) : nrobj_t := OString (Some s).

Definition refer_kind (k : nr_span_spankind_t) (m : span_maps) : span_maps :=
  match k with
  | NR_SPANKIND_PRODUCER => in_span (lit "span.kind") (text (lit "producer")) m
  | NR_SPANKIND_CLIENT => in_span (lit "span.kind") (text (lit "client")) m
  | NR_SPANKIND_CONSUMER => in_span (lit "span.kind") (text (lit "consumer")) m
  | NR_SPANKIND_NO_SPANKIND => match of_span m !! lit "span.kind" with Some _ => in_span (lit "span.kind") ONone m | None => m end
  end.

Definition refer (m : span_maps) (op : span_op) : span_maps :=
  match op with
  | SetText member (Some s) =>
      match text_place member with
      | Some (true, k) => in_span k (text s) m
      | Some (false, k) => in_agent k (text s) m
      | None => m
      end
  | SetText _ None => m
  | SetSpankind k => refer_kind k m
  | SetCategory NR_SPAN_DATASTORE => refer_kind NR_SPANKIND_CLIENT (in_span (lit "category") (text (lit "datastore")) m)
  | SetCategory NR_SPAN_HTTP => refer_kind NR_SPANKIND_CLIENT (in_span (lit "category") (text (lit "http")) m)
  | SetCategory NR_SPAN_GENERIC => refer_kind NR_SPANKIND_NO_SPANKIND (in_span (lit "category") (text (lit "generic")) m)
  | SetCategory NR_SPAN_MESSAGE => refer_kind NR_SPANKIND_NO_SPANKIND (in_span (lit "category") (text (lit "message")) m)
  | SetTimestamp t => in_span (lit "timestamp") (OUlong (t / 1000)) m
  | SetDuration d => in_span (lit "duration") (ODouble (seconds d)) m
  | SetPriority d => in_span (lit "priority") (ODouble d) m
  | SetSampled b => in_span (lit "sampled") (OBoolean (if b then 1 else 0)) m
  | SetEntryPoint b => if b then in_span (lit "nr.entryPoint") (OBoolean 1) m else m
  | SetTransportDuration d => in_agent (lit "parent.transportDuration") (ODouble (double_of (d / 1000000))) m
  | SetExternalStatus s => in_agent (lit "http.statusCode") (OUlong s) m
  | SetMessageUlong NR_SPAN_MESSAGE_SERVER_PORT v => if v =? 0 then m else in_agent (lit "server.port") (OUlong v) m
  | SetMessageUlong _ _ => m
  | SetUser (Some n) (Some v) => if decide (n = []) then m else in_user n (nro_copy v) m
  | SetAgent (Some n) (Some v) => if decide (n = []) then m else in_agent n (nro_copy v) m
  | SetUser _ _ | SetAgent _ _ => m
  end.

(** Strings and numbers as they come from the program. *)
Definition valid (d : double) : Prop := SpecFloat.valid_binary prec emax d = true.
Definition op_ok (op : span_op) : Prop :=
  match op with
  | SetText _ (Some s) => is_cstr s
  | SetTimestamp t | SetExternalStatus t | SetMessageUlong _ t => 0 ≤ t < 2 ^ 64
  | SetDuration d => valid (seconds d)
  | SetPriority d => valid d
  | SetTransportDuration d => valid (double_of (d / 1000000))
  | SetUser n v | SetAgent n v => is_cstr (default [] n) ∧ (∀ op, v = Some op → obj_ok op)
  | _ => True
  end.

Section refinement.
Implicit Types m : span_maps.

Lemma set_span e m k v (f : obj → obj) : represents e m → (∀ o, f o = (nro_internal_setvalue_hash o (Some k) (Some v)).1) → key_ok k → obj_ok v →
  represents (on_intrinsics f e) (in_span k v m).
Proof. intros [H1 H2 H3] Hf Hk Hv. split; cbn; [|done..]. rewrite Hf. by apply map_set. Qed.
Lemma set_agent e m k v (f : obj → obj) : represents e m → (∀ o, f o = (nro_internal_setvalue_hash o (Some k) (Some v)).1) → key_ok k → obj_ok v →
  represents (on_agent f e) (in_agent k v m).
Proof. intros [H1 H2 H3] Hf Hk Hv. split; cbn; [done| |done]. rewrite Hf. by apply map_set. Qed.

Lemma string_is_text s o k : is_cstr s → set_string k (Some s) o = (nro_internal_setvalue_hash o (Some k) (Some (text s))).1.
Proof. intros Hs. unfold set_string, nro_set_hash_string, nro_new_string, nr_strdup. cbn [default from_option id]. by rewrite cstr_id. Qed.

Lemma text_ok_obj s : is_cstr s → obj_ok (text s).
Proof. by constructor. Qed.

Lemma set_text_span e m k s : represents e m → key_ok k → is_cstr s → represents (on_intrinsics (set_string k (Some s)) e) (in_span k (text s) m).
Proof. intros. apply set_span; [done| |done|by apply text_ok_obj]. intros. by apply string_is_text. Qed.
Lemma set_text_agent e m k s : represents e m → key_ok k → is_cstr s → represents (on_agent (set_string k (Some s)) e) (in_agent k (text s) m).
Proof. intros. apply set_agent; [done| |done|by apply text_ok_obj]. intros. by apply string_is_text. Qed.

Lemma spankind_step e m k : represents e m → ∃ e', nr_span_event_set_spankind (Some e) k = Some e' ∧ represents e' (refer_kind k m).
Proof.
  intros Hr. eexists. split; [done|]. cbv beta. destruct k; cbn [refer_kind]; try (apply set_text_span; [done|by_key|by apply (bool_decide_unpack _)]).
  rewrite (map_get _ _ _ (rp_span _ _ Hr)) by by_key. cbn [fst]. destruct (of_span m !! _); [|done].
  apply set_span; [done|done|by_key|constructor].
Qed.

Lemma text_step e m member s : represents e m → is_cstr s → ∃ e', exec (Some e) (SetText member (Some s)) = Some e' ∧ represents e' (refer m (SetText member (Some s))).
Proof.
  intros Hr Hs.
  destruct member as [| | | | | | | | | |[]|[]|[]|[]]; cbn [exec refer text_place parent_key]; eexists;
    (split; [reflexivity|]); try done; try (apply set_text_span; [done|by_key|done]); try (apply set_text_agent; [done|by_key|done]).
  destruct (set_text_span e m (lit "traceId") s Hr) as [H1 H2 H3]; [by_key|done|]. by split.
Qed.

Lemma attribute_step (o : option nrobj_t) (m : gmap (list Z) nrobj_t) n v : holds_map o m → is_cstr n → obj_ok v →
  holds_map (nro_set_hash o (Some n) (Some v)).1 (if decide (n = []) then m else <[n:=nro_copy v]> m).
Proof.
  intros Hm Hn Hv. unfold nro_set_hash. cbn [fmap option_fmap option_map]. destruct (decide (n = [])) as [->|Hne].
  - destruct Hm as (a & es & -> & Hok & Hm).
    destruct (setvalue_hash_cases _ a es (Some []) (nro_copy v) Hok) as [[_ E]|(k' & _ & _ & E & _)]; [done|by apply copy_ok|rewrite E; by exists a, es|done].
  - apply map_set; [done|by split|by apply copy_ok].
Qed.

Lemma exec_step e m op : represents e m → op_ok op → ∃ e', exec (Some e) op = Some e' ∧ represents e' (refer m op).
Proof.
  intros Hr Hok. destruct op as [member [s|]|k|c|t|d|d|b|b|d|s|member v|[n|] [v|]|[n|] [v|]]; cbn [op_ok] in Hok.
  - by apply text_step.
  - destruct member; cbn [exec refer]; eexists; (split; [reflexivity|]); try done. destruct Hr. by split.
  - by apply spankind_step.
  - destruct c; cbn [exec refer nr_span_event_set_category];
      (eapply spankind_step, set_text_span; [done|by_key|by apply (bool_decide_unpack _)]).
  - eexists. split; [reflexivity|]. apply set_span; [done|done|by_key|]. constructor. unfold DistributedTrace.NR_TIME_DIVISOR_MS. Z.to_euclidean_division_equations. lia.
  - eexists. split; [reflexivity|]. apply set_span; [done|done|by_key|by constructor].
  - eexists. split; [reflexivity|]. apply set_span; [done|done|by_key|by constructor].
  - eexists. split; [reflexivity|]. apply set_span; [done|by destruct b|by_key|constructor; unfold int_range; destruct b; lia].
  - eexists. split; [reflexivity|]. destruct b; [|done]. apply set_span; [done|done|by_key|constructor; unfold int_range; lia].
  - eexists. split; [reflexivity|]. apply set_agent; [done|done|by_key|by constructor].
  - eexists. split; [reflexivity|]. apply set_agent; [done|done|by_key|by constructor].
  - cbn [exec refer]. unfold nr_span_event_set_message_ulong. destruct (v =? 0) eqn:Ev; [exists e; by destruct member|].
    eexists. split; [reflexivity|]. destruct member; try done. apply set_agent; [done|done|by_key|by constructor].
  - eexists. split; [reflexivity|]. destruct Hok as [Hn Hv]. destruct Hr as [H1 H2 H3]. pose proof (attribute_step _ _ n v H3 Hn (Hv v eq_refl)) as H4.
    cbn [refer]. destruct (decide (n = [])); by split.
  - exists e. by destruct n.
  - by exists e.
  - by exists e.
  - eexists. split; [reflexivity|]. destruct Hok as [Hn Hv]. destruct Hr as [H1 H2 H3]. pose proof (attribute_step _ _ n v H2 Hn (Hv v eq_refl)) as H4.
    cbn [refer]. destruct (decide (n = [])); by split.
  - by exists e.
  - by exists e.
  - by exists e.
Qed.

Definition start_maps : span_maps := in_span (lit "type") (text (lit "Span")) (in_span (lit "category") (text (lit "generic")) (Maps ∅ ∅ ∅)).

Lemma create_step : represents nr_span_event_create start_maps.
Proof.
  unfold nr_span_event_create. set (e0 := SpanEvent _ _ _ _).
  assert (represents e0 (Maps ∅ ∅ ∅)) as H0 by (split; apply map_new).
  pose proof (set_text_span e0 _ (lit "category") (lit "generic") H0) as H1.
  pose proof (set_text_span _ _ (lit "type") (lit "Span") (H1 ltac:(by_key) ltac:(by apply (bool_decide_unpack _)))) as H2.
  exact (H2 ltac:(by_key) ltac:(by apply (bool_decide_unpack _))).
Qed.

Lemma run_step ops : ∀ e m, represents e m → Forall op_ok ops → ∃ e', foldl exec (Some e) ops = Some e' ∧ represents e' (foldl refer m ops).
Proof.
  induction ops as [|op ops IH]; intros e m Hr Hok; [by exists e|]. apply Forall_cons in Hok as [Ho Hok].
  destruct (exec_step e m op Hr Ho) as (e1 & E & Hr1). cbn [foldl]. rewrite E. by apply IH.
Qed.

Lemma three_parts i u a : json_text (OArray 3 [i; u; a]) =
  (((((lit "[" ++ json_text i) ++ lit ",") ++ json_text u) ++ lit ",") ++ json_text a) ++ lit "]".
Proof.
  change (lit "[") with [91]. change (lit ",") with [44]. change (lit "]") with [93].
  cbn [json_text fmap list_fmap separated]. cbn [app]. repeat (rewrite <-app_assoc || rewrite <-app_comm_cons). reflexivity.
Qed.

(** The text of the three objects. *)
Lemma span_json `{Allocator Z} radix e m : locale_radix radix → represents e m → ∃ i u a,
  span_intrinsics e = Some i ∧ user_attributes e = Some u ∧ agent_attributes e = Some a ∧ obj_ok (OArray 3 [i; u; a]) ∧
  nr_span_event_to_json radix (Some e) = Some (json_text (OArray 3 [i; u; a])).
Proof.
  intros Hx [Hi Ha Hu]. destruct (map_json radix _ _ Hx Hi) as (i & Ei & Hoi & Ai). destruct (map_json radix _ _ Hx Hu) as (u & Eu & Hou & Au).
  destruct (map_json radix _ _ Hx Ha) as (a & Ea & Hoa & Aa). exists i, u, a.
  assert (obj_ok (OArray 3 [i; u; a])) as Hok by (constructor; [done|]; repeat (apply Forall_cons_2; [done|]); apply Forall_nil_2).
  split_and!; try done. unfold nr_span_event_to_json, nr_span_event_to_json_buffer. f_equal.
  pose proof (appends_then _ _ _ _ (appends_then _ _ _ _ (appends_then _ _ _ _ (appends_then _ _ _ _ (appends_then _ _ _ _ (appends_then _ _ _ _
    (appends_add (lit "[") 1 eq_refl) Ai) (appends_add (lit ",") 1 eq_refl)) Au) (appends_add (lit ",") 1 eq_refl)) Aa) (appends_add (lit "]") 1 eq_refl)) as Hall.
  rewrite (terminated_text _ _ 0 0 Hall); [|..|lia|lia].
  - by rewrite three_parts.
  - rewrite <-three_parts. by apply json_text_cstr.
Qed.
End refinement.

(** C20: A span event is three maps. Whatever setters are called on a new event,
    in whatever order, each text, number or attribute lands under the key of its
    member, in the event's own fields or in the attributes of the agent or the
    user, the last one counts, nothing else is there, and the event is sent as
    the array of the three objects. *)
Theorem nr_span_event_refines_maps `{Allocator Z} (radix : Z) (ops : list span_op) : locale_radix radix → Forall op_ok ops →
  let maps := foldl refer start_maps ops in
  ∃ e i u a, foldl exec (Some nr_span_event_create) ops = Some e ∧
    span_intrinsics e = Some i ∧ user_attributes e = Some u ∧ agent_attributes e = Some a ∧
    (∀ k, key_ok k → nro_get_hash_value (Some i) (Some k) = (of_span maps !! k, NR_SUCCESS) ∧
      nro_get_hash_value (Some u) (Some k) = (of_user maps !! k, NR_SUCCESS) ∧ nro_get_hash_value (Some a) (Some k) = (of_agent maps !! k, NR_SUCCESS)) ∧
    nr_span_event_to_json radix (Some e) = Some (json_text (OArray 3 [i; u; a])).
Proof.
  intros Hx Hok maps. destruct (run_step ops _ _ create_step Hok) as (e & E & Hr). fold maps in Hr.
  destruct (span_json radix e maps Hx Hr) as (i & u & a & Ei & Eu & Ea & _ & Ej). exists e, i, u, a. split_and!; try done.
  destruct Hr as [H1 H2 H3]. rewrite Ei in H1. rewrite Eu in H3. rewrite Ea in H2. intros k Hk. split_and!; by apply map_get.
Qed.

Lemma nr_span_event_refines_maps_witness : let _ := GenerousAllocator.allocator Z in
  ∃ e, foldl exec (Some nr_span_event_create)
    [SetText Name (Some (lit "f")); SetCategory NR_SPAN_HTTP; SetText (ExternalMember NR_SPAN_EXTERNAL_URL) (Some (lit "h")); SetCategory NR_SPAN_GENERIC;
     SetUser (Some (lit "u")) (Some (OLong 7))] = Some e ∧
    (nro_get_hash_value (span_intrinsics e) (Some (lit "span.kind"))).1 = Some ONone ∧
    nr_span_event_get_external (Some e) NR_SPAN_EXTERNAL_URL = Some (lit "h").
Proof.
  intros al. destruct (nr_span_event_refines_maps (H:=al) 46
    [SetText Name (Some (lit "f")); SetCategory NR_SPAN_HTTP; SetText (ExternalMember NR_SPAN_EXTERNAL_URL) (Some (lit "h")); SetCategory NR_SPAN_GENERIC;
     SetUser (Some (lit "u")) (Some (OLong 7))]) as (e & i & u & a & E & Ei & Eu & Ea & Hk & _).
  - by left.
  - apply Forall_cons_2; [by apply (bool_decide_unpack _)|]. apply Forall_cons_2; [exact I|]. apply Forall_cons_2; [by apply (bool_decide_unpack _)|].
    apply Forall_cons_2; [exact I|]. apply Forall_cons_2; [|apply Forall_nil_2]. split; [by apply (bool_decide_unpack _)|]. intros op [= <-]. constructor. split; lia.
  - exists e. split; [exact E|]. split.
    + rewrite Ei. destruct (Hk (lit "span.kind")) as (-> & _ & _); [by_key|]. vm_compute. reflexivity.
    + unfold nr_span_event_get_external, get_string. cbn [mbind option_bind]. rewrite Ea. unfold nro_get_hash_string.
      destruct (Hk (lit "http.url")) as (_ & _ & ->); [by_key|]. vm_compute. reflexivity.
Defined.
