(* ===== verification/Labels.v ===== *)
(** * Labels: the labels of an application (src/axiom/util_labels.c)

    Labels are configured as [key:value;key:value] with white space around
    keys and values; they become a hash object, and for the collector an array
    of pairs. *)

From S2P Require Import Prelude CString Strings Double Object ObjectJson ObjectParse ObjectRoundtrip ObjectFields ObjectMaps StringSplit.
From S2P Require TraceContext SegmentTerms Md5.
Local Open Scope Z_scope.

Definition NR_LABEL_PAIR_LIMIT : Z := 64.
Definition NR_LABEL_KEY_LENGTH_MAX : Z := 255.
Definition NR_LABEL_VALUE_LENGTH_MAX : Z := 255.

(** The loop from the front. *)
Fixpoint prefix_loop (input : list Z) (i : Z) : Z :=
  match input with c :: input => if nr_isspace c then prefix_loop input (i + 1) else i | [] => i end.

Definition nr_labels_get_whitespace_prefix_len (input : option (list Z)) : Z :=
  match input with
  | None => 0
  | Some s => if char_at s 0 =? 0 then 0 else prefix_loop s 0
  end.

(** The loop from the end; [n] characters are left before the one that is looked at. *)
Fixpoint suffix_loop (n : nat) (input : list Z) (current : Z) : Z :=
  match n with
  | O => current
  | S n =>
      if (0 <=? current) && negb (char_at input current =? 0) && nr_isspace (char_at input current)
      then suffix_loop n input (current - 1) else current
  end.

Definition nr_labels_get_whitespace_suffix_len (input : option (list Z)) (len_to_test : Z) : Z :=
  match input with
  | None => 0
  | Some s =>
      if (char_at s 0 =? 0) || (len_to_test <=? 0) then 0
      else let end_ := len_to_test - 1 in end_ - suffix_loop (Z.to_nat len_to_test) s end_
  end.

(** The string in a buffer of the stack that [%.*s] of a text was printed to. *)
Definition label_buffer (max trimmed_len : Z) (text : list Z) : list Z :=
  let buf := replicate (Z.to_nat (max + 1)) 0 in
  cstr (snprintf buf (max + 1) (take (Z.to_nat trimmed_len) (cstr text))).2.

(** What is left of [raw_len] characters without white space at the ends. *)
Definition trimmed (raw : list Z) (raw_len : Z) : Z * Z :=
  let ws_prefix_len := nr_labels_get_whitespace_prefix_len (Some raw) in
  let ws_suffix_len := nr_labels_get_whitespace_suffix_len (Some raw) raw_len in
  (ws_prefix_len, raw_len - ws_prefix_len - ws_suffix_len).

(** One round of the loop: [None] is the jump to [leave]. *)
Definition label_step (labels : obj) (pair : option (list Z)) : option obj :=
  match pair with
  | None => None
  | Some text =>
      match nr_strchr (Some text) 58 with
      | None => None
      | Some colon =>
          let raw := text in
          let '(ws_prefix_len, trimmed_len) := trimmed raw colon in
          if trimmed_len <=? 0 then None
          else
            let key_buf := label_buffer NR_LABEL_KEY_LENGTH_MAX trimmed_len (drop (Z.to_nat ws_prefix_len) raw) in
            match nr_strchr (Some key_buf) 58 with
            | Some _ => None
            | None =>
                let raw := drop (Z.to_nat (colon + 1)) text in
                let '(ws_prefix_len, trimmed_len) := trimmed raw (nr_strlen (Some raw)) in
                if trimmed_len <=? 0 then None
                else
                  let val_buf := label_buffer NR_LABEL_VALUE_LENGTH_MAX trimmed_len (drop (Z.to_nat ws_prefix_len) raw) in
                  match nr_strchr (Some val_buf) 58 with
                  | Some _ => None
                  | None => Some (nro_set_hash_string labels (Some key_buf) (Some val_buf)).1
                  end
            end
      end
  end.

Fixpoint label_loop (split_str labels : obj) (is_ : list Z) : obj :=
  match is_ with
  | [] => labels
  | i :: is_ =>
      match label_step labels (nro_get_array_string split_str (i + 1)).1 with
      | Some labels => label_loop split_str labels is_
      | None => None
      end
  end.

Definition nr_labels_parse_internal (str : option (list Z)) : obj :=
  match str with
  | None => None
  | Some s =>
      if char_at s 0 =? 0 then None
      else
        let split_str := nr_strsplit str (Some (lit ";")) true in
        let count := nro_getsize split_str in
        match split_str with
        | None => None
        | Some _ =>
            let count := if NR_LABEL_PAIR_LIMIT <? count then NR_LABEL_PAIR_LIMIT else count in
            label_loop split_str (Some nro_new_hash) (seqZ 0 count)
        end
  end.

Definition semicolon_or_space (c : Z) : bool := (59 =? c) || nr_isspace c.
Fixpoint skip_front (str : list Z) : list Z :=
  match str with c :: str' => if semicolon_or_space c then skip_front str' else str | [] => [] end.
(** The loop from the end ends the text, character by character; [n] are left. *)
Fixpoint cut_back (n : nat) (dup : list Z) : list Z :=
  match n with
  | O => dup
  | S n => if semicolon_or_space (char_at dup (Z.of_nat n)) then cut_back n (<[n:=0]> dup) else dup
  end.

Definition nr_labels_strip_surrounding_semicolons_whitespace (str : option (list Z)) : option (list Z) :=
  (λ str,
    let str := skip_front str in
    let dup := nr_strdup (Some str) ++ [0] in
    cut_back (Z.to_nat (nr_strlen (Some str))) dup) <$> str.

Definition nr_labels_parse (str : option (list Z)) : obj :=
  match str with
  | None => None
  | Some _ =>
      let dup := nr_labels_strip_surrounding_semicolons_whitespace str in
      nr_labels_parse_internal dup
  end.

Definition nr_labels_connector_format_iterator (key : list Z) (val : nrobj_t) (arr : obj) : obj * nr_status_t :=
  let hash := Some nro_new_hash in
  let hash := (nro_set_hash_string hash (Some (lit "label_type")) (Some key)).1 in
  let hash := (nro_set_hash_string hash (Some (lit "label_value")) (nro_get_string (Some val)).1).1 in
  ((nro_set_array arr 0 hash).1, NR_SUCCESS).

Definition nr_labels_connector_format (object : obj) : obj :=
  nro_iteratehash object (Some nr_labels_connector_format_iterator) (Some nro_new_array).

(** ** White space at the ends *)
Definition space (c : Z) : Prop := nr_isspace c = true.
Definition tight (s : list Z) : Prop :=
  from_option (λ c, nr_isspace c = false) False (head s) ∧ from_option (λ c, nr_isspace c = false) False (last s).

Lemma skip_space_split s : ∃ a, s = a ++ skip_space s ∧ Forall space a ∧ from_option (λ c, nr_isspace c = false) True (head (skip_space s)).
Proof.
  induction s as [|c s (a & E & Ha & Hs)]; [by exists []|]. cbn [skip_space]. destruct (nr_isspace c) eqn:Ec.
  - exists (c :: a). split; [by rewrite E at 1|]. split; [by constructor|done].
  - exists []. split; [done|]. split; [constructor|done].
Qed.

Lemma trim_split s : ∃ a b, s = a ++ trim s ++ b ∧ Forall space a ∧ Forall space b ∧ (trim s = [] ∨ tight (trim s)).
Proof.
  destruct (skip_space_split (reverse s)) as (b & E & Hb & Hl). set (r := skip_space (reverse s)) in *.
  assert (s = reverse r ++ reverse b) as Es by (rewrite <-reverse_app, <-E; by rewrite reverse_involutive).
  destruct (skip_space_split (reverse r)) as (a & E' & Ha & Hf). fold r in E'. change (skip_space (reverse r)) with (trim s) in *.
  exists a, (reverse b). rewrite app_assoc, <-E'. split_and!; [done|done|by apply Forall_reverse|].
  destruct (trim s) as [|c t] eqn:Et; [by left|]. right. split; [exact Hf|].
  assert (r = reverse (c :: t) ++ reverse a) as Er by (rewrite <-reverse_app, <-E'; by rewrite reverse_involutive).
  rewrite Er in Hl. rewrite <-(reverse_involutive (c :: t)), last_reverse.
  destruct (reverse (c :: t)) as [|d u] eqn:Eu; [|exact Hl]. apply (f_equal length) in Eu. rewrite length_reverse in Eu. done.
Qed.

Lemma prefix_loop_spaces a s i : Forall space a → prefix_loop (a ++ s) i = prefix_loop s (i + Z.of_nat (length a)).
Proof.
  intros Ha. revert i. induction Ha as [|c a Hc _ IH]; intros i; [f_equal; simpl; lia|]. cbn [app prefix_loop]. rewrite Hc, IH. f_equal. simpl. lia.
Qed.
Lemma prefix_loop_stop s i : from_option (λ c, nr_isspace c = false) True (head s) → prefix_loop s i = i.
Proof. destruct s as [|c s]; [done|]. cbn. by intros ->. Qed.

Lemma prefix_len_spec a s : is_cstr (a ++ s) → Forall space a → from_option (λ c, nr_isspace c = false) True (head s) →
  nr_labels_get_whitespace_prefix_len (Some (a ++ s)) = Z.of_nat (length a).
Proof.
  intros Hc Ha Hs. unfold nr_labels_get_whitespace_prefix_len. rewrite prefix_loop_spaces, prefix_loop_stop by done.
  destruct (a ++ s) as [|c r] eqn:E.
  - apply app_nil in E as [-> ->]. done.
  - change (char_at (c :: r) 0) with c. apply Forall_cons in Hc as [Hc _]. destruct (Z.eqb_spec c 0); lia.
Qed.

Lemma char_at_middle s c r i : i = Z.of_nat (length s) → char_at (s ++ c :: r) i = c.
Proof. intros ->. unfold char_at. by rewrite list_lookup_middle by lia. Qed.

Lemma suffix_loop_spaces b : ∀ s rest, is_cstr (s ++ b) → Forall space b → from_option (λ c, nr_isspace c = false) True (last s) →
  suffix_loop (length (s ++ b)) ((s ++ b) ++ rest) (Z.of_nat (length (s ++ b)) - 1) = Z.of_nat (length s) - 1.
Proof.
  induction b as [|c b IH] using rev_ind; intros s rest Hc Hb Hs.
  - rewrite app_nil_r in *. destruct s as [|d s _] using rev_ind; [done|]. rewrite last_snoc in Hs. cbn in Hs.
    rewrite length_app. cbn [length]. rewrite Nat.add_1_r. cbn [suffix_loop].
    rewrite <-app_assoc. cbn [app]. rewrite char_at_middle by lia.
    rewrite Hs, andb_false_r. lia.
  - apply Forall_app in Hb as [Hb Hsp%Forall_inv]. rewrite app_assoc in Hc |- *. pose proof Hc as [_ Hc1%Forall_inv]%Forall_app.
    rewrite (length_app (s ++ b)). cbn [length]. rewrite Nat.add_1_r. cbn [suffix_loop].
    rewrite <-(app_assoc (s ++ b)). cbn [app]. rewrite char_at_middle by lia.
    rewrite (Hsp : nr_isspace c = true). destruct (Z.leb_spec 0 (Z.of_nat (S (length (s ++ b))) - 1)), (Z.eqb_spec c 0); try lia. cbn [andb negb].
    replace (Z.of_nat (S (length (s ++ b))) - 1 - 1) with (Z.of_nat (length (s ++ b)) - 1) by lia.
    apply IH; [|done..]. by apply Forall_app in Hc as [Hc _].
Qed.

Lemma suffix_len_spec s b rest : is_cstr ((s ++ b) ++ rest) → Forall space b → from_option (λ c, nr_isspace c = false) True (last s) →
  nr_labels_get_whitespace_suffix_len (Some ((s ++ b) ++ rest)) (Z.of_nat (length (s ++ b))) = Z.of_nat (length b).
Proof.
  intros Hc Hb Hs. pose proof (suffix_loop_spaces b s rest (proj1 (proj1 (Forall_app _ _ _) Hc)) Hb Hs) as E.
  unfold nr_labels_get_whitespace_suffix_len. rewrite Nat2Z.id, E. pose proof (length_app s b) as El.
  destruct (s ++ b) as [|c w] eqn:Ew.
  { rewrite orb_true_r. cbn in El. lia. }
  change (char_at ((c :: w) ++ rest) 0) with c. apply Forall_inv in Hc.
  destruct (Z.eqb_spec c 0), (Z.leb_spec (Z.of_nat (length (c :: w))) 0); cbn [orb]; simpl in *; lia.
Qed.

(** The part without white space, of the first characters of a text. *)
Lemma trimmed_spec w rest : is_cstr (w ++ rest) → from_option (λ c, nr_isspace c = false) True (head rest) →
  let '(before, len) := trimmed (w ++ rest) (Z.of_nat (length w)) in
  if decide (trim w = []) then len ≤ 0
  else len = Z.of_nat (length (trim w)) ∧ take (Z.to_nat len) (drop (Z.to_nat before) (w ++ rest)) = trim w.
Proof.
  intros Hc Hr. unfold trimmed. destruct (trim_split w) as (a & b & E & Ha & Hb & Ht).
  set (m := trim w) in *. clearbody m. subst w. destruct (decide (m = [])) as [->|Hne].
  - cbn [app] in *. assert (Forall space (a ++ b)) as Hab by (by apply Forall_app). rewrite (prefix_len_spec (a ++ b)) by done.
    pose proof (suffix_len_spec [] (a ++ b) rest Hc Hab I) as Es. cbn [app] in Es. rewrite Es. lia.
  - destruct Ht as [?|[Ht1 Ht2]]; [done|].
    assert (nr_labels_get_whitespace_suffix_len (Some (a ++ m ++ b ++ rest)) (Z.of_nat (length (a ++ m ++ b))) = Z.of_nat (length b)) as Es.
    { rewrite !app_assoc in Hc. rewrite (app_assoc a m b), (app_assoc a m (b ++ rest)), (app_assoc (a ++ m) b rest). apply suffix_len_spec; [done..|]. rewrite last_app. by destruct (last m). }
    rewrite <-!app_assoc in Hc |- *. rewrite Es.
    rewrite (prefix_len_spec a); [|done|done|by destruct m]. split; [rewrite !length_app; lia|].
    rewrite !Nat2Z.id, drop_app_length. apply take_app_length'. rewrite !length_app. lia.
Qed.

(** ** What labels mean *)
Definition colon : Z := 58.

(** One pair: cut at the first colon. *)
Definition label_of (text : list Z) : option (list Z * list Z) :=
  '(i, _) ← list_find (eq colon) text;
  let key := trim (take i text) in
  let value := trim (drop (S i) text) in
  let kept := take (Z.to_nat NR_LABEL_VALUE_LENGTH_MAX) value in
  if decide (key = []) then None else if decide (value = []) then None else if decide (colon ∈ kept) then None
  else Some (take (Z.to_nat NR_LABEL_KEY_LENGTH_MAX) key, kept).

Definition stripped (s : list Z) : list Z := reverse (skip_front (reverse (skip_front s))).
Definition label_texts (s : list Z) : list (list Z) := take (Z.to_nat NR_LABEL_PAIR_LIMIT) (tokens (lit ";") (stripped s) true).
(** The labels, in order; one that is wrong spoils them all. *)
Definition labels_of (s : list Z) : option (list (list Z * list Z)) :=
  if decide (stripped s = []) then None else mapM label_of (label_texts s).

(** The last value of a key counts. *)
Definition label_map (ls : list (list Z * list Z)) (m : gmap (list Z) (list Z)) : gmap (list Z) (list Z) :=
  foldl (λ m '(k, v), <[k:=v]> m) m ls.
Definition as_text (v : list Z) : nrobj_t := OString (Some v).

Lemma find_first {A} (f : A → bool) l1 x l2 : (∀ y, y ∈ l1 → f y = false) → f x = true → find f (l1 ++ x :: l2) = Some x.
Proof.
  intros Hl Hx. induction l1 as [|y l1 IH]; cbn; [by rewrite Hx|]. rewrite Hl by left. apply IH. intros z Hz. apply Hl. by right.
Qed.

(** The first of a character, or that there is none. *)
Lemma strchr_split s c : is_cstr s → c ≠ 0 →
  (c ∉ s ∧ strchr s c = None) ∨ (∃ w r, s = w ++ (c :: r) ∧ c ∉ w ∧ strchr s c = Some (Z.of_nat (length w))).
Proof.
  intros Hs Hc. unfold strchr, first_offset. rewrite strlen_id by done.
  assert (∀ w r i, s = w ++ r → c ∉ w → 0 ≤ i < Z.of_nat (length w) → (char_at s i =? c) = false) as Hno.
  { intros w r i -> Hw Hi. apply Z.eqb_neq. intros E. apply Hw. unfold char_at in E. rewrite lookup_app_l in E by lia.
    destruct (w !! Z.to_nat i) as [d|] eqn:Ed; cbn in E; subst; [by eapply list_elem_of_lookup_2|done]. }
  destruct (decide (c ∈ s)) as [Hin|Hni].
  - right. apply list_elem_of_split_l in Hin as (w & r & E & Hw). exists w, r. split; [done|]. split; [done|].
    replace (Z.of_nat (length s) + 1) with (Z.of_nat (length w) + Z.succ (1 + Z.of_nat (length r))) by (rewrite E, length_app; simpl; lia).
    rewrite seqZ_app by lia. rewrite (seqZ_cons _ (Z.succ _)) by lia. apply find_first.
    + intros i Hi%elem_of_seqZ. apply (Hno w (c :: r)); [done|done|lia].
    + apply Z.eqb_eq. rewrite E. apply (char_at_middle w). lia.
  - left. split; [done|]. apply find_none. intros i Hi%elem_of_seqZ. destruct (decide (i = Z.of_nat (length s))) as [->|].
    + rewrite char_at_end by lia. by apply Z.eqb_neq.
    + apply (Hno s []); [by rewrite app_nil_r|done|lia].
Qed.

Lemma list_find_split c (w r : list Z) : c ∉ w → list_find (eq c) (w ++ c :: r) = Some (length w, c).
Proof.
  intros Hw. induction w as [|d w IH]; cbn [app list_find]; [by rewrite decide_True|].
  apply not_elem_of_cons in Hw as [Hd Hw]. rewrite decide_False by done. by rewrite IH.
Qed.

Lemma label_buffer_spec max len text : is_cstr text → 0 ≤ max →
  label_buffer max len text = take (Z.to_nat max) (take (Z.to_nat len) text).
Proof.
  intros Ht Hm. unfold label_buffer, snprintf. cbn [snd]. rewrite (cstr_id text) by done. destruct (Z.ltb_spec 0 (max + 1)); [|lia].
  replace (max + 1 - 1) with max by lia. set (kept := take (Z.to_nat max) (take (Z.to_nat len) text)).
  destruct (write_string (replicate (Z.to_nat (max + 1)) 0) kept 0) as [E _]; [|constructor| |exact E].
  - by apply is_cstr_take, is_cstr_take.
  - unfold kept. rewrite length_replicate, length_take. lia.
Qed.

Lemma label_step_spec labels m text : holds_map labels m → is_cstr text →
  match label_of text with
  | None => label_step labels (Some text) = None
  | Some (k, v) => key_ok k ∧ is_cstr v ∧ ∃ labels', label_step labels (Some text) = Some labels' ∧ holds_map labels' (<[k:=as_text v]> m)
  end.
Proof.
  intros Hm Ht. unfold label_of, label_step, nr_strchr. cbn [mbind option_bind].
  destruct (strchr_split text 58 Ht) as [(Hni & ->)|(w & r & -> & Hw & ->)]; [done| |].
  { assert (list_find (eq colon) text = None) as ->; [|done]. apply list_find_None, Forall_forall. by intros x Hx <-. }
  rewrite (list_find_split 58) by done. cbn [mbind option_bind]. rewrite take_app_length.
  assert (drop (S (length w)) (w ++ 58 :: r) = r) as Er by by rewrite <-Nat.add_1_r, drop_app_add. rewrite Er.
  replace (Z.to_nat (Z.of_nat (length w) + 1)) with (S (length w)) by lia. rewrite Er.
  pose proof Ht as [Hcw [_ Hcr]%Forall_cons]%Forall_app.
  pose proof (trimmed_spec w (58 :: r) Ht eq_refl) as Hk. destruct (trimmed (w ++ 58 :: r) _) as [before len].
  pose proof (trimmed_spec r []) as Hv. rewrite app_nil_r in Hv. specialize (Hv Hcr I). rewrite nr_strlen_cstr by done. destruct (trimmed r _) as [before' len'].
  destruct (decide (trim w = [])) as [|Hne]; [by destruct (Z.leb_spec len 0); [|lia]|]. destruct Hk as [El Ek].
  assert (0 < Z.of_nat (length (trim w))) as Hpos by (destruct (trim w); [done|simpl; lia]). destruct (Z.leb_spec len 0); [lia|].
  rewrite !label_buffer_spec by (try done; by apply is_cstr_drop). rewrite Ek.
  destruct (strchr_split (take (Z.to_nat NR_LABEL_KEY_LENGTH_MAX) (trim w)) 58) as [(_ & ->)|(x & y & E & _)]; [by apply is_cstr_take, trim_cstr|done| |].
  2: { exfalso. destruct (trim_split w) as (a & b & Ew & _). apply Hw. rewrite Ew. apply elem_of_app. right. apply elem_of_app. left.
       rewrite <-(take_drop (Z.to_nat NR_LABEL_KEY_LENGTH_MAX) (trim w)), E. set_solver. }
  destruct (decide (trim r = [])) as [|Hne']; [by destruct (Z.leb_spec len' 0); [|lia]|]. destruct Hv as [El' Ev].
  assert (0 < Z.of_nat (length (trim r))) as Hpos' by (destruct (trim r); [done|simpl; lia]). destruct (Z.leb_spec len' 0); [lia|].
  rewrite Ev. set (v := take (Z.to_nat NR_LABEL_VALUE_LENGTH_MAX) (trim r)). set (k := take (Z.to_nat NR_LABEL_KEY_LENGTH_MAX) (trim w)).
  assert (is_cstr v) as Hcv by by apply is_cstr_take, trim_cstr.
  assert (key_ok k) as Hok.
  { split; [by apply is_cstr_take, trim_cstr|]. unfold k. destruct (trim w); [done|]. done. }
  destruct (strchr_split v 58) as [(Hni & ->)|(x & y & E & _ & ->)]; [done|done| |].
  - rewrite decide_False by done. split; [done|]. split; [done|]. eexists. split; [done|].
    unfold nro_set_hash_string, nro_new_string, nr_strdup. cbn [default from_option id]. rewrite (cstr_id v) by done.
    apply map_set; [done|done|by constructor].
  - rewrite decide_True; [done|]. rewrite E. set_solver.
Qed.

Lemma label_loop_spec split_str ps : array_of ps split_str → Forall is_cstr ps → ∀ n j labels m,
  (j + n ≤ length ps)%nat → holds_map labels (as_text <$> m) →
  match mapM label_of (take n (drop j ps)) with
  | None => label_loop split_str labels (seqZ (Z.of_nat j) (Z.of_nat n)) = None
  | Some ls => Forall (λ '(k, v), key_ok k ∧ is_cstr v) ls ∧
      holds_map (label_loop split_str labels (seqZ (Z.of_nat j) (Z.of_nat n))) (as_text <$> label_map ls m)
  end.
Proof.
  intros Ha Hps n. induction n as [|n IH]; intros j labels m Hj Hm; [by split|].
  rewrite seqZ_cons by lia. destruct (lookup_lt_is_Some_2 ps j ltac:(lia)) as [p Hp]. rewrite (drop_S ps p j Hp). cbn [take mapM mbind option_bind label_loop].
  replace (Z.of_nat j + 1) with (Z.of_nat (S j)) by lia. rewrite (TraceContext.array_string ps split_str j Ha), Hp.
  pose proof (label_step_spec labels _ p Hm (proj1 (Forall_lookup _ _) Hps j p Hp)) as Hs. destruct (label_of p) as [[k v]|]; [|by rewrite Hs].
  destruct Hs as (Hk & Hv & labels' & -> & Hm'). rewrite <-fmap_insert in Hm'.
  replace (Z.succ (Z.of_nat j)) with (Z.of_nat (S j)) by lia. replace (Z.pred (Z.of_nat (S n))) with (Z.of_nat n) by lia.
  specialize (IH (S j) labels' _ ltac:(lia) Hm'). cbn [mbind option_bind]. destruct (mapM label_of (take n (drop (S j) ps))) as [ls|]; cbn [mbind option_bind]; [|done].
  destruct IH as [Hls Hm'']. split; [by constructor|done].
Qed.

Lemma cut_back_spec t rest : is_cstr t → cstr (cut_back (length t) (t ++ 0 :: rest)) = reverse (skip_front (reverse t)).
Proof.
  revert rest. induction t as [|c t IH] using rev_ind; intros rest Hc; [done|]. pose proof Hc as [Ht _]%Forall_app.
  rewrite length_app, Nat.add_1_r, reverse_snoc, <-app_assoc. cbn [cut_back skip_front app]. rewrite char_at_middle by done.
  destruct (semicolon_or_space c).
  - rewrite insert_app_r_alt by lia. rewrite Nat.sub_diag. by apply IH.
  - rewrite reverse_cons, reverse_involutive. change (t ++ c :: 0 :: rest) with (t ++ [c] ++ 0 :: rest). rewrite app_assoc. by apply cstr_app.
Qed.

Lemma skip_front_cstr s : is_cstr s → is_cstr (skip_front s).
Proof. induction 1 as [|c s Hc Hs IH]; [constructor|]. cbn. destruct (semicolon_or_space c); [done|by constructor]. Qed.
Lemma stripped_cstr s : is_cstr s → is_cstr (stripped s).
Proof. intros. by apply Forall_reverse, skip_front_cstr, Forall_reverse, skip_front_cstr. Qed.

Lemma strip_spec s : is_cstr s → ∃ dup, nr_labels_strip_surrounding_semicolons_whitespace (Some s) = Some dup ∧ cstr dup = stripped s.
Proof.
  intros Hs. pose proof (skip_front_cstr s Hs) as Hf. eexists. split; [done|]. cbv zeta. rewrite (nr_strlen_cstr (skip_front s)), Nat2Z.id by done.
  unfold nr_strdup. cbn [default from_option id]. rewrite (cstr_id (skip_front s)) by done. by apply cut_back_spec.
Qed.

Lemma starts_cstr s : (char_at s 0 =? 0) = bool_decide (cstr s = []).
Proof. destruct s as [|c s]; [done|]. change (char_at (c :: s) 0) with c. cbn [cstr]. by destruct (Z.eqb_spec c 0) as [->|]. Qed.

Lemma strsplit_cstr s u : cstr s ≠ [] → nr_strsplit (Some s) (Some (lit ";")) u = nr_strsplit (Some (cstr s)) (Some (lit ";")) u.
Proof. intros Hne. unfold nr_strsplit. by rewrite !starts_cstr, Md5.cstr_idem, bool_decide_false. Qed.

Definition entries (es : list (list Z * list Z)) : list (list Z * nrobj_t) := prod_map id as_text <$> es.

Lemma entries_of (es : list (list Z * nrobj_t)) (m : gmap (list Z) (list Z)) : NoDup es.*1 → list_to_map es = as_text <$> m → ∃ ts, es = entries ts ∧ list_to_map ts = m.
Proof.
  intros Hn Hm. assert (∃ ts, es = entries ts) as [ts ->].
  { assert (Forall (λ e, ∃ y, prod_map id as_text y = e) es) as Hes.
    { apply Forall_forall. intros [k v] Hin. apply (elem_of_list_to_map (M:=gmap (list Z))) in Hin; [|done]. rewrite Hm, lookup_fmap in Hin.
      destruct (m !! k) as [x|]; [|done]. injection Hin as <-. by exists (k, x). }
    clear -Hes. induction Hes as [|e es [y <-] _ [ts ->]]; [by exists []|]. by exists (y :: ts). }
  exists ts. split; [done|]. unfold entries in Hm. rewrite list_to_map_fmap in Hm. revert Hm. apply map_fmap_inj. by intros ? ? [= ->].
Qed.

Definition label_fields (e : list Z * list Z) : list (list Z * nrobj_t) :=
  [(lit "label_type", as_text e.1); (lit "label_value", as_text e.2)].
(** What the collector gets for a label; a copy has just the slots it needs. *)
Definition label_object (e : list Z * list Z) : nrobj_t := OHash 2 (label_fields e).

Lemma label_hash k v : is_cstr k → is_cstr v →
  (nro_set_hash_string (nro_set_hash_string (Some nro_new_hash) (Some (lit "label_type")) (Some k)).1 (Some (lit "label_value")) (Some v)).1 =
    Some (OHash NRO_CHUNK_SIZE (label_fields (k, v))) ∧ nro_copy (OHash NRO_CHUNK_SIZE (label_fields (k, v))) = label_object (k, v).
Proof.
  intros Hk Hv. unfold label_object, label_fields, as_text. cbn [fst snd]. split.
  - unfold nro_set_hash_string, nro_new_string, nr_strdup. cbn [default from_option id]. rewrite (cstr_id k), (cstr_id v) by done. reflexivity.
  - transitivity (OHash 2 [(lit "label_type", OString (Some (cstr k))); (lit "label_value", OString (Some (cstr v)))]); [reflexivity|].
    by rewrite (cstr_id k), (cstr_id v).
Qed.

Lemma iterator_spec k v n l : is_cstr k → is_cstr v →
  nr_labels_connector_format_iterator k (as_text v) (Some (OArray n l)) =
    (Some (OArray (grown (Z.of_nat (length l)) n) (l ++ [label_object (k, v)])), NR_SUCCESS).
Proof.
  intros Hk Hv. destruct (label_hash k v Hk Hv) as [E Ec]. unfold nr_labels_connector_format_iterator.
  change (nro_get_string (Some (as_text v))).1 with (Some v). rewrite E.
  unfold nro_set_array. cbn [fmap option_fmap option_map]. rewrite Ec. reflexivity.
Qed.

Lemma format_spec es a : Forall (λ e, is_cstr e.1 ∧ is_cstr e.2) es →
  ∃ n, nr_labels_connector_format (Some (OHash a (entries es))) = Some (OArray n (label_object <$> es)).
Proof.
  intros Hes. unfold nr_labels_connector_format, nro_new_array. cbn [nro_iteratehash]. 
  assert (∀ n l, ∃ n', iterate_loop (entries es) nr_labels_connector_format_iterator (Some (OArray n l)) = Some (OArray n' (l ++ (label_object <$> es)))) as H;
    [|apply (H _ [])].
  induction Hes as [|[k v] es [Hk Hv] _ IH]; intros n l.
  - exists n. by rewrite app_nil_r.
  - change (entries ((k, v) :: es)) with ((k, as_text v) :: entries es). cbn [iterate_loop]. rewrite iterator_spec by done.
    destruct (IH (grown (Z.of_nat (length l)) n) (l ++ [label_object (k, v)])) as [n' ->]. exists n'. by rewrite <-app_assoc.
Qed.

Lemma entries_keys ts : (entries ts).*1 = ts.*1.
Proof. induction ts as [|[k v] ts IH]; [done|]. cbn. by f_equal. Qed.

Lemma entries_cstr ts : Forall key_ok ts.*1 → Forall obj_ok (entries ts).*2 → Forall (λ e, is_cstr e.1 ∧ is_cstr e.2) ts.
Proof.
  induction ts as [|[k v] ts IH]; cbn; [constructor|]. intros [[Hk _] Hks]%Forall_cons [Hv Hvs]%Forall_cons. constructor; [|by apply IH].
  split; [done|]. by inversion Hv.
Qed.

(** Labels are read from their configuration pair by pair: without white
    space and semicolons at the ends, at most sixty-four of them, keys and values
    cut to their limits, the last value of a key counting; one pair without a
    colon, with an empty key or value or a second colon spoils them all.  The
    collector gets each label once, with its type and value. *)
Theorem nr_labels_parse_reads_pairs s : is_cstr s →
  match labels_of s with
  | None => nr_labels_parse (Some s) = None
  | Some ls => ∃ a es n, nr_labels_parse (Some s) = Some (OHash a (entries es)) ∧ NoDup es.*1 ∧ list_to_map es = label_map ls ∅ ∧
      nr_labels_connector_format (nr_labels_parse (Some s)) = Some (OArray n (label_object <$> es))
  end.
Proof.
  intros Hs. destruct (strip_spec s Hs) as (dup & E & Ed). unfold nr_labels_parse, labels_of. rewrite E. unfold nr_labels_parse_internal.
  rewrite starts_cstr, Ed. pose proof (stripped_cstr s Hs) as Hc. destruct (decide (stripped s = [])) as [E0|Hne]; [by rewrite E0|].
  rewrite (bool_decide_false (stripped s = [])), strsplit_cstr, Ed by congruence.
  pose proof (nr_strsplit_tokens (stripped s) (lit ";") true Hc Hne ltac:(by apply (bool_decide_unpack _)) ltac:(done)) as Ha.
  set (split_str := nr_strsplit _ _ _) in *. rewrite (TraceContext.array_size _ _ Ha). set (ps := tokens _ _ _) in *.
  assert (Forall is_cstr ps) as Hps by by apply SegmentTerms.tokens_cstr.
  assert ((if NR_LABEL_PAIR_LIMIT <? Z.of_nat (length ps) then NR_LABEL_PAIR_LIMIT else Z.of_nat (length ps)) =
    Z.of_nat (Z.to_nat NR_LABEL_PAIR_LIMIT `min` length ps)) as -> by (unfold NR_LABEL_PAIR_LIMIT; destruct (Z.ltb_spec 64 (Z.of_nat (length ps))); lia).
  pose proof (label_loop_spec split_str ps Ha Hps (Z.to_nat NR_LABEL_PAIR_LIMIT `min` length ps) 0 (Some nro_new_hash) ∅ ltac:(lia)) as Hl.
  rewrite fmap_empty in Hl. specialize (Hl map_new). change (Z.of_nat 0) with 0 in Hl. rewrite drop_0 in Hl.
  assert (take (Z.to_nat NR_LABEL_PAIR_LIMIT `min` length ps) ps = label_texts s) as Et.
  { unfold label_texts. fold ps. destruct (decide (length ps ≤ Z.to_nat NR_LABEL_PAIR_LIMIT)%nat); [rewrite !take_ge by lia; done|f_equal; lia]. }
  rewrite Et in Hl. destruct Ha as [c Hsplit]. rewrite Hsplit in Hl |- *. destruct (mapM label_of (label_texts s)) as [ls|]; [|done].
  destruct Hl as [Hls (a & es & Eo & Hok & Hm)]. rewrite Eo. inversion Hok as [| | | | | | | |? ? _ Hn Hks Hvs|]; subst.
  destruct (entries_of es (label_map ls ∅) Hn Hm) as (ts & -> & Hts). rewrite entries_keys in Hn, Hks.
  destruct (format_spec ts a) as [n En]; [by apply entries_cstr|]. by exists a, ts, n.
Qed.

Lemma nr_labels_parse_reads_pairs_witness : ∃ a es n,
  nr_labels_parse (Some (lit "; a : b ;c:d;a:e ")) = Some (OHash a (entries es)) ∧ (list_to_map es : gmap _ _) = {[lit "c" := lit "d"; lit "a" := lit "e"]} ∧
  nr_labels_connector_format (nr_labels_parse (Some (lit "; a : b ;c:d;a:e "))) = Some (OArray n (label_object <$> es)).
Proof.
  destruct (nr_labels_parse_reads_pairs (lit "; a : b ;c:d;a:e ")) as (a & es & n & E & _ & Hm & En).
  - by apply (bool_decide_unpack _).
  - exists a, es, n. split; [exact E|]. split; [|exact En]. rewrite Hm. apply (bool_decide_unpack _). vm_compute. exact I.
Defined.
